(* ===== verification/_CoqProject ===== *)
-Q . S2P
Prelude.v
Core.v
Messaging.v
Concurrency.v
Transport.v
TransportLife.v
OrderedMap.v
LimitOrderBook.v
BookSpec.v
Matching.v
BookOps.v
BookTheorems.v
BookQueries.v
RingBuffer.v
RingConcurrent.v
SharedMemory.v
Doubles.v
Fix.v
LogFormat.v
Gateway.v
FixClient.v
MarketData.v
MarketDataPath.v
SnapshotJson.v
MatchingEngine.v
EngineTheorems.v
BalanceChecker.v
OrderManager.v
OrderValidation.v
OrderSettlement.v
Exchange.v
Inflight.v
MarketFlow.v
MarketSystem.v
MarketSafety.v
MarketRun.v
MarketFaults.v
MarketBid.v
OrderPath.v
PgArray.v
Postgres.v
DatabaseClient.v
DatabaseTheorems.v
DatabaseSpecs.v
DatabaseEffects.v
AsyncWriter.v
QuestDb.v
DatabaseWrapper.v
Json.v
BackendConfig.v
Backend.v
BackendServers.v
BackendSamples.v
BackendPorts.v
BackendSafety.v
BackendSessions.v
BackendSpecs.v
MarketDataHandler.v
MarketMaker.v
Oracle.v
Traders.v
Deployment.v
UatSeeder.v
BackendMain.v
Worker.v
ServerTrace.v
Startup.v
Polling.v
