(* ===== verification/Prelude.v ===== *)
(** * The EduX exchange: a verification development

    EduX is an exchange for teaching, a set of C++ services that talk over
    websockets and shared memory.  A trader's program uses the client SDK to send
    FIX messages to the gateway; the gateway turns them into containers for the
    order manager, which checks and reserves balances, numbers the orders and
    forwards them to the matching engine; the engine matches them in one limit
    order book per symbol and answers with trades and cancel responses, which the
    order manager settles, persists and reports back through the gateway.  The
    engine also puts every trade and regular book snapshots into ring buffers in
    shared memory, from which the market data processor feeds its clients.  The
    services keep users, servers and balances in PostgreSQL and orders and trades in
    QuestDB through one database client.  A backend answers the HTTP requests of the
    frontend: it creates, configures and removes servers, which it has deployed on
    free ports by a deployment server.  Simulated traders populate a server: market
    makers, noise traders, and informed traders who follow an oracle's true prices.

    ** Files, parts and sources (paths under src/)

    - [Prelude]: outcomes of C++ code, machine integers, shared lemmas and tactics.
    - [Core]: libs/core (orders.h, containers.h, constants.h, service.h, trade.h,
      orderbook_snapshot.h) and libs/uuid/uuid.h.
    - [Messaging]: libs/transport/messaging.h, over the interface [ProtoCodec] of the
      generated protobuf classes.
    - [Concurrency]: libs/core/thread_safe_queue.h and spinlock_mutex.h.
    - [Transport]: the interfaces libs/transport/inbound_server.h and
      outbound_client.h with their laws, and the websocket manager
      (libs/transport/websocket) that implements them over the interface [Endpoint]
      of websocketpp; [TransportLife]: how a manager starts, stops and is destroyed
      beside its network thread.
    - [OrderedMap], [LimitOrderBook]: services/matching_engine/src/order.cpp and
      limit_order_book.cpp; [BookSpec] the specification and invariant of a book;
      [Matching], [BookOps] the proofs; [BookTheorems], [BookQueries] the theorems.
    - [RingBuffer], [RingConcurrent]: libs/inter_process/
      mpsc_shared_memory_ring_buffer.h, used by one thread, and by many producers and
      a consumer whose atomic accesses interleave; and shared_memory_publisher.h;
      [SharedMemory]: the class of the same header that creates, opens, moves and
      destroys rings, over a model of the POSIX calls in which each may fail.
    - [MatchingEngine], [EngineTheorems]: services/matching_engine/src/
      matching_engine.cpp and the connection callback of its main.cpp.
    - [BalanceChecker], [OrderManager]: services/order_manager/src/
      balance_checker.cpp, order_manager.cpp, order_manager_database.h and the
      callback of main.cpp; [OrderValidation] and [OrderSettlement] the theorems.
    - [Doubles], [Fix]: the decimal conversions and the FIX conversions of
      libs/core/orders.h, over the interfaces [FixLibrary] and [FixSession] of
      QuickFIX; [Gateway]: services/gateway/src/gateway_application.cpp;
      [FixClient]: client_sdk.
    - [LogFormat]: the formatters of libs/core/orders.h and containers.h.
    - [MarketData]: services/market_data_processor and the JSON conversions of
      trade.h and orderbook_snapshot.h, over the interface [JsonLibrary];
      [SnapshotJson]: the reader of snapshots; [MarketDataPath]: the rings that the
      processor creates and the engine opens, by name, and what arrives in which.
    - [Exchange]: what the order manager, the engine and the feed guarantee together.
    - [Inflight], [MarketFlow], [MarketSystem], [MarketSafety], [MarketRun]: the
      order manager and the engine as one transition system whose messages take
      time to arrive: quantities by order in books, requests and responses; the
      effect of each event; the invariant; that no message breaks its reader; and
      the loops of both services, which simulate it.  [MarketFaults]: two runs
      outside its assumptions.  [MarketBid]: market bids, from the query for their cost
      to their settlement.  [OrderPath]: a limit order from the trader's call to the book.
    - [ServerTrace], [Startup], [Polling]: the main programs of the engine and of the
      order manager (main.cpp of both) on a server that records its events: how they
      find each other, and how the order manager serves its gateways.
    - [PgArray]: the array literals of libs/database/database_client.h; [Postgres]: the
      tables of scripts/db_scripts/init_postgresql.sql, the client's SQL statements and
      its transactions, over the interface [Postgres]; [DatabaseClient]: the operations
      on the core database; [DatabaseTheorems], [DatabaseSpecs], [DatabaseEffects]
      their integrity, results and effects under failures.
    - [AsyncWriter], [QuestDb]: the writer thread and the operations on QuestDB of the
      same header, over [LineSender] and [QuestServer]; [DatabaseWrapper]:
      services/order_manager/src/database_client_wrapper.h, which implements the
      interface [OrderManagerDatabase] of the order manager.
    - [Json], [BackendConfig], [Backend], [BackendServers]: services/backend_service/
      request_handler.cpp and the session of main.cpp, over the interfaces [Boost],
      [DeploymentServer] and [Unordered]; [BackendPorts], [BackendSafety],
      [BackendSpecs] the theorems, [BackendSamples] concrete requests;
      [BackendSessions]: requests that overlap; [UatSeeder]: uat_seeder.h;
      [BackendMain]: the main program (main.cpp).
    - [MarketDataHandler], [MarketMaker], [Oracle], [Traders]: simulation/traders;
      [Worker]: their threads; [Deployment]: simulation/deployment with libs/configuration/
      simulation_config.h and libs/logger/logger.h, over the interfaces [Spdlog] and
      [QuickFix].

    A state is a record with the fields of the C++ class, an operation a function on
    it in the error monad [res], a handler the whole handler with its guards and
    early returns.  Loops that never end ([run], [start]) are their bodies; the
    theorems on them are about every state that such steps reach.  Code outside the
    repository is a class of operations with laws that state its documented
    behaviour; each theorem that uses laws has a witness with a concrete instance.

    ** What the theorems show

    - Limit order book: [add_order] refines price-time priority matching on a list
      of orders and never fails on a well-formed book; the invariant (levels sorted,
      ids and iterators exact, nothing crossed) holds in every reachable book;
      trades conserve quantity; [cancel_order] removes exactly one order; the quote
      of [get_fill_cost] is what the market order pays; snapshots are the aggregates
      of the best levels.
    - Matching engine: every handler on every branch; the trades that a new order
      causes are announced without loss, repetition or reordering; the engine's
      state stays well formed.
    - Order manager: validation reserves exactly what an accepted order needs; a
      trade settles exactly the two parties; cash and stock are conserved over any
      sequence of accepted orders, trades and cancellations; every request is
      answered once; ids are fresh and recoverable.
    - Messages, queues, connections: containers survive the wire; the shared queue
      and each websocket connection are first in, first out; the destructor of a
      websocket manager ends; the ring buffer is a bounded first in, first out
      queue for any number of producers and one consumer, and answers "full" only
      when it was full, "empty" only when it was empty or its oldest value not yet
      published.
    - FIX: what a trader submits is the container the gateway forwards; a message
      that says no order is rejected; what a trader sees of a report; how far
      decimal prices survive the conversions.
    - Feed: each turn of the market data processor relays the oldest messages to
      every client, in order.
    - Shared memory: who creates and who opens a ring by name share one queue;
      every mapping belongs to one live object through all moves, destructions and
      failures; every message of the engine arrives in the ring of its symbol and
      kind, in order, and in no other.
    - Together, for limit orders and cancel requests, as long as the links lose nothing
      and every trade is sent in the iteration that made it: in every interleaving of
      the loops of the order manager and the engine, with messages under way, no cash
      or stock is created or lost, balances stay non-negative and, when nothing is
      under way, the records of the order manager agree with the books; no message
      makes its reader fail, except by an arithmetic overflow, or a cancel request
      whose symbol has no book.  The same conservation with market bids, from the
      question for their cost to their last trade: the engine charges what it quoted.
      What a trader submits is what the book executes.
    - Start-up: the engine waits for both connections of the order manager, in
      whatever order they open, and then reads from the one and answers on these two
      only; the order manager polls the gateways that were there when its loop began in
      turn and passes over none, as long as no other connects.
    - Database: keys stay unique and references valid under all operations of all
      clients with requests that fail at any point, commits in doubt included; a
      server is read back as it was created and deleted without a trace; initial cash
      is granted once; accounts log in with their password; array literals are parsed
      for every text; the writer thread loses and reorders nothing and ends with
      everything sent; the order manager starts with the stored balances.
    - Backend: accepted requests are well formed; the search for ports ends with free
      ones, and no port belongs to two servers unless creations overlap; only its
      administrator touches a server; nothing is deployed that the database does not know, and
      what it knows is what the request asked for; a removed server
      leaves nothing behind and its services were stopped; a run in UAT mode
      leaves the database as it was, but for accounts signed up meanwhile.
    - Simulation: the sliding sums are the sums over the window; a round of quotes
      replaces the last one; true prices reach the traders; an informed trader waits
      between orders; a noise trader sends sensible orders only; the deployment
      programs, given usable settings files, run exactly the traders whose logon came,
      each on its own session with the configured values; their threads stop when they
      are told to, if those whose [start] does not look are not started twice.
    - Log: a line identifies the message, up to absent values.
    - Some theorems state defects of the code: a lock that excludes nobody, arrays
      one byte short, overflowing settlement of large orders, stranded market asks,
      unchecked cancels, statuses that fall through, an inverted comparison, a history
      that cannot be read, members lost by a reconfiguration, servers left behind by a
      failed deployment, inventories that never change, a cancellation that
      overtakes trades and creates cash, a cancel request that stops the engine, rings
      orphaned by a restart, messages lost to a late initialisation, requests that are
      confirmed but never sent, connections that an impostor takes over, ports that two
      overlapping creations share, test data that a taken port leaves behind, handlers
      that use destroyed members.

    ** Bounds and fuel

    [match_levels] recurses on fuel that its caller sets to the number of levels of
    the side, which is enough because every iteration removes one or exhausts the
    quantity: the refinement theorem concludes [Ok].  The other loops over orders,
    levels, trades and symbols are structural.  The retry loop of [try_push] needs no
    retry when one thread runs, so its fuel is 0 and the theorem again concludes [Ok].
    The parser of arrays has one unit of fuel per character, the search for a port one
    per used port and one more; the theorems on them conclude that this is enough.
    Random draws and clock readings of the simulation are inputs over which the
    theorems quantify.  Ring buffer positions are assumed below [2^62], where the signed
    difference of the code is exact.  A wait for a message that never comes is the
    outcome [Blocked].  The steps of the exchange in [MarketRun] are all iterations of the two loops; the theorems on them are about
    runs with limit orders (of any price but [INT_MAX]) and cancel requests whose links
    are up ([orderly]), and [MarketBid] adds market bids, whose question, answer,
    decision, execution and settlement are steps of their own; the codec gives back
    what was sent ([CodecFaithful]).  The blocking push takes the
    list of the consumer's turns instead of fuel.  In the deployment programs an
    endless loop counts as returning, and the fate of each logon is an input.

    ** Not modelled

    Memory orders weaker than sequential consistency; what the order manager does after
    a gateway has connected once its loop has started (the callback invalidates the
    loop's iterator: the phase [om_undefined] of [Polling]); the texts of log messages
    other than those of containers, and signal handlers; the reading of TOML
    files; SQL texts whose table name is not an identifier (the result is then left to the interface); requests that several threads of the
    backend send through one connection at the same time; isolation of transactions
    of different clients finer than one whole operation; market asks and failed
    sends in the theorems on the exchange as a whole (market asks strand stock,
    [Exchange]), and the gateway as its third part; threads of backend sessions that outlive the main program; the configuration
    structures that only carry arguments; the printing of connection metadata. *)

From stdpp Require Import base option list gmap strings fin_maps sorting.
From Stdlib Require Import ZArith Lia.

Open Scope Z_scope.

(** ** Outcomes of C++ code

    Every operation that can stop the process, throw or leave the defined part
    of the language returns a [res].  The build never sets [NDEBUG] nor
    disables Boost.Contract (the CMake files pass no such flag), so assertions
    and contracts are live and each has its own outcome. *)
Inductive cpp_error :=
  | ContractViolation  (** a [BOOST_CONTRACT_ASSERT] failed: [std::terminate] *)
  | AssertionFailed    (** an [assert] failed: [abort] *)
  | Terminated         (** an explicit [std::terminate()] *)
  | OutOfRange         (** [std::out_of_range] from an [at] call *)
  | BadOptionalAccess  (** [std::bad_optional_access] from [value()] *)
  | InvalidArgument    (** [std::invalid_argument] *)
  | LogicError         (** [std::logic_error] *)
  | RuntimeError       (** [std::runtime_error] *)
  | FieldNotFound      (** [FIX::FieldNotFound] *)
  | IncorrectDataFormat (** [FIX::IncorrectDataFormat] *)
  | UnsupportedMessageType (** [FIX::UnsupportedMessageType] *)
  | SignedOverflow     (** undefined: signed arithmetic left its type *)
  | DivisionByZero     (** undefined: integer division by zero *)
  | BadConversion      (** undefined: a double that the integer type cannot hold *)
  | OutOfBounds        (** undefined: write past the end of an array *)
  | DanglingIterator   (** undefined: dereference of an erased list node *)
  | Blocked            (** waits for something that never comes *)
  | OutOfFuel.         (** the model's loop bound was too small *)

#[export] Instance cpp_error_eq_dec : EqDecision cpp_error.
Proof. solve_decision. Defined.

Inductive res (A : Type) :=
  | Ok (a : A)
  | Err (e : cpp_error).
Arguments Ok {A} a.
Arguments Err {A} e.

#[export] Instance res_ret : MRet res := fun A a => Ok a.
#[export] Instance res_bind : MBind res := fun A B f m =>
  match m with Ok a => f a | Err e => Err e end.
#[export] Instance res_fmap : FMap res := fun A B f m =>
  match m with Ok a => Ok (f a) | Err e => Err e end.

Declare Scope cpp_scope.
Delimit Scope cpp_scope with cpp.

(** [BOOST_CONTRACT_ASSERT(b)], [assert(b)] and a failed lookup, as statements. *)
Definition check (e : cpp_error) (b : bool) : res unit :=
  if b then Ok tt else Err e.
Abbreviation contract := (check ContractViolation).
Abbreviation cassert := (check AssertionFailed).

(** [m.at(k)] and [o.value()]. *)
Definition get_or {A} (e : cpp_error) (o : option A) : res A :=
  match o with Some a => Ok a | None => Err e end.
Abbreviation at_ := (get_or OutOfRange).
Abbreviation value_ := (get_or BadOptionalAccess).

Definition is_ok {A} (r : res A) : bool := match r with Ok _ => true | Err _ => false end.

(** [for (x : l) s = f(s, x)] with a body that may stop the program. *)
Fixpoint foldM {A S} (f : S -> A -> res S) (s : S) (l : list A) : res S :=
  match l with
  | [] => Ok s
  | x :: l' => s' ← f s x; foldM f s' l'
  end.

Fixpoint mapM_res {A B} (f : A -> res B) (l : list A) : res (list B) :=
  match l with
  | [] => Ok []
  | x :: l' => y ← f x; ys ← mapM_res f l'; Ok (y :: ys)
  end.

Lemma bind_ok {A B} (m : res A) (f : A -> res B) b :
  (x ← m; f x) = Ok b <-> exists a, m = Ok a /\ f a = Ok b.
Proof. destruct m; simpl; naive_solver. Qed.

Lemma check_ok e b : check e b = Ok tt <-> b = true.
Proof. destruct b; simpl; split; congruence. Qed.

Lemma get_or_ok {A} e (o : option A) a : get_or e o = Ok a <-> o = Some a.
Proof. destruct o; simpl; split; congruence. Qed.

Lemma foldM_app {A S} (f : S -> A -> res S) s l1 l2 :
  foldM f s (l1 ++ l2) = (s' ← foldM f s l1; foldM f s' l2).
Proof.
  revert s; induction l1 as [|x l1 IH]; intros s; simpl; [done|].
  destruct (f s x); simpl; auto.
Qed.

(** A property kept by each iteration is kept by the loop. *)
Lemma foldM_inv {A S} (P : S -> Prop) (f : S -> A -> res S) l s s' :
  (forall x s1 s2, x ∈ l -> P s1 -> f s1 x = Ok s2 -> P s2) ->
  P s -> foldM f s l = Ok s' -> P s'.
Proof.
  revert s; induction l as [|x l IH]; intros s Hf Hs; simpl.
  - by intros [= <-].
  - intros (s1 & Hs1 & Hl)%bind_ok. apply (IH s1); [|eapply (Hf x s); [left|done..]|done].
    intros y ????. by apply (Hf y); [right|..].
Qed.

(** Step through a successful monadic computation in a hypothesis or goal. *)
Ltac ok_step :=
  match goal with
  | H : (mbind _ _) = Ok _ |- _ => apply bind_ok in H as (? & ? & H)
  | H : check _ _ = Ok ?u |- _ => destruct u; apply check_ok in H
  | H : get_or _ _ = Ok _ |- _ => apply get_or_ok in H
  | H : Ok _ = Ok _ |- _ => injection H as H
  | H : Err _ = Ok _ |- _ => discriminate H
  | H : Some _ = Some _ |- _ => injection H as H
  | H : (_ && _)%bool = true |- _ => apply andb_true_iff in H as [? ?]
  end.
Ltac ok_inv := repeat (ok_step; simplify_eq/=).

(** ** Machine integers

    [int] and [std::int32_t] are 32-bit, [std::int64_t] 64-bit two's
    complement.  Signed arithmetic that leaves the type is undefined in C++:
    it is the outcome [SignedOverflow], so a theorem that concludes [Ok] also
    shows that no such arithmetic happened.  [std::size_t] and [std::uint64_t]
    wrap around. *)
Definition INT_MAX : Z := 2147483647.
Definition INT_MIN : Z := -2147483648.
Definition INT64_MAX : Z := 9223372036854775807.
Definition INT64_MIN : Z := -9223372036854775808.

Definition in_i32 (z : Z) : bool := (INT_MIN <=? z) && (z <=? INT_MAX).
Definition in_i64 (z : Z) : bool := (INT64_MIN <=? z) && (z <=? INT64_MAX).

Definition i32 (z : Z) : res Z := if in_i32 z then Ok z else Err SignedOverflow.
Definition i64 (z : Z) : res Z := if in_i64 z then Ok z else Err SignedOverflow.

Definition add32 (a b : Z) : res Z := i32 (a + b).
Definition sub32 (a b : Z) : res Z := i32 (a - b).
Definition mul32 (a b : Z) : res Z := i32 (a * b).
Definition add64 (a b : Z) : res Z := i64 (a + b).
Definition mul64 (a b : Z) : res Z := i64 (a * b).
(** C++ [/] truncates towards zero. *)
Definition div32 (a b : Z) : res Z :=
  if b =? 0 then Err DivisionByZero else i32 (Z.quot a b).

Definition u64 (z : Z) : Z := z mod 2 ^ 64.
(** [static_cast<std::intptr_t>] of a 64-bit pattern. *)
Definition to_i64 (z : Z) : Z := if u64 z <? 2 ^ 63 then u64 z else u64 z - 2 ^ 64.

Ltac unfold_int :=
  unfold add32, sub32, mul32, add64, mul64, i32, i64, in_i32, in_i64,
    INT_MAX, INT_MIN, INT64_MAX, INT64_MIN in *.

Lemma i32_ok z : INT_MIN <= z <= INT_MAX -> i32 z = Ok z.
Proof. unfold_int. intros. by rewrite (proj2 (Z.leb_le _ _)), (proj2 (Z.leb_le _ _)) by lia. Qed.

Lemma i64_ok z : INT64_MIN <= z <= INT64_MAX -> i64 z = Ok z.
Proof. unfold_int. intros. by rewrite (proj2 (Z.leb_le _ _)), (proj2 (Z.leb_le _ _)) by lia. Qed.

Lemma i32_inv z z' : i32 z = Ok z' -> z' = z /\ INT_MIN <= z <= INT_MAX.
Proof. unfold_int. destruct (andb _ _) eqn:E; [|done]. intros [= <-]. lia. Qed.

Lemma i64_inv z z' : i64 z = Ok z' -> z' = z /\ INT64_MIN <= z <= INT64_MAX.
Proof. unfold_int. destruct (andb _ _) eqn:E; [|done]. intros [= <-]. lia. Qed.

Lemma i32_overflow z : z < INT_MIN \/ INT_MAX < z -> i32 z = Err SignedOverflow.
Proof. unfold_int. intros. destruct (andb _ _) eqn:E; [lia|done]. Qed.

Ltac int_inv :=
  repeat match goal with
  | H : add32 _ _ = Ok _ |- _ => apply i32_inv in H as [? ?]
  | H : sub32 _ _ = Ok _ |- _ => apply i32_inv in H as [? ?]
  | H : mul32 _ _ = Ok _ |- _ => apply i32_inv in H as [? ?]
  | H : add64 _ _ = Ok _ |- _ => apply i64_inv in H as [? ?]
  | H : mul64 _ _ = Ok _ |- _ => apply i64_inv in H as [? ?]
  | H : i32 _ = Ok _ |- _ => apply i32_inv in H as [? ?]
  | H : i64 _ = Ok _ |- _ => apply i64_inv in H as [? ?]
  end; subst.

(** ** Sums of integers over lists *)
Definition sumZ {A} (f : A -> Z) (l : list A) : Z := foldr (fun x s => f x + s) 0 l.

Lemma sumZ_app {A} (f : A -> Z) l1 l2 : sumZ f (l1 ++ l2) = sumZ f l1 + sumZ f l2.
Proof. induction l1; simpl; lia. Qed.

Lemma sumZ_rev {A} (f : A -> Z) l : sumZ f (reverse l) = sumZ f l.
Proof.
  induction l as [|x l IH]; [done|].
  rewrite reverse_cons, sumZ_app. simpl. lia.
Qed.

Lemma sumZ_perm {A} (f : A -> Z) l1 l2 : l1 ≡ₚ l2 -> sumZ f l1 = sumZ f l2.
Proof. induction 1; simpl; lia. Qed.

Lemma sumZ_nonneg {A} (f : A -> Z) l : Forall (fun x => 0 <= f x) l -> 0 <= sumZ f l.
Proof. induction 1; simpl; lia. Qed.

Lemma sumZ_pos {A} (f : A -> Z) l : l <> [] -> Forall (fun x => 0 < f x) l -> 0 < sumZ f l.
Proof.
  intros Hne Hall. destruct Hall as [|x l Hx Hl]; [done|]. simpl.
  assert (0 <= sumZ f l); [|lia].
  apply sumZ_nonneg. eapply Forall_impl; [done|]. simpl; lia.
Qed.

Lemma sumZ_map {A B} (f : B -> Z) (g : A -> B) l : sumZ f (map g l) = sumZ (f ∘ g) l.
Proof. induction l; simpl; auto with f_equal. Qed.

(** ** Texts as lists of characters *)
Lemma chars_app (a b : string) :
  String.list_ascii_of_string (a +:+ b) = (String.list_ascii_of_string a ++ String.list_ascii_of_string b)%list.
Proof. induction a as [|c a IH]; simpl; [done|]. by rewrite <- IH. Qed.

#[export] Instance chars_inj : Inj (=) (=) String.list_ascii_of_string.
Proof.
  intros a b E. by rewrite <- (String.string_of_list_ascii_of_string a), E, String.string_of_list_ascii_of_string.
Qed.

Lemma append_inj_r (a b c : string) : a +:+ c = b +:+ c -> a = b.
Proof.
  intros E%(f_equal String.list_ascii_of_string). rewrite !chars_app in E.
  by apply app_inv_tail, (inj String.list_ascii_of_string) in E.
Qed.

Lemma append_assoc (a b c : string) : (a +:+ b) +:+ c = a +:+ b +:+ c.
Proof. apply (inj String.list_ascii_of_string). by rewrite !chars_app, app_assoc. Qed.

Create HintDb edux discriminated.
#[export] Hint Constants Transparent : edux.
#[export] Hint Resolve i32_ok i64_ok : edux.
#[export] Hint Rewrite @sumZ_app @sumZ_rev @sumZ_map : edux.
