(* ===== verification/Core.v ===== *)
(** * Shared vocabulary of the services

    [libs/core]: the order enumerations ([orders.h]), the message containers
    that travel between the services ([containers.h]), the constants
    ([constants.h]), the service names ([service.h]), the fixed-size [Trade]
    and order book snapshot structures ([trade.h], [orderbook_snapshot.h]) with
    their character arrays, and the UUID formatter ([libs/uuid/uuid.h]). *)

From S2P Require Import Prelude.
From Stdlib Require Import ZArith Lia Ascii String.
From stdpp Require Import base option list gmap strings fin_maps.

Open Scope Z_scope.

(** ** constants.h *)
Definition MAX_TICKER_LENGTH : nat := 5.
Definition MAX_USERNAME_LENGTH : nat := 16.
Definition UUID_LENGTH : nat := 37.
Definition ORDER_BOOK_AGGREGATE_LEVELS : nat := 50.
Definition OrderbookSnapshotRingBufferCapacity : Z := 1024.
Definition TradeRingBufferCapacity : Z := 1024.
Definition max_user_count : Z := 1000.

(** ** orders.h: enumerations *)
Inductive OrderType := limit | market.
Inductive Side := bid | ask.
Inductive TimeInForce := day | gtc.
Inductive ExecTransType :=
  | exec_trans_new | exec_trans_cancel | exec_trans_correct | exec_trans_status.
Inductive ExecTypeOrOrderStatus :=
  | status_new | status_partially_filled | status_filled
  | status_canceled | status_pending_cancel | status_rejected.

#[export] Instance OrderType_eq_dec : EqDecision OrderType.
Proof. solve_decision. Defined.
#[export] Instance Side_eq_dec : EqDecision Side.
Proof. solve_decision. Defined.
#[export] Instance TimeInForce_eq_dec : EqDecision TimeInForce.
Proof. solve_decision. Defined.
#[export] Instance ExecTransType_eq_dec : EqDecision ExecTransType.
Proof. solve_decision. Defined.
#[export] Instance ExecTypeOrOrderStatus_eq_dec : EqDecision ExecTypeOrOrderStatus.
Proof. solve_decision. Defined.

Definition opposite (s : Side) : Side := match s with bid => ask | ask => bid end.

Definition side_is_bid (s : Side) : bool := match s with bid => true | ask => false end.

(** ** containers.h *)
Record NewOrderSingleContainer := mkNewOrder {
  no_sender_comp_id : string;
  no_target_comp_id : string;
  no_order_id : option Z;
  no_cl_ord_id : Z;
  no_symbol : string;
  no_side : Side;
  no_order_qty : Z;
  no_ord_type : OrderType;
  no_price : option Z;
  no_time_in_force : TimeInForce
}.

Record CancelOrderRequestContainer := mkCancelRequest {
  cr_sender_comp_id : string;
  cr_target_comp_id : string;
  cr_order_id : option Z;
  cr_orig_cl_ord_id : Z;
  cr_cl_ord_id : Z;
  cr_symbol : string;
  cr_side : Side;
  cr_order_qty : Z
}.

Record ExecutionReportContainer := mkExecutionReport {
  er_sender_comp_id : string;
  er_target_comp_id : string;
  er_order_id : Z;
  er_cl_order_id : Z;
  er_orig_cl_ord_id : option Z;
  er_exec_id : string;
  er_exec_trans_type : ExecTransType;
  er_exec_type : ExecTypeOrOrderStatus;
  er_ord_status : ExecTypeOrOrderStatus;
  er_text : option string;
  er_symbol : string;
  er_side : Side;
  er_price : option Z;
  er_time_in_force : TimeInForce;
  er_leaves_qty : Z;
  er_cum_qty : Z;
  er_avg_px : Z
}.

Record FillCostQueryContainer := mkFillCostQuery {
  fq_symbol : string;
  fq_quantity : Z;
  fq_side : Side
}.

Record FillCostResponseContainer := mkFillCostResponse {
  fr_total_cost : option Z
}.

Record TradeContainer := mkTradeContainer {
  tc_ticker : string;
  tc_price : Z;
  tc_quantity : Z;
  tc_trade_id : string;
  tc_taker_id : string;
  tc_maker_id : string;
  tc_taker_order_id : Z;
  tc_maker_order_id : Z;
  tc_is_taker_buyer : bool
}.

Record CancelOrderResponseContainer := mkCancelResponse {
  cs_order_id : Z;
  cs_cl_ord_id : Z;
  cs_success : bool
}.

(** [core::Container], the variant of the seven. *)
Inductive Container :=
  | CNewOrderSingle (c : NewOrderSingleContainer)
  | CCancelOrderRequest (c : CancelOrderRequestContainer)
  | CExecutionReport (c : ExecutionReportContainer)
  | CFillCostQuery (c : FillCostQueryContainer)
  | CFillCostResponse (c : FillCostResponseContainer)
  | CTrade (c : TradeContainer)
  | CCancelOrderResponse (c : CancelOrderResponseContainer).

(** ** service.h *)
Inductive Service := gateway | oms | me | mdp | oracle.

Definition service_enum_to_str (s : Service) : string :=
  match s with
  | gateway => "gateway" | oms => "oms" | me => "me" | mdp => "mdp" | oracle => "oracle"
  end.

Definition service_str_to_enum (s : string) : Service + string :=
  if String.eqb s "gateway" then inl gateway
  else if String.eqb s "oms" then inl oms
  else if String.eqb s "me" then inl me
  else if String.eqb s "mdp" then inl mdp
  else if String.eqb s "oracle" then inl oracle
  else inr ("trying to convert unknown service str to enum: " +:+ s)%string.

(** ** C strings in character arrays

    A [std::string] may hold NUL bytes; [strlen] and the conversion of a
    [char] array to [std::string] stop at the first one. *)
Definition NUL : ascii := Ascii.zero.

Fixpoint take_cstr (l : list ascii) : list ascii :=
  match l with
  | [] => []
  | c :: l' => if Ascii.eqb c NUL then [] else c :: take_cstr l'
  end.

Definition c_str (s : string) : list ascii := take_cstr (list_ascii_of_string s).
Definition strlen (s : string) : nat := length (c_str s).

(** [memcpy(arr, s, len)] and [arr[i] = c], with their bounds. *)
Definition memcpy (arr src : list ascii) : res (list ascii) :=
  if (length src <=? length arr)%nat then Ok (src ++ drop (length src) arr)
  else Err OutOfBounds.

Definition set_char (arr : list ascii) (i : nat) (c : ascii) : res (list ascii) :=
  if (i <? length arr)%nat then Ok (<[i := c]> arr) else Err OutOfBounds.

(** A [char] array read as a C string: undefined when no byte of it is NUL. *)
Definition read_cstr (arr : list ascii) : res string :=
  if existsb (fun c => Ascii.eqb c NUL) arr
  then Ok (string_of_list_ascii (take_cstr arr)) else Err OutOfBounds.

(** The body that [Trade] repeats for each of its arrays. *)
Definition copy_field (cap : nat) (s : string) : res (list ascii) :=
  let len := strlen s in
  _ ← cassert ((0 <? len)%nat && (len <? cap)%nat);
  arr ← memcpy (replicate cap NUL) (c_str s);
  set_char arr len NUL.

(** ** trade.h *)
Record Trade := mkTrade {
  tr_ticker : list ascii;
  tr_price : Z;
  tr_quantity : Z;
  tr_trade_id : list ascii;
  tr_taker_id : list ascii;
  tr_maker_id : list ascii;
  tr_taker_order_id : Z;
  tr_maker_order_id : Z;
  tr_is_taker_buyer : bool;
  tr_create_timestamp : Z
}.

Definition Trade_ctor (ticker_str : string) (price quantity : Z)
    (trade_id taker_id maker_id : string) (taker_order_id maker_order_id : Z)
    (is_taker_buyer : bool) (create_timestamp : Z) : res Trade :=
  ticker ← copy_field MAX_TICKER_LENGTH ticker_str;
  tid ← copy_field UUID_LENGTH trade_id;
  tk ← copy_field MAX_USERNAME_LENGTH taker_id;
  mk ← copy_field MAX_USERNAME_LENGTH maker_id;
  Ok (mkTrade ticker price quantity tid tk mk taker_order_id maker_order_id
        is_taker_buyer create_timestamp).

(** ** orderbook_snapshot.h *)
Record LevelAggregate := mkLevelAggregate { la_price : Z; la_quantity : Z }.

Record TopOrderBookLevelAggregates := mkTopAggregates {
  top_ticker : list ascii;
  top_bids : list LevelAggregate;
  top_asks : list LevelAggregate;
  top_create_timestamp : Z
}.

(** The terminator goes to index [len + 1], not [len]. *)
Definition TopOrderBookLevelAggregates_ctor (ticker_str : string) (create_timestamp : Z)
    : res TopOrderBookLevelAggregates :=
  let len := strlen ticker_str in
  _ ← cassert ((0 <? len)%nat && (len <? MAX_TICKER_LENGTH)%nat);
  arr ← memcpy (replicate MAX_TICKER_LENGTH NUL) (c_str ticker_str);
  ticker ← set_char arr (len + 1) NUL;
  let zero := replicate ORDER_BOOK_AGGREGATE_LEVELS (mkLevelAggregate 0 0) in
  Ok (mkTopAggregates ticker zero zero create_timestamp).

(** ** uuid.h: [format_uuid_canonical] *)
Definition HEX_DIGITS : list ascii := list_ascii_of_string "0123456789abcdef".

Definition hex_digit (n : Z) : ascii := default NUL (HEX_DIGITS !! Z.to_nat n).

(** Iterations [i], [i+1], ... of the loop over the 16 bytes. *)
Fixpoint format_bytes (i : nat) (bytes : list Z) : list ascii :=
  match bytes with
  | [] => []
  | byte :: rest =>
      (if bool_decide (i ∈ [4; 6; 8; 10]%nat) then ["-"%char] else []) ++
      hex_digit (Z.land (Z.shiftr byte 4) 15) :: hex_digit (Z.land byte 15) ::
      format_bytes (S i) rest
  end.

Definition format_uuid_canonical (id : list Z) : string :=
  string_of_list_ascii (format_bytes 0 (take 16 id)).

(** ** Lemmas on C strings *)
Lemma take_cstr_no_nul l : NUL ∉ take_cstr l.
Proof.
  induction l as [|c l IH]; simpl; [set_solver|].
  destruct (Ascii.eqb_spec c NUL); set_solver.
Qed.

Lemma take_cstr_app_nul l l' : NUL ∉ l -> take_cstr (l ++ NUL :: l') = l.
Proof.
  induction l as [|c l IH]; intros Hn; simpl; [done|].
  destruct (Ascii.eqb_spec c NUL) as [->|]; [set_solver|].
  rewrite IH; [done|set_solver].
Qed.

Lemma read_cstr_app l l' :
  NUL ∉ l -> read_cstr (l ++ NUL :: l') = Ok (string_of_list_ascii l).
Proof.
  intros Hn. unfold read_cstr. rewrite take_cstr_app_nul by done.
  by rewrite existsb_app, orb_true_r.
Qed.

(** What a field of a [Trade] holds after its constructor. *)
Lemma copy_field_ok cap s :
  (0 < strlen s < cap)%nat ->
  copy_field cap s = Ok (c_str s ++ replicate (cap - strlen s) NUL).
Proof.
  intros Hlen. unfold copy_field, memcpy, set_char, strlen in *.
  rewrite length_replicate.
  rewrite (proj2 (Nat.ltb_lt _ _)), (proj2 (Nat.ltb_lt _ _)), (proj2 (Nat.leb_le _ _)) by lia.
  simpl. rewrite drop_replicate, length_app, length_replicate.
  rewrite (proj2 (Nat.ltb_lt _ _)) by lia. f_equal.
  rewrite insert_app_r_alt, Nat.sub_diag by lia. f_equal.
  destruct (cap - length (c_str s))%nat eqn:E; [lia|done].
Qed.

Lemma copy_field_read cap s arr :
  copy_field cap s = Ok arr -> read_cstr arr = Ok (string_of_list_ascii (c_str s)).
Proof.
  intros Hok. assert (0 < strlen s < cap)%nat as Hlen.
  { unfold copy_field in Hok. ok_inv.
    repeat match goal with H : (_ <? _)%nat = true |- _ => apply Nat.ltb_lt in H end. lia. }
  rewrite copy_field_ok in Hok by done. ok_inv.
  destruct (cap - strlen s)%nat eqn:E; [lia|]. simpl.
  apply read_cstr_app, take_cstr_no_nul.
Qed.

Lemma copy_field_overlong cap s :
  (strlen s = 0 \/ cap <= strlen s)%nat -> copy_field cap s = Err AssertionFailed.
Proof.
  intros Hlen. unfold copy_field.
  destruct (_ && _) eqn:E; [|done].
  apply andb_true_iff in E as [?%Nat.ltb_lt ?%Nat.ltb_lt]. lia.
Qed.

(** A name or ticker that fits its array and holds no NUL is kept as it is. *)
Definition fits (cap : nat) (s : string) : bool :=
  ((0 <? strlen s)%nat && (strlen s <? cap)%nat &&
   bool_decide (NUL ∉ list_ascii_of_string s)).

Lemma take_cstr_id l : NUL ∉ l -> take_cstr l = l.
Proof.
  induction l as [|c l IH]; intros Hn; simpl; [done|].
  destruct (Ascii.eqb_spec c NUL) as [->|]; [set_solver|]. rewrite IH; [done|set_solver].
Qed.

Lemma copy_field_fits cap s :
  fits cap s = true -> exists arr, copy_field cap s = Ok arr /\ read_cstr arr = Ok s.
Proof.
  unfold fits. intros [[?%Nat.ltb_lt ?%Nat.ltb_lt]%andb_true_iff Hn%bool_decide_eq_true]%andb_true_iff.
  destruct (copy_field cap s) as [arr|] eqn:E; [|by rewrite copy_field_ok in E by lia].
  exists arr. split; [done|]. rewrite (copy_field_read _ _ _ E).
  unfold c_str. rewrite take_cstr_id by done. by rewrite string_of_list_ascii_of_string.
Qed.

(** ** The formatted UUID *)
Lemma hex_digit_not_nul x : hex_digit (Z.land x 15) <> NUL.
Proof.
  change 15 with (Z.ones 4). rewrite Z.land_ones by lia.
  pose proof (Z.mod_pos_bound x (2 ^ 4) ltac:(lia)) as Hb.
  generalize dependent (x mod 2 ^ 4). intros y Hy.
  assert (y ∈ (Z.of_nat <$> seq 0 16)) as Hin.
  { apply list_elem_of_fmap. exists (Z.to_nat y). split; [lia|]. apply elem_of_seq. lia. }
  simpl in Hin. rewrite !elem_of_cons, elem_of_nil in Hin.
  intuition (subst; discriminate).
Qed.

Lemma format_bytes_no_nul i bs : NUL ∉ format_bytes i bs.
Proof.
  revert i. induction bs as [|b bs IH]; intros i; simpl; [set_solver|].
  pose proof (hex_digit_not_nul (Z.shiftr b 4)). pose proof (hex_digit_not_nul b).
  assert (NUL <> "-"%char) by discriminate.
  specialize (IH (S i)). case_bool_decide; simpl; rewrite ?elem_of_cons; naive_solver.
Qed.

Lemma format_bytes_length bs : length bs = 16%nat -> length (format_bytes 0 bs) = 36%nat.
Proof. intros H. do 16 (destruct bs as [|? bs]; [discriminate|]). by destruct bs. Qed.

Lemma format_uuid_fits id : length id = 16%nat -> fits UUID_LENGTH (format_uuid_canonical id) = true.
Proof.
  intros Hlen. unfold fits, strlen, c_str, format_uuid_canonical.
  rewrite list_ascii_of_string_of_list_ascii, take_ge by lia.
  rewrite take_cstr_id by apply format_bytes_no_nul.
  rewrite format_bytes_length by done. simpl.
  apply bool_decide_eq_true, format_bytes_no_nul.
Qed.
