(* ===== verification/Messaging.v ===== *)
(** * Messages between the services

    [libs/transport/messaging.h] over [containers.proto].  The schema is an
    edition 2023 one: every field has explicit presence, so a message is a
    record of optional fields whose getter returns the type's default when the
    field is absent, and enumerations are open, so a received enumerator is any
    integer.  The generated classes' [SerializeAsString] and [ParseFromString]
    are the interface [ProtoCodec] with its law [ProtoCodecLaws]; a concrete
    codec shows that the law can hold. *)

From S2P Require Import Prelude Core.
From Stdlib Require Import ZArith Lia Ascii String.
From stdpp Require Import base option list gmap strings fin_maps countable.

Open Scope Z_scope.

(** ** containers.proto *)
Definition SIDE_BID : Z := 1.
Definition SIDE_ASK : Z := 2.
Definition ORDER_TYPE_LIMIT : Z := 1.
Definition ORDER_TYPE_MARKET : Z := 2.
Definition TIF_DAY : Z := 1.
Definition TIF_GTC : Z := 2.
Definition EXEC_TRANS_NEW : Z := 1.
Definition EXEC_TRANS_CANCEL : Z := 2.
Definition EXEC_TRANS_CORRECT : Z := 3.
Definition EXEC_TRANS_STATUS : Z := 4.
Definition STATUS_NEW : Z := 1.
Definition STATUS_PARTIALLY_FILLED : Z := 2.
Definition STATUS_FILLED : Z := 3.
Definition STATUS_CANCELED : Z := 4.
Definition STATUS_PENDING_CANCEL : Z := 5.
Definition STATUS_REJECTED : Z := 6.

Record PNewOrderSingle := mkPNewOrder {
  pno_sender_comp_id : option string; pno_target_comp_id : option string;
  pno_cl_ord_id : option Z; pno_symbol : option string; pno_side : option Z;
  pno_order_qty : option Z; pno_ord_type : option Z; pno_price : option Z;
  pno_time_in_force : option Z; pno_order_id : option Z
}.

Record PCancelOrderRequest := mkPCancelRequest {
  pcr_sender_comp_id : option string; pcr_target_comp_id : option string;
  pcr_order_id : option Z; pcr_orig_cl_ord_id : option Z; pcr_cl_ord_id : option Z;
  pcr_symbol : option string; pcr_side : option Z; pcr_order_qty : option Z
}.

Record PExecutionReport := mkPExecutionReport {
  per_sender_comp_id : option string; per_target_comp_id : option string;
  per_order_id : option Z; per_cl_order_id : option Z; per_orig_cl_ord_id : option Z;
  per_exec_id : option string; per_exec_trans_type : option Z; per_exec_type : option Z;
  per_ord_status : option Z; per_text : option string; per_symbol : option string;
  per_side : option Z; per_price : option Z; per_time_in_force : option Z;
  per_leaves_qty : option Z; per_cum_qty : option Z; per_avg_px : option Z
}.

Record PFillCostQuery := mkPFillCostQuery {
  pfq_symbol : option string; pfq_quantity : option Z; pfq_side : option Z
}.

Record PFillCostResponse := mkPFillCostResponse { pfr_total_cost : option Z }.

Record PTrade := mkPTrade {
  ptc_ticker : option string; ptc_price : option Z; ptc_quantity : option Z;
  ptc_trade_id : option string; ptc_taker_id : option string; ptc_maker_id : option string;
  ptc_taker_order_id : option Z; ptc_maker_order_id : option Z; ptc_is_taker_buyer : option bool
}.

Record PCancelOrderResponse := mkPCancelResponse {
  pcs_order_id : option Z; pcs_cl_ord_id : option Z; pcs_success : option bool
}.

(** The [oneof] of the wrapper; [CONTAINER_NOT_SET] when no member is there. *)
Inductive ContainerWrapper :=
  | kNewOrderSingle (m : PNewOrderSingle)
  | kCancelOrderRequest (m : PCancelOrderRequest)
  | kExecutionReport (m : PExecutionReport)
  | kFillCostQuery (m : PFillCostQuery)
  | kFillCostResponse (m : PFillCostResponse)
  | kTrade (m : PTrade)
  | kCancelOrderResponse (m : PCancelOrderResponse)
  | CONTAINER_NOT_SET.

(** ** Enumerations *)
Definition side_to_proto (side : Side) : Z :=
  match side with bid => SIDE_BID | ask => SIDE_ASK end.

Definition ord_type_to_proto (ord_type : OrderType) : Z :=
  match ord_type with limit => ORDER_TYPE_LIMIT | market => ORDER_TYPE_MARKET end.

Definition tif_to_proto (tif : TimeInForce) : Z :=
  match tif with day => TIF_DAY | gtc => TIF_GTC end.

Definition exec_trans_to_proto (t : ExecTransType) : Z :=
  match t with
  | exec_trans_new => EXEC_TRANS_NEW
  | exec_trans_cancel => EXEC_TRANS_CANCEL
  | exec_trans_correct => EXEC_TRANS_CORRECT
  | exec_trans_status => EXEC_TRANS_STATUS
  end.

Definition status_to_proto (s : ExecTypeOrOrderStatus) : Z :=
  match s with
  | status_new => STATUS_NEW
  | status_partially_filled => STATUS_PARTIALLY_FILLED
  | status_filled => STATUS_FILLED
  | status_canceled => STATUS_CANCELED
  | status_pending_cancel => STATUS_PENDING_CANCEL
  | status_rejected => STATUS_REJECTED
  end.

Definition side_to_internal (side : Z) : res Side :=
  if side =? SIDE_BID then Ok bid
  else if side =? SIDE_ASK then Ok ask
  else Err InvalidArgument.

Definition ord_type_to_internal (ord_type : Z) : res OrderType :=
  if ord_type =? ORDER_TYPE_LIMIT then Ok limit
  else if ord_type =? ORDER_TYPE_MARKET then Ok market
  else Err InvalidArgument.

Definition tif_to_internal (tif : Z) : res TimeInForce :=
  if tif =? TIF_DAY then Ok day
  else if tif =? TIF_GTC then Ok gtc
  else Err InvalidArgument.

Definition exec_trans_to_internal (t : Z) : res ExecTransType :=
  if t =? EXEC_TRANS_NEW then Ok exec_trans_new
  else if t =? EXEC_TRANS_CANCEL then Ok exec_trans_cancel
  else if t =? EXEC_TRANS_CORRECT then Ok exec_trans_correct
  else if t =? EXEC_TRANS_STATUS then Ok exec_trans_status
  else Err InvalidArgument.

Definition status_to_internal (s : Z) : res ExecTypeOrOrderStatus :=
  if s =? STATUS_NEW then Ok status_new
  else if s =? STATUS_PARTIALLY_FILLED then Ok status_partially_filled
  else if s =? STATUS_FILLED then Ok status_filled
  else if s =? STATUS_CANCELED then Ok status_canceled
  else if s =? STATUS_PENDING_CANCEL then Ok status_pending_cancel
  else if s =? STATUS_REJECTED then Ok status_rejected
  else Err InvalidArgument.

(** ** Filling the messages: one [serialize_container] overload each *)
Definition trade_to_proto (c : TradeContainer) : ContainerWrapper :=
  kTrade (mkPTrade (Some (tc_ticker c)) (Some (tc_price c)) (Some (tc_quantity c))
    (Some (tc_trade_id c)) (Some (tc_taker_id c)) (Some (tc_maker_id c))
    (Some (tc_taker_order_id c)) (Some (tc_maker_order_id c)) (Some (tc_is_taker_buyer c))).

Definition cancel_response_to_proto (c : CancelOrderResponseContainer) : ContainerWrapper :=
  kCancelOrderResponse
    (mkPCancelResponse (Some (cs_order_id c)) (Some (cs_cl_ord_id c)) (Some (cs_success c))).

Definition fill_cost_query_to_proto (c : FillCostQueryContainer) : ContainerWrapper :=
  kFillCostQuery (mkPFillCostQuery (Some (fq_symbol c)) (Some (fq_quantity c))
    (Some (side_to_proto (fq_side c)))).

Definition fill_cost_response_to_proto (c : FillCostResponseContainer) : ContainerWrapper :=
  kFillCostResponse (mkPFillCostResponse (fr_total_cost c)).

Definition new_order_to_proto (c : NewOrderSingleContainer) : ContainerWrapper :=
  kNewOrderSingle (mkPNewOrder (Some (no_sender_comp_id c)) (Some (no_target_comp_id c))
    (Some (no_cl_ord_id c)) (Some (no_symbol c)) (Some (side_to_proto (no_side c)))
    (Some (no_order_qty c)) (Some (ord_type_to_proto (no_ord_type c))) (no_price c)
    (Some (tif_to_proto (no_time_in_force c))) (no_order_id c)).

Definition cancel_request_to_proto (c : CancelOrderRequestContainer) : ContainerWrapper :=
  kCancelOrderRequest (mkPCancelRequest (Some (cr_sender_comp_id c)) (Some (cr_target_comp_id c))
    (cr_order_id c) (Some (cr_orig_cl_ord_id c)) (Some (cr_cl_ord_id c)) (Some (cr_symbol c))
    (Some (side_to_proto (cr_side c))) (Some (cr_order_qty c))).

Definition execution_report_to_proto (c : ExecutionReportContainer) : ContainerWrapper :=
  kExecutionReport (mkPExecutionReport (Some (er_sender_comp_id c)) (Some (er_target_comp_id c))
    (Some (er_order_id c)) (Some (er_cl_order_id c)) (er_orig_cl_ord_id c) (Some (er_exec_id c))
    (Some (exec_trans_to_proto (er_exec_trans_type c))) (Some (status_to_proto (er_exec_type c)))
    (Some (status_to_proto (er_ord_status c))) (er_text c) (Some (er_symbol c))
    (Some (side_to_proto (er_side c))) (er_price c) (Some (tif_to_proto (er_time_in_force c)))
    (Some (er_leaves_qty c)) (Some (er_cum_qty c)) (Some (er_avg_px c))).

Definition to_proto (c : Container) : ContainerWrapper :=
  match c with
  | CNewOrderSingle c => new_order_to_proto c
  | CCancelOrderRequest c => cancel_request_to_proto c
  | CExecutionReport c => execution_report_to_proto c
  | CFillCostQuery c => fill_cost_query_to_proto c
  | CFillCostResponse c => fill_cost_response_to_proto c
  | CTrade c => trade_to_proto c
  | CCancelOrderResponse c => cancel_response_to_proto c
  end.

(** ** Reading the messages: the cases of [deserialize_container] *)

(** The getters of an absent field. *)
Abbreviation int_field := (default 0).
Abbreviation str_field := (default ""%string).
Abbreviation bool_field := (default false).

Definition new_order_of_proto (p : PNewOrderSingle) : res NewOrderSingleContainer :=
  side ← side_to_internal (int_field (pno_side p));
  ord_type ← ord_type_to_internal (int_field (pno_ord_type p));
  tif ← tif_to_internal (int_field (pno_time_in_force p));
  Ok (mkNewOrder (str_field (pno_sender_comp_id p)) (str_field (pno_target_comp_id p))
        (pno_order_id p) (int_field (pno_cl_ord_id p)) (str_field (pno_symbol p)) side
        (int_field (pno_order_qty p)) ord_type (pno_price p) tif).

Definition cancel_request_of_proto (p : PCancelOrderRequest) : res CancelOrderRequestContainer :=
  side ← side_to_internal (int_field (pcr_side p));
  Ok (mkCancelRequest (str_field (pcr_sender_comp_id p)) (str_field (pcr_target_comp_id p))
        (pcr_order_id p) (int_field (pcr_orig_cl_ord_id p)) (int_field (pcr_cl_ord_id p))
        (str_field (pcr_symbol p)) side (int_field (pcr_order_qty p))).

(** [container.text = proto.text()] is not guarded by [has_text]. *)
Definition execution_report_of_proto (p : PExecutionReport) : res ExecutionReportContainer :=
  ett ← exec_trans_to_internal (int_field (per_exec_trans_type p));
  et ← status_to_internal (int_field (per_exec_type p));
  os ← status_to_internal (int_field (per_ord_status p));
  side ← side_to_internal (int_field (per_side p));
  tif ← tif_to_internal (int_field (per_time_in_force p));
  Ok (mkExecutionReport (str_field (per_sender_comp_id p)) (str_field (per_target_comp_id p))
        (int_field (per_order_id p)) (int_field (per_cl_order_id p)) (per_orig_cl_ord_id p)
        (str_field (per_exec_id p)) ett et os (Some (str_field (per_text p)))
        (str_field (per_symbol p)) side (per_price p) tif (int_field (per_leaves_qty p))
        (int_field (per_cum_qty p)) (int_field (per_avg_px p))).

Definition fill_cost_query_of_proto (p : PFillCostQuery) : res FillCostQueryContainer :=
  side ← side_to_internal (int_field (pfq_side p));
  Ok (mkFillCostQuery (str_field (pfq_symbol p)) (int_field (pfq_quantity p)) side).

Definition fill_cost_response_of_proto (p : PFillCostResponse) : FillCostResponseContainer :=
  mkFillCostResponse (pfr_total_cost p).

Definition trade_of_proto (p : PTrade) : TradeContainer :=
  mkTradeContainer (str_field (ptc_ticker p)) (int_field (ptc_price p))
    (int_field (ptc_quantity p)) (str_field (ptc_trade_id p)) (str_field (ptc_taker_id p))
    (str_field (ptc_maker_id p)) (int_field (ptc_taker_order_id p))
    (int_field (ptc_maker_order_id p)) (bool_field (ptc_is_taker_buyer p)).

Definition cancel_response_of_proto (p : PCancelOrderResponse) : CancelOrderResponseContainer :=
  mkCancelResponse (int_field (pcs_order_id p)) (int_field (pcs_cl_ord_id p))
    (bool_field (pcs_success p)).

Definition of_proto (w : ContainerWrapper) : res Container :=
  match w with
  | kNewOrderSingle p => CNewOrderSingle <$> new_order_of_proto p
  | kCancelOrderRequest p => CCancelOrderRequest <$> cancel_request_of_proto p
  | kExecutionReport p => CExecutionReport <$> execution_report_of_proto p
  | kFillCostQuery p => CFillCostQuery <$> fill_cost_query_of_proto p
  | kFillCostResponse p => Ok (CFillCostResponse (fill_cost_response_of_proto p))
  | kTrade p => Ok (CTrade (trade_of_proto p))
  | kCancelOrderResponse p => Ok (CCancelOrderResponse (cancel_response_of_proto p))
  | CONTAINER_NOT_SET => Err InvalidArgument
  end.

(** ** The wire *)

(** The generated classes.  [ParseFromString] checks that string fields are
    UTF-8 ([utf8_validation] is [VERIFY] by default in edition 2023). *)
Class ProtoCodec := {
  SerializeAsString : ContainerWrapper -> string;
  ParseFromString : string -> option ContainerWrapper;
  valid_utf8 : string -> bool
}.

Definition strings_of (w : ContainerWrapper) : list (option string) :=
  match w with
  | kNewOrderSingle p => [pno_sender_comp_id p; pno_target_comp_id p; pno_symbol p]
  | kCancelOrderRequest p => [pcr_sender_comp_id p; pcr_target_comp_id p; pcr_symbol p]
  | kExecutionReport p =>
      [per_sender_comp_id p; per_target_comp_id p; per_exec_id p; per_text p; per_symbol p]
  | kFillCostQuery p => [pfq_symbol p]
  | kTrade p => [ptc_ticker p; ptc_trade_id p; ptc_taker_id p; ptc_maker_id p]
  | _ => []
  end.

Definition ints_of (w : ContainerWrapper) : list (option Z) :=
  match w with
  | kNewOrderSingle p => [pno_cl_ord_id p; pno_side p; pno_order_qty p; pno_ord_type p;
                          pno_price p; pno_time_in_force p; pno_order_id p]
  | kCancelOrderRequest p => [pcr_order_id p; pcr_orig_cl_ord_id p; pcr_cl_ord_id p;
                              pcr_side p; pcr_order_qty p]
  | kExecutionReport p => [per_order_id p; per_cl_order_id p; per_orig_cl_ord_id p;
                           per_exec_trans_type p; per_exec_type p; per_ord_status p; per_side p;
                           per_price p; per_time_in_force p; per_leaves_qty p; per_cum_qty p;
                           per_avg_px p]
  | kFillCostQuery p => [pfq_quantity p; pfq_side p]
  | kFillCostResponse p => [pfr_total_cost p]
  | kTrade p => [ptc_price p; ptc_quantity p; ptc_taker_order_id p; ptc_maker_order_id p]
  | kCancelOrderResponse p => [pcs_order_id p; pcs_cl_ord_id p]
  | CONTAINER_NOT_SET => []
  end.

(** A message that the wire format can carry: 32-bit integers, UTF-8 strings. *)
Definition wire_ok `{ProtoCodec} (w : ContainerWrapper) : bool :=
  forallb (from_option in_i32 true) (ints_of w) &&
  forallb (from_option valid_utf8 true) (strings_of w).

Class ProtoCodecLaws `{ProtoCodec} : Prop :=
  parse_serialize : forall w, wire_ok w = true -> ParseFromString (SerializeAsString w) = Some w.

Section Wire.
Context `{ProtoCodec}.

Definition serialize_container (c : Container) : string := SerializeAsString (to_proto c).

Definition deserialize_container (data : string) : res Container :=
  container_wrapper ← get_or InvalidArgument (ParseFromString data);
  of_proto container_wrapper.
End Wire.

(** ** Round trips *)

(** What the receiver of a container sees. *)
Definition received (c : Container) : Container :=
  match c with
  | CExecutionReport r =>
      CExecutionReport (mkExecutionReport (er_sender_comp_id r) (er_target_comp_id r)
        (er_order_id r) (er_cl_order_id r) (er_orig_cl_ord_id r) (er_exec_id r)
        (er_exec_trans_type r) (er_exec_type r) (er_ord_status r) (Some (default ""%string (er_text r)))
        (er_symbol r) (er_side r) (er_price r) (er_time_in_force r) (er_leaves_qty r)
        (er_cum_qty r) (er_avg_px r))
  | _ => c
  end.

Definition has_text (c : Container) : bool :=
  match c with CExecutionReport r => bool_decide (is_Some (er_text r)) | _ => true end.

Lemma side_proto_roundtrip s : side_to_internal (side_to_proto s) = Ok s.
Proof. by destruct s. Qed.
Lemma ord_type_proto_roundtrip t : ord_type_to_internal (ord_type_to_proto t) = Ok t.
Proof. by destruct t. Qed.
Lemma tif_proto_roundtrip t : tif_to_internal (tif_to_proto t) = Ok t.
Proof. by destruct t. Qed.
Lemma exec_trans_proto_roundtrip t : exec_trans_to_internal (exec_trans_to_proto t) = Ok t.
Proof. by destruct t. Qed.
Lemma status_proto_roundtrip s : status_to_internal (status_to_proto s) = Ok s.
Proof. by destruct s. Qed.
#[export] Hint Rewrite side_proto_roundtrip ord_type_proto_roundtrip tif_proto_roundtrip
  exec_trans_proto_roundtrip status_proto_roundtrip : edux_proto.

Lemma of_to_proto c : of_proto (to_proto c) = Ok (received c).
Proof.
  destruct c as [[]|[]|[]|[]|[]|[]|[]]; simpl; try done;
    unfold new_order_of_proto, cancel_request_of_proto, execution_report_of_proto,
      fill_cost_query_of_proto; simpl;
    repeat (autorewrite with edux_proto; simpl); done.
Qed.

Lemma received_id c : received c = c <-> has_text c = true.
Proof.
  destruct c as [?|?|r|?|?|?|?]; simpl; try done. rewrite bool_decide_eq_true.
  destruct r as [? ? ? ? ? ? ? ? ? [t|]]; simpl; split; done.
Qed.

(** A container that came from a message always has its text. *)
Lemma of_proto_has_text w c : of_proto w = Ok c -> has_text c = true.
Proof.
  destruct w; simpl; try by intros [= <-].
  - by destruct (new_order_of_proto m); simpl; [intros [= <-]|].
  - by destruct (cancel_request_of_proto m); simpl; [intros [= <-]|].
  - destruct (execution_report_of_proto m) eqn:E; simpl; [intros [= <-]|done].
    unfold execution_report_of_proto in E. by ok_inv.
  - by destruct (fill_cost_query_of_proto m); simpl; [intros [= <-]|].
Qed.

Section Roundtrip.
Context `{ProtoCodecLaws}.

(** The form the services' proofs use. *)
Lemma deserialize_serialize c :
  wire_ok (to_proto c) = true -> deserialize_container (serialize_container c) = Ok (received c).
Proof.
  intros Hw. unfold deserialize_container, serialize_container.
  rewrite parse_serialize by done. apply of_to_proto.
Qed.

(** C33: a container of any of the seven kinds survives the wire: what the sender
    serialized is what the receiver deserializes, every enumerator, optional
    field and boolean included, except that an execution report sent without a
    text arrives with an empty one.  Sending a received container on changes
    nothing more. *)
Theorem container_roundtrip c :
  wire_ok (to_proto c) = true ->
  deserialize_container (serialize_container c) = Ok (received c) /\
  (received c = c <-> has_text c = true) /\
  received (received c) = received c.
Proof.
  intros Hw. split; [by apply deserialize_serialize|]. split; [apply received_id|].
  by destruct c.
Qed.
End Roundtrip.

(** Only well-formed messages are accepted.  Whatever bytes arrive,
    [deserialize_container] either throws [std::invalid_argument] or returns a
    container that, sent again, is one the receiver accepts and reads as the same
    container. *)
Theorem deserialize_sound `{ProtoCodec} data :
  deserialize_container data = Err InvalidArgument \/
  exists c, deserialize_container data = Ok c /\ of_proto (to_proto c) = Ok c.
Proof.
  unfold deserialize_container. destruct (ParseFromString data) as [w|]; simpl; [|by left].
  destruct (of_proto w) as [c|e] eqn:E.
  - right. exists c. split; [done|]. rewrite of_to_proto. f_equal.
    apply received_id. by eapply of_proto_has_text.
  - left. revert E. destruct w; simpl; try done;
    unfold new_order_of_proto, cancel_request_of_proto, execution_report_of_proto,
      fill_cost_query_of_proto, side_to_internal, ord_type_to_internal, tif_to_internal,
      exec_trans_to_internal, status_to_internal;
    repeat (case_match; simpl; try congruence).
Qed.

(** ** A concrete codec

    A message as a list of numbers (its kind, then its fields), the list as one
    number, the number as a string of binary digits; any string counts as UTF-8. *)
Definition wrapper_fields (w : ContainerWrapper) : list positive :=
  match w with
  | kNewOrderSingle (mkPNewOrder a b c d e f g h i j) =>
      [1; encode a; encode b; encode c; encode d; encode e; encode f; encode g; encode h;
       encode i; encode j]
  | kCancelOrderRequest (mkPCancelRequest a b c d e f g h) =>
      [2; encode a; encode b; encode c; encode d; encode e; encode f; encode g; encode h]
  | kExecutionReport (mkPExecutionReport a b c d e f g h i j k l m n o p q) =>
      [3; encode a; encode b; encode c; encode d; encode e; encode f; encode g; encode h;
       encode i; encode j; encode k; encode l; encode m; encode n; encode o; encode p; encode q]
  | kFillCostQuery (mkPFillCostQuery a b c) => [4; encode a; encode b; encode c]
  | kFillCostResponse (mkPFillCostResponse a) => [5; encode a]
  | kTrade (mkPTrade a b c d e f g h i) =>
      [6; encode a; encode b; encode c; encode d; encode e; encode f; encode g; encode h; encode i]
  | kCancelOrderResponse (mkPCancelResponse a b c) => [7; encode a; encode b; encode c]
  | CONTAINER_NOT_SET => [8]
  end%positive.

Definition wrapper_of_fields (l : list positive) : option ContainerWrapper :=
  match l with
  | [1; a; b; c; d; e; f; g; h; i; j] =>
      a ← decode a; b ← decode b; c ← decode c; d ← decode d; e ← decode e; f ← decode f;
      g ← decode g; h ← decode h; i ← decode i; j ← decode j;
      Some (kNewOrderSingle (mkPNewOrder a b c d e f g h i j))
  | [2; a; b; c; d; e; f; g; h] =>
      a ← decode a; b ← decode b; c ← decode c; d ← decode d; e ← decode e; f ← decode f;
      g ← decode g; h ← decode h;
      Some (kCancelOrderRequest (mkPCancelRequest a b c d e f g h))
  | [3; a; b; c; d; e; f; g; h; i; j; k; l; m; n; o; p; q] =>
      a ← decode a; b ← decode b; c ← decode c; d ← decode d; e ← decode e; f ← decode f;
      g ← decode g; h ← decode h; i ← decode i; j ← decode j; k ← decode k; l ← decode l;
      m ← decode m; n ← decode n; o ← decode o; p ← decode p; q ← decode q;
      Some (kExecutionReport (mkPExecutionReport a b c d e f g h i j k l m n o p q))
  | [4; a; b; c] =>
      a ← decode a; b ← decode b; c ← decode c; Some (kFillCostQuery (mkPFillCostQuery a b c))
  | [5; a] => a ← decode a; Some (kFillCostResponse (mkPFillCostResponse a))
  | [6; a; b; c; d; e; f; g; h; i] =>
      a ← decode a; b ← decode b; c ← decode c; d ← decode d; e ← decode e; f ← decode f;
      g ← decode g; h ← decode h; i ← decode i; Some (kTrade (mkPTrade a b c d e f g h i))
  | [7; a; b; c] =>
      a ← decode a; b ← decode b; c ← decode c; Some (kCancelOrderResponse (mkPCancelResponse a b c))
  | [8] => Some CONTAINER_NOT_SET
  | _ => None
  end%positive.

Lemma wrapper_of_to_fields w : wrapper_of_fields (wrapper_fields w) = Some w.
Proof.
  destruct w as [[]|[]|[]|[]|[]|[]|[]|]; cbn [wrapper_fields wrapper_of_fields];
    repeat (rewrite decode_encode; cbn [mbind option_bind]); done.
Qed.

Fixpoint pos_digits (p : positive) : string :=
  match p with
  | xH => ""
  | xO p' => String "0" (pos_digits p')
  | xI p' => String "1" (pos_digits p')
  end.

Fixpoint digits_pos (s : string) : positive :=
  match s with
  | EmptyString => xH
  | String c s' => if Ascii.eqb c "1" then xI (digits_pos s') else xO (digits_pos s')
  end.

Lemma digits_pos_digits p : digits_pos (pos_digits p) = p.
Proof. induction p; simpl; congruence. Qed.

Definition toy_codec : ProtoCodec := {|
  SerializeAsString w := pos_digits (positives_flatten (wrapper_fields w));
  ParseFromString s := positives_unflatten (digits_pos s) ≫= wrapper_of_fields;
  valid_utf8 _ := true
|}.

Lemma toy_codec_laws : @ProtoCodecLaws toy_codec.
Proof.
  intros w _. cbn [ParseFromString SerializeAsString toy_codec].
  rewrite digits_pos_digits, positives_unflatten_flatten. apply wrapper_of_to_fields.
Qed.

Definition sample_report : Container :=
  CExecutionReport (mkExecutionReport "OM" "alice" 1007 1 None "e1" exec_trans_new status_new
    status_new None "GME" bid (Some 100) day 10 0 0).

Lemma container_roundtrip_witness :
  @deserialize_container toy_codec (@serialize_container toy_codec sample_report)
    = Ok (received sample_report) /\
  (received sample_report = sample_report <-> has_text sample_report = true) /\
  received (received sample_report) = received sample_report.
Proof.
  apply (@container_roundtrip toy_codec toy_codec_laws sample_report). reflexivity.
Defined.
