(* ===== verification/Concurrency.v ===== *)
(** * Queue and lock shared by threads

    [libs/core/thread_safe_queue.h] and [libs/core/spinlock_mutex.h].  The
    operations of [ThreadSafeQueue] hold [m_mutex] from their first to their last
    access, so each is one step and the behaviours of several threads are the
    sequences of such steps.  A wait on the condition variable is a step that is
    enabled only when the queue is not empty.  The lock's [test_and_set] and
    [clear] are atomic steps. *)

From S2P Require Import Prelude.
From Stdlib Require Import ZArith Lia.
From stdpp Require Import base option list relations.

Module ThreadSafeQueue.
Section Queue.
Context {T : Type}.

Definition enqueue (m_queue : list T) (value : T) : list T := m_queue ++ [value].

Definition dequeue (m_queue : list T) : option T * list T :=
  match m_queue with
  | [] => (None, [])
  | value :: rest => (Some value, rest)
  end.

Definition wait_and_dequeue (m_queue : list T) : res (T * list T) :=
  match m_queue with
  | [] => Err Blocked
  | value :: rest => Ok (value, rest)
  end.

(** The [while (!m_queue.empty())] loop, with the vector built so far. *)
Fixpoint drain (values m_queue : list T) : list T * list T :=
  match m_queue with
  | [] => (values, [])
  | value :: rest => drain (values ++ [value]) rest
  end.

Definition wait_and_dequeue_all (m_queue : list T) : res (list T * list T) :=
  match m_queue with
  | [] => Err Blocked
  | _ => Ok (drain [] m_queue)
  end.

(** What a thread did in one step. *)
Inductive action :=
  | Enqueued (value : T)
  | Dequeued (value : option T)
  | DequeuedAll (values : list T).

Inductive qstep : list T -> action -> list T -> Prop :=
  | step_enqueue q v : qstep q (Enqueued v) (enqueue q v)
  | step_dequeue q o q' : dequeue q = (o, q') -> qstep q (Dequeued o) q'
  | step_wait q v q' : wait_and_dequeue q = Ok (v, q') -> qstep q (Dequeued (Some v)) q'
  | step_wait_all q vs q' : wait_and_dequeue_all q = Ok (vs, q') -> qstep q (DequeuedAll vs) q'.

(** Steps of any threads, each labelled with the thread that made it. *)
Inductive qsteps : list T -> list (nat * action) -> list T -> Prop :=
  | steps_nil q : qsteps q [] q
  | steps_cons q tid a q1 tr q2 : qstep q a q1 -> qsteps q1 tr q2 -> qsteps q ((tid, a) :: tr) q2.

Definition put (a : action) : list T := match a with Enqueued v => [v] | _ => [] end.
Definition taken (a : action) : list T :=
  match a with Dequeued (Some v) => [v] | DequeuedAll vs => vs | _ => [] end.

Lemma drain_all values q : drain values q = (values ++ q, []).
Proof.
  revert values. induction q as [|v q IH]; intros values; simpl; [by rewrite app_nil_r|].
  by rewrite IH, <- app_assoc.
Qed.

Lemma qstep_order q a q' : qstep q a q' -> q ++ put a = taken a ++ q'.
Proof.
  destruct 1 as [q v|q o q' H|q v q' H|q vs q' H]; simpl; rewrite ?app_nil_r.
  - done.
  - destruct q; simpl in H; by simplify_eq.
  - destruct q; simpl in H; by simplify_eq.
  - destruct q as [|v q]; simpl in H; [done|]. rewrite drain_all in H. simplify_eq. by rewrite app_nil_r.
Qed.

(** A queue shared by any number of threads is first in, first out, and loses
    and duplicates nothing.  In every interleaving that starts from an empty
    queue, the values taken out, in the order in which the steps took them,
    followed by the values still queued, are the values put in, in the order in
    which the steps put them. *)
Theorem queue_fifo tr q :
  qsteps [] tr q ->
  mjoin (map (fun x => put x.2) tr) = mjoin (map (fun x => taken x.2) tr) ++ q.
Proof.
  assert (forall q0, qsteps q0 tr q ->
    q0 ++ mjoin (map (fun x => put x.2) tr) = mjoin (map (fun x => taken x.2) tr) ++ q) as H.
  { intros q0 Hs. induction Hs as [q|q tid a q1 tr q2 Hq _ IH]; simpl; [by rewrite app_nil_r|].
    rewrite app_assoc, (qstep_order _ _ _ Hq), <- !app_assoc. by f_equal. }
  by apply H.
Qed.
End Queue.

(** Two producers and two consumers. *)
Lemma queue_fifo_witness :
  mjoin (map (fun x => put x.2) [(0, Enqueued 7); (1, Enqueued 8); (2, Dequeued (Some 7));
                                  (0, Enqueued 9); (3, DequeuedAll [8; 9])])
  = mjoin (map (fun x => taken x.2) [(0, Enqueued 7); (1, Enqueued 8); (2, Dequeued (Some 7));
                                  (0, Enqueued 9); (3, DequeuedAll [8; 9])]) ++ [].
Proof.
  apply queue_fifo.
  repeat first [apply steps_nil | eapply steps_cons;
    [first [apply step_enqueue | apply step_wait; reflexivity | apply step_wait_all; reflexivity]|]].
Defined.
End ThreadSafeQueue.

Module SpinlockMutex.
(** [flag.test_and_set()]: the new flag and the old value. *)
Definition test_and_set (flag : bool) : bool * bool := (true, flag).

(** Where a thread is: not interested, spinning in [get_lock], holding the lock. *)
Inductive thread := Idle | Spinning | Holding.

Record state := mkState { flag : bool; threads : list thread }.

(** One step of thread [i].  The loop of [get_lock] goes on while
    [!flag.test_and_set()]. *)
Inductive lstep : state -> state -> Prop :=
  | enter f ts i : ts !! i = Some Idle -> lstep (mkState f ts) (mkState f (<[i := Spinning]> ts))
  | spin f f' old ts i :
      ts !! i = Some Spinning -> test_and_set f = (f', old) ->
      lstep (mkState f ts)
            (mkState f' (if negb old then ts else <[i := Holding]> ts))
  | unlock f ts i : ts !! i = Some Holding -> lstep (mkState f ts) (mkState false (<[i := Idle]> ts)).

Definition initial (n : nat) : state := mkState false (replicate n Idle).

Definition holders (s : state) : nat :=
  length (List.filter (fun t => match t with Holding => true | _ => false end) (threads s)).

(** The spinlock does not exclude anybody.  The loop of [get_lock] runs while
    the flag was clear before [test_and_set], so it leaves the loop exactly when
    somebody holds the lock: with two threads or more, a state in which two
    threads hold the lock at once is reachable. *)
Theorem spinlock_no_exclusion n :
  exists s, rtc lstep (initial (2 + n)) s /\ holders s = 2%nat.
Proof.
  exists (mkState true (Holding :: Holding :: replicate n Idle)). split.
  - unfold initial.
    eapply rtc_l; [apply (enter _ _ 0); done|]. eapply rtc_l; [apply (enter _ _ 1); done|].
    eapply rtc_l; [eapply (spin _ _ _ _ 0); done|]. eapply rtc_l; [eapply (spin _ _ _ _ 0); done|].
    eapply rtc_l; [eapply (spin _ _ _ _ 1); done|]. apply rtc_refl.
  - unfold holders. simpl. do 2 f_equal. by induction n.
Qed.
End SpinlockMutex.
