(* ===== verification/Transport.v ===== *)
(** * Connections between the services

    The interfaces [InboundServer] and [OutboundClient] of [libs/transport] with
    the laws that the services rely on, and the websocket manager
    ([libs/transport/websocket/*.h]) that implements them.  The websocketpp
    endpoint is a parameter ([Endpoint]); a connection handle is a number.
    Asynchronous deliveries by the network thread are calls of the manager's
    handlers between the calls of the service; for the blocking dequeue the
    messages that are still to arrive are part of the state ([m_incoming]).
    [std::expected<void, int>] is a boolean: the error is always -1. *)

From S2P Require Import Prelude Concurrency.
From Stdlib Require Import ZArith Lia Ascii String.
From stdpp Require Import base option list gmap strings fin_maps.
Import ThreadSafeQueue.

Open Scope Z_scope.

(** ** message_format.h, inbound_server.h, outbound_client.h *)
Inductive MessageFormat := fmt_text | fmt_binary.

Class InboundServer (L : Type) := {
  is_start : L -> L * bool;
  is_get_connection_info : L -> list (Z * string);
  is_dequeue_message : L -> Z -> L * option string;
  is_send : L -> Z -> string -> MessageFormat -> L * bool
}.

Class OutboundClient (L : Type) := {
  oc_start : L -> L * bool;
  oc_connect : L -> string -> string -> res (L * option Z);
  oc_dequeue_message : L -> Z -> L * option string;
  oc_wait_and_dequeue_message : L -> Z -> res (L * option string);
  oc_send : L -> Z -> string -> MessageFormat -> L * bool
}.

(** What a service can observe of a link: what was accepted for sending on a
    connection and what waits to be read from it. *)
Class LinkView (L : Type) := {
  sent_on : L -> Z -> list string;
  queued_on : L -> Z -> list string
}.

Definition same_view `{LinkView L} (s s' : L) : Prop :=
  (forall id, sent_on s' id = sent_on s id) /\ (forall id, queued_on s' id = queued_on s id).

(** A send either fails and changes nothing, or adds the message to its connection. *)
Definition send_law `{LinkView L} (send : L -> Z -> string -> MessageFormat -> L * bool) : Prop :=
  forall s id m fmt s' ok, send s id m fmt = (s', ok) ->
    (forall id', queued_on s' id' = queued_on s id') /\
    (forall id', sent_on s' id' =
       if ok && (id' =? id) then sent_on s id' ++ [m] else sent_on s id').

(** A dequeue takes the oldest message of its connection, if there is one. *)
Definition dequeue_law `{LinkView L} (dequeue : L -> Z -> L * option string) : Prop :=
  forall s id s' o, dequeue s id = (s', o) ->
    o = head (queued_on s id) /\
    (forall id', sent_on s' id' = sent_on s id') /\
    (forall id', queued_on s' id' =
       if id' =? id then tail (queued_on s id') else queued_on s id').

Class InboundServerLaws (L : Type) `{InboundServer L, LinkView L} : Prop := {
  is_send_law : send_law is_send;
  is_dequeue_law : dequeue_law is_dequeue_message
}.

Class OutboundClientLaws (L : Type) `{OutboundClient L, LinkView L} : Prop := {
  oc_send_law : send_law oc_send;
  oc_dequeue_law : dequeue_law oc_dequeue_message
}.

(** [outs] was sent on connection [id], and nothing else happened. *)
Definition sends `{LinkView L} (s s' : L) (id : Z) (outs : list string) : Prop :=
  (forall id', queued_on s' id' = queued_on s id') /\
  (forall id', sent_on s' id' = if id' =? id then sent_on s id' ++ outs else sent_on s id').

Lemma sends_nil `{LinkView L} (s : L) id : sends s s id [].
Proof. split; [done|]. intros id'. by rewrite app_nil_r, Tauto.if_same. Qed.

Lemma sends_trans `{LinkView L} (s s1 s2 : L) id o1 o2 :
  sends s s1 id o1 -> sends s1 s2 id o2 -> sends s s2 id (o1 ++ o2).
Proof.
  intros [Hq1 Hs1] [Hq2 Hs2]. split; intros id'; [by rewrite Hq2|].
  rewrite Hs2, Hs1. destruct (id' =? id); [by rewrite app_assoc|done].
Qed.

Lemma sends_of_law `{LinkView L} send (s s' : L) id m fmt ok :
  send_law send -> send s id m fmt = (s', ok) -> sends s s' id (if ok then [m] else []).
Proof.
  intros Hlaw Hsend. destruct (Hlaw _ _ _ _ _ _ Hsend) as [Hq Hs]. split; [done|].
  intros id'. rewrite Hs. destruct ok, (id' =? id); simpl; by rewrite ?app_nil_r.
Qed.

(** ** The websocketpp endpoint: code outside the repository *)
Class Endpoint (E : Type) := {
  ep_send : E -> nat -> string -> MessageFormat -> E * bool;
  ep_close : E -> nat -> Z -> E * bool;
  ep_start_accept : E -> E * bool;
  ep_get_connection : E -> string -> E * option nat;
  ep_append_header : E -> nat -> string -> string -> E;
  ep_connect : E -> nat -> E;
  ep_is_server : E -> nat -> bool;
  ep_request_header : E -> nat -> string -> string;
  ep_response_header : E -> nat -> string -> string;
  ep_close_reason : E -> nat -> string
}.

(** ** websocket.h *)
Inductive ConnectionStatus := connecting | open | failed | closed.

#[export] Instance ConnectionStatus_eq_dec : EqDecision ConnectionStatus.
Proof. solve_decision. Defined.

Record ConnectionMetadata := mkMetadata {
  m_id : Z;
  m_handle : nat;
  m_status : ConnectionStatus;
  m_uri : string;
  m_counter_party : string;
  m_error_reason : string;
  m_message_store : list string;
  m_message_queue : list string
}.

Definition new_metadata (id : Z) (handle : nat) (uri : string) : ConnectionMetadata :=
  mkMetadata id handle connecting uri "N/A" "" [] [].

Definition with_queue (md : ConnectionMetadata) (q : list string) : ConnectionMetadata :=
  mkMetadata (m_id md) (m_handle md) (m_status md) (m_uri md) (m_counter_party md)
    (m_error_reason md) (m_message_store md) q.

Definition on_message (md : ConnectionMetadata) (payload : string) : ConnectionMetadata :=
  with_queue md (enqueue (m_message_queue md) payload).

Definition record_sent_message (md : ConnectionMetadata) (message : string) : ConnectionMetadata :=
  mkMetadata (m_id md) (m_handle md) (m_status md) (m_uri md) (m_counter_party md)
    (m_error_reason md) (m_message_store md ++ [message]) (m_message_queue md).

(** Client and server share one state; a client leaves the handle map empty.
    Both maps of the server hold pointers to the same metadata: the handle map
    keeps the id under which the metadata is filed. *)
Record WebsocketManager (E : Type) := mkManager {
  m_endpoint : E;
  m_id_to_connection_map : gmap Z ConnectionMetadata;
  m_handle_to_connection_map : gmap nat Z;
  m_next_id : Z;
  m_incoming : list (Z * string)
}.
Arguments mkManager {E} _ _ _ _ _.
Arguments m_endpoint {E} _.
Arguments m_id_to_connection_map {E} _.
Arguments m_handle_to_connection_map {E} _.
Arguments m_next_id {E} _.
Arguments m_incoming {E} _.

Section Manager.
Context {E : Type} {ep : Endpoint E}.
Implicit Types (w : WebsocketManager E) (md : ConnectionMetadata).

Definition with_endpoint w (e : E) : WebsocketManager E :=
  mkManager e (m_id_to_connection_map w) (m_handle_to_connection_map w) (m_next_id w) (m_incoming w).

Definition with_connections w (m : gmap Z ConnectionMetadata) : WebsocketManager E :=
  mkManager (m_endpoint w) m (m_handle_to_connection_map w) (m_next_id w) (m_incoming w).

Definition counter_party (e : E) (handle : nat) : string :=
  if ep_is_server e handle then ep_request_header e handle "client_name"
  else ep_response_header e handle "Server".

Definition on_open (e : E) md (handle : nat) : ConnectionMetadata :=
  mkMetadata (m_id md) (m_handle md) open (m_uri md) (counter_party e handle)
    (m_error_reason md) (m_message_store md) (m_message_queue md).

Definition on_fail (e : E) md (handle : nat) : ConnectionMetadata :=
  mkMetadata (m_id md) (m_handle md) failed (m_uri md) (counter_party e handle)
    (m_error_reason md) (m_message_store md) (m_message_queue md).

Definition on_close (e : E) md (handle : nat) : ConnectionMetadata :=
  mkMetadata (m_id md) (m_handle md) closed (m_uri md) (m_counter_party md)
    (ep_close_reason e handle) (m_message_store md) (m_message_queue md).

Definition send w (id : Z) (message : string) (fmt : MessageFormat) : WebsocketManager E * bool :=
  match m_id_to_connection_map w !! id with
  | None => (w, false)
  | Some md =>
      let '(e, ok) := ep_send (m_endpoint w) (m_handle md) message fmt in
      if ok then
        (with_connections (with_endpoint w e)
           (<[id := record_sent_message md message]> (m_id_to_connection_map w)), true)
      else (with_endpoint w e, false)
  end.

Definition close w (id code : Z) : WebsocketManager E * bool :=
  match m_id_to_connection_map w !! id with
  | None => (w, false)
  | Some md => let '(e, ok) := ep_close (m_endpoint w) (m_handle md) code in (with_endpoint w e, ok)
  end.

(** [websocketpp::close::status::going_away]. *)
Definition going_away : Z := 1001.

(** The ids that failed to close; the order of an [unordered_map] is that of
    [map_to_list]. *)
Definition close_all w : WebsocketManager E * list Z :=
  foldl (fun '(w, failed_ids) kv =>
           let md := kv.2 in
           if decide (m_status md = open) then
             let '(e, ok) := ep_close (m_endpoint w) (m_handle md) going_away in
             (with_endpoint w e, if ok then failed_ids else failed_ids ++ [m_id md])
           else (w, failed_ids))
    (w, []) (map_to_list (m_id_to_connection_map w)).

Definition dequeue_message w (id : Z) : WebsocketManager E * option string :=
  match m_id_to_connection_map w !! id with
  | None => (w, None)
  | Some md =>
      let '(o, q) := dequeue (m_message_queue md) in
      (with_connections w (<[id := with_queue md q]> (m_id_to_connection_map w)), o)
  end.

(** The network thread delivers the next message that arrives. *)
Definition deliver (m : gmap Z ConnectionMetadata) (x : Z * string) : gmap Z ConnectionMetadata :=
  match m !! x.1 with
  | None => m
  | Some md => <[x.1 := on_message md x.2]> m
  end.

(** Sleep until the connection's queue is not empty. *)
Fixpoint wait_loop (m : gmap Z ConnectionMetadata) (id : Z) (incoming : list (Z * string))
    : res (gmap Z ConnectionMetadata * list (Z * string) * option string) :=
  match m !! id with
  | None => Ok (m, incoming, None)
  | Some md =>
      match wait_and_dequeue (m_message_queue md) with
      | Ok (v, q) => Ok (<[id := with_queue md q]> m, incoming, Some v)
      | Err e =>
          match incoming with
          | [] => Err e
          | x :: rest => wait_loop (deliver m x) id rest
          end
      end
  end.

Definition wait_and_dequeue_message w (id : Z) : res (WebsocketManager E * option string) :=
  '(m, incoming, o) ← wait_loop (m_id_to_connection_map w) id (m_incoming w);
  Ok (mkManager (m_endpoint w) m (m_handle_to_connection_map w) (m_next_id w) incoming, o).

(** ** websocket_server.h *)
Definition server_start w : WebsocketManager E * bool :=
  let '(e, ok) := ep_start_accept (m_endpoint w) in (with_endpoint w e, ok).

(** The open handler; the callback gets the metadata of the new connection and
    may change the state [C] of the service. *)
Definition server_on_open {C} (uri : string) (update_callback : option (ConnectionMetadata -> C -> C))
    w (c : C) (handle : nat) : res (WebsocketManager E * C) :=
  let new_id := m_next_id w in
  next ← add32 new_id 1;
  let md := on_open (m_endpoint w) (new_metadata new_id handle uri) handle in
  let c' := match update_callback with Some f => f md c | None => c end in
  let ids := match m_id_to_connection_map w !! new_id with
             | Some _ => m_id_to_connection_map w
             | None => <[new_id := md]> (m_id_to_connection_map w)
             end in
  let hs := match m_handle_to_connection_map w !! handle with
            | Some _ => m_handle_to_connection_map w
            | None => <[handle := new_id]> (m_handle_to_connection_map w)
            end in
  Ok (mkManager (m_endpoint w) ids hs next (m_incoming w), c').

(** The message, close and fail handlers look the handle up. *)
Definition server_handler (f : ConnectionMetadata -> ConnectionMetadata) w (handle : nat)
    : WebsocketManager E :=
  match m_handle_to_connection_map w !! handle with
  | None => w
  | Some id => with_connections w (alter f id (m_id_to_connection_map w))
  end.

Definition server_on_message w (handle : nat) (payload : string) : WebsocketManager E :=
  server_handler (fun md => on_message md payload) w handle.
Definition server_on_close w (handle : nat) : WebsocketManager E :=
  server_handler (fun md => on_close (m_endpoint w) md handle) w handle.
Definition server_on_fail w (handle : nat) : WebsocketManager E :=
  server_handler (fun md => on_fail (m_endpoint w) md handle) w handle.

Definition send_to_all w (message : string) (fmt : MessageFormat) : WebsocketManager E * list Z :=
  foldl (fun '(w, failed_ids) kv =>
           let '(w', ok) := send w kv.1 message fmt in
           (w', if ok then failed_ids else failed_ids ++ [kv.1]))
    (w, []) (map_to_list (m_id_to_connection_map w)).

(** [InboundWebsocketServer::get_connection_info]. *)
Definition get_connection_info w : list (Z * string) :=
  map (fun kv => (kv.1, m_counter_party kv.2)) (map_to_list (m_id_to_connection_map w)).

(** ** websocket_client.h *)
Definition client_connect w (uri name : string) : res (WebsocketManager E * option Z) :=
  match ep_get_connection (m_endpoint w) uri with
  | (e, None) => Ok (with_endpoint w e, None)
  | (e, Some connection) =>
      let e := ep_append_header e connection "client_name" name in
      let new_id := m_next_id w in
      next ← add32 new_id 1;
      let md := new_metadata new_id connection uri in
      Ok (mkManager (ep_connect e connection) (<[new_id := md]> (m_id_to_connection_map w))
            (m_handle_to_connection_map w) next (m_incoming w), Some new_id)
  end.

(** The handlers of a client connection hold the pointer to its metadata. *)
Definition client_on_message w (id : Z) (payload : string) : WebsocketManager E :=
  with_connections w (deliver (m_id_to_connection_map w) (id, payload)).

(** [stop] of either side, once listening has stopped. *)
Definition manager_stop w : WebsocketManager E * bool :=
  let '(w', failed_ids) := close_all w in
  (w', match failed_ids with [] => true | _ => false end).
End Manager.

(** ** The interfaces, implemented *)
#[export] Instance websocket_inbound `{Endpoint E} : InboundServer (WebsocketManager E) := {|
  is_start := server_start;
  is_get_connection_info := get_connection_info;
  is_dequeue_message := dequeue_message;
  is_send := send
|}.

#[export] Instance websocket_outbound `{Endpoint E} : OutboundClient (WebsocketManager E) := {|
  oc_start := fun w => (w, true);
  oc_connect := client_connect;
  oc_dequeue_message := dequeue_message;
  oc_wait_and_dequeue_message := wait_and_dequeue_message;
  oc_send := send
|}.

#[export] Instance websocket_view {E} : LinkView (WebsocketManager E) := {|
  sent_on w id := from_option m_message_store [] (m_id_to_connection_map w !! id);
  queued_on w id := from_option m_message_queue [] (m_id_to_connection_map w !! id)
|}.

Section Laws.
Context {E : Type} {ep : Endpoint E}.
Implicit Types (w : WebsocketManager E).

(** Rewriting one connection changes the view of that connection only. *)
Lemma view_insert {A} (f : ConnectionMetadata -> list A) (m : gmap Z ConnectionMetadata) id md id' :
  from_option f [] (<[id := md]> m !! id') =
    if id' =? id then f md else from_option f [] (m !! id').
Proof.
  destruct (Z.eqb_spec id' id) as [->|Hne]; [by rewrite lookup_insert_eq|].
  by rewrite lookup_insert_ne.
Qed.

Lemma websocket_send_law : send_law (send (ep := ep)).
Proof.
  intros w id m fmt w' ok. unfold send. destruct (_ !! id) as [md|] eqn:Hid.
  2: { intros [= <- <-]. done. }
  destruct (ep_send _ _ _ _) as [e []]; intros [= <- <-]; simpl; [|done].
  split; intros id'; rewrite view_insert; destruct (Z.eqb_spec id' id) as [->|]; simpl;
    rewrite ?Hid; done.
Qed.

Lemma websocket_dequeue_law : dequeue_law (dequeue_message (E := E)).
Proof.
  intros w id w' o. unfold dequeue_message. simpl. destruct (_ !! id) as [md|] eqn:Hid.
  2: { intros [= <- <-]. rewrite ?Hid. split; [done|]. split; [done|]. intros id'.
       destruct (Z.eqb_spec id' id) as [->|]; [by rewrite Hid|done]. }
  destruct (dequeue _) as [o' q] eqn:Hq. intros [= <- <-]. simpl.
  assert (o' = head (m_message_queue md) /\ q = tail (m_message_queue md)) as [-> ->]
    by (destruct (m_message_queue md); simpl in Hq; by simplify_eq).
  split; [done|].
  split; intros id'; rewrite view_insert; destruct (Z.eqb_spec id' id) as [->|]; simpl;
    rewrite ?Hid; done.
Qed.

#[export] Instance websocket_inbound_laws : InboundServerLaws (WebsocketManager E) :=
  {| is_send_law := websocket_send_law; is_dequeue_law := websocket_dequeue_law |}.
#[export] Instance websocket_outbound_laws : OutboundClientLaws (WebsocketManager E) :=
  {| oc_send_law := websocket_send_law; oc_dequeue_law := websocket_dequeue_law |}.

(** ** The server: which connection gets which message *)

(** One event at the server.  A connection that opens has a handle of its own. *)
Inductive event :=
  | EvOpen (handle : nat)
  | EvMessage (handle : nat) (payload : string)
  | EvEnd (handle : nat)
  | EvStray (handle : nat)
  | EvSend (id : Z) (message : string) (ok : bool)
  | EvDequeue (id : Z) (message : option string).

Inductive server_step (uri : string) : WebsocketManager E -> event -> WebsocketManager E -> Prop :=
  | ss_open w h w' (cb : option (ConnectionMetadata -> unit -> unit)) :
      m_handle_to_connection_map w !! h = None ->
      server_on_open uri cb w () h = Ok (w', ()) -> server_step uri w (EvOpen h) w'
  | ss_message w h p :
      is_Some (m_handle_to_connection_map w !! h) ->
      server_step uri w (EvMessage h p) (server_on_message w h p)
  | ss_stray w h p :
      m_handle_to_connection_map w !! h = None ->
      server_step uri w (EvStray h) (server_on_message w h p)
  | ss_close w h : server_step uri w (EvEnd h) (server_on_close w h)
  | ss_fail w h : server_step uri w (EvEnd h) (server_on_fail w h)
  | ss_send w id m fmt w' ok :
      send w id m fmt = (w', ok) -> server_step uri w (EvSend id m ok) w'
  | ss_dequeue w id w' o :
      dequeue_message w id = (w', o) -> server_step uri w (EvDequeue id o) w'.

Definition new_server (e : E) : WebsocketManager E := mkManager e ∅ ∅ 0 [].

Inductive server_run (uri : string) (e : E) : list event -> WebsocketManager E -> Prop :=
  | run_start : server_run uri e [] (new_server e)
  | run_step tr w ev w' :
      server_run uri e tr w -> server_step uri w ev w' -> server_run uri e (tr ++ [ev]) w'.

(** What came in on a handle, what was read from an id. *)
Definition arrived (h : nat) (ev : event) : list string :=
  match ev with EvMessage h' p => if Nat.eqb h' h then [p] else [] | _ => [] end.
Definition read (id : Z) (ev : event) : list string :=
  match ev with EvDequeue id' (Some m) => if id' =? id then [m] else [] | _ => [] end.

(** The two maps agree, and ids count up from 0. *)
Record server_wf w : Prop := {
  sw_handle : forall h id, m_handle_to_connection_map w !! h = Some id ->
    exists md, m_id_to_connection_map w !! id = Some md /\ m_handle md = h /\ m_id md = id;
  sw_fresh : forall id, is_Some (m_id_to_connection_map w !! id) -> id < m_next_id w;
}.

(** Handlers keep the identity of a connection. *)
Definition same_identity (f : ConnectionMetadata -> ConnectionMetadata) : Prop :=
  forall md, m_handle (f md) = m_handle md /\ m_id (f md) = m_id md.

Lemma server_wf_alter w f id :
  same_identity f -> server_wf w ->
  server_wf (with_connections w (alter f id (m_id_to_connection_map w))).
Proof.
  intros Hf [Hh Hfr]. split; simpl.
  - intros h id' Hid'. destruct (Hh h id' Hid') as (md & Hmd & <- & Hm).
    destruct (decide (id = id')) as [->|].
    + rewrite lookup_alter_eq, Hmd. simpl. exists (f md). destruct (Hf md). naive_solver.
    + rewrite lookup_alter_ne by done. eauto.
  - intros id' Hs. apply Hfr. destruct (decide (id = id')) as [->|].
    + rewrite lookup_alter_eq in Hs. by apply fmap_is_Some in Hs.
    + by rewrite lookup_alter_ne in Hs by done.
Qed.

Lemma server_wf_insert w e md md' id :
  m_id_to_connection_map w !! id = Some md -> m_handle md' = m_handle md -> m_id md' = m_id md ->
  server_wf w -> server_wf (with_connections (with_endpoint w e) (<[id := md']> (m_id_to_connection_map w))).
Proof.
  intros Hmd H1 H2 [Hh Hfr]. split; simpl.
  - intros h id' Hid'. destruct (Hh h id' Hid') as (md0 & Hmd0 & <- & Hm).
    destruct (decide (id = id')) as [->|].
    + rewrite lookup_insert_eq. exists md'. simplify_eq. naive_solver.
    + rewrite lookup_insert_ne by done. eauto.
  - intros id' Hs. apply Hfr. destruct (decide (id = id')) as [->|]; [by rewrite Hmd|].
    by rewrite lookup_insert_ne in Hs by done.
Qed.

Lemma server_on_open_new uri (cb : option (ConnectionMetadata -> unit -> unit)) w h w' :
  server_wf w -> m_handle_to_connection_map w !! h = None ->
  server_on_open uri cb w () h = Ok (w', ()) ->
  m_id_to_connection_map w !! m_next_id w = None /\ m_next_id w' = m_next_id w + 1 /\
  m_id_to_connection_map w' =
    <[m_next_id w := on_open (m_endpoint w) (new_metadata (m_next_id w) h uri) h]>
      (m_id_to_connection_map w) /\
  m_handle_to_connection_map w' = <[h := m_next_id w]> (m_handle_to_connection_map w).
Proof.
  intros [_ Hfr] Hh. unfold server_on_open.
  assert (m_id_to_connection_map w !! m_next_id w = None) as Hn.
  { destruct (_ !! m_next_id w) eqn:Hs; [|done]. specialize (Hfr (m_next_id w)). rewrite Hs in Hfr.
    enough (m_next_id w < m_next_id w) by lia. by apply Hfr. }
  intros Hopen. ok_inv. int_inv. rewrite Hn, Hh. simpl. done.
Qed.

Lemma server_step_wf uri w ev w' : server_step uri w ev w' -> server_wf w -> server_wf w'.
Proof.
  assert (forall f h, same_identity f -> server_wf w -> server_wf (server_handler f w h)) as Hhandler.
  { intros f h Hf Hwf. unfold server_handler. destruct (_ !! h); [by apply server_wf_alter|done]. }
  destruct 1 as [w h w' cb Hh Hopen|w h p|w h p|w h|w h|w id m fmt w' ok Hs|w id w' o Hd];
    intros Hwf; try (by apply Hhandler).
  - destruct (server_on_open_new _ _ _ _ _ Hwf Hh Hopen) as (Hn & Hnx & Hi & Hm). destruct Hwf as [Hw Hfr].
    split; rewrite ?Hi, ?Hm, ?Hnx.
    + intros h' id. destruct (decide (h = h')) as [->|Hne].
      * rewrite lookup_insert_eq. intros [= <-]. rewrite lookup_insert_eq. eauto.
      * rewrite lookup_insert_ne by done. intros Hid. destruct (Hw h' id Hid) as (md & Hmd & ?).
        rewrite lookup_insert_ne by congruence. eauto.
    + intros id. destruct (decide (m_next_id w = id)) as [<-|]; [lia|].
      rewrite lookup_insert_ne by done. intros Hs%Hfr. lia.
  - unfold send in Hs. destruct (_ !! id) as [md|] eqn:Hid; [|by simplify_eq].
    destruct (ep_send _ _ _ _) as [e []]; simplify_eq.
    + by eapply server_wf_insert.
    + destruct Hwf. by split.
  - unfold dequeue_message in Hd. destruct (_ !! id) as [md|] eqn:Hid; [|by simplify_eq].
    destruct (dequeue _); simplify_eq. by apply (server_wf_insert w (m_endpoint w) md).
Qed.

(** All that arrived on a handle, and all that was read from an id. *)
Definition all_arrived (h : nat) (tr : list event) : list string := mjoin (map (arrived h) tr).
Definition all_read (id : Z) (tr : list event) : list string := mjoin (map (read id) tr).

Lemma all_arrived_snoc h tr ev : all_arrived h (tr ++ [ev]) = all_arrived h tr ++ arrived h ev.
Proof. unfold all_arrived. rewrite map_app, join_app. simpl. by rewrite app_nil_r. Qed.
Lemma all_read_snoc id tr ev : all_read id (tr ++ [ev]) = all_read id tr ++ read id ev.
Proof. unfold all_read. rewrite map_app, join_app. simpl. by rewrite app_nil_r. Qed.

Record routed (tr : list event) w : Prop := {
  rt_wf : server_wf w;
  rt_fifo : forall h id, m_handle_to_connection_map w !! h = Some id ->
    all_arrived h tr = all_read id tr ++ queued_on w id;
  rt_closed : forall h, m_handle_to_connection_map w !! h = None -> all_arrived h tr = [];
  rt_unused : forall id, m_id_to_connection_map w !! id = None -> all_read id tr = []
}.

(** A step that opens nothing keeps the handle map and the ids in use. *)
Lemma step_maps uri w ev w' :
  server_step uri w ev w' -> (forall h, ev <> EvOpen h) ->
  m_handle_to_connection_map w' = m_handle_to_connection_map w /\
  (forall id, m_id_to_connection_map w' !! id = None -> m_id_to_connection_map w !! id = None).
Proof.
  assert (forall f h, m_handle_to_connection_map (server_handler f w h) = m_handle_to_connection_map w /\
    (forall id, m_id_to_connection_map (server_handler f w h) !! id = None ->
                m_id_to_connection_map w !! id = None)) as Hh.
  { intros f h. unfold server_handler. destruct (_ !! h) as [i|]; [|done]. split; [done|].
    intros id. simpl. destruct (decide (i = id)) as [->|].
    - rewrite lookup_alter_eq. by destruct (_ !! id).
    - by rewrite lookup_alter_ne. }
  assert (forall id0 md md', m_id_to_connection_map w !! id0 = Some md ->
    forall id, <[id0 := md']> (m_id_to_connection_map w) !! id = None ->
               m_id_to_connection_map w !! id = None) as Hi.
  { intros id0 md md' _ id [? ?]%lookup_insert_None. done. }
  destruct 1 as [w h w' cb Hn Hopen|w h p|w h p|w h|w h|w id m fmt w' ok Hs|w id w' o Hd];
    intros Hne; try apply Hh; [by destruct (Hne h)| |].
  - unfold send in Hs. destruct (_ !! id) as [md|] eqn:Hid; [|by simplify_eq].
    destruct (ep_send _ _ _ _) as [e []]; simplify_eq; simpl; eauto.
  - unfold dequeue_message in Hd. destruct (_ !! id) as [md|] eqn:Hid; [|by simplify_eq].
    destruct (dequeue _); simplify_eq; simpl; eauto.
Qed.

(** How a step that opens nothing changes the queue of a connection. *)
Lemma step_queue uri w ev w' h id :
  server_wf w -> server_step uri w ev w' -> (forall h, ev <> EvOpen h) ->
  m_handle_to_connection_map w !! h = Some id ->
  queued_on w id ++ arrived h ev = read id ev ++ queued_on w' id.
Proof.
  intros Hwf Hstep Hne Hh. destruct (sw_handle _ Hwf h id Hh) as (md & Hmd & Hmh & Hmi).
  assert (forall f h', (forall x, m_message_queue (f x) = m_message_queue x) ->
    queued_on (server_handler f w h') id = queued_on w id) as Hkeep.
  { intros f h' Hf. unfold server_handler. destruct (_ !! h') as [i|]; [|done]. simpl.
    destruct (decide (i = id)) as [->|]; [|by rewrite lookup_alter_ne].
    rewrite lookup_alter_eq, Hmd. simpl. apply Hf. }
  destruct Hstep as [w h' w' cb Hn Hopen|w h' p Hs|w h' p Hs|w h'|w h'|w id' m fmt w' ok Hs|w id' w' o Hd];
    cbn [arrived read]; rewrite ?app_nil_r; try (symmetry; by apply Hkeep).
  - by destruct (Hne h').
  - simpl. unfold server_on_message, server_handler. destruct Hs as [i Hi]. rewrite Hi. simpl.
    destruct (Nat.eqb_spec h' h) as [->|Hneq].
    + simplify_eq. by rewrite lookup_alter_eq, Hmd.
    + rewrite app_nil_r. destruct (decide (i = id)) as [->|]; [|by rewrite lookup_alter_ne].
      destruct (sw_handle _ Hwf h' id Hi) as (md' & ? & ? & _). congruence.
  - unfold server_on_message, server_handler. by rewrite Hs.
  - by rewrite (proj1 (websocket_send_law _ _ _ _ _ _ Hs)).
  - destruct (websocket_dequeue_law _ _ _ _ Hd) as (-> & _ & ->). rewrite Z.eqb_sym.
    destruct (Z.eqb_spec id id') as [<-|Hneq].
    + by destruct (queued_on w id).
    + by destruct (head _).
Qed.

Lemma server_run_routed uri e tr w : server_run uri e tr w -> routed tr w.
Proof.
  induction 1 as [|tr w ev w' _ [Hwf Hfifo Hcl Hun] Hstep].
  - split; [split|..]; simpl.
    + intros h id. by rewrite lookup_empty.
    + intros id. rewrite lookup_empty. by intros [].
    + intros h id. by rewrite lookup_empty.
    + done.
    + done.
  - pose proof (server_step_wf _ _ _ _ Hstep Hwf) as Hwf'.
    assert ((exists h, ev = EvOpen h) \/ (forall h, ev <> EvOpen h)) as [[h ->]|Hne]
      by (destruct ev; eauto).
    + inversion Hstep as [? ? ? cb Hh Hopen| | | | | |]; subst.
      destruct (server_on_open_new _ _ _ _ _ Hwf Hh Hopen) as (Hn & _ & Hi & Hm).
      assert (forall h', all_arrived h' (tr ++ [EvOpen h]) = all_arrived h' tr) as Ha
        by (intros; by rewrite all_arrived_snoc, app_nil_r).
      assert (forall id, all_read id (tr ++ [EvOpen h]) = all_read id tr) as Hr
        by (intros; by rewrite all_read_snoc, app_nil_r).
      split; [done|..]; rewrite ?Hi, ?Hm.
      * intros h' id. rewrite Ha, Hr. simpl. rewrite Hi. destruct (decide (h = h')) as [<-|].
        -- rewrite lookup_insert_eq. intros [= <-]. rewrite lookup_insert_eq. simpl.
           by rewrite (Hcl _ Hh), (Hun _ Hn).
        -- rewrite lookup_insert_ne by done. intros Hid.
           destruct (sw_handle _ Hwf _ _ Hid) as (md & Hmd & _).
           rewrite lookup_insert_ne by congruence. by apply Hfifo.
      * intros h' [? ?]%lookup_insert_None. rewrite Ha. by apply Hcl.
      * intros id [? ?]%lookup_insert_None. rewrite Hr. by apply Hun.
    + destruct (step_maps _ _ _ _ Hstep Hne) as [Hm Hi]. split; [done|..].
      * intros h id. rewrite Hm. intros Hh. rewrite all_arrived_snoc, all_read_snoc.
        rewrite (Hfifo _ _ Hh), <- !app_assoc. f_equal. by eapply step_queue.
      * intros h. rewrite Hm. intros Hh. rewrite all_arrived_snoc, (Hcl _ Hh).
        destruct Hstep as [|w h' p Hs| | | | |]; simpl; try done.
        destruct (Nat.eqb_spec h' h) as [->|]; [|done]. rewrite Hh in Hs. by destruct Hs.
      * intros id Hid%Hi. rewrite all_read_snoc, (Hun _ Hid).
        destruct Hstep as [| | | | | |w id' w' o Hd]; simpl; try done.
        destruct (websocket_dequeue_law _ _ _ _ Hd) as (-> & _). simpl.
        destruct (Z.eqb_spec id' id) as [->|]; [by rewrite Hid|]. by destruct (head _).
Qed.

(** The websocket server keeps its connections apart and in order.  In every
    run (connections opening and closing, messages arriving, the service sending
    and dequeuing in any interleaving), each open handle has one connection id,
    and the messages read from that id so far, followed by those still queued
    under it, are exactly the messages that arrived on that handle since it was
    opened, in order. *)
Theorem server_fifo_per_connection uri e tr w h id :
  server_run uri e tr w -> m_handle_to_connection_map w !! h = Some id ->
  (exists md, m_id_to_connection_map w !! id = Some md /\ m_handle md = h /\ m_id md = id) /\
  all_arrived h tr = all_read id tr ++ queued_on w id.
Proof.
  intros [Hwf Hfifo _ _]%server_run_routed Hh. split; [by apply (sw_handle _ Hwf)|by apply Hfifo].
Qed.
End Laws.

(** ** A run with two connections *)
#[export] Instance null_endpoint : Endpoint unit := {|
  ep_send e _ _ _ := (e, true); ep_close e _ _ := (e, true); ep_start_accept e := (e, true);
  ep_get_connection e _ := (e, Some 0%nat); ep_append_header e _ _ _ := e; ep_connect e _ := e;
  ep_is_server _ _ := true; ep_request_header _ _ _ := "order_request"%string;
  ep_response_header _ _ _ := ""%string; ep_close_reason _ _ := ""%string
|}.

Definition sample_server_trace : list event :=
  [EvOpen 10; EvMessage 10 "a"; EvOpen 11; EvMessage 11 "b"; EvMessage 10 "c";
   EvDequeue 0 (Some "a"%string)].

Definition opened (w : WebsocketManager unit) (h : nat) : WebsocketManager unit :=
  match server_on_open "uri" None w () h with Ok (w', _) => w' | Err _ => w end.

Definition sample_server : WebsocketManager unit :=
  (dequeue_message
    (server_on_message (server_on_message
      (opened (server_on_message (opened (new_server ()) 10) 10 "a") 11) 11 "b") 10 "c") 0).1.

Lemma sample_server_run : server_run "uri" () sample_server_trace sample_server.
Proof.
  apply (run_step _ _ [EvOpen 10; EvMessage 10 "a"; EvOpen 11; EvMessage 11 "b"; EvMessage 10 "c"]
           (server_on_message (server_on_message
             (opened (server_on_message (opened (new_server ()) 10) 10 "a") 11) 11 "b") 10 "c")).
  2: apply ss_dequeue; reflexivity.
  eapply (run_step _ _ [EvOpen 10; EvMessage 10 "a"; EvOpen 11; EvMessage 11 "b"]).
  2: apply ss_message; eexists; reflexivity.
  eapply (run_step _ _ [EvOpen 10; EvMessage 10 "a"; EvOpen 11]).
  2: apply ss_message; eexists; reflexivity.
  apply (run_step _ _ [EvOpen 10; EvMessage 10 "a"] (server_on_message (opened (new_server ()) 10) 10 "a")).
  2: apply (ss_open _ _ _ _ None); reflexivity.
  eapply (run_step _ _ [EvOpen 10]).
  2: apply ss_message; eexists; reflexivity.
  apply (run_step _ _ [] (new_server ())); [apply run_start|].
  apply (ss_open _ _ _ _ None); reflexivity.
Qed.

Lemma server_fifo_per_connection_witness :
  (exists md, m_id_to_connection_map sample_server !! 0 = Some md /\ m_handle md = 10%nat /\ m_id md = 0) /\
  all_arrived 10 sample_server_trace = all_read 0 sample_server_trace ++ queued_on sample_server 0.
Proof.
  apply (server_fifo_per_connection "uri" () sample_server_trace sample_server 10 0);
    [exact sample_server_run|reflexivity].
Defined.
