(* ===== verification/TransportLife.v ===== *)
(** * The life of a websocket manager

    [start], [stop] and the destructors of [libs/transport/websocket/*.h].  The owner
    of a manager works beside the network thread, which runs [run] of the endpoint:
    it calls the handlers and returns when the endpoint has nothing left to do.  Of a
    connection this file keeps the status in the manager's metadata and what has
    become of the connection itself; a server files the metadata when a connection
    opens, and until then its status counts as [connecting], since no loop of the
    manager treats the two differently.

    What the endpoint does is documented behaviour of websocketpp: [run] returns when
    the endpoint is neither perpetual nor listening and has no connection left;
    a data frame on a connection that is closing is dropped; [stop_listening] fails on
    an endpoint that does not listen; a close that was asked for completes or times out. *)

From S2P Require Import Prelude Transport.
From Stdlib Require Import ZArith Lia.
From stdpp Require Import base option list gmap fin_maps relations.

Open Scope Z_scope.

Inductive EndpointSide := client_side | server_side.
#[export] Instance EndpointSide_eq_dec : EqDecision EndpointSide.
Proof. solve_decision. Defined.

(** A connection: its handshake runs, it is established, a close was asked for, or it
    is over. *)
Inductive link := handshaking | established | closing | gone.
#[export] Instance link_eq_dec : EqDecision link.
Proof. solve_decision. Defined.

(** Where the owner is: before the destructor; between the destructor of the derived
    class, which takes the members of that class with it, and that of the base class;
    in [join]; behind it. *)
Inductive stage := alive | derived_gone | joining | dead.
#[export] Instance stage_eq_dec : EqDecision stage.
Proof. solve_decision. Defined.

Record Life := mkLife {
  side : EndpointSide;
  at_stage : stage;
  perpetual : bool;
  listening : bool;
  (** The network thread: none, one that runs, or one whose [run] has returned. *)
  m_thread : option bool;
  links : gmap Z (ConnectionStatus * link);
  (** A handler has used a member that was destroyed before. *)
  stale : bool
}.

Definition new_life (s : EndpointSide) : Life := mkLife s alive false false None ∅ false.

Definition with_life_links (l : Life) (m : gmap Z (ConnectionStatus * link)) : Life :=
  mkLife (side l) (at_stage l) (perpetual l) (listening l) (m_thread l) m (stale l).
Definition with_stage (l : Life) (s : stage) : Life :=
  mkLife (side l) s (perpetual l) (listening l) (m_thread l) (links l) (stale l).

(** ** The owner's operations *)
Definition life_client_start (l : Life) : Life :=
  mkLife (side l) (at_stage l) true (listening l) (Some true) (links l) (stale l).

(** [accepts]: whether [start_accept] succeeds. *)
Definition life_server_start (accepts : bool) (l : Life) : Life * bool :=
  (mkLife (side l) (at_stage l) (perpetual l) true (if accepts then Some true else m_thread l) (links l) (stale l),
   accepts).

Definition stop_perpetual (l : Life) : Life :=
  mkLife (side l) (at_stage l) false (listening l) (m_thread l) (links l) (stale l).
Definition stop_listening (l : Life) : Life * bool :=
  (mkLife (side l) (at_stage l) (perpetual l) false (m_thread l) (links l) (stale l), listening l).

(** [m_endpoint.close] on one connection; [fails]: whether it reports an error. *)
Definition close_link (fails : bool) (c : ConnectionStatus * link) : ConnectionStatus * link :=
  match c with
  | (st, established) => if fails then c else (st, closing)
  | _ => c
  end.

(** Only connections with status [open] are closed. *)
Definition close_all_links (fails : Z -> bool) (m : gmap Z (ConnectionStatus * link))
    : gmap Z (ConnectionStatus * link) :=
  map_imap (fun id c => Some (if decide (c.1 = open) then close_link (fails id) c else c)) m.
Definition life_close_all (fails : Z -> bool) (l : Life) : Life := with_life_links l (close_all_links fails (links l)).

Definition client_stop (fails : Z -> bool) (l : Life) : Life := life_close_all fails (stop_perpetual l).

(** A server that fails to stop listening closes nothing. *)
Definition server_stop (fails : Z -> bool) (l : Life) : Life :=
  let '(l, ok) := stop_listening l in if ok then life_close_all fails l else l.

(** [~WebsocketManagerClient] and [~WebsocketManagerServer]. *)
Definition derived_destructor (l : Life) : Life :=
  with_stage (match side l with client_side => stop_perpetual l | server_side => (stop_listening l).1 end)
    derived_gone.
(** [~WebsocketManager], up to and behind the [join]. *)
Definition base_destructor (fails : Z -> bool) (l : Life) : Life := with_stage (life_close_all fails l) joining.

Definition can_join (l : Life) : bool := bool_decide (at_stage l = joining /\ m_thread l <> Some true).

Inductive manager_step : Life -> Life -> Prop :=
  | os_start_client l : at_stage l = alive -> side l = client_side -> m_thread l = None ->
      manager_step l (life_client_start l)
  | os_start_server l b : at_stage l = alive -> side l = server_side -> m_thread l = None ->
      manager_step l (life_server_start b l).1
  | os_connect l id : at_stage l = alive -> side l = client_side -> links l !! id = None ->
      manager_step l (with_life_links l (<[id := (connecting, handshaking)]> (links l)))
  | os_stop_client l fails : at_stage l = alive -> side l = client_side -> manager_step l (client_stop fails l)
  | os_stop_server l fails : at_stage l = alive -> side l = server_side -> manager_step l (server_stop fails l)
  | os_derived l : at_stage l = alive -> manager_step l (derived_destructor l)
  | os_base l fails : at_stage l = derived_gone -> manager_step l (base_destructor fails l)
  | os_join l : can_join l = true -> manager_step l (with_stage l dead).

(** ** The network thread *)
(** The handlers of a server look the connection up in [m_handle_to_connection_map], a
    member of the derived class; those of a client hold the metadata themselves. *)
Definition uses_handle_map (l : Life) : bool :=
  bool_decide (side l = server_side /\ at_stage l <> alive).

Definition run_handler (l : Life) (id : Z) (c : ConnectionStatus * link) : Life :=
  mkLife (side l) (at_stage l) (perpetual l) (listening l) (m_thread l) (<[id := c]> (links l))
    (stale l || uses_handle_map l).

Definition nothing_left (l : Life) : bool :=
  negb (perpetual l) && negb (listening l) && bool_decide (map_Forall (fun _ c => c.2 = gone) (links l)).

Inductive net_step : Life -> Life -> Prop :=
  | ns_accept l id : m_thread l = Some true -> side l = server_side -> listening l = true ->
      links l !! id = None -> net_step l (with_life_links l (<[id := (connecting, handshaking)]> (links l)))
  | ns_open l id st : m_thread l = Some true -> links l !! id = Some (st, handshaking) ->
      net_step l (run_handler l id (open, established))
  | ns_fail l id st : m_thread l = Some true -> links l !! id = Some (st, handshaking) ->
      net_step l (run_handler l id (failed, gone))
  | ns_message l id st : m_thread l = Some true -> links l !! id = Some (st, established) ->
      net_step l (run_handler l id (st, established))
  | ns_peer_closes l id st : m_thread l = Some true -> links l !! id = Some (st, established) ->
      net_step l (run_handler l id (closed, gone))
  | ns_closed l id st : m_thread l = Some true -> links l !! id = Some (st, closing) ->
      net_step l (run_handler l id (closed, gone))
  | ns_return l : m_thread l = Some true -> nothing_left l = true ->
      net_step l (mkLife (side l) (at_stage l) (perpetual l) (listening l) (Some false) (links l) (stale l)).

Definition life_step (l l' : Life) : Prop := manager_step l l' \/ net_step l l'.
Definition life_reachable (s : EndpointSide) (l : Life) : Prop := rtc life_step (new_life s) l.

(** ** The invariant *)
Definition link_ok (c : ConnectionStatus * link) : Prop :=
  match c with
  | (connecting, handshaking) | (open, established) | (open, closing) | (failed, gone) | (closed, gone) => True
  | _ => False
  end.

Record life_wf (l : Life) : Prop := {
  lw_links : map_Forall (fun _ c => link_ok c) (links l);
  lw_server : side l = server_side -> perpetual l = false;
  lw_client : side l = client_side -> listening l = false;
  lw_ended : at_stage l <> alive -> perpetual l = false /\ listening l = false;
  lw_fresh : at_stage l = alive \/ side l = client_side -> stale l = false
}.

Lemma lookup_close_all fails m id :
  close_all_links fails m !! id =
    (fun c => if decide (c.1 = open) then close_link (fails id) c else c) <$> m !! id.
Proof. unfold close_all_links. rewrite map_lookup_imap. by destruct (m !! id). Qed.

Lemma close_all_ok fails m :
  map_Forall (fun _ c => link_ok c) m -> map_Forall (fun _ c => link_ok c) (close_all_links fails m).
Proof.
  intros Hm id c. rewrite lookup_close_all, fmap_Some. intros ([st lk] & Hc & ->). pose proof (Hm _ _ Hc) as Hok.
  destruct st, lk; simpl in *; try done; by destruct (fails id).
Qed.

Lemma new_life_wf s : life_wf (new_life s).
Proof. by split. Qed.

Lemma manager_step_wf l l' : manager_step l l' -> life_wf l -> life_wf l'.
Proof.
  intros Hs [Hl Hsv Hcl He Hf].
  destruct Hs as [l Ha Hside Ht|l b Ha Hside Ht|l id Ha Hside Hn|l fails Ha Hside|l fails Ha Hside|l Ha|l fails Ha
    |l Hj]; simpl in *.
  - by split; simpl; try congruence.
  - by split; simpl; try congruence; auto.
  - split; simpl; auto. by apply map_Forall_insert_2.
  - split; simpl; auto using close_all_ok; congruence.
  - unfold server_stop. simpl. destruct (listening l); split; simpl; auto using close_all_ok; congruence.
  - unfold derived_destructor. destruct (side l) eqn:Es; split; simpl; rewrite ?Es; auto; try congruence; auto.
  - assert (at_stage l <> alive) as Hna by congruence. destruct (He Hna).
    split; simpl; auto using close_all_ok. intros [?|?]; [done|auto].
  - apply bool_decide_eq_true in Hj as [Hj _]. assert (at_stage l <> alive) as Hna by congruence. destruct (He Hna).
    split; simpl; auto. intros [?|?]; [done|auto].
Qed.

Lemma run_handler_wf l id c : life_wf l -> link_ok c -> life_wf (run_handler l id c).
Proof.
  intros [Hl Hsv Hcl He Hf] Hc. split; simpl; auto; [by apply map_Forall_insert_2|]. intros Hs.
  rewrite (Hf Hs). unfold uses_handle_map. simpl. apply bool_decide_eq_false.
  intros [? ?]. destruct Hs; congruence.
Qed.

Lemma net_step_wf l l' : net_step l l' -> life_wf l -> life_wf l'.
Proof.
  intros Hs Hw. pose proof (lw_links l Hw) as Hl.
  destruct Hs as [l id Ht Hside Hli Hn|l id st Ht Hc|l id st Ht Hc|l id st Ht Hc|l id st Ht Hc|l id st Ht Hc|l Ht Hi];
    try (by apply run_handler_wf).
  - destruct Hw. split; simpl; auto. by apply map_Forall_insert_2.
  - apply run_handler_wf; [done|]. apply Hl in Hc. by destruct st.
  - destruct Hw. by split.
Qed.

Lemma life_reachable_wf s l : life_reachable s l -> life_wf l /\ side l = s.
Proof.
  apply (rtc_ind_r (fun l => life_wf l /\ side l = s)); [by split; [apply new_life_wf|]|].
  intros x y _ Hs [Hw Hside]. split.
  - destruct Hs as [Hs|Hs]; [exact (manager_step_wf _ _ Hs Hw)|exact (net_step_wf _ _ Hs Hw)].
  - rewrite <- Hside. destruct Hs as [Hs|Hs]; destruct Hs; try done;
      unfold server_stop, derived_destructor; simpl; by case_match.
Qed.

(** ** The destructor ends *)
Definition quiet_link (c : ConnectionStatus * link) : Prop := c.2 <> handshaking.
Definition live (l : Life) : nat := size (filter (fun kv => kv.2.2 <> gone) (links l)).
Definition work_left (l : Life) : nat := live l + (if decide (m_thread l = Some true) then 1 else 0).

(** In [join], with every connection over or about to be. *)
Record winding (l : Life) : Prop := {
  wd_stage : at_stage l = joining;
  wd_perpetual : perpetual l = false;
  wd_listening : listening l = false;
  wd_links : map_Forall (fun _ c => link_ok c /\ c.2 <> handshaking /\ c.2 <> established) (links l)
}.

Lemma live_gone l id c c' :
  links l !! id = Some c -> c.2 <> gone -> c'.2 = gone ->
  live l = S (live (run_handler l id c')).
Proof.
  intros Hc Hg Hg'. unfold live. simpl. rewrite map_filter_insert_False by (intros Hn; by apply Hn).
  rewrite <- (insert_id (links l) id c Hc) at 1. rewrite <- insert_delete_eq.
  rewrite map_filter_insert_True by done.
  rewrite map_size_insert_None; [|by rewrite map_lookup_filter, lookup_delete_eq].
  by rewrite map_filter_delete.
Qed.

Lemma winding_step l l' : winding l -> net_step l l' -> winding l' /\ work_left l = S (work_left l').
Proof.
  intros [Hst Hp Hli Hl] Hs.
  destruct Hs as [l id Ht Hside Hli' Hn|l id st Ht Hc|l id st Ht Hc|l id st Ht Hc|l id st Ht Hc|l id st Ht Hc|l Ht Hi];
    try congruence; try (by destruct (Hl _ _ Hc) as (_ & ? & ?)).
  - split.
    + split; simpl; auto. apply map_Forall_insert_2; [by split_and!|done].
    + unfold work_left. rewrite (live_gone l id (st, closing) (closed, gone)) by done. done.
  - split; [by split|]. unfold work_left, live. simpl. rewrite Ht.
    destruct (decide (Some true = Some true)); [|done]. destruct (decide (Some false = Some true)); [done|]. lia.
Qed.

Lemma winding_steps n l l' : winding l -> nsteps net_step n l l' -> winding l' /\ work_left l = (n + work_left l')%nat.
Proof.
  intros Hw Hn. induction Hn as [l|n l l1 l' Hs _ IH]; [done|].
  destruct (winding_step _ _ Hw Hs) as [Hw1 Hl]. destruct (IH Hw1) as [? E]. split; [done|]. lia.
Qed.

Lemma winding_progress l : winding l -> m_thread l = Some true -> exists l', net_step l l'.
Proof.
  intros [Hst Hp Hli Hl] Ht. destruct (nothing_left l) eqn:Ei; [by eexists; apply ns_return|].
  unfold nothing_left in Ei. rewrite Hp, Hli in Ei. simpl in Ei. apply bool_decide_eq_false in Ei.
  apply map_not_Forall in Ei as (id & [st lk] & Hc & Hg); [|intros; apply _]. destruct (Hl _ _ Hc) as (_ & ? & ?).
  destruct lk; try done. by eexists; eapply ns_closed.
Qed.

(** What the network thread does between the two destructors. *)
Definition leaving (l : Life) : Prop :=
  life_wf l /\ at_stage l = derived_gone /\ map_Forall (fun _ c => quiet_link c) (links l).

Lemma leaving_step l l' : leaving l -> net_step l l' -> leaving l'.
Proof.
  intros (Hw & Hst & Hq) Hs. split; [by eapply net_step_wf|].
  assert (listening l = false) as Hli by (apply (lw_ended _ Hw); congruence).
  destruct Hs as [l id Ht Hside Hli' Hn|l id st Ht Hc|l id st Ht Hc|l id st Ht Hc|l id st Ht Hc|l id st Ht Hc|l Ht Hi];
    try congruence; (split; [done|]); simpl; try done; try (by destruct (Hq _ _ Hc));
    by apply map_Forall_insert_2.
Qed.

Lemma leaving_steps l l' : rtc net_step l l' -> leaving l -> leaving l'.
Proof. induction 1; eauto using leaving_step. Qed.

Lemma base_winds l : leaving l -> winding (base_destructor (fun _ => false) l).
Proof.
  intros (Hw & Hst & Hq). assert (at_stage l <> alive) as Hna by congruence. destruct (lw_ended _ Hw Hna).
  split; simpl; try done. intros id c. rewrite lookup_close_all, fmap_Some. intros ([st lk] & Hc & ->).
  pose proof (lw_links _ Hw _ _ Hc) as Hok. pose proof (Hq _ _ Hc) as Hqc. unfold quiet_link in Hqc.
  destruct st, lk; simpl in *; try done; by split_and!.
Qed.

Lemma live_base fails l : live (base_destructor fails l) = live l.
Proof.
  unfold live. rewrite <- !size_dom. f_equal. apply set_eq. intros id. rewrite !elem_of_dom. simpl.
  unfold is_Some. setoid_rewrite map_lookup_filter_Some. rewrite lookup_close_all. simpl.
  split.
  - intros (c & (([st lk] & Hc & ->)%fmap_Some & Hg)). exists (st, lk). split; [done|]. simpl. intros ->.
    apply Hg. simpl. by destruct (decide _).
  - intros ([st lk] & Hc & Hg). rewrite Hc. simpl. eexists. split; [done|]. simpl in *.
    destruct (decide _); [|done]. destruct lk; simpl; try done. by destruct (fails id).
Qed.

(** With every connection over, nothing but the return of [run] is left. *)
Lemma over_step l l' : listening l = false -> map_Forall (fun _ c => c.2 = gone) (links l) -> net_step l l' ->
  listening l' = false /\ links l' = links l /\ stale l' = stale l.
Proof.
  intros Hli Hg Hs.
  destruct Hs as [l id Ht Hside Hli' Hn|l id st Ht Hc|l id st Ht Hc|l id st Ht Hc|l id st Ht Hc|l id st Ht Hc|l Ht Hi];
    try congruence; try (by specialize (Hg _ _ Hc)). done.
Qed.

Lemma over_steps n l l' : listening l = false -> map_Forall (fun _ c => c.2 = gone) (links l) ->
  nsteps net_step n l l' -> links l' = links l /\ stale l' = stale l.
Proof.
  intros Hli Hg Hn. induction Hn as [l|n l l1 l' Hs _ IH]; [done|].
  destruct (over_step _ _ Hli Hg Hs) as (Hli1 & El & Est). rewrite El in IH. destruct (IH Hli1 Hg) as [-> ->]. done.
Qed.

(** C27: the destructor of a manager ends.  When it is called while no connection is in its
    handshake, and each close that it asks for is accepted, then from the call of
    [join] on the network thread takes at most one step for each connection that is
    left and one to return; until it has returned it can go on, and then the join
    succeeds.  If every connection was over when the destructor was called, no
    handler of the manager uses a member that has been destroyed. *)
Theorem destructor_ends s l l1 n l3 :
  life_reachable s l -> at_stage l = alive -> map_Forall (fun _ c => quiet_link c) (links l) ->
  rtc net_step (derived_destructor l) l1 ->
  nsteps net_step n (base_destructor (fun _ => false) l1) l3 ->
  manager_step l (derived_destructor l) /\ manager_step l1 (base_destructor (fun _ => false) l1) /\
  (n <= S (live l1))%nat /\
  (m_thread l3 = Some true -> exists l4, net_step l3 l4) /\
  (m_thread l3 <> Some true -> manager_step l3 (with_stage l3 dead)) /\
  (map_Forall (fun _ c => c.2 = gone) (links l) -> stale l3 = false).
Proof.
  intros [Hw Hside]%life_reachable_wf Ha Hq Hnet Hn.
  assert (manager_step l (derived_destructor l)) as Hd by (by apply os_derived).
  assert (leaving (derived_destructor l)) as Hlv.
  { split; [by eapply manager_step_wf|]. split; [done|]. unfold derived_destructor. by destruct (side l). }
  assert (leaving l1) as Hlv1 by exact (leaving_steps _ _ Hnet Hlv).
  split; [done|]. split; [apply os_base, Hlv1|].
  destruct (winding_steps _ _ _ (base_winds _ Hlv1) Hn) as [Hw3 Hleft].
  split; [|split; [by apply winding_progress|split]].
  - unfold work_left in Hleft. rewrite live_base in Hleft. repeat destruct (decide _); lia.
  - intros Ht. apply os_join, bool_decide_eq_true. split; [apply Hw3|done].
  - intros Hg. apply rtc_nsteps_1 in Hnet as [k Hk].
    assert (links (derived_destructor l) = links l /\ stale (derived_destructor l) = stale l) as [El Es]
      by (unfold derived_destructor; by destruct (side l)).
    assert (listening (derived_destructor l) = false) as Hli.
    { destruct Hlv as (Hw' & Hst & _). apply (lw_ended _ Hw'). congruence. }
    rewrite <- El in Hg. destruct (over_steps _ _ _ Hli Hg Hk) as [El1 Es1].
    assert (map_Forall (fun _ c => c.2 = gone) (links (base_destructor (fun _ => false) l1))) as Hg1.
    { intros id c. simpl. rewrite lookup_close_all, El1, fmap_Some. intros ([st lk] & Hc & ->).
      apply Hg in Hc. simpl in *. subst lk. by destruct (decide _). }
    destruct (over_steps _ _ _ (wd_listening _ (base_winds _ Hlv1)) Hg1 Hn) as [_ ->].
    simpl. rewrite Es1, Es. apply (lw_fresh _ Hw). by left.
Qed.

(** ** Shortcomings *)

(** An established connection that nobody asked to close blocks the join, until the
    peer closes it. *)
Lemma established_blocks l l' id st :
  at_stage l = joining -> m_thread l = Some true -> links l !! id = Some (st, established) -> life_step l l' ->
  can_join l = false /\
  ((at_stage l' = joining /\ m_thread l' = Some true /\
     exists st', links l' !! id = Some (st', established)) \/ links l' !! id = Some (closed, gone)).
Proof.
  intros Hst Ht Hid Hs.
  assert (can_join l = false) as Hcan by (apply bool_decide_eq_false; intros [_ ?]; by rewrite Ht in * ).
  split; [exact Hcan|].
  destruct Hs as [Hs|Hs].
  { destruct Hs; try congruence. }
  assert (forall id' c, links l !! id' = Some c -> c.2 <> established -> id' <> id) as Hne
    by (intros id' c Hc Hn ->; rewrite Hid in Hc; injection Hc as <-; by apply Hn).
  destruct Hs as [l id' _ Hside Hli Hn|l id' st' _ Hc|l id' st' _ Hc|l id' st' _ Hc|l id' st' _ Hc|l id' st' _ Hc|l _ Hi].
  - left. split; [done|]. split; [done|]. exists st. simpl. rewrite lookup_insert_ne; [done|congruence].
  - left. split; [done|]. split; [done|]. exists st. simpl.
    rewrite lookup_insert_ne; [done|]. by eapply Hne.
  - left. split; [done|]. split; [done|]. exists st. simpl.
    rewrite lookup_insert_ne; [done|]. by eapply Hne.
  - left. split; [done|]. split; [done|]. simpl. destruct (decide (id' = id)) as [->|Hne'].
    + exists st'. by rewrite lookup_insert_eq.
    + exists st. by rewrite lookup_insert_ne.
  - destruct (decide (id' = id)) as [->|Hne']; [right; simpl; by rewrite lookup_insert_eq|].
    left. split; [done|]. split; [done|]. exists st. simpl. by rewrite lookup_insert_ne.
  - left. split; [done|]. split; [done|]. exists st. simpl.
    rewrite lookup_insert_ne; [done|]. by eapply Hne.
  - apply andb_true_iff in Hi as [_ Hg%bool_decide_eq_true]. by specialize (Hg _ _ Hid).
Qed.

(** A client is destroyed while it connects: the connection opens after [close_all] has
    passed over it, and the destructor waits in [join]. *)
Definition late_client : Life := mkLife client_side joining false false (Some true) {[0 := (open, established)]} false.

Example late_connection_blocks_join : life_reachable client_side late_client.
Proof.
  eapply rtc_l; [left; by apply os_start_client|]. eapply rtc_l; [left; by apply (os_connect _ 0)|].
  eapply rtc_l; [left; by apply os_derived|]. eapply rtc_l; [left; by apply (os_base _ (fun _ => false))|].
  eapply rtc_l; [right; by eapply (ns_open _ 0)|].
  replace (run_handler _ _ _) with late_client; [apply rtc_refl|]. vm_compute. reflexivity.
Qed.

(** A server is destroyed while a connection is open: the close that [~WebsocketManager]
    asks for ends in the close handler, which looks the connection up in the map that
    [~WebsocketManagerServer] has destroyed. *)
Definition stale_server : Life := mkLife server_side joining false false (Some true) {[0 := (closed, gone)]} true.

Lemma open_server_reachable :
  life_reachable server_side (mkLife server_side alive false true (Some true) {[0 := (open, established)]} false).
Proof.
  eapply rtc_l; [left; by apply (os_start_server _ true)|]. eapply rtc_l; [right; by apply (ns_accept _ 0)|].
  eapply rtc_l; [right; by eapply (ns_open _ 0)|].
  match goal with |- rtc _ ?a ?b => replace a with b; [apply rtc_refl|] end. vm_compute. reflexivity.
Qed.

Example close_handler_uses_destroyed_map : life_reachable server_side stale_server.
Proof.
  unfold life_reachable. etrans; [exact open_server_reachable|].
  eapply rtc_l; [left; by apply os_derived|]. eapply rtc_l; [left; by apply (os_base _ (fun _ => false))|].
  eapply rtc_l; [right; by eapply (ns_closed _ 0)|].
  match goal with |- rtc _ ?a ?b => replace a with b; [apply rtc_refl|] end. vm_compute. reflexivity.
Qed.

(** A server with one open connection: the handshake of the close, the return of [run],
    the join. *)
Definition closed_server : Life := mkLife server_side joining false false (Some false) {[0 := (closed, gone)]} true.

Lemma destructor_ends_witness :
  can_join closed_server = true /\
  manager_step closed_server (with_stage closed_server dead).
Proof.
  split; [reflexivity|].
  pose (l := mkLife server_side alive false true (Some true) {[0 := (open, established)]} false).
  refine (proj1 (proj2 (proj2 (proj2 (proj2
    (destructor_ends server_side l (derived_destructor l) 2 closed_server open_server_reachable _ _ _ _))))) _).
  - reflexivity.
  - apply map_Forall_singleton. discriminate.
  - apply rtc_refl.
  - eapply nsteps_l; [by eapply (ns_closed _ 0)|]. eapply nsteps_l; [by apply ns_return|].
    match goal with |- nsteps _ _ ?a ?b => replace a with b; [apply nsteps_O|] end. vm_compute. reflexivity.
  - discriminate.
Defined.
