(* ===== verification/OrderedMap.v ===== *)
(** * [std::map<int, V>]

    The sides of a limit order book are [std::map<int, std::list<Order>>]: a
    map iterated in increasing key order.  It is a list of bindings with
    strictly increasing keys; [operator[]] with assignment is [om_set],
    [erase(key)] is [om_erase], [begin()] is the first binding and
    [std::prev(end())] the last.  Every operation is described by the single
    splitting lemma [om_split]. *)

From S2P Require Import Prelude.
From Stdlib Require Import ZArith Lia.
From stdpp Require Import base option list gmap sorting.

Open Scope Z_scope.

Section OrderedMap.
Context {V : Type}.
Implicit Types (m lo hi : list (Z * V)) (k : Z) (v : V).

Fixpoint om_find k m : option V :=
  match m with
  | [] => None
  | (k', v') :: m' => if k =? k' then Some v' else om_find k m'
  end.

Fixpoint om_set k v m : list (Z * V) :=
  match m with
  | [] => [(k, v)]
  | (k', v') :: m' =>
      if k <? k' then (k, v) :: m
      else if k =? k' then (k, v) :: m' else (k', v') :: om_set k v m'
  end.

Fixpoint om_erase k m : list (Z * V) :=
  match m with
  | [] => []
  | (k', v') :: m' => if k =? k' then m' else (k', v') :: om_erase k m'
  end.

Definition om_begin m : option (Z * V) := head m.
Definition om_rbegin m : option (Z * V) := last m.

(** Strictly increasing keys. *)
Fixpoint om_sorted m : Prop :=
  match m with
  | [] => True
  | (k, _) :: m' => Forall (fun b => k < b.1) m' /\ om_sorted m'
  end.

Lemma om_sorted_app m1 m2 :
  om_sorted (m1 ++ m2) <->
  om_sorted m1 /\ om_sorted m2 /\ Forall (fun a => Forall (fun b => a.1 < b.1) m2) m1.
Proof.
  induction m1 as [|[k v] m1 IH]; simpl.
  - split; [auto|naive_solver].
  - rewrite IH, Forall_app, Forall_cons. simpl. naive_solver.
Qed.

(** A sorted map around a key: the bindings below it, the binding of the key if
    there is one, the bindings above it. *)
Definition opt_binding k (o : option V) : list (Z * V) :=
  match o with Some v => [(k, v)] | None => [] end.

Lemma om_split k m :
  om_sorted m ->
  exists lo hi,
    m = lo ++ opt_binding k (om_find k m) ++ hi /\
    Forall (fun b => b.1 < k) lo /\ Forall (fun b => k < b.1) hi /\
    (forall v, om_set k v m = lo ++ (k, v) :: hi) /\ om_erase k m = lo ++ hi.
Proof.
  induction m as [|[k' v'] m IH]; simpl; intros Hs.
  - exists [], []. by repeat split; try constructor.
  - destruct Hs as [Hlt Hs].
    destruct (Z.ltb_spec k k').
    + exists [], ((k', v') :: m).
      rewrite (proj2 (Z.eqb_neq _ _)) by lia.
      assert (Forall (fun b => k < b.1) m) by (eapply Forall_impl; [done|simpl; lia]).
      assert (forall m0, Forall (fun b => k < b.1) m0 -> om_find k m0 = None /\ om_erase k m0 = m0)
        as Habs.
      { induction 1 as [|[k1 v1] m1 Hk1 _ [IH1 IH2]]; [done|]; simpl in *.
        rewrite (proj2 (Z.eqb_neq _ _)) by lia. by rewrite IH1, IH2. }
      destruct (Habs m) as [-> ->]; [done|]. simpl. repeat split; auto.
    + destruct (Z.eqb_spec k k') as [->|].
      * exists [], m. simpl. repeat split; auto.
      * destruct (IH Hs) as (lo & hi & Hm & Hlo & Hhi & Hset & Her).
        exists ((k', v') :: lo), hi. simpl. repeat split.
        -- by rewrite <- Hm.
        -- constructor; [simpl; lia|done].
        -- done.
        -- intros v. by rewrite Hset.
        -- by rewrite Her.
Qed.

Lemma om_sorted_set k v m : om_sorted m -> om_sorted (om_set k v m).
Proof.
  intros Hs. destruct (om_split k m Hs) as (lo & hi & Hm & Hlo & Hhi & -> & _).
  rewrite Hm in Hs. apply om_sorted_app in Hs as (Hs1 & Hs2 & Hs3).
  apply om_sorted_app in Hs2 as (_ & Hs2 & _).
  apply om_sorted_app; simpl. repeat split; try done.
  eapply Forall_impl; [apply Forall_and; split; [exact Hlo|exact Hs3]|].
  simpl. intros [a ?] [? HF]. rewrite Forall_app in HF. constructor; [simpl in *; lia|tauto].
Qed.

Lemma om_sorted_erase k m : om_sorted m -> om_sorted (om_erase k m).
Proof.
  intros Hs. destruct (om_split k m Hs) as (lo & hi & Hm & _ & _ & _ & ->).
  rewrite Hm in Hs. rewrite !om_sorted_app in *.
  destruct Hs as (? & (_ & ? & _) & HF). repeat split; try done.
  eapply Forall_impl; [exact HF|]. simpl. intros ? [_ ?]%Forall_app. done.
Qed.

Lemma om_find_elem k v m : om_sorted m -> (om_find k m = Some v <-> (k, v) ∈ m).
Proof.
  intros Hs. destruct (om_split k m Hs) as (lo & hi & Hm & Hlo & Hhi & _).
  rewrite Forall_forall in Hlo, Hhi. split.
  - intros Hf. rewrite Hm, Hf. simpl. set_solver.
  - intros Hin. rewrite Hm in Hin. rewrite !elem_of_app in Hin.
    destruct Hin as [Hin|[Hin|Hin]].
    + apply Hlo in Hin. simpl in Hin. lia.
    + destruct (om_find k m); simpl in Hin; set_solver.
    + apply Hhi in Hin. simpl in Hin. lia.
Qed.

(** Changing the binding at an end of the map changes only that end. *)
Lemma om_set_begin k v v' m : om_set k v ((k, v') :: m) = (k, v) :: m.
Proof. simpl. by rewrite Z.ltb_irrefl, Z.eqb_refl. Qed.

Lemma om_erase_begin k v m : om_erase k ((k, v) :: m) = m.
Proof. simpl. by rewrite Z.eqb_refl. Qed.

Lemma om_snoc_find k v m : om_sorted (m ++ [(k, v)]) -> om_find k (m ++ [(k, v)]) = Some v.
Proof. intros Hs. apply om_find_elem; [done|]. set_solver. Qed.

Lemma app_cons_unique {A} (P : A -> Prop) (l1 l2 r1 r2 : list A) x y :
  Forall (fun z => ~ P z) l1 -> Forall (fun z => ~ P z) l2 -> P x -> P y ->
  l1 ++ x :: r1 = l2 ++ y :: r2 -> l1 = l2 /\ x = y /\ r1 = r2.
Proof.
  intros Hl1. revert l2. induction Hl1 as [|a l1 Ha _ IH]; intros l2 Hl2 Hx Hy Heq.
  - destruct Hl2; simplify_eq/=; naive_solver.
  - destruct Hl2 as [|b l2 Hb Hl2]; simplify_eq/=; [naive_solver|].
    destruct (IH l2) as (-> & -> & ->); naive_solver.
Qed.

Lemma om_split_at k v lo hi :
  om_sorted (lo ++ (k, v) :: hi) ->
  om_find k (lo ++ (k, v) :: hi) = Some v /\
  (forall v', om_set k v' (lo ++ (k, v) :: hi) = lo ++ (k, v') :: hi) /\
  om_erase k (lo ++ (k, v) :: hi) = lo ++ hi.
Proof.
  intros Hs.
  assert (om_find k (lo ++ (k, v) :: hi) = Some v) as Hf by (apply om_find_elem; [done|set_solver]).
  destruct (om_split k _ Hs) as (lo' & hi' & Hm & Hlo' & Hhi' & Hset & Her).
  rewrite Hf in Hm. simpl in Hm.
  apply om_sorted_app in Hs as (_ & _ & Hlo).
  destruct (app_cons_unique (fun b => b.1 = k) lo lo' hi hi' (k, v) (k, v)) as (-> & _ & ->);
    try done.
  - eapply Forall_impl; [exact Hlo|]. simpl. intros ? HF. apply Forall_cons_1 in HF as [? _].
    simpl in *; lia.
  - eapply Forall_impl; [exact Hlo'|]. simpl. lia.
Qed.
End OrderedMap.

#[export] Hint Resolve om_sorted_set om_sorted_erase : edux.
