(* ===== verification/LimitOrderBook.v ===== *)
(** * The limit order book: definitions

    [services/matching_engine/src/order.{h,cpp}] and
    [limit_order_book.{h,cpp}].  A book keeps two [std::map]s from price to a
    FIFO [std::list<Order>] and an [unordered_map] from order id to a list
    iterator.  A list node has an address ([n_addr]); an iterator is that
    address, and dereferencing one whose node was erased is the outcome
    [DanglingIterator].  The clock and the UUID generator are the oracle [Env]:
    the [n]-th call of [create_trade] reads their [n]-th values.  The trade
    publisher is the interface [Publisher]. *)

From S2P Require Import Prelude Core OrderedMap.
From Stdlib Require Import ZArith Lia Ascii String.
From stdpp Require Import base option list gmap strings fin_maps.

Open Scope Z_scope.

(** ** publisher.h *)
Class Publisher (T P : Type) := try_publish : P -> T -> P * bool.

(** Clock and UUID sources (the standard library's [system_clock] and Boost's
    generator); a Boost [uuid] is 16 bytes. *)
Record Env := mkEnv {
  env_now_ms : nat -> Z;
  env_uuid : nat -> list Z
}.

Definition env_ok (env : Env) : Prop :=
  forall n, length (env_uuid env n) = 16%nat /\ Forall (fun b => 0 <= b < 256) (env_uuid env n).

(** ** order.h, order.cpp *)
Record Order := mkOrder {
  o_order_id : Z;
  o_price : Z;
  o_quantity : Z;
  o_side : Side;
  o_trader_id : string
}.

Definition with_quantity (o : Order) (q : Z) : Order :=
  mkOrder (o_order_id o) (o_price o) q (o_side o) (o_trader_id o).

Definition fill (o : Order) (fill_quantity : Z) : res Order :=
  _ ← contract (fill_quantity <=? o_quantity o);
  q ← sub32 (o_quantity o) fill_quantity;
  Ok (with_quantity o q).

(** A node of [std::list<Order>]. *)
Record Node := mkNode { n_addr : nat; n_order : Order }.

Abbreviation SideContainer := (list (Z * list Node)).

Definition MARKET_BID_ORDER_PRICE : Z := INT_MAX.
Definition MARKET_ASK_ORDER_PRICE : Z := INT_MIN.

Record LimitOrderBook (P : Type) := mkLimitOrderBook {
  lob_trade_publisher : P;
  lob_ticker : string;
  lob_bids : SideContainer;
  lob_asks : SideContainer;
  lob_order_id_map : gmap Z nat;
  lob_next_addr : nat
}.
Arguments mkLimitOrderBook {P} _ _ _ _ _ _.
Arguments lob_trade_publisher {P} _.
Arguments lob_ticker {P} _.
Arguments lob_bids {P} _.
Arguments lob_asks {P} _.
Arguments lob_order_id_map {P} _.
Arguments lob_next_addr {P} _.

(** The parts of the state that a match updates besides the two sides: the
    publisher, the engine's shared [trade_events] queue, the id map and the
    number of [create_trade] calls made. *)
Record MatchState (P : Type) := mkMatchState {
  ms_publisher : P;
  ms_trade_events : list Trade;
  ms_order_id_map : gmap Z nat;
  ms_calls : nat
}.
Arguments mkMatchState {P} _ _ _ _.
Arguments ms_publisher {P} _.
Arguments ms_trade_events {P} _.
Arguments ms_order_id_map {P} _.
Arguments ms_calls {P} _.

Definition create_trade (env : Env) (n : nat) (taker_order_id maker_order_id : Z)
    (taker_id maker_id ticker : string) (price quantity : Z) (taker_side : Side)
    : res Trade :=
  _ ← contract (0 <=? taker_order_id);
  _ ← contract (0 <=? maker_order_id);
  _ ← contract (negb (taker_order_id =? maker_order_id));
  _ ← contract (negb (String.eqb taker_id ""));
  _ ← contract (negb (String.eqb maker_id ""));
  _ ← contract (negb (String.eqb ticker ""));
  _ ← contract (0 <? price);
  _ ← contract (0 <? quantity);
  Trade_ctor ticker price quantity (format_uuid_canonical (env_uuid env n))
    taker_id maker_id taker_order_id maker_order_id
    (side_is_bid taker_side) (env_now_ms env n).

Definition new_book {P} (ticker : string) (publisher : P) : LimitOrderBook P :=
  mkLimitOrderBook publisher ticker [] [] ∅ 0.

Definition get_side {P} (lob : LimitOrderBook P) (side : Side) : SideContainer :=
  match side with bid => lob_bids lob | ask => lob_asks lob end.

Definition all_nodes {P} (lob : LimitOrderBook P) : list Node :=
  concat (map snd (lob_bids lob)) ++ concat (map snd (lob_asks lob)).

(** [*it]: the node at an address, if it is still in a list of the book. *)
Definition deref {P} (lob : LimitOrderBook P) (addr : nat) : res Node :=
  get_or DanglingIterator (List.find (fun n => Nat.eqb (n_addr n) addr) (all_nodes lob)).

(** [std::list::erase(it)]. *)
Fixpoint list_erase (addr : nat) (l : list Node) : res (list Node) :=
  match l with
  | [] => Err DanglingIterator
  | n :: l' => if Nat.eqb (n_addr n) addr then Ok l' else l'' ← list_erase addr l'; Ok (n :: l'')
  end.

Definition is_nil {A} (l : list A) : bool := match l with [] => true | _ => false end.

Section Book.
Context {P : Type} {pub : Publisher Trade P} (env : Env).
Implicit Types (ms : MatchState P) (lob : LimitOrderBook P).

(** [trade_publisher->try_publish(t); trade_events.emplace(t)]. *)
Definition record_trade ms (t : Trade) : MatchState P :=
  mkMatchState (try_publish (ms_publisher ms) t).1 (ms_trade_events ms ++ [t])
    (ms_order_id_map ms) (S (ms_calls ms)).

Definition erase_id ms (id : Z) : MatchState P :=
  mkMatchState (ms_publisher ms) (ms_trade_events ms) (delete id (ms_order_id_map ms))
    (ms_calls ms).

(** The inner [while] of [match_order]: the orders of the best level, from the
    front.  Each iteration pops the front order or exhausts the quantity. *)
Fixpoint match_level (ticker : string) (order_id : Z) (side : Side) (broker_id : string)
    (orders : list Node) (remaining_quantity : Z) ms
    : res (list Node * Z * MatchState P) :=
  match orders with
  | [] => Ok ([], remaining_quantity, ms)
  | front :: rest =>
      if 0 <? remaining_quantity then
        let front_order := n_order front in
        let order_quantity := o_quantity front_order in
        if order_quantity <=? remaining_quantity then
          remaining' ← sub32 remaining_quantity order_quantity;
          new_trade ← create_trade env (ms_calls ms) order_id (o_order_id front_order)
            broker_id (o_trader_id front_order) ticker (o_price front_order)
            order_quantity side;
          match_level ticker order_id side broker_id rest remaining'
            (erase_id (record_trade ms new_trade) (o_order_id front_order))
        else
          front_order' ← fill front_order remaining_quantity;
          new_trade ← create_trade env (ms_calls ms) order_id (o_order_id front_order')
            broker_id (o_trader_id front_order') ticker (o_price front_order')
            remaining_quantity side;
          Ok (mkNode (n_addr front) front_order' :: rest, 0, record_trade ms new_trade)
      else Ok (orders, remaining_quantity, ms)
  end.

(** [(side == bid) ? far_side.begin() : std::prev(far_side.end())]. *)
Definition best_level (side : Side) (far_side : SideContainer) : option (Z * list Node) :=
  match side with bid => om_begin far_side | ask => om_rbegin far_side end.

(** The negation of the [break] condition. *)
Definition crosses (side : Side) (price best_level_price : Z) : bool :=
  match side with bid => best_level_price <=? price | ask => price <=? best_level_price end.

(** The outer [while] of [match_order]; an iteration removes a level or
    exhausts the quantity, so the number of levels is enough fuel. *)
Fixpoint match_levels (fuel : nat) (ticker : string) (order_id : Z) (side : Side)
    (broker_id : string) (price : Z) (far_side : SideContainer) (remaining_quantity : Z) ms
    : res (SideContainer * Z * MatchState P) :=
  match best_level side far_side with
  | Some (best_level_price, best_level_orders) =>
      if (0 <? remaining_quantity) && crosses side price best_level_price then
        match fuel with
        | O => Err OutOfFuel
        | S fuel' =>
            '(orders', remaining', ms') ←
              match_level ticker order_id side broker_id best_level_orders
                remaining_quantity ms;
            let far' := if is_nil orders' then om_erase best_level_price far_side
                        else om_set best_level_price orders' far_side in
            match_levels fuel' ticker order_id side broker_id price far' remaining' ms'
        end
      else Ok (far_side, remaining_quantity, ms)
  | None => Ok (far_side, remaining_quantity, ms)
  end.

(** [near_side[price].emplace(near_side[price].end(), ...)]. *)
Definition emplace_order (near_side : SideContainer) (node : Node) : SideContainer :=
  let price := o_price (n_order node) in
  om_set price (default [] (om_find price near_side) ++ [node]) near_side.

(** [match_order]: the near and far sides after it, the shared state and the
    next free node address. *)
Definition match_order (ticker : string) (near_side far_side : SideContainer) (price : Z)
    (remaining_quantity : Z) (order_id : Z) (side : Side) (broker_id : string)
    (next_addr : nat) ms
    : res (SideContainer * SideContainer * nat * MatchState P) :=
  '(far', remaining, ms') ←
    match_levels (length far_side) ticker order_id side broker_id price far_side
      remaining_quantity ms;
  if (0 <? remaining) && negb (price =? MARKET_BID_ORDER_PRICE)
     && negb (price =? MARKET_ASK_ORDER_PRICE)
  then
    let node := mkNode next_addr (mkOrder order_id price remaining side broker_id) in
    Ok (emplace_order near_side node, far', S next_addr,
        mkMatchState (ms_publisher ms') (ms_trade_events ms')
          (<[order_id := next_addr]> (ms_order_id_map ms')) (ms_calls ms'))
  else Ok (near_side, far', next_addr, ms').

(** [add_order] returns the book, the engine's [trade_events] and the call count. *)
Definition add_order lob (trade_events : list Trade) (calls : nat)
    (order_id price quantity : Z) (side : Side) (broker_id : string)
    : res (LimitOrderBook P * list Trade * nat) :=
  _ ← contract (0 <=? order_id);
  _ ← contract (negb (bool_decide (is_Some (lob_order_id_map lob !! order_id))));
  _ ← contract ((price =? MARKET_ASK_ORDER_PRICE) || (0 <? price));
  _ ← contract (0 <? quantity);
  _ ← contract (negb (String.eqb broker_id ""));
  let ms := mkMatchState (lob_trade_publisher lob) trade_events (lob_order_id_map lob) calls in
  match side with
  | bid =>
      '(bids, asks, next_addr, ms') ←
        match_order (lob_ticker lob) (lob_bids lob) (lob_asks lob) price quantity order_id
          side broker_id (lob_next_addr lob) ms;
      Ok (mkLimitOrderBook (ms_publisher ms') (lob_ticker lob) bids asks
            (ms_order_id_map ms') next_addr, ms_trade_events ms', ms_calls ms')
  | ask =>
      '(asks, bids, next_addr, ms') ←
        match_order (lob_ticker lob) (lob_asks lob) (lob_bids lob) price quantity order_id
          side broker_id (lob_next_addr lob) ms;
      Ok (mkLimitOrderBook (ms_publisher ms') (lob_ticker lob) bids asks
            (ms_order_id_map ms') next_addr, ms_trade_events ms', ms_calls ms')
  end.

(** ** [cancel_order] *)
Definition with_side lob (side : Side) (m : SideContainer) : LimitOrderBook P :=
  match side with
  | bid => mkLimitOrderBook (lob_trade_publisher lob) (lob_ticker lob) m (lob_asks lob)
             (lob_order_id_map lob) (lob_next_addr lob)
  | ask => mkLimitOrderBook (lob_trade_publisher lob) (lob_ticker lob) (lob_bids lob) m
             (lob_order_id_map lob) (lob_next_addr lob)
  end.

Definition with_id_map lob (m : gmap Z nat) : LimitOrderBook P :=
  mkLimitOrderBook (lob_trade_publisher lob) (lob_ticker lob) (lob_bids lob) (lob_asks lob)
    m (lob_next_addr lob).

Definition cancel_order lob (order_id : Z) : res (LimitOrderBook P) :=
  order_it ← get_or ContractViolation (lob_order_id_map lob !! order_id);
  node ← deref lob order_it;
  let price := o_price (n_order node) in
  let side := o_side (n_order node) in
  let side_map := get_side lob side in
  orders_at_price ← at_ (om_find price side_map);
  orders' ← list_erase order_it orders_at_price;
  let side_map' := if is_nil orders' then om_erase price side_map
                   else om_set price orders' side_map in
  Ok (with_id_map (with_side lob side side_map') (delete order_id (lob_order_id_map lob))).

Definition order_id_exists lob (order_id : Z) : bool :=
  bool_decide (is_Some (lob_order_id_map lob !! order_id)).

Definition get_order_by_id lob (order_id : Z) : res Order :=
  order_it ← get_or ContractViolation (lob_order_id_map lob !! order_id);
  n_order <$> deref lob order_it.

(** ** Queries *)
Definition get_best_order lob (side : Side) : res (option Order) :=
  match best_level (opposite side) (get_side lob side) with
  | None => Ok None
  | Some (_, orders) =>
      front ← get_or DanglingIterator (head orders);
      Ok (Some (n_order front))
  end.

Definition get_level_aggregate lob (side : Side) (level : Z) : res LevelAggregate :=
  let side_map := get_side lob side in
  _ ← contract (negb (is_nil side_map));
  _ ← contract ((0 <=? level) && (level <? Z.of_nat (length side_map)));
  it ← get_or DanglingIterator
         (match side with
          | bid => reverse side_map !! Z.to_nat level
          | ask => side_map !! Z.to_nat level
          end);
  level_quantity ← foldM (fun q n => add32 q (o_quantity (n_order n))) 0 it.2;
  _ ← contract (0 <? it.1);
  _ ← contract (0 <? level_quantity);
  Ok (mkLevelAggregate it.1 level_quantity).

(** The loop [for (i = 0; i < 50 && i < count; i++) arr.at(i) = ...]. *)
Definition fill_aggregates lob (side : Side) (arr : list LevelAggregate)
    : res (list LevelAggregate) :=
  let count := Nat.min ORDER_BOOK_AGGREGATE_LEVELS (length (get_side lob side)) in
  foldM (fun arr i =>
           la ← get_level_aggregate lob side (Z.of_nat i);
           _ ← check OutOfRange (i <? length arr)%nat;
           Ok (<[i := la]> arr)) arr (seq 0 count).

Definition get_top_order_book_level_aggregate lob (now_ts_ms : Z)
    : res TopOrderBookLevelAggregates :=
  top ← TopOrderBookLevelAggregates_ctor (lob_ticker lob) now_ts_ms;
  bids ← fill_aggregates lob bid (top_bids top);
  asks ← fill_aggregates lob ask (top_asks top);
  Ok (mkTopAggregates (top_ticker top) bids asks (top_create_timestamp top)).

(** The loop of [get_fill_cost] over the levels [i], [i+1], ... still to visit. *)
Fixpoint fill_cost_loop lob (side : Side) (levels : list nat) (total_cost quantity : Z)
    : res Z :=
  match levels with
  | [] => Ok total_cost
  | i :: levels' =>
      if quantity =? 0 then Ok total_cost
      else
        la ← get_level_aggregate lob side (Z.of_nat i);
        if la_quantity la <=? quantity then
          cost ← mul32 (la_price la) (la_quantity la);
          total ← add32 total_cost cost;
          quantity' ← sub32 quantity (la_quantity la);
          fill_cost_loop lob side levels' total quantity'
        else
          cost ← mul32 (la_price la) quantity;
          total ← add32 total_cost cost;
          fill_cost_loop lob side levels' total 0
  end.

Definition get_fill_cost lob (quantity : Z) (side : Side) : res (option Z) :=
  _ ← contract (0 <? quantity);
  let side_map := get_side lob side in
  if is_nil side_map then Ok None
  else
    total_cost ← fill_cost_loop lob side (seq 0 (length side_map)) 0 quantity;
    _ ← contract (0 <? total_cost);
    Ok (Some total_cost).
End Book.
