(* ===== verification/BookSpec.v ===== *)
(** * The limit order book: specification and invariant

    The abstract view of a side is its orders in price-time priority (best
    price first, first come first within a price).  [match_orders] says what
    matching means on that view, without levels, iterators, ids or trades;
    [insert_order] says where a new order goes.  [book_wf] is the invariant of
    the concrete book.  The lemmas relate the levels of a side to its view. *)

From S2P Require Import Prelude Core OrderedMap LimitOrderBook.
From Stdlib Require Import ZArith Lia Ascii String.
From stdpp Require Import base option list gmap strings fin_maps.

Open Scope Z_scope.

(** ** Views *)

(** The levels of a side, best price first. *)
Definition prio (side : Side) (m : SideContainer) : SideContainer :=
  match side with bid => reverse m | ask => m end.

Definition queue (side : Side) (m : SideContainer) : list Node :=
  concat (map snd (prio side m)).

Definition orders_of {P} (lob : LimitOrderBook P) (side : Side) : list Order :=
  map n_order (queue side (get_side lob side)).

(** ** Specification of matching

    [match_orders side price q l] matches an incoming order on [side] with
    limit [price] and quantity [q] against the resting orders [l]: the fills
    (maker, quantity), the orders left and the quantity left. *)
Fixpoint match_orders (side : Side) (price q : Z) (l : list Order)
    : list (Order * Z) * list Order * Z :=
  match l with
  | [] => ([], [], q)
  | o :: l' =>
      if (0 <? q) && crosses side price (o_price o) then
        if o_quantity o <=? q then
          let '(fs, b, r) := match_orders side price (q - o_quantity o) l' in
          ((o, o_quantity o) :: fs, b, r)
        else ([(o, q)], with_quantity o (o_quantity o - q) :: l', 0)
      else ([], l, q)
  end.

(** [p] ranks strictly after [p'] on [side]. *)
Definition worse (side : Side) (p p' : Z) : bool :=
  match side with bid => p <? p' | ask => p' <? p end.

(** A new order goes behind every order of an equal or better price. *)
Fixpoint insert_order (o : Order) (l : list Order) : list Order :=
  match l with
  | [] => [o]
  | o' :: l' => if worse (o_side o) (o_price o') (o_price o) then o :: l
                else o' :: insert_order o l'
  end.

(** What is left rests, unless the price is one of the two market sentinels. *)
Definition rests (price left : Z) : bool :=
  (0 <? left) && negb (price =? MARKET_BID_ORDER_PRICE)
  && negb (price =? MARKET_ASK_ORDER_PRICE).

Definition rest_order (o : Order) (l : list Order) : list Order :=
  if rests (o_price o) (o_quantity o) then insert_order o l else l.

(** A trade that reports a fill of a maker's order. *)
Definition trade_reports (ticker : string) (order_id : Z) (side : Side) (broker_id : string)
    (f : Order * Z) (t : Trade) : Prop :=
  read_cstr (tr_ticker t) = Ok ticker /\
  tr_price t = o_price f.1 /\
  tr_quantity t = f.2 /\
  read_cstr (tr_taker_id t) = Ok broker_id /\
  read_cstr (tr_maker_id t) = Ok (o_trader_id f.1) /\
  tr_taker_order_id t = order_id /\
  tr_maker_order_id t = o_order_id f.1 /\
  tr_is_taker_buyer t = side_is_bid side /\
  is_ok (read_cstr (tr_trade_id t)) = true.

(** ** Invariant *)
Definition order_wf (side : Side) (price : Z) (o : Order) : Prop :=
  o_price o = price /\ o_side o = side /\ 0 <= o_order_id o /\
  0 < o_quantity o <= INT_MAX /\ fits MAX_USERNAME_LENGTH (o_trader_id o) = true.

Definition level_wf (side : Side) (b : Z * list Node) : Prop :=
  0 < b.1 < INT_MAX /\ b.2 <> [] /\ Forall (fun n => order_wf side b.1 (n_order n)) b.2.

Definition side_wf (side : Side) (m : SideContainer) : Prop :=
  om_sorted m /\ Forall (level_wf side) m.

Definition node_id (n : Node) : Z := o_order_id (n_order n).

(** The id map points exactly at the nodes in the book: it depends only on the
    ids and addresses of the nodes, in any order. *)
Definition node_key (n : Node) : Z * nat := (node_id n, n_addr n).

Record nodes_wf (m : gmap Z nat) (next : nat) (ks : list (Z * nat)) : Prop := {
  nw_id : NoDup ks.*1;
  nw_addr : NoDup ks.*2;
  nw_fresh : Forall (fun k => (k.2 < next)%nat) ks;
  nw_map : m = list_to_map ks
}.

(** Every bid is below every ask. *)
Definition uncrossed (bids asks : SideContainer) : Prop :=
  forall b a, b ∈ bids -> a ∈ asks -> b.1 < a.1.

Record book_wf {P} (lob : LimitOrderBook P) : Prop := {
  bw_ticker : fits MAX_TICKER_LENGTH (lob_ticker lob) = true;
  bw_bids : side_wf bid (lob_bids lob);
  bw_asks : side_wf ask (lob_asks lob);
  bw_nodes : nodes_wf (lob_order_id_map lob) (lob_next_addr lob)
               (map node_key (all_nodes lob));
  bw_uncrossed : uncrossed (lob_bids lob) (lob_asks lob)
}.

(** ** The id map *)
Lemma nodes_wf_perm m next ks ks' : ks ≡ₚ ks' -> nodes_wf m next ks -> nodes_wf m next ks'.
Proof.
  intros Hp [Hid Ha Hf ->]. split.
  - by rewrite <- Hp.
  - by rewrite <- Hp.
  - by rewrite <- Hp.
  - by apply list_to_map_proper.
Qed.

Lemma nodes_wf_delete m next k ks :
  nodes_wf m next (k :: ks) -> nodes_wf (delete k.1 m) next ks.
Proof.
  destruct k as [id a].
  intros [[Hid1 Hid]%NoDup_cons [_ Ha]%NoDup_cons [_ Hf]%Forall_cons ->]. split; try done.
  simpl. rewrite delete_insert_id; [done|]. by apply not_elem_of_list_to_map_1.
Qed.

Lemma nodes_wf_insert m next id ks :
  id ∉ ks.*1 -> nodes_wf m next ks -> nodes_wf (<[id := next]> m) (S next) ((id, next) :: ks).
Proof.
  intros Hn [Hid Ha Hf ->]. split; simpl; try (apply NoDup_cons); try done.
  - split; [|done]. intros (k & Hk & Hin)%list_elem_of_fmap.
    rewrite Forall_forall in Hf. specialize (Hf _ Hin). lia.
  - constructor; [simpl; lia|]. eapply Forall_impl; [done|]. simpl. lia.
Qed.

Lemma nodes_wf_deletes m next ks ks' :
  nodes_wf m next (ks ++ ks') -> nodes_wf (foldl (fun m k => delete k.1 m) m ks) next ks'.
Proof.
  revert m. induction ks as [|k ks IH]; simpl; intros m; [done|].
  intros Hwf. by apply IH, nodes_wf_delete.
Qed.

Lemma nodes_wf_lookup m next ks id a :
  nodes_wf m next ks -> m !! id = Some a <-> (id, a) ∈ ks.
Proof. intros [Hid _ _ ->]. symmetry. by apply elem_of_list_to_map. Qed.

Lemma nodes_wf_absent m next ks id : nodes_wf m next ks -> m !! id = None -> id ∉ ks.*1.
Proof. intros [_ _ _ ->] Hn. by apply not_elem_of_list_to_map_2. Qed.

(** ** Levels and views *)
Lemma prio_perm side m : prio side m ≡ₚ m.
Proof. destruct side; simpl; [by rewrite reverse_Permutation|done]. Qed.

Lemma concat_map_perm (m1 m2 : SideContainer) :
  m1 ≡ₚ m2 -> concat (map snd m1) ≡ₚ concat (map snd m2).
Proof.
  induction 1; simpl; [done|by f_equiv| |by etrans].
  rewrite !app_assoc. f_equiv. apply Permutation_app_comm.
Qed.

Lemma queue_perm side m : queue side m ≡ₚ concat (map snd m).
Proof. apply concat_map_perm, prio_perm. Qed.

Lemma elem_of_queue side m n : n ∈ queue side m <-> exists b, b ∈ m /\ n ∈ b.2.
Proof.
  unfold queue. rewrite list_elem_of_In, in_concat. setoid_rewrite in_map_iff.
  split.
  - intros (l & (b & <- & Hb) & Hn). exists b.
    by rewrite <- (prio_perm side m), !list_elem_of_In.
  - intros (b & Hb & Hn). exists b.2. rewrite <- (prio_perm side m), list_elem_of_In in Hb.
    rewrite <- list_elem_of_In. eauto.
Qed.

(** The best level of a side, seen by an order from the other side. *)
Lemma best_level_prio side m :
  best_level side m = head (prio (opposite side) m).
Proof.
  destruct side; simpl; [done|]. unfold om_rbegin.
  induction m as [|b m _] using rev_ind; [done|].
  by rewrite last_snoc, reverse_snoc.
Qed.

Lemma prio_update side m p ns tl :
  om_sorted m -> prio side m = (p, ns) :: tl ->
  (forall ns', prio side (om_set p ns' m) = (p, ns') :: tl) /\
  prio side (om_erase p m) = tl.
Proof.
  destruct side; simpl; intros Hs Hp.
  - assert (m = reverse tl ++ [(p, ns)]) as ->.
    { apply (f_equal reverse) in Hp. by rewrite reverse_involutive, reverse_cons in Hp. }
    destruct (om_split_at p ns (reverse tl) [] Hs) as (_ & Hset & ->).
    split; [intros ns'; rewrite Hset|rewrite app_nil_r].
    + by rewrite reverse_snoc, reverse_involutive.
    + apply reverse_involutive.
  - subst. split; [intros; apply om_set_begin|apply om_erase_begin].
Qed.

Lemma side_wf_level side m b : side_wf side m -> b ∈ m -> level_wf side b.
Proof. intros [_ HF] Hb. rewrite Forall_forall in HF. auto. Qed.

Lemma side_wf_node side m n :
  side_wf side m -> n ∈ queue side m -> order_wf side (o_price (n_order n)) (n_order n).
Proof.
  intros Hwf (b & Hb & Hn)%elem_of_queue.
  destruct (side_wf_level _ _ _ Hwf Hb) as (_ & _ & HF).
  rewrite Forall_forall in HF. destruct (HF n Hn) as [_ ?]. by split.
Qed.

Lemma side_wf_erase side m p : side_wf side m -> side_wf side (om_erase p m).
Proof.
  intros [Hs HF]. split; [by apply om_sorted_erase|].
  destruct (om_split p m Hs) as (lo & hi & Hm & _ & _ & _ & ->).
  rewrite Hm in HF. rewrite !Forall_app in *. tauto.
Qed.

Lemma side_wf_set side m p ns :
  side_wf side m -> level_wf side (p, ns) -> side_wf side (om_set p ns m).
Proof.
  intros [Hs HF] Hl. split; [by apply om_sorted_set|].
  destruct (om_split p m Hs) as (lo & hi & Hm & _ & _ & -> & _).
  rewrite Hm in HF. rewrite Forall_app, Forall_cons. rewrite !Forall_app in HF. tauto.
Qed.

Lemma om_keys_set {V} (p : Z) (v : V) m b :
  om_sorted m -> b ∈ om_set p v m -> b.1 = p \/ b ∈ m.
Proof.
  intros Hs. destruct (om_split p m Hs) as (lo & hi & Hm & _ & _ & -> & _).
  rewrite Hm at 1. rewrite !elem_of_app, elem_of_cons. intros [?|[->|?]]; simpl; tauto.
Qed.

Lemma om_keys_erase {V} (p : Z) (m : list (Z * V)) b :
  om_sorted m -> b ∈ om_erase p m -> b ∈ m.
Proof.
  intros Hs. destruct (om_split p m Hs) as (lo & hi & Hm & _ & _ & _ & ->).
  rewrite Hm at 1. rewrite !elem_of_app. tauto.
Qed.

(** Resting an order at the end of its level puts it where the view says. *)
Lemma insert_order_app o l1 l2 :
  Forall (fun o' => worse (o_side o) (o_price o') (o_price o) = false) l1 ->
  Forall (fun o' => worse (o_side o) (o_price o') (o_price o) = true) l2 ->
  insert_order o (l1 ++ l2) = l1 ++ o :: l2.
Proof.
  intros Hl1 Hl2. induction Hl1 as [|x l1 Hx _ IH]; simpl.
  - destruct Hl2 as [|y l2 Hy _]; simpl; [done|]. by rewrite Hy.
  - by rewrite Hx, IH.
Qed.

Lemma concat_levels_forall (Q : Order -> Prop) (m : SideContainer) :
  Forall (fun b => Forall (fun n => Q (n_order n)) b.2) m ->
  Forall Q (map n_order (concat (map snd m))).
Proof.
  induction 1; simpl; [done|]. rewrite map_app, Forall_app. split; [|done].
  by apply Forall_map.
Qed.

Lemma level_prices_forall side (R : Z -> Prop) (m : SideContainer) :
  Forall (level_wf side) m -> Forall (fun b => R b.1) m ->
  Forall (fun o => R (o_price o)) (map n_order (concat (map snd m))).
Proof.
  intros Hwf HR. apply concat_levels_forall.
  eapply Forall_impl; [apply Forall_and; split; [exact Hwf|exact HR]|].
  simpl. intros b [(_ & _ & HF) HRb].
  eapply Forall_impl; [exact HF|]. simpl. by intros n (-> & _).
Qed.

(** A side around a price, in priority order. *)
Lemma prio_split side p (m : SideContainer) :
  om_sorted m ->
  exists bs ws,
    prio side m = bs ++ opt_binding p (om_find p m) ++ ws /\
    Forall (fun b => worse side b.1 p = false) bs /\
    Forall (fun b => worse side b.1 p = true) ws /\
    (forall v, prio side (om_set p v m) = bs ++ (p, v) :: ws) /\
    prio side (om_erase p m) = bs ++ ws.
Proof.
  intros Hs. destruct (om_split p m Hs) as (lo & hi & Hm & Hlo & Hhi & Hset & Her).
  assert (Forall (fun b => (p <? b.1) = false) lo /\ Forall (fun b => (b.1 <? p) = true) lo)
    as [? ?] by (split; eapply Forall_impl; try done; simpl; intros; lia).
  assert (Forall (fun b => (p <? b.1) = true) hi /\ Forall (fun b => (b.1 <? p) = false) hi)
    as [? ?] by (split; eapply Forall_impl; try done; simpl; intros; lia).
  destruct side; simpl; [exists (reverse hi), (reverse lo)|exists lo, hi].
  - repeat split; rewrite ?Forall_reverse; try done.
    + rewrite Hm at 1. rewrite !reverse_app, <- app_assoc. by destruct (om_find p m).
    + intros v. by rewrite Hset, reverse_app, reverse_cons, <- app_assoc.
    + by rewrite Her, reverse_app.
  - repeat split; auto.
Qed.

Lemma emplace_order_queue side m n :
  side_wf side m -> o_side (n_order n) = side ->
  map n_order (queue side (emplace_order m n)) =
    insert_order (n_order n) (map n_order (queue side m)) /\
  queue side (emplace_order m n) ≡ₚ n :: queue side m.
Proof.
  intros [Hs Hwf] Hside. unfold emplace_order, queue.
  set (p := o_price (n_order n)) in *.
  destruct (prio_split side p m Hs) as (bs & ws & Hm & Hbs & Hws & Hset & _).
  rewrite Hset, Hm. rewrite <- (prio_perm side m), Hm, !Forall_app in Hwf.
  destruct Hwf as (Wbs & Wold & Wws).
  set (old := default [] (om_find p m)) in *.
  assert (concat (map snd (opt_binding p (om_find p m))) = old) as Hold.
  { subst old. destruct (om_find p m); simpl; [apply app_nil_r|done]. }
  pose proof (level_prices_forall side (fun q => worse side q p = false) bs Wbs Hbs) as Pbs.
  pose proof (level_prices_forall side (fun q => worse side q p = true) ws Wws Hws) as Pws.
  assert (Forall (fun o => worse side (o_price o) p = false) (map n_order old)) as Pold.
  { rewrite <- Hold. apply (level_prices_forall side (fun q => worse side q p = false)); [done|].
    destruct (om_find p m); simpl; constructor; [|done]. destruct side; simpl; lia. }
  rewrite !map_app, !concat_app, Hold, !map_app. simpl. rewrite !map_app. simpl. split.
  - rewrite <- !app_assoc. simpl. rewrite !(app_assoc _ (map n_order old)).
    symmetry. apply insert_order_app; rewrite Hside; [|done]. by apply Forall_app.
  - rewrite <- !app_assoc. simpl. rewrite !(app_assoc _ old). symmetry. apply Permutation_middle.
Qed.

Lemma emplace_order_wf side m n :
  side_wf side m -> 0 < o_price (n_order n) < INT_MAX ->
  order_wf side (o_price (n_order n)) (n_order n) ->
  side_wf side (emplace_order m n).
Proof.
  intros Hwf Hp Ho. apply side_wf_set; [done|]. split; [done|]. simpl. split.
  - by destruct (default [] _).
  - apply Forall_app. split; [|by apply Forall_singleton].
    destruct (om_find _ m) as [ns|] eqn:Hf; simpl; [|done].
    apply om_find_elem in Hf; [|apply Hwf].
    by destruct (side_wf_level _ _ _ Hwf Hf) as (_ & _ & ?).
Qed.

(** The first level in priority order is the best. *)
Lemma prio_head_best side m p ns tl b :
  om_sorted m -> prio side m = (p, ns) :: tl -> b ∈ m -> b.1 = p \/ worse side b.1 p = true.
Proof.
  destruct side; simpl; intros Hs Hp Hb.
  - assert (m = reverse tl ++ [(p, ns)]) as ->.
    { apply (f_equal reverse) in Hp. by rewrite reverse_involutive, reverse_cons in Hp. }
    apply om_sorted_app in Hs as (_ & _ & HF). rewrite Forall_forall in HF.
    apply elem_of_app in Hb as [Hb| ->%list_elem_of_singleton]; [|by left].
    right. specialize (HF _ Hb). apply Forall_cons in HF as [HF _]. simpl in HF. lia.
  - subst. simpl in Hs. destruct Hs as [HF _]. rewrite Forall_forall in HF.
    apply elem_of_cons in Hb as [-> |Hb]; [by left|]. right. specialize (HF _ Hb). lia.
Qed.

Lemma crosses_worse side price p q :
  q = p \/ worse (opposite side) q p = true ->
  crosses side price p = false -> crosses side price q = false.
Proof. destruct side; simpl; lia. Qed.
