(* ===== verification/Matching.v ===== *)
(** * Matching: the book implements its specification

    [add_order] on a well-formed book: it returns (no contract or assertion
    fails, no arithmetic overflows, the loops end), it trades and rests exactly
    as [match_orders] and [rest_order] say, it records one trade per fill in
    order, and it keeps the book well formed. *)

From S2P Require Import Prelude Core OrderedMap LimitOrderBook BookSpec.
From Stdlib Require Import ZArith Lia Ascii String.
From stdpp Require Import base option list gmap strings fin_maps.

Open Scope Z_scope.

(** ** Matching on nodes *)
Definition node_with_quantity (n : Node) (q : Z) : Node :=
  mkNode (n_addr n) (with_quantity (n_order n) q).

Fixpoint match_nodes (side : Side) (price q : Z) (l : list Node)
    : list (Node * Z) * list Node * Z :=
  match l with
  | [] => ([], [], q)
  | n :: l' =>
      let o := n_order n in
      if (0 <? q) && crosses side price (o_price o) then
        if o_quantity o <=? q then
          let '(fs, b, r) := match_nodes side price (q - o_quantity o) l' in
          ((n, o_quantity o) :: fs, b, r)
        else ([(n, q)], node_with_quantity n (o_quantity o - q) :: l', 0)
      else ([], l, q)
  end.

Definition order_fill (f : Node * Z) : Order * Z := (n_order f.1, f.2).

(** The makers that a list of fills exhausts. *)
Definition is_filled (f : Node * Z) : bool := f.2 =? o_quantity (n_order f.1).
Definition filled_keys (fs : list (Node * Z)) : list (Z * nat) :=
  map (fun f => node_key f.1) (List.filter is_filled fs).

Lemma match_nodes_orders side price q l fs l' r :
  match_nodes side price q l = (fs, l', r) ->
  match_orders side price q (map n_order l) = (map order_fill fs, map n_order l', r).
Proof.
  revert q fs l' r. induction l as [|n l IH]; intros q fs l' r; simpl.
  - by intros [= <- <- <-].
  - destruct (_ && _); [|by intros [= <- <- <-]].
    destruct (_ <=? _); [|by intros [= <- <- <-]].
    destruct (match_nodes _ _ _ l) as [[fs1 l1] r1] eqn:E.
    rewrite (IH _ _ _ _ E). by intros [= <- <- <-].
Qed.

Lemma match_nodes_app side price q l1 l2 fs l1' r :
  match_nodes side price q l1 = (fs, l1', r) ->
  match_nodes side price q (l1 ++ l2) =
    if is_nil l1' then
      let '(fs2, l2', r2) := match_nodes side price r l2 in (fs ++ fs2, l2', r2)
    else (fs, l1' ++ l2, r).
Proof.
  revert q fs l1' r. induction l1 as [|n l1 IH]; intros q fs l1' r; simpl.
  - intros [= <- <- <-]. simpl. by destruct (match_nodes _ _ _ l2) as [[]].
  - destruct (_ && _); [|by intros [= <- <- <-]].
    destruct (_ <=? _); [|by intros [= <- <- <-]].
    destruct (match_nodes _ _ _ l1) as [[fs1 l3] r1] eqn:E.
    intros [= <- <- <-]. rewrite (IH _ _ _ _ E).
    destruct (is_nil l3); [|done]. by destruct (match_nodes _ _ _ l2) as [[]].
Qed.

(** The exhausted makers are a prefix of the queue; the rest keeps its keys. *)
Lemma match_nodes_keys side price q l fs l' r :
  match_nodes side price q l = (fs, l', r) ->
  map node_key l = filled_keys fs ++ map node_key l'.
Proof.
  unfold filled_keys. revert q fs l' r. induction l as [|n l IH]; intros q fs l' r; simpl.
  - by intros [= <- <- <-].
  - destruct (_ && _); [|by intros [= <- <- <-]].
    destruct (_ <=? _) eqn:Hle.
    + destruct (match_nodes _ _ _ l) as [[fs1 l1] r1] eqn:E.
      intros [= <- <- <-]. simpl. unfold is_filled at 1. simpl. rewrite Z.eqb_refl. simpl.
      by rewrite (IH _ _ _ _ E).
    + intros [= <- <- <-]. simpl. unfold is_filled. simpl.
      rewrite (proj2 (Z.eqb_neq _ _)) by lia. done.
Qed.

Lemma match_nodes_left side price q l fs l' r :
  0 <= q -> Forall (fun n => 0 < o_quantity (n_order n)) l ->
  match_nodes side price q l = (fs, l', r) ->
  0 <= r <= q /\ q = sumZ snd fs + r /\ Forall (fun f => 0 < f.2 <= o_quantity (n_order f.1)) fs /\
  (0 < r -> forall n, head l' = Some n -> crosses side price (o_price (n_order n)) = false).
Proof.
  intros Hq Hl. revert q fs l' r Hq. induction Hl as [|n l Hn Hl IH]; intros q fs l' r Hq; simpl.
  - intros [= <- <- <-]. simpl. split; [lia|]. split; [lia|]. split; [done|]. by intros _ n.
  - destruct (0 <? q) eqn:Hq0; simpl.
    2: { intros [= <- <- <-]. simpl. split; [lia|]. split; [lia|]. split; [done|]. lia. }
    destruct (crosses _ _ _) eqn:Hc; simpl.
    2: { intros [= <- <- <-]. simpl. split; [lia|]. split; [lia|]. split; [done|].
         by intros _ m [= <-]. }
    destruct (_ <=? _) eqn:Hle.
    + destruct (match_nodes _ _ _ l) as [[fs1 l1] r1] eqn:E.
      intros [= <- <- <-]. destruct (IH (q - o_quantity (n_order n)) _ _ _ ltac:(lia) E)
        as (? & ? & ? & ?). simpl. split; [lia|]. split; [lia|]. split; [|done].
      constructor; [simpl; lia|done].
    + intros [= <- <- <-]. simpl. split; [lia|]. split; [lia|]. split; [|lia].
      constructor; [simpl; lia|done].
Qed.

Lemma lookup_deletes_None (m : gmap Z nat) (ks : list (Z * nat)) id :
  m !! id = None -> foldl (fun m k => delete k.1 m) m ks !! id = None.
Proof.
  revert m. induction ks as [|k ks IH]; simpl; intros m Hm; [done|].
  apply IH. apply lookup_delete_None. by right.
Qed.

Section Refinement.
Context {P : Type} {pub : Publisher Trade P} (env : Env).
Hypothesis Henv : env_ok env.
Implicit Types (ms : MatchState P) (lob : LimitOrderBook P).

(** ** Trades *)
Lemma fits_nonempty cap s : fits cap s = true -> String.eqb s "" = false.
Proof. unfold fits. destruct s; [discriminate|done]. Qed.

Lemma Trade_ctor_ok ticker price quantity trade_id taker maker toid moid buyer ts :
  fits MAX_TICKER_LENGTH ticker = true -> fits UUID_LENGTH trade_id = true ->
  fits MAX_USERNAME_LENGTH taker = true -> fits MAX_USERNAME_LENGTH maker = true ->
  exists t, Trade_ctor ticker price quantity trade_id taker maker toid moid buyer ts = Ok t /\
    read_cstr (tr_ticker t) = Ok ticker /\ tr_price t = price /\ tr_quantity t = quantity /\
    read_cstr (tr_taker_id t) = Ok taker /\ read_cstr (tr_maker_id t) = Ok maker /\
    tr_taker_order_id t = toid /\ tr_maker_order_id t = moid /\ tr_is_taker_buyer t = buyer /\
    is_ok (read_cstr (tr_trade_id t)) = true.
Proof.
  intros (a1 & H1 & R1)%copy_field_fits (a2 & H2 & R2)%copy_field_fits
    (a3 & H3 & R3)%copy_field_fits (a4 & H4 & R4)%copy_field_fits.
  unfold Trade_ctor. rewrite H1, H2, H3, H4. simpl. eexists. split; [done|]. simpl. by rewrite R2.
Qed.

Lemma create_trade_ok n toid taker ticker side (o : Order) q :
  0 <= toid -> 0 <= o_order_id o -> toid <> o_order_id o ->
  fits MAX_USERNAME_LENGTH taker = true -> fits MAX_USERNAME_LENGTH (o_trader_id o) = true ->
  fits MAX_TICKER_LENGTH ticker = true -> 0 < o_price o -> 0 < q ->
  exists t,
    create_trade env n toid (o_order_id o) taker (o_trader_id o) ticker (o_price o) q side = Ok t /\
    trade_reports ticker toid side taker (o, q) t.
Proof.
  intros ??? Ht Hm Hk ??. unfold create_trade.
  rewrite (fits_nonempty _ _ Ht), (fits_nonempty _ _ Hm), (fits_nonempty _ _ Hk).
  rewrite !(proj2 (Z.leb_le _ _)), !(proj2 (Z.ltb_lt _ _)), (proj2 (Z.eqb_neq _ _)) by lia.
  simpl. destruct (Henv n) as [Hlen _].
  destruct (Trade_ctor_ok ticker (o_price o) q _ taker (o_trader_id o) toid (o_order_id o)
    (side_is_bid side) (env_now_ms env n) Hk (format_uuid_fits _ Hlen) Ht Hm)
    as (t & -> & ?). exists t. unfold trade_reports. naive_solver.
Qed.

(** What matching does to the shared state. *)
Definition published (p : P) (ts : list Trade) : P := foldl (fun p t => (try_publish p t).1) p ts.

Definition recorded (ticker : string) (order_id : Z) (side : Side) (broker_id : string)
    ms (fs : list (Node * Z)) ms' : Prop :=
  exists ts,
    Forall2 (trade_reports ticker order_id side broker_id) (map order_fill fs) ts /\
    ms' = mkMatchState (published (ms_publisher ms) ts) (ms_trade_events ms ++ ts)
            (foldl (fun m k => delete k.1 m) (ms_order_id_map ms) (filled_keys fs))
            (ms_calls ms + length ts).

Lemma recorded_nil ticker id side broker ms : recorded ticker id side broker ms [] ms.
Proof.
  exists []. simpl. rewrite app_nil_r, Nat.add_0_r. by destruct ms.
Qed.

Lemma recorded_app ticker id side broker ms ms1 ms2 fs1 fs2 :
  recorded ticker id side broker ms fs1 ms1 -> recorded ticker id side broker ms1 fs2 ms2 ->
  recorded ticker id side broker ms (fs1 ++ fs2) ms2.
Proof.
  intros (ts1 & HF1 & ->) (ts2 & HF2 & ->). exists (ts1 ++ ts2). simpl.
  unfold published, filled_keys. rewrite map_app. split; [by apply Forall2_app|].
  rewrite List.filter_app, map_app, !foldl_app, length_app, app_assoc.
  f_equal. lia.
Qed.

(** One fill: the trade is recorded, and the maker's id is dropped if filled. *)
Lemma recorded_one ticker id side broker ms n q t :
  trade_reports ticker id side broker (n_order n, q) t ->
  recorded ticker id side broker ms [(n, q)]
    (if is_filled (n, q) then erase_id (record_trade ms t) (node_id n) else record_trade ms t).
Proof.
  intros Ht. exists [t]. split; [by constructor|].
  unfold filled_keys, record_trade, erase_id. rewrite Nat.add_1_r. simpl.
  by destruct (is_filled (n, q)).
Qed.

(** ** The inner loop *)

(** A resting order that an incoming order can trade with. *)
Definition maker_ok (order_id : Z) (n : Node) : Prop :=
  let o := n_order n in
  0 < o_price o /\ 0 <= o_order_id o /\ order_id <> o_order_id o /\
  0 < o_quantity o <= INT_MAX /\ fits MAX_USERNAME_LENGTH (o_trader_id o) = true.

Section Taker.
Context (ticker : string) (order_id : Z) (side : Side) (broker_id : string) (price : Z).
Hypothesis Hticker : fits MAX_TICKER_LENGTH ticker = true.
Hypothesis Hbroker : fits MAX_USERNAME_LENGTH broker_id = true.
Hypothesis Hid : 0 <= order_id.

Lemma match_level_ok ns rem ms :
  0 <= rem <= INT_MAX -> Forall (maker_ok order_id) ns ->
  Forall (fun n => crosses side price (o_price (n_order n)) = true) ns ->
  exists fs ns' rem' ms',
    match_level env ticker order_id side broker_id ns rem ms = Ok (ns', rem', ms') /\
    match_nodes side price rem ns = (fs, ns', rem') /\
    recorded ticker order_id side broker_id ms fs ms'.
Proof.
  intros Hrem Hns Hc. revert rem ms Hrem.
  induction Hns as [|n ns (Hp & Hoid & Hne & Hq & Hf) Hns IH]; intros rem ms Hrem; simpl.
  - eexists [], _, _, _. by repeat split; [..|apply recorded_nil].
  - apply Forall_cons in Hc as [Hcn Hc]. rewrite Hcn, andb_true_r.
    destruct (0 <? rem) eqn:H0.
    2: { eexists [], _, _, _. by repeat split; [..|apply recorded_nil]. }
    destruct (o_quantity (n_order n) <=? rem) eqn:Hle.
    + unfold sub32. rewrite i32_ok by (unfold INT_MIN, INT_MAX in *; lia). simpl.
      destruct (create_trade_ok (ms_calls ms) order_id broker_id ticker side (n_order n)
        (o_quantity (n_order n))) as (t & -> & Ht); try done; [lia|]. simpl.
      destruct (IH Hc (rem - o_quantity (n_order n)) (erase_id (record_trade ms t) (node_id n))
        ltac:(unfold INT_MAX in *; lia)) as (fs & ns' & rem' & ms' & HL & -> & Hr).
      eexists ((n, _) :: fs), ns', rem', ms'. repeat split; [exact HL|].
      eapply (recorded_app _ _ _ _ _ _ _ [_]); [|exact Hr].
      pose proof (recorded_one _ _ _ _ ms n _ t Ht) as H1.
      unfold is_filled in H1. simpl in H1. by rewrite Z.eqb_refl in H1.
    + unfold fill, sub32. rewrite (proj2 (Z.leb_le _ _)) by lia. simpl.
      rewrite i32_ok by (unfold INT_MIN, INT_MAX in *; lia). simpl.
      destruct (create_trade_ok (ms_calls ms) order_id broker_id ticker side (n_order n) rem)
        as (t & -> & Ht); try done; [lia|]. simpl.
      eexists [(n, rem)], _, _, _. repeat split.
      pose proof (recorded_one _ _ _ _ ms n _ t Ht) as H1.
      unfold is_filled in H1. simpl in H1. by rewrite (proj2 (Z.eqb_neq _ _)) in H1 by lia.
Qed.

(** ** The outer loop *)
Lemma match_nodes_wf fside p q ns fs ns' r :
  0 <= q -> Forall (fun n => order_wf fside p (n_order n)) ns ->
  match_nodes side price q ns = (fs, ns', r) ->
  Forall (fun n => order_wf fside p (n_order n)) ns'.
Proof.
  intros Hq Hns. revert q fs ns' r Hq.
  induction Hns as [|n ns Hn Hns IH]; intros q fs ns' r Hq; simpl.
  - by intros [= <- <- <-].
  - destruct (0 <? q) eqn:H0; simpl; [|intros [= <- <- <-]; by constructor].
    destruct (crosses _ _ _); simpl; [|intros [= <- <- <-]; by constructor].
    destruct (_ <=? _) eqn:Hle.
    + destruct (match_nodes _ _ _ ns) as [[fs1 l1] r1] eqn:E. intros [= <- <- <-].
      eapply IH; [|exact E]. lia.
    + intros [= <- <- <-]. constructor; [|done].
      destruct Hn as (? & ? & ? & ? & ?). unfold node_with_quantity. split; simpl; [done|].
      repeat split; try done; lia.
Qed.

Lemma match_levels_done fuel far ms rem :
  rem <= 0 ->
  match_levels env fuel ticker order_id side broker_id price far rem ms = Ok (far, rem, ms).
Proof.
  intros Hr. destruct fuel; simpl; destruct (best_level side far) as [[]|]; try done;
    by rewrite (proj2 (Z.ltb_ge _ _)) by lia.
Qed.

(** Matching stops in front of a level that does not cross. *)
Lemma match_nodes_stop l q n :
  head l = Some n -> (0 <? q) && crosses side price (o_price (n_order n)) = false ->
  match_nodes side price q l = ([], l, q).
Proof. destruct l; simpl; [done|]. by intros [= ->] ->. Qed.

Lemma queue_prio s m p ns tl :
  prio s m = (p, ns) :: tl -> queue s m = ns ++ concat (map snd tl).
Proof. unfold queue. by intros ->. Qed.

Lemma level_update s far p ns tl ns' :
  side_wf s far -> prio s far = (p, ns) :: tl ->
  Forall (fun n => order_wf s p (n_order n)) ns' ->
  let far' := if is_nil ns' then om_erase p far else om_set p ns' far in
  side_wf s far' /\ (forall b, b ∈ far' -> exists b0, b0 ∈ far /\ b0.1 = b.1) /\
  prio s far' = (if is_nil ns' then tl else (p, ns') :: tl).
Proof.
  intros Hwf Hp Hns'. pose proof Hwf as [Hs _].
  assert ((p, ns) ∈ far) as Hin by (rewrite <- (prio_perm s far), Hp; left).
  destruct (prio_update s far p ns tl Hs Hp) as [Hset Her].
  destruct (is_nil ns') eqn:En; simpl.
  - split; [by apply side_wf_erase|]. split; [|done].
    intros b Hb. exists b. split; [|done]. by eapply om_keys_erase.
  - destruct (side_wf_level _ _ _ Hwf Hin) as (? & _). split; [|split; [|apply Hset]].
    + apply side_wf_set; [done|]. split; [done|]. by destruct ns'.
    + intros b [Hb|Hb]%om_keys_set; [exists (p, ns)|exists b|]; try done.
Qed.

(** The postcondition of the outer loop. *)
Definition levels_matched (far : SideContainer) (rem : Z) ms
    (r : res (SideContainer * Z * MatchState P)) : Prop :=
  let fside := opposite side in
  exists fs far' rem' ms',
    r = Ok (far', rem', ms') /\
    match_nodes side price rem (queue fside far) = (fs, queue fside far', rem') /\
    recorded ticker order_id side broker_id ms fs ms' /\
    side_wf fside far' /\
    (forall b, b ∈ far' -> exists b0, b0 ∈ far /\ b0.1 = b.1) /\
    (0 < rem' -> forall b, b ∈ far' -> crosses side price b.1 = false).

Lemma levels_matched_stop far rem ms :
  side_wf (opposite side) far ->
  (forall p ns tl, prio (opposite side) far = (p, ns) :: tl ->
    (0 <? rem) && crosses side price p = false) ->
  levels_matched far rem ms (Ok (far, rem, ms)).
Proof.
  intros Hwf Hstop. exists [], far, rem, ms. split; [done|].
  destruct (prio (opposite side) far) as [|[p ns] tl] eqn:Hp.
  - assert (far = []) as ->
      by (apply Permutation_nil_r; by rewrite <- (prio_perm (opposite side) far), Hp).
    unfold queue. rewrite Hp. simpl. repeat split; try done; [apply recorded_nil|set_solver..].
  - specialize (Hstop _ _ _ eq_refl). pose proof Hwf as [Hs _].
    assert ((p, ns) ∈ far) as Hin by (rewrite <- (prio_perm (opposite side) far), Hp; left).
    destruct (side_wf_level _ _ _ Hwf Hin) as (_ & Hne & Hord). simpl in *.
    destruct ns as [|n ns]; [done|]. pose proof Hord as [(Hnp & _) _]%Forall_cons.
    rewrite (queue_prio _ _ _ _ _ Hp).
    split; [apply (match_nodes_stop _ _ n); [done|by rewrite Hnp]|].
    split; [apply recorded_nil|]. split; [done|]. split; [eauto|].
    intros Hr b Hb. rewrite (proj2 (Z.ltb_lt _ _)) in Hstop by done.
    eapply crosses_worse; [by eapply prio_head_best|done].
Qed.

Lemma prio_length s m : length (prio s m) = length m.
Proof. apply Permutation_length, prio_perm. Qed.

Lemma match_nodes_exhausted ns p rem fs ns' rem' :
  0 <= rem -> crosses side price p = true ->
  Forall (fun n => order_wf (opposite side) p (n_order n)) ns ->
  match_nodes side price rem ns = (fs, ns', rem') -> is_nil ns' = false -> rem' <= 0.
Proof.
  intros Hrem Hc Hord Hmn Hne. destruct ns' as [|n' ns']; [done|].
  pose proof (match_nodes_wf _ _ _ _ _ _ _ Hrem Hord Hmn) as [(Hn' & _) _]%Forall_cons.
  assert (Forall (fun n => 0 < o_quantity (n_order n)) ns) as Hqs
    by (eapply Forall_impl; [exact Hord|]; simpl; unfold order_wf; intros; lia).
  destruct (match_nodes_left _ _ _ _ _ _ _ Hrem Hqs Hmn) as (_ & _ & _ & Hstop).
  destruct (decide (0 < rem')) as [Hpos|]; [|lia].
  specialize (Hstop Hpos n' eq_refl). rewrite Hn' in Hstop. congruence.
Qed.

Lemma levels_matched_next far rem ms p ns tl fs ns' rem' ms' r :
  side_wf (opposite side) far -> prio (opposite side) far = (p, ns) :: tl ->
  match_nodes side price rem ns = (fs, ns', rem') -> 0 <= rem ->
  recorded ticker order_id side broker_id ms fs ms' ->
  crosses side price p = true ->
  let far' := if is_nil ns' then om_erase p far else om_set p ns' far in
  (if is_nil ns' then levels_matched far' rem' ms' r else r = Ok (far', rem', ms')) ->
  levels_matched far rem ms r.
Proof.
  intros Hwf Hp Hmn Hrem Hrec Hc far' Hr.
  assert ((p, ns) ∈ far) as Hin by (rewrite <- (prio_perm (opposite side) far), Hp; left).
  destruct (side_wf_level _ _ _ Hwf Hin) as (_ & _ & Hord). simpl in *.
  pose proof (match_nodes_wf _ _ _ _ _ _ _ Hrem Hord Hmn) as Hord'.
  destruct (level_update (opposite side) far p ns tl ns' Hwf Hp Hord') as (Hwf' & Hk' & Hp').
  fold far' in Hwf', Hk', Hp'. unfold levels_matched. cbv zeta.
  rewrite (queue_prio _ _ _ _ _ Hp), (match_nodes_app _ _ _ _ _ _ _ _ Hmn).
  destruct (is_nil ns') eqn:En.
  - destruct Hr as (fs2 & far2 & rem2 & ms2 & -> & Hmn2 & Hrec2 & ? & Hk2 & ?).
    unfold queue in Hmn2 at 1. rewrite Hp' in Hmn2. rewrite Hmn2.
    exists (fs ++ fs2), far2, rem2, ms2. do 2 (split; [done|]).
    split; [by eapply recorded_app|]. split; [done|]. split; [|done].
    intros b (b1 & (b0 & ? & <-)%Hk' & <-)%Hk2. eauto.
  - exists fs, far', rem', ms'. rewrite (queue_prio _ _ _ _ _ Hp').
    do 5 (split; [done|]). intros Hpos.
    pose proof (match_nodes_exhausted _ _ _ _ _ _ Hrem Hc Hord Hmn En). lia.
Qed.

Lemma match_levels_ok fuel far rem ms :
  (length far <= fuel)%nat -> side_wf (opposite side) far ->
  Forall (maker_ok order_id) (queue (opposite side) far) -> 0 <= rem <= INT_MAX ->
  levels_matched far rem ms
    (match_levels env fuel ticker order_id side broker_id price far rem ms).
Proof.
  revert far rem ms. induction fuel as [|fuel IH]; intros far rem ms Hfuel Hwf Hmk Hrem.
  - destruct far; [|simpl in Hfuel; lia]. cbn [match_levels]. rewrite best_level_prio.
    assert (prio (opposite side) [] = []) as Hp by (by destruct (opposite side)).
    rewrite Hp. simpl. apply levels_matched_stop; [done|]. congruence.
  - cbn [match_levels]. rewrite best_level_prio.
    destruct (prio (opposite side) far) as [|[p ns] tl] eqn:Hp; simpl.
    { apply levels_matched_stop; [done|]. congruence. }
    destruct ((0 <? rem) && crosses side price p) eqn:Hgo.
    2: { apply levels_matched_stop; [done|]. intros ???. rewrite Hp. by intros [= <- <- <-]. }
    apply andb_true_iff in Hgo as [H0 Hc].
    assert ((p, ns) ∈ far) as Hin by (rewrite <- (prio_perm (opposite side) far), Hp; left).
    destruct (side_wf_level _ _ _ Hwf Hin) as (_ & _ & Hord). simpl in *.
    rewrite (queue_prio _ _ _ _ _ Hp) in Hmk. apply Forall_app in Hmk as [Hmk Hmtl].
    destruct (match_level_ok ns rem ms Hrem Hmk) as (fs & ns' & rem' & ms' & -> & Hmn & Hrec).
    { eapply Forall_impl; [exact Hord|]. simpl. by intros n (-> & _). }
    simpl. pose proof (match_nodes_wf _ _ _ _ _ _ _ (proj1 Hrem) Hord Hmn) as Hord'.
    destruct (level_update _ far p ns tl ns' Hwf Hp Hord') as (Hwf' & _ & Hp').
    eapply (levels_matched_next far rem ms p ns tl fs ns' rem' ms'); try done; [lia|].
    destruct (is_nil ns') eqn:En.
    + apply IH; try done.
      * rewrite <- (prio_length (opposite side)) in Hfuel |- *. rewrite Hp in Hfuel.
        rewrite Hp'. simpl in Hfuel. lia.
      * unfold queue. by rewrite Hp'.
      * assert (Forall (fun n => 0 < o_quantity (n_order n)) ns) as Hqs
          by (eapply Forall_impl; [exact Hord|]; simpl; unfold order_wf; intros; lia).
        destruct (match_nodes_left _ _ _ _ _ _ _ (proj1 Hrem) Hqs Hmn) as (? & _). lia.
    + apply match_levels_done. eapply (match_nodes_exhausted ns p rem); try done. lia.
Qed.

(** ** [match_order] *)
Definition apart (near far : SideContainer) : Prop :=
  forall b a, b ∈ near -> a ∈ far -> crosses side b.1 a.1 = false.

(** The sides as [match_order] sees them. *)
Record sides_wf (near far : SideContainer) (m : gmap Z nat) (next : nat) : Prop := {
  sw_near : side_wf side near;
  sw_far : side_wf (opposite side) far;
  sw_nodes : nodes_wf m next (map node_key (queue side near ++ queue (opposite side) far));
  sw_apart : apart near far
}.

Lemma sides_makers near far m next :
  sides_wf near far m next -> m !! order_id = None ->
  Forall (maker_ok order_id) (queue (opposite side) far).
Proof.
  intros [_ Hfar Hn _] Hfresh. apply Forall_forall. intros n Hin.
  destruct (side_wf_node _ _ _ Hfar Hin) as (_ & _ & ? & ? & ?).
  apply elem_of_queue in Hin as Hb. destruct Hb as (b & Hb & Hnb).
  destruct (side_wf_level _ _ _ Hfar Hb) as ([? ?] & _ & HF).
  rewrite Forall_forall in HF. destruct (HF _ Hnb) as (Hp & _).
  unfold maker_ok. rewrite Hp. repeat split; try done; try lia.
  intros ->. apply (nodes_wf_absent _ _ _ _ Hn) in Hfresh. apply Hfresh.
  rewrite map_app, fmap_app, elem_of_app. right.
  apply list_elem_of_fmap. exists (node_key n). split; [done|].
  change (map ?f ?l) with (f <$> l). by apply list_elem_of_fmap_2.
Qed.

Lemma match_order_ok near far m next q ms :
  sides_wf near far m next -> m !! order_id = None ->
  ms_order_id_map ms = m ->
  price = MARKET_ASK_ORDER_PRICE \/ 0 < price <= INT_MAX -> 0 < q <= INT_MAX ->
  exists near' far' next' ms' ts fs left,
    match_order env ticker near far price q order_id side broker_id next ms
      = Ok (near', far', next', ms') /\
    match_orders side price q (map n_order (queue (opposite side) far))
      = (fs, map n_order (queue (opposite side) far'), left) /\
    map n_order (queue side near') =
      rest_order (mkOrder order_id price left side broker_id) (map n_order (queue side near)) /\
    Forall2 (trade_reports ticker order_id side broker_id) fs ts /\
    ms_trade_events ms' = ms_trade_events ms ++ ts /\
    ms_publisher ms' = published (ms_publisher ms) ts /\
    ms_calls ms' = (ms_calls ms + length ts)%nat /\
    sides_wf near' far' (ms_order_id_map ms') next'.
Proof.
  intros Hwf Hfresh Hm Hprice Hq. pose proof Hwf as [Hnear Hfar Hnodes Hap].
  unfold match_order.
  destruct (match_levels_ok (length far) far q ms (le_n _) Hfar (sides_makers _ _ _ _ Hwf Hfresh))
    as (fs & far' & left & ms1 & -> & Hmn & (ts & HF & ->) & Hfar' & Hk & Hstop); [lia|].
  simpl. rewrite Hm. fold (rests price left).
  assert (nodes_wf (foldl (fun m k => delete k.1 m) m (filled_keys fs)) next
            (map node_key (queue side near ++ queue (opposite side) far'))) as Hnodes'.
  { apply nodes_wf_deletes. eapply nodes_wf_perm; [|exact Hnodes].
    rewrite !map_app, (match_nodes_keys _ _ _ _ _ _ _ Hmn).
    rewrite !app_assoc. by rewrite (Permutation_app_comm (map node_key _) (filled_keys fs)). }
  assert (forall b a, b ∈ near -> a ∈ far' -> crosses side b.1 a.1 = false) as Hap'.
  { intros b a Hb (a0 & Ha0 & <-)%Hk. by apply Hap. }
  apply match_nodes_orders in Hmn as Hmo.
  destruct (rests price left) eqn:Hr.
  2: { eexists _, _, _, _, ts, _, left. split; [done|]. split; [exact Hmo|].
       split; [unfold rest_order; simpl; by rewrite Hr|]. do 4 (split; [done|]). by split. }
  pose proof Hr as Hr'.
  unfold rests in Hr. ok_inv. rewrite !negb_true_iff, !Z.eqb_neq in *.
  set (n := mkNode next (mkOrder order_id price left side broker_id)).
  assert (0 < price < INT_MAX) as Hp.
  { unfold MARKET_BID_ORDER_PRICE, MARKET_ASK_ORDER_PRICE, INT_MAX, INT_MIN in *. lia. }
  destruct (emplace_order_queue side near n Hnear eq_refl) as [Hq1 Hq2].
  eexists _, _, _, _, ts, _, left. split; [done|]. split; [exact Hmo|].
  split; [unfold rest_order; simpl; rewrite Hr'; exact Hq1|].
  do 4 (split; [done|]). split; simpl.
  - apply emplace_order_wf; [done..|]. split; [done|]. simpl. repeat split; try done; [lia|].
    assert (Forall (fun n => 0 < o_quantity (n_order n)) (queue (opposite side) far)) as Hqs.
    { apply Forall_forall. intros n' Hn'. destruct (side_wf_node _ _ _ Hfar Hn'). lia. }
    destruct (match_nodes_left _ _ _ _ _ _ _ (Z.lt_le_incl _ _ (proj1 Hq)) Hqs Hmn) as (? & _). lia.
  - done.
  - eapply (nodes_wf_perm _ _ ((order_id, next) :: map node_key _)).
    2: { apply nodes_wf_insert; [|exact Hnodes'].
         eapply nodes_wf_absent; [exact Hnodes'|]. by rewrite lookup_deletes_None. }
    change (order_id, next) with (node_key n). rewrite !map_app, Hq2. done.
  - intros b a Hb Ha. apply om_keys_set in Hb as [->|Hb]; [|by apply Hap'|apply Hnear].
    simpl. apply Hstop; [lia|done].
Qed.
End Taker.

(** ** [add_order] *)
Lemma all_nodes_queues lob side :
  all_nodes lob ≡ₚ queue side (get_side lob side) ++ queue (opposite side) (get_side lob (opposite side)).
Proof.
  unfold all_nodes. rewrite !queue_perm. destruct side; simpl; [done|apply Permutation_app_comm].
Qed.

Lemma apart_uncrossed (bids asks : SideContainer) :
  (uncrossed bids asks <-> apart bid bids asks) /\ (uncrossed bids asks <-> apart ask asks bids).
Proof.
  unfold uncrossed, apart. simpl.
  split; split; intros H x y Hx Hy;
    [specialize (H x y Hx Hy) | specialize (H x y Hx Hy)
    | specialize (H y x Hy Hx) | specialize (H y x Hy Hx)]; lia.
Qed.

Lemma book_sides lob side :
  book_wf lob <->
  fits MAX_TICKER_LENGTH (lob_ticker lob) = true /\
  sides_wf side (get_side lob side) (get_side lob (opposite side))
    (lob_order_id_map lob) (lob_next_addr lob).
Proof.
  pose proof (all_nodes_queues lob side) as Hp.
  apply (Permutation_map node_key) in Hp.
  destruct (apart_uncrossed (lob_bids lob) (lob_asks lob)) as [Hu1 Hu2].
  split.
  - intros [Ht Hb Ha Hn Hu]. split; [done|].
    split; destruct side; simpl in *; try done; try (by eapply nodes_wf_perm); tauto.
  - intros [Ht [Hn Hf Hns Ha]]. symmetry in Hp.
    split; destruct side; simpl in *; try done; try (by eapply nodes_wf_perm); tauto.
Qed.

(** The conditions an order must meet; all but the last are the code's contract. *)
Record order_ok lob (order_id price quantity : Z) (broker_id : string) : Prop := {
  ok_id : 0 <= order_id;
  ok_fresh : lob_order_id_map lob !! order_id = None;
  ok_price : price = MARKET_ASK_ORDER_PRICE \/ 0 < price <= INT_MAX;
  ok_quantity : 0 < quantity <= INT_MAX;
  ok_broker : fits MAX_USERNAME_LENGTH broker_id = true
}.

Lemma add_order_correct lob events calls order_id price quantity side broker_id :
  book_wf lob -> order_ok lob order_id price quantity broker_id ->
  exists lob' ts fs left,
    add_order env lob events calls order_id price quantity side broker_id
      = Ok (lob', events ++ ts, (calls + length ts)%nat) /\
    match_orders side price quantity (orders_of lob (opposite side))
      = (fs, orders_of lob' (opposite side), left) /\
    orders_of lob' side =
      rest_order (mkOrder order_id price left side broker_id) (orders_of lob side) /\
    Forall2 (trade_reports (lob_ticker lob) order_id side broker_id) fs ts /\
    lob_trade_publisher lob' = published (lob_trade_publisher lob) ts /\
    lob_ticker lob' = lob_ticker lob /\
    book_wf lob'.
Proof.
  intros Hwf [Hid Hfresh Hprice Hq Hbr].
  apply (book_sides lob side) in Hwf as [Ht Hs]. unfold add_order.
  rewrite (fits_nonempty _ _ Hbr), Hfresh.
  rewrite (proj2 (Z.leb_le _ _)), (proj2 (Z.ltb_lt 0 quantity)) by lia.
  assert ((price =? MARKET_ASK_ORDER_PRICE) || (0 <? price) = true) as -> by lia.
  rewrite bool_decide_eq_false_2 by (by intros []). simpl.
  destruct (match_order_ok (lob_ticker lob) order_id side broker_id price Ht Hbr Hid
    _ _ _ _ quantity
    (mkMatchState (lob_trade_publisher lob) events (lob_order_id_map lob) calls)
    Hs Hfresh eq_refl Hprice Hq)
    as (near' & far' & next' & ms' & ts & fs & left & Hmo & Hm & Hn & HF & He & Hp & Hc & Hwf').
  assert (forall lob', lob_ticker lob' = lob_ticker lob -> get_side lob' side = near' ->
    get_side lob' (opposite side) = far' -> lob_order_id_map lob' = ms_order_id_map ms' ->
    lob_next_addr lob' = next' -> book_wf lob') as Hbook.
  { intros lob' E1 E2 E3 E4 E5. apply (book_sides lob' side). by rewrite E1, E2, E3, E4, E5. }
  simpl in He, Hp, Hc.
  destruct side; simpl in *; rewrite Hmo; simpl; rewrite He, Hc;
    eexists _, ts, fs, left; repeat split; try done; by apply Hbook.
Qed.
End Refinement.
