(* ===== verification/BookOps.v ===== *)
(** * The limit order book: cancellation and queries

    [cancel_order] and [get_order_by_id] never follow a dangling iterator and
    remove or return exactly the order of that id; [get_best_order],
    [get_level_aggregate] and [get_fill_cost] agree with the price-time view of
    the book. *)

From S2P Require Import Prelude Core OrderedMap LimitOrderBook BookSpec Matching.
From Stdlib Require Import ZArith Lia Ascii String.
From stdpp Require Import base option list gmap strings fin_maps.

Open Scope Z_scope.

(** The view without the order of an id. *)
Definition remove_order (id : Z) (l : list Order) : list Order :=
  List.filter (fun o => negb (o_order_id o =? id)) l.

Lemma remove_order_absent id l : id ∉ map o_order_id l -> remove_order id l = l.
Proof.
  unfold remove_order. induction l as [|o l IH]; simpl; [done|].
  rewrite not_elem_of_cons. intros [Hne Hn].
  rewrite (proj2 (Z.eqb_neq _ _)) by congruence. simpl. by rewrite IH.
Qed.

Lemma remove_order_middle o l1 l2 :
  o_order_id o ∉ map o_order_id (l1 ++ l2) ->
  remove_order (o_order_id o) (l1 ++ o :: l2) = l1 ++ l2.
Proof.
  intros Hn. rewrite <- (remove_order_absent _ _ Hn). unfold remove_order.
  rewrite !List.filter_app. simpl. by rewrite Z.eqb_refl.
Qed.

Lemma find_unique {A} (f : A -> nat) (l : list A) x :
  NoDup (map f l) -> x ∈ l -> List.find (fun y => Nat.eqb (f y) (f x)) l = Some x.
Proof.
  induction l as [|y l IH]; simpl; [set_solver|].
  intros [Hn Hd]%NoDup_cons [->|Hin]%elem_of_cons.
  - by rewrite Nat.eqb_refl.
  - destruct (Nat.eqb_spec (f y) (f x)) as [Heq|]; [|by apply IH].
    exfalso. apply Hn. rewrite Heq. change (map f l) with (f <$> l). by apply list_elem_of_fmap_2.
Qed.

Lemma list_erase_middle n l1 l2 :
  n_addr n ∉ map n_addr l1 -> list_erase (n_addr n) (l1 ++ n :: l2) = Ok (l1 ++ l2).
Proof.
  induction l1 as [|x l1 IH]; simpl.
  - by rewrite Nat.eqb_refl.
  - rewrite not_elem_of_cons. intros [Hne Hn].
    rewrite (proj2 (Nat.eqb_neq _ _)) by congruence. by rewrite IH.
Qed.

(** Taking a node out of its level takes it out of the queue. *)
Lemma queue_split side m n :
  om_sorted m -> n ∈ queue side m ->
  exists p ns l1 l2 q1 q2,
    om_find p m = Some ns /\ (p, ns) ∈ m /\ ns = l1 ++ n :: l2 /\
    queue side m = q1 ++ l1 ++ n :: l2 ++ q2 /\
    queue side (if is_nil (l1 ++ l2) then om_erase p m else om_set p (l1 ++ l2) m)
      = q1 ++ l1 ++ l2 ++ q2.
Proof.
  intros Hs ([p ns] & Hb & Hn)%elem_of_queue. simpl in Hn.
  pose proof (proj2 (om_find_elem _ _ _ Hs) Hb) as Hf.
  destruct (prio_split side p m Hs) as (bs & ws & Hm & _ & _ & Hset & Her).
  rewrite Hf in Hm. simpl in Hm. apply list_elem_of_split in Hn as (l1 & l2 & ->).
  exists p, (l1 ++ n :: l2), l1, l2, (concat (map snd bs)), (concat (map snd ws)).
  split; [done|]. split; [done|]. split; [done|]. split.
  - unfold queue. rewrite Hm, map_app, concat_app. simpl. by rewrite <- app_assoc.
  - unfold queue. destruct (l1 ++ l2) as [|x l] eqn:E; simpl.
    + apply app_eq_nil in E as [-> ->]. by rewrite Her, map_app, concat_app.
    + rewrite Hset, map_app, concat_app. simpl. rewrite (app_assoc l1 l2), E. done.
Qed.

Lemma is_nil_app_false {A} (l : list A) : is_nil l = false <-> l <> [].
Proof. destruct l; simpl; split; congruence. Qed.

Lemma keys_addr ns : (map node_key ns).*2 = map n_addr ns.
Proof. induction ns; simpl; auto with f_equal. Qed.

Lemma keys_id ns : (map node_key ns).*1 = map o_order_id (map n_order ns).
Proof. induction ns; simpl; auto with f_equal. Qed.

(** Cancelling on a side: the level lookup and the node erasure succeed, and the
    node leaves the queue. *)
Lemma side_remove side m n :
  side_wf side m -> n ∈ queue side m -> NoDup (map n_addr (queue side m)) ->
  exists ns ns',
    om_find (o_price (n_order n)) m = Some ns /\ list_erase (n_addr n) ns = Ok ns' /\
    let m' := if is_nil ns' then om_erase (o_price (n_order n)) m
              else om_set (o_price (n_order n)) ns' m in
    side_wf side m' /\ (forall b, b ∈ m' -> exists b0, b0 ∈ m /\ b0.1 = b.1) /\
    exists q1 q2, queue side m = q1 ++ n :: q2 /\ queue side m' = q1 ++ q2.
Proof.
  intros Hwf Hin Hda. pose proof Hwf as [Hs _].
  destruct (queue_split _ _ _ Hs Hin) as (p & ns & l1 & l2 & q1 & q2 & Hf & Hb & Hns & Hq & Hq').
  destruct (side_wf_level _ _ _ Hwf Hb) as (Hp & _ & HF). simpl in *.
  assert (o_price (n_order n) = p) as ->.
  { rewrite Forall_forall in HF. destruct (HF n) as [-> _]; [rewrite Hns; set_solver|done]. }
  exists ns, (l1 ++ l2). rewrite Hns in HF |- *. rewrite Hns in Hf. split; [done|]. split.
  { apply list_erase_middle. rewrite Hq, !map_app in Hda.
    apply NoDup_app in Hda as (_ & _ & (_ & Hd & _)%NoDup_app).
    intros Hx. apply (Hd _ Hx). simpl. left. }
  simpl. split; [|split].
  - destruct (is_nil (l1 ++ l2)) eqn:En; [by apply side_wf_erase|].
    apply side_wf_set; [done|]. split; [done|]. simpl. split; [by apply is_nil_app_false|].
    rewrite Forall_app, Forall_cons in HF. apply Forall_app. tauto.
  - intros b. destruct (is_nil _).
    + intros ?%om_keys_erase; [eauto|done].
    + intros [Hb1|?]%om_keys_set; [exists (p, ns)|eauto|done]. done.
  - exists (q1 ++ l1), (l2 ++ q2). by rewrite <- !app_assoc.
Qed.

Lemma nodes_wf_remove m next n q1 q2 q :
  nodes_wf m next (map node_key ((q1 ++ n :: q2) ++ q)) ->
  nodes_wf (delete (o_order_id (n_order n)) m) next (map node_key ((q1 ++ q2) ++ q)) /\
  o_order_id (n_order n) ∉ map o_order_id (map n_order ((q1 ++ q2) ++ q)).
Proof.
  intros Hwf.
  assert (nodes_wf m next (node_key n :: map node_key ((q1 ++ q2) ++ q))) as Hwf'.
  { eapply nodes_wf_perm; [|exact Hwf]. rewrite <- !app_assoc. simpl.
    by rewrite <- (Permutation_middle q1 _ n). }
  split; [by apply (nodes_wf_delete _ _ (node_key n))|].
  pose proof (nw_id _ _ _ Hwf') as Hid. simpl in Hid. apply NoDup_cons in Hid as [Hid _].
  by rewrite keys_id in Hid.
Qed.

Section Ops.
Context {P : Type} {pub : Publisher Trade P}.
Implicit Types (lob : LimitOrderBook P).

Lemma book_keys lob side :
  book_wf lob ->
  nodes_wf (lob_order_id_map lob) (lob_next_addr lob)
    (map node_key (queue side (get_side lob side) ++
                   queue (opposite side) (get_side lob (opposite side)))).
Proof. intros Hwf. apply (book_sides lob side) in Hwf as [_ [_ _ ? _]]. done. Qed.

Lemma node_side lob n :
  book_wf lob -> n ∈ all_nodes lob ->
  n ∈ queue (o_side (n_order n)) (get_side lob (o_side (n_order n))).
Proof.
  intros Hwf Hin. pose proof (book_sides lob bid) as Hb. destruct Hb as [Hb _].
  destruct (Hb Hwf) as [_ [Hbid Hask _ _]]. simpl in *.
  rewrite (all_nodes_queues lob bid), elem_of_app in Hin. simpl in Hin.
  destruct Hin as [Hin|Hin].
  - destruct (side_wf_node _ _ _ Hbid Hin) as (_ & -> & _). done.
  - destruct (side_wf_node _ _ _ Hask Hin) as (_ & -> & _). done.
Qed.

(** An id in the map leads to its node. *)
Lemma lookup_node lob id a :
  book_wf lob -> lob_order_id_map lob !! id = Some a ->
  exists n, deref lob a = Ok n /\ n_addr n = a /\ o_order_id (n_order n) = id /\
    n ∈ queue (o_side (n_order n)) (get_side lob (o_side (n_order n))).
Proof.
  intros Hwf Hl. pose proof (bw_nodes _ Hwf) as Hn.
  apply (nodes_wf_lookup _ _ _ _ _ Hn) in Hl.
  apply list_elem_of_fmap in Hl as (n & [= -> ->] & Hin).
  exists n. split; [|split; [done|split; [done|by apply node_side]]].
  unfold deref. rewrite find_unique; [done| |done]. rewrite <- keys_addr. apply Hn.
Qed.

Lemma cancel_order_correct lob id a :
  book_wf lob -> lob_order_id_map lob !! id = Some a ->
  exists lob',
    cancel_order lob id = Ok lob' /\
    (forall side, orders_of lob' side = remove_order id (orders_of lob side)) /\
    lob_order_id_map lob' = delete id (lob_order_id_map lob) /\
    lob_ticker lob' = lob_ticker lob /\
    lob_trade_publisher lob' = lob_trade_publisher lob /\
    book_wf lob'.
Proof.
  intros Hwf Hl. unfold cancel_order. rewrite Hl. simpl.
  destruct (lookup_node lob id a Hwf Hl) as (n & -> & <- & <- & Hin). simpl.
  set (side := o_side (n_order n)) in *.
  pose proof (proj1 (book_sides lob side) Hwf) as [Ht [Hnear Hfar Hnodes Hap]].
  assert (NoDup (map n_addr (queue side (get_side lob side)))) as Hda.
  { pose proof (nw_addr _ _ _ Hnodes) as Ha. rewrite keys_addr, map_app in Ha.
    by apply NoDup_app in Ha as [? _]. }
  destruct (side_remove side _ n Hnear Hin Hda)
    as (ns & ns' & Hf & Her & Hnear' & Hk & q1 & q2 & Hq & Hq').
  rewrite Hf. simpl. rewrite Her. simpl. set (m' := if is_nil ns' then _ else _) in *.
  rewrite Hq in Hnodes. pose proof (nodes_wf_remove _ _ _ _ _ _ Hnodes) as [Hnodes' Habs].
  assert (forall s, get_side (with_id_map (with_side lob side m') (delete (o_order_id (n_order n))
    (lob_order_id_map lob))) s = if decide (s = side) then m' else get_side lob s) as Hget.
  { intros s. destruct side, s; simpl; done. }
  eexists. split; [done|]. split; [|split; [|split; [|split]]]; try (by destruct side).
  - intros s. unfold orders_of. rewrite Hget. destruct (decide (s = side)) as [->|Hne].
    + rewrite Hq, Hq', !map_app. simpl. symmetry. apply remove_order_middle.
      rewrite !map_app, !elem_of_app in *. tauto.
    + assert (s = opposite side) as -> by (by destruct s, side).
      symmetry. apply remove_order_absent. rewrite !map_app, !elem_of_app in Habs. tauto.
  - apply (book_sides _ side). split; [by destruct side|].
    rewrite !Hget, decide_True, decide_False by (done || by destruct side).
    split; [done|done| |].
    + rewrite Hq'. by destruct side.
    + intros b c (b0 & Hb0 & <-)%Hk Hc. by apply Hap.
Qed.

(** ** Level aggregates *)
Definition level_quantity (ns : list Node) : Z := sumZ (fun n => o_quantity (n_order n)) ns.

Lemma sum_quantity_ok acc ns :
  0 <= acc -> Forall (fun n => 0 < o_quantity (n_order n)) ns ->
  acc + level_quantity ns <= INT_MAX ->
  foldM (fun q n => add32 q (o_quantity (n_order n))) acc ns = Ok (acc + level_quantity ns).
Proof.
  intros Hacc Hns. revert acc Hacc. unfold level_quantity.
  induction Hns as [|n ns Hn Hns IH]; intros acc Hacc Hmax; simpl in *; [f_equal; lia|].
  assert (0 <= sumZ (fun n => o_quantity (n_order n)) ns).
  { apply sumZ_nonneg. eapply Forall_impl; [exact Hns|]. simpl. lia. }
  unfold add32. rewrite i32_ok by (unfold INT_MIN, INT_MAX in *; lia). simpl.
  rewrite IH by lia. f_equal. lia.
Qed.

Lemma level_quantities side p ns :
  level_wf side (p, ns) -> Forall (fun n => 0 < o_quantity (n_order n)) ns /\ 0 < level_quantity ns.
Proof.
  intros (_ & Hne & HF). simpl in *.
  assert (Forall (fun n => 0 < o_quantity (n_order n)) ns) as Hq
    by (eapply Forall_impl; [exact HF|]; simpl; unfold order_wf; intros; lia).
  split; [done|]. by apply sumZ_pos.
Qed.

Lemma book_side_wf lob side : book_wf lob -> side_wf side (get_side lob side).
Proof. intros Hwf. by apply (book_sides lob side) in Hwf as [_ [? _ _ _]]. Qed.

Lemma prio_level lob side i b :
  book_wf lob -> prio side (get_side lob side) !! i = Some b ->
  b ∈ get_side lob side /\ level_wf side b /\ (i < length (get_side lob side))%nat.
Proof.
  intros Hwf Hi. pose proof (list_elem_of_lookup_2 _ _ _ Hi) as Hin.
  rewrite (prio_perm side) in Hin. split; [done|]. split.
  - eapply side_wf_level; [by apply book_side_wf|done].
  - apply lookup_lt_Some in Hi.
    by rewrite (Permutation_length (prio_perm side (get_side lob side))) in Hi.
Qed.

Lemma get_level_aggregate_ok lob side i p ns :
  book_wf lob -> prio side (get_side lob side) !! i = Some (p, ns) ->
  level_quantity ns <= INT_MAX ->
  get_level_aggregate lob side (Z.of_nat i) = Ok (mkLevelAggregate p (level_quantity ns)).
Proof.
  intros Hwf Hi Hmax. destruct (prio_level lob side i _ Hwf Hi) as (Hin & Hlw & Hlt).
  unfold get_level_aggregate.
  rewrite (proj2 (is_nil_app_false (get_side lob side)))
    by (intros E; rewrite E in Hlt; simpl in Hlt; lia).
  rewrite (proj2 (Z.leb_le _ _)), (proj2 (Z.ltb_lt _ _)) by lia. simpl. rewrite Nat2Z.id.
  assert ((match side with bid => reverse (get_side lob side) !! i
                         | ask => get_side lob side !! i end) = Some (p, ns)) as ->
    by (by destruct side).
  simpl. destruct (level_quantities _ _ _ Hlw) as [Hq Hpos].
  rewrite sum_quantity_ok by (done || lia). rewrite Z.add_0_l. simpl.
  destruct Hlw as ([? ?] & _). simpl in *.
  by rewrite (proj2 (Z.ltb_lt 0 p)), (proj2 (Z.ltb_lt 0 (level_quantity ns))) by lia.
Qed.

(** ** Fill cost *)
Definition fill_value (f : Order * Z) : Z := o_price f.1 * f.2.

Lemma match_nodes_members side price q l fs l' r :
  match_nodes side price q l = (fs, l', r) -> Forall (fun f => f.1 ∈ l) fs.
Proof.
  revert q fs l' r. induction l as [|n l IH]; intros q fs l' r; simpl.
  - by intros [= <- <- <-].
  - destruct (_ && _); [|by intros [= <- <- <-]].
    destruct (_ <=? _).
    + destruct (match_nodes _ _ _ l) as [[fs1 l1] r1] eqn:E. intros [= <- <- <-].
      constructor; [left|]. eapply Forall_impl; [by eapply IH|]. simpl. set_solver.
    + intros [= <- <- <-]. constructor; [left|done].
Qed.

(** Matching within a level whose orders all cross. *)
Lemma match_nodes_level side price q p ns fs ns' r :
  0 <= q -> Forall (fun n => o_price (n_order n) = p) ns -> crosses side price p = true ->
  Forall (fun n => 0 < o_quantity (n_order n)) ns ->
  match_nodes side price q ns = (fs, ns', r) ->
  sumZ fill_value (map order_fill fs) = p * (q - r) /\
  (level_quantity ns <= q -> ns' = [] /\ r = q - level_quantity ns) /\
  (q < level_quantity ns -> is_nil ns' = false /\ r = 0).
Proof.
  intros Hq Hp Hc Hpos Hmn. split.
  - destruct (match_nodes_left _ _ _ _ _ _ _ Hq Hpos Hmn) as (_ & -> & _).
    pose proof (match_nodes_members _ _ _ _ _ _ _ Hmn) as Hmem. rewrite Forall_forall in Hp.
    clear Hmn Hq. induction Hmem as [|f fs Hf _ IH]; simpl; [ring|].
    rewrite IH. unfold fill_value. simpl. rewrite (Hp _ Hf). ring.
  - unfold level_quantity. revert q fs ns' r Hq Hp Hmn.
    induction Hpos as [|n ns Hn Hns IH]; intros q fs ns' r Hq Hp; simpl.
    + intros [= <- <- <-]. split; [|lia]. intros. split; [done|lia].
    + apply Forall_cons in Hp as [-> Hp].
      assert (0 <= sumZ (fun n => o_quantity (n_order n)) ns).
      { apply sumZ_nonneg. eapply Forall_impl; [exact Hns|]. simpl. lia. }
      rewrite Hc, andb_true_r. destruct (0 <? q) eqn:H0.
      2: { intros [= <- <- <-]. split; [lia|]. intros. split; [done|lia]. }
      destruct (_ <=? _) eqn:Hle.
      * destruct (match_nodes _ _ _ ns) as [[fs1 l1] r1] eqn:E. intros [= <- <- <-].
        destruct (IH (q - o_quantity (n_order n)) fs1 l1 r1 ltac:(lia) Hp E) as [IH1 IH2].
        split; intros; [destruct IH1|destruct IH2]; try lia; split; (done || lia).
      * intros [= <- <- <-]. split; [lia|]. intros. split; [done|lia].
Qed.

Lemma fill_value_nonneg side price q l fs l' r :
  0 <= q -> Forall (fun n => 0 < o_price (n_order n) /\ 0 < o_quantity (n_order n)) l ->
  match_nodes side price q l = (fs, l', r) -> 0 <= sumZ fill_value (map order_fill fs).
Proof.
  intros Hq Hl Hmn. apply Forall_and in Hl as [Hp Hqs].
  destruct (match_nodes_left _ _ _ _ _ _ _ Hq Hqs Hmn) as (_ & _ & Hfs & _).
  pose proof (match_nodes_members _ _ _ _ _ _ _ Hmn) as Hmem.
  apply sumZ_nonneg, Forall_map, Forall_forall. intros f Hf.
  pose proof (proj1 (Forall_forall _ _) Hmem f Hf) as Hin.
  pose proof (proj1 (Forall_forall _ _) Hp _ Hin). pose proof (proj1 (Forall_forall _ _) Hfs f Hf).
  unfold fill_value. simpl in *. nia.
Qed.

(** A price at which an order takes the whole other side. *)
Definition market_price (side : Side) : Z :=
  match side with bid => MARKET_BID_ORDER_PRICE | ask => MARKET_ASK_ORDER_PRICE end.

Lemma market_crosses side b :
  level_wf side b -> crosses (opposite side) (market_price (opposite side)) b.1 = true.
Proof.
  intros ([? ?] & _). destruct side; simpl;
    unfold MARKET_BID_ORDER_PRICE, MARKET_ASK_ORDER_PRICE, INT_MAX, INT_MIN in *; lia.
Qed.

Lemma levels_nodes side (ls : SideContainer) :
  Forall (level_wf side) ls ->
  Forall (fun n => 0 < o_price (n_order n) /\ 0 < o_quantity (n_order n)) (concat (map snd ls)).
Proof.
  induction 1 as [|b ls ([? _] & _ & HF) _ IH]; simpl; [done|]. apply Forall_app. split; [|done].
  eapply Forall_impl; [exact HF|]. simpl. unfold order_wf. intros; lia.
Qed.

Lemma match_nodes_zero side price l : match_nodes side price 0 l = ([], l, 0).
Proof. by destruct l. Qed.

(** The loop over the levels computes the value of the fills of a market order. *)
Lemma fill_cost_loop_ok lob side rest : forall i total q fs l' r,
  book_wf lob -> drop i (prio side (get_side lob side)) = rest ->
  Forall (level_wf side) rest -> Forall (fun b => level_quantity b.2 <= INT_MAX) rest ->
  0 <= q <= INT_MAX -> 0 <= total ->
  match_nodes (opposite side) (market_price (opposite side)) q (concat (map snd rest))
    = (fs, l', r) ->
  total + sumZ fill_value (map order_fill fs) <= INT_MAX ->
  fill_cost_loop lob side (seq i (length rest)) total q
    = Ok (total + sumZ fill_value (map order_fill fs)).
Proof.
  induction rest as [|[p ns] rest IH]; intros i total q fs l' r Hwf Hd Hlw Hlq Hq Ht Hmn Hmax;
    simpl in *.
  { injection Hmn as <- <- <-. simpl. f_equal. lia. }
  apply Forall_cons in Hlw as [Hl Hlw]. apply Forall_cons in Hlq as [Hlq1 Hlq]. simpl in *.
  destruct (Z.eqb_spec q 0) as [->|Hq0].
  { rewrite match_nodes_zero in Hmn. injection Hmn as <- <- <-. simpl. f_equal. lia. }
  assert (prio side (get_side lob side) !! i = Some (p, ns)) as Hi.
  { rewrite <- (Nat.add_0_r i), <- lookup_drop, Hd. done. }
  rewrite (get_level_aggregate_ok lob side i p ns Hwf Hi Hlq1). simpl.
  destruct (level_quantities _ _ _ Hl) as [Hqs Hpos].
  destruct (match_nodes (opposite side) (market_price (opposite side)) q ns)
    as [[fs1 ns'] r1] eqn:E1.
  assert (Forall (fun n => o_price (n_order n) = p) ns) as Hps
    by (destruct Hl as (_ & _ & HF); eapply Forall_impl; [exact HF|]; by intros n [? _]).
  destruct (match_nodes_level _ _ _ p _ _ _ _ (proj1 Hq) Hps (market_crosses _ _ Hl) Hqs E1)
    as (Hv1 & Hfull & Hpart).
  rewrite (match_nodes_app _ _ _ _ _ _ _ _ E1) in Hmn.
  destruct Hl as ([Hp ?] & _). simpl in Hp.
  assert (drop (S i) (prio side (get_side lob side)) = rest) as Hd'.
  { rewrite <- Nat.add_1_r, <- drop_drop, Hd. done. }
  destruct (level_quantity ns <=? q) eqn:Hle.
  - destruct Hfull as [-> Hr1]; [lia|]. simpl in Hmn.
    destruct (match_nodes _ _ r1 _) as [[fs2 l2] r2] eqn:E2. injection Hmn as <- <- <-.
    rewrite map_app, sumZ_app, Hv1 in Hmax |- *.
    assert (0 <= r1) as Hr1' by lia.
    pose proof (fill_value_nonneg _ _ _ _ _ _ _ Hr1' (levels_nodes side rest Hlw) E2).
    replace (q - r1) with (level_quantity ns) in * by lia.
    unfold mul32, add32, sub32. do 3 (rewrite i32_ok by (unfold INT_MIN, INT_MAX in *; nia); simpl).
    rewrite <- Hr1. rewrite IH with (fs := fs2) (l' := l2) (r := r2);
      try done; [f_equal; lia|lia|nia|lia].
  - destruct Hpart as [En Hr1]; [lia|]. rewrite En in Hmn. injection Hmn as <- <- <-.
    rewrite Hv1, Hr1, Z.sub_0_r in *.
    unfold mul32, add32. rewrite i32_ok by (unfold INT_MIN, INT_MAX in *; nia). simpl.
    rewrite i32_ok by (unfold INT_MIN, INT_MAX in *; nia). simpl.
    rewrite IH with (fs := []) (l' := concat (map snd rest)) (r := 0);
      try done; [simpl; f_equal; lia|lia|apply match_nodes_zero|simpl; lia].
Qed.
End Ops.
