(* ===== verification/BookTheorems.v ===== *)
(** * Theorems on the limit order book

    The properties that make [engine::LimitOrderBook] correct, stated on the
    code's entry points, with a small concrete book on which each is
    instantiated. *)

From S2P Require Import Prelude Core OrderedMap LimitOrderBook BookSpec Matching BookOps.
From Stdlib Require Import ZArith Lia Ascii String.
From stdpp Require Import base option list gmap strings fin_maps.

Open Scope Z_scope.

(** ** A concrete book *)

(** A publisher that accepts everything and keeps what it was given. *)
#[export] Instance log_publisher {T} : Publisher T (list T) := fun p t => (p ++ [t], true).

Definition sample_env : Env :=
  mkEnv (fun n => 1700000000000 + Z.of_nat n) (fun n => replicate 16 (Z.of_nat n mod 256)).

Lemma sample_env_ok : env_ok sample_env.
Proof.
  intros n. split; [done|]. apply Forall_replicate. apply Z.mod_pos_bound. lia.
Qed.

Definition alice_ask : Node := mkNode 0 (mkOrder 0 100 10 ask "alice").
Definition bob_ask : Node := mkNode 1 (mkOrder 1 100 7 ask "bob").
Definition carol_ask : Node := mkNode 2 (mkOrder 2 105 20 ask "carol").
Definition dave_bid : Node := mkNode 3 (mkOrder 3 98 30 bid "dave").

(** Asks 10 and 7 at 100, 20 at 105; a bid for 30 at 98. *)
Definition sample_book : LimitOrderBook (list Trade) :=
  mkLimitOrderBook [] "GME" [(98, [dave_bid])] [(100, [alice_ask; bob_ask]); (105, [carol_ask])]
    (list_to_map [(3, 3%nat); (0, 0%nat); (1, 1%nat); (2, 2%nat)]) 4.

(** Decide the invariant of a concrete book. *)
Ltac solve_order_wf := repeat split; simpl; unfold INT_MAX; first [lia | done].
Ltac solve_level_wf :=
  split; [simpl; unfold INT_MAX; lia|]; split; [done|];
  repeat (constructor; [solve_order_wf|]); constructor.
Ltac solve_side_wf :=
  split; [repeat constructor; simpl; lia|];
  repeat (constructor; [solve_level_wf|]); constructor.

Lemma sample_book_wf : book_wf sample_book.
Proof.
  split.
  - done.
  - solve_side_wf.
  - solve_side_wf.
  - split; [| | |done].
    + apply (bool_decide_unpack _). by vm_compute.
    + apply (bool_decide_unpack _). by vm_compute.
    + repeat constructor; simpl; lia.
  - intros b a Hb%list_elem_of_In Ha%list_elem_of_In. simpl in *. intuition (subst; simpl; lia).
Qed.

Section Theorems.
Context {P : Type} {pub : Publisher Trade P} (env : Env).
Implicit Types (lob : LimitOrderBook P).

(** ** Facts about the specification *)
Lemma match_orders_no_fill side price q l b left :
  match_orders side price q l = ([], b, left) -> b = l /\ left = q.
Proof.
  destruct l as [|o l]; simpl; [by intros [= <- <-]|].
  destruct (_ && _); [|by intros [= <- <-]].
  destruct (_ <=? _); [|done]. by destruct (match_orders _ _ _ l) as [[]].
Qed.

Definition orders_quantity (l : list Order) : Z := sumZ o_quantity l.

(** The fills exhaust a prefix of the queue, except that the last may be partial. *)
Definition priority_fills (l : list Order) (fs : list (Order * Z)) : Prop :=
  map fst fs = take (length fs) l /\
  forall i f, fs !! i = Some f -> (S i < length fs)%nat -> f.2 = o_quantity f.1.

Lemma match_orders_spec side price q l fs b left :
  0 <= q -> Forall (fun o => 0 < o_quantity o) l ->
  match_orders side price q l = (fs, b, left) ->
  0 <= left /\ sumZ snd fs + left = q /\
  orders_quantity b = orders_quantity l - sumZ snd fs /\
  Forall (fun f => 0 < f.2 <= o_quantity f.1 /\ crosses side price (o_price f.1) = true) fs /\
  priority_fills l fs.
Proof.
  unfold orders_quantity, priority_fills. intros Hq Hl. revert q fs b left Hq.
  induction Hl as [|o l Ho Hl IH]; intros q fs b left Hq; simpl.
  { intros [= <- <- <-]. simpl. repeat split; try lia; try done. }
  destruct (0 <? q) eqn:H0; simpl.
  2: { intros [= <- <- <-]. simpl. repeat split; try lia; try done. }
  destruct (crosses _ _ _) eqn:Hc.
  2: { intros [= <- <- <-]. simpl. repeat split; try lia; try done. }
  destruct (_ <=? _) eqn:Hle.
  - destruct (match_orders _ _ _ l) as [[fs1 b1] left1] eqn:E. intros [= <- <- <-].
    destruct (IH (q - o_quantity o) fs1 b1 left1 ltac:(lia) E) as (? & ? & ? & HF & Hm & Hlast).
    simpl. repeat split; try lia.
    + constructor; [simpl; split; [lia|done]|done].
    + by rewrite Hm.
    + intros [|i] f; simpl; [by intros [= <-]|]. intros Hf Hi. apply (Hlast i f Hf). lia.
  - intros [= <- <- <-]. simpl. repeat split; try lia.
    + constructor; [simpl; split; [lia|done]|done].
Qed.

Lemma book_quantities lob side :
  book_wf lob -> Forall (fun o => 0 < o_quantity o) (orders_of lob side).
Proof.
  intros Hwf. unfold orders_of. apply Forall_map, Forall_forall. intros n Hn.
  destruct (side_wf_node _ _ _ (book_side_wf lob side Hwf) Hn) as (_ & _ & _ & ? & _). lia.
Qed.

Lemma insert_order_quantity o l :
  orders_quantity (insert_order o l) = o_quantity o + orders_quantity l.
Proof.
  unfold orders_quantity. induction l as [|o' l IH]; simpl; [lia|].
  destruct (worse _ _ _); simpl; lia.
Qed.

Lemma remove_insert o l :
  o_order_id o ∉ map o_order_id l -> remove_order (o_order_id o) (insert_order o l) = l.
Proof.
  induction l as [|o' l IH]; simpl.
  - unfold remove_order. simpl. by rewrite Z.eqb_refl.
  - intros Hn. destruct (worse _ _ _).
    + by apply (remove_order_middle o [] (o' :: l)).
    + apply not_elem_of_cons in Hn as [Hne Hn]. unfold remove_order in *. simpl.
      rewrite (proj2 (Z.eqb_neq _ _)) by congruence. simpl. by rewrite IH.
Qed.

Lemma book_fresh_ids lob side id :
  book_wf lob -> lob_order_id_map lob !! id = None -> id ∉ map o_order_id (orders_of lob side).
Proof.
  intros Hwf Hn. apply (nodes_wf_absent _ _ _ _ (book_keys lob side Hwf)) in Hn.
  rewrite keys_id, !map_app, elem_of_app in Hn. unfold orders_of. tauto.
Qed.

(** A call that returned met the contract. *)
Lemma add_order_contract lob events calls id price q side broker r :
  add_order env lob events calls id price q side broker = Ok r ->
  in_i32 price = true -> in_i32 q = true -> fits MAX_USERNAME_LENGTH broker = true ->
  order_ok lob id price q broker.
Proof.
  unfold add_order, in_i32. intros Hadd Hp Hq Hf.
  apply andb_true_iff in Hp as [_ ?%Z.leb_le]. apply andb_true_iff in Hq as [_ ?%Z.leb_le].
  do 5 (apply bind_ok in Hadd as ([] & ?%check_ok & Hadd)).
  split; try done; try lia.
  rewrite negb_true_iff, bool_decide_eq_false in *.
  destruct (lob_order_id_map lob !! id); [exfalso; eauto|done].
Qed.

(** The books that calls of the engine can produce, from an empty one. *)
Inductive book_reachable : LimitOrderBook P -> Prop :=
  | reach_new ticker p :
      fits MAX_TICKER_LENGTH ticker = true -> book_reachable (new_book ticker p)
  | reach_add lob events calls id price q side broker lob' events' calls' :
      book_reachable lob -> in_i32 price = true -> in_i32 q = true ->
      fits MAX_USERNAME_LENGTH broker = true ->
      add_order env lob events calls id price q side broker = Ok (lob', events', calls') ->
      book_reachable lob'
  | reach_cancel lob id lob' :
      book_reachable lob -> cancel_order lob id = Ok lob' -> book_reachable lob'.

Lemma new_book_wf ticker (p : P) : fits MAX_TICKER_LENGTH ticker = true -> book_wf (new_book ticker p).
Proof.
  intros Ht. split; [done|by split|by split| |].
  - split; [apply NoDup_nil_2|apply NoDup_nil_2|done|done].
  - by intros b a ?%elem_of_nil.
Qed.

Lemma cancel_order_contract lob id lob' :
  cancel_order lob id = Ok lob' -> exists a, lob_order_id_map lob !! id = Some a.
Proof. unfold cancel_order. destruct (_ !! id); simpl; [eauto|done]. Qed.

Lemma best_order_level lob side o :
  book_wf lob -> get_best_order lob side = Ok (Some o) ->
  exists b, b ∈ get_side lob side /\ o_price o = b.1.
Proof.
  intros Hwf. unfold get_best_order. rewrite best_level_prio.
  assert (opposite (opposite side) = side) as -> by (by destruct side).
  destruct (prio side (get_side lob side)) as [|[p ns] tl] eqn:Hp; simpl; [done|].
  assert ((p, ns) ∈ get_side lob side) as Hin by (rewrite <- (prio_perm side), Hp; left).
  destruct (side_wf_level _ _ _ (book_side_wf lob side Hwf) Hin) as (_ & _ & HF).
  destruct ns as [|n ns]; simpl; [done|]. intros [= <-].
  apply Forall_cons in HF as [[? _] _]. eauto.
Qed.

(** C5: [add_order] refines the price-time priority specification.  On a
    well-formed book and an order that meets the contract (and whose trader name
    fits the trade's array), [add_order] returns: no contract or assertion fails,
    no 32-bit arithmetic overflows and both loops end.  The opposite side of the
    book becomes what [match_orders] leaves of it, the near side becomes
    [rest_order] of what is left of the order, and the trades appended to
    [trade_events] and handed to the publisher report exactly the fills, in
    order, at the makers' prices and with the right parties. *)
Theorem add_order_refines lob events calls order_id price quantity side broker_id :
  env_ok env -> book_wf lob -> order_ok lob order_id price quantity broker_id ->
  exists lob' ts fs left,
    add_order env lob events calls order_id price quantity side broker_id
      = Ok (lob', events ++ ts, (calls + length ts)%nat) /\
    match_orders side price quantity (orders_of lob (opposite side))
      = (fs, orders_of lob' (opposite side), left) /\
    orders_of lob' side =
      rest_order (mkOrder order_id price left side broker_id) (orders_of lob side) /\
    Forall2 (trade_reports (lob_ticker lob) order_id side broker_id) fs ts /\
    lob_trade_publisher lob' = published (lob_trade_publisher lob) ts.
Proof.
  intros Henv Hwf Hok.
  destruct (add_order_correct env Henv lob events calls _ _ _ side _ Hwf Hok)
    as (lob' & ts & fs & left & H). exists lob', ts, fs, left. tauto.
Qed.

(** C15: every book that calls of [add_order] and [cancel_order] produce from an
    empty one satisfies the invariant (sorted non-empty levels, orders filed
    under their price and side, positive quantities, distinct ids, an id map that
    points exactly at the live list nodes), and its best bid is below its best
    ask. *)
Theorem book_invariant lob :
  env_ok env -> book_reachable lob ->
  book_wf lob /\
  forall b a, get_best_order lob bid = Ok (Some b) -> get_best_order lob ask = Ok (Some a) ->
    o_price b < o_price a.
Proof.
  intros Henv Hr. assert (book_wf lob) as Hwf.
  { induction Hr as [|? ? ? ? ? ? ? ? ? ? ? ? IH ? ? ? Hadd|? ? ? ? IH Hc].
    - by apply new_book_wf.
    - pose proof (add_order_contract _ _ _ _ _ _ _ _ _ Hadd ltac:(done) ltac:(done) ltac:(done)) as Hok.
      destruct (add_order_correct env Henv lob events calls _ _ _ side _ IH Hok)
        as (? & ? & ? & ? & Hadd' & _ & _ & _ & _ & _ & ?). rewrite Hadd in Hadd'. by simplify_eq.
    - destruct (cancel_order_contract _ _ _ Hc) as [a Ha].
      destruct (cancel_order_correct lob id a IH Ha) as (? & Hc' & _ & _ & _ & _ & ?).
      rewrite Hc in Hc'. by simplify_eq. }
  split; [done|]. intros b a Hb Ha.
  apply best_order_level in Hb as (lb & Hlb & ->); [|done].
  apply best_order_level in Ha as (la & Hla & ->); [|done].
  by apply (bw_uncrossed _ Hwf).
Qed.

(** The trades of [add_order] conserve quantity and respect the limit and the
    queue.  The traded quantity and what rests add up to the order's quantity
    (a market order's rest is dropped); the opposite side loses exactly the
    traded quantity; every trade is at a price within the order's limit; the
    makers are a prefix of the opposite side's price-time queue, and all but the
    last of them are filled completely. *)
Theorem add_order_trades lob events calls id price q side broker lob' events' calls' :
  env_ok env -> book_wf lob -> in_i32 price = true -> in_i32 q = true ->
  fits MAX_USERNAME_LENGTH broker = true ->
  add_order env lob events calls id price q side broker = Ok (lob', events', calls') ->
  exists ts fs,
    events' = events ++ ts /\
    Forall2 (trade_reports (lob_ticker lob) id side broker) fs ts /\
    priority_fills (orders_of lob (opposite side)) fs /\
    Forall (fun t => 0 < tr_quantity t /\ crosses side price (tr_price t) = true) ts /\
    sumZ tr_quantity ts <= q /\
    orders_quantity (orders_of lob' (opposite side)) =
      orders_quantity (orders_of lob (opposite side)) - sumZ tr_quantity ts /\
    orders_quantity (orders_of lob' side) =
      orders_quantity (orders_of lob side) +
      (if rests price (q - sumZ tr_quantity ts) then q - sumZ tr_quantity ts else 0).
Proof.
  intros Henv Hwf Hp Hq Hb Hadd.
  pose proof (add_order_contract _ _ _ _ _ _ _ _ _ Hadd Hp Hq Hb) as Hok.
  destruct (add_order_correct env Henv lob events calls _ _ _ side _ Hwf Hok)
    as (lob1 & ts & fs & left & Hadd' & Hm & Hnear & HF & _).
  rewrite Hadd in Hadd'. simplify_eq.
  destruct (match_orders_spec _ _ _ _ _ _ _ (Z.lt_le_incl _ _ (proj1 (ok_quantity _ _ _ _ _ Hok)))
    (book_quantities lob (opposite side) Hwf) Hm) as (Hl & Hs & Hfar & Hfs & Hpr).
  assert (sumZ tr_quantity ts = sumZ snd fs) as Hts.
  { clear -HF. induction HF as [|f t fs ts (_ & _ & Hq & _)]; simpl; congruence. }
  exists ts, fs. rewrite Hts, Hnear. split; [done|]. split; [done|]. split; [done|]. split.
  { clear -HF Hfs. induction HF as [|f t fs ts (_ & Hp & Hq & _)]; [done|].
    apply Forall_cons in Hfs as [[? ?] ?]. constructor; [|auto]. rewrite Hq, Hp. split; [lia|done]. }
  split; [lia|]. split; [done|]. replace (q - sumZ snd fs) with left by lia.
  unfold rest_order. simpl. destruct (rests price left); [|lia].
  rewrite insert_order_quantity. simpl. lia.
Qed.

(** C12: [cancel_order] of an id in the map returns (its list iterator is live) a
    well-formed book in which both sides are as before without that order, and
    the id is gone; of any other id it violates its contract. *)
Theorem cancel_order_exact lob id :
  book_wf lob ->
  (order_id_exists lob id = true ->
   exists lob', cancel_order lob id = Ok lob' /\ book_wf lob' /\
     (forall side, orders_of lob' side = remove_order id (orders_of lob side)) /\
     order_id_exists lob' id = false /\
     (forall id', id' <> id -> order_id_exists lob' id' = order_id_exists lob id')) /\
  (order_id_exists lob id = false -> cancel_order lob id = Err ContractViolation).
Proof.
  intros Hwf. unfold order_id_exists. split; rewrite ?bool_decide_eq_true, ?bool_decide_eq_false.
  - intros [a Ha]. destruct (cancel_order_correct lob id a Hwf Ha) as (lob' & Hc & Ho & Hm & _ & _ & Hwf').
    exists lob'. rewrite Hm. split; [done|]. split; [done|]. split; [done|]. split.
    + rewrite bool_decide_eq_false, lookup_delete_eq. by intros [].
    + intros id' Hne. by rewrite lookup_delete_ne.
  - intros Hn. unfold cancel_order. destruct (_ !! id); [exfalso; eauto|done].
Qed.

(** Adding an order that trades nothing and rests, then cancelling it, gives
    back both sides of the book and the id map. *)
Theorem add_cancel_roundtrip lob events calls id price q side broker lob1 calls1 :
  env_ok env -> book_wf lob -> in_i32 price = true -> in_i32 q = true ->
  fits MAX_USERNAME_LENGTH broker = true ->
  add_order env lob events calls id price q side broker = Ok (lob1, events, calls1) ->
  order_id_exists lob1 id = true ->
  exists lob2, cancel_order lob1 id = Ok lob2 /\
    (forall s, orders_of lob2 s = orders_of lob s).
Proof.
  intros Henv Hwf Hp Hq Hb Hadd Hex. unfold order_id_exists in Hex.
  rewrite bool_decide_eq_true in Hex. destruct Hex as [a Ha].
  pose proof (add_order_contract _ _ _ _ _ _ _ _ _ Hadd Hp Hq Hb) as Hok.
  destruct (add_order_correct env Henv lob events calls _ _ _ side _ Hwf Hok)
    as (lob' & ts & fs & left & Hadd' & Hm & Hnear & HF & _ & _ & Hwf').
  rewrite Hadd in Hadd'. injection Hadd' as -> Hts _.
  assert (ts = []) as -> by (apply (app_inv_head events); by rewrite <- Hts, app_nil_r).
  apply Forall2_nil_inv_r in HF as ->. apply match_orders_no_fill in Hm as [Hfar ->].
  destruct (cancel_order_correct lob' id a Hwf' Ha) as (lob2 & Hc & Ho & _). exists lob2.
  split; [done|]. intros s. rewrite Ho. pose proof (ok_fresh _ _ _ _ _ Hok) as Hfr.
  destruct (decide (s = side)) as [->|].
  - rewrite Hnear. unfold rest_order. destruct (rests _ _).
    + apply (remove_insert (mkOrder id price q side broker)). by apply book_fresh_ids.
    + by apply remove_order_absent, book_fresh_ids.
  - assert (s = opposite side) as -> by (by destruct s, side).
    rewrite Hfar. by apply remove_order_absent, book_fresh_ids.
Qed.
End Theorems.

(** ** The theorems on the concrete book *)

(** Erin bids 12 at 103: she takes Alice's 10 and 2 of Bob's 7. *)
Lemma erin_order_ok : order_ok sample_book 9 103 12 "erin".
Proof. split; [lia|by vm_compute|right; unfold INT_MAX; lia|unfold INT_MAX; lia|by vm_compute]. Qed.

(** The book after a call, on concrete inputs. *)
Definition book_after {P} (r : res (LimitOrderBook P * list Trade * nat)) (d : LimitOrderBook P)
    : LimitOrderBook P :=
  match r with Ok (lob, _, _) => lob | Err _ => d end.

Definition erin_book : LimitOrderBook (list Trade) :=
  book_after (add_order sample_env sample_book [] 0 9 103 12 bid "erin") sample_book.

Lemma add_order_refines_witness :
  exists lob' ts fs left,
    add_order sample_env sample_book [] 0 9 103 12 bid "erin"
      = Ok (lob', [] ++ ts, (0 + length ts)%nat) /\
    match_orders bid 103 12 (orders_of sample_book (opposite bid))
      = (fs, orders_of lob' (opposite bid), left) /\
    orders_of lob' bid = rest_order (mkOrder 9 103 left bid "erin") (orders_of sample_book bid) /\
    Forall2 (trade_reports (lob_ticker sample_book) 9 bid "erin") fs ts /\
    lob_trade_publisher lob' = published (lob_trade_publisher sample_book) ts.
Proof.
  apply (add_order_refines sample_env sample_book [] 0 9 103 12 bid "erin");
    [exact sample_env_ok|exact sample_book_wf|exact erin_order_ok].
Defined.

(** A bid of 5 at 99 and an ask of 5 at 101, into an empty book. *)
Definition empty_book : LimitOrderBook (list Trade) := new_book "GME" [].
Definition one_sided : LimitOrderBook (list Trade) :=
  book_after (add_order sample_env empty_book [] 0 0 99 5 bid "alice") empty_book.
Definition two_sided : LimitOrderBook (list Trade) :=
  book_after (add_order sample_env one_sided [] 0 1 101 5 ask "bob") empty_book.

Lemma two_sided_reachable : book_reachable sample_env two_sided.
Proof.
  apply (reach_add sample_env one_sided [] 0 1 101 5 ask "bob" two_sided [] 0);
    [|reflexivity|reflexivity|reflexivity|vm_compute; reflexivity].
  apply (reach_add sample_env empty_book [] 0 0 99 5 bid "alice" one_sided [] 0);
    [|reflexivity|reflexivity|reflexivity|vm_compute; reflexivity].
  apply reach_new. reflexivity.
Qed.

Lemma book_invariant_witness :
  book_wf two_sided /\
  forall b a, get_best_order two_sided bid = Ok (Some b) ->
    get_best_order two_sided ask = Ok (Some a) -> o_price b < o_price a.
Proof. apply (book_invariant sample_env); [exact sample_env_ok|exact two_sided_reachable]. Defined.

Definition erin_trades : list Trade :=
  match add_order sample_env sample_book [] 0 9 103 12 bid "erin" with
  | Ok (_, ts, _) => ts | Err _ => []
  end.

Lemma add_order_trades_witness :
  exists ts fs,
    erin_trades = [] ++ ts /\
    Forall2 (trade_reports (lob_ticker sample_book) 9 bid "erin") fs ts /\
    priority_fills (orders_of sample_book (opposite bid)) fs /\
    Forall (fun t => 0 < tr_quantity t /\ crosses bid 103 (tr_price t) = true) ts /\
    sumZ tr_quantity ts <= 12 /\
    orders_quantity (orders_of erin_book (opposite bid)) =
      orders_quantity (orders_of sample_book (opposite bid)) - sumZ tr_quantity ts /\
    orders_quantity (orders_of erin_book bid) =
      orders_quantity (orders_of sample_book bid) +
      (if rests 103 (12 - sumZ tr_quantity ts) then 12 - sumZ tr_quantity ts else 0).
Proof.
  apply (add_order_trades sample_env sample_book [] 0 9 103 12 bid "erin" erin_book erin_trades 2);
    [exact sample_env_ok|exact sample_book_wf|reflexivity|reflexivity|reflexivity|].
  vm_compute. reflexivity.
Defined.

Lemma cancel_order_exact_witness :
  (order_id_exists sample_book 1 = true ->
   exists lob', cancel_order sample_book 1 = Ok lob' /\ book_wf lob' /\
     (forall side, orders_of lob' side = remove_order 1 (orders_of sample_book side)) /\
     order_id_exists lob' 1 = false /\
     (forall id', id' <> 1 -> order_id_exists lob' id' = order_id_exists sample_book id')) /\
  (order_id_exists sample_book 1 = false -> cancel_order sample_book 1 = Err ContractViolation).
Proof. apply (cancel_order_exact sample_book 1). exact sample_book_wf. Defined.

Lemma add_cancel_roundtrip_witness :
  exists lob2,
    cancel_order (book_after (add_order sample_env sample_book [] 0 9 99 4 bid "erin") sample_book) 9
      = Ok lob2 /\
    (forall s, orders_of lob2 s = orders_of sample_book s).
Proof.
  apply (add_cancel_roundtrip sample_env sample_book [] 0 9 99 4 bid "erin" _ 0);
    [exact sample_env_ok|exact sample_book_wf|reflexivity|reflexivity|reflexivity| |];
    vm_compute; reflexivity.
Defined.
