(* ===== verification/BookQueries.v ===== *)
(** * Theorems on the queries of the limit order book

    What [get_fill_cost] quotes is what a market order pays; a snapshot holds
    the aggregates of the best levels of both sides; the character arrays of
    snapshots and trades bound the tickers and names that the engine can
    handle. *)

From S2P Require Import Prelude Core OrderedMap LimitOrderBook BookSpec Matching BookOps BookTheorems.
From Stdlib Require Import ZArith Lia Ascii String.
From stdpp Require Import base option list gmap strings fin_maps.

Open Scope Z_scope.

(** Every level's total quantity fits an [int]: the sum that
    [get_level_aggregate] computes does not overflow. *)
Definition levels_bounded (m : SideContainer) : Prop :=
  Forall (fun b => level_quantity b.2 <= INT_MAX) m.

Definition trade_value (t : Trade) : Z := tr_price t * tr_quantity t.

(** What a snapshot should hold for a side. *)
Definition level_view (b : Z * list Node) : LevelAggregate :=
  mkLevelAggregate b.1 (level_quantity b.2).

Definition side_view {P} (lob : LimitOrderBook P) (side : Side) : list LevelAggregate :=
  take ORDER_BOOK_AGGREGATE_LEVELS
    (map level_view (prio side (get_side lob side)) ++
     replicate ORDER_BOOK_AGGREGATE_LEVELS (mkLevelAggregate 0 0)).

Section Queries.
Context {P : Type} {pub : Publisher Trade P} (env : Env).
Implicit Types (lob : LimitOrderBook P).

Lemma levels_bounded_prio side m : levels_bounded m -> levels_bounded (prio side m).
Proof. unfold levels_bounded. by rewrite (prio_perm side m). Qed.

Lemma levels_wf_prio lob side : book_wf lob -> Forall (level_wf side) (prio side (get_side lob side)).
Proof. intros Hwf. rewrite (prio_perm side). apply (book_side_wf lob side Hwf). Qed.

(** ** Fill cost *)
Lemma get_fill_cost_ok lob side q fs b left :
  book_wf lob -> levels_bounded (get_side lob side) -> 0 < q <= INT_MAX ->
  match_orders (opposite side) (market_price (opposite side)) q (orders_of lob side)
    = (fs, b, left) ->
  sumZ fill_value fs <= INT_MAX ->
  get_fill_cost lob q side =
    Ok (if is_nil (get_side lob side) then None else Some (sumZ fill_value fs)).
Proof.
  intros Hwf Hb Hq Hm Hmax. unfold get_fill_cost.
  rewrite (proj2 (Z.ltb_lt _ _)) by lia. simpl.
  destruct (is_nil (get_side lob side)) eqn:En; [done|].
  destruct (match_nodes (opposite side) (market_price (opposite side)) q
    (queue side (get_side lob side))) as [[fs' l'] r] eqn:E.
  pose proof (match_nodes_orders _ _ _ _ _ _ _ E) as E'. unfold orders_of in Hm.
  rewrite Hm in E'. injection E' as -> -> ->.
  pose proof (fill_cost_loop_ok lob side (prio side (get_side lob side)) 0 0 q fs' l' r
    Hwf (drop_0 _) (levels_wf_prio lob side Hwf) (levels_bounded_prio side _ Hb)
    ltac:(lia) ltac:(lia) E ltac:(lia)) as Hloop.
  rewrite prio_length in Hloop. rewrite Hloop. simpl. rewrite (proj2 (Z.ltb_lt _ _)); [done|].
  clear Hloop Hm Hmax. destruct (prio side (get_side lob side)) as [|[p ns] tl] eqn:Hp.
  { pose proof (prio_length side (get_side lob side)) as Hl. rewrite Hp in Hl.
    by destruct (get_side lob side). }
  pose proof (levels_wf_prio lob side Hwf) as Hlw. rewrite Hp in Hlw.
  unfold queue in E. rewrite Hp in E. pose proof (levels_nodes side _ Hlw) as Hns.
  apply Forall_cons in Hlw as [Hl _]. pose proof (market_crosses _ _ Hl) as Hc.
  destruct Hl as (Hpp & Hne & HF). simpl in *. destruct ns as [|n ns]; [done|]. simpl in *.
  apply Forall_cons in HF as [(Hnp & _) _]. rewrite Hnp, Hc, (proj2 (Z.ltb_lt _ _)) in E by lia.
  simpl in E. apply Forall_cons in Hns as [[? ?] Hns].
  destruct (o_quantity (n_order n) <=? q) eqn:Hle.
  - destruct (match_nodes _ _ _ (ns ++ _)) as [[fs1 l1] r1] eqn:E1. injection E as <- <- <-.
    apply fill_value_nonneg in E1; [|lia|done]. simpl. unfold fill_value at 1. simpl. nia.
  - injection E as <- <- <-. simpl. unfold fill_value. simpl. nia.
Qed.

Lemma fills_value_trades ticker id side broker fs ts :
  Forall2 (trade_reports ticker id side broker) fs ts -> sumZ trade_value ts = sumZ fill_value fs.
Proof.
  induction 1 as [|f t fs ts (_ & Hp & Hq & _) _ IH]; simpl; [done|].
  rewrite IH. unfold trade_value, fill_value. by rewrite Hp, Hq.
Qed.

Lemma opposite_involutive side : opposite (opposite side) = side.
Proof. by destruct side. Qed.

(** ** Snapshots *)
Lemma fill_aggregates_steps lob side arr k :
  book_wf lob -> levels_bounded (get_side lob side) ->
  (k <= length (get_side lob side))%nat -> (k <= length arr)%nat ->
  foldM (fun arr i =>
           la ← get_level_aggregate lob side (Z.of_nat i);
           _ ← check OutOfRange (i <? length arr)%nat;
           Ok (<[i := la]> arr)) arr (seq 0 k)
  = Ok (take k (map level_view (prio side (get_side lob side))) ++ drop k arr).
Proof.
  intros Hwf Hb. induction k as [|k IH]; intros Hk Ha; [by rewrite take_0, drop_0|].
  rewrite seq_S, foldM_app, IH by lia. simpl.
  assert (is_Some (prio side (get_side lob side) !! k)) as [[p ns] Hi]
    by (apply lookup_lt_is_Some; rewrite prio_length; lia).
  rewrite (get_level_aggregate_ok lob side k p ns Hwf Hi).
  2: { apply levels_bounded_prio with (side := side) in Hb. unfold levels_bounded in Hb.
       rewrite Forall_forall in Hb. apply (Hb (p, ns)). by eapply list_elem_of_lookup_2. }
  simpl. rewrite length_app, length_take, length_map, length_drop, prio_length.
  rewrite (proj2 (Nat.ltb_lt _ _)) by lia. simpl. f_equal.
  assert (map level_view (prio side (get_side lob side)) !! k = Some (level_view (p, ns))) as Hv
    by (change (map level_view ?l) with (level_view <$> l);
        by rewrite list_lookup_fmap, Hi).
  rewrite (take_S_r _ _ _ Hv), <- app_assoc.
  rewrite insert_app_r_alt; rewrite length_take, length_map, prio_length; [|lia].
  f_equal. replace (k - k `min` _)%nat with 0%nat by lia.
  destruct (drop k arr) as [|x l] eqn:Ed.
  { apply (f_equal length) in Ed. rewrite length_drop in Ed. simpl in Ed. lia. }
  simpl. f_equal. rewrite <- Nat.add_1_r, <- drop_drop, Ed. done.
Qed.

Lemma fill_aggregates_ok lob side :
  book_wf lob -> levels_bounded (get_side lob side) ->
  fill_aggregates lob side (replicate ORDER_BOOK_AGGREGATE_LEVELS (mkLevelAggregate 0 0))
    = Ok (side_view lob side).
Proof.
  intros Hwf Hb. unfold fill_aggregates. rewrite fill_aggregates_steps;
    [|done|done|lia|rewrite length_replicate; lia].
  f_equal. unfold side_view. set (l := map level_view _).
  assert (length l = length (get_side lob side)) as Hl by (by unfold l; rewrite length_map, prio_length).
  rewrite <- Hl, drop_replicate, take_app, take_replicate.
  destruct (Nat.min_spec ORDER_BOOK_AGGREGATE_LEVELS (length l)) as [[? ->]|[? ->]].
  - f_equal. f_equal. lia.
  - rewrite !take_ge by lia. f_equal. f_equal. lia.
Qed.

(** A ticker of at most three characters. *)
Lemma snapshot_ctor_short ticker now :
  fits MAX_TICKER_LENGTH ticker = true -> (strlen ticker <= 3)%nat ->
  exists t, TopOrderBookLevelAggregates_ctor ticker now =
    Ok (mkTopAggregates t (replicate ORDER_BOOK_AGGREGATE_LEVELS (mkLevelAggregate 0 0))
          (replicate ORDER_BOOK_AGGREGATE_LEVELS (mkLevelAggregate 0 0)) now) /\
    read_cstr t = Ok ticker.
Proof.
  unfold fits. intros [[H0 H5]%andb_true_iff Hn%bool_decide_eq_true]%andb_true_iff H3.
  unfold TopOrderBookLevelAggregates_ctor. rewrite H0, H5. cbn [check mbind res_bind andb].
  apply Nat.ltb_lt in H0. unfold memcpy, set_char.
  assert (length (c_str ticker) = strlen ticker) as -> by done.
  rewrite (proj2 (Nat.leb_le _ _)) by (rewrite length_replicate; unfold MAX_TICKER_LENGTH; lia).
  rewrite drop_replicate. cbn [mbind res_bind]. rewrite length_app, length_replicate.
  assert (length (c_str ticker) = strlen ticker) as -> by done.
  rewrite (proj2 (Nat.ltb_lt _ _)) by (unfold MAX_TICKER_LENGTH; lia). cbn [mbind res_bind]. eexists. split; [done|].
  rewrite insert_app_r_alt by (unfold strlen; lia).
  replace (strlen ticker + 1 - length (c_str ticker))%nat with 1%nat by (unfold strlen; lia).
  assert (exists k, (MAX_TICKER_LENGTH - strlen ticker)%nat = S (S k)) as [k ->].
  { exists (3 - strlen ticker)%nat. unfold MAX_TICKER_LENGTH. lia. }
  simpl. rewrite read_cstr_app by (unfold c_str; apply take_cstr_no_nul).
  unfold c_str. by rewrite take_cstr_id, string_of_list_ascii_of_string.
Qed.

(** C28: the quote of [get_fill_cost] is the price of the trade it announces.  On
    a well-formed book, a market order of the asked quantity on the other side
    is accepted, and [get_fill_cost] returns exactly the total value of the
    trades it makes ([nullopt] when the side is empty), as long as that value and
    the quantity of each level fit an [int]. *)
Theorem fill_cost_predicts lob events calls id q side broker :
  env_ok env -> book_wf lob -> levels_bounded (get_side lob side) ->
  order_ok lob id (market_price (opposite side)) q broker ->
  exists lob' ts calls',
    add_order env lob events calls id (market_price (opposite side)) q (opposite side) broker
      = Ok (lob', events ++ ts, calls') /\
    (sumZ trade_value ts <= INT_MAX ->
     get_fill_cost lob q side =
       Ok (if is_nil (get_side lob side) then None else Some (sumZ trade_value ts))).
Proof.
  intros Henv Hwf Hb Hok.
  destruct (add_order_correct env Henv lob events calls _ _ _ (opposite side) _ Hwf Hok)
    as (lob' & ts & fs & left & Hadd & Hm & _ & HF & _).
  exists lob', ts, (calls + length ts)%nat. split; [done|].
  rewrite (fills_value_trades _ _ _ _ _ _ HF). rewrite opposite_involutive in Hm.
  by eapply get_fill_cost_ok; [..|exact Hm]; [| |apply (ok_quantity _ _ _ _ _ Hok)].
Qed.

(** A snapshot of a well-formed book whose ticker has at most three
    characters and whose level quantities fit an [int] is returned without
    error: it holds the ticker, and for each side the aggregates of its best 50
    levels, best first, followed by zeros. *)
Theorem snapshot_correct lob now :
  book_wf lob -> (strlen (lob_ticker lob) <= 3)%nat ->
  levels_bounded (lob_bids lob) -> levels_bounded (lob_asks lob) ->
  exists top, get_top_order_book_level_aggregate lob now = Ok top /\
    read_cstr (top_ticker top) = Ok (lob_ticker lob) /\
    top_bids top = side_view lob bid /\ top_asks top = side_view lob ask /\
    top_create_timestamp top = now.
Proof.
  intros Hwf H3 Hb Ha. unfold get_top_order_book_level_aggregate.
  destruct (snapshot_ctor_short (lob_ticker lob) now (bw_ticker _ Hwf) H3) as (t & -> & Ht).
  cbn [mbind res_bind top_bids top_asks].
  rewrite (fill_aggregates_ok lob bid Hwf Hb). cbn [mbind res_bind].
  rewrite (fill_aggregates_ok lob ask Hwf Ha). cbn [mbind res_bind]. eauto 6.
Qed.

(** A snapshot of a book whose ticker has exactly four characters (the most
    that [trade.h] and the length assertion admit) writes past the end of the
    ticker array. *)
Theorem snapshot_four_char_ticker lob now :
  strlen (lob_ticker lob) = 4%nat ->
  get_top_order_book_level_aggregate lob now = Err OutOfBounds.
Proof.
  intros H4. unfold get_top_order_book_level_aggregate, TopOrderBookLevelAggregates_ctor.
  rewrite H4. simpl. unfold memcpy, set_char.
  assert (length (c_str (lob_ticker lob)) = 4%nat) as Hl by done.
  rewrite Hl. simpl. by rewrite length_app, Hl.
Qed.

Lemma best_far_order lob side n rest :
  book_wf lob -> queue (opposite side) (get_side lob (opposite side)) = n :: rest ->
  exists p ns, best_level side (get_side lob (opposite side)) = Some (p, n :: ns) /\
    o_price (n_order n) = p /\ 0 < p.
Proof.
  intros Hwf. rewrite best_level_prio. unfold queue.
  pose proof (levels_wf_prio lob (opposite side) Hwf) as Hlw.
  destruct (prio _ _) as [|[p ns] tl]; simpl; [done|].
  apply Forall_cons in Hlw as [([? _] & Hne & HF) _]. simpl in *.
  destruct ns as [|n' ns]; simpl; [done|]. intros [= -> _].
  apply Forall_cons in HF as [[? _] _]. eauto.
Qed.

Lemma create_trade_long_taker n toid moid taker maker ticker price q side :
  (MAX_USERNAME_LENGTH <= strlen taker)%nat -> 0 <= toid -> 0 <= moid -> toid <> moid ->
  fits MAX_TICKER_LENGTH ticker = true -> fits MAX_USERNAME_LENGTH maker = true ->
  0 < price -> 0 < q -> length (env_uuid env n) = 16%nat ->
  create_trade env n toid moid taker maker ticker price q side = Err AssertionFailed.
Proof.
  intros Hl ??? Ht Hm ?? Hu. unfold create_trade.
  rewrite (fits_nonempty _ _ Ht), (fits_nonempty _ _ Hm).
  rewrite !(proj2 (Z.leb_le _ _)), !(proj2 (Z.ltb_lt _ _)), (proj2 (Z.eqb_neq _ _)) by lia.
  assert (String.eqb taker "" = false) as ->
    by (destruct taker; [unfold MAX_USERNAME_LENGTH, strlen in Hl; simpl in Hl; lia|done]).
  cbn [check negb mbind res_bind]. unfold Trade_ctor.
  destruct (copy_field_fits _ _ Ht) as (a & -> & _). cbn [mbind res_bind].
  destruct (copy_field_fits _ _ (format_uuid_fits _ Hu)) as (b & -> & _). cbn [mbind res_bind].
  by rewrite (copy_field_overlong _ taker) by lia.
Qed.

(** An order of a trader whose name has 16 characters or more aborts the
    engine as soon as it matches.  The contract of [add_order] accepts it, but
    when it crosses the best order of the other side an assertion of [Trade]'s
    constructor fails. *)
Theorem long_name_aborts lob events calls id price q side broker n rest :
  env_ok env -> book_wf lob -> 0 <= id -> lob_order_id_map lob !! id = None ->
  0 < price -> 0 < q <= INT_MAX ->
  (MAX_USERNAME_LENGTH <= strlen broker)%nat ->
  queue (opposite side) (get_side lob (opposite side)) = n :: rest ->
  crosses side price (o_price (n_order n)) = true ->
  add_order env lob events calls id price q side broker = Err AssertionFailed.
Proof.
  intros Henv Hwf Hid Hfr Hp Hq Hl Hqu Hc. unfold add_order.
  rewrite (proj2 (Z.leb_le 0 id)), Hfr, (proj2 (Z.ltb_lt 0 q)), (proj2 (Z.ltb_lt 0 price)) by lia.
  rewrite orb_true_r, bool_decide_eq_false_2 by (by intros []).
  assert (String.eqb broker "" = false) as ->
    by (destruct broker; [unfold MAX_USERNAME_LENGTH, strlen in Hl; simpl in Hl; lia|done]).
  cbn [check negb mbind res_bind].
  destruct (best_far_order lob side n rest Hwf Hqu) as (p & ns & Hbl & Hnp & Hp0).
  assert (n ∈ queue (opposite side) (get_side lob (opposite side))) as Hin by (rewrite Hqu; left).
  destruct (side_wf_node _ _ _ (book_side_wf lob (opposite side) Hwf) Hin) as (_ & _ & ? & ? & Hf).
  assert (o_order_id (n_order n) <> id) as Hne.
  { intros <-. apply (book_fresh_ids lob (opposite side) _ Hwf Hfr). unfold orders_of.
    rewrite map_map. by apply (list_elem_of_fmap_2 (fun x => o_order_id (n_order x))). }
  assert (forall near next ms, match_order env (lob_ticker lob) near (get_side lob (opposite side))
    price q id side broker next ms = Err AssertionFailed) as Hmo.
  { intros near next ms. unfold match_order.
    destruct (length (get_side lob (opposite side))) as [|fuel] eqn:Elen.
    { apply nil_length_inv in Elen. rewrite Elen in Hbl. by destruct side. }
    simpl. rewrite Hbl, <- Hnp, Hc, (proj2 (Z.ltb_lt 0 q)) by lia. simpl.
    rewrite (proj2 (Z.ltb_lt 0 q)) by lia.
    assert (forall k, 0 < k -> create_trade env (ms_calls ms) id (o_order_id (n_order n)) broker
      (o_trader_id (n_order n)) (lob_ticker lob) (o_price (n_order n)) k side = Err AssertionFailed)
      as Hct by (intros; apply create_trade_long_taker; try done; try lia;
                 [by apply bw_ticker|apply Henv]).
    destruct (_ <=? q) eqn:Hle.
    - unfold sub32. rewrite i32_ok by (unfold INT_MIN, INT_MAX in *; lia). simpl.
      by rewrite Hct by lia.
    - unfold fill. rewrite (proj2 (Z.leb_le _ _)) by lia. simpl. unfold sub32.
      rewrite i32_ok by (unfold INT_MIN, INT_MAX in *; lia). simpl. by rewrite Hct by lia. }
  destruct side; simpl in *; by rewrite Hmo.
Qed.
End Queries.

(** ** The theorems on the concrete book *)
Lemma sample_bounded side : levels_bounded (get_side sample_book side).
Proof. destruct side; repeat (constructor; [simpl; unfold INT_MAX; vm_compute; discriminate|]); constructor. Qed.

Lemma market_order_ok : order_ok sample_book 9 MARKET_BID_ORDER_PRICE 20 "erin".
Proof.
  split; [lia|by vm_compute| | |by vm_compute]; unfold MARKET_BID_ORDER_PRICE, INT_MAX; lia.
Qed.

(** 10 and 7 at 100, then 3 at 105. *)
Lemma fill_cost_predicts_witness :
  exists lob' ts calls',
    add_order sample_env sample_book [] 0 9 (market_price (opposite ask)) 20 (opposite ask) "erin"
      = Ok (lob', [] ++ ts, calls') /\
    (sumZ trade_value ts <= INT_MAX ->
     get_fill_cost sample_book 20 ask =
       Ok (if is_nil (get_side sample_book ask) then None else Some (sumZ trade_value ts))).
Proof.
  apply (fill_cost_predicts sample_env sample_book [] 0 9 20 ask "erin");
    [exact sample_env_ok|exact sample_book_wf|exact (sample_bounded ask)|exact market_order_ok].
Defined.

Example sample_quote : get_fill_cost sample_book 20 ask = Ok (Some 2015).
Proof. by vm_compute. Qed.

Lemma snapshot_correct_witness :
  exists top, get_top_order_book_level_aggregate sample_book 7 = Ok top /\
    read_cstr (top_ticker top) = Ok (lob_ticker sample_book) /\
    top_bids top = side_view sample_book bid /\ top_asks top = side_view sample_book ask /\
    top_create_timestamp top = 7.
Proof.
  apply (snapshot_correct sample_book 7);
    [exact sample_book_wf|vm_compute; lia|exact (sample_bounded bid)|exact (sample_bounded ask)].
Defined.

Lemma snapshot_four_char_ticker_witness :
  get_top_order_book_level_aggregate (new_book "AAPL" ([] : list Trade)) 7 = Err OutOfBounds.
Proof. apply (snapshot_four_char_ticker (new_book "AAPL" ([] : list Trade)) 7). reflexivity. Defined.

Lemma long_name_aborts_witness :
  add_order sample_env sample_book [] 0 9 103 12 bid "a_name_of_16_chr" = Err AssertionFailed.
Proof.
  apply (long_name_aborts sample_env sample_book [] 0 9 103 12 bid "a_name_of_16_chr" alice_ask
           [bob_ask; carol_ask]);
    [exact sample_env_ok|exact sample_book_wf|lia|reflexivity|lia|unfold INT_MAX; lia
    |vm_compute; lia|reflexivity|reflexivity].
Defined.
