(* ===== verification/RingBuffer.v ===== *)
(** * The shared-memory ring buffer

    [libs/inter_process/mpsc_shared_memory_ring_buffer.h] and the publisher over
    it ([services/matching_engine/src/shared_memory_publisher.h]).  Any number of
    producers and one consumer share the memory; [std::size_t] wraps at 64 bits.

    The first part models each method as one thread runs it; the second part
    splits the methods at their accesses to shared memory and interleaves the
    threads.  Atomic accesses are taken as sequentially consistent: the effect
    of the weaker orders that the code asks for is not modelled. *)

From S2P Require Import Prelude Core LimitOrderBook.
From Stdlib Require Import ZArith Lia.
From stdpp Require Import base option list relations.

Open Scope Z_scope.

Record Slot (T : Type) := mkSlot { sequence : Z; data : option T }.
Arguments mkSlot {T} _ _.
Arguments sequence {T} _.
Arguments data {T} _.

Record MpscRingBuffer (T : Type) := mkRing {
  initialized_ : Z;
  head_ : Z;
  tail_ : Z;
  slots_ : Z -> Slot T
}.
Arguments mkRing {T} _ _ _ _.
Arguments initialized_ {T} _.
Arguments head_ {T} _.
Arguments tail_ {T} _.
Arguments slots_ {T} _ _.

Definition magic_number : Z := 0xDEADBEEF12345678.

Section Methods.
Context {T : Type} (capacity : Z).
Implicit Types (r : MpscRingBuffer T).

(** The static assertions on the capacity. *)
Definition capacity_ok : bool := (Z.land capacity (capacity - 1) =? 0) && (0 <? capacity).

Definition mask : Z := capacity - 1.
Definition slot_index (position : Z) : Z := Z.land position mask.

Definition upd (slots : Z -> Slot T) (i : Z) (s : Slot T) : Z -> Slot T :=
  fun j => if j =? i then s else slots j.

Definition set_sequence (slots : Z -> Slot T) (i seq : Z) : Z -> Slot T :=
  upd slots i (mkSlot seq (data (slots i))).
Definition set_data (slots : Z -> Slot T) (i : Z) (v : T) : Z -> Slot T :=
  upd slots i (mkSlot (sequence (slots i)) (Some v)).

(** [slots_[i].sequence.store(i)] for the [n] first slots. *)
Fixpoint init_slots (n : nat) (slots : Z -> Slot T) : Z -> Slot T :=
  match n with
  | O => slots
  | S n' => set_sequence (init_slots n' slots) (Z.of_nat n') (Z.of_nat n')
  end.

Definition init r : MpscRingBuffer T :=
  mkRing magic_number 0 0 (init_slots (Z.to_nat capacity) (slots_ r)).

Definition destroy r : MpscRingBuffer T := mkRing 0 (head_ r) (tail_ r) (slots_ r).

Definition is_initialized r : bool := initialized_ r =? magic_number.

(** The end of [create] and [open_exist_shm], once the memory is mapped. *)
Definition attach r : MpscRingBuffer T := if is_initialized r then r else init r.

(** [static_cast<std::intptr_t>(seq) - static_cast<std::intptr_t>(position)]. *)
Definition difference_of (seq position : Z) : res Z := i64 (to_i64 seq - to_i64 position).

(** [try_push] when no other thread runs; the loop's fuel is the number of
    times the position may be loaded again. *)
Fixpoint try_push_loop (fuel : nat) r (value : T) (position : Z) : res (MpscRingBuffer T * bool) :=
  let i := slot_index position in
  diff ← difference_of (sequence (slots_ r i)) position;
  if diff =? 0 then
    if head_ r =? position then
      let slots := set_data (slots_ r) i value in
      Ok (mkRing (initialized_ r) (u64 (position + 1)) (tail_ r)
            (set_sequence slots i (u64 (position + 1))), true)
    else match fuel with O => Err OutOfFuel | S f => try_push_loop f r value (head_ r) end
  else if diff <? 0 then Ok (r, false)
  else match fuel with O => Err OutOfFuel | S f => try_push_loop f r value (head_ r) end.

Definition try_push r (value : T) : res (MpscRingBuffer T * bool) :=
  try_push_loop 0 r value (head_ r).

Definition try_pop r : res (MpscRingBuffer T * option T) :=
  let position := tail_ r in
  let i := slot_index position in
  diff ← difference_of (sequence (slots_ r i)) (u64 (position + 1));
  if diff <? 0 then Ok (r, None)
  else
    let result := data (slots_ r i) in
    Ok (mkRing (initialized_ r) (head_ r) (u64 (position + 1))
          (set_sequence (slots_ r) i (u64 (position + capacity))), result).

Definition empty r : bool := head_ r =? tail_ r.
Definition size r : Z := u64 (head_ r - tail_ r).
End Methods.

(** [SharedMemoryPublisher::try_publish]; a push that does not return leaves the
    buffer as it is. *)
Definition shared_memory_publish {T} (capacity : Z) (r : MpscRingBuffer T) (msg : T)
    : MpscRingBuffer T * bool :=
  match try_push capacity r msg with Ok x => x | Err _ => (r, false) end.

(** ** Positions and slots *)
Section Index.
Variable k : Z.
Hypothesis Hk : 0 <= k.
Abbreviation cap := (2 ^ k).

Lemma cap_pos : 0 < cap.
Proof. apply Z.pow_pos_nonneg; lia. Qed.

Lemma slot_index_mod p : slot_index cap p = p mod cap.
Proof.
  unfold slot_index, mask. replace (cap - 1) with (Z.ones k) by (rewrite Z.ones_equiv; lia).
  by apply Z.land_ones.
Qed.

Lemma capacity_pow_ok : capacity_ok cap = true.
Proof.
  unfold capacity_ok. pose proof cap_pos. pose proof (slot_index_mod cap) as Hm.
  unfold slot_index, mask in Hm. rewrite Hm, Z.mod_same by lia. simpl. lia.
Qed.

(** Two positions of one window of [cap] positions have different slots. *)
Lemma slot_index_inj p q : Z.abs (p - q) < cap -> slot_index cap p = slot_index cap q -> p = q.
Proof.
  rewrite !slot_index_mod. intros Hw Heq. pose proof cap_pos as Hc.
  pose proof (Z.div_mod p cap ltac:(lia)). pose proof (Z.div_mod q cap ltac:(lia)).
  assert (p - q = cap * (p / cap - q / cap)) as Hd by lia.
  assert (p / cap - q / cap = 0) by nia. lia.
Qed.

Lemma slot_index_shift p : slot_index cap (p + cap) = slot_index cap p.
Proof.
  rewrite !slot_index_mod. pose proof cap_pos.
  rewrite <- (Z.mul_1_l cap) at 1. by rewrite Z.mod_add by lia.
Qed.
End Index.

Lemma u64_small z : 0 <= z < 2 ^ 64 -> u64 z = z.
Proof. intros. unfold u64. by rewrite Z.mod_small. Qed.

Lemma difference_small a b : 0 <= a < 2 ^ 63 -> 0 <= b < 2 ^ 63 -> difference_of a b = Ok (a - b).
Proof.
  intros Ha Hb. unfold difference_of, to_i64. rewrite !u64_small by lia.
  rewrite !(proj2 (Z.ltb_lt _ _)) by lia. apply i64_ok. unfold INT64_MIN, INT64_MAX. lia.
Qed.

(** ** One thread: a bounded queue *)
Section Sequential.
Context {T : Type} (k : Z).
Hypothesis Hk : 1 <= k <= 32.
Abbreviation cap := (2 ^ k).
Implicit Types (r : MpscRingBuffer T) (l : list T).

(** The buffer holds [l], oldest first. *)
Record ring_rep r l : Prop := {
  rr_tail : 0 <= tail_ r;
  rr_head : head_ r = tail_ r + Z.of_nat (length l);
  rr_size : Z.of_nat (length l) <= cap;
  rr_used : forall i v, l !! i = Some v ->
    slots_ r (slot_index cap (tail_ r + Z.of_nat i)) = mkSlot (tail_ r + Z.of_nat i + 1) (Some v);
  rr_free : forall p, head_ r <= p < tail_ r + cap -> sequence (slots_ r (slot_index cap p)) = p
}.

(** Positions below this never reach the sign bit; at a billion messages a second
    they last for more than a century. *)
Definition far_from_wrap r : Prop := head_ r < 2 ^ 62.

Lemma cap_bounds : 2 <= cap <= 2 ^ 32.
Proof. split; [change 2 with (2 ^ 1) at 1|]; apply Z.pow_le_mono_r; lia. Qed.

Lemma upd_eq (slots : Z -> Slot T) i s : upd slots i s i = s.
Proof. unfold upd. by rewrite Z.eqb_refl. Qed.
Lemma upd_ne (slots : Z -> Slot T) i j s : j <> i -> upd slots i s j = slots j.
Proof. unfold upd. intros. by rewrite (proj2 (Z.eqb_neq _ _)). Qed.

Lemma slot_ne p q : p <> q -> Z.abs (p - q) < cap -> slot_index cap p <> slot_index cap q.
Proof. intros Hne Hw Heq. apply Hne. apply (slot_index_inj k ltac:(lia) p q Hw Heq). Qed.

Lemma try_push_free r l v :
  ring_rep r l -> far_from_wrap r -> Z.of_nat (length l) < cap ->
  exists r', try_push cap r v = Ok (r', true) /\ ring_rep r' (l ++ [v]).
Proof.
  intros [Ht Hh Hs Hu Hf] Hw Hlt. pose proof cap_bounds. unfold far_from_wrap in Hw.
  unfold try_push. simpl. rewrite Hf, difference_small by lia. simpl.
  rewrite Z.sub_diag, !Z.eqb_refl. simpl. eexists. split; [done|].
  rewrite u64_small by lia. set (h := head_ r) in *.
  split; simpl; rewrite ?length_app; simpl; try lia.
  - intros i w Hi. destruct (decide (i = length l)) as [->|Hne].
    + rewrite lookup_app_r, Nat.sub_diag in Hi by lia. injection Hi as <-.
      rewrite <- Hh. unfold set_sequence, set_data. by rewrite !upd_eq.
    + assert (i < length l)%nat as Hlt' by (apply lookup_lt_Some in Hi; rewrite length_app in Hi; simpl in Hi; lia).
      rewrite lookup_app_l in Hi by lia. unfold set_sequence, set_data.
      rewrite !upd_ne by (apply slot_ne; lia). by apply Hu.
  - intros p Hp. unfold set_sequence, set_data. rewrite !upd_ne by (apply slot_ne; lia).
    apply Hf. lia.
Qed.

Lemma try_push_full r l v :
  ring_rep r l -> far_from_wrap r -> Z.of_nat (length l) = cap -> try_push cap r v = Ok (r, false).
Proof.
  intros [Ht Hh Hs Hu Hf] Hw Hfull. pose proof cap_bounds. unfold far_from_wrap in Hw.
  destruct l as [|x l]; [simpl in Hfull; lia|]. pose proof (Hu 0%nat x eq_refl) as Hx.
  rewrite Z.add_0_r in Hx. unfold try_push. simpl.
  rewrite Hh, Hfull, slot_index_shift, Hx by lia. simpl. rewrite difference_small by lia. simpl.
  rewrite (proj2 (Z.eqb_neq _ _)), (proj2 (Z.ltb_lt _ _)) by lia. done.
Qed.

Lemma try_pop_empty r : ring_rep r [] -> far_from_wrap r -> try_pop cap r = Ok (r, None).
Proof.
  intros [Ht Hh Hs Hu Hf] Hw. pose proof cap_bounds. unfold far_from_wrap in Hw. simpl in *.
  unfold try_pop. rewrite u64_small, Hf, difference_small by lia. simpl.
  by rewrite (proj2 (Z.ltb_lt _ _)) by lia.
Qed.

Lemma try_pop_first r v l :
  ring_rep r (v :: l) -> far_from_wrap r ->
  exists r', try_pop cap r = Ok (r', Some v) /\ ring_rep r' l /\ head_ r' = head_ r.
Proof.
  intros [Ht Hh Hs Hu Hf] Hw. pose proof cap_bounds. unfold far_from_wrap in Hw. simpl in *.
  pose proof (Hu 0%nat v eq_refl) as Hv. rewrite Z.add_0_r in Hv. unfold try_pop.
  rewrite !u64_small, Hv by lia. simpl. rewrite difference_small, Z.sub_diag by lia. simpl.
  eexists. split; [done|]. split; [|done]. split; simpl; try lia.
  - intros i w Hi. pose proof (lookup_lt_Some _ _ _ Hi).
    unfold set_sequence. rewrite upd_ne by (apply slot_ne; lia).
    pose proof (Hu (S i) w Hi) as Hw'. rewrite Nat2Z.inj_succ in Hw'.
    replace (tail_ r + 1 + Z.of_nat i) with (tail_ r + Z.succ (Z.of_nat i)) by lia. done.
  - intros p Hp. unfold set_sequence. destruct (decide (p = tail_ r + cap)) as [->|Hne].
    + rewrite slot_index_shift, upd_eq by lia. done.
    + rewrite upd_ne by (apply slot_ne; lia). apply Hf. lia.
Qed.

Lemma init_slots_sequence n slots i :
  (0 <= i < Z.of_nat n) -> sequence (init_slots n slots i : Slot T) = i.
Proof.
  induction n as [|n IH]; intros Hi; [lia|]. simpl. unfold set_sequence.
  destruct (decide (i = Z.of_nat n)) as [->|]; [by rewrite upd_eq|].
  rewrite upd_ne by done. apply IH. lia.
Qed.

Lemma init_rep r : ring_rep (init cap r) [].
Proof.
  pose proof cap_bounds. split; simpl; try lia; [by intros i v ?|].
  intros p Hp. rewrite slot_index_mod, Z.mod_small by lia.
  apply init_slots_sequence. rewrite Z2Nat.id by lia. lia.
Qed.

(** Used by one thread at a time, the buffer is a first-in first-out queue of
    bounded size, for every capacity of at least two.  A push on a buffer that is
    not full succeeds in one pass of the loop and appends; on a full one it
    answers [false] and changes nothing.  A pop returns the oldest element, or
    nothing when there is none.  [empty] and [size] tell the truth. *)
Theorem ring_refines_queue r l :
  ring_rep r l -> far_from_wrap r ->
  (forall v, if decide (Z.of_nat (length l) < cap)
             then exists r', try_push cap r v = Ok (r', true) /\ ring_rep r' (l ++ [v])
             else try_push cap r v = Ok (r, false)) /\
  match l with
  | [] => try_pop cap r = Ok (r, None)
  | v :: l' => exists r', try_pop cap r = Ok (r', Some v) /\ ring_rep r' l'
  end /\
  empty r = bool_decide (l = []) /\ size r = Z.of_nat (length l).
Proof.
  intros Hr Hw. split; [|split; [|split]].
  - intros v. case_decide; [by apply try_push_free|]. apply (try_push_full _ l); [done..|].
    pose proof (rr_size _ _ Hr). lia.
  - destruct l as [|v l]; [by apply try_pop_empty|].
    destruct (try_pop_first _ _ _ Hr Hw) as (r' & ? & ? & _). eauto.
  - unfold empty. rewrite (rr_head _ _ Hr). case_bool_decide as Hl.
    + subst l. apply Z.eqb_eq. simpl. lia.
    + destruct l; [done|]. apply Z.eqb_neq. simpl. lia.
  - unfold size. pose proof cap_bounds. pose proof (rr_size _ _ Hr). rewrite (rr_head _ _ Hr).
    replace (tail_ r + _ - tail_ r) with (Z.of_nat (length l)) by lia. apply u64_small. lia.
Qed.
End Sequential.

(** Memory as it is mapped, before [init]. *)
Definition zero_ring {T} : MpscRingBuffer T := mkRing 0 0 0 (fun _ => mkSlot 0 None).

(** A capacity of one passes the static assertions, but then a full buffer looks
    free to a producer: the second push overwrites the first. *)
Example capacity_one_overwrites :
  capacity_ok 1 = true /\
  (r1 ← try_push 1 (init 1 zero_ring) 7; r2 ← try_push 1 r1.1 8; Ok (r1.2, r2.2, data (slots_ r2.1 0)))
    = Ok (true, true, Some 8).
Proof. by split; vm_compute. Qed.

Lemma ring_refines_queue_witness :
  (forall v : Z, if decide (Z.of_nat (length ([] : list Z)) < 2 ^ 10)
             then exists r', try_push (2 ^ 10) (init (2 ^ 10) zero_ring) v = Ok (r', true) /\
                    ring_rep 10 r' ([] ++ [v])
             else try_push (2 ^ 10) (init (2 ^ 10) zero_ring) v = Ok (init (2 ^ 10) zero_ring, false)) /\
  try_pop (2 ^ 10) (init (2 ^ 10) (zero_ring (T := Z))) = Ok (init (2 ^ 10) zero_ring, None) /\
  empty (init (2 ^ 10) (zero_ring (T := Z))) = bool_decide (([] : list Z) = []) /\
  size (init (2 ^ 10) (zero_ring (T := Z))) = Z.of_nat (length ([] : list Z)).
Proof.
  apply (ring_refines_queue 10 (ltac:(lia)) (init (2 ^ 10) zero_ring) []);
    [apply init_rep; lia|unfold far_from_wrap; simpl; lia].
Defined.
