(* ===== verification/RingConcurrent.v ===== *)
(** * The ring buffer under concurrency

    The methods of [MpscRingBuffer] split at each access to shared memory, with
    any number of producers and one consumer interleaved at will.
    [compare_exchange_weak] may fail although the head did not move.  The
    invariant says which slots are free, claimed by a producer that has not
    published yet, and full, and what each thread may still believe. *)

From S2P Require Import Prelude Core LimitOrderBook RingBuffer.
From Stdlib Require Import ZArith Lia.
From stdpp Require Import base option list relations.

Open Scope Z_scope.

(** Where a producer is inside [try_push]. *)
Inductive producer (T : Type) :=
  | PIdle
  | PLoadSeq (value : T) (position : Z)          (** about to load [slot.sequence] *)
  | PDecide (value : T) (position seq : Z)       (** about to test the difference *)
  | PWrite (value : T) (position : Z)            (** won the position, about to write [slot.data] *)
  | PPublish (value : T) (position : Z).         (** about to store [slot.sequence] *)
Arguments PIdle {T}.
Arguments PLoadSeq {T} _ _.
Arguments PDecide {T} _ _ _.
Arguments PWrite {T} _ _.
Arguments PPublish {T} _ _.

(** Where the consumer is inside [try_pop]. *)
Inductive consumer (T : Type) :=
  | CIdle
  | CLoadSeq (position : Z)
  | CDecide (position seq : Z)
  | CRead (position : Z)
  | CStoreSeq (position : Z) (result : option T)
  | CStoreTail (position : Z) (result : option T).
Arguments CIdle {T}.
Arguments CLoadSeq {T} _.
Arguments CDecide {T} _ _.
Arguments CRead {T} _.
Arguments CStoreSeq {T} _ _.
Arguments CStoreTail {T} _ _.

(** The memory, the threads, and two histories: the values pushed in the order of
    the successful [compare_exchange_weak]s, the results of the pops. *)
Record system (T : Type) := mkSystem {
  ring : MpscRingBuffer T;
  producers : nat -> producer T;
  the_consumer : consumer T;
  pushed : list T;
  popped : list (option T)
}.
Arguments mkSystem {T} _ _ _ _ _.
Arguments ring {T} _.
Arguments producers {T} _ _.
Arguments the_consumer {T} _.
Arguments pushed {T} _.
Arguments popped {T} _.

Section Steps.
Context {T : Type} (cap : Z).
Implicit Types (r : MpscRingBuffer T) (ps : nat -> producer T) (c : consumer T).

Definition set_producer ps (i : nat) (st : producer T) : nat -> producer T :=
  fun j => if Nat.eqb j i then st else ps j.

Definition with_head r (h : Z) := mkRing (initialized_ r) h (tail_ r) (slots_ r).
Definition with_tail r (t : Z) := mkRing (initialized_ r) (head_ r) t (slots_ r).
Definition with_slots r (s : Z -> Slot T) := mkRing (initialized_ r) (head_ r) (tail_ r) s.

Definition seq_at r (position : Z) : Z := sequence (slots_ r (slot_index cap position)).

(** One access of producer [i]: the memory, the thread and the pushed values. *)
Inductive pstep : MpscRingBuffer T -> list T -> producer T ->
                  MpscRingBuffer T -> list T -> producer T -> Prop :=
  | p_call r l v : pstep r l PIdle r l (PLoadSeq v (head_ r))
  | p_load r l v pos : pstep r l (PLoadSeq v pos) r l (PDecide v pos (seq_at r pos))
  | p_won r l v pos seq :
      difference_of seq pos = Ok 0 -> head_ r = pos ->
      pstep r l (PDecide v pos seq) (with_head r (u64 (pos + 1))) (l ++ [v]) (PWrite v pos)
  | p_lost r l v pos seq :
      difference_of seq pos = Ok 0 -> pstep r l (PDecide v pos seq) r l (PLoadSeq v (head_ r))
  | p_full r l v pos seq d :
      difference_of seq pos = Ok d -> d < 0 -> pstep r l (PDecide v pos seq) r l PIdle
  | p_behind r l v pos seq d :
      difference_of seq pos = Ok d -> 0 < d -> pstep r l (PDecide v pos seq) r l (PLoadSeq v (head_ r))
  | p_write r l v pos :
      pstep r l (PWrite v pos) (with_slots r (set_data (slots_ r) (slot_index cap pos) v)) l
        (PPublish v pos)
  | p_publish r l v pos :
      pstep r l (PPublish v pos)
        (with_slots r (set_sequence (slots_ r) (slot_index cap pos) (u64 (pos + 1)))) l PIdle.

(** One access of the consumer: the memory, the thread and the popped values. *)
Inductive cstep : MpscRingBuffer T -> list (option T) -> consumer T ->
                  MpscRingBuffer T -> list (option T) -> consumer T -> Prop :=
  | c_call r l : cstep r l CIdle r l (CLoadSeq (tail_ r))
  | c_load r l pos : cstep r l (CLoadSeq pos) r l (CDecide pos (seq_at r pos))
  | c_empty r l pos seq d :
      difference_of seq (u64 (pos + 1)) = Ok d -> d < 0 -> cstep r l (CDecide pos seq) r l CIdle
  | c_ready r l pos seq d :
      difference_of seq (u64 (pos + 1)) = Ok d -> 0 <= d -> cstep r l (CDecide pos seq) r l (CRead pos)
  | c_read r l pos :
      cstep r l (CRead pos) r l (CStoreSeq pos (data (slots_ r (slot_index cap pos))))
  | c_release r l pos x :
      cstep r l (CStoreSeq pos x)
        (with_slots r (set_sequence (slots_ r) (slot_index cap pos) (u64 (pos + cap)))) l
        (CStoreTail pos x)
  | c_advance r l pos x :
      cstep r l (CStoreTail pos x) (with_tail r (u64 (pos + 1))) (l ++ [x]) CIdle.

Inductive step : system T -> system T -> Prop :=
  | step_producer r ps c l o i r' l' st' :
      pstep r l (ps i) r' l' st' ->
      step (mkSystem r ps c l o) (mkSystem r' (set_producer ps i st') c l' o)
  | step_consumer r ps c l o r' o' c' :
      cstep r o c r' o' c' ->
      step (mkSystem r ps c l o) (mkSystem r' ps c' l o').

Definition start : system T := mkSystem (init cap zero_ring) (fun _ => PIdle) CIdle [] [].
End Steps.

Section Invariant.
Context {T : Type} (k : Z).
Hypothesis Hk : 1 <= k <= 32.
Abbreviation cap := (2 ^ k).
Abbreviation idx := (slot_index (2 ^ k)).
Implicit Types (r : MpscRingBuffer T) (ps : nat -> producer T) (c : consumer T).

(** The first position whose slot the consumer has not given back. *)
Definition freed r c : Z := tail_ r + match c with CStoreTail _ _ => 1 | _ => 0 end.

(** The position a producer has won and not published. *)
Definition claim (st : producer T) : option Z :=
  match st with PWrite _ p | PPublish _ p => Some p | _ => None end.

Definition slot_at r (p : Z) : Slot T := slots_ r (idx p).
#[local] Arguments slot_at : simpl never.

Definition full_slot r (l : list T) (p : Z) : Prop :=
  exists v, l !! Z.to_nat p = Some v /\ slot_at r p = mkSlot (p + 1) (Some v).

Definition producer_inv r (l : list T) (f : Z) (st : producer T) : Prop :=
  match st with
  | PIdle => True
  | PLoadSeq _ p => 0 <= p <= head_ r
  | PDecide _ p s => 0 <= p <= head_ r /\ 0 <= s <= sequence (slot_at r p)
  | PWrite v p => f <= p < head_ r /\ l !! Z.to_nat p = Some v /\ sequence (slot_at r p) = p
  | PPublish v p => f <= p < head_ r /\ l !! Z.to_nat p = Some v /\ slot_at r p = mkSlot p (Some v)
  end.

Definition consumer_inv r (l : list T) c : Prop :=
  match c with
  | CIdle => True
  | CLoadSeq p => p = tail_ r
  | CDecide p s => p = tail_ r /\ 0 <= s <= sequence (slot_at r p)
  | CRead p => p = tail_ r /\ p < head_ r /\ full_slot r l p
  | CStoreSeq p x => p = tail_ r /\ p < head_ r /\ full_slot r l p /\ x = data (slot_at r p)
  | CStoreTail p x => p = tail_ r /\ p < head_ r /\ x = l !! Z.to_nat p
  end.

Record ring_inv (s : system T) : Prop := {
  ri_head : head_ (ring s) = Z.of_nat (length (pushed s));
  ri_tail : 0 <= tail_ (ring s);
  ri_window : freed (ring s) (the_consumer s) <= head_ (ring s) <= freed (ring s) (the_consumer s) + cap;
  ri_popped : popped s = map Some (take (Z.to_nat (tail_ (ring s))) (pushed s));
  ri_seq : forall p, 0 <= sequence (slot_at (ring s) p) <= head_ (ring s) + cap;
  ri_free : forall p, head_ (ring s) <= p < freed (ring s) (the_consumer s) + cap ->
    sequence (slot_at (ring s) p) = p;
  ri_used : forall p, freed (ring s) (the_consumer s) <= p < head_ (ring s) ->
    (exists i, claim (producers s i) = Some p) \/ full_slot (ring s) (pushed s) p;
  ri_producers : forall i,
    producer_inv (ring s) (pushed s) (freed (ring s) (the_consumer s)) (producers s i);
  ri_claims : forall i j p, claim (producers s i) = Some p -> claim (producers s j) = Some p -> i = j;
  ri_consumer : consumer_inv (ring s) (pushed s) (the_consumer s)
}.

(** ** Updates *)
Lemma set_producer_eq ps i st : set_producer ps i st i = st.
Proof. unfold set_producer. by rewrite Nat.eqb_refl. Qed.
Lemma set_producer_ne ps i j st : j <> i -> set_producer ps i st j = ps j.
Proof. unfold set_producer. intros. by rewrite (proj2 (Nat.eqb_neq _ _)). Qed.

Abbreviation write_data r p v := (with_slots r (set_data (slots_ r) (idx p) v)).
Abbreviation write_seq r p s := (with_slots r (set_sequence (slots_ r) (idx p) s)).

Lemma write_data_eq r p v : slot_at (write_data r p v) p = mkSlot (sequence (slot_at r p)) (Some v).
Proof. unfold slot_at. simpl. apply upd_eq. Qed.
Lemma write_seq_eq r p s : slot_at (write_seq r p s) p = mkSlot s (data (slot_at r p)).
Proof. unfold slot_at. simpl. apply upd_eq. Qed.
Lemma write_data_ne r p q v : idx q <> idx p -> slot_at (write_data r p v) q = slot_at r q.
Proof. unfold slot_at. simpl. apply upd_ne. Qed.
Lemma write_seq_ne r p q s : idx q <> idx p -> slot_at (write_seq r p s) q = slot_at r q.
Proof. unfold slot_at. simpl. apply upd_ne. Qed.
Lemma slot_at_cong r p q : idx p = idx q -> slot_at r p = slot_at r q.
Proof. unfold slot_at. congruence. Qed.

Lemma write_data_seq r p q v : sequence (slot_at (write_data r p v) q) = sequence (slot_at r q).
Proof.
  destruct (decide (idx q = idx p)) as [E|E]; [|by rewrite write_data_ne].
  rewrite !(slot_at_cong _ _ _ E). by rewrite write_data_eq.
Qed.

(** A store that raises one sequence number lowers none. *)
Lemma write_seq_mono r p q s :
  sequence (slot_at r p) <= s -> sequence (slot_at r q) <= sequence (slot_at (write_seq r p s) q).
Proof.
  intros Hs. destruct (decide (idx q = idx p)) as [E|E]; [|by rewrite write_seq_ne].
  rewrite !(slot_at_cong _ _ _ E), write_seq_eq. done.
Qed.

Lemma write_seq_bound r p q s b :
  0 <= s <= b -> 0 <= sequence (slot_at r q) <= b -> 0 <= sequence (slot_at (write_seq r p s) q) <= b.
Proof.
  intros Hs Hq. destruct (decide (idx q = idx p)) as [E|E]; [|by rewrite write_seq_ne].
  by rewrite (slot_at_cong _ _ _ E), write_seq_eq.
Qed.

(** ** Preservation, step by step *)
Section Preserve.
Context r ps c (l : list T) (o : list (option T)).
Hypothesis Hinv : ring_inv (mkSystem r ps c l o).

Lemma window_apart p q :
  freed r c <= p < freed r c + cap -> freed r c <= q < freed r c + cap -> p <> q -> idx p <> idx q.
Proof. intros. apply (slot_ne k Hk); lia. Qed.

(** Steps of a producer that has claimed nothing and claims nothing. *)
Lemma inv_local_producer i st' :
  claim (ps i) = None -> claim st' = None -> producer_inv r l (freed r c) st' ->
  ring_inv (mkSystem r (set_producer ps i st') c l o).
Proof.
  intros Hc Hc' Hp. destruct Hinv as [? ? ? ? ? ? Hu Hps Hcl ?]. split; simpl in *; try done.
  - intros p Hpr. destruct (Hu p Hpr) as [[j Hj]|]; [|by right].
    left. exists j. rewrite set_producer_ne; congruence.
  - intros j. destruct (decide (j = i)) as [->|].
    + by rewrite set_producer_eq.
    + by rewrite set_producer_ne.
  - intros j1 j2 p. destruct (decide (j1 = i)) as [->|]; [by rewrite set_producer_eq, Hc'|].
    destruct (decide (j2 = i)) as [->|]; [by rewrite set_producer_eq, Hc'|].
    rewrite !set_producer_ne by done. apply Hcl.
Qed.

(** The head position is free when a producer saw its own number there. *)
Lemma won_is_free v s i :
  ps i = PDecide v (head_ r) s -> s = head_ r -> head_ r < freed r c + cap.
Proof.
  intros Hi ->. destruct Hinv as [? ? Hw ? ? ? Hu Hps ? ?]. simpl in *.
  pose proof (Hps i) as Hp. rewrite Hi in Hp. destruct Hp as [_ [_ Hs]].
  pose proof (cap_bounds k Hk). destruct (decide (head_ r < freed r c + cap)) as [|Hge]; [done|].
  assert (head_ r = freed r c + cap) as Hh by lia.
  assert (slot_at r (head_ r) = slot_at r (freed r c)) as Hsl
    by (apply slot_at_cong; rewrite Hh; apply slot_index_shift; lia).
  rewrite Hsl in Hs. destruct (Hu (freed r c)) as [[j Hj]|(w & _ & Hf)]; [lia| |].
  - pose proof (Hps j) as Hpj. destruct (ps j); try done; simpl in Hj; injection Hj as ->.
    + destruct Hpj as (_ & _ & Hsq). lia.
    + destruct Hpj as (_ & _ & Hsq). rewrite Hsq in Hs. simpl in Hs. lia.
  - rewrite Hf in Hs. simpl in Hs. lia.
Qed.

Lemma inv_won i v s :
  ps i = PDecide v (head_ r) s -> s = head_ r ->
  ring_inv (mkSystem (with_head r (head_ r + 1)) (set_producer ps i (PWrite v (head_ r))) c (l ++ [v]) o).
Proof.
  intros Hi Hs. pose proof (won_is_free v s i Hi Hs) as Hfree.
  destruct Hinv as [Hh Ht Hw Hpop Hsq Hf Hu Hps Hcl Hc]. simpl in *.
  pose proof (cap_bounds k Hk).
  assert (freed (with_head r (head_ r + 1)) c = freed r c) as Hfr by done.
  assert (claim (ps i) = None) as Hci by (by rewrite Hi).
  assert (forall p, p < head_ r -> 0 <= p -> (l ++ [v]) !! Z.to_nat p = l !! Z.to_nat p) as Hlk
    by (intros; apply lookup_app_l; lia).
  assert (0 <= freed r c) as Hfp by (unfold freed; destruct c; lia).
  split; cbn [ring producers the_consumer pushed popped]; rewrite ?Hfr; simpl.
  - rewrite length_app. simpl. lia.
  - done.
  - lia.
  - rewrite take_app_le; [done|]. unfold freed in *. destruct c; lia.
  - intros p. specialize (Hsq p). unfold slot_at in *. simpl. lia.
  - intros p Hp. apply Hf. lia.
  - intros p Hp. destruct (decide (p = head_ r)) as [->|].
    + left. exists i. by rewrite set_producer_eq.
    + destruct (Hu p) as [[j Hj]|(w & Hw1 & Hw2)]; [lia| |].
      * left. exists j. rewrite set_producer_ne; congruence.
      * right. exists w. rewrite Hlk by lia. done.
  - intros j. destruct (decide (j = i)) as [->|].
    + rewrite set_producer_eq. simpl. split; [lia|]. split; [|by apply Hf; lia].
      rewrite Hh, Nat2Z.id, lookup_app_r, Nat.sub_diag by lia. done.
    + rewrite set_producer_ne by done. specialize (Hps j). destruct (ps j); simpl in *; try done; try lia.
      * destruct Hps as [? ?]. split; [lia|done].
      * destruct Hps as (? & ? & ?). rewrite Hlk by lia. split; [lia|done].
      * destruct Hps as (? & ? & ?). rewrite Hlk by lia. split; [lia|done].
  - intros j1 j2 p. destruct (decide (j1 = i)) as [->|], (decide (j2 = i)) as [->|];
      rewrite ?set_producer_eq, ?set_producer_ne by done; [done| | |by apply Hcl]; simpl.
    + intros [= <-] Hj2. exfalso. specialize (Hps j2).
      destruct (ps j2); simpl in *; try done; simplify_eq; lia.
    + intros Hj1 [= <-]. exfalso. specialize (Hps j1).
      destruct (ps j1); simpl in *; try done; simplify_eq; lia.
  - destruct c; simpl in *; try done; unfold full_slot in *.
    + destruct Hc as (-> & ? & w & Hw1 & Hw2). repeat split; try lia. exists w. rewrite Hlk by lia. done.
    + destruct Hc as (-> & ? & (w & Hw1 & Hw2) & ->). repeat split; try lia.
      exists w. rewrite Hlk by lia. done.
    + destruct Hc as (-> & ? & ->). repeat split; try lia. by rewrite Hlk by lia.
Qed.

(** A claim is in the window, its slot still carries the position's number, and
    the consumer is not reading it. *)
Lemma claim_slot i p :
  claim (ps i) = Some p -> freed r c <= p < head_ r /\ sequence (slot_at r p) = p.
Proof.
  intros Hi. destruct Hinv as [_ _ _ _ _ _ _ Hps _ _]. specialize (Hps i). simpl in Hps.
  destruct (ps i); simpl in Hi; try done; injection Hi as ->; simpl in Hps.
  - destruct Hps as (? & _ & ?). done.
  - destruct Hps as (? & _ & Hs). by rewrite Hs.
Qed.

(** A full slot is nobody's claim. *)
Lemma full_not_claimed i p q : claim (ps i) = Some p -> full_slot r l q -> p <> q.
Proof.
  intros Hi (v & _ & Hs) ->. destruct (claim_slot i q Hi) as [_ Hq]. rewrite Hs in Hq. simpl in Hq. lia.
Qed.

Lemma full_slot_keep r' p q :
  (idx q <> idx p -> slot_at r' q = slot_at r q) -> idx q <> idx p ->
  full_slot r l q -> full_slot r' l q.
Proof. intros Hk' Hne (v & Hl & Hs). exists v. by rewrite Hk'. Qed.

(** The consumer's slot is not the slot of a claim. *)
Lemma consumer_apart i p q :
  claim (ps i) = Some p -> freed r c = tail_ r -> q = tail_ r -> q < head_ r -> full_slot r l q ->
  idx q <> idx p.
Proof.
  intros Hi Hfr -> Hq Hfull. pose proof (full_not_claimed i p _ Hi Hfull).
  destruct (claim_slot i p Hi) as [? _]. pose proof (ri_window _ Hinv) as Hw. simpl in Hw.
  apply window_apart; lia.
Qed.

Lemma inv_write i v p :
  ps i = PWrite v p ->
  ring_inv (mkSystem (write_data r p v) (set_producer ps i (PPublish v p)) c l o).
Proof.
  intros Hi. assert (claim (ps i) = Some p) as Hci by (by rewrite Hi).
  destruct (claim_slot i p Hci) as [Hpw Hps']. pose proof Hinv as [Hh Ht Hw Hpop Hsq Hf Hu Hps Hcl Hc].
  simpl in *. pose proof (cap_bounds k Hk).
  assert (forall q, freed r c <= q < freed r c + cap -> q <> p ->
    slot_at (write_data r p v) q = slot_at r q) as Hne.
  { intros q Hq Hqp. apply write_data_ne, window_apart; lia. }
  assert (freed (write_data r p v) c = freed r c) as Hfr by done.
  split; cbn [ring producers the_consumer pushed popped]; rewrite ?Hfr; simpl; try done.
  - intros q. rewrite write_data_seq. apply Hsq.
  - intros q Hq. rewrite write_data_seq. by apply Hf.
  - intros q Hq. destruct (decide (q = p)) as [->|Hqp].
    + left. exists i. by rewrite set_producer_eq.
    + destruct (Hu q Hq) as [[j Hj]|(w & Hw1 & Hw2)].
      * left. exists j. rewrite set_producer_ne; congruence.
      * right. exists w. rewrite Hne by lia. done.
  - intros j. destruct (decide (j = i)) as [->|Hji].
    + rewrite set_producer_eq. simpl. specialize (Hps i). rewrite Hi in Hps. destruct Hps as (? & ? & Hs).
      split; [done|]. split; [done|]. by rewrite write_data_eq, Hs.
    + rewrite set_producer_ne by done. pose proof (Hps j) as Hpj. destruct (ps j) eqn:Ej; simpl in *; try done.
      * by rewrite write_data_seq.
      * by rewrite write_data_seq.
      * destruct Hpj as (? & ? & ?). rewrite Hne; [done|lia|]. intros ->. apply Hji.
        apply (Hcl j i p); [by rewrite Ej|done].
  - intros j1 j2 q. destruct (decide (j1 = i)) as [->|], (decide (j2 = i)) as [->|];
      rewrite ?set_producer_eq, ?set_producer_ne by done; try done; simpl; intros H1 H2; apply (Hcl _ _ q);
      congruence.
  - pose proof consumer_apart as Hca. destruct c as [|q|q s|q|q x|q x]; simpl in *; try done.
    + by rewrite write_data_seq.
    + destruct Hc as (-> & ? & Hfull). do 2 (split; [done|]).
      apply (full_slot_keep _ p); [by apply write_data_ne| |done].
      apply (Hca i); try done. unfold freed. simpl. lia.
    + destruct Hc as (-> & ? & Hfull & ->).
      assert (idx (tail_ r) <> idx p) as Hap
        by (apply (Hca i); try done; unfold freed; simpl; lia).
      do 2 (split; [done|]). split; [|by rewrite write_data_ne].
      by apply (full_slot_keep _ p); [apply write_data_ne|..].
Qed.

Lemma inv_publish i v p :
  ps i = PPublish v p ->
  ring_inv (mkSystem (write_seq r p (p + 1)) (set_producer ps i PIdle) c l o).
Proof.
  intros Hi. assert (claim (ps i) = Some p) as Hci by (by rewrite Hi).
  destruct (claim_slot i p Hci) as [Hpw Hps']. pose proof Hinv as [Hh Ht Hw Hpop Hsq Hf Hu Hps Hcl Hc].
  simpl in *. pose proof (cap_bounds k Hk).
  pose proof (Hps i) as Hpi. rewrite Hi in Hpi. destruct Hpi as (_ & Hlv & Hslot).
  assert (0 <= freed r c) as Hfp by (unfold freed; destruct c; lia).
  assert (forall q, freed r c <= q < freed r c + cap -> q <> p ->
    slot_at (write_seq r p (p + 1)) q = slot_at r q) as Hne.
  { intros q Hq Hqp. apply write_seq_ne, window_apart; lia. }
  assert (forall q, sequence (slot_at r q) <= sequence (slot_at (write_seq r p (p + 1)) q)) as Hmono
    by (intros q; apply write_seq_mono; lia).
  assert (freed (write_seq r p (p + 1)) c = freed r c) as Hfr by done.
  split; cbn [ring producers the_consumer pushed popped]; rewrite ?Hfr; simpl; try done.
  - intros q. apply write_seq_bound; [lia|apply Hsq].
  - intros q Hq. rewrite Hne by lia. by apply Hf.
  - intros q Hq. destruct (decide (q = p)) as [->|Hqp].
    + right. exists v. split; [done|]. by rewrite write_seq_eq, Hslot.
    + destruct (Hu q Hq) as [[j Hj]|(w & Hw1 & Hw2)].
      * left. exists j. rewrite set_producer_ne; congruence.
      * right. exists w. rewrite Hne by lia. done.
  - intros j. destruct (decide (j = i)) as [->|Hji]; [by rewrite set_producer_eq|].
    rewrite set_producer_ne by done. pose proof (Hps j) as Hpj.
    assert (claim (ps j) <> Some p) as Hcj by (intros ?; apply Hji; by apply (Hcl j i p)).
    destruct (ps j) as [| |w q s|w q|w q] eqn:Ej; simpl in *; try done.
    + specialize (Hmono q). split; [tauto|lia].
    + destruct Hpj as (? & ? & ?). rewrite Hne; [done|lia|congruence].
    + destruct Hpj as (? & ? & ?). rewrite Hne; [done|lia|congruence].
  - intros j1 j2 q. destruct (decide (j1 = i)) as [->|], (decide (j2 = i)) as [->|];
      rewrite ?set_producer_eq, ?set_producer_ne by done; try done. apply Hcl.
  - pose proof consumer_apart as Hca. destruct c as [|q|q s|q|q x|q x]; simpl in *; try done.
    + specialize (Hmono q). split; [tauto|lia].
    + destruct Hc as (-> & ? & Hfull). do 2 (split; [done|]).
      apply (full_slot_keep _ p); [by apply write_seq_ne| |done].
      apply (Hca i); try done. unfold freed. simpl. lia.
    + destruct Hc as (-> & ? & Hfull & ->).
      assert (idx (tail_ r) <> idx p) as Hap
        by (apply (Hca i); try done; unfold freed; simpl; lia).
      do 2 (split; [done|]). split; [|by rewrite write_seq_ne].
      by apply (full_slot_keep _ p); [apply write_seq_ne|..].
Qed.

(** Steps of the consumer that give no slot back. *)
Lemma inv_local_consumer c' :
  freed r c' = freed r c -> consumer_inv r l c' -> ring_inv (mkSystem r ps c' l o).
Proof.
  intros Hfr Hc'. destruct Hinv as [? ? Hw ? ? Hf Hu Hps ? ?].
  split; cbn [ring producers the_consumer pushed popped] in *; rewrite ?Hfr; done.
Qed.

(** What the consumer sees at a published position. *)
Lemma ready_is_full s :
  c = CDecide (tail_ r) s -> tail_ r + 1 <= s -> tail_ r < head_ r /\ full_slot r l (tail_ r).
Proof.
  intros Ec Hs. pose proof (cap_bounds k Hk).
  destruct Hinv as [Hh Ht Hw _ _ Hf Hu _ _ Hc]. simpl in *.
  assert (freed r c = tail_ r) as Hfr by (subst c; unfold freed; simpl; lia). rewrite Ec in Hc.
  destruct Hc as [_ Hle]. assert (tail_ r < head_ r) as Hlt.
  { destruct (decide (tail_ r < head_ r)); [done|]. rewrite Hf in Hle by lia. lia. }
  split; [done|]. destruct (Hu (tail_ r)) as [[i Hi]|]; [lia| |done].
  destruct (claim_slot i _ Hi) as [_ ?]. lia.
Qed.

Lemma inv_release x :
  c = CStoreSeq (tail_ r) x ->
  ring_inv (mkSystem (write_seq r (tail_ r) (tail_ r + cap)) ps (CStoreTail (tail_ r) x) l o).
Proof.
  intros Ec. pose proof (cap_bounds k Hk). pose proof Hinv as [Hh Ht Hw Hpop Hsq Hf Hu Hps Hcl Hc].
  simpl in *. assert (freed r c = tail_ r) as Hfr by (subst c; unfold freed; simpl; lia).
  rewrite Ec in Hc. destruct Hc as (_ & Hlt & Hfull & Hx). set (t := tail_ r) in *.
  destruct Hfull as (v & Hlv & Hslot). rewrite Hfr in *.
  assert (forall q, t <= q < t + cap -> q <> t -> slot_at (write_seq r t (t + cap)) q = slot_at r q) as Hne.
  { intros q Hq Hqt. apply write_seq_ne, window_apart; rewrite ?Hfr; lia. }
  assert (forall q, sequence (slot_at r q) <= sequence (slot_at (write_seq r t (t + cap)) q)) as Hmono
    by (intros q; apply write_seq_mono; rewrite Hslot; simpl; lia).
  assert (forall i p, claim (ps i) = Some p -> t + 1 <= p) as Hclaim.
  { intros i p Hi. destruct (claim_slot i p Hi) as [? Hsp]. rewrite Hfr in *.
    enough (p <> t) by lia. intros ->. rewrite Hslot in Hsp. simpl in Hsp. lia. }
  assert (freed (write_seq r t (t + cap)) (CStoreTail t x) = t + 1) as Hfr' by done.
  split; cbn [ring producers the_consumer pushed popped]; rewrite ?Hfr'; simpl; try done.
  - lia.
  - intros q. apply write_seq_bound; [lia|apply Hsq].
  - intros q Hq. destruct (decide (q = t + cap)) as [->|].
    + rewrite (slot_at_cong _ (t + cap) t) by (apply slot_index_shift; lia). by rewrite write_seq_eq.
    + rewrite Hne by lia. apply Hf. lia.
  - intros q Hq. destruct (Hu q) as [|(w & Hw1 & Hw2)]; [lia|by left|].
    right. exists w. rewrite Hne by lia. done.
  - intros i. specialize (Hps i). specialize (Hclaim i). destruct (ps i) as [| |w q s|w q|w q]; simpl in *; try done.
    + specialize (Hmono q). split; [tauto|lia].
    + specialize (Hclaim q eq_refl). destruct Hps as (? & ? & ?). rewrite Hne by lia. split; [lia|done].
    + specialize (Hclaim q eq_refl). destruct Hps as (? & ? & ?). rewrite Hne by lia. split; [lia|done].
  - split; [done|]. split; [done|]. by rewrite Hx, Hslot, Hlv.
Qed.

Lemma inv_advance x :
  c = CStoreTail (tail_ r) x ->
  ring_inv (mkSystem (with_tail r (tail_ r + 1)) ps CIdle l (o ++ [x])).
Proof.
  intros Ec. destruct Hinv as [Hh Ht Hw Hpop Hsq Hf Hu Hps Hcl Hc]. simpl in *.
  rewrite Ec in *. destruct Hc as (_ & Hlt & Hx).
  assert (freed (with_tail r (tail_ r + 1)) CIdle = freed r (CStoreTail (tail_ r) x)) as Hfr
    by (unfold freed; simpl; lia).
  split; cbn [ring producers the_consumer pushed popped]; rewrite ?Hfr; simpl; try done; [lia|].
  rewrite Z2Nat.inj_add, Nat.add_1_r by lia.
  destruct (l !! Z.to_nat (tail_ r)) as [v|] eqn:Hl; [|apply lookup_ge_None in Hl; lia].
  rewrite (take_S_r _ _ _ Hl), map_app, <- Hpop, Hx. done.
Qed.
End Preserve.

Lemma ring_inv_start : ring_inv (start cap).
Proof.
  pose proof (cap_bounds k Hk) as Hcap.
  pose proof (init_rep k Hk (zero_ring (T := T))) as [_ _ _ _ Hf]. simpl in Hf.
  split; cbn [ring producers the_consumer pushed popped start]; unfold freed; simpl; try done; try lia.
  - intros p. unfold slot_at. simpl. rewrite slot_index_mod by lia.
    pose proof (Z.mod_pos_bound p cap ltac:(lia)).
    rewrite init_slots_sequence by (rewrite Z2Nat.id; lia). lia.
Qed.

(** No step takes a pushed value back. *)
Lemma step_pushed (s s' : system T) : step cap s s' -> (length (pushed s) <= length (pushed s'))%nat.
Proof.
  destruct 1 as [r ps c l o i r' l' st' Hp|]; simpl; [|done].
  destruct Hp; simpl; rewrite ?length_app; lia.
Qed.

Lemma step_inv (s s' : system T) :
  step cap s s' -> Z.of_nat (length (pushed s')) < 2 ^ 62 -> ring_inv s -> ring_inv s'.
Proof.
  intros Hstep Hb Hinv. pose proof (step_pushed _ _ Hstep) as Hmono.
  pose proof (cap_bounds k Hk) as Hcap.
  destruct Hstep as [r ps c l o i r' l' st' Hp|r ps c l o r' o' c' Hc]; simpl in *;
    pose proof Hinv as [Hh Ht Hw _ Hsq _ _ Hps _ Hco]; simpl in *;
    assert (head_ r < 2 ^ 62) as Hhb by lia;
    assert (0 <= freed r c) as Hfp by (unfold freed; destruct c; lia).
  - specialize (Hps i). remember (ps i) as st eqn:Ei. destruct Hp as
      [r l v|r l v pos|r l v pos s Hd Hhd|r l v pos s Hd|r l v pos s d Hd Hlt|r l v pos s d Hd Hlt
      |r l v pos|r l v pos]; simpl in Hps; try (apply inv_local_producer; rewrite <- ?Ei; simpl; done || lia).
    + apply inv_local_producer; rewrite <- ?Ei; simpl; try done. specialize (Hsq pos). unfold seq_at.
      split; [done|]. unfold slot_at in *. lia.
    + subst pos. specialize (Hsq (head_ r)). rewrite difference_small in Hd by lia.
      injection Hd as Hd. rewrite u64_small by lia. apply (inv_won _ _ _ _ _ Hinv i v s); [done|lia].
    + by apply inv_write.
    + rewrite u64_small by lia. by eapply inv_publish.
  - destruct Hc as [r o|r o pos|r o pos s d Hd Hlt|r o pos s d Hd Hge|r o pos|r o pos x|r o pos x];
      simpl in Hco; try (by apply (inv_local_consumer _ _ _ _ _ Hinv)).
    + subst pos. apply (inv_local_consumer _ _ _ _ _ Hinv); [done|]. simpl. split; [done|].
      specialize (Hsq (tail_ r)). unfold seq_at, slot_at in *. lia.
    + destruct Hco as [-> Hs]. specialize (Hsq (tail_ r)). unfold freed in Hw. simpl in Hw.
      rewrite u64_small, difference_small in Hd by lia. injection Hd as Hd.
      destruct (ready_is_full _ _ _ _ _ Hinv s eq_refl ltac:(lia)) as [? ?].
      apply (inv_local_consumer _ _ _ _ _ Hinv); [done|]. done.
    + destruct Hco as (-> & ? & ?). apply (inv_local_consumer _ _ _ _ _ Hinv); [done|]. done.
    + destruct Hco as (-> & ? & ? & ?). unfold freed in Hw. simpl in Hw. rewrite u64_small by lia.
      by apply (inv_release _ _ _ _ _ Hinv).
    + destruct Hco as (-> & ? & ?). unfold freed in Hw. simpl in Hw. rewrite u64_small by lia.
      by apply (inv_advance _ _ _ _ _ Hinv).
Qed.

Lemma reachable_inv (s : system T) :
  rtc (step cap) (start cap) s -> Z.of_nat (length (pushed s)) < 2 ^ 62 -> ring_inv s.
Proof.
  revert s. apply (rtc_ind_r (fun s => Z.of_nat (length (pushed s)) < 2 ^ 62 -> ring_inv s)).
  - intros _. apply ring_inv_start.
  - intros s s' _ Hstep IH Hb. pose proof (step_pushed _ _ Hstep).
    apply (step_inv s); [done..|]. apply IH. lia.
Qed.

Lemma run_pushed (s s' : system T) : rtc (step cap) s s' -> (length (pushed s) <= length (pushed s'))%nat.
Proof. induction 1 as [|s1 s2 s3 Hs _ IH]; [done|]. pose proof (step_pushed _ _ Hs). lia. Qed.

(** ** The answers "full" and "empty" *)

(** The positions that are won and whose slot the consumer has not given back. *)
Definition taken (s : system T) : Z := head_ (ring s) - freed (ring s) (the_consumer s).

(** A step that leaves producer [i], or the consumer, where it is. *)
Definition producer_rests (i : nat) (s s' : system T) : Prop := step cap s s' /\ producers s' i = producers s i.
Definition consumer_rests (s s' : system T) : Prop := step cap s s' /\ the_consumer s' = the_consumer s.

Lemma window_sequence s q :
  ring_inv s -> freed (ring s) (the_consumer s) <= q < freed (ring s) (the_consumer s) + cap ->
  q <= sequence (slot_at (ring s) q).
Proof.
  intros Hinv Hq. pose proof Hinv as [_ _ _ _ _ Hf Hu Hps _ _].
  destruct (decide (head_ (ring s) <= q)); [rewrite Hf; lia|].
  destruct (Hu q) as [[i Hi]|(v & _ & ->)]; [lia| |simpl; lia].
  specialize (Hps i). destruct (producers s i); simpl in Hi; try done; injection Hi as ->; simpl in Hps.
  - lia.
  - destruct Hps as (_ & _ & ->). done.
Qed.

Lemma low_sequence_full s p :
  ring_inv s -> 0 <= p <= head_ (ring s) -> seq_at cap (ring s) p < p -> taken s = cap.
Proof.
  intros Hinv Hp Hlow. pose proof (cap_bounds k Hk). pose proof (ri_window s Hinv) as Hw. unfold taken.
  set (f := freed (ring s) (the_consumer s)) in *.
  assert (0 <= f) as Hf by (pose proof (ri_tail s Hinv); unfold f, freed; destruct (the_consumer s); lia).
  destruct (decide (head_ (ring s) = f + cap)) as [->|Hne]; [lia|]. exfalso.
  set (q := if decide (f <= p) then p else f + (p - f) mod cap).
  pose proof (Z.mod_pos_bound (p - f) cap ltac:(lia)).
  assert (f <= q < f + cap) as Hq by (unfold q; case_decide; lia).
  assert (p <= q) as Hpq by (unfold q; case_decide; lia).
  assert (idx p = idx q) as Hidx.
  { unfold q. case_decide; [done|]. rewrite !slot_index_mod by lia.
    rewrite Zplus_mod_idemp_r. f_equal. lia. }
  pose proof (window_sequence s q Hinv Hq) as Hs. unfold seq_at in Hlow. fold (slot_at (ring s) p) in Hlow.
  rewrite (slot_at_cong _ _ _ Hidx) in Hlow. lia.
Qed.

Lemma low_sequence_empty s :
  ring_inv s -> the_consumer s = CLoadSeq (tail_ (ring s)) ->
  seq_at cap (ring s) (tail_ (ring s)) < tail_ (ring s) + 1 ->
  tail_ (ring s) = head_ (ring s) \/ exists i, claim (producers s i) = Some (tail_ (ring s)).
Proof.
  intros Hinv Hc Hlow. pose proof (ri_window s Hinv) as Hw. pose proof (ri_used s Hinv (tail_ (ring s))) as Hu.
  rewrite Hc in Hw, Hu. unfold freed in *.
  destruct (decide (tail_ (ring s) = head_ (ring s))) as [|Hne]; [by left|]. right.
  destruct Hu as [?|(v & _ & Hs)]; [lia|done|].
  unfold seq_at in Hlow. fold (slot_at (ring s) (tail_ (ring s))) in Hlow. rewrite Hs in Hlow. simpl in Hlow. lia.
Qed.

(** A thread that decides has loaded the number it decides on, and rested since. *)
Lemma producer_loaded (s : system T) i v p seq :
  rtc (step cap) (start cap) s -> producers s i = PDecide v p seq ->
  exists s0 s1, rtc (step cap) (start cap) s0 /\ step cap s0 s1 /\ rtc (producer_rests i) s1 s /\
    producers s0 i = PLoadSeq v p /\ seq = seq_at cap (ring s0) p.
Proof.
  revert s. refine (rtc_ind_r _ _ _ _); [done|]. intros y z Hr Hs IH Hz.
  assert (producers z i = producers y i -> exists s0 s1, rtc (step cap) (start cap) s0 /\ step cap s0 s1 /\
    rtc (producer_rests i) s1 z /\ producers s0 i = PLoadSeq v p /\ seq = seq_at cap (ring s0) p) as Hrest.
  { intros E. rewrite E in Hz. destruct (IH Hz) as (s0 & s1 & H0 & H1 & H2 & H3 & H4).
    exists s0, s1. do 2 (split; [done|]). split; [|done]. eapply rtc_r; [exact H2|]. by split. }
  destruct Hs as [r ps c l o j r' l' st' Hp|r ps c l o r' o' c' Hc]; [|by apply Hrest].
  destruct (decide (i = j)) as [->|Hne]; [|apply Hrest; simpl; by rewrite set_producer_ne].
  simpl in Hz. rewrite set_producer_eq in Hz. subst st'.
  exists (mkSystem r ps c l o), (mkSystem r' (set_producer ps j (PDecide v p seq)) c l' o).
  split; [done|]. split; [by apply step_producer|]. split; [apply rtc_refl|]. simpl. by inversion Hp.
Qed.

Lemma consumer_loaded (s : system T) p seq :
  rtc (step cap) (start cap) s -> the_consumer s = CDecide p seq ->
  exists s0 s1, rtc (step cap) (start cap) s0 /\ step cap s0 s1 /\ rtc consumer_rests s1 s /\
    the_consumer s0 = CLoadSeq p /\ seq = seq_at cap (ring s0) p.
Proof.
  revert s. refine (rtc_ind_r _ _ _ _); [done|]. intros y z Hr Hs IH Hz.
  destruct Hs as [r ps c l o j r' l' st' Hp|r ps c l o r' o' c' Hc]; simpl in Hz.
  - destruct (IH Hz) as (s0 & s1 & H0 & H1 & H2 & H3 & H4).
    exists s0, s1. do 2 (split; [done|]). split; [|done]. eapply rtc_r; [exact H2|]. split; [by apply step_producer|done].
  - subst c'. exists (mkSystem r ps c l o), (mkSystem r' ps (CDecide p seq) l o').
    split; [done|]. split; [by apply step_consumer|]. split; [apply rtc_refl|]. simpl. by inversion Hc.
Qed.

Lemma popped_tail s : ring_inv s -> Z.of_nat (length (popped s)) = tail_ (ring s).
Proof.
  intros [Hh Ht Hw Hpop _ _ _ _ _ _]. rewrite Hpop, length_map, length_take.
  unfold freed in Hw. destruct (the_consumer s); lia.
Qed.

Lemma full_answer (s : system T) i v p seq d :
  rtc (step cap) (start cap) s -> Z.of_nat (length (pushed s)) < 2 ^ 62 ->
  producers s i = PDecide v p seq -> difference_of seq p = Ok d -> d < 0 ->
  exists s0 s1, rtc (step cap) (start cap) s0 /\ producers s0 i = PLoadSeq v p /\ step cap s0 s1 /\
    rtc (producer_rests i) s1 s /\ taken s0 = cap.
Proof.
  intros Hr Hb Hi Hd Hneg. pose proof (reachable_inv s Hr Hb) as [Hh Ht Hw _ Hsq _ _ Hps _ _].
  pose proof (cap_bounds k Hk) as Hcap. pose proof (Hps i) as Hpi. rewrite Hi in Hpi. destruct Hpi as [Hp Hseq].
  specialize (Hsq p). rewrite difference_small in Hd by lia. injection Hd as Hd.
  destruct (producer_loaded s i v p seq Hr Hi) as (s0 & s1 & H0 & H1 & H2 & H3 & H4).
  exists s0, s1. do 4 (split; [done|]).
  assert (rtc (step cap) s0 s) as H0s
    by (eapply rtc_l; [exact H1|]; eapply rtc_subrel; [|exact H2]; by intros ? ? [? _]).
  pose proof (run_pushed _ _ H0s). pose proof (reachable_inv s0 H0 ltac:(lia)) as Hinv0.
  apply (low_sequence_full s0 p); [done| |rewrite <- H4; lia].
  pose proof (ri_producers s0 Hinv0 i) as Hpi. by rewrite H3 in Hpi.
Qed.

Lemma empty_answer (s : system T) p seq d :
  rtc (step cap) (start cap) s -> Z.of_nat (length (pushed s)) < 2 ^ 62 ->
  the_consumer s = CDecide p seq -> difference_of seq (u64 (p + 1)) = Ok d -> d < 0 ->
  exists s0 s1, rtc (step cap) (start cap) s0 /\ the_consumer s0 = CLoadSeq p /\ step cap s0 s1 /\
    rtc consumer_rests s1 s /\
    (length (pushed s0) = length (popped s0) \/
     exists i, claim (producers s0 i) = Some (Z.of_nat (length (popped s0)))).
Proof.
  intros Hr Hb Hi Hd Hneg. pose proof (reachable_inv s Hr Hb) as [Hh Ht Hw _ Hsq _ _ _ _ Hc].
  pose proof (cap_bounds k Hk) as Hcap. rewrite Hi in Hc, Hw. destruct Hc as [-> Hseq]. unfold freed in Hw.
  specialize (Hsq (tail_ (ring s))). rewrite u64_small, difference_small in Hd by lia. injection Hd as Hd.
  destruct (consumer_loaded s _ seq Hr Hi) as (s0 & s1 & H0 & H1 & H2 & H3 & H4).
  exists s0, s1. do 4 (split; [done|]).
  assert (rtc (step cap) s0 s) as H0s
    by (eapply rtc_l; [exact H1|]; eapply rtc_subrel; [|exact H2]; by intros ? ? [? _]).
  pose proof (run_pushed _ _ H0s). pose proof (reachable_inv s0 H0 ltac:(lia)) as Hinv0.
  pose proof (ri_consumer s0 Hinv0) as Hc0. rewrite H3 in Hc0. simpl in Hc0. rewrite Hc0 in *.
  rewrite (popped_tail s0 Hinv0).
  destruct (low_sequence_empty s0 Hinv0 H3) as [E|E]; [lia| |by right]. left.
  pose proof (popped_tail s0 Hinv0). pose proof (ri_head s0 Hinv0). lia.
Qed.

(** C7: the ring buffer is a bounded first in, first out queue for many producers
    and one consumer, for every capacity from 2 to 2^32.  In every interleaving of
    their memory accesses (spurious failures of [compare_exchange_weak] included,
    up to 2^62 pushes), the results of the pops are, in order, the values of the
    first pushes, in the order in which the producers won their positions: none
    is lost, repeated, reordered or read half written; at most [cap] positions
    are taken at any time; and when every thread is idle exactly the values
    pushed and not popped are in the buffer.  A push answers "full" only if, when
    it loaded the sequence number in that call, all [cap] positions were taken.  A
    pop answers "empty" only if, when it loaded the sequence number in that call,
    everything pushed was popped, or the producer that had won the oldest position
    had not yet published its value (pushes of later positions may have returned,
    so the queue is not linearizable). *)
Theorem ring_concurrent_fifo (s : system T) :
  rtc (step cap) (start cap) s -> Z.of_nat (length (pushed s)) < 2 ^ 62 ->
  popped s = map Some (take (length (popped s)) (pushed s)) /\
  Z.of_nat (length (pushed s)) <= Z.of_nat (length (popped s)) + 1 + cap /\
  ((forall i, producers s i = PIdle) -> the_consumer s = CIdle ->
   ring_rep k (ring s) (drop (length (popped s)) (pushed s))) /\
  (forall i v p seq d, producers s i = PDecide v p seq -> difference_of seq p = Ok d -> d < 0 ->
     exists s0 s1, rtc (step cap) (start cap) s0 /\ producers s0 i = PLoadSeq v p /\ step cap s0 s1 /\
       rtc (producer_rests i) s1 s /\ taken s0 = cap) /\
  (forall p seq d, the_consumer s = CDecide p seq -> difference_of seq (u64 (p + 1)) = Ok d -> d < 0 ->
     exists s0 s1, rtc (step cap) (start cap) s0 /\ the_consumer s0 = CLoadSeq p /\ step cap s0 s1 /\
       rtc consumer_rests s1 s /\
       (length (pushed s0) = length (popped s0) \/
        exists i, claim (producers s0 i) = Some (Z.of_nat (length (popped s0))))).
Proof.
  intros Hr Hb. pose proof (reachable_inv s Hr Hb) as Hinv. pose proof (cap_bounds k Hk) as Hcap.
  pose proof (popped_tail s Hinv) as Hlen. destruct Hinv as [Hh Ht Hw Hpop Hsq Hf Hu Hps Hcl Hc].
  assert (length (popped s) = Z.to_nat (tail_ (ring s))) as Hlen' by lia. rewrite Hlen'.
  split; [done|]. split; [unfold freed in Hw; destruct (the_consumer s); lia|]. split; [|split].
  - intros Hidle Hci. rewrite Hci in *. unfold freed in *. rewrite Z.add_0_r in *.
    split; rewrite ?length_drop; try lia.
    + intros i v Hv. rewrite lookup_drop in Hv. pose proof (lookup_lt_Some _ _ _ Hv).
      destruct (Hu (tail_ (ring s) + Z.of_nat i)) as [[j Hj]|(w & Hw1 & Hw2)]; [lia| |].
      * by rewrite Hidle in Hj.
      * replace (Z.to_nat (tail_ (ring s) + Z.of_nat i)) with (Z.to_nat (tail_ (ring s)) + i)%nat in Hw1 by lia.
        rewrite Hv in Hw1. by simplify_eq.
    + intros p Hp. apply Hf. lia.
  - intros. by eapply full_answer.
  - intros. by eapply empty_answer.
Qed.
End Invariant.

(** ** A run: producer 0 pushes 7 and the consumer pops it, with capacity 2 *)
Definition push_pop_run : { s : system Z | rtc (step 2) (start 2) s /\ popped s = [Some 7] }.
Proof.
  eexists. split.
  - do 2 (eapply rtc_l; [apply (step_producer _ _ _ _ _ _ 0); first [apply (p_call _ _ _ 7) | apply p_load]|]).
    eapply rtc_l; [apply (step_producer _ _ _ _ _ _ 0), p_won; reflexivity|].
    eapply rtc_l; [apply (step_producer _ _ _ _ _ _ 0), p_write|].
    eapply rtc_l; [apply (step_producer _ _ _ _ _ _ 0), p_publish|].
    eapply rtc_l; [apply step_consumer, c_call|]. eapply rtc_l; [apply step_consumer, c_load|].
    eapply rtc_l; [apply step_consumer; eapply (c_ready _ _ _ _ _ 0); [reflexivity|lia]|].
    eapply rtc_l; [apply step_consumer, c_read|]. eapply rtc_l; [apply step_consumer, c_release|].
    eapply rtc_l; [apply step_consumer, c_advance|]. apply rtc_refl.
  - reflexivity.
Defined.

(** A producer that is about to find the buffer full: two values are in it. *)
Definition full_run : { s : system Z | rtc (step 2) (start 2) s /\ producers s 1%nat = PDecide 9 2 1 }.
Proof.
  eexists. split.
  - do 2 (eapply rtc_l; [apply (step_producer _ _ _ _ _ _ 0); first [apply (p_call _ _ _ 7) | apply p_load]|]).
    eapply rtc_l; [apply (step_producer _ _ _ _ _ _ 0), p_won; reflexivity|].
    eapply rtc_l; [apply (step_producer _ _ _ _ _ _ 0), p_write|].
    eapply rtc_l; [apply (step_producer _ _ _ _ _ _ 0), p_publish|].
    do 2 (eapply rtc_l; [apply (step_producer _ _ _ _ _ _ 0); first [apply (p_call _ _ _ 8) | apply p_load]|]).
    eapply rtc_l; [apply (step_producer _ _ _ _ _ _ 0), p_won; reflexivity|].
    eapply rtc_l; [apply (step_producer _ _ _ _ _ _ 0), p_write|].
    eapply rtc_l; [apply (step_producer _ _ _ _ _ _ 0), p_publish|].
    do 2 (eapply rtc_l; [apply (step_producer _ _ _ _ _ _ 1); first [apply (p_call _ _ _ 9) | apply p_load]|]).
    apply rtc_refl.
  - reflexivity.
Defined.

Lemma ring_concurrent_fifo_witness :
  popped (proj1_sig push_pop_run) = map Some [7] /\
  exists s0 s1, rtc (step 2) (start 2) s0 /\ producers s0 1%nat = PLoadSeq 9 2 /\ step 2 s0 s1 /\
    rtc (producer_rests 1 1) s1 (proj1_sig full_run) /\ taken s0 = 2.
Proof.
  destruct (ring_concurrent_fifo 1 (ltac:(lia)) (proj1_sig push_pop_run)) as (Hpop & _);
    [exact (proj1 (proj2_sig push_pop_run))|vm_compute; reflexivity|].
  destruct (ring_concurrent_fifo 1 (ltac:(lia)) (proj1_sig full_run)) as (_ & _ & _ & Hfull & _);
    [exact (proj1 (proj2_sig full_run))|vm_compute; reflexivity|].
  split; [exact Hpop|].
  apply (Hfull 1%nat 9 2 1 (-1)); [exact (proj2 (proj2_sig full_run))|vm_compute; reflexivity|lia].
Defined.
