(* ===== verification/SharedMemory.v ===== *)
(** * The ring buffer in shared memory

    The class [MpscSharedMemoryRingBuffer] of
    [libs/inter_process/mpsc_shared_memory_ring_buffer.h]: how a ring buffer is
    created, opened, moved and given back.  The operating system is an explicit
    state: two name spaces (POSIX shared memory objects and files) over inodes,
    open descriptors and mappings.  Its calls do what POSIX says, and each may
    fail: [os_faults] lists, call by call, which do.  An inode holds the ring
    that its bytes are; new memory is zero.  Touching a page beyond the end of
    the object ends the process (SIGBUS). *)

From S2P Require Import Prelude Core LimitOrderBook RingBuffer.
From Stdlib Require Import ZArith Lia Ascii String.
From stdpp Require Import base option list gmap strings pretty relations.

Open Scope Z_scope.

(** How a call ends: it returns, throws a [std::runtime_error] or ends the process. *)
Inductive outcome (A : Type) := Returned (a : A) | Thrown (what : string) | Crashed.
Arguments Returned {A} _.
Arguments Thrown {A} _.
Arguments Crashed {A}.

Section Shm.
Context {T : Type} (capacity shm_size : Z).

Record Inode := mkInode { in_size : Z; in_ring : MpscRingBuffer T }.

Record OS := mkOS {
  os_shm : gmap string nat;
  os_files : gmap string nat;
  os_inodes : gmap nat Inode;
  os_fds : gmap Z nat;
  os_maps : gmap Z nat;
  os_next : nat;
  os_next_id : Z;
  os_faults : list bool
}.

(** A computation that may change the system, throw or crash. *)
Definition shm (A : Type) : Type := OS -> OS * outcome A.

#[export] Instance shm_ret : MRet shm := fun A a s => (s, Returned a).
#[export] Instance shm_bind : MBind shm := fun A B f m s =>
  match m s with
  | (s', Returned a) => f a s'
  | (s', Thrown what) => (s', Thrown what)
  | (s', Crashed) => (s', Crashed)
  end.

Definition throw {A} (what : string) : shm A := fun s => (s, Thrown what).
Definition crash {A} : shm A := fun s => (s, Crashed).

(** ** System calls *)
Definition with_faults (s : OS) (faults : list bool) : OS :=
  mkOS (os_shm s) (os_files s) (os_inodes s) (os_fds s) (os_maps s) (os_next s) (os_next_id s) faults.

(** The next call fails, if the list says so. *)
Definition faulty {A} (failure : A) (call : OS -> OS * A) : shm A := fun s =>
  match os_faults s with
  | true :: faults => (with_faults s faults, Returned failure)
  | _ :: faults => let '(s', a) := call (with_faults s faults) in (s', Returned a)
  | [] => let '(s', a) := call s in (s', Returned a)
  end.

Definition names (use_shm : bool) (s : OS) : gmap string nat := if use_shm then os_shm s else os_files s.

Definition with_names (use_shm : bool) (s : OS) (m : gmap string nat) : OS :=
  mkOS (if use_shm then m else os_shm s) (if use_shm then os_files s else m) (os_inodes s) (os_fds s)
    (os_maps s) (os_next s) (os_next_id s) (os_faults s).

(** A descriptor for an inode; descriptors and addresses are numbers not used before. *)
Definition new_fd (s : OS) (ino : nat) : OS * option Z :=
  (mkOS (os_shm s) (os_files s) (os_inodes s) (<[os_next_id s := ino]> (os_fds s)) (os_maps s)
     (os_next s) (os_next_id s + 1) (os_faults s), Some (os_next_id s)).

Definition new_inode (s : OS) (i : Inode) : OS :=
  mkOS (os_shm s) (os_files s) (<[os_next s := i]> (os_inodes s)) (os_fds s) (os_maps s)
    (S (os_next s)) (os_next_id s) (os_faults s).

Definition set_inode (s : OS) (ino : nat) (i : Inode) : OS :=
  mkOS (os_shm s) (os_files s) (<[ino := i]> (os_inodes s)) (os_fds s) (os_maps s)
    (os_next s) (os_next_id s) (os_faults s).

(** [shm_open] or [open], with [O_CREAT] or without. *)
Definition sys_open (use_shm creat : bool) (name : string) : shm (option Z) :=
  faulty None (fun s =>
    match names use_shm s !! name with
    | Some ino => new_fd s ino
    | None =>
        if creat then
          let ino := os_next s in
          new_fd (with_names use_shm (new_inode s (mkInode 0 zero_ring)) (<[name := ino]> (names use_shm s))) ino
        else (s, None)
    end).

(** The inode behind a descriptor. *)
Definition fd_inode (s : OS) (fd : Z) : option (nat * Inode) :=
  ino ← os_fds s !! fd; i ← os_inodes s !! ino; Some (ino, i).

Definition sys_fstat (fd : Z) : shm (option Z) :=
  faulty None (fun s => (s, in_size ∘ snd <$> fd_inode s fd)).

(** The bytes that [ftruncate] adds are zero. *)
Definition sys_ftruncate (fd size : Z) : shm bool :=
  faulty false (fun s =>
    match fd_inode s fd with
    | Some (ino, i) => (set_inode s ino (mkInode size (in_ring i)), true)
    | None => (s, false)
    end).

Definition sys_mmap (fd : Z) : shm (option Z) :=
  faulty None (fun s =>
    match os_fds s !! fd with
    | Some ino =>
        (mkOS (os_shm s) (os_files s) (os_inodes s) (os_fds s) (<[os_next_id s := ino]> (os_maps s))
           (os_next s) (os_next_id s + 1) (os_faults s), Some (os_next_id s))
    | None => (s, None)
    end).

Definition sys_close (fd : Z) : shm unit := fun s =>
  (mkOS (os_shm s) (os_files s) (os_inodes s) (delete fd (os_fds s)) (os_maps s) (os_next s)
     (os_next_id s) (os_faults s), Returned tt).

Definition sys_munmap (addr : Z) : shm unit := fun s =>
  (mkOS (os_shm s) (os_files s) (os_inodes s) (os_fds s) (delete addr (os_maps s)) (os_next s)
     (os_next_id s) (os_faults s), Returned tt).

Definition sys_unlink (use_shm : bool) (name : string) : shm unit := fun s =>
  (with_names use_shm s (delete name (names use_shm s)), Returned tt).

(** ** Access to a mapping *)
Definition mapped (s : OS) (addr : Z) : option (nat * Inode) :=
  ino ← os_maps s !! addr; i ← os_inodes s !! ino; Some (ino, i).

(** An operation on the ring at an address. *)
Definition on_ring {A} (addr : Z) (f : MpscRingBuffer T -> res (MpscRingBuffer T * A)) : shm A := fun s =>
  match mapped s addr with
  | Some (ino, i) =>
      if shm_size <=? in_size i then
        match f (in_ring i) with
        | Ok (r, a) => (set_inode s ino (mkInode (in_size i) r), Returned a)
        | Err _ => (s, Crashed)
        end
      else (s, Crashed)
  | None => (s, Crashed)
  end.

(** ** The class *)
Record MpscSharedMemoryRingBuffer := mkShmBuffer {
  buffer_ : option Z;
  is_owner_ : bool;
  shm_file_path_ : string;
  use_shm_open_ : bool
}.

Definition get_shm_file_full_name (shm_file_name_prefix : string) : string :=
  shm_file_name_prefix +:+ "_" +:+ pretty capacity.

(** [static_cast<Buffer*>(ptr)] and the check that ends both functions. *)
Definition attach_buffer (addr : Z) : shm unit :=
  initialized ← on_ring addr (fun r => Ok (r, is_initialized r));
  if negb initialized then on_ring addr (fun r => Ok (init capacity r, tt)) else mret tt.

Definition create (shm_file_name_prefix : string) (use_shm_open : bool) : shm MpscSharedMemoryRingBuffer :=
  let path := get_shm_file_full_name shm_file_name_prefix in
  fd ← sys_open use_shm_open true path;
  match fd with
  | None => throw "Failed to create shm: "
  | Some fd =>
      st_size ← sys_fstat fd;
      match st_size with
      | None => throw "Failed to get fstat for shm: "
      | Some st_size =>
          truncated ← (if st_size =? 0 then sys_ftruncate fd shm_size else mret true);
          if negb truncated then _ ← sys_close fd; throw "Failed to create shm: "
          else
            ptr ← sys_mmap fd;
            _ ← sys_close fd;
            match ptr with
            | None => throw "Failed to mmap shm: "
            | Some ptr =>
                _ ← attach_buffer ptr;
                mret (mkShmBuffer (Some ptr) true path use_shm_open)
            end
      end
  end.

Definition open_exist_shm (shm_file_name_prefix : string) (use_shm_open : bool)
    : shm MpscSharedMemoryRingBuffer :=
  let path := get_shm_file_full_name shm_file_name_prefix in
  fd ← sys_open use_shm_open false path;
  match fd with
  | None => throw "Failed to open shm: "
  | Some fd =>
      ptr ← sys_mmap fd;
      _ ← sys_close fd;
      match ptr with
      | None => throw "Failed to mmap shm: "
      | Some ptr =>
          _ ← attach_buffer ptr;
          mret (mkShmBuffer (Some ptr) false path use_shm_open)
      end
  end.

(** [buffer_->f()]: a null pointer ends the process. *)
Definition on_buffer {A} (b : MpscSharedMemoryRingBuffer)
    (f : MpscRingBuffer T -> res (MpscRingBuffer T * A)) : shm A :=
  match buffer_ b with Some addr => on_ring addr f | None => crash end.

Definition shm_try_push (b : MpscSharedMemoryRingBuffer) (value : T) : shm bool :=
  on_buffer b (fun r => try_push capacity r value).

Definition shm_try_pop (b : MpscSharedMemoryRingBuffer) : shm (option T) := on_buffer b (try_pop capacity).

(** [push_blocking] retries until a push succeeds.  Between the tries the consumer
    may pop: [turns] says before which of them it does. *)
Fixpoint push_blocking (turns : list bool) (r : MpscRingBuffer T) (value : T) : res (MpscRingBuffer T) :=
  match turns with
  | [] => Err OutOfFuel
  | popped :: turns' =>
      r ← (if popped : bool then fst <$> try_pop capacity r else Ok r);
      '(r', ok) ← try_push capacity r value;
      if ok : bool then Ok r' else push_blocking turns' r' value
  end.

Definition shm_push_blocking (turns : list bool) (b : MpscSharedMemoryRingBuffer) (value : T) : shm unit :=
  on_buffer b (fun r => r' ← push_blocking turns r value; Ok (r', tt)).

(** The destructor's body, which the move assignment repeats. *)
Definition release (b : MpscSharedMemoryRingBuffer) : shm unit :=
  match buffer_ b with
  | None => mret tt
  | Some addr =>
      _ ← (if is_owner_ b then on_ring addr (fun r => Ok (destroy r, tt)) else mret tt);
      _ ← sys_munmap addr;
      if is_owner_ b then sys_unlink (use_shm_open_ b) (shm_file_path_ b) else mret tt
  end.

Definition moved_from (b : MpscSharedMemoryRingBuffer) : MpscSharedMemoryRingBuffer :=
  mkShmBuffer None (is_owner_ b) (shm_file_path_ b) (use_shm_open_ b).

(** The move constructor: the new object and what is left of the other. *)
Definition move_construct (other : MpscSharedMemoryRingBuffer)
    : MpscSharedMemoryRingBuffer * MpscSharedMemoryRingBuffer :=
  (mkShmBuffer (buffer_ other) (is_owner_ other) (shm_file_path_ other) (use_shm_open_ other),
   moved_from other).

(** [operator=] between two different objects. *)
Definition move_assign (this other : MpscSharedMemoryRingBuffer)
    : shm (MpscSharedMemoryRingBuffer * MpscSharedMemoryRingBuffer) :=
  _ ← release this;
  mret (mkShmBuffer (buffer_ other) (is_owner_ other) (shm_file_path_ other) (use_shm_open_ other),
        moved_from other).
End Shm.

(** ** One ring for all who open it *)
Section Sharing.
Context {T : Type} (k shm_size : Z).
Hypothesis Hk : 1 <= k <= 32.
Hypothesis Hsize : 0 < shm_size.
Abbreviation cap := (2 ^ k).
Implicit Types (s : OS (T := T)) (b : MpscSharedMemoryRingBuffer) (l : list T).

(** Numbers that were not given out are not in use. *)
Record os_wf s : Prop := {
  ow_maps : forall addr, is_Some (os_maps s !! addr) -> addr < os_next_id s;
  ow_fds : forall fd, is_Some (os_fds s !! fd) -> fd < os_next_id s;
  ow_inodes : forall ino, is_Some (os_inodes s !! ino) -> (ino < os_next s)%nat
}.

(** The name [path] stands for a ring of the right size that holds [l]. *)
Definition ring_at s (use_shm : bool) (path : string) (ino : nat) l : Prop :=
  names use_shm s !! path = Some ino /\
  exists r, os_inodes s !! ino = Some (mkInode shm_size r) /\ is_initialized r = true /\ ring_rep k r l.

(** Fewer than [n] messages have gone through it. *)
Definition used_less s (ino : nat) (n : Z) : Prop :=
  forall i, os_inodes s !! ino = Some i -> head_ (in_ring i) < n.

(** [b] reads and writes that ring. *)
Definition attached s b (ino : nat) : Prop :=
  exists addr, buffer_ b = Some addr /\ os_maps s !! addr = Some ino.

Lemma bind_ret {A B} (m : shm (T := T) A) (f : A -> shm B) s s' a :
  m s = (s', Returned a) -> (x ← m; f x) s = f a s'.
Proof. intros Hm. unfold mbind, shm_bind. by rewrite Hm. Qed.

Lemma on_ring_ok {A} s addr ino i f r (a : A) :
  os_maps s !! addr = Some ino -> os_inodes s !! ino = Some i -> in_size i = shm_size ->
  f (in_ring i) = Ok (r, a) ->
  on_ring shm_size addr f s = (set_inode s ino (mkInode shm_size r), Returned a).
Proof.
  intros Hm Hi Hs Hf. unfold on_ring, mapped. rewrite Hm. simpl. rewrite Hi. simpl.
  rewrite Hs, (proj2 (Z.leb_le _ _)), Hf by lia. done.
Qed.

Lemma set_inode_id s ino i : os_inodes s !! ino = Some i -> set_inode s ino i = s.
Proof. intros Hi. unfold set_inode. rewrite insert_id by done. by destruct s. Qed.

(** What mapping a descriptor makes of the system. *)
Definition after_map s (fd : Z) (ino : nat) (r : MpscRingBuffer T) : OS :=
  mkOS (os_shm s) (os_files s) (<[ino := mkInode shm_size r]> (os_inodes s)) (delete fd (os_fds s))
    (<[os_next_id s := ino]> (os_maps s)) (os_next s) (os_next_id s + 1) (os_faults s).

Lemma map_and_attach {A} s fd ino r (f : Z -> A) :
  os_faults s = [] -> os_fds s !! fd = Some ino -> os_inodes s !! ino = Some (mkInode shm_size r) ->
  (ptr ← sys_mmap fd; _ ← sys_close fd;
   match ptr with
   | None => throw "Failed to mmap shm: "
   | Some ptr => _ ← attach_buffer cap shm_size ptr; mret (f ptr)
   end) s = (after_map s fd ino (attach cap r), Returned (f (os_next_id s))).
Proof.
  intros Hf Hfd Hi. unfold mbind, shm_bind, sys_mmap, faulty. rewrite Hf, Hfd. cbn [os_faults].
  unfold attach_buffer, sys_close, mbind, shm_bind, mret, shm_ret. cbn.
  erewrite (on_ring_ok _ (os_next_id s) ino); [|by apply lookup_insert_eq|exact Hi|done|done].
  rewrite set_inode_id by done. unfold attach, after_map. destruct (is_initialized r) eqn:Hin; simpl; rewrite Hin; simpl.
  - by rewrite (insert_id (os_inodes s)), Hf by done.
  - erewrite (on_ring_ok _ (os_next_id s) ino); [|by apply lookup_insert_eq|exact Hi|done|done].
    unfold set_inode. simpl. by rewrite Hf.
Qed.

(** What opening a name makes of the system. *)
Lemma sys_open_named s use_shm creat path ino :
  os_faults s = [] -> names use_shm s !! path = Some ino ->
  sys_open use_shm creat path s = ((new_fd s ino).1, Returned (Some (os_next_id s))).
Proof. intros Hf Hn. unfold sys_open, faulty. rewrite Hf, Hn. done. Qed.

Lemma sys_fstat_ok s fd ino i :
  os_faults s = [] -> os_fds s !! fd = Some ino -> os_inodes s !! ino = Some i ->
  sys_fstat fd s = (s, Returned (Some (in_size i))).
Proof. intros Hf Hfd Hi. unfold sys_fstat, faulty, fd_inode. rewrite Hf, Hfd. simpl. by rewrite Hi. Qed.

(** The system after a ring was found under its name and mapped. *)
Definition found s (ino : nat) : OS :=
  mkOS (os_shm s) (os_files s) (os_inodes s) (os_fds s) (<[os_next_id s + 1 := ino]> (os_maps s))
    (os_next s) (os_next_id s + 2) (os_faults s).

Lemma found_eq s ino r :
  os_wf s -> os_faults s = [] -> os_inodes s !! ino = Some (mkInode shm_size r) -> is_initialized r = true ->
  after_map (new_fd s ino).1 (os_next_id s) ino (attach cap r) = found s ino.
Proof.
  intros Hwf Hf Hi Hin. unfold after_map, found, attach. rewrite Hin. simpl.
  assert (os_fds s !! os_next_id s = None) as Hfd.
  { destruct (os_fds s !! os_next_id s) eqn:E; [|done]. pose proof (ow_fds _ Hwf (os_next_id s) ltac:(by rewrite E)). lia. }
  rewrite (insert_id (os_inodes s)), delete_insert_id by done. by replace (os_next_id s + 1 + 1) with (os_next_id s + 2) by lia.
Qed.

Lemma create_found s use_shm prefix ino l :
  os_wf s -> os_faults s = [] -> ring_at s use_shm (get_shm_file_full_name cap prefix) ino l ->
  create cap shm_size prefix use_shm s =
    (found s ino, Returned (mkShmBuffer (Some (os_next_id s + 1)) true (get_shm_file_full_name cap prefix) use_shm)).
Proof.
  intros Hwf Hf (Hn & r & Hi & Hin & _). unfold create.
  rewrite (bind_ret _ _ _ _ _ (sys_open_named _ _ _ _ _ Hf Hn)). cbv beta iota.
  assert (os_fds (new_fd s ino).1 !! os_next_id s = Some ino) as Hfd by apply lookup_insert_eq.
  rewrite (bind_ret _ _ _ _ _ (sys_fstat_ok (new_fd s ino).1 (os_next_id s) ino _ Hf Hfd Hi)). cbv beta iota.
  cbn [in_size]. rewrite (proj2 (Z.eqb_neq _ _)) by lia.
  rewrite (bind_ret _ _ _ _ true eq_refl). cbv beta iota delta [negb].
  rewrite (map_and_attach (new_fd s ino).1 (os_next_id s) ino r
    (fun ptr => mkShmBuffer (Some ptr) true (get_shm_file_full_name cap prefix) use_shm)) by done.
  by rewrite found_eq.
Qed.

Lemma open_found s use_shm prefix ino l :
  os_wf s -> os_faults s = [] -> ring_at s use_shm (get_shm_file_full_name cap prefix) ino l ->
  open_exist_shm cap shm_size prefix use_shm s =
    (found s ino, Returned (mkShmBuffer (Some (os_next_id s + 1)) false (get_shm_file_full_name cap prefix) use_shm)).
Proof.
  intros Hwf Hf (Hn & r & Hi & Hin & _). unfold open_exist_shm.
  rewrite (bind_ret _ _ _ _ _ (sys_open_named _ _ _ _ _ Hf Hn)). cbv beta iota.
  assert (os_fds (new_fd s ino).1 !! os_next_id s = Some ino) as Hfd by apply lookup_insert_eq.
  rewrite (map_and_attach (new_fd s ino).1 (os_next_id s) ino r
    (fun ptr => mkShmBuffer (Some ptr) false (get_shm_file_full_name cap prefix) use_shm)) by done.
  by rewrite found_eq.
Qed.

(** The system after a ring was made under a new name. *)
Definition made s (use_shm : bool) (path : string) : OS :=
  mkOS (if use_shm then <[path := os_next s]> (os_shm s) else os_shm s)
    (if use_shm then os_files s else <[path := os_next s]> (os_files s))
    (<[os_next s := mkInode shm_size (init cap zero_ring)]> (os_inodes s)) (os_fds s)
    (<[os_next_id s + 1 := os_next s]> (os_maps s)) (S (os_next s)) (os_next_id s + 2) (os_faults s).

Lemma create_fresh s use_shm prefix :
  os_wf s -> os_faults s = [] -> names use_shm s !! get_shm_file_full_name cap prefix = None ->
  create cap shm_size prefix use_shm s =
    (made s use_shm (get_shm_file_full_name cap prefix),
     Returned (mkShmBuffer (Some (os_next_id s + 1)) true (get_shm_file_full_name cap prefix) use_shm)).
Proof.
  intros Hwf Hf Hn. set (path := get_shm_file_full_name cap prefix) in *. unfold create. fold path.
  set (s0 := with_names use_shm (new_inode s (mkInode 0 zero_ring)) (<[path := os_next s]> (names use_shm s))).
  set (s1 := (new_fd s0 (os_next s)).1).
  assert (sys_open use_shm true path s = (s1, Returned (Some (os_next_id s)))) as Hopen.
  { unfold sys_open, faulty. rewrite Hf, Hn. done. }
  rewrite (bind_ret _ _ _ _ _ Hopen). cbv beta iota.
  assert (os_fds s1 !! os_next_id s = Some (os_next s)) as Hfd by apply lookup_insert_eq.
  assert (os_inodes s1 !! os_next s = Some (mkInode 0 zero_ring)) as Hi by apply lookup_insert_eq.
  assert (os_faults s1 = []) as Hf1 by exact Hf.
  rewrite (bind_ret _ _ _ _ _ (sys_fstat_ok s1 (os_next_id s) (os_next s) _ Hf1 Hfd Hi)). cbv beta iota.
  cbn [in_size]. rewrite Z.eqb_refl.
  set (s2 := set_inode s1 (os_next s) (mkInode shm_size zero_ring)).
  assert (sys_ftruncate (os_next_id s) shm_size s1 = (s2, Returned true)) as Htr.
  { unfold sys_ftruncate, faulty, fd_inode. rewrite Hf1, Hfd. simpl. rewrite lookup_insert_eq. done. }
  rewrite (bind_ret _ _ _ _ _ Htr). cbv beta iota delta [negb].
  rewrite (map_and_attach s2 (os_next_id s) (os_next s) zero_ring
    (fun ptr => mkShmBuffer (Some ptr) true path use_shm)); [|done|done|apply lookup_insert_eq].
  f_equal. unfold after_map, made, attach. simpl.
  assert (os_fds s !! os_next_id s = None) as Hfd0.
  { destruct (os_fds s !! os_next_id s) eqn:E; [|done]. pose proof (ow_fds _ Hwf (os_next_id s) ltac:(by rewrite E)). lia. }
  rewrite !insert_insert_eq, delete_insert_id by done. replace (os_next_id s + 1 + 1) with (os_next_id s + 2) by lia.
  by destruct use_shm.
Qed.

(** Without [O_CREAT] a name that does not exist is an error, and nothing is left behind. *)
Lemma open_absent s use_shm prefix :
  os_faults s = [] -> names use_shm s !! get_shm_file_full_name cap prefix = None ->
  open_exist_shm cap shm_size prefix use_shm s = (s, Thrown "Failed to open shm: ").
Proof. intros Hf Hn. unfold open_exist_shm, mbind, shm_bind, sys_open, faulty. rewrite Hf, Hn. done. Qed.

Lemma os_wf_found s ino : os_wf s -> os_wf (found s ino).
Proof.
  intros [Hm Hfd Hi]. split; simpl; [|by intros fd ?%Hfd; lia|done].
  intros addr [<-|Ha%Hm]%lookup_insert_is_Some'; lia.
Qed.

Lemma os_wf_made s use_shm path : os_wf s -> os_wf (made s use_shm path).
Proof.
  intros [Hm Hfd Hi]. split; simpl; [|by intros fd ?%Hfd; lia|].
  - intros addr [<-|Ha%Hm]%lookup_insert_is_Some'; lia.
  - intros ino [<-|Ha%Hi]%lookup_insert_is_Some'; lia.
Qed.

Lemma ring_at_made s use_shm path : ring_at (made s use_shm path) use_shm path (os_next s) [].
Proof.
  split; [unfold names; destruct use_shm; apply lookup_insert_eq|].
  exists (init cap zero_ring). split; [apply lookup_insert_eq|]. split; [done|]. by apply init_rep.
Qed.

Lemma try_push_fields (r r' : MpscRingBuffer T) v ok :
  try_push cap r v = Ok (r', ok) ->
  initialized_ r' = initialized_ r /\ head_ r' = (if ok then u64 (head_ r + 1) else head_ r).
Proof.
  unfold try_push. simpl. intros (d & _ & Hp)%bind_ok.
  destruct (d =? 0); [rewrite Z.eqb_refl in Hp; by simplify_eq/=|]. destruct (d <? 0); by simplify_eq/=.
Qed.

Lemma try_pop_fields (r r' : MpscRingBuffer T) o :
  try_pop cap r = Ok (r', o) -> initialized_ r' = initialized_ r /\ head_ r' = head_ r.
Proof. unfold try_pop. intros (d & _ & Hp)%bind_ok. destruct (d <? 0); by simplify_eq/=. Qed.

Lemma ring_at_set s use_shm path ino l r l' :
  ring_at s use_shm path ino l -> is_initialized r = true -> ring_rep k r l' ->
  ring_at (set_inode s ino (mkInode shm_size r)) use_shm path ino l'.
Proof.
  intros (Hn & _) Hin Hr. split; [by destruct use_shm|]. exists r. split; [apply lookup_insert_eq|done].
Qed.

Lemma push_shared s b use_shm path ino l v :
  ring_at s use_shm path ino l -> attached s b ino -> used_less s ino (2 ^ 61) ->
  Z.of_nat (length l) < cap ->
  exists s', shm_try_push cap shm_size b v s = (s', Returned true) /\
    ring_at s' use_shm path ino (l ++ [v]) /\ os_maps s' = os_maps s /\ used_less s' ino (2 ^ 62).
Proof.
  intros Hat (addr & Hb & Hm) Hu Hl. pose proof Hat as (Hn & r & Hi & Hin & Hr). specialize (Hu _ Hi). simpl in Hu.
  destruct (try_push_free k Hk r l v Hr ltac:(unfold far_from_wrap; lia) Hl) as (r' & Hp & Hr').
  destruct (try_push_fields _ _ _ _ Hp) as [Einit Ehead].
  exists (set_inode s ino (mkInode shm_size r')). split.
  - unfold shm_try_push, on_buffer. rewrite Hb. by eapply on_ring_ok.
  - split; [eapply ring_at_set; [done|by unfold is_initialized; rewrite Einit|done]|]. split; [done|].
    intros i' Hi'. simpl in Hi'. rewrite lookup_insert_eq in Hi'. injection Hi' as <-. simpl. rewrite Ehead.
    pose proof (rr_head _ _ _ Hr). pose proof (rr_tail _ _ _ Hr). rewrite u64_small by lia. lia.
Qed.

Lemma pop_shared s b use_shm path ino v l :
  ring_at s use_shm path ino (v :: l) -> attached s b ino -> used_less s ino (2 ^ 62) ->
  exists s', shm_try_pop cap shm_size b s = (s', Returned (Some v)) /\ ring_at s' use_shm path ino l.
Proof.
  intros Hat (addr & Hb & Hm) Hu. pose proof Hat as (Hn & r & Hi & Hin & Hr). specialize (Hu _ Hi). simpl in Hu.
  destruct (try_pop_first k Hk r v l Hr Hu) as (r' & Hp & Hr' & _).
  destruct (try_pop_fields _ _ _ Hp) as [Einit _].
  exists (set_inode s ino (mkInode shm_size r')). split.
  - unfold shm_try_pop, on_buffer. rewrite Hb. by eapply on_ring_ok.
  - eapply ring_at_set; [done|by unfold is_initialized; rewrite Einit|done].
Qed.

(** Creating finds or makes the ring. *)
Lemma create_shared s use_shm prefix l :
  let path := get_shm_file_full_name cap prefix in
  os_wf s -> os_faults s = [] ->
  (names use_shm s !! path = None /\ l = [] \/
   exists ino, ring_at s use_shm path ino l /\ used_less s ino (2 ^ 61)) ->
  exists s' b ino, create cap shm_size prefix use_shm s = (s', Returned b) /\ is_owner_ b = true /\
    os_wf s' /\ os_faults s' = [] /\ os_fds s' = os_fds s /\ attached s' b ino /\
    ring_at s' use_shm path ino l /\ used_less s' ino (2 ^ 61).
Proof.
  intros path Hwf Hf [[Hn ->]|(ino & Hat & Hu)].
  - eexists _, _, (os_next s). rewrite create_fresh by done. split; [done|]. split; [done|].
    split; [by apply os_wf_made|]. split; [done|]. split; [done|].
    split; [eexists; split; [done|apply lookup_insert_eq]|]. split; [apply ring_at_made|].
    intros i Hi. simpl in Hi. rewrite lookup_insert_eq in Hi. injection Hi as <-. simpl. lia.
  - eexists _, _, ino. rewrite (create_found _ _ _ ino l) by done. split; [done|]. split; [done|].
    split; [by apply os_wf_found|]. split; [done|]. split; [done|].
    split; [eexists; split; [done|apply lookup_insert_eq]|]. split; [|done].
    destruct Hat as (Hn & r & ? & ? & ?). split; [by destruct use_shm|]. by exists r.
Qed.

(** An object shorter than the ring ends the process that opens it: the size is
    only looked at to extend an object of size zero.  This is what opening meets
    between the creator's [shm_open] and its [ftruncate]. *)
Lemma open_short_crashes s use_shm prefix ino i :
  os_faults s = [] -> names use_shm s !! get_shm_file_full_name cap prefix = Some ino ->
  os_inodes s !! ino = Some i -> in_size i < shm_size ->
  (open_exist_shm cap shm_size prefix use_shm s).2 = Crashed.
Proof.
  intros Hf Hn Hi Hsz. unfold open_exist_shm.
  rewrite (bind_ret _ _ _ _ _ (sys_open_named s use_shm false _ ino Hf Hn)). cbv beta iota.
  unfold mbind, shm_bind, sys_mmap, faulty. cbn [os_faults new_fd fst os_fds]. rewrite Hf, lookup_insert_eq.
  unfold sys_close. cbn. unfold attach_buffer, mbind, shm_bind, on_ring, mapped. cbn.
  rewrite lookup_insert_eq. cbn. rewrite Hi. cbn. by rewrite (proj2 (Z.leb_gt _ _)).
Qed.

(** A blocking push takes a free place at once; on a full ring it spins until the
    consumer takes a message, and then returns. *)
Lemma push_blocking_free r l v turns :
  ring_rep k r l -> far_from_wrap r -> Z.of_nat (length l) < cap ->
  exists r', push_blocking cap (false :: turns) r v = Ok r' /\ ring_rep k r' (l ++ [v]).
Proof.
  intros Hr Hw Hl. destruct (try_push_free k Hk r l v Hr Hw Hl) as (r' & Hp & Hr').
  exists r'. split; [|done]. simpl. rewrite Hp. done.
Qed.

Lemma push_blocking_full r l v n :
  ring_rep k r l -> far_from_wrap r -> Z.of_nat (length l) = cap ->
  push_blocking cap (repeat false n) r v = Err OutOfFuel /\
  exists r', push_blocking cap (repeat false n ++ [true]) r v = Ok r' /\ ring_rep k r' (tail l ++ [v]).
Proof.
  intros Hr Hw Hl. pose proof (try_push_full k Hk r l v Hr Hw Hl) as Hfull.
  induction n as [|n [IH1 (r' & IH2 & IH3)]]; simpl.
  - split; [done|]. pose proof (cap_bounds k Hk). destruct l as [|w l]; [simpl in Hl; lia|].
    destruct (try_pop_first k Hk r w l Hr Hw) as (r1 & Hpop & Hr1 & Hh).
    destruct (try_push_free k Hk r1 l v Hr1) as (r2 & Hp & Hr2); [unfold far_from_wrap in *; lia|simpl in Hl; lia|].
    exists r2. split; [|done]. rewrite Hpop. simpl. rewrite Hp. done.
  - split; [rewrite Hfull; exact IH1|]. exists r'. split; [|done]. rewrite Hfull. exact IH2.
Qed.

(** C17: the creator and whoever opens the buffer by the same name share one
    queue.  If no call fails, [create] finds the ring that the name stands for,
    with its messages, or makes an empty one; [open_exist_shm] with the same
    prefix then maps the same memory, the creator alone is its owner, no
    descriptor stays open, and a message that the one pushes arrives at the other
    after all that was queued before it. *)
Theorem shm_handover s use_shm prefix l v :
  let path := get_shm_file_full_name cap prefix in
  os_wf s -> os_faults s = [] ->
  (names use_shm s !! path = None /\ l = [] \/
   exists ino, ring_at s use_shm path ino l /\ used_less s ino (2 ^ 61)) ->
  Z.of_nat (length l) < cap ->
  exists s1 consumer producer s2,
    (c ← create cap shm_size prefix use_shm; p ← open_exist_shm cap shm_size prefix use_shm;
     ok ← shm_try_push cap shm_size p v; mret (c, p, ok)) s = (s1, Returned (consumer, producer, true)) /\
    is_owner_ consumer = true /\ is_owner_ producer = false /\ os_fds s1 = os_fds s /\
    shm_try_pop cap shm_size consumer s1 = (s2, Returned (head (l ++ [v]))) /\
    exists ino, ring_at s2 use_shm path ino (tail (l ++ [v])).
Proof.
  intros path Hwf Hf Hst Hl.
  destruct (create_shared s use_shm prefix l Hwf Hf Hst) as (sa & c & ino & Hc & Ho & Hwfa & Hfa & Hfda & Hatc & Hata & Hua).
  pose proof (open_found sa use_shm prefix ino l Hwfa Hfa Hata) as Hop.
  set (p := mkShmBuffer _ false _ _) in Hop.
  assert (ring_at (found sa ino) use_shm path ino l) as Hatb.
  { destruct Hata as (Hn & r & ? & ? & ?). split; [by destruct use_shm|]. by exists r. }
  destruct (push_shared (found sa ino) p use_shm path ino l v Hatb) as (sc & Hpush & Hatd & Hmaps & Hud).
  { eexists. split; [done|]. apply lookup_insert_eq. }
  { exact Hua. }
  { done. }
  assert (attached sc c ino) as Hattc.
  { destruct Hatc as (addr & Hb & Hm). exists addr. split; [done|]. rewrite Hmaps. simpl.
    rewrite lookup_insert_ne; [done|]. pose proof (ow_maps _ Hwfa addr ltac:(by rewrite Hm)). lia. }
  destruct (l ++ [v]) as [|w tl] eqn:Hlv; [by destruct l|].
  destruct (pop_shared sc c use_shm path ino w tl Hatd Hattc Hud) as (sd & Hpop & Hate).
  exists sc, c, p, sd. rewrite (bind_ret _ _ _ _ _ Hc), (bind_ret _ _ _ _ _ Hop), (bind_ret _ _ _ _ _ Hpush).
  split; [done|]. split; [done|]. split; [done|]. split; [|split; [done|by exists ino]].
  rewrite <- Hfda. unfold shm_try_push, on_buffer, on_ring in Hpush. simpl in Hpush.
  revert Hpush. destruct (mapped _ _) as [[? ?]|]; [|done]. destruct (_ <=? _); [|done].
  destruct (try_push _ _ _) as [[? ?]|]; [|done]. by intros [= <- _].
Qed.
End Sharing.

(** ** Who holds which mapping *)
Section Resources.
Context {T : Type} (capacity shm_size : Z).
Implicit Types (s : OS (T := T)) (b : MpscSharedMemoryRingBuffer).
Abbreviation Buf := MpscSharedMemoryRingBuffer.

(** Descriptors and addresses given out so far are below the next one. *)
Definition ids_fresh s : Prop :=
  (forall addr, is_Some (os_maps s !! addr) -> addr < os_next_id s) /\
  (forall fd, is_Some (os_fds s !! fd) -> fd < os_next_id s).

(** Mappings, descriptors and their numbers are as before. *)
Definition frame s s' : Prop :=
  os_maps s' = os_maps s /\ os_fds s' = os_fds s /\ os_next_id s' = os_next_id s.

Lemma frame_fresh s s' : frame s s' -> ids_fresh s -> ids_fresh s'.
Proof. intros (E1 & E2 & E3) [H1 H2]. split; rewrite E3; [rewrite E1|rewrite E2]; done. Qed.

Lemma frame_trans s1 s2 s3 : frame s1 s2 -> frame s2 s3 -> frame s1 s3.
Proof. intros (? & ? & ?) (? & ? & ?). repeat split; congruence. Qed.

Lemma faulty_inv {A} (failure : A) call s s' o :
  faulty failure call s = (s', o) ->
  exists s0, frame s s0 /\
    (s' = s0 /\ o = Returned failure \/ exists a, call s0 = (s', a) /\ o = Returned a).
Proof.
  unfold faulty. destruct (os_faults s) as [|[] faults].
  - destruct (call s) as [s1 a] eqn:Hc. intros [= <- <-]. exists s. split; [done|]. right. eauto.
  - intros [= <- <-]. eexists. split; [|by left]. done.
  - destruct (call _) as [s1 a] eqn:Hc. intros [= <- <-]. eexists. split; [|right; eauto]. done.
Qed.

Lemma sys_open_inv use_shm creat name s s' o :
  sys_open use_shm creat name s = (s', o) ->
  frame s s' /\ o = Returned None \/
  exists ino, os_maps s' = os_maps s /\ os_fds s' = <[os_next_id s := ino]> (os_fds s) /\
    os_next_id s' = os_next_id s + 1 /\ o = Returned (Some (os_next_id s)).
Proof.
  intros (s0 & (E1 & E2 & E3) & [[-> ->]|(a & Hc & ->)])%faulty_inv; [by left|].
  rewrite <- E1, <- E2, <- E3. destruct (names use_shm s0 !! name) as [ino|].
  - injection Hc as <- <-. right. by exists ino.
  - destruct creat; injection Hc as <- <-; [right; by exists (os_next s0)|by left].
Qed.

Lemma sys_fstat_inv fd s s' o :
  sys_fstat fd s = (s', o) -> frame s s' /\ exists st, o = Returned st.
Proof. intros (s0 & Hf & [[-> ->]|(a & [= <- <-] & ->)])%faulty_inv; eauto. Qed.

Lemma sys_ftruncate_inv fd size s s' o :
  sys_ftruncate fd size s = (s', o) -> frame s s' /\ exists ok, o = Returned ok.
Proof.
  intros (s0 & Hf & [[-> ->]|(a & Hc & ->)])%faulty_inv; [eauto|].
  destruct (fd_inode s0 fd) as [[ino i]|]; injection Hc as <- <-; eauto.
Qed.

Lemma sys_mmap_inv fd s s' o :
  sys_mmap fd s = (s', o) ->
  frame s s' /\ o = Returned None \/
  exists ino, os_maps s' = <[os_next_id s := ino]> (os_maps s) /\ os_fds s' = os_fds s /\
    os_next_id s' = os_next_id s + 1 /\ o = Returned (Some (os_next_id s)).
Proof.
  intros (s0 & (E1 & E2 & E3) & [[-> ->]|(a & Hc & ->)])%faulty_inv; [by left|].
  rewrite <- E1, <- E2, <- E3.
  destruct (os_fds s0 !! fd) as [ino|]; injection Hc as <- <-; [right; by exists ino|by left].
Qed.

Lemma on_ring_inv {A} addr f s s' (o : outcome A) : on_ring shm_size addr f s = (s', o) -> frame s s'.
Proof.
  unfold on_ring. destruct (mapped s addr) as [[ino i]|]; [|by intros [= <- _]].
  destruct (_ <=? _); [|by intros [= <- _]]. destruct (f _) as [[r a]|]; by intros [= <- _].
Qed.

Lemma bind_inv {A B} (m : shm (T := T) A) (f : A -> shm B) s s' o :
  (x ← m; f x) s = (s', o) ->
  (exists s1 a, m s = (s1, Returned a) /\ f a s1 = (s', o)) \/
  (exists w, m s = (s', Thrown w) /\ o = Thrown w) \/ (m s = (s', Crashed) /\ o = Crashed).
Proof.
  unfold mbind, shm_bind. destruct (m s) as [s1 [a|w|]]; [eauto| |]; intros [= <- <-]; eauto.
Qed.

Lemma on_ring_nothrow {A} addr f s s' w : on_ring shm_size addr f s <> (s', Thrown (A := A) w).
Proof.
  unfold on_ring. destruct (mapped s addr) as [[ino i]|]; [|done].
  destruct (_ <=? _); [|done]. by destruct (f _) as [[r a]|].
Qed.

Lemma attach_buffer_inv addr s s' o :
  attach_buffer capacity shm_size addr s = (s', o) -> frame s s' /\ (forall w, o <> Thrown w).
Proof.
  pose proof (@on_ring_nothrow) as Hno. unfold attach_buffer. intros [(s1 & a & H1 & H2)|[(w & H1 & ->)|[H1 ->]]]%bind_inv.
  - apply on_ring_inv in H1 as F1. destruct (negb a).
    + pose proof (on_ring_inv _ _ _ _ _ H2) as F2. split; [by eapply frame_trans|].
      intros w ->. by eapply Hno.
    + injection H2 as <- <-. split; [done|by intros w].
  - by apply Hno in H1.
  - split; [by eapply on_ring_inv|by intros w].
Qed.

(** What is left after a call that returned an object, or threw: one new mapping,
    or none; an exception that says [leaky] leaves one descriptor open. *)
Definition acquires (leaky : string) s s' (o : outcome Buf) : Prop :=
  match o with
  | Returned b => ids_fresh s' /\ os_fds s' = os_fds s /\
      exists addr ino, buffer_ b = Some addr /\ os_maps s !! addr = None /\ os_maps s' = <[addr := ino]> (os_maps s)
  | Thrown w => ids_fresh s' /\ os_maps s' = os_maps s /\
      size (os_fds s') = (size (os_fds s) + if decide (w = leaky) then 1 else 0)%nat
  | Crashed => True
  end.

Lemma ids_not_mapped s n : ids_fresh s -> os_next_id s <= n -> os_maps s !! n = None.
Proof. intros [Hm _] Hn. apply eq_None_not_Some. intros ?%Hm. lia. Qed.

Lemma ids_not_open s n : ids_fresh s -> os_next_id s <= n -> os_fds s !! n = None.
Proof. intros [_ Hm] Hn. apply eq_None_not_Some. intros ?%Hm. lia. Qed.

(** The part that both functions end with. *)
Lemma map_inv fd s s' o (f : Z -> Buf) :
  (ptr ← sys_mmap fd; _ ← sys_close fd;
   match ptr with
   | None => throw "Failed to mmap shm: "
   | Some ptr => _ ← attach_buffer capacity shm_size ptr; mret (f ptr)
   end) s = (s', o) ->
  ids_fresh s ->
  match o with
  | Returned b => ids_fresh s' /\ os_fds s' = delete fd (os_fds s) /\ b = f (os_next_id s) /\
      exists ino, os_maps s' = <[os_next_id s := ino]> (os_maps s)
  | Thrown w => ids_fresh s' /\ os_fds s' = delete fd (os_fds s) /\ w = "Failed to mmap shm: " /\ os_maps s' = os_maps s
  | Crashed => True
  end.
Proof.
  intros [(s1 & ptr & Hm & Ht)|[(w & Hm & ->)|[Hm ->]]]%bind_inv [Hfm Hff];
    apply sys_mmap_inv in Hm as [[(E1 & E2 & E3) ?]|(ino & E1 & E2 & E3 & ?)]; simplify_eq/=.
  - unfold mbind, shm_bind, sys_close in Ht. injection Ht as <- <-. simpl. rewrite E1, E2. split; [|done].
    split; simpl; rewrite E3; [exact Hfm|].
    intros n [_ Hn]%lookup_delete_is_Some. by apply Hff.
  - unfold mbind at 1, shm_bind, sys_close in Ht.
    apply bind_inv in Ht as [(s2 & [] & Ha & Hr)|[(w & Ha & ->)|[Ha ->]]]; [|by apply attach_buffer_inv in Ha as [_ []%(fun X => X w)]|done].
    injection Hr as <- <-. apply attach_buffer_inv in Ha as [(F1 & F2 & F3) _]. simpl in *.
    rewrite F1, F2, E1, E2. split; [|by eauto]. split; rewrite F3, E3; [rewrite F1, E1|rewrite F2, E2].
    + intros n [<-|?%Hfm]%lookup_insert_is_Some'; lia.
    + intros n [_ ?%Hff]%lookup_delete_is_Some. lia.
Qed.

(** After a descriptor was opened and closed again the table is as before. *)
Lemma reopened s s1 ino :
  ids_fresh s -> os_maps s1 = os_maps s -> os_fds s1 = <[os_next_id s := ino]> (os_fds s) ->
  os_next_id s1 = os_next_id s + 1 ->
  ids_fresh s1 /\ delete (os_next_id s) (os_fds s1) = os_fds s /\ size (os_fds s1) = S (size (os_fds s)).
Proof.
  intros Hs E1 E2 E3. pose proof (ids_not_open s (os_next_id s) Hs ltac:(lia)) as Hn. rewrite E2.
  split; [|by rewrite delete_insert_id, map_size_insert_None].
  destruct Hs as [Hfm Hff]. split; rewrite E3; [rewrite E1|rewrite E2].
  - intros n ?%Hfm. lia.
  - intros n [<-|?%Hff]%lookup_insert_is_Some'; lia.
Qed.

(** A tail that maps the descriptor just opened acquires one mapping. *)
Lemma map_acquires leaky s s1 s' o ino f :
  ids_fresh s -> os_maps s1 = os_maps s -> os_fds s1 = <[os_next_id s := ino]> (os_fds s) ->
  os_next_id s1 = os_next_id s + 1 -> leaky <> "Failed to mmap shm: " ->
  (forall ptr, buffer_ (f ptr) = Some ptr) ->
  (ptr ← sys_mmap (os_next_id s); _ ← sys_close (os_next_id s);
   match ptr with
   | None => throw "Failed to mmap shm: "
   | Some ptr => _ ← attach_buffer capacity shm_size ptr; mret (f ptr)
   end) s1 = (s', o) ->
  acquires leaky s s' o.
Proof.
  intros Hs E1 E2 E3 Hne Hfb Ht. destruct (reopened s s1 ino Hs E1 E2 E3) as (Hs1 & Hdel & _).
  apply map_inv in Ht; [|done]. destruct o as [b|w|]; [| |done]; simpl.
  - destruct Ht as (? & ? & -> & ino' & Hm). rewrite Hfb. split; [done|]. split; [congruence|].
    exists (os_next_id s1), ino'. split; [done|]. split; [by apply ids_not_mapped; [done|lia]|congruence].
  - destruct Ht as (? & Hfd & -> & Hm). split; [done|]. split; [congruence|].
    rewrite decide_False by congruence. rewrite Hfd, Hdel. lia.
Qed.

Lemma open_acquires prefix use_shm s s' o :
  open_exist_shm capacity shm_size prefix use_shm s = (s', o) -> ids_fresh s ->
  acquires "Failed to get fstat for shm: " s s' o.
Proof.
  intros [(s1 & fd & Hm & Ht)|[(w & Hm & ->)|[Hm ->]]]%bind_inv Hs;
    apply sys_open_inv in Hm as [[Hfr ?]|(ino & E1 & E2 & E3 & ?)]; simplify_eq/=.
  - injection Ht as <- <-. simpl. split; [by eapply frame_fresh|]. destruct Hfr as (? & E & ?).
    split; [done|]. rewrite E. lia.
  - by eapply map_acquires in Ht.
Qed.

Lemma truncate_empty_inv (empty : bool) fd s s' o :
  (if empty then sys_ftruncate fd shm_size else mret true) s = (s', o) ->
  frame s s' /\ exists ok, o = Returned ok.
Proof. destruct empty; [by apply sys_ftruncate_inv|intros [= <- <-]; split; [done|eauto]]. Qed.

Lemma create_acquires prefix use_shm s s' o :
  create capacity shm_size prefix use_shm s = (s', o) -> ids_fresh s ->
  acquires "Failed to get fstat for shm: " s s' o.
Proof.
  intros [(s1 & fd & Hm & Ht)|[(w & Hm & ->)|[Hm ->]]]%bind_inv Hs;
    apply sys_open_inv in Hm as [[Hfr ?]|(ino & E1 & E2 & E3 & ?)]; simplify_eq/=.
  - injection Ht as <- <-. simpl. split; [by eapply frame_fresh|]. destruct Hfr as (? & E & ?).
    split; [done|]. rewrite E. lia.
  - destruct (reopened s s1 ino Hs E1 E2 E3) as (Hs1 & Hdel & Hsz).
    apply bind_inv in Ht as [(s2 & st & Hm & Ht)|[(w & Hm & ->)|[Hm ->]]];
      apply sys_fstat_inv in Hm as [Hfr (st' & ?)]; simplify_eq/=.
    pose proof Hfr as (F1 & F2 & F3). pose proof (frame_fresh _ _ Hfr Hs1) as Hs2.
    destruct st' as [size|].
    2:{ injection Ht as <- <-. split; [done|]. split; [congruence|]. simpl. rewrite F2, Hsz. lia. }
    apply bind_inv in Ht as [(s3 & ok & Hm & Ht)|[(w & Hm & ->)|[Hm ->]]]; [| |done].
    all: apply truncate_empty_inv in Hm as [Hfr3 (ok' & ?)]; simplify_eq/=.
    pose proof (frame_fresh _ _ Hfr3 Hs2) as Hs3. destruct Hfr3 as (G1 & G2 & G3). destruct ok'; simpl in Ht.
    + eapply (map_acquires _ s s3 s' o ino); [done|congruence|congruence|congruence|done| |exact Ht]. done.
    + unfold mbind, shm_bind, sys_close in Ht. injection Ht as <- <-. simpl.
      rewrite G2, F2, Hdel. split; [|split; [congruence|lia]].
      destruct Hs3 as [Hfm _]. split; simpl; [done|]. intros n ?%(proj2 Hs). lia.
Qed.

Lemma release_inv b s s' :
  release shm_size b s = (s', Returned tt) ->
  os_fds s' = os_fds s /\ os_next_id s' = os_next_id s /\
  os_maps s' = match buffer_ b with Some addr => delete addr (os_maps s) | None => os_maps s end.
Proof.
  unfold release. destruct (buffer_ b) as [addr|]; [|by intros [= <-]].
  intros [(s1 & [] & Hd & Ht)|[(w & _ & [=])|[_ [=]]]]%bind_inv.
  assert (frame s s1) as (E1 & E2 & E3).
  { destruct (is_owner_ b); [by eapply on_ring_inv|by injection Hd as <-]. }
  unfold mbind, shm_bind, sys_munmap in Ht.
  destruct (is_owner_ b); injection Ht as <-; simpl; by rewrite E1, E2, E3.
Qed.

(** The objects of all processes, by name; [sh_leaked] counts the calls that threw
    because [fstat] failed. *)
Record holders := mkHolders { sh_os : OS (T := T); sh_objs : gmap nat Buf; sh_leaked : nat }.

(** [v = std::move(w)]. *)
Definition assign (v w : nat) (objs : gmap nat Buf) : shm (T := T) (gmap nat Buf) :=
  match objs !! v, objs !! w with
  | Some this, Some other =>
      if decide (v = w) then mret objs
      else '(this', other') ← move_assign shm_size this other; mret (<[v := this']> (<[w := other']> objs))
  | _, _ => mret objs
  end.

(** The two functions that make an object. *)
Definition make (owner : bool) (prefix : string) (use_shm : bool) : shm (T := T) Buf :=
  if owner then create capacity shm_size prefix use_shm else open_exist_shm capacity shm_size prefix use_shm.

Inductive holders_step : holders -> holders -> Prop :=
| Make owner prefix use_shm v b s s' objs n :
    objs !! v = None -> make owner prefix use_shm s = (s', Returned b) ->
    holders_step (mkHolders s objs n) (mkHolders s' (<[v := b]> objs) n)
| Make_throws owner prefix use_shm w s s' objs n :
    make owner prefix use_shm s = (s', Thrown w) ->
    holders_step (mkHolders s objs n)
      (mkHolders s' objs (n + if decide (w = "Failed to get fstat for shm: ") then 1 else 0)%nat)
| Move_construct v w b s objs n :
    objs !! v = Some b -> objs !! w = None ->
    holders_step (mkHolders s objs n)
      (mkHolders s (<[w := (move_construct b).1]> (<[v := (move_construct b).2]> objs)) n)
| Move_assign v w s s' objs objs' n :
    assign v w objs s = (s', Returned objs') -> holders_step (mkHolders s objs n) (mkHolders s' objs' n)
| Use {A} v b (f : MpscRingBuffer T -> res (MpscRingBuffer T * A)) a s s' objs n :
    objs !! v = Some b -> on_buffer shm_size b f s = (s', Returned a) ->
    holders_step (mkHolders s objs n) (mkHolders s' objs n)
| Destroy v b s s' objs n :
    objs !! v = Some b -> release shm_size b s = (s', Returned tt) ->
    holders_step (mkHolders s objs n) (mkHolders s' (delete v objs) n).

(** Object [v] holds the mapping at [addr]. *)
Definition holds (objs : gmap nat Buf) (v : nat) (addr : Z) : Prop := buffer_ <$> objs !! v = Some (Some addr).

(** Every mapping is held by exactly one object, and an object holds only what is mapped. *)
Record exclusive (m : gmap Z nat) (objs : gmap nat Buf) : Prop := {
  ex_mapped v addr : holds objs v addr -> is_Some (m !! addr);
  ex_held addr : is_Some (m !! addr) -> exists v, holds objs v addr;
  ex_one v w addr : holds objs v addr -> holds objs w addr -> v = w
}.

Definition resources_ok (h : holders) : Prop :=
  ids_fresh (sh_os h) /\ exclusive (os_maps (sh_os h)) (sh_objs h) /\ size (os_fds (sh_os h)) = sh_leaked h.

Lemma holds_insert objs v b w addr :
  holds (<[v := b]> objs) w addr <-> v = w /\ buffer_ b = Some addr \/ v <> w /\ holds objs w addr.
Proof.
  unfold holds. destruct (decide (v = w)) as [->|Hne].
  - rewrite lookup_insert_eq. simpl. split; [intros E; left; split; [done|congruence]|].
    intros [[_ ->]|[[] _]]; done.
  - rewrite lookup_insert_ne by done. naive_solver.
Qed.

Lemma holds_delete objs v w addr : holds (delete v objs) w addr <-> v <> w /\ holds objs w addr.
Proof.
  unfold holds. destruct (decide (v = w)) as [->|Hne].
  - rewrite lookup_delete_eq. naive_solver.
  - rewrite lookup_delete_ne by done. naive_solver.
Qed.

Lemma holds_at objs v b addr : objs !! v = Some b -> holds objs v addr <-> buffer_ b = Some addr.
Proof. intros Hv. unfold holds. rewrite Hv. simpl. split; congruence. Qed.

Lemma exclusive_ext m objs objs' :
  (forall v addr, holds objs v addr <-> holds objs' v addr) -> exclusive m objs -> exclusive m objs'.
Proof. intros E [H1 H2 H3]. split; naive_solver. Qed.

(** An object that held nothing gets a new mapping. *)
Lemma exclusive_take m objs v b addr ino :
  objs !! v = None -> buffer_ b = Some addr -> m !! addr = None -> exclusive m objs ->
  exclusive (<[addr := ino]> m) (<[v := b]> objs).
Proof.
  intros Hv Hb Hm [H1 H2 H3]. split.
  - intros w a Hw. apply lookup_insert_is_Some'. apply holds_insert in Hw as [[? ?]|[? ?]]; [left; congruence|eauto].
  - intros a [<-|Ha]%lookup_insert_is_Some'; [exists v; apply holds_insert; auto|].
    destruct (H2 _ Ha) as [w Hw]. exists w. apply holds_insert. right. split; [|done].
    intros ->. unfold holds in Hw. by rewrite Hv in Hw.
  - assert (forall w, ~ holds objs w addr) as Hno by (intros w []%H1; congruence).
    intros w1 w2 a [[? ?]|[? ?]]%holds_insert [[? ?]|[? ?]]%holds_insert; naive_solver.
Qed.

(** An object gives its mapping back. *)
Lemma exclusive_give m objs v b b' :
  objs !! v = Some b -> buffer_ b' = None -> exclusive m objs ->
  exclusive (match buffer_ b with Some addr => delete addr m | None => m end) (<[v := b']> objs).
Proof.
  intros Hv Hb [H1 H2 H3]. pose proof (fun a => holds_at objs v b a Hv) as Hat.
  destruct (buffer_ b) as [addr|].
  - split.
    + intros w a [[? ?]|[Hne Hw]]%holds_insert; [congruence|]. apply lookup_delete_is_Some. naive_solver.
    + intros a [Hne (w & Hw)%H2]%lookup_delete_is_Some. exists w. apply holds_insert. right. naive_solver.
    + intros w1 w2 a ?%holds_insert ?%holds_insert. naive_solver.
  - apply (exclusive_ext m objs); [|done]. intros w a. rewrite holds_insert. naive_solver.
Qed.

(** A mapping goes from one object to another that holds none. *)
Lemma exclusive_move m objs v w b b' b'' :
  v <> w -> objs !! v = Some b -> (forall addr, ~ holds objs w addr) -> buffer_ b' = buffer_ b -> buffer_ b'' = None ->
  exclusive m objs -> exclusive m (<[w := b']> (<[v := b'']> objs)).
Proof.
  intros Hne Hv Hw Hb' Hb'' [H1 H2 H3]. pose proof (fun a => holds_at objs v b a Hv) as Hat. split.
  - intros x a [[_ E]|[_ [[_ E]|[_ Hx]]%holds_insert]]%holds_insert; [|congruence|eauto].
    apply (H1 v), Hat. congruence.
  - intros a (x & Hx)%H2. destruct (decide (x = v)) as [->|].
    + exists w. apply holds_insert. left. split; [done|]. apply Hat in Hx. congruence.
    + exists x. rewrite !holds_insert. right. split; [naive_solver|]. right. naive_solver.
  - assert (forall x a, holds (<[w := b']> (<[v := b'']> objs)) x a ->
      x = w /\ holds objs v a \/ x <> v /\ x <> w /\ holds objs x a) as Hinv.
    { intros x a. rewrite !holds_insert, (Hat a). intros [[<- E]|[? [[_ E]|[? Hx]]]]; [left; split; congruence|congruence|naive_solver]. }
    intros x1 x2 a [[-> E1]|(? & ? & E1)]%Hinv [[-> E2]|(? & ? & E2)]%Hinv; [done| | |by eapply H3].
    + by pose proof (H3 _ _ _ E1 E2).
    + by pose proof (H3 _ _ _ E1 E2).
Qed.

Lemma resources_frame s s' objs n :
  frame s s' -> resources_ok (mkHolders s objs n) -> resources_ok (mkHolders s' objs n).
Proof.
  intros Hfr (H1 & H2 & H3). split; [by eapply frame_fresh|]. destruct Hfr as (E1 & E2 & _). simpl in *. by rewrite E1, E2.
Qed.

(** Giving back what [v] holds leaves [v] empty-handed. *)
Lemma release_resources v b b' s s' objs n :
  objs !! v = Some b -> buffer_ b' = None -> release shm_size b s = (s', Returned tt) ->
  resources_ok (mkHolders s objs n) -> resources_ok (mkHolders s' (<[v := b']> objs) n).
Proof.
  intros Hv Hb' (E1 & E2 & E3)%release_inv ([Hm Hf] & Hex & Hsz). simpl in *.
  split; [|split; [simpl; rewrite E3; by apply exclusive_give|simpl; congruence]].
  split; simpl; [rewrite E2, E3|by rewrite E1, E2].
  intros addr Ha. apply Hm. destruct (buffer_ b); [by apply lookup_delete_is_Some in Ha as []|done].
Qed.

Lemma assign_resources v w s s' objs objs' n :
  assign v w objs s = (s', Returned objs') ->
  resources_ok (mkHolders s objs n) -> resources_ok (mkHolders s' objs' n).
Proof.
  unfold assign. destruct (objs !! v) as [this|] eqn:Hv; [|by intros [= <- <-]].
  destruct (objs !! w) as [other|] eqn:Hw; [|by intros [= <- <-]].
  case_decide as Hne; [by intros [= <- <-]|]. intros Ha Hok. unfold move_assign in Ha.
  apply bind_inv in Ha as [(s1 & [x y] & Hm & Ht)|[(? & _ & [=])|[_ [=]]]]. injection Ht as <- <-.
  apply bind_inv in Hm as [(s2 & [] & Hr & Ht)|[(? & _ & [=])|[_ [=]]]]. injection Ht as <- <- <-.
  pose proof (release_resources v this (moved_from this) s s2 objs n Hv eq_refl Hr Hok) as (H1 & H2 & H3).
  split; [done|]. split; [|done]. simpl in *.
  eapply exclusive_ext; [|eapply (exclusive_move _ _ w v other); [| |..|exact H2]].
  - intros x a. rewrite !holds_insert. instantiate (1 := moved_from other).
    instantiate (1 := mkShmBuffer (buffer_ other) (is_owner_ other) (shm_file_path_ other) (use_shm_open_ other)). tauto.
  - congruence.
  - by rewrite lookup_insert_ne.
  - intros a. rewrite holds_insert. simpl. naive_solver.
  - done.
  - done.
Qed.

Lemma make_acquires owner prefix use_shm s s' o :
  make owner prefix use_shm s = (s', o) -> ids_fresh s -> acquires "Failed to get fstat for shm: " s s' o.
Proof. destruct owner; [apply create_acquires|apply open_acquires]. Qed.

Lemma holders_step_ok h h' : holders_step h h' -> resources_ok h -> resources_ok h'.
Proof.
  intros Hst. destruct Hst as [owner prefix us v b s s' objs n Hv Hm|owner prefix us w s s' objs n Hm
    |v w b s objs n Hv Hw|v w s s' objs objs' n Ha|A v b f a s s' objs n Hv Hu|v b s s' objs n Hv Hr].
  - intros (H1 & H2 & H3). destruct (make_acquires _ _ _ _ _ _ Hm H1) as (F & E & addr & ino & Hb & Hn & Em).
    simpl in *. split; [done|]. simpl. rewrite E, Em. split; [by apply exclusive_take|done].
  - intros (H1 & H2 & H3). destruct (make_acquires _ _ _ _ _ _ Hm H1) as (F & E & Esz).
    simpl in *. split; [done|]. simpl. rewrite E, Esz. split; [done|lia].
  - intros (H1 & H2 & H3). split; [done|]. split; [|done]. simpl in *.
    eapply exclusive_move; [congruence|done| |done|done|done]. intros a. unfold holds. by rewrite Hw.
  - exact (assign_resources _ _ _ _ _ _ n Ha).
  - apply resources_frame. unfold on_buffer in Hu. destruct (buffer_ b); [by eapply on_ring_inv|done].
  - intros Hok. destruct (release_resources v b (moved_from b) s s' objs n Hv eq_refl Hr Hok) as (H1 & H2 & H3).
    split; [done|]. split; [|done]. eapply exclusive_ext; [|exact H2]. intros w a. simpl.
    rewrite holds_insert, holds_delete. simpl. naive_solver.
Qed.

(** C8: no ring is unmapped twice and none is forgotten.  Let processes that
    start with no mapping and no open descriptor create and open buffers, move
    them by construction or assignment (onto themselves too), push, pop and
    destroy them in any order, any system call failing at any time.  Every object
    then points to memory that is mapped, two objects never to the same mapping,
    and every mapping belongs to a live object, so that nothing is mapped once all
    objects are destroyed.  The open descriptors are exactly those of the calls
    of [create] that threw because [fstat] failed. *)
Theorem shm_resources h h' :
  os_maps (sh_os h) = ∅ -> os_fds (sh_os h) = ∅ -> sh_objs h = ∅ -> sh_leaked h = 0%nat ->
  rtc holders_step h h' ->
  (forall v addr, holds (sh_objs h') v addr ->
     is_Some (os_maps (sh_os h') !! addr) /\ forall w, holds (sh_objs h') w addr -> w = v) /\
  (forall addr, is_Some (os_maps (sh_os h') !! addr) -> exists v, holds (sh_objs h') v addr) /\
  (sh_objs h' = ∅ -> os_maps (sh_os h') = ∅) /\
  size (os_fds (sh_os h')) = sh_leaked h'.
Proof.
  intros Em Ef Eo En Hsteps.
  assert (resources_ok h) as Hok.
  { split; [split; rewrite ?Em, ?Ef; by intros ? [? ?]|]. rewrite Em, Ef, Eo, En. split; [|apply map_size_empty].
    split; [intros ? ? [=]|intros ? [? [=]]|intros ? ? ? [=]]. }
  assert (resources_ok h') as (_ & [H1 H2 H3] & Hsz).
  { clear Em Ef Eo En. induction Hsteps; [done|]. eauto using holders_step_ok. }
  split; [eauto|]. split; [done|]. split; [|done]. intros E. apply map_empty. intros addr.
  apply eq_None_not_Some. intros [v Hv]%H2. rewrite E in Hv. done.
Qed.
End Resources.

(** ** Small runs *)
Section Runs.
Abbreviation cap4 := (2 ^ 2).
Abbreviation size4 := 128.

Definition os0 (faults : list bool) : OS (T := Z) := mkOS ∅ ∅ ∅ ∅ ∅ 0 3 faults.

(** The deployed use: the consumer creates, the producer opens and pushes. *)
Lemma shm_handover_witness :
  exists s1 consumer producer s2,
    (c ← create cap4 size4 "orders" true; p ← open_exist_shm cap4 size4 "orders" true;
     ok ← shm_try_push cap4 size4 p 7; mret (c, p, ok)) (os0 []) = (s1, Returned (consumer, producer, true)) /\
    shm_try_pop cap4 size4 consumer s1 = (s2, Returned (Some 7)).
Proof.
  destruct (shm_handover 2 size4 ltac:(lia) ltac:(lia) (os0 []) true "orders" [] 7) as (s1 & c & p & s2 & H1 & _ & _ & _ & H2 & _).
  - by split; intros ? [? ?].
  - done.
  - by left.
  - simpl. lia.
  - exists s1, c, p, s2. split; [exact H1|exact H2].
Defined.

(** The same, step by step, for a ring that holds a message already. *)
Example shm_handover_used :
  ((c ← create cap4 size4 "orders" true; _ ← shm_try_push cap4 size4 c 5; p ← open_exist_shm cap4 size4 "orders" true;
    _ ← shm_try_push cap4 size4 p 6; a ← shm_try_pop cap4 size4 c; b ← shm_try_pop cap4 size4 c;
    d ← shm_try_pop cap4 size4 c; mret (a, b, d)) (os0 [])).2 = Returned (Some 5, Some 6, None).
Proof. vm_compute. reflexivity. Qed.

(** A creator, a second creator whose [fstat] fails, a move, and the ends of both objects. *)
Definition busy : list bool := [false; false; false; false; false; true].
Definition os1 : OS (T := Z) := (create cap4 size4 "orders" true (os0 busy)).1.
Definition os2 : OS (T := Z) := (create cap4 size4 "trades" true os1).1.
Definition first_object : MpscSharedMemoryRingBuffer := mkShmBuffer (Some 4) true "orders_4" true.
Definition os3 : OS (T := Z) := (release size4 first_object os2).1.

Lemma shm_resources_witness :
  exists h', rtc (holders_step cap4 size4) (mkHolders (os0 busy) ∅ 0) h' /\
    sh_objs h' = ∅ /\ os_maps (sh_os h') = ∅ /\ size (os_fds (sh_os h')) = 1%nat.
Proof.
  assert (rtc (holders_step cap4 size4) (mkHolders (os0 busy) ∅ 0) (mkHolders os3 ∅ 1)) as Hrun.
  { eapply rtc_l; [eapply (Make _ _ true "orders" true 0 first_object (os0 busy) os1); vm_compute; reflexivity|].
    eapply rtc_l; [eapply (Make_throws _ _ true "trades" true _ os1 os2); vm_compute; reflexivity|].
    eapply rtc_l; [eapply (Move_construct _ _ 0 1); vm_compute; reflexivity|].
    eapply rtc_l; [eapply (Destroy _ _ 1 first_object os2 os3); vm_compute; reflexivity|].
    eapply rtc_l; [eapply (Destroy _ _ 0 (moved_from first_object) os3 os3); vm_compute; reflexivity|].
    apply rtc_refl. }
  exists (mkHolders os3 ∅ 1). split; [exact Hrun|]. split; [reflexivity|].
  destruct (shm_resources cap4 size4 (mkHolders (os0 busy) ∅ 0) _ eq_refl eq_refl eq_refl eq_refl Hrun) as (_ & _ & H1 & H2).
  exact (conj (H1 eq_refl) H2).
Defined.

(** The owner starts again: its destructor removes the name, so that the new owner
    gets a new ring.  A producer that is still attached to the old one goes on
    pushing, its pushes succeed, and nobody reads them. *)
Example owner_restart_orphans :
  ((c ← create cap4 size4 "orders" true; p ← open_exist_shm cap4 size4 "orders" true; _ ← release size4 c;
    c' ← create cap4 size4 "orders" true; ok ← shm_try_push cap4 size4 p 7; got ← shm_try_pop cap4 size4 c';
    mret (ok, got)) (os0 [])).2 = Returned (true, None).
Proof. vm_compute. reflexivity. Qed.

(** Two owners: the one that ends takes the name away from the other. *)
Example second_owner_unlinks :
  ((c ← create cap4 size4 "orders" true; d ← create cap4 size4 "orders" true; _ ← release size4 d;
    p ← open_exist_shm cap4 size4 "orders" true; mret (is_owner_ p)) (os0 [])).2 = Thrown "Failed to open shm: ".
Proof. vm_compute. reflexivity. Qed.

(** The steps of [create] up to the moment where it has seen that the ring is not
    initialised, and the step that is left. *)
Definition create_until_check : shm (T := Z) (option Z * bool) :=
  fd ← sys_open true true "orders_4";
  match fd with
  | None => throw "Failed to create shm: "
  | Some fd =>
      _ ← sys_fstat fd; _ ← sys_ftruncate fd size4; ptr ← sys_mmap fd; _ ← sys_close fd;
      match ptr with
      | None => throw "Failed to mmap shm: "
      | Some ptr => initialized ← on_ring size4 ptr (fun r => Ok (r, is_initialized r)); mret (Some ptr, initialized)
      end
  end.

(** Nothing orders the check and the initialisation between processes: an opener
    that comes in between initialises the ring and pushes, and the creator's own
    initialisation then wipes the message out. *)
Example late_init_loses_messages :
  ((cp ← create_until_check;
    p ← open_exist_shm cap4 size4 "orders" true; ok ← shm_try_push cap4 size4 p 7;
    let c := mkShmBuffer cp.1 true "orders_4" true in
    _ ← on_buffer size4 c (fun r => Ok (init cap4 r, tt)); got ← shm_try_pop cap4 size4 c;
    mret (cp.2, ok, got)) (os0 [])).2 = Returned (false, true, None).
Proof. vm_compute. reflexivity. Qed.
End Runs.
