(* ===== verification/Doubles.v ===== *)
(** * Prices and quantities as doubles

    FIX carries prices and quantities as decimal numbers, which the gateway and
    the market data feed hold as [double]; the services compute with integers of
    a hundredth.  [libs/core/orders.h] converts by multiplying with
    [decimal_to_int_multiplier] and truncating.  A [double] is an IEEE 754
    binary64 number of the Standard Library's [SpecFloat], rounding to nearest
    even, so the conversions evaluate; the lemmas bound the rounding errors. *)

From S2P Require Import Prelude.
From Stdlib Require Import ZArith Lia SpecFloat.
From stdpp Require Import base option.

Open Scope Z_scope.

Definition double : Type := spec_float.
Definition of_int (z : Z) : double := binary_normalize 53 1024 z 0 false.
Definition dmul : double -> double -> double := SFmul 53 1024.
Definition ddiv : double -> double -> double := SFdiv 53 1024.
Definition dadd : double -> double -> double := SFadd 53 1024.
Definition dsub : double -> double -> double := SFsub 53 1024.
Definition dlt : double -> double -> bool := SFltb.
Definition deq : double -> double -> bool := SFeqb.
Definition dzero : double := S754_zero false.
(** The literal [n.d]: the double nearest to [num / den]. *)
Definition decimal (num den : Z) : double := ddiv (of_int num) (of_int den).

(** [std::trunc] *)
Definition dtrunc (d : double) : double :=
  match d with
  | S754_finite s m e =>
      if 0 <=? e then d
      else of_int (if s then - Z.shiftl (Zpos m) e else Z.shiftl (Zpos m) e)
  | _ => d
  end.

(** [std::max(a, b)] is [(a < b) ? b : a]. *)
Definition dmax (a b : double) : double := if dlt a b then b else a.

(** [std::round]: to the nearest integer, halves away from zero. *)
Definition dround (d : double) : double :=
  match d with
  | S754_finite s m e =>
      if 0 <=? e then d
      else
        let q := Z.shiftl (Zpos m) e in
        let a := if 2 ^ (- e) <=? 2 * (Zpos m mod 2 ^ (- e)) then q + 1 else q in
        of_int (if s then - a else a)
  | _ => d
  end.

(** [std::llround]: to the nearest integer, halves away from zero; the result is
    unspecified out of range. *)
Definition llround (d : double) : res Z :=
  match d with
  | S754_zero _ => Ok 0
  | S754_finite s m e =>
      let q := Z.shiftl (Zpos m) e in
      let a := if (e <? 0) && (2 ^ (- e) <=? 2 * (Zpos m mod 2 ^ (- e))) then q + 1 else q in
      let z := if s then - a else a in
      if in_i64 z then Ok z else Err BadConversion
  | S754_infinity _ | S754_nan => Err BadConversion
  end.

(** [static_cast<std::int32_t>]: truncation, undefined out of range. *)
Definition to_i32 (d : double) : res Z :=
  match d with
  | S754_zero _ => Ok 0
  | S754_finite s m e =>
      let a := Z.shiftl (Zpos m) e in
      let z := if s then - a else a in
      if in_i32 z then Ok z else Err BadConversion
  | S754_infinity _ | S754_nan => Err BadConversion
  end.

Definition decimal_to_int_multiplier : double := of_int 100.

Definition convert_to_internal_price (price : double) : res Z :=
  to_i32 (dmul price decimal_to_int_multiplier).

Definition convert_to_internal_quantity (quantity : double) : res Z :=
  to_i32 (dmul quantity decimal_to_int_multiplier).

(** [p / (double)decimal_to_int_multiplier], the number that is sent for an
    internal price or quantity. *)
Definition to_decimal (p : Z) : double := ddiv (of_int p) decimal_to_int_multiplier.

(** ** Digits and shifts *)
Lemma digits_log2 p : Zpos (digits2_pos p) = Z.log2 (Zpos p) + 1.
Proof.
  induction p as [p IH|p IH|]; [| |done]; simpl digits2_pos; rewrite Pos2Z.inj_succ, IH.
  - rewrite (Pos2Z.inj_xI p), Z.log2_succ_double by lia. lia.
  - rewrite (Pos2Z.inj_xO p), Z.log2_double by lia. lia.
Qed.

Lemma Zdigits2_unique m d : 2 ^ (d - 1) <= m < 2 ^ d -> 0 < d -> Zdigits2 m = d.
Proof.
  intros Hm Hd. assert (0 < 2 ^ (d - 1)) by (apply Z.pow_pos_nonneg; lia).
  destruct m as [|p|p]; [lia| |lia]. unfold Zdigits2. rewrite digits_log2.
  rewrite (Z.log2_unique (Zpos p) (d - 1)); [lia|lia|].
  by replace (Z.succ (d - 1)) with d by lia.
Qed.

Lemma Zdigits2_spec m : 0 < m -> 2 ^ (Zdigits2 m - 1) <= m < 2 ^ Zdigits2 m /\ 0 < Zdigits2 m.
Proof.
  intros Hm. destruct m as [|p|p]; [lia| |lia]. unfold Zdigits2. rewrite digits_log2.
  pose proof (Z.log2_spec (Zpos p) eq_refl). pose proof (Z.log2_nonneg (Zpos p)).
  replace (Z.log2 (Zpos p) + 1 - 1) with (Z.log2 (Zpos p)) by lia.
  rewrite Z.add_1_r. lia.
Qed.

Lemma Zdigits2_le m d : 0 < m < 2 ^ d -> Zdigits2 m <= d.
Proof.
  intros Hm. destruct (Zdigits2_spec m) as [[Hle _] _]; [lia|].
  destruct (Z_lt_le_dec d (Zdigits2 m)); [|done].
  assert (2 ^ d <= 2 ^ (Zdigits2 m - 1)) by (apply Z.pow_le_mono_r; lia). lia.
Qed.

Lemma shr_1_half mrs : 0 <= shr_m mrs -> shr_m (shr_1 mrs) = shr_m mrs / 2.
Proof.
  destruct mrs as [m r s]; simpl. intros Hm. rewrite <- Z.div2_div.
  by destruct m as [|[p|p|]|p]; [| | | |lia].
Qed.

Lemma iter_shr_div n mrs : 0 <= shr_m mrs ->
  shr_m (iter_pos shr_1 n mrs) = shr_m mrs / 2 ^ Zpos n.
Proof.
  revert mrs; induction n as [n IH|n IH|]; intros mrs Hm; cbn [iter_pos].
  - assert (0 <= shr_m (shr_1 mrs)) by (rewrite shr_1_half by done; by apply Z.div_pos).
    rewrite !IH, shr_1_half by (rewrite ?IH by done; auto using Z.div_pos with lia).
    rewrite !Z.div_div by lia. f_equal. rewrite <- Z.pow_add_r by lia.
    rewrite (Pos2Z.inj_xI n), <- (Z.pow_1_r 2) at 1. rewrite <- Z.pow_add_r by lia. f_equal; lia.
  - rewrite !IH by (rewrite ?IH by done; auto using Z.div_pos with lia).
    rewrite Z.div_div, <- Z.pow_add_r by lia. do 2 f_equal. lia.
  - by rewrite shr_1_half.
Qed.

Lemma shr_1_exact a : 0 <= a ->
  shr_1 (Build_shr_record (a * 2) false false) = Build_shr_record a false false.
Proof. intros Ha. destruct a as [|p|p]; [done| |lia]. by rewrite Z.mul_comm. Qed.

Lemma iter_shr_exact n a : 0 <= a ->
  iter_pos shr_1 n (Build_shr_record (a * 2 ^ Zpos n) false false)
  = Build_shr_record a false false.
Proof.
  revert a; induction n as [n IH|n IH|]; intros a Ha; cbn [iter_pos].
  - rewrite (Pos2Z.inj_xI n).
    replace (a * 2 ^ (2 * Zpos n + 1)) with (a * 2 ^ Zpos n * 2 ^ Zpos n * 2)
      by (rewrite Z.pow_add_r, Z.mul_comm with (n := 2), Z.pow_mul_r by lia; ring).
    rewrite shr_1_exact, IH, IH by nia. done.
  - rewrite (Pos2Z.inj_xO n).
    replace (a * 2 ^ (2 * Zpos n)) with (a * 2 ^ Zpos n * 2 ^ Zpos n)
      by (rewrite Z.mul_comm with (n := 2), Z.pow_mul_r by lia; ring).
    by rewrite !IH by nia.
  - by apply shr_1_exact.
Qed.

(** ** Rounding *)

(** The bits to drop: the mantissa keeps 53. *)
Abbreviation excess m := (Zdigits2 m - 53).

Lemma excess_nonneg m : 2 ^ 52 <= m -> 0 <= excess m.
Proof.
  intros Hm. destruct (Zdigits2_spec m) as [[_ Hlt] Hpos]; [lia|].
  destruct (Z_lt_le_dec (Zdigits2 m) 53) as [Hd|]; [|lia].
  assert (2 ^ Zdigits2 m <= 2 ^ 52) by (apply Z.pow_le_mono_r; lia). lia.
Qed.

Lemma excess_small m : 2 ^ 52 <= m < 2 ^ 53 -> excess m = 0.
Proof. intros Hm. rewrite (Zdigits2_unique m 53); lia. Qed.

Lemma shr_fexp_normal m e l :
  2 ^ 52 <= m -> -1000 <= e ->
  exists mrs, shr_fexp 53 1024 m e l = (mrs, e + excess m) /\ shr_m mrs = m / 2 ^ excess m /\
    (l = loc_Exact -> (2 ^ excess m | m) -> loc_of_shr_record mrs = loc_Exact).
Proof.
  intros Hm He. pose proof (excess_nonneg m Hm) as Hk.
  assert (shr_m (shr_record_of_loc m l) = m) as Hrec by (by destruct l as [|[]]).
  unfold shr_fexp.
  replace (fexp 53 1024 (Zdigits2 m + e) - e) with (excess m) by (unfold fexp, emin; lia).
  destruct (excess m) as [|k|k] eqn:Ek; [| |lia]; simpl shr.
  - exists (shr_record_of_loc m l). rewrite Z.add_0_r, Hrec, Z.pow_0_r, Z.div_1_r.
    split_and!; [done|done|]. by intros ->.
  - eexists. split; [done|]. rewrite iter_shr_div by (rewrite Hrec; lia). rewrite Hrec.
    split; [done|]. intros -> [a Ha]. simpl.
    assert (0 < 2 ^ Zpos k) by lia. rewrite Ha, iter_shr_exact by nia. done.
Qed.

Lemma normal_mantissa m : 2 ^ 52 <= m -> 2 ^ 52 <= m / 2 ^ excess m < 2 ^ 53.
Proof.
  intros Hm. pose proof (excess_nonneg m Hm) as Hk.
  destruct (Zdigits2_spec m) as [[Hle Hlt] Hpos]; [lia|].
  assert (0 < 2 ^ excess m) by (apply Z.pow_pos_nonneg; lia). split.
  - apply Z.div_le_lower_bound; [done|]. rewrite <- Z.pow_add_r by lia.
    by replace (excess m + 52) with (Zdigits2 m - 1) by lia.
  - apply Z.div_lt_upper_bound; [done|]. rewrite <- Z.pow_add_r by lia.
    by replace (excess m + 53) with (Zdigits2 m) by lia.
Qed.

Lemma round_near mx lx : round_nearest_even mx lx = mx \/ round_nearest_even mx lx = mx + 1.
Proof. destruct lx as [|[]]; simpl; try case_match; auto. Qed.

(** Rounding returns a normal number within one unit in the last place, and the
    number itself when it has no more than 53 significant bits. *)
Lemma round_normal m e l :
  2 ^ 52 <= m -> -1000 <= e -> Zdigits2 m + e <= 1000 ->
  exists m' e', binary_round_aux 53 1024 false m e l = S754_finite false m' e' /\
    e <= e' /\ 2 ^ 52 <= Zpos m' < 2 ^ 53 /\
    - 2 ^ (e' - e) < Zpos m' * 2 ^ (e' - e) - m <= 2 ^ (e' - e) /\
    (l = loc_Exact -> (2 ^ excess m | m) -> Zpos m' * 2 ^ (e' - e) = m).
Proof.
  intros Hm He Hd. pose proof (excess_nonneg m Hm) as Hk.
  destruct (shr_fexp_normal m e l Hm He) as (mrs & Hshr & Hq & Hex).
  pose proof (normal_mantissa m Hm) as Hn. rewrite <- Hq in Hn.
  assert (0 < 2 ^ excess m) as Hpow by (apply Z.pow_pos_nonneg; lia).
  pose proof (Z.div_mod m (2 ^ excess m)) as Hdm. pose proof (Z.mod_pos_bound m (2 ^ excess m) Hpow).
  rewrite <- Hq in Hdm. specialize (Hdm ltac:(lia)).
  unfold binary_round_aux. rewrite Hshr.
  set (r := round_nearest_even (shr_m mrs) (loc_of_shr_record mrs)).
  assert (r = shr_m mrs \/ r = shr_m mrs + 1) as Hr by apply round_near.
  assert (l = loc_Exact -> (2 ^ excess m | m) -> r * 2 ^ excess m = m) as Hrex.
  { intros Hl Hdiv. unfold r. rewrite (Hex Hl Hdiv); simpl.
    apply Z.mod_divide in Hdiv; [|lia]. lia. }
  destruct (shr_fexp_normal r (e + excess m) loc_Exact ltac:(lia) ltac:(lia))
    as (mrs2 & Hshr2 & Hq2 & _). rewrite Hshr2, Hq2.
  destruct (Z_lt_le_dec r (2 ^ 53)) as [Hlt|Hge].
  - rewrite excess_small by lia. rewrite Z.pow_0_r, Z.div_1_r, Z.add_0_r.
    destruct r as [|p|p] eqn:Er; [lia| |lia]. rewrite (proj2 (Z.leb_le _ _)) by lia.
    exists p, (e + excess m). replace (e + excess m - e) with (excess m) by lia.
    split_and!; try done; nia.
  - assert (r = 2 ^ 53) as Er by lia. rewrite Er in *. clear Er Hshr2 Hq2.
    rewrite (Zdigits2_unique (2 ^ 53) 54) by lia. simpl (2 ^ 53 / _).
    rewrite (proj2 (Z.leb_le _ _)) by lia. eexists _, _. split; [done|].
    replace (e + excess m + (54 - 53) - e) with (excess m + 1) by lia.
    rewrite Z.pow_add_r by lia. split_and!; try lia. intros Hl Hdiv. specialize (Hrex Hl Hdiv). lia.
Qed.

(** ** The conversions *)
Lemma iter_xO p d : Zpos (Pos.iter xO p d) = Zpos p * 2 ^ Zpos d.
Proof.
  induction d as [|d IH] using Pos.peano_ind; [simpl; lia|].
  rewrite Pos.iter_succ, Pos2Z.inj_succ, Z.pow_succ_r by lia.
  rewrite (Pos2Z.inj_xO (Pos.iter _ _ _)), IH. ring.
Qed.

(** An integer below [2^53] is a double, normalised. *)
Lemma of_int_normal z : 0 < z < 2 ^ 53 ->
  exists m e, of_int z = S754_finite false m e /\ 2 ^ 52 <= Zpos m < 2 ^ 53 /\
    e = Zdigits2 z - 53 /\ e <= 0 /\ Zpos m = z * 2 ^ (- e).
Proof.
  intros Hz. destruct z as [|p|p]; [lia| |lia]. unfold of_int, binary_normalize, binary_round.
  destruct (Zdigits2_spec (Zpos p) ltac:(lia)) as [Hd Hpos]. simpl Zdigits2 in *.
  set (d := Zpos (digits2_pos p)) in *.
  assert (d <= 53) by (apply (Zdigits2_le (Zpos p)); lia).
  replace (fexp 53 1024 (d + 0)) with (d - 53) by (unfold fexp, emin; lia).
  assert (exists mz, shl_align p 0 (d - 53) = (mz, d - 53) /\ Zpos mz = Zpos p * 2 ^ (53 - d))
    as (mz & -> & Hmz).
  { unfold shl_align. rewrite Z.sub_0_r. destruct (d - 53) as [|k|k] eqn:Ek; [|lia|].
    - exists p. split; [done|]. replace (53 - d) with 0 by lia. lia.
    - eexists. split; [done|]. rewrite iter_xO. by replace (53 - d) with (Zpos k) by lia. }
  assert (2 ^ 52 <= Zpos mz < 2 ^ 53) as Hn.
  { rewrite Hmz. replace (2 ^ 52) with (2 ^ (d - 1) * 2 ^ (53 - d))
      by (rewrite <- Z.pow_add_r by lia; f_equal; lia).
    replace (2 ^ 53) with (2 ^ d * 2 ^ (53 - d)) by (rewrite <- Z.pow_add_r by lia; f_equal; lia).
    assert (0 < 2 ^ (53 - d)) by (apply Z.pow_pos_nonneg; lia). nia. }
  destruct (round_normal (Zpos mz) (d - 53) loc_Exact) as (m & e & -> & He & Hm & _ & Hex);
    [lia|lia|rewrite (Zdigits2_unique (Zpos mz) 53); lia|].
  rewrite (excess_small (Zpos mz) Hn) in Hex. specialize (Hex eq_refl (Z.divide_1_l _)).
  assert (e = d - 53) as ->.
  { destruct (Z.eq_dec e (d - 53)); [done|].
    assert (2 ^ 1 <= 2 ^ (e - (d - 53))) by (apply Z.pow_le_mono_r; lia). nia. }
  exists m, (d - 53). rewrite Z.sub_diag, Z.mul_1_r in Hex. rewrite Hex, Hmz.
  replace (- (d - 53)) with (53 - d) by lia. split_and!; try done; lia.
Qed.

Definition hundred : positive := 7036874417766400.
Lemma multiplier_normal : decimal_to_int_multiplier = S754_finite false hundred (-46).
Proof. reflexivity. Qed.

(** Truncation of a number between [p - 1] and [p + 1]. *)
Lemma to_i32_near m k p :
  0 <= k -> (p - 1) * 2 ^ k <= Zpos m < (p + 1) * 2 ^ k -> 0 < p <= INT_MAX ->
  to_i32 (S754_finite false m (- k)) = Ok p \/ to_i32 (S754_finite false m (- k)) = Ok (p - 1).
Proof.
  intros Hk Hm Hp. assert (0 < 2 ^ k) by (apply Z.pow_pos_nonneg; lia).
  unfold to_i32.
  assert (Z.shiftl (Zpos m) (- k) = Zpos m / 2 ^ k) as ->.
  { rewrite <- Z.shiftr_opp_r, Z.opp_involutive. by apply Z.shiftr_div_pow2. }
  assert (p - 1 <= Zpos m / 2 ^ k < p + 1).
  { split; [apply Z.div_le_lower_bound; lia|apply Z.div_lt_upper_bound; lia]. }
  unfold_int. rewrite !(proj2 (Z.leb_le _ _)) by lia. simpl.
  assert (Zpos m / 2 ^ k = p \/ Zpos m / 2 ^ k = p - 1) as [-> | ->] by lia; auto.
Qed.

Lemma to_i32_exact m e z : 0 < z <= INT_MAX ->
  (exists k, 0 <= k /\ e = - k /\ Zpos m = z * 2 ^ k) ->
  to_i32 (S754_finite false m e) = Ok z.
Proof.
  intros Hz (k & Hk & -> & Hm). unfold to_i32.
  rewrite <- Z.shiftr_opp_r, Z.opp_involutive, Z.shiftr_div_pow2, Hm, Z.div_mul
    by (try apply Z.pow_nonzero; lia).
  unfold_int. by rewrite !(proj2 (Z.leb_le _ _)) by lia.
Qed.

(** A price goes out as the double nearest to its decimal value. *)
Lemma to_decimal_normal p m1 e1 :
  0 < p <= INT_MAX -> of_int p = S754_finite false m1 e1 ->
  2 ^ 52 <= Zpos m1 < 2 ^ 53 -> -52 <= e1 <= -22 ->
  exists m a, to_decimal p = S754_finite false m (e1 - 7 + a) /\ 0 <= a <= 2 /\
    2 ^ 52 <= Zpos m < 2 ^ 53 /\
    - (2 ^ a + 1) * Zpos hundred < Zpos m * 2 ^ a * Zpos hundred - Zpos m1 * 2 ^ 53
      <= 2 ^ a * Zpos hundred.
Proof.
  intros Hp Hint Hm1 He1. unfold to_decimal, ddiv. rewrite Hint, multiplier_normal.
  unfold SFdiv, SFdiv_core_binary. cbn [xorb].
  rewrite (Zdigits2_unique (Zpos m1) 53), (Zdigits2_unique (Zpos hundred) 53)
    by (unfold hundred; lia).
  replace (Z.min (fexp 53 1024 (53 + e1 - (53 + -46))) (e1 - -46)) with (e1 - 7)
    by (unfold fexp, emin; lia).
  replace (e1 - -46 - (e1 - 7)) with 53 by lia. cbv zeta iota. rewrite Z.shiftl_mul_pow2 by lia.
  pose proof (Z_div_mod (Zpos m1 * 2 ^ 53) (Zpos hundred) eq_refl) as Hdiv.
  destruct (Z.div_eucl _ _) as [q r]. destruct Hdiv as [Hq Hr].
  assert (2 ^ 52 <= q < 2 ^ 54) by (unfold hundred in *; lia).
  assert (Zdigits2 q <= 54) by (apply Zdigits2_le; lia).
  destruct (round_normal q (e1 - 7) (new_location (Zpos hundred) r)) as (m & e & -> & He & Hm & Hnear & _);
    [lia..|].
  exists m, (e - (e1 - 7)). set (a := e - (e1 - 7)) in *.
  replace (e1 - 7 + a) with e by lia. split; [done|].
  assert (a <= 2) as Ha.
  { destruct (Z_lt_le_dec 2 a); [|done].
    assert (2 ^ 3 <= 2 ^ a) by (apply Z.pow_le_mono_r; lia). nia. }
  split_and!; [lia|lia|lia|lia|unfold hundred in *; nia|unfold hundred in *; nia].
Qed.

Lemma price_roundtrip p : 0 < p <= INT_MAX ->
  convert_to_internal_price (to_decimal p) = Ok p \/
  convert_to_internal_price (to_decimal p) = Ok (p - 1).
Proof.
  intros Hp. assert (p < 2 ^ 31) by (unfold INT_MAX in Hp; lia).
  destruct (of_int_normal p ltac:(lia)) as (m1 & e1 & Hint & Hm1 & He1 & He1' & Hpm).
  destruct (Zdigits2_spec p ltac:(lia)) as [Hd Hd0].
  assert (Zdigits2 p <= 31) by (apply Zdigits2_le; lia).
  destruct (to_decimal_normal p m1 e1) as (m & a & Hdec & Ha & Hm & Hnear); [lia|done|lia|lia|].
  unfold convert_to_internal_price, dmul. rewrite Hdec, multiplier_normal. unfold SFmul. cbn [xorb].
  rewrite Pos2Z.inj_mul. set (P := Zpos m * Zpos hundred) in *.
  assert (2 ^ 104 <= P < 2 ^ 106) by (unfold P, hundred; lia).
  assert (Zdigits2 P <= 106) by (apply Zdigits2_le; lia).
  destruct (round_normal P (e1 - 7 + a + -46) loc_Exact) as (m2 & e2 & -> & He2 & Hm2 & Hnear2 & _);
    [lia..|].
  set (b := e2 - (e1 - 7 + a + -46)) in *.
  assert (b <= 54).
  { destruct (Z_lt_le_dec 54 b); [|done].
    assert (2 ^ 55 <= 2 ^ b) by (apply Z.pow_le_mono_r; lia). nia. }
  assert (2 ^ a <= 2 ^ 2) by (apply Z.pow_le_mono_r; lia).
  assert (2 ^ b <= 2 ^ 54) by (apply Z.pow_le_mono_r; lia).
  assert (0 < 2 ^ a /\ 0 < 2 ^ b) as [Hpa Hpb] by (split; apply Z.pow_pos_nonneg; lia).
  assert (2 ^ 22 <= 2 ^ (- e1)) by (apply Z.pow_le_mono_r; lia).
  rewrite <- (Z.opp_involutive e2). apply to_i32_near; [lia| |lia].
  assert (2 ^ 53 * 2 ^ (- e1) = 2 ^ a * 2 ^ b * 2 ^ (- e2)) as Hscale.
  { rewrite <- !Z.pow_add_r by lia. f_equal. lia. }
  assert ((p - 1) * (2 ^ 53 * 2 ^ (- e1)) < Zpos m2 * (2 ^ a * 2 ^ b) < (p + 1) * (2 ^ 53 * 2 ^ (- e1))).
  { assert (p * (2 ^ 53 * 2 ^ (- e1)) = Zpos m1 * 2 ^ 53) as HM by (rewrite Hpm; ring).
    rewrite Z.mul_sub_distr_r, Z.mul_add_distr_r, HM, !Z.mul_1_l.
    assert (2 ^ a * 2 ^ b <= 2 ^ 2 * 2 ^ 54) by (apply Z.mul_le_mono_nonneg; lia).
    replace (Zpos m2 * (2 ^ a * 2 ^ b)) with (2 ^ a * (Zpos m2 * 2 ^ b - P) + Zpos m * 2 ^ a * Zpos hundred)
      by (unfold P; ring).
    assert (- (2 ^ a * 2 ^ b) < 2 ^ a * (Zpos m2 * 2 ^ b - P) <= 2 ^ a * 2 ^ b) by (clear - Hpa Hnear2; nia).
    unfold hundred in *. lia. }
  rewrite Hscale in *. assert (0 < 2 ^ a * 2 ^ b) as Hab by (clear - Hpa Hpb; nia).
  split; [apply Z.lt_le_incl|]; apply (Z.mul_lt_mono_pos_r (2 ^ a * 2 ^ b)); lia.
Qed.

(** A normalised double is determined by its value. *)
Lemma normal_unique m e m' e' :
  2 ^ 52 <= Zpos m < 2 ^ 53 -> 2 ^ 52 <= Zpos m' < 2 ^ 53 -> e <= 0 -> e' <= 0 ->
  Zpos m * 2 ^ (- e') = Zpos m' * 2 ^ (- e) -> m = m' /\ e = e'.
Proof.
  assert (forall m e m' e', 2 ^ 52 <= Zpos m < 2 ^ 53 -> 2 ^ 52 <= Zpos m' < 2 ^ 53 ->
    e <= 0 -> e' <= 0 -> Zpos m * 2 ^ (- e') = Zpos m' * 2 ^ (- e) -> e <= e') as Hle.
  { clear. intros m e m' e' Hm Hm' He He' Heq. destruct (Z_lt_le_dec e' e) as [Hlt|]; [|done].
    replace (- e') with (- e + (e - e')) in Heq by lia. rewrite Z.pow_add_r in Heq by lia.
    assert (2 ^ 1 <= 2 ^ (e - e')) by (apply Z.pow_le_mono_r; lia).
    assert (0 < 2 ^ (- e)) by (apply Z.pow_pos_nonneg; lia).
    assert (Zpos m * 2 ^ (e - e') = Zpos m') by (apply (Z.mul_cancel_r _ _ (2 ^ (- e))); lia). nia. }
  intros Hm Hm' He He' Heq.
  assert (e = e') as -> by (apply Z.le_antisymm; eauto using eq_sym).
  apply Z.mul_cancel_r in Heq; [|apply Z.pow_nonzero; lia]. split; [congruence|done].
Qed.

(** Multiplying a whole number by a hundred is exact. *)
Lemma dmul_hundred d : 0 < d -> 100 * d < 2 ^ 53 ->
  dmul (of_int d) decimal_to_int_multiplier = of_int (100 * d).
Proof.
  intros Hd Hmax.
  destruct (of_int_normal d ltac:(lia)) as (m & e & Hint & Hm & He & He0 & Hdm).
  destruct (of_int_normal (100 * d) ltac:(lia)) as (m' & e' & -> & Hm' & _ & He0' & Hdm').
  assert (Zdigits2 d <= 53) by (apply Zdigits2_le; lia).
  pose proof (proj2 (Zdigits2_spec d ltac:(lia))).
  unfold dmul. rewrite Hint, multiplier_normal. unfold SFmul. cbn [xorb].
  rewrite Pos2Z.inj_mul. set (P := Zpos m * Zpos hundred) in *.
  assert (P = 100 * d * 2 ^ (46 - e)) as HP.
  { unfold P, hundred. rewrite Hdm. replace (46 - e) with (46 + - e) by lia. rewrite Z.pow_add_r by lia. lia. }
  assert (2 ^ 104 <= P < 2 ^ 106) by (unfold P, hundred; lia).
  assert (Zdigits2 P <= 106) by (apply Zdigits2_le; lia).
  assert (0 < 2 ^ (46 - e)) as Hpow by (apply Z.pow_pos_nonneg; lia).
  destruct (round_normal P (e + -46) loc_Exact) as (m2 & e2 & -> & He2 & Hm2 & _ & Hex); [lia..|].
  assert (excess P <= 46 - e) as Hk.
  { assert (Zdigits2 P <= 53 + (46 - e)); [|lia]. apply Zdigits2_le. rewrite HP, Z.pow_add_r by lia. nia. }
  specialize (Hex eq_refl).
  assert (2 ^ excess P | P) as Hdiv.
  { pose proof (excess_nonneg P ltac:(lia)). exists (100 * d * 2 ^ (46 - e - excess P)).
    etransitivity; [exact HP|]. rewrite <- (Z.mul_assoc (100 * d) (2 ^ _)), <- Z.pow_add_r by lia. do 2 f_equal. lia. }
  specialize (Hex Hdiv). rewrite HP in Hex.
  assert (e2 <= 0) as He2'.
  { destruct (Z_lt_le_dec 0 e2) as [Hpos|]; [|done].
    assert (2 ^ (1 + (46 - e)) <= 2 ^ (e2 - (e + -46))) as Hle by (apply Z.pow_le_mono_r; lia).
    rewrite Z.pow_add_r in Hle by lia. clear - Hex Hle Hpow Hm2 Hmax Hd.
    generalize dependent (2 ^ (e2 - (e + -46))). generalize dependent (2 ^ (46 - e)).
    intros A HA B HB Hle. assert (2 ^ 52 * (2 * A) <= Zpos m2 * B) by (apply Z.mul_le_mono_nonneg; lia).
    nia. }
  assert (Zpos m2 = 100 * d * 2 ^ (- e2)) as Hm2d.
  { apply (Z.mul_cancel_r _ _ (2 ^ (e2 - (e + -46)))); [apply Z.pow_nonzero; lia|].
    rewrite Hex, <- (Z.mul_assoc (100 * d) (2 ^ (- e2))), <- Z.pow_add_r by lia. do 2 f_equal. lia. }
  destruct (normal_unique m2 e2 m' e') as [-> ->]; try done.
  rewrite Hm2d, Hdm'. ring.
Qed.

Lemma to_i32_of_int z : 0 < z <= INT_MAX -> to_i32 (of_int z) = Ok z.
Proof.
  intros Hz. destruct (of_int_normal z) as (m & e & -> & _ & _ & He & Hm); [unfold INT_MAX in *; lia|].
  apply to_i32_exact; [done|]. exists (- e). split_and!; lia.
Qed.

Lemma whole_exact d : 0 < d -> 100 * d <= INT_MAX -> convert_to_internal_quantity (of_int d) = Ok (100 * d).
Proof.
  intros Hd Hmax. unfold convert_to_internal_quantity.
  rewrite dmul_hundred by (unfold INT_MAX in *; lia). apply to_i32_of_int. lia.
Qed.

(** [static_cast<std::int64_t>] *)
Definition trunc_i64 (d : double) : res Z :=
  match d with
  | S754_zero _ => Ok 0
  | S754_finite s m e =>
      let a := Z.shiftl (Zpos m) e in
      let z := if s then - a else a in
      if in_i64 z then Ok z else Err BadConversion
  | S754_infinity _ | S754_nan => Err BadConversion
  end.

Lemma trunc_i64_of_int z : 0 <= z < 2 ^ 53 -> trunc_i64 (of_int z) = Ok z.
Proof.
  intros Hz. destruct (Z.eq_dec z 0) as [->|]; [done|].
  destruct (of_int_normal z) as (m & e & -> & _ & _ & He & Hm); [lia|]. unfold trunc_i64.
  replace e with (- (- e)) by lia.
  rewrite <- Z.shiftr_opp_r, Z.opp_involutive, Z.shiftr_div_pow2, Hm, Z.div_mul
    by (try apply Z.pow_nonzero; lia).
  unfold_int. by rewrite !(proj2 (Z.leb_le _ _)) by lia.
Qed.

(** C39: the decimal prices of FIX and the integer prices of the services do not
    correspond one to one.  Whole-number quantities (and prices) are converted
    exactly as long as they fit [int]; but the double of a price [p] in
    hundredths is converted back to [p] or to [p - 1], and the latter happens:
    2.01 becomes 200.  No price becomes higher. *)
Theorem decimal_conversion :
  (forall d, 0 <= d -> 100 * d <= INT_MAX ->
     convert_to_internal_quantity (of_int d) = Ok (100 * d)) /\
  (forall p, 0 <= p <= INT_MAX ->
     convert_to_internal_price (to_decimal p) = Ok p \/
     0 < p /\ convert_to_internal_price (to_decimal p) = Ok (p - 1)) /\
  convert_to_internal_price (to_decimal 201) = Ok 200.
Proof.
  split_and!.
  - intros d Hd Hmax. destruct (Z.eq_dec d 0) as [->|]; [reflexivity|]. apply whole_exact; lia.
  - intros p Hp. destruct (Z.eq_dec p 0) as [->|]; [left; reflexivity|].
    destruct (price_roundtrip p) as [|]; [lia|auto with lia..].
  - reflexivity.
Qed.
