(* ===== verification/Fix.v ===== *)
(** * FIX messages

    The vocabulary that the gateway and the client SDK share: [std::to_string] and
    [std::stoi], the QuickFIX library as the interfaces [FixLibrary] and
    [FixSession], FIX messages as field maps, and the conversions between FIX and
    internal values of [libs/core/orders.h].

    A QuickFIX message maps tags to texts; a typed field converts its text when
    its value is read.  The values of the FIX constants, the texts of numbers
    and the defaults of unset fields belong to the library and are parameters. *)

From S2P Require Import Prelude Core Doubles.
From Stdlib Require Import ZArith Lia Ascii String.
From Stdlib Require Import DecimalString DecimalZ DecimalFacts.
From stdpp Require Import base option list gmap strings fin_maps.

Open Scope Z_scope.

(** ** std::to_string and std::stoi *)
Definition to_string (z : Z) : string := NilZero.string_of_int (Z.to_int z).

Definition is_digit (c : ascii) : bool :=
  let n := nat_of_ascii c in ((48 <=? n)%nat && (n <=? 57)%nat)%bool.

(** [isspace] of the C locale. *)
Definition is_space (c : ascii) : bool :=
  let n := nat_of_ascii c in ((9 <=? n)%nat && (n <=? 13)%nat || (n =? 32)%nat)%bool.

Fixpoint skip_space (s : string) : string :=
  match s with
  | String c s' => if is_space c then skip_space s' else s
  | EmptyString => s
  end.

Fixpoint digit_prefix (s : string) : string :=
  match s with
  | String c s' => if is_digit c then String c (digit_prefix s') else EmptyString
  | EmptyString => EmptyString
  end.

Definition parse_digits (s : string) : res Z :=
  match digit_prefix s with
  | EmptyString => Err InvalidArgument
  | ds => Z.of_uint <$> get_or InvalidArgument (NilEmpty.uint_of_string ds)
  end.

Definition parse_signed (s : string) : res Z :=
  match s with
  | String c s' =>
      if Ascii.eqb c "-" then Z.opp <$> parse_digits s'
      else if Ascii.eqb c "+" then parse_digits s'
      else parse_digits s
  | EmptyString => Err InvalidArgument
  end.

(** Leading spaces, a sign and the longest run of digits; the rest is ignored. *)
Definition stoi (s : string) : res Z :=
  z ← parse_signed (skip_space s);
  if in_i32 z then Ok z else Err OutOfRange.

(** ** The QuickFIX library *)
Inductive Tag :=
  | SenderCompID | TargetCompID | ClOrdID | OrigClOrdID | OrderID | ExecID | TagExecTransType
  | TagExecType | OrdStatus | TagSymbol | TagSide | OrderQty | OrdType | Price | TagTimeInForce
  | TransactTime | LeavesQty | CumQty | AvgPx | LastPx | Text.

#[export] Instance Tag_eq_dec : EqDecision Tag.
Proof. solve_decision. Defined.

Definition all_tags : list Tag :=
  [SenderCompID; TargetCompID; ClOrdID; OrigClOrdID; OrderID; ExecID; TagExecTransType;
   TagExecType; OrdStatus; TagSymbol; TagSide; OrderQty; OrdType; Price; TagTimeInForce;
   TransactTime; LeavesQty; CumQty; AvgPx; LastPx; Text].

#[export] Program Instance Tag_countable : Countable Tag := {|
  encode t := encode (default 0%nat (fst <$> list_find (eq t) all_tags));
  decode p := n ← decode p; all_tags !! (n : nat)
|}.
Next Obligation. by intros []. Qed.

Class FixLibrary := {
  Side_BUY : ascii;
  Side_SELL : ascii;
  OrdType_MARKET : ascii;
  OrdType_LIMIT : ascii;
  TimeInForce_DAY : ascii;
  TimeInForce_GOOD_TILL_CANCEL : ascii;
  ExecTransType_NEW : ascii;
  ExecType_NEW : ascii;
  ExecType_PARTIAL_FILL : ascii;
  ExecType_FILL : ascii;
  ExecType_CANCELED : ascii;
  ExecType_REJECTED : ascii;
  OrdStatus_NEW : ascii;
  OrdStatus_PARTIALLY_FILLED : ascii;
  OrdStatus_FILLED : ascii;
  OrdStatus_CANCELED : ascii;
  OrdStatus_REJECTED : ascii;
  text_of_double : double -> string;
  double_of_text : string -> option double;
  text_of_char : ascii -> string;
  char_of_text : string -> option ascii;
  default_text : Tag -> string;
  what : cpp_error -> string
}.

(** The FIX values of a field are distinct, and a character field returns the
    character it was given. *)
Class FixLibraryLaws `{FixLibrary} : Prop := {
  side_values : Side_BUY <> Side_SELL;
  ord_type_values : OrdType_MARKET <> OrdType_LIMIT;
  tif_values : TimeInForce_DAY <> TimeInForce_GOOD_TILL_CANCEL;
  ord_status_values : NoDup [OrdStatus_NEW; OrdStatus_PARTIALLY_FILLED; OrdStatus_FILLED;
                             OrdStatus_CANCELED; OrdStatus_REJECTED];
  char_of_text_of_char c : char_of_text (text_of_char c) = Some c
}.

Inductive MsgType := NewOrderSingle | OrderCancelRequest | ExecutionReport | OrderCancelReject.

(** Header and body fields have different tags, so one map holds both. *)
Record FixMessage := mkFix {
  fm_type : MsgType;
  fm_fields : gmap Tag string
}.

Definition set_field (t : Tag) (v : string) (m : FixMessage) : FixMessage :=
  mkFix (fm_type m) (<[t := v]> (fm_fields m)).

(** [FIX::Session::sendToTarget]: fails when there is no such session. *)
Class FixSession (F : Type) := {
  fs_send : F -> FixMessage -> string -> string -> F * bool;
  fs_sent : F -> list (FixMessage * string * string)
}.

Class FixSessionLaws (F : Type) `{FixSession F} : Prop :=
  fs_send_law : forall f m sender target f' ok, fs_send f m sender target = (f', ok) ->
    fs_sent f' = if ok then fs_sent f ++ [(m, sender, target)] else fs_sent f.

(** The field variables of a handler: what [get] has stored so far. *)
Abbreviation Vars := (gmap Tag string).

Section Fields.
Context `{FixLibrary}.

Definition text (vars : Vars) (t : Tag) : string := default (default_text t) (vars !! t).

Definition char_value (vars : Vars) (t : Tag) : res ascii :=
  get_or IncorrectDataFormat (char_of_text (text vars t)).

Definition double_value (vars : Vars) (t : Tag) : res double :=
  get_or IncorrectDataFormat (double_of_text (text vars t)).

(** A sequence of [message.get(field)]: it stops at the first absent field, and
    the variables read before keep their values. *)
Fixpoint get_all (m : FixMessage) (tags : list Tag) (vars : Vars) : Vars * res unit :=
  match tags with
  | [] => (vars, Ok tt)
  | t :: tags' =>
      match fm_fields m !! t with
      | None => (vars, Err FieldNotFound)
      | Some v => get_all m tags' (<[t := v]> vars)
      end
  end.

(** ** orders.h: FIX to internal *)
Definition side_of_fix (c : ascii) : res Side :=
  _ ← cassert (bool_decide (c = Side_BUY) || bool_decide (c = Side_SELL));
  if decide (c = Side_BUY) then Ok bid
  else if decide (c = Side_SELL) then Ok ask
  else Err LogicError.

Definition ord_type_of_fix (c : ascii) : res OrderType :=
  _ ← cassert (bool_decide (c = OrdType_LIMIT) || bool_decide (c = OrdType_MARKET));
  if decide (c = OrdType_LIMIT) then Ok limit
  else if decide (c = OrdType_MARKET) then Ok market
  else Err LogicError.

Definition tif_of_fix (c : ascii) : res TimeInForce :=
  _ ← cassert (bool_decide (c = TimeInForce_DAY) ||
               bool_decide (c = TimeInForce_GOOD_TILL_CANCEL));
  if decide (c = TimeInForce_DAY) then Ok day
  else if decide (c = TimeInForce_GOOD_TILL_CANCEL) then Ok gtc
  else Err LogicError.

(** ** orders.h: internal to FIX *)
Definition side_to_fix (s : Side) : res ascii :=
  Ok (match s with bid => Side_BUY | ask => Side_SELL end).

Definition ord_type_to_fix (t : OrderType) : res ascii :=
  Ok (match t with limit => OrdType_LIMIT | market => OrdType_MARKET end).

Definition tif_to_fix (t : TimeInForce) : res ascii :=
  _ ← cassert (bool_decide (t = day));
  match t with day => Ok TimeInForce_DAY | gtc => Err LogicError end.
End Fields.

(** ** Numbers as text *)
Lemma digit_prefix_uint d : digit_prefix (NilEmpty.string_of_uint d) = NilEmpty.string_of_uint d.
Proof. induction d as [|d IH|d IH|d IH|d IH|d IH|d IH|d IH|d IH|d IH|d IH]; simpl; by rewrite ?IH. Qed.

Lemma parse_digits_uint d : d <> Decimal.Nil ->
  parse_digits (NilZero.string_of_uint d) = Ok (Z.of_uint d).
Proof.
  intros Hd. assert (NilZero.string_of_uint d = NilEmpty.string_of_uint d) as -> by (by destruct d).
  unfold parse_digits. rewrite digit_prefix_uint.
  destruct (NilEmpty.string_of_uint d) as [|c s] eqn:E; [by destruct d|].
  by rewrite <- E, NilEmpty.usu.
Qed.

Lemma stoi_to_string z : in_i32 z = true -> stoi (to_string z) = Ok z.
Proof.
  intros Hz. unfold to_string, stoi.
  assert (parse_signed (skip_space (NilZero.string_of_int (Z.to_int z))) = Ok z) as ->;
    [|by simpl; rewrite Hz].
  destruct z as [|p|p]; [done| |]; simpl Z.to_int; simpl NilZero.string_of_int.
  - pose proof (DecimalPos.Unsigned.to_uint_nonnil p) as Hp.
    pose proof (parse_digits_uint _ Hp) as Hparse. pose proof (DecimalZ.of_to (Zpos p)) as Hof.
    simpl in Hof. rewrite Hof in Hparse. rewrite <- Hparse. by destruct (Pos.to_uint p).
  - cbn [skip_space is_space nat_of_ascii]. simpl.
    rewrite parse_digits_uint by apply DecimalPos.Unsigned.to_uint_nonnil.
    pose proof (DecimalZ.of_to (Zneg p)) as Hof. simpl in Hof. simpl. by rewrite Hof.
Qed.
Lemma to_string_inj z z' : to_string z = to_string z' -> z = z'.
Proof.
  unfold to_string. intros He%(f_equal NilZero.int_of_string).
  assert (forall z, Z.to_int z <> Decimal.Pos Decimal.Nil /\ Z.to_int z <> Decimal.Neg Decimal.Nil) as Hnn.
  { intros [|p|p]; simpl; (split; [|]); try done; intros [= Hp]; by apply DecimalPos.Unsigned.to_uint_nonnil in Hp. }
  rewrite !NilZero.isi in He by apply Hnn. injection He as He. by apply (f_equal Z.of_int) in He; rewrite !DecimalZ.of_to in He.
Qed.

#[export] Hint Rewrite stoi_to_string using assumption : edux.

(** ** Reading fields *)

(** What [catch (const std::exception&)] catches; the others end the process. *)
Definition is_exception (e : cpp_error) : bool :=
  match e with
  | OutOfRange | BadOptionalAccess | InvalidArgument | LogicError | RuntimeError
  | FieldNotFound | IncorrectDataFormat | UnsupportedMessageType => true
  | _ => false
  end.

Lemma parse_digits_exception s e : parse_digits s = Err e -> is_exception e = true.
Proof.
  unfold parse_digits, get_or. destruct (digit_prefix s); simpl; [by intros [= <-]|].
  case_match; simpl; intros; by simplify_eq.
Qed.

Lemma stoi_exception s e : stoi s = Err e -> is_exception e = true.
Proof.
  unfold stoi, parse_signed. destruct (skip_space s) as [|c s']; simpl; [by intros [= <-]|].
  intros Herr. assert (forall r : res Z, (forall e', r = Err e' -> is_exception e' = true) ->
    (z ← r; if in_i32 z then Ok z else Err OutOfRange) = Err e -> is_exception e = true) as Hr.
  { intros [z|e'] Hr; simpl; [|naive_solver]. destruct (in_i32 z); intros Heq; by inversion Heq. }
  apply (Hr _) in Herr; [done|]. intros e'. pose proof parse_digits_exception as Hp.
  repeat case_match; eauto. destruct (parse_digits s') as [|e''] eqn:E; simpl; [done|].
  intros [= <-]. eauto.
Qed.

(** [a; b] of two reading sequences. *)
Definition and_then (a : Vars * res unit) (b : Vars -> Vars * res unit) : Vars * res unit :=
  match a with (vars, Ok _) => b vars | (vars, Err e) => (vars, Err e) end.

(** The variables hold fields of the message, [tags] among them when the
    sequence succeeded; it fails only by an exception, for want of one of them. *)
Definition reading (m : FixMessage) (tags : list Tag) (r : Vars * res unit) : Prop :=
  r.1 ⊆ fm_fields m /\
  match r.2 with
  | Ok _ => Forall (fun t => is_Some (r.1 !! t)) tags
  | Err e => is_exception e = true /\ exists t, t ∈ tags /\ fm_fields m !! t = None
  end.

Lemma get_all_reading m tags vars : vars ⊆ fm_fields m ->
  reading m tags (get_all m tags vars) /\ vars ⊆ (get_all m tags vars).1.
Proof.
  unfold reading. revert vars; induction tags as [|t tags IH]; intros vars Hsub; simpl; [by auto|].
  destruct (fm_fields m !! t) as [v|] eqn:Ev; simpl.
  - assert (<[t := v]> vars ⊆ fm_fields m) as Hsub' by (by apply insert_subseteq_l).
    destruct (IH _ Hsub') as [[Hs Hr] Hin].
    assert (vars ⊆ <[t := v]> vars) as Hvars.
    { apply map_subseteq_spec. intros k x Hk. destruct (decide (k = t)) as [->|].
      - rewrite lookup_insert_eq. rewrite map_subseteq_spec in Hsub. apply Hsub in Hk. congruence.
      - by rewrite lookup_insert_ne. }
    split; [split; [done|]|by etransitivity].
    destruct (snd (get_all m tags (<[t := v]> vars))) as [u|e].
    + constructor; [|done]. exists v. rewrite map_subseteq_spec in Hin.
      apply Hin. by rewrite lookup_insert_eq.
    + destruct Hr as (? & t' & ? & ?). split; [done|]. exists t'. split; [by right|done].
  - split; [|done]. split; [done|]. split; [done|]. exists t. split; [left|done].
Qed.

Section Values.
Context `{FixLibrary}.

(** The typed values of a message's fields. *)
Definition field_char (m : FixMessage) (t : Tag) : option ascii := fm_fields m !! t ≫= char_of_text.
Definition field_double (m : FixMessage) (t : Tag) : option double := fm_fields m !! t ≫= double_of_text.

Lemma text_read m vars t : vars ⊆ fm_fields m -> is_Some (vars !! t) ->
  fm_fields m !! t = Some (text vars t).
Proof. intros Hsub [v Hv]. unfold text. rewrite Hv. simpl. rewrite map_subseteq_spec in Hsub. auto. Qed.

Lemma char_value_read m vars t : vars ⊆ fm_fields m -> is_Some (vars !! t) ->
  char_value vars t = get_or IncorrectDataFormat (field_char m t).
Proof. intros Hsub Ht. unfold char_value, field_char. by rewrite (text_read m vars t). Qed.

Lemma double_value_read m vars t : vars ⊆ fm_fields m -> is_Some (vars !! t) ->
  double_value vars t = get_or IncorrectDataFormat (field_double m t).
Proof. intros Hsub Ht. unfold double_value, field_double. by rewrite (text_read m vars t). Qed.

(** The characters of the enumerators; any other character aborts. *)
Definition fix_of_side (s : Side) : ascii := match s with bid => Side_BUY | ask => Side_SELL end.
Definition fix_of_ord_type (t : OrderType) : ascii :=
  match t with limit => OrdType_LIMIT | market => OrdType_MARKET end.
Definition fix_of_tif (t : TimeInForce) : ascii :=
  match t with day => TimeInForce_DAY | gtc => TimeInForce_GOOD_TILL_CANCEL end.

Ltac solve_fix_enum :=
  repeat case_bool_decide; simpl; repeat case_decide; simplify_eq;
    (split; [try done; try (split; [done|by intros []])|by intros []; intros; simplify_eq]).

Lemma fix_of_side_inj `{!FixLibraryLaws} : Inj (=) (=) fix_of_side.
Proof. pose proof side_values. by intros [] [] Heq; simpl in Heq. Qed.
Lemma fix_of_ord_type_inj `{!FixLibraryLaws} : Inj (=) (=) fix_of_ord_type.
Proof. pose proof ord_type_values. by intros [] [] Heq; simpl in Heq. Qed.
Lemma fix_of_tif_inj `{!FixLibraryLaws} : Inj (=) (=) fix_of_tif.
Proof. pose proof tif_values. by intros [] [] Heq; simpl in Heq. Qed.

Lemma side_of_fix_spec `{!FixLibraryLaws} c :
  match side_of_fix c with
  | Ok s => c = fix_of_side s
  | Err e => e = AssertionFailed /\ forall s, c <> fix_of_side s
  end /\ (forall s, c = fix_of_side s -> side_of_fix c = Ok s).
Proof. unfold side_of_fix. pose proof side_values. solve_fix_enum. Qed.

Lemma ord_type_of_fix_spec `{!FixLibraryLaws} c :
  match ord_type_of_fix c with
  | Ok s => c = fix_of_ord_type s
  | Err e => e = AssertionFailed /\ forall s, c <> fix_of_ord_type s
  end /\ (forall s, c = fix_of_ord_type s -> ord_type_of_fix c = Ok s).
Proof. unfold ord_type_of_fix. pose proof ord_type_values. solve_fix_enum. Qed.

Lemma tif_of_fix_spec `{!FixLibraryLaws} c :
  match tif_of_fix c with
  | Ok s => c = fix_of_tif s
  | Err e => e = AssertionFailed /\ forall s, c <> fix_of_tif s
  end /\ (forall s, c = fix_of_tif s -> tif_of_fix c = Ok s).
Proof. unfold tif_of_fix. pose proof tif_values. solve_fix_enum. Qed.
End Values.
