(* ===== verification/LogFormat.v ===== *)
(** * Containers in the log

    The specialisations of [std::formatter] in [libs/core/orders.h] and
    [libs/core/containers.h], by which the services write every message they
    handle to their logs: [Name{field: value, ...}].  An absent number is written
    as -1, an absent text as N/A. *)

From S2P Require Import Prelude Core Doubles Fix.
From Stdlib Require Import ZArith Lia Ascii String DecimalString DecimalZ.
From stdpp Require Import base option list strings.

Open Scope Z_scope.
Open Scope string_scope.

(** ** orders.h *)
Definition format_Side (side : Side) : string := match side with bid => "bid" | ask => "ask" end.
Definition format_OrderType (ord_type : OrderType) : string := match ord_type with limit => "limit" | market => "market" end.
Definition format_TimeInForce (tif : TimeInForce) : string := match tif with day => "day" | gtc => "gtc" end.

Definition format_ExecTransType (t : ExecTransType) : string :=
  match t with
  | exec_trans_new => "new"
  | exec_trans_cancel => "cancel"
  | exec_trans_correct => "correct"
  | exec_trans_status => "status"
  end.

Definition format_ExecTypeOrOrderStatus (status : ExecTypeOrOrderStatus) : string :=
  match status with
  | status_new => "new"
  | status_partially_filled => "partially_filled"
  | status_filled => "filled"
  | status_canceled => "canceled"
  | status_pending_cancel => "pending_cancel"
  | status_rejected => "rejected"
  end.

(** ** containers.h *)
Definition format_bool (b : bool) : string := if b then "true" else "false".

(** [field: value, field: value, ...}] *)
Fixpoint format_fields (fields : list (string * string)) : string :=
  match fields with
  | [] => "}"
  | [(k, v)] => k +:+ ": " +:+ v +:+ "}"
  | (k, v) :: fields' => k +:+ ": " +:+ v +:+ ", " +:+ format_fields fields'
  end.

Definition fields_NewOrderSingle (c : NewOrderSingleContainer) : list (string * string) :=
  [("sender_comp_id", no_sender_comp_id c); ("target_comp_id", no_target_comp_id c);
   ("order_id", to_string (default (-1) (no_order_id c))); ("cl_ord_id", to_string (no_cl_ord_id c));
   ("symbol", no_symbol c); ("side", format_Side (no_side c)); ("order_qty", to_string (no_order_qty c));
   ("ord_type", format_OrderType (no_ord_type c)); ("price", to_string (default (-1) (no_price c)));
   ("time_in_force", format_TimeInForce (no_time_in_force c))].

Definition fields_Trade (c : TradeContainer) : list (string * string) :=
  [("ticker", tc_ticker c); ("price", to_string (tc_price c)); ("quantity", to_string (tc_quantity c));
   ("trade_id", tc_trade_id c); ("taker_id", tc_taker_id c); ("maker_id", tc_maker_id c);
   ("taker_order_id", to_string (tc_taker_order_id c)); ("maker_order_id", to_string (tc_maker_order_id c));
   ("is_taker_buyer", format_bool (tc_is_taker_buyer c))].

Definition fields_CancelOrderRequest (c : CancelOrderRequestContainer) : list (string * string) :=
  [("sender_comp_id", cr_sender_comp_id c); ("target_comp_id", cr_target_comp_id c);
   ("order_id", to_string (default (-1) (cr_order_id c))); ("orig_cl_ord_id", to_string (cr_orig_cl_ord_id c));
   ("cl_ord_id", to_string (cr_cl_ord_id c)); ("symbol", cr_symbol c); ("side", format_Side (cr_side c));
   ("order_qty", to_string (cr_order_qty c))].

Definition fields_CancelOrderResponse (c : CancelOrderResponseContainer) : list (string * string) :=
  [("order_id", to_string (cs_order_id c)); ("cl_ord_id", to_string (cs_cl_ord_id c));
   ("success", format_bool (cs_success c))].

Definition fields_FillCostQuery (c : FillCostQueryContainer) : list (string * string) :=
  [("symbol", fq_symbol c); ("quantity", to_string (fq_quantity c)); ("side", format_Side (fq_side c))].

Definition fields_FillCostResponse (c : FillCostResponseContainer) : list (string * string) :=
  [("total_cost", to_string (default (-1) (fr_total_cost c)))].

Definition fields_ExecutionReport (c : ExecutionReportContainer) : list (string * string) :=
  [("sender_comp_id", er_sender_comp_id c); ("target_comp_id", er_target_comp_id c);
   ("order_id", to_string (er_order_id c)); ("cl_order_id", to_string (er_cl_order_id c));
   ("orig_cl_ord_id", to_string (default (-1) (er_orig_cl_ord_id c))); ("exec_id", er_exec_id c);
   ("exec_trans_type", format_ExecTransType (er_exec_trans_type c));
   ("exec_type", format_ExecTypeOrOrderStatus (er_exec_type c));
   ("ord_status", format_ExecTypeOrOrderStatus (er_ord_status c)); ("text", default "N/A" (er_text c));
   ("symbol", er_symbol c); ("side", format_Side (er_side c)); ("price", to_string (default (-1) (er_price c)));
   ("time_in_force", format_TimeInForce (er_time_in_force c)); ("leaves_qty", to_string (er_leaves_qty c));
   ("cum_qty", to_string (er_cum_qty c)); ("avg_px", to_string (er_avg_px c))].

Definition container_name (c : Container) : string :=
  match c with
  | CNewOrderSingle _ => "NewOrderSingleContainer"
  | CCancelOrderRequest _ => "CancelOrderRequestContainer"
  | CExecutionReport _ => "ExecutionReportContainer"
  | CFillCostQuery _ => "FillCostQueryContainer"
  | CFillCostResponse _ => "FillCostResponseContainer"
  | CTrade _ => "TradeContainer"
  | CCancelOrderResponse _ => "CancelOrderResponseContainer"
  end.

Definition container_fields (c : Container) : list (string * string) :=
  match c with
  | CNewOrderSingle c => fields_NewOrderSingle c
  | CCancelOrderRequest c => fields_CancelOrderRequest c
  | CExecutionReport c => fields_ExecutionReport c
  | CFillCostQuery c => fields_FillCostQuery c
  | CFillCostResponse c => fields_FillCostResponse c
  | CTrade c => fields_Trade c
  | CCancelOrderResponse c => fields_CancelOrderResponse c
  end.

Definition format_container (c : Container) : string :=
  container_name c +:+ "{" +:+ format_fields (container_fields c).

Example format_fill_cost :
  format_container (CFillCostQuery (mkFillCostQuery "GME" 100 bid)) =
  "FillCostQueryContainer{symbol: GME, quantity: 100, side: bid}".
Proof. reflexivity. Qed.

(** ** What a line tells *)

(** What the line can show: absent values are written like -1 and N/A. *)
Definition shown_order (c : NewOrderSingleContainer) : NewOrderSingleContainer :=
  mkNewOrder (no_sender_comp_id c) (no_target_comp_id c) (Some (default (-1) (no_order_id c))) (no_cl_ord_id c)
    (no_symbol c) (no_side c) (no_order_qty c) (no_ord_type c) (Some (default (-1) (no_price c))) (no_time_in_force c).

Definition shown (c : Container) : Container :=
  match c with
  | CNewOrderSingle c => CNewOrderSingle (shown_order c)
  | CCancelOrderRequest c =>
      CCancelOrderRequest (mkCancelRequest (cr_sender_comp_id c) (cr_target_comp_id c)
        (Some (default (-1) (cr_order_id c))) (cr_orig_cl_ord_id c) (cr_cl_ord_id c) (cr_symbol c) (cr_side c)
        (cr_order_qty c))
  | CExecutionReport c =>
      CExecutionReport (mkExecutionReport (er_sender_comp_id c) (er_target_comp_id c) (er_order_id c)
        (er_cl_order_id c) (Some (default (-1) (er_orig_cl_ord_id c))) (er_exec_id c) (er_exec_trans_type c)
        (er_exec_type c) (er_ord_status c) (Some (default "N/A" (er_text c))) (er_symbol c) (er_side c)
        (Some (default (-1) (er_price c))) (er_time_in_force c) (er_leaves_qty c) (er_cum_qty c) (er_avg_px c))
  | CFillCostResponse c => CFillCostResponse (mkFillCostResponse (Some (default (-1) (fr_total_cost c))))
  | c => c
  end.

(** A text without a comma. *)
Definition comma_free (s : string) : bool := forallb (fun c => negb (Ascii.eqb c ",")) (list_ascii_of_string s).

(** The texts of the container, as opposed to its numbers and enumerations. *)
Definition texts (c : Container) : list string :=
  match c with
  | CNewOrderSingle c => [no_sender_comp_id c; no_target_comp_id c; no_symbol c]
  | CCancelOrderRequest c => [cr_sender_comp_id c; cr_target_comp_id c; cr_symbol c]
  | CExecutionReport c =>
      [er_sender_comp_id c; er_target_comp_id c; er_exec_id c; default "N/A" (er_text c); er_symbol c]
  | CFillCostQuery c => [fq_symbol c]
  | CFillCostResponse _ => []
  | CTrade c => [tc_ticker c; tc_trade_id c; tc_taker_id c; tc_maker_id c]
  | CCancelOrderResponse _ => []
  end.

Lemma comma_free_digits d : comma_free (NilEmpty.string_of_uint d) = true.
Proof. induction d; simpl; [done|exact IHd..]. Qed.

Lemma comma_free_number z : comma_free (to_string z) = true.
Proof.
  assert (forall d, comma_free (NilZero.string_of_uint d) = true) as Hu.
  { intros d. destruct d; [done|..]; exact (comma_free_digits _). }
  unfold to_string. destruct (Z.to_int z) as [d|d]; [apply Hu|exact (Hu d)].
Qed.

Lemma comma_split a b x y :
  comma_free a = true -> comma_free b = true -> a +:+ ", " +:+ x = b +:+ ", " +:+ y -> a = b /\ x = y.
Proof.
  revert b. induction a as [|c a IH]; intros [|d b] Ha Hb He; simpl in He.
  - injection He as He. split; [done|exact He].
  - injection He as <- _. done.
  - injection He as -> _. done.
  - unfold comma_free in Ha, Hb. simpl in Ha, Hb. apply andb_true_iff in Ha as [_ Ha], Hb as [_ Hb].
    injection He as -> He. by destruct (IH b Ha Hb He) as [-> ->].
Qed.

(** With the same fields, and values without commas, a line determines the values. *)
Lemma format_fields_inj f f' :
  map fst f = map fst f' -> Forall (fun kv => comma_free kv.2 = true) f -> Forall (fun kv => comma_free kv.2 = true) f' ->
  format_fields f = format_fields f' -> f = f'.
Proof.
  intros Hk Hf. revert f' Hk. induction Hf as [|[k v] f Hv Hf IH]; intros [|[k' v'] f'] Hk Hf' He; try done.
  injection Hk as <- Hk. apply Forall_cons in Hf' as [Hv' Hf']. simpl in Hv, Hv'.
  destruct f as [|kv f], f' as [|kv' f']; try done.
  - simpl in He. apply (inj _), (inj _), append_inj_r in He. by subst.
  - cbn [format_fields] in He. destruct kv as [k1 v1], kv' as [k1' v1']. fold format_fields in He.
    apply (inj _), (inj _) in He. apply comma_split in He as [-> He]; [|done..]. f_equal. by apply IH.
Qed.

#[local] Hint Resolve comma_free_number : core.

Lemma fields_comma_free c :
  Forall (fun t => comma_free t = true) (texts c) -> Forall (fun kv => comma_free kv.2 = true) (container_fields c).
Proof.
  intros Ht. destruct c as [c|c|c|c|c|c|c]; destruct c; simpl in *;
    repeat (apply Forall_cons in Ht as [? Ht]); repeat (apply Forall_cons; split; simpl; auto);
    repeat match goal with
    | |- context [format_Side ?x] => by destruct x
    | |- context [format_OrderType ?x] => by destruct x
    | |- context [format_TimeInForce ?x] => by destruct x
    | |- context [format_ExecTransType ?x] => by destruct x
    | |- context [format_ExecTypeOrOrderStatus ?x] => by destruct x
    | |- context [format_bool ?x] => by destruct x
    end.
Qed.

Lemma format_Side_inj x y : format_Side x = format_Side y -> x = y.
Proof. by destruct x, y. Qed.
Lemma format_OrderType_inj x y : format_OrderType x = format_OrderType y -> x = y.
Proof. by destruct x, y. Qed.
Lemma format_TimeInForce_inj x y : format_TimeInForce x = format_TimeInForce y -> x = y.
Proof. by destruct x, y. Qed.
Lemma format_ExecTransType_inj x y : format_ExecTransType x = format_ExecTransType y -> x = y.
Proof. by destruct x, y. Qed.
Lemma format_status_inj x y : format_ExecTypeOrOrderStatus x = format_ExecTypeOrOrderStatus y -> x = y.
Proof. by destruct x, y. Qed.
Lemma format_bool_inj x y : format_bool x = format_bool y -> x = y.
Proof. by destruct x, y. Qed.

Ltac read_back :=
  repeat match goal with
  | H : to_string _ = to_string _ |- _ => apply to_string_inj in H
  | H : format_Side _ = format_Side _ |- _ => apply format_Side_inj in H
  | H : format_OrderType _ = format_OrderType _ |- _ => apply format_OrderType_inj in H
  | H : format_TimeInForce _ = format_TimeInForce _ |- _ => apply format_TimeInForce_inj in H
  | H : format_ExecTransType _ = format_ExecTransType _ |- _ => apply format_ExecTransType_inj in H
  | H : format_ExecTypeOrOrderStatus _ = format_ExecTypeOrOrderStatus _ |- _ => apply format_status_inj in H
  | H : format_bool _ = format_bool _ |- _ => apply format_bool_inj in H
  end.

(** Containers with the same fields show the same. *)
Lemma fields_shown c c' :
  container_name c = container_name c' -> container_fields c = container_fields c' -> shown c = shown c'.
Proof.
  destruct c as [c|c|c|c|c|c|c], c' as [c'|c'|c'|c'|c'|c'|c']; try done; intros _ He; destruct c, c';
    unfold container_fields, fields_NewOrderSingle, fields_CancelOrderRequest, fields_ExecutionReport,
      fields_FillCostQuery, fields_FillCostResponse, fields_Trade, fields_CancelOrderResponse in He;
    cbn in He; injection He; clear He; intros; read_back; unfold shown, shown_order; cbn; congruence.
Qed.

Lemma names_fields c c' : container_name c = container_name c' -> map fst (container_fields c) = map fst (container_fields c').
Proof. by destruct c, c'. Qed.

Lemma names_split c c' x y :
  container_name c +:+ "{" +:+ x = container_name c' +:+ "{" +:+ y -> container_name c = container_name c' /\ x = y.
Proof. destruct c, c'; intros He; try (split; [done|by injection He]); discriminate He. Qed.

(** A line of the log identifies the message.  If the names and texts of two
    containers have no comma, and the containers are written to the log as the
    same text, then they are of the same kind and agree in every field, except
    that an absent value cannot be told from -1, or N/A. *)
Theorem log_line_identifies c c' :
  Forall (fun t => comma_free t = true) (texts c) -> Forall (fun t => comma_free t = true) (texts c') ->
  format_container c = format_container c' -> shown c = shown c'.
Proof.
  intros Hc Hc' [Hn He]%names_split. apply fields_shown; [done|].
  apply format_fields_inj; [by apply names_fields|by apply fields_comma_free..|done].
Qed.

Lemma log_line_identifies_witness :
  let c := CNewOrderSingle (mkNewOrder "alice" "EDUX" None 7 "GME" bid 100 market None day) in
  let c' := CNewOrderSingle (mkNewOrder "alice" "EDUX" (Some (-1)) 7 "GME" bid 100 market None day) in
  c <> c' /\ shown c = shown c'.
Proof.
  intros c c'. split; [discriminate|].
  apply (log_line_identifies c c'); [repeat constructor..|vm_compute; reflexivity].
Defined.

(** A comma in a name makes lines ambiguous. *)
Example comma_ambiguous :
  format_container (CFillCostQuery (mkFillCostQuery "GME, quantity: 1, side: bid}{" 5 ask)) =
  "FillCostQueryContainer{symbol: GME, quantity: 1, side: bid}{, quantity: 5, side: ask}".
Proof. reflexivity. Qed.
