(* ===== verification/Gateway.v ===== *)
(** * The FIX gateway

    [services/gateway/src/gateway_application.cpp]: [GatewayApplication] turns
    the FIX messages of the clients into containers for the order manager and
    the order manager's execution reports into FIX messages.  The websocket
    client is the interface [OutboundClient], QuickFIX the interfaces of
    [Fix]; the logging callbacks do nothing else and are left out. *)

From S2P Require Import Prelude Core Doubles Fix Messaging Concurrency Transport.
From Stdlib Require Import ZArith Lia Ascii String.
From stdpp Require Import base option list gmap strings fin_maps.

Open Scope Z_scope.

Record Gateway (L F : Type) := mkGateway {
  gw_client : L;
  gw_connection_id : Z;
  gw_session : F
}.
Arguments mkGateway {L F} _ _ _.
Arguments gw_client {L F} _.
Arguments gw_connection_id {L F} _.
Arguments gw_session {L F} _.

Section Handlers.
Context {L F : Type} `{OutboundClient L} `{FixLibrary} `{FixSession F} `{ProtoCodec}.
Implicit Types (g : Gateway L F) (m : FixMessage).

(** The constructor; [expected::value()] throws when the connection failed. *)
Definition new_gateway (client : L) (session : F) (host : string) (port : Z) : res (Gateway L F) :=
  let '(client, _) := oc_start client in
  '(client, id) ← oc_connect client ("ws://" ++ host ++ ":" ++ to_string port) "N/A";
  id ← value_ id;
  Ok (mkGateway client id session).

(** The result of the send is ignored. *)
Definition sendContainer g (c : Container) : Gateway L F :=
  let '(client, _) := oc_send (gw_client g) (gw_connection_id g) (serialize_container c) fmt_binary in
  mkGateway client (gw_connection_id g) (gw_session g).

Definition send_report g (report : FixMessage) (sender target : string) : Gateway L F :=
  let '(session, _) := fs_send (gw_session g) report sender target in
  mkGateway (gw_client g) (gw_connection_id g) session.

(** The [FIX42::ExecutionReport] of [rejectMessage]; [exec_id] is a fresh UUID. *)
Definition reject_report (exec_id : string) (vars : Vars) (rejectReason : string) : FixMessage :=
  mkFix ExecutionReport (list_to_map
    [(OrderID, text vars ClOrdID);
     (ExecID, exec_id);
     (TagExecTransType, text_of_char ExecTransType_NEW);
     (TagExecType, text_of_char ExecType_REJECTED);
     (OrdStatus, text_of_char ExecType_REJECTED);
     (TagSymbol, text vars TagSymbol);
     (TagSide, text vars TagSide);
     (LeavesQty, text_of_double (of_int 0));
     (CumQty, text_of_double (of_int 0));
     (AvgPx, text_of_double (of_int 0));
     (ClOrdID, text vars ClOrdID);
     (Text, rejectReason)]).

(** The report goes back: the message's target is the sender now. *)
Definition rejectMessage (exec_id : string) g (vars : Vars) (rejectReason : string) : Gateway L F :=
  send_report g (reject_report exec_id vars rejectReason) (text vars TargetCompID) (text vars SenderCompID).

Definition read_new_order m : Vars * res unit :=
  and_then (get_all m [SenderCompID; TargetCompID; ClOrdID; TagSymbol; TagSide; OrderQty; OrdType] ∅)
    (fun vars =>
       match char_value vars OrdType with
       | Err e => (vars, Err e)
       | Ok ordType =>
           and_then (if decide (ordType = OrdType_LIMIT) then get_all m [Price] vars else (vars, Ok tt))
             (fun vars => get_all m [TagTimeInForce] vars)
       end).

Definition new_order_of_fix (vars : Vars) : res NewOrderSingleContainer :=
  cl_ord_id ← stoi (text vars ClOrdID);
  side ← (char_value vars TagSide ≫= side_of_fix);
  order_qty ← (double_value vars OrderQty ≫= convert_to_internal_quantity);
  ordType ← char_value vars OrdType;
  ord_type ← ord_type_of_fix ordType;
  price ← (if decide (ordType = OrdType_LIMIT)
           then Some <$> (double_value vars Price ≫= convert_to_internal_price)
           else Ok None);
  time_in_force ← (char_value vars TagTimeInForce ≫= tif_of_fix);
  Ok (mkNewOrder (text vars SenderCompID) (text vars TargetCompID) None cl_ord_id
        (text vars TagSymbol) side order_qty ord_type price time_in_force).

Definition read_cancel_request m : Vars * res unit :=
  and_then (get_all m [SenderCompID; TargetCompID] ∅) (fun vars =>
  and_then (match fm_fields m !! OrderID with
            | Some _ => get_all m [OrderID] vars
            | None => (vars, Ok tt)
            end) (fun vars =>
  get_all m [OrigClOrdID; ClOrdID; OrderQty; TagSymbol; TagSide] vars)).

Definition cancel_request_of_fix m (vars : Vars) : res CancelOrderRequestContainer :=
  order_id ← (match fm_fields m !! OrderID with
              | Some _ => Some <$> stoi (text vars OrderID)
              | None => Ok None
              end);
  orig_cl_ord_id ← stoi (text vars OrigClOrdID);
  cl_ord_id ← stoi (text vars ClOrdID);
  side ← (char_value vars TagSide ≫= side_of_fix);
  order_qty ← (double_value vars OrderQty ≫= convert_to_internal_quantity);
  Ok (mkCancelRequest (text vars SenderCompID) (text vars TargetCompID) order_id orig_cl_ord_id
        cl_ord_id (text vars TagSymbol) side order_qty).

(** Both handlers: read the fields, build the container and send it; an
    exception on the way rejects the message with what was read of it. *)
Definition try_forward (exec_id : string) g (fields : Vars * res unit)
    (build : Vars -> res Container) : res (Gateway L F) :=
  let '(vars, r) := fields in
  match (_ ← r; build vars) with
  | Ok c => Ok (sendContainer g c)
  | Err e => if is_exception e then Ok (rejectMessage exec_id g vars (what e)) else Err e
  end.

Definition onMessage_NewOrderSingle (exec_id : string) g m : res (Gateway L F) :=
  try_forward exec_id g (read_new_order m)
    (fun vars => CNewOrderSingle <$> new_order_of_fix vars).

Definition onMessage_OrderCancelRequest (exec_id : string) g m : res (Gateway L F) :=
  try_forward exec_id g (read_cancel_request m)
    (fun vars => CCancelOrderRequest <$> cancel_request_of_fix m vars).

(** [fromApp] cracks the message by its type; for a type without a handler the
    cracker throws [UnsupportedMessageType]. *)
Definition fromApp (exec_id : string) g m : res (Gateway L F) :=
  match fm_type m with
  | NewOrderSingle => onMessage_NewOrderSingle exec_id g m
  | OrderCancelRequest => onMessage_OrderCancelRequest exec_id g m
  | _ => Err UnsupportedMessageType
  end.

(** ** Reports *)
Definition exec_type_char (t : ExecTypeOrOrderStatus) : ascii :=
  match t with
  | status_filled => ExecType_FILL
  | status_partially_filled => ExecType_PARTIAL_FILL
  | status_canceled => ExecType_CANCELED
  | status_rejected => ExecType_REJECTED
  | _ => ExecType_NEW
  end.

Definition ord_status_char (t : ExecTypeOrOrderStatus) : ascii :=
  match t with
  | status_filled => OrdStatus_FILLED
  | status_partially_filled => OrdStatus_PARTIALLY_FILLED
  | status_canceled => OrdStatus_CANCELED
  | status_rejected => OrdStatus_REJECTED
  | _ => OrdStatus_NEW
  end.

(** [if (o.has_value()) report.setField(...)]. *)
Definition set_optional {A} (t : Tag) (f : A -> string) (o : option A) (m : FixMessage) : FixMessage :=
  match o with Some a => set_field t (f a) m | None => m end.

(** The fields that every report has. *)
Definition report_fields (r : ExecutionReportContainer) (order_qty : Z) : gmap Tag string :=
  list_to_map
    [(OrderID, to_string (er_order_id r));
     (ExecID, er_exec_id r);
     (TagExecTransType, text_of_char ExecTransType_NEW);
     (TagExecType, text_of_char (exec_type_char (er_exec_type r)));
     (OrdStatus, text_of_char (ord_status_char (er_ord_status r)));
     (TagSymbol, er_symbol r);
     (TagSide, text_of_char (match er_side r with bid => Side_BUY | ask => Side_SELL end));
     (LeavesQty, text_of_double (to_decimal (er_leaves_qty r)));
     (CumQty, text_of_double (to_decimal (er_cum_qty r)));
     (AvgPx, text_of_double (to_decimal (er_avg_px r)));
     (ClOrdID, to_string (er_cl_order_id r));
     (OrderQty, text_of_double (to_decimal order_qty));
     (LastPx, text_of_double (of_int 0))].

Definition fix_report (r : ExecutionReportContainer) : res FixMessage :=
  order_qty ← add32 (er_leaves_qty r) (er_cum_qty r);
  let execReport := mkFix ExecutionReport (report_fields r order_qty) in
  Ok (set_optional Text id (er_text r)
       (set_optional Price (text_of_double ∘ to_decimal) (er_price r)
         (set_optional OrigClOrdID to_string (er_orig_cl_ord_id r) execReport))).

(** One turn of the main loop.  The connection is the literal 0. *)
Definition process_report g : res (Gateway L F) :=
  let '(client, new_message) := oc_dequeue_message (gw_client g) 0 in
  let g := mkGateway client (gw_connection_id g) (gw_session g) in
  match new_message with
  | None => Ok g
  | Some data =>
      match deserialize_container data with
      | Err e => if is_exception e then Ok g else Err e
      | Ok (CExecutionReport r) =>
          execReport ← fix_report r;
          Ok (send_report g execReport (er_sender_comp_id r) (er_target_comp_id r))
      | Ok _ => Ok g
      end
  end.
End Handlers.

(** ** What a message says *)
Section Contract.
Context {L F : Type} `{OutboundClient L} `{LinkView L} `{FixLibrary} `{FixSession F} `{ProtoCodec}.
Implicit Types (g : Gateway L F) (m : FixMessage).

Definition field_int m (t : Tag) (z : Z) : Prop :=
  exists s, fm_fields m !! t = Some s /\ stoi s = Ok z.
Definition field_hundredths m (t : Tag) (z : Z) : Prop :=
  exists d, field_double m t = Some d /\ convert_to_internal_quantity d = Ok z.

Record says_new_order m (c : NewOrderSingleContainer) : Prop := {
  sn_sender : fm_fields m !! SenderCompID = Some (no_sender_comp_id c);
  sn_target : fm_fields m !! TargetCompID = Some (no_target_comp_id c);
  sn_order_id : no_order_id c = None;
  sn_cl_ord_id : field_int m ClOrdID (no_cl_ord_id c);
  sn_symbol : fm_fields m !! TagSymbol = Some (no_symbol c);
  sn_side : field_char m TagSide = Some (fix_of_side (no_side c));
  sn_qty : field_hundredths m OrderQty (no_order_qty c);
  sn_type : field_char m OrdType = Some (fix_of_ord_type (no_ord_type c));
  sn_price : match no_ord_type c, no_price c with
             | limit, Some p => field_hundredths m Price p
             | market, None => True
             | _, _ => False
             end;
  sn_tif : field_char m TagTimeInForce = Some (fix_of_tif (no_time_in_force c))
}.

Record says_cancel m (c : CancelOrderRequestContainer) : Prop := {
  sc_sender : fm_fields m !! SenderCompID = Some (cr_sender_comp_id c);
  sc_target : fm_fields m !! TargetCompID = Some (cr_target_comp_id c);
  sc_order_id : match cr_order_id c with
                | Some i => field_int m OrderID i
                | None => fm_fields m !! OrderID = None
                end;
  sc_orig : field_int m OrigClOrdID (cr_orig_cl_ord_id c);
  sc_cl_ord_id : field_int m ClOrdID (cr_cl_ord_id c);
  sc_symbol : fm_fields m !! TagSymbol = Some (cr_symbol c);
  sc_side : field_char m TagSide = Some (fix_of_side (cr_side c));
  sc_qty : field_hundredths m OrderQty (cr_order_qty c)
}.

(** The enumerated fields carry values that the exchange knows, and the numbers
    fit [int]: otherwise an assertion or an undefined conversion ends the gateway. *)
Record supported m : Prop := {
  su_side c : field_char m TagSide = Some c -> exists s, c = fix_of_side s;
  su_type c : field_char m OrdType = Some c -> exists t, c = fix_of_ord_type t;
  su_tif c : field_char m TagTimeInForce = Some c -> exists t, c = fix_of_tif t;
  su_qty d : field_double m OrderQty = Some d -> exists z, convert_to_internal_quantity d = Ok z;
  su_price d : field_double m Price = Some d -> exists z, convert_to_internal_price d = Ok z
}.

(** The container went to the order manager, if the connection took it. *)
Definition forwards g g' (c : Container) : Prop :=
  gw_connection_id g' = gw_connection_id g /\ gw_session g' = gw_session g /\
  exists ok : bool,
    oc_send (gw_client g) (gw_connection_id g) (serialize_container c) fmt_binary = (gw_client g', ok) /\
    sends (gw_client g) (gw_client g') (gw_connection_id g) (if ok then [serialize_container c] else []).

(** An execution report that says "rejected" was given to the session layer, from
    the target of the message to its sender, and is sent if their session is there. *)
Definition rejects g g' (sender target : string) : Prop :=
  gw_connection_id g' = gw_connection_id g /\ gw_client g' = gw_client g /\
  exists (ok : bool) report,
    fm_type report = ExecutionReport /\ field_char report TagExecType = Some ExecType_REJECTED /\
    fs_send (gw_session g) report target sender = (gw_session g', ok) /\
    fs_sent (gw_session g') =
      fs_sent (gw_session g) ++ (if ok then [(report, target, sender)] else []).
End Contract.

(** The next step of a handler: on an exception the message says nothing. *)
Tactic Notation "decode_step" hyp(S) "as" ident(x) :=
  match type of S with
  | match ?r with _ => _ end =>
      destruct r as [x|?]; simpl;
      [|destruct S as [? S]; split; [done|by intros ? []; eapply S]]
  end.

Section Decoding.
Context `{FixLibraryLaws}.
Implicit Types (m : FixMessage) (vars : Vars).

(** A step of a handler that reads one field: it yields what the message says,
    or throws, and then the message does not say anything. *)
Lemma int_step m vars t : vars ⊆ fm_fields m -> is_Some (vars !! t) ->
  match stoi (text vars t) with
  | Ok z => forall z', field_int m t z' <-> z' = z
  | Err e => is_exception e = true /\ forall z, ~ field_int m t z
  end.
Proof.
  intros Hsub Ht. pose proof (text_read m vars t Hsub Ht) as Htext.
  destruct (stoi (text vars t)) as [z|e] eqn:E.
  - intros z'. unfold field_int. rewrite Htext.
    split; [intros (s & [= <-] & Hs); congruence|intros ->; eauto].
  - split; [by eapply stoi_exception|]. unfold field_int. rewrite Htext.
    intros z (s & [= <-] & Hs). congruence.
Qed.

Lemma hundredths_step m vars t (conv : double -> res Z) :
  (forall d, conv d = convert_to_internal_quantity d) ->
  (forall d, field_double m t = Some d -> exists z, conv d = Ok z) ->
  vars ⊆ fm_fields m -> is_Some (vars !! t) ->
  match (double_value vars t ≫= conv) with
  | Ok z => forall z', field_hundredths m t z' <-> z' = z
  | Err e => is_exception e = true /\ forall z, ~ field_hundredths m t z
  end.
Proof.
  intros Hconv Hok Hsub Ht. rewrite (double_value_read m) by done. unfold field_hundredths.
  destruct (field_double m t) as [d|]; simpl; [|split; [done|by intros z (? & ? & ?)]].
  destruct (Hok d eq_refl) as [z Hz]. rewrite Hz. intros z'. rewrite Hconv in Hz.
  split; [intros (d' & [= <-] & Hz'); congruence|intros ->; eauto].
Qed.

Lemma enum_step {A} (dec : ascii -> res A) (enc : A -> ascii) m vars t :
  (forall a, dec (enc a) = Ok a) ->
  (forall c, field_char m t = Some c -> exists a, c = enc a) ->
  vars ⊆ fm_fields m -> is_Some (vars !! t) ->
  match (char_value vars t ≫= dec) with
  | Ok a => forall a', field_char m t = Some (enc a') <-> a' = a
  | Err e => is_exception e = true /\ forall a, field_char m t <> Some (enc a)
  end.
Proof.
  intros Hof Hsu Hsub Ht. rewrite (char_value_read m) by done.
  destruct (field_char m t) as [c|] eqn:E; simpl; [|by split].
  destruct (Hsu c eq_refl) as [a ->]. rewrite (Hof a). intros a'. split; [|by intros ->].
  intros [= Heq]. pose proof (Hof a') as Ha'. rewrite <- Heq, Hof in Ha'. congruence.
Qed.

Lemma side_of_to s : side_of_fix (fix_of_side s) = Ok s.
Proof. by apply side_of_fix_spec. Qed.
Lemma ord_type_of_to t : ord_type_of_fix (fix_of_ord_type t) = Ok t.
Proof. by apply ord_type_of_fix_spec. Qed.
Lemma tif_of_to t : tif_of_fix (fix_of_tif t) = Ok t.
Proof. by apply tif_of_fix_spec. Qed.

(** The order of a message whose fields were read. *)
Lemma new_order_of_fix_ok m vars :
  supported m -> vars ⊆ fm_fields m ->
  Forall (fun t => is_Some (vars !! t))
    [SenderCompID; TargetCompID; ClOrdID; TagSymbol; TagSide; OrderQty; OrdType; TagTimeInForce] ->
  (field_char m OrdType = Some OrdType_LIMIT -> is_Some (vars !! Price)) ->
  match new_order_of_fix vars with
  | Ok c => says_new_order m c
  | Err e => is_exception e = true /\ forall c, ~ says_new_order m c
  end.
Proof.
  intros Hsu Hsub Hall Hprice. rewrite !Forall_cons in Hall.
  destruct Hall as (Hsender & Htarget & Hcl & Hsym & Hside & Hqty & Htype & Htif & _).
  unfold new_order_of_fix.
  pose proof (int_step m vars ClOrdID Hsub Hcl) as Scl. decode_step Scl as cl.
  pose proof (enum_step _ _ m vars TagSide side_of_to (su_side m Hsu) Hsub Hside) as Sside.
  decode_step Sside as side.
  pose proof (hundredths_step m vars OrderQty _ (fun _ => eq_refl) (su_qty m Hsu) Hsub Hqty) as Sqty.
  decode_step Sqty as qty.
  pose proof (enum_step _ _ m vars OrdType ord_type_of_to (su_type m Hsu) Hsub Htype) as Stype.
  pose proof (enum_step _ _ m vars TagTimeInForce tif_of_to (su_tif m Hsu) Hsub Htif) as Stif.
  pose proof (char_value_read m vars OrdType Hsub Htype) as Ec. rewrite Ec in Stype |- *.
  destruct (field_char m OrdType) as [c|] eqn:Ef; simpl in Stype |- *;
    [|split; [done|intros ? []; congruence]].
  destruct (su_type m Hsu c Ef) as [ty ->]. rewrite ord_type_of_to in Stype |- *. simpl.
  assert (forall c', says_new_order m c' -> no_ord_type c' = ty) as Hty.
  { intros c' Hc'. apply Stype. rewrite <- Ef. apply Hc'. }
  assert (forall p, (ty = limit -> match p with Some p => field_hundredths m Price p | None => False end) ->
            (ty = market -> p = None) ->
            match (tif ← (char_value vars TagTimeInForce ≫= tif_of_fix);
                   Ok (mkNewOrder (text vars SenderCompID) (text vars TargetCompID) None cl
                         (text vars TagSymbol) side qty ty p tif)) with
            | Ok c => says_new_order m c
            | Err e => is_exception e = true /\ forall c, ~ says_new_order m c
            end) as Hrest.
  { intros p Hlim Hmkt. decode_step Stif as tif. split; simpl; auto using text_read.
    - by apply Scl.
    - by apply Sside.
    - by apply Sqty.
    - destruct ty; [by destruct p; auto|by rewrite Hmkt].
    - by apply Stif. }
  destruct ty; case_decide as Hc; simpl in Hc; try done; [|by apply ord_type_values in Hc|by apply Hrest].
  pose proof (hundredths_step m vars Price convert_to_internal_price (fun _ => eq_refl)
    (su_price m Hsu) Hsub (Hprice eq_refl)) as Sprice.
  destruct (_ ≫= convert_to_internal_price) as [p|e]; simpl.
  - apply Hrest; [|done]. intros _. by apply Sprice.
  - destruct Sprice as [? Sprice]. split; [done|]. intros c Hc'. pose proof (Hty c Hc') as Hct.
    destruct Hc' as [_ _ _ _ _ _ _ _ Hp _]. rewrite Hct in Hp. destruct (no_price c); [|done].
    by eapply Sprice.
Qed.

Lemma cancel_request_of_fix_ok m vars :
  supported m -> vars ⊆ fm_fields m ->
  Forall (fun t => is_Some (vars !! t))
    [SenderCompID; TargetCompID; OrigClOrdID; ClOrdID; OrderQty; TagSymbol; TagSide] ->
  (is_Some (fm_fields m !! OrderID) -> is_Some (vars !! OrderID)) ->
  match cancel_request_of_fix m vars with
  | Ok c => says_cancel m c
  | Err e => is_exception e = true /\ forall c, ~ says_cancel m c
  end.
Proof.
  intros Hsu Hsub Hall Hid. rewrite !Forall_cons in Hall.
  destruct Hall as (Hsender & Htarget & Horig & Hcl & Hqty & Hsym & Hside & _).
  unfold cancel_request_of_fix.
  assert (match (match fm_fields m !! OrderID with
                 | Some _ => Some <$> stoi (text vars OrderID) | None => Ok None end) with
          | Ok o => match o with Some i => field_int m OrderID i | None => fm_fields m !! OrderID = None end
          | Err e => is_exception e = true /\ forall c, ~ says_cancel m c
          end) as Soid.
  { destruct (fm_fields m !! OrderID) as [s|] eqn:Es; [|done].
    pose proof (int_step m vars OrderID Hsub (Hid ltac:(eauto))) as S.
    destruct (stoi _) as [i|e]; simpl; [by apply S|]. destruct S as [? S]. split; [done|].
    intros c []. destruct (cr_order_id c); [by eapply S|congruence]. }
  destruct (match fm_fields m !! OrderID with Some _ => _ | None => _ end) as [oid|e]; simpl; [|done].
  pose proof (int_step m vars OrigClOrdID Hsub Horig) as Sorig. decode_step Sorig as orig.
  pose proof (int_step m vars ClOrdID Hsub Hcl) as Scl. decode_step Scl as cl.
  pose proof (enum_step _ _ m vars TagSide side_of_to (su_side m Hsu) Hsub Hside) as Sside.
  decode_step Sside as side.
  pose proof (hundredths_step m vars OrderQty _ (fun _ => eq_refl) (su_qty m Hsu) Hsub Hqty) as Sqty.
  decode_step Sqty as qty.
  split; simpl; auto using text_read; first [by apply Sorig|by apply Scl|by apply Sside|by apply Sqty].
Qed.

Lemma field_char_some m t c : field_char m t = Some c -> is_Some (fm_fields m !! t).
Proof. unfold field_char. by destruct (fm_fields m !! t). Qed.
Lemma field_hundredths_some m t z : field_hundredths m t z -> is_Some (fm_fields m !! t).
Proof. intros (d & Hd & _). unfold field_double in Hd. by destruct (fm_fields m !! t). Qed.
Lemma field_int_some m t z : field_int m t z -> is_Some (fm_fields m !! t).
Proof. intros (s & Hs & _). by exists s. Qed.
Hint Resolve field_char_some field_hundredths_some field_int_some : core.

Lemma says_new_order_fields m c : says_new_order m c ->
  Forall (fun t => is_Some (fm_fields m !! t))
    [SenderCompID; TargetCompID; ClOrdID; TagSymbol; TagSide; OrderQty; OrdType; TagTimeInForce] /\
  (field_char m OrdType = Some OrdType_LIMIT -> is_Some (fm_fields m !! Price)).
Proof.
  intros []. split; [rewrite !Forall_cons; split_and!; eauto|]. intros Hlim.
  destruct (no_ord_type c); simpl in *; [destruct (no_price c); [eauto|done]|].
  rewrite sn_type0 in Hlim. injection Hlim as Heq. by apply ord_type_values in Heq.
Qed.

Lemma says_cancel_fields m c : says_cancel m c ->
  Forall (fun t => is_Some (fm_fields m !! t))
    [SenderCompID; TargetCompID; OrigClOrdID; ClOrdID; OrderQty; TagSymbol; TagSide].
Proof. intros []. rewrite !Forall_cons; split_and!; eauto. Qed.

(** What the reading part of a handler leaves: fields of the message, the header
    among them; all that the message needs to say something, or an exception. *)
Definition read_ok m (sender target : string) (says : Prop) (needs : Vars -> Prop)
    (r : Vars * res unit) : Prop :=
  r.1 ⊆ fm_fields m /\ r.1 !! SenderCompID = Some sender /\ r.1 !! TargetCompID = Some target /\
  match r.2 with
  | Ok _ => needs r.1
  | Err e => is_exception e = true /\ ~ says
  end.

(** A further run of [get]s. *)
Lemma get_all_read_ok m sender target says needs tags vars :
  vars ⊆ fm_fields m -> vars !! SenderCompID = Some sender -> vars !! TargetCompID = Some target ->
  (says -> Forall (fun t => is_Some (fm_fields m !! t)) tags) ->
  (forall vars', vars ⊆ vars' -> Forall (fun t => is_Some (vars' !! t)) tags -> needs vars') ->
  read_ok m sender target says needs (get_all m tags vars).
Proof.
  intros Hsub Hs Ht Hsays Hneeds. destruct (get_all_reading m tags vars Hsub) as [[Hsub' Hr] Hin].
  unfold read_ok. destruct (get_all m tags vars) as [vars' [u|e]]; simpl in *;
    rewrite map_subseteq_spec in Hin.
  - split_and!; auto. apply Hneeds; [by rewrite map_subseteq_spec|done].
  - destruct Hr as (He & t & Ht' & Hnone). split_and!; auto. intros Hc. specialize (Hsays Hc).
    rewrite Forall_forall in Hsays. destruct (Hsays t Ht') as [? ?]. congruence.
Qed.

Lemma read_then_ok m sender target says needs needs' a b :
  read_ok m sender target says needs a ->
  (forall vars, vars ⊆ fm_fields m -> vars !! SenderCompID = Some sender ->
     vars !! TargetCompID = Some target -> needs vars -> read_ok m sender target says needs' (b vars)) ->
  read_ok m sender target says needs' (and_then a b).
Proof. destruct a as [vars [u|e]]; intros (? & ? & ? & ?) Hb; simpl in *; [by apply Hb|by split_and!]. Qed.

(** The header is read first. *)
Definition header_vars (sender target : string) : Vars :=
  <[TargetCompID := target]> (<[SenderCompID := sender]> ∅).

Lemma header_vars_sub m sender target :
  fm_fields m !! SenderCompID = Some sender -> fm_fields m !! TargetCompID = Some target ->
  header_vars sender target ⊆ fm_fields m.
Proof. intros Hs Ht. repeat apply insert_subseteq_l; [done..|apply map_empty_subseteq]. Qed.

Lemma header_vars_lookup sender target :
  header_vars sender target !! SenderCompID = Some sender /\
  header_vars sender target !! TargetCompID = Some target.
Proof. done. Qed.

Lemma get_all_header m sender target tags :
  fm_fields m !! SenderCompID = Some sender -> fm_fields m !! TargetCompID = Some target ->
  get_all m (SenderCompID :: TargetCompID :: tags) ∅ = get_all m tags (header_vars sender target).
Proof. intros Hs Ht. simpl. by rewrite Hs, Ht. Qed.

(** Fields read stay read. *)
Lemma forall_read_mono (vars vars' : Vars) tags :
  vars ⊆ vars' -> Forall (fun t => is_Some (vars !! t)) tags ->
  Forall (fun t => is_Some (vars' !! t)) tags.
Proof.
  intros Hsub Hall. rewrite map_subseteq_spec in Hsub.
  eapply Forall_impl; [exact Hall|]. intros t [v Hv]. exists v. auto.
Qed.

Lemma read_new_order_ok m sender target :
  fm_fields m !! SenderCompID = Some sender -> fm_fields m !! TargetCompID = Some target ->
  read_ok m sender target (exists c, says_new_order m c)
    (fun vars => Forall (fun t => is_Some (vars !! t))
        [SenderCompID; TargetCompID; ClOrdID; TagSymbol; TagSide; OrderQty; OrdType; TagTimeInForce] /\
      (field_char m OrdType = Some OrdType_LIMIT -> is_Some (vars !! Price)))
    (read_new_order m).
Proof.
  intros Hs Ht. unfold read_new_order. rewrite (get_all_header m sender target) by done.
  assert ((exists c, says_new_order m c) -> Forall (fun t => is_Some (fm_fields m !! t))
    [ClOrdID; TagSymbol; TagSide; OrderQty; OrdType]) as Hbody.
  { intros [c Hc]. destruct (says_new_order_fields m c Hc) as [Hall _].
    rewrite !Forall_cons in *. tauto. }
  apply (read_then_ok m sender target _ (fun vars => Forall (fun t => is_Some (vars !! t))
    [ClOrdID; TagSymbol; TagSide; OrderQty; OrdType])).
  { apply get_all_read_ok; try done; auto using header_vars_sub. }
  intros vars Hsub Hvs Hvt Hread.
  rewrite (char_value_read m) by (done || (rewrite !Forall_cons in Hread; tauto)).
  destruct (field_char m OrdType) as [c|] eqn:Ec; cbn [get_or].
  2: { unfold read_ok; simpl. split_and!; try done. intros [c []]. congruence. }
  apply (read_then_ok m sender target _ (fun vars => Forall (fun t => is_Some (vars !! t))
    [ClOrdID; TagSymbol; TagSide; OrderQty; OrdType] /\
    (field_char m OrdType = Some OrdType_LIMIT -> is_Some (vars !! Price)))).
  - case_decide as Hlim; [|unfold read_ok; simpl; split_and!; try done; congruence].
    apply get_all_read_ok; try done.
    + intros [c' Hc]. apply Forall_singleton. destruct (says_new_order_fields m c' Hc). auto with congruence.
    + intros vars' Hin Hp. rewrite Forall_singleton in Hp. eauto using forall_read_mono.
  - intros vars' Hsub' Hvs' Hvt' [Hread' Hp]. apply get_all_read_ok; try done.
    + intros [c' Hc]. destruct (says_new_order_fields m c' Hc) as [Hall _].
      rewrite !Forall_cons in *. tauto.
    + intros vars'' Hin Htif. pose proof (forall_read_mono _ _ _ Hin Hread') as Hr.
      rewrite map_subseteq_spec in Hin. rewrite !Forall_cons in *. split; [naive_solver|].
      intros Hl. destruct (Hp ltac:(congruence)) as [v Hv]. eauto.
Qed.

Lemma read_cancel_request_ok m sender target :
  fm_fields m !! SenderCompID = Some sender -> fm_fields m !! TargetCompID = Some target ->
  read_ok m sender target (exists c, says_cancel m c)
    (fun vars => Forall (fun t => is_Some (vars !! t))
        [SenderCompID; TargetCompID; OrigClOrdID; ClOrdID; OrderQty; TagSymbol; TagSide] /\
      (is_Some (fm_fields m !! OrderID) -> is_Some (vars !! OrderID)))
    (read_cancel_request m).
Proof.
  intros Hs Ht. unfold read_cancel_request. rewrite (get_all_header m sender target) by done.
  apply (read_then_ok m sender target _ (fun _ => True)).
  { apply get_all_read_ok; auto using header_vars_sub. }
  intros vars Hsub Hvs Hvt _.
  apply (read_then_ok m sender target _ (fun vars => is_Some (fm_fields m !! OrderID) -> is_Some (vars !! OrderID))).
  - destruct (fm_fields m !! OrderID) as [v|] eqn:Ev;
      [|unfold read_ok; simpl; split_and!; try done; by intros [? ?]].
    apply get_all_read_ok; try done; [by constructor; eauto|].
    intros vars' _ Hid. by rewrite Forall_singleton in Hid.
  - intros vars' Hsub' Hvs' Hvt' Hid. apply get_all_read_ok; try done.
    + intros [c Hc]. pose proof (says_cancel_fields m c Hc) as Hall. rewrite !Forall_cons in *. tauto.
    + intros vars'' Hin Hall. rewrite map_subseteq_spec in Hin. rewrite !Forall_cons in *.
      split; [naive_solver|]. intros Hi. destruct (Hid Hi) as [v Hv]. eauto.
Qed.
End Decoding.

Section Gateway_theorems.
Context {L F : Type} `{OutboundClientLaws L} `{FixLibraryLaws} `{FixSessionLaws F} `{ProtoCodec}.
Implicit Types (g : Gateway L F) (m : FixMessage).

Lemma sendContainer_forwards g c : forwards g (sendContainer g c) c.
Proof.
  unfold forwards, sendContainer. destruct (oc_send _ _ _ _) as [l ok] eqn:E. simpl.
  split_and!; [done..|]. exists ok. split; [done|]. by eapply sends_of_law; [apply oc_send_law|].
Qed.

Lemma rejectMessage_rejects exec_id g vars reason sender target :
  vars !! SenderCompID = Some sender -> vars !! TargetCompID = Some target ->
  rejects g (rejectMessage exec_id g vars reason) sender target.
Proof.
  intros Hs Ht. unfold rejects, rejectMessage, send_report.
  assert (text vars SenderCompID = sender /\ text vars TargetCompID = target) as [-> ->]
    by (unfold text; by rewrite Hs, Ht).
  destruct (fs_send _ _ _ _) as [f ok] eqn:E. simpl. split_and!; [done..|].
  exists ok, (reject_report exec_id vars reason). split; [done|]. split; [|split; [done|]].
  - unfold field_char. simpl. rewrite !lookup_insert_ne by done. rewrite lookup_insert_eq. simpl.
    by rewrite char_of_text_of_char.
  - rewrite (fs_send_law _ _ _ _ _ _ E). by destruct ok; rewrite ?app_nil_r.
Qed.

(** A handler forwards what the message says, or rejects it when it says nothing. *)
Lemma try_forward_ok {C} exec_id g m sender target fields build (wrap : C -> Container)
    (says : C -> Prop) needs :
  read_ok m sender target (exists c, says c) needs fields ->
  (forall vars, vars ⊆ fm_fields m -> needs vars ->
     match build vars with
     | Ok c => says c
     | Err e => is_exception e = true /\ forall c, ~ says c
     end) ->
  exists g', try_forward exec_id g fields (fun vars => wrap <$> build vars) = Ok g' /\
    ((exists c, says c /\ forwards g g' (wrap c)) \/
     ((forall c, ~ says c) /\ rejects g g' sender target)).
Proof.
  intros (Hsub & Hs & Ht & Hr) Hbuild. destruct fields as [vars [u|e]]; simpl in *.
  - specialize (Hbuild vars Hsub Hr). destruct (build vars) as [c|e]; simpl.
    + eexists. split; [done|]. left. exists c. eauto using sendContainer_forwards.
    + destruct Hbuild as [-> Hno]. eexists. split; [done|]. right. eauto using rejectMessage_rejects.
  - destruct Hr as [-> Hno]. eexists. split; [done|]. right. split; [naive_solver|].
    by apply rejectMessage_rejects.
Qed.

Lemma new_order_handled exec_id g m sender target :
  fm_fields m !! SenderCompID = Some sender -> fm_fields m !! TargetCompID = Some target ->
  supported m ->
  exists g', onMessage_NewOrderSingle exec_id g m = Ok g' /\
    ((exists c, says_new_order m c /\ forwards g g' (CNewOrderSingle c)) \/
     ((forall c, ~ says_new_order m c) /\ rejects g g' sender target)).
Proof.
  intros Hs Ht Hsu. eapply try_forward_ok; [by apply read_new_order_ok|].
  intros vars Hsub [Hall Hp]. by apply new_order_of_fix_ok.
Qed.

Lemma cancel_request_handled exec_id g m sender target :
  fm_fields m !! SenderCompID = Some sender -> fm_fields m !! TargetCompID = Some target ->
  supported m ->
  exists g', onMessage_OrderCancelRequest exec_id g m = Ok g' /\
    ((exists c, says_cancel m c /\ forwards g g' (CCancelOrderRequest c)) \/
     ((forall c, ~ says_cancel m c) /\ rejects g g' sender target)).
Proof.
  intros Hs Ht Hsu. eapply try_forward_ok; [by apply read_cancel_request_ok|].
  intros vars Hsub [Hall Hid]. by apply cancel_request_of_fix_ok.
Qed.

(** A message says at most one thing. *)
Lemma field_int_unique m t z z' : field_int m t z -> field_int m t z' -> z = z'.
Proof. intros (s & Hs & Hz) (s' & Hs' & Hz'). congruence. Qed.
Lemma field_hundredths_unique m t z z' : field_hundredths m t z -> field_hundredths m t z' -> z = z'.
Proof. intros (s & Hs & Hz) (s' & Hs' & Hz'). congruence. Qed.

Lemma says_new_order_unique m c c' : says_new_order m c -> says_new_order m c' -> c = c'.
Proof.
  destruct c as [s t o i sy sd q ty p tf], c' as [s' t' o' i' sy' sd' q' ty' p' tf'].
  intros [Hs Ht Ho Hi Hsy Hsd Hq Hty Hp Htf] [Hs' Ht' Ho' Hi' Hsy' Hsd' Hq' Hty' Hp' Htf']; simpl in *.
  rewrite Hs in Hs'. rewrite Ht in Ht'. rewrite Hsy in Hsy'. rewrite Hsd in Hsd'. rewrite Hty in Hty'.
  rewrite Htf in Htf'. injection Hsd' as Hsd'%fix_of_side_inj. injection Hty' as Hty'%fix_of_ord_type_inj.
  injection Htf' as Htf'%fix_of_tif_inj. simplify_eq.
  assert (p = p') as ->.
  { destruct ty', p, p'; try done. f_equal. by eapply field_hundredths_unique. }
  f_equal; [by eapply field_int_unique|by eapply field_hundredths_unique].
Qed.

Lemma says_cancel_unique m c c' : says_cancel m c -> says_cancel m c' -> c = c'.
Proof.
  destruct c as [s t o oi i sy sd q], c' as [s' t' o' oi' i' sy' sd' q'].
  intros [Hs Ht Ho Hoi Hi Hsy Hsd Hq] [Hs' Ht' Ho' Hoi' Hi' Hsy' Hsd' Hq']; simpl in *.
  rewrite Hs in Hs'. rewrite Ht in Ht'. rewrite Hsy in Hsy'. rewrite Hsd in Hsd'.
  injection Hsd' as Hsd'%fix_of_side_inj. simplify_eq.
  assert (o = o') as ->.
  { destruct o, o'; try done; [f_equal; by eapply field_int_unique|..];
      [destruct Ho as (? & ? & ?)|destruct Ho' as (? & ? & ?)]; congruence. }
  f_equal; [by eapply field_int_unique..|by eapply field_hundredths_unique].
Qed.

(** C36: the gateway answers every order and cancel message of a client whose side,
    type and time in force, as far as they are there, are values that the exchange
    knows and whose numbers fit ([unknown_side_aborts] shows how it ends on
    others).  Either the message says an order (every needed field is there and
    converts), and then exactly that container is sent to the order manager and
    nothing to the client; or it says none, and then nothing is sent to the order
    manager and an execution report that says "rejected" is given to the session
    of the sender.  The connection may refuse the one and the session the other;
    the gateway keeps running. *)
Theorem gateway_requests exec_id g m sender target :
  fm_fields m !! SenderCompID = Some sender -> fm_fields m !! TargetCompID = Some target ->
  supported m ->
  (exists g', onMessage_NewOrderSingle exec_id g m = Ok g' /\
    ((exists c, says_new_order m c /\ forwards g g' (CNewOrderSingle c)) \/
     ((forall c, ~ says_new_order m c) /\ rejects g g' sender target))) /\
  (exists g', onMessage_OrderCancelRequest exec_id g m = Ok g' /\
    ((exists c, says_cancel m c /\ forwards g g' (CCancelOrderRequest c)) \/
     ((forall c, ~ says_cancel m c) /\ rejects g g' sender target))).
Proof.
  intros Hs Ht Hsu. split; [by apply new_order_handled|by apply cancel_request_handled].
Qed.

(** A side that the exchange does not know ends the gateway: the assertion comes
    before the exception that the handler would catch. *)
Lemma unknown_side_aborts exec_id g m vars cl c :
  read_new_order m = (vars, Ok tt) -> stoi (text vars ClOrdID) = Ok cl ->
  char_value vars TagSide = Ok c -> (forall s, c <> fix_of_side s) ->
  onMessage_NewOrderSingle exec_id g m = Err AssertionFailed.
Proof.
  intros Hread Hcl Hc Hno. unfold onMessage_NewOrderSingle, try_forward. rewrite Hread. simpl.
  unfold new_order_of_fix. rewrite Hcl. simpl. rewrite Hc. simpl.
  destruct (side_of_fix_spec c) as [Hs _]. destruct (side_of_fix c) as [s|e]; simpl.
  - by apply Hno in Hs.
  - by destruct Hs as [-> _].
Qed.
End Gateway_theorems.

(** ** A concrete library

    The values of FIX 4.2; a double's text lists its parts. *)
Definition double_code (d : double) : positive :=
  match d with
  | SpecFloat.S754_zero s => encode (0%nat, s, 1%positive, 0)
  | SpecFloat.S754_infinity s => encode (1%nat, s, 1%positive, 0)
  | SpecFloat.S754_nan => encode (2%nat, false, 1%positive, 0)
  | SpecFloat.S754_finite s m e => encode (3%nat, s, m, e)
  end.

Definition double_decode (p : positive) : option double :=
  '(k, s, m, e) ← (decode p : option (nat * bool * positive * Z));
  match k with
  | 0%nat => Some (SpecFloat.S754_zero s)
  | 1%nat => Some (SpecFloat.S754_infinity s)
  | 2%nat => Some SpecFloat.S754_nan
  | 3%nat => Some (SpecFloat.S754_finite s m e)
  | _ => None
  end.

Definition fix42 : FixLibrary := {|
  Side_BUY := "1"; Side_SELL := "2"; OrdType_MARKET := "1"; OrdType_LIMIT := "2";
  TimeInForce_DAY := "0"; TimeInForce_GOOD_TILL_CANCEL := "1"; ExecTransType_NEW := "0";
  ExecType_NEW := "0"; ExecType_PARTIAL_FILL := "1"; ExecType_FILL := "2";
  ExecType_CANCELED := "4"; ExecType_REJECTED := "8";
  OrdStatus_NEW := "0"; OrdStatus_PARTIALLY_FILLED := "1"; OrdStatus_FILLED := "2";
  OrdStatus_CANCELED := "4"; OrdStatus_REJECTED := "8";
  text_of_double d := pos_digits (double_code d);
  double_of_text s := double_decode (digits_pos s);
  text_of_char c := String c EmptyString;
  char_of_text s := match s with String c EmptyString => Some c | _ => None end;
  default_text _ := EmptyString;
  what _ := "error"
|}.

Lemma fix42_laws : @FixLibraryLaws fix42.
Proof. split; try done. by apply (bool_decide_unpack _). Qed.

Definition open_session : FixSession (list (FixMessage * string * string)) := {|
  fs_send f m sender target := (f ++ [(m, sender, target)], true);
  fs_sent f := f
|}.

Lemma open_session_laws : @FixSessionLaws _ open_session.
Proof. intros f m s t f' ok [= <- <-]. done. Qed.

(** A gateway connected to the order manager on connection 0. *)
Definition sample_link : WebsocketManager unit :=
  match client_connect (mkManager () ∅ ∅ 0 []) "uri" "N/A" with
  | Ok (w, _) => w
  | Err _ => mkManager () ∅ ∅ 0 []
  end.

Definition sample_gateway : Gateway (WebsocketManager unit) (list (FixMessage * string * string)) :=
  mkGateway sample_link 0 [].

(** A cancel request without the original id: it says nothing. *)
Definition bad_cancel : FixMessage :=
  mkFix OrderCancelRequest (list_to_map
    [(SenderCompID, "alice"); (TargetCompID, "EDUX"); (ClOrdID, "7"); (TagSide, "1")])%string.

Lemma gateway_requests_witness :
  let m := bad_cancel in
  (exists g', @onMessage_NewOrderSingle _ _ _ fix42 open_session toy_codec "e" sample_gateway m = Ok g' /\
    ((exists c, @says_new_order fix42 m c /\
        @forwards _ _ _ _ toy_codec sample_gateway g' (CNewOrderSingle c)) \/
     ((forall c, ~ @says_new_order fix42 m c) /\
        @rejects _ _ fix42 open_session sample_gateway g' "alice" "EDUX"))) /\
  (exists g', @onMessage_OrderCancelRequest _ _ _ fix42 open_session toy_codec "e" sample_gateway m = Ok g' /\
    ((exists c, @says_cancel fix42 m c /\
        @forwards _ _ _ _ toy_codec sample_gateway g' (CCancelOrderRequest c)) \/
     ((forall c, ~ @says_cancel fix42 m c) /\
        @rejects _ _ fix42 open_session sample_gateway g' "alice" "EDUX"))).
Proof.
  apply (@gateway_requests _ _ _ _ _ fix42 fix42_laws open_session open_session_laws toy_codec
           "e" sample_gateway bad_cancel "alice" "EDUX"); [reflexivity|reflexivity|].
  split; intros c Hc; vm_compute in Hc; try discriminate Hc.
  injection Hc as <-. by exists bid.
Defined.
