(* ===== verification/FixClient.v ===== *)
(** * The client SDK

    [client_sdk/src/fix_client.cpp], [client_sdk/include/*.h]: [FixClient] sends
    orders and cancel requests over a FIX session and turns execution reports
    into [ExecutionReport] structures for the trader's callback.  The QuickFIX
    initiator is the list of its sessions and the interface [FixSession]; the
    time stamp of a message is an argument.  The theorems follow a request from
    the client through the gateway and a report from the gateway to the client. *)

From S2P Require Import Prelude Core Doubles Fix Messaging Concurrency Transport Gateway.
From Stdlib Require Import ZArith Lia Ascii String.
From stdpp Require Import base option list gmap strings fin_maps.

Open Scope Z_scope.

(** ** order.h, server_response.h *)
Inductive OrderSide := BUY | SELL.
Inductive ClientTimeInForce := GTC | IOC.
Inductive OrderStatus := NEW | FILLED | PARTIALLY_FILLED | CANCELED.

#[export] Instance OrderSide_eq_dec : EqDecision OrderSide.
Proof. solve_decision. Defined.
#[export] Instance ClientTimeInForce_eq_dec : EqDecision ClientTimeInForce.
Proof. solve_decision. Defined.

(** A field that is never assigned has no value: [None]. *)
Record ClientReport := mkClientReport {
  rp_order_id : string;
  rp_client_order_id : Z;
  rp_ticker : string;
  rp_side : OrderSide;
  rp_status : option OrderStatus;
  rp_filled_qty : double;
  rp_last_px : double;
  rp_cumulated_filled_qty : double;
  rp_avg_px : option double;
  rp_remaining_qty : double
}.

(** ** fix_client.h, fix_client.cpp *)
Record FixClient (F : Type) := mkFixClient {
  _is_connected : bool;
  _sessions : list (string * string);
  _session : F
}.
Arguments mkFixClient {F} _ _ _.
Arguments _is_connected {F} _.
Arguments _sessions {F} _.
Arguments _session {F} _.

Section Client.
Context {F : Type} `{FixLibrary} `{FixSession F}.
Implicit Types (fc : FixClient F).

Definition with_connected fc (b : bool) : FixClient F := mkFixClient b (_sessions fc) (_session fc).
Definition onLogon fc : FixClient F := with_connected fc true.
Definition onLogout fc : FixClient F := with_connected fc false.
Definition disconnect fc : FixClient F := with_connected fc false.
Definition is_connected fc : bool := _is_connected fc.

(** [connect] polls until the logon arrives or the time is over; each poll sees
    the flag and the clock. *)
Fixpoint connect (timeout start : Z) (polls : list (bool * Z)) : res unit :=
  match polls with
  | [] => Err OutOfFuel
  | (connected, now) :: polls' =>
      if connected then Ok tt
      else if timeout <? now - start then Err RuntimeError
      else connect timeout start polls'
  end.

Definition get_session_id fc : res (string * string) :=
  get_or RuntimeError (head (_sessions fc)).

Definition side_char (side : OrderSide) : ascii :=
  if decide (side = BUY) then Side_BUY else Side_SELL.

Definition create_new_order_fix_request (time ticker : string) (quantity : double)
    (side : OrderSide) (client_order_id : Z) : FixMessage :=
  set_field ClOrdID (to_string client_order_id)
    (set_field OrderQty (text_of_double quantity)
      (set_field TagSymbol ticker
        (set_field TransactTime time
          (set_field TagSide (text_of_char (side_char side)) (mkFix NewOrderSingle ∅))))).

Definition create_cancel_order_fix_request (time ticker : string) (side : OrderSide)
    (orig_client_order_id client_order_id : Z) : FixMessage :=
  set_field OrderQty (text_of_double (of_int 0))
    (mkFix OrderCancelRequest (list_to_map
      [(OrigClOrdID, to_string orig_client_order_id);
       (ClOrdID, to_string client_order_id);
       (TagSymbol, ticker);
       (TagSide, text_of_char (side_char side));
       (TransactTime, time)])).

(** [FIX::Session::sendToTarget] within [try]: a missing session or no session
    at all is an exception, and the call returns [false]. *)
Definition submit fc (m : FixMessage) : FixClient F * bool :=
  match get_session_id fc with
  | Err _ => (fc, false)
  | Ok (sender, target) =>
      let '(f, ok) := fs_send (_session fc) m sender target in
      (mkFixClient (_is_connected fc) (_sessions fc) f, ok)
  end.

Definition submit_market_order (time : string) fc (ticker : string) (quantity : double)
    (side : OrderSide) (client_order_id : Z) : FixClient F * bool :=
  if is_connected fc then
    let m := create_new_order_fix_request time ticker quantity side client_order_id in
    let m := set_field OrdType (text_of_char OrdType_MARKET) m in
    let m := set_field TagTimeInForce (text_of_char TimeInForce_GOOD_TILL_CANCEL) m in
    submit fc m
  else (fc, false).

Definition submit_limit_order (time : string) fc (ticker : string) (price quantity : double)
    (side : OrderSide) (time_in_force : ClientTimeInForce) (client_order_id : Z)
    : FixClient F * bool :=
  if is_connected fc then
    let m := create_new_order_fix_request time ticker quantity side client_order_id in
    if decide (time_in_force = GTC) then
      let m := set_field TagTimeInForce (text_of_char TimeInForce_GOOD_TILL_CANCEL) m in
      let m := set_field Price (text_of_double price) m in
      let m := set_field OrdType (text_of_char OrdType_LIMIT) m in
      submit fc m
    else (fc, false)
  else (fc, false).

Definition client_cancel_order (time : string) fc (ticker : string) (side : OrderSide)
    (orig_client_order_id client_order_id : Z) : FixClient F * bool :=
  if is_connected fc then
    submit fc (create_cancel_order_fix_request time ticker side orig_client_order_id client_order_id)
  else (fc, false).

(** ** Reports *)

(** A [switch]: from the matching label on, every assignment runs until a
    [break]; without a match the default only logs. *)
Fixpoint run_switch (cases : list (ascii * OrderStatus * bool)) (matched : bool) (c : ascii)
    (status : option OrderStatus) : option OrderStatus :=
  match cases with
  | [] => status
  | (label, value, has_break) :: cases' =>
      if (matched || bool_decide (label = c))%bool then
        if has_break then Some value else run_switch cases' true c (Some value)
      else run_switch cases' false c status
  end.

Definition report_status (order_status : ascii) : option OrderStatus :=
  run_switch [(OrdStatus_NEW, NEW, true);
              (OrdStatus_FILLED, FILLED, false);
              (OrdStatus_PARTIALLY_FILLED, PARTIALLY_FILLED, false);
              (OrdStatus_CANCELED, CANCELED, true)] false order_status None.

(** The report that [on_order_update] gets. *)
Definition onMessage_ExecutionReport (m : FixMessage) : res ClientReport :=
  let '(vars, r) := get_all m [OrderID; ClOrdID; TagExecType; OrdStatus; TagSymbol; TagSide;
                               OrderQty; LastPx; CumQty; LeavesQty; AvgPx] ∅ in
  _ ← r;
  client_order_id ← stoi (text vars ClOrdID);
  side ← char_value vars TagSide;
  order_qty ← double_value vars OrderQty;
  last_px ← double_value vars LastPx;
  cum_qty ← double_value vars CumQty;
  leaves_qty ← double_value vars LeavesQty;
  order_status ← char_value vars OrdStatus;
  Ok (mkClientReport (text vars OrderID) client_order_id (text vars TagSymbol)
        (if decide (side = Side_BUY) then BUY else SELL) (report_status order_status)
        order_qty last_px cum_qty None leaves_qty).

(** The arguments of [on_order_cancel_rejected]. *)
Definition onMessage_OrderCancelReject (m : FixMessage) : res (Z * string) :=
  let '(vars, r) := get_all m [ClOrdID; Text] ∅ in
  _ ← r;
  client_order_id ← stoi (text vars ClOrdID);
  Ok (client_order_id, text vars Text).
End Client.

(** ** From client to gateway *)

(** What the other side of a session receives: [sendToTarget] sets the header. *)
Definition delivered (x : FixMessage * string * string) : FixMessage :=
  let '(m, sender, target) := x in
  set_field SenderCompID sender (set_field TargetCompID target m).

Definition core_side (s : OrderSide) : Side := match s with BUY => bid | SELL => ask end.

Section Requests.
Context {L FC FG : Type} `{OutboundClientLaws L} `{FixLibraryLaws}.
Context `{FixSessionLaws FC} `{FixSessionLaws FG} `{ProtoCodec}.
Implicit Types (fc : FixClient FC) (g : Gateway L FG) (m : FixMessage).

(** The text of a number gives the number back. *)
Definition carried (d : double) : Prop := double_of_text (text_of_double d) = Some d.

(** The call sent one message when it returned [true], and the gateway forwards
    the container [c] when that message is delivered; otherwise it sent nothing. *)
Definition arrives (exec_id : string) fc g (call : FixClient FC * bool) (sender target : string)
    (handler : string -> Gateway L FG -> FixMessage -> res (Gateway L FG)) (c : Container) : Prop :=
  if call.2 then
    exists m g', fs_sent (_session call.1) = fs_sent (_session fc) ++ [(m, sender, target)] /\
      handler exec_id g (delivered (m, sender, target)) = Ok g' /\ forwards g g' c
  else fs_sent (_session call.1) = fs_sent (_session fc).

Lemma submit_arrives exec_id fc g m sender target rest handler c :
  _sessions fc = (sender, target) :: rest ->
  (exists g', handler exec_id g (delivered (m, sender, target)) = Ok g' /\ forwards g g' c) ->
  arrives exec_id fc g (submit fc m) sender target handler c.
Proof.
  intros Hs (g' & Hh & Hf). unfold arrives, submit, get_session_id. rewrite Hs. simpl.
  destruct (fs_send _ _ _ _) as [f ok] eqn:E. simpl. rewrite (fs_send_law _ _ _ _ _ _ E).
  destruct ok; [|done]. exists m, g'. done.
Qed.

Lemma says_forwarded exec_id g m c : supported m -> says_new_order m c ->
  exists g', onMessage_NewOrderSingle exec_id g m = Ok g' /\ forwards g g' (CNewOrderSingle c).
Proof.
  intros Hsu Hc. destruct (new_order_handled exec_id g m _ _ (sn_sender _ _ Hc) (sn_target _ _ Hc) Hsu)
    as (g' & Hg' & [(c' & Hc' & Hf)|[Hno _]]); [|by destruct (Hno c)].
  rewrite (says_new_order_unique m c c' Hc Hc'). eauto.
Qed.

Lemma says_cancel_forwarded exec_id g m c : supported m -> says_cancel m c ->
  exists g', onMessage_OrderCancelRequest exec_id g m = Ok g' /\ forwards g g' (CCancelOrderRequest c).
Proof.
  intros Hsu Hc. destruct (cancel_request_handled exec_id g m _ _ (sc_sender _ _ Hc) (sc_target _ _ Hc) Hsu)
    as (g' & Hg' & [(c' & Hc' & Hf)|[Hno _]]); [|by destruct (Hno c)].
  rewrite (says_cancel_unique m c c' Hc Hc'). eauto.
Qed.

(** A message that says a new order or a cancel request with the fields of this
    client is supported. *)
Lemma says_supported m c : says_new_order m c ->
  (field_double m Price = None \/ exists d z, field_double m Price = Some d /\ convert_to_internal_price d = Ok z) ->
  supported m.
Proof.
  intros [_ _ _ _ _ Hsd Hq Hty _ Htf] Hp. split; intros x Hx.
  - rewrite Hsd in Hx. simplify_eq. eauto.
  - rewrite Hty in Hx. simplify_eq. eauto.
  - rewrite Htf in Hx. simplify_eq. eauto.
  - destruct Hq as (d & Hd & Hz). rewrite Hd in Hx. simplify_eq. eauto.
  - destruct Hp as [Hp|(d & z & Hd & Hz)]; rewrite ?Hp, ?Hd in Hx; simplify_eq. eauto.
Qed.

Lemma side_char_fix side : side_char side = fix_of_side (core_side side).
Proof. by destruct side. Qed.

Lemma field_char_text m t c : fm_fields m !! t = Some (text_of_char c) -> field_char m t = Some c.
Proof. intros Hm. unfold field_char. rewrite Hm. simpl. apply char_of_text_of_char. Qed.
Lemma field_hundredths_text m t d z : fm_fields m !! t = Some (text_of_double d) -> carried d ->
  convert_to_internal_quantity d = Ok z -> field_hundredths m t z.
Proof. intros Hm Hd Hz. exists d. unfold field_double. by rewrite Hm. Qed.
Lemma field_int_text m t z : fm_fields m !! t = Some (to_string z) -> in_i32 z = true -> field_int m t z.
Proof. intros Hm Hz. exists (to_string z). split; [done|by apply stoi_to_string]. Qed.

Ltac client_field :=
  first [ done
        | by apply field_int_text; [reflexivity|]
        | by rewrite <- side_char_fix; apply field_char_text; reflexivity
        | by apply field_char_text; reflexivity
        | eapply field_hundredths_text; [reflexivity|eassumption..] ].

(** A limit order, from the trader to the order manager's connection. *)
Lemma limit_order_arrives time exec_id fc g sender target rest ticker side price qty id zp zq :
  is_connected fc = true -> _sessions fc = (sender, target) :: rest -> in_i32 id = true ->
  carried price -> convert_to_internal_price price = Ok zp ->
  carried qty -> convert_to_internal_quantity qty = Ok zq ->
  arrives exec_id fc g (submit_limit_order time fc ticker price qty side GTC id) sender target
    onMessage_NewOrderSingle (CNewOrderSingle (mkNewOrder sender target None id ticker
      (core_side side) zq limit (Some zp) gtc)).
Proof.
  intros Hc Hs Hid Hcp Hp Hcq Hq. unfold submit_limit_order. rewrite Hc. eapply submit_arrives; [exact Hs|].
  match goal with |- exists g', _ _ _ ?m = _ /\ forwards _ _ (CNewOrderSingle ?c) =>
    assert (says_new_order m c) as Hsays by (split; simpl; client_field) end.
  apply says_forwarded; [|done]. eapply says_supported; [done|]. right. exists price, zp.
  split; [|done]. unfold field_double. by rewrite <- Hcp.
Qed.

(** What a trader asks for is what the order manager receives.  A connected
    client that submits a limit order, a market order or a cancel request either
    gets [false] and nothing was sent, or its FIX message, delivered to the
    gateway over the first session, makes the gateway forward the container with
    the trader's ticker, side and client order ids, the session's names, the
    quantity and price in hundredths, and [gtc]: provided the texts of the numbers
    carry them and they fit [int]. *)
Theorem client_request_arrives time exec_id fc g sender target rest ticker side price qty id orig zp zq :
  is_connected fc = true -> _sessions fc = (sender, target) :: rest ->
  in_i32 id = true -> in_i32 orig = true ->
  carried price -> convert_to_internal_price price = Ok zp ->
  carried qty -> convert_to_internal_quantity qty = Ok zq -> carried (of_int 0) ->
  arrives exec_id fc g (submit_limit_order time fc ticker price qty side GTC id) sender target
    onMessage_NewOrderSingle (CNewOrderSingle (mkNewOrder sender target None id ticker
      (core_side side) zq limit (Some zp) gtc)) /\
  arrives exec_id fc g (submit_market_order time fc ticker qty side id) sender target
    onMessage_NewOrderSingle (CNewOrderSingle (mkNewOrder sender target None id ticker
      (core_side side) zq market None gtc)) /\
  arrives exec_id fc g (client_cancel_order time fc ticker side orig id) sender target
    onMessage_OrderCancelRequest (CCancelOrderRequest (mkCancelRequest sender target None orig id
      ticker (core_side side) 0)).
Proof.
  intros Hc Hs Hid Horig Hcp Hp Hcq Hq Hc0.
  assert (convert_to_internal_quantity (of_int 0) = Ok 0) as Hq0 by reflexivity.
  split; [by eapply limit_order_arrives|].
  unfold submit_market_order, client_cancel_order. rewrite Hc.
  split; eapply submit_arrives; try exact Hs.
  - match goal with |- exists g', _ _ _ ?m = _ /\ forwards _ _ (CNewOrderSingle ?c) =>
      assert (says_new_order m c) as Hsays by (split; simpl; client_field) end.
    apply says_forwarded; [|done]. eapply says_supported; [done|]. by left.
  - match goal with |- exists g', _ _ _ ?m = _ /\ forwards _ _ (CCancelOrderRequest ?c) =>
      assert (says_cancel m c) as Hsays by (split; simpl; client_field) end.
    apply says_cancel_forwarded; [|done].
    destruct Hsays as [_ _ _ _ _ _ Hsd Hqz]. split; intros x Hx; try discriminate Hx.
    + rewrite Hsd in Hx. simplify_eq. eauto.
    + destruct Hqz as (d & Hd & Hz). rewrite Hd in Hx. simplify_eq. eauto.
Qed.
End Requests.

(** ** From gateway to client *)

(** The status that the trader sees for a status of the order manager. *)
Definition client_status (s : ExecTypeOrOrderStatus) : option OrderStatus :=
  match s with
  | status_new | status_pending_cancel => Some NEW
  | status_partially_filled | status_filled | status_canceled => Some CANCELED
  | status_rejected => None
  end.

Section Reports.
Context {L F : Type} `{OutboundClientLaws L} `{FixLibraryLaws} `{FixSessionLaws F} `{ProtoCodecLaws}.
Implicit Types (g : Gateway L F) (r : ExecutionReportContainer).

Lemma report_status_char s : report_status (ord_status_char s) = client_status s.
Proof.
  pose proof ord_status_values as Hnd. rewrite !NoDup_cons in Hnd. set_unfold in Hnd.
  unfold report_status. destruct s; simpl; repeat (case_bool_decide; simpl); try done; exfalso; naive_solver.
Qed.

(** The numbers of a report, as doubles, survive the text of FIX. *)
Definition report_carried r : Prop :=
  carried (to_decimal (er_leaves_qty r)) /\ carried (to_decimal (er_cum_qty r)) /\
  carried (to_decimal (er_leaves_qty r + er_cum_qty r)) /\ carried (of_int 0).

Definition seen_by_client r : ClientReport :=
  mkClientReport (to_string (er_order_id r)) (er_cl_order_id r) (er_symbol r)
    (match er_side r with bid => BUY | ask => SELL end) (client_status (er_ord_status r))
    (to_decimal (er_leaves_qty r + er_cum_qty r)) (of_int 0) (to_decimal (er_cum_qty r)) None
    (to_decimal (er_leaves_qty r)).

(** Optional fields other than those that the client reads do not matter. *)
Lemma lookup_set_optional {A} t t' (f : A -> string) o m : t <> t' ->
  fm_fields (set_optional t f o m) !! t' = fm_fields m !! t'.
Proof. intros Ht. destruct o; simpl; [|done]. by rewrite lookup_insert_ne. Qed.

Lemma get_all_present m tags : Forall (fun t => is_Some (fm_fields m !! t)) tags ->
  exists vars, get_all m tags ∅ = (vars, Ok tt) /\ vars ⊆ fm_fields m /\
    Forall (fun t => is_Some (vars !! t)) tags.
Proof.
  intros Hall. destruct (get_all_reading m tags ∅ (map_empty_subseteq _)) as [[Hsub Hr] _].
  destruct (get_all m tags ∅) as [vars [[]|e]]; simpl in *; [by eauto|].
  destruct Hr as (_ & t & Ht & Hnone). rewrite Forall_forall in Hall.
  destruct (Hall t Ht) as [? ?]. congruence.
Qed.

(** What the client finds in a field of a delivered report. *)
Lemma report_text r m sender target vars t v :
  fix_report r = Ok m -> vars ⊆ fm_fields (delivered (m, sender, target)) -> is_Some (vars !! t) ->
  t ∉ [SenderCompID; TargetCompID; Text; Price; OrigClOrdID] ->
  report_fields r (er_leaves_qty r + er_cum_qty r) !! t = Some v -> text vars t = v.
Proof.
  intros Hm Hsub Ht Hnot Hv. pose proof (text_read _ vars t Hsub Ht) as Htext.
  rewrite !not_elem_of_cons in Hnot. unfold fix_report in Hm. ok_inv. int_inv.
  unfold delivered, set_field in Htext. cbn [fm_fields] in Htext.
  rewrite !lookup_insert_ne, !lookup_set_optional in Htext by naive_solver.
  cbn [fm_fields] in Htext. congruence.
Qed.

Lemma fix_report_read r m sender target :
  in_i32 (er_cl_order_id r) = true -> report_carried r -> fix_report r = Ok m ->
  onMessage_ExecutionReport (delivered (m, sender, target)) = Ok (seen_by_client r).
Proof.
  intros Hid (Hl & Hc & Hlc & Hz) Hm. unfold onMessage_ExecutionReport.
  destruct (get_all_present (delivered (m, sender, target)) [OrderID; ClOrdID; TagExecType; OrdStatus;
    TagSymbol; TagSide; OrderQty; LastPx; CumQty; LeavesQty; AvgPx]) as (vars & -> & Hsub & Hall).
  { unfold fix_report in Hm. ok_inv. unfold delivered, set_field. cbn [fm_fields].
    rewrite !Forall_cons.
    split_and!; try done; rewrite !lookup_insert_ne, !lookup_set_optional by done; by eexists. }
  rewrite !Forall_cons in Hall. destruct_and! Hall.
  assert (forall t v, is_Some (vars !! t) -> t ∉ [SenderCompID; TargetCompID; Text; Price; OrigClOrdID] ->
    report_fields r (er_leaves_qty r + er_cum_qty r) !! t = Some v -> text vars t = v) as Htext
    by eauto using report_text.
  unfold char_value, double_value. simpl.
  rewrite (Htext ClOrdID (to_string (er_cl_order_id r))) by (done || set_solver).
  rewrite stoi_to_string by done. simpl.
  rewrite (Htext TagSide (text_of_char (fix_of_side (er_side r)))) by (done || set_solver).
  rewrite char_of_text_of_char. simpl.
  rewrite (Htext OrderQty _) by (done || set_solver). rewrite Hlc. simpl.
  rewrite (Htext LastPx _) by (done || set_solver). rewrite Hz. simpl.
  rewrite (Htext CumQty _) by (done || set_solver). rewrite Hc. simpl.
  rewrite (Htext LeavesQty _) by (done || set_solver). rewrite Hl. simpl.
  rewrite (Htext OrdStatus (text_of_char (ord_status_char (er_ord_status r)))) by (done || set_solver).
  rewrite char_of_text_of_char. simpl.
  rewrite (Htext OrderID (to_string (er_order_id r))), (Htext TagSymbol (er_symbol r)), report_status_char by (done || set_solver).
  unfold seen_by_client. do 2 f_equal. pose proof side_values. by destruct (er_side r); case_decide.
Qed.

Lemma wire_report_id r : wire_ok (to_proto (CExecutionReport r)) = true ->
  in_i32 (er_cl_order_id r) = true.
Proof. unfold wire_ok. simpl. intros [H' _]%andb_true_iff. by repeat (apply andb_true_iff in H' as [? H']). Qed.

(** What the trader sees of an execution report.  The oldest report of the
    order manager is taken from the gateway's queue and sent, from the report's
    sender to its target, as one FIX message (if the session is there), from
    which the client makes a report with the order's id, the client order id,
    ticker and side, the cumulated and remaining quantities, the whole order
    quantity as the filled one and 0 as the last price.  Its status is right for
    a new and for a cancelled order only: the missing breaks make a partial or
    complete fill [CANCELED], a pending cancel is [NEW], a rejection leaves the
    status unassigned, and the average price is never assigned. *)
Theorem report_reaches_client g r rest :
  queued_on (gw_client g) 0 = serialize_container (CExecutionReport r) :: rest ->
  wire_ok (to_proto (CExecutionReport r)) = true ->
  in_i32 (er_leaves_qty r + er_cum_qty r) = true -> report_carried r ->
  exists g' m (ok : bool), process_report g = Ok g' /\
    queued_on (gw_client g') 0 = rest /\
    fs_sent (gw_session g') = fs_sent (gw_session g) ++
      (if ok then [(m, er_sender_comp_id r, er_target_comp_id r)] else []) /\
    onMessage_ExecutionReport (delivered (m, er_sender_comp_id r, er_target_comp_id r))
      = Ok (seen_by_client r) /\
    (er_ord_status r = status_filled -> rp_status (seen_by_client r) = Some CANCELED).
Proof.
  intros Hq Hwire Hsum Hcar. unfold process_report.
  destruct (oc_dequeue_message (gw_client g) 0) as [l o] eqn:E.
  destruct (oc_dequeue_law _ _ _ _ E) as (-> & _ & Hq'). rewrite Hq. simpl.
  rewrite deserialize_serialize by done. cbn [received].
  match goal with |- context [fix_report ?r] => set (r' := r) end.
  assert (exists m, fix_report r' = Ok m) as [m Hm].
  { unfold fix_report. unfold add32, i32. simpl. rewrite Hsum. simpl. eauto. }
  rewrite Hm. simpl. unfold send_report. simpl. destruct (fs_send _ _ _ _) as [f ok] eqn:Ef.
  eexists _, m, ok. split; [done|]. simpl. split; [by rewrite Hq', Hq|].
  split; [rewrite (fs_send_law _ _ _ _ _ _ Ef); by destruct ok; rewrite ?app_nil_r|].
  split; [|by intros ->]. apply (fix_report_read r'); [by apply wire_report_id in Hwire|done|done].
Qed.
End Reports.

(** ** A session *)
#[local] Existing Instances fix42 fix42_laws open_session open_session_laws toy_codec toy_codec_laws.

Definition sample_client : FixClient (list (FixMessage * string * string)) :=
  mkFixClient true [("alice"%string, "EDUX"%string)] [].

(** Ten shares at 12.50. *)
Lemma client_request_arrives_witness :
  arrives "e" sample_client sample_gateway
    (submit_limit_order "t" sample_client "GME" (to_decimal 1250) (of_int 10) BUY GTC 7)
    "alice" "EDUX" onMessage_NewOrderSingle
    (CNewOrderSingle (mkNewOrder "alice" "EDUX" None 7 "GME" bid 1000 limit (Some 1250) gtc)) /\
  arrives "e" sample_client sample_gateway
    (submit_market_order "t" sample_client "GME" (of_int 10) BUY 7)
    "alice" "EDUX" onMessage_NewOrderSingle
    (CNewOrderSingle (mkNewOrder "alice" "EDUX" None 7 "GME" bid 1000 market None gtc)) /\
  arrives "e" sample_client sample_gateway (client_cancel_order "t" sample_client "GME" BUY 6 7)
    "alice" "EDUX" onMessage_OrderCancelRequest
    (CCancelOrderRequest (mkCancelRequest "alice" "EDUX" None 6 7 "GME" bid 0)).
Proof.
  apply (client_request_arrives "t" "e" sample_client sample_gateway "alice" "EDUX" [] "GME" BUY
           (to_decimal 1250) (of_int 10) 7 6 1250 1000); reflexivity.
Defined.

Definition filled_report : ExecutionReportContainer :=
  mkExecutionReport "EDUX" "alice" 1007 7 None "e1" exec_trans_new status_filled status_filled
    (Some ""%string) "GME" bid (Some 1250) gtc 0 1000 1250.

Definition gateway_with_report : Gateway (WebsocketManager unit) (list (FixMessage * string * string)) :=
  mkGateway (client_on_message sample_link 0 (serialize_container (CExecutionReport filled_report))) 0 [].

Lemma report_reaches_client_witness :
  exists g' m (ok : bool), process_report gateway_with_report = Ok g' /\
    queued_on (gw_client g') 0 = [] /\
    fs_sent (gw_session g') = fs_sent (gw_session gateway_with_report) ++
      (if ok then [(m, "EDUX", "alice")] else [])%string /\
    onMessage_ExecutionReport (delivered (m, "EDUX", "alice")%string) = Ok (seen_by_client filled_report) /\
    (er_ord_status filled_report = status_filled ->
     rp_status (seen_by_client filled_report) = Some CANCELED).
Proof.
  apply (report_reaches_client gateway_with_report filled_report []);
    [reflexivity|reflexivity|reflexivity|].
  split_and!; reflexivity.
Defined.
