(* ===== verification/MarketData.v ===== *)
(** * The market data feed

    [services/market_data_processor/src/market_data_processor.cpp]: the processor
    pops order book snapshots and trades from the ring buffers that the matching
    engine fills and sends them as JSON text to every websocket client; and the
    JSON conversions of [libs/core/trade.h] and [libs/core/orderbook_snapshot.h].
    nlohmann::json is the interface [JsonLibrary]. *)

From S2P Require Import Prelude Core Doubles Concurrency Transport LimitOrderBook RingBuffer.
From Stdlib Require Import ZArith Lia Ascii String.
From stdpp Require Import base option list gmap strings fin_maps.

Open Scope Z_scope.

(** ** nlohmann::json: code outside the repository *)
Class JsonLibrary := {
  json : Type;
  j_object : list (string * json) -> json;
  j_array : list json -> json;
  j_string : string -> json;
  j_double : double -> json;
  j_int : Z -> json;
  j_uint : Z -> json;
  j_at : json -> string -> res json;
  get_string : json -> res string;
  get_double : json -> res double;
  get_int : json -> res Z;
  dump : json -> string
}.

(** [static_cast<int>] of a 64-bit pattern. *)
Definition wrap32 (z : Z) : Z :=
  let m := z mod 2 ^ 32 in if m <? 2 ^ 31 then m else m - 2 ^ 32.

(** An object returns its members; a value is read back at its own type, and
    [get<int>] of an unsigned number casts. *)
Class JsonLibraryLaws `{JsonLibrary} : Prop := {
  j_at_object l k v : (list_to_map l : gmap string json) !! k = Some v -> j_at (j_object l) k = Ok v;
  get_string_string s : get_string (j_string s) = Ok s;
  get_double_double d : get_double (j_double d) = Ok d;
  get_int_int z : in_i32 z = true -> get_int (j_int z) = Ok z;
  get_int_uint z : get_int (j_uint z) = Ok (wrap32 z)
}.

Definition BUY_STR : string := "BUY".
Definition SELL_STR : string := "SELL".
Definition ORDERBOOK_SNAPSHOT_SHM_FILE : string := "os".
Definition TRADE_SHM_FILE : string := "td".

Section Json.
Context `{JsonLibrary}.

(** ** trade.h *)
Definition trade_to_json (t : Trade) : res json :=
  ticker ← read_cstr (tr_ticker t);
  trade_id ← read_cstr (tr_trade_id t);
  taker_id ← read_cstr (tr_taker_id t);
  maker_id ← read_cstr (tr_maker_id t);
  let side_str := if tr_is_taker_buyer t then BUY_STR else SELL_STR in
  Ok (j_object
    [("ticker", j_string ticker);
     ("trade_id", j_string trade_id);
     ("taker_side", j_string side_str);
     ("price", j_double (to_decimal (tr_price t)));
     ("quantity", j_double (to_decimal (tr_quantity t)));
     ("taker_id", j_string taker_id);
     ("maker_id", j_string maker_id);
     ("taker_order_id", j_int (tr_taker_order_id t));
     ("maker_order_id", j_int (tr_maker_order_id t));
     ("create_timestamp", j_uint (tr_create_timestamp t))])%string.

(** [compare] returns 0 for equal strings, and 0 converts to [false]. *)
Definition compare_nonzero (a b : string) : bool := negb (String.eqb a b).

Definition trade_from_json (j : json) : res Trade :=
  ticker_str ← (j_at j "ticker" ≫= get_string);
  taker_side ← (j_at j "taker_side" ≫= get_string);
  let is_taker_buy := compare_nonzero taker_side BUY_STR in
  price_d ← (j_at j "price" ≫= get_double);
  price ← to_i32 (dmul price_d decimal_to_int_multiplier);
  quantity_d ← (j_at j "quantity" ≫= get_double);
  quantity ← to_i32 (dmul quantity_d decimal_to_int_multiplier);
  trade_id ← (j_at j "trade_id" ≫= get_string);
  taker_id ← (j_at j "taker_id" ≫= get_string);
  maker_id ← (j_at j "maker_id" ≫= get_string);
  taker_order_id ← (j_at j "taker_order_id" ≫= get_int);
  maker_order_id ← (j_at j "maker_order_id" ≫= get_int);
  create_timestamp ← (j_at j "create_timestamp" ≫= get_int);
  Trade_ctor ticker_str price quantity trade_id taker_id maker_id taker_order_id maker_order_id
    is_taker_buy (u64 create_timestamp).

(** ** orderbook_snapshot.h *)
Definition level_to_json (l : LevelAggregate) : json :=
  j_object [("price", j_double (to_decimal (la_price l)));
            ("quantity", j_double (to_decimal (la_quantity l)))]%string.

Definition snapshot_to_json (s : TopOrderBookLevelAggregates) : res json :=
  ticker ← read_cstr (top_ticker s);
  Ok (j_object
    [("ticker", j_string ticker);
     ("bids", j_array (map level_to_json (top_bids s)));
     ("asks", j_array (map level_to_json (top_asks s)));
     ("create_timestamp", j_uint (top_create_timestamp s))])%string.
End Json.

(** ** The processor *)
Record MarketDataProcessor (E : Type) := mkMdp {
  orderbook_snapshot_ring_buffers : list (MpscRingBuffer TopOrderBookLevelAggregates);
  trade_ring_buffers : list (MpscRingBuffer Trade);
  websocket_server : WebsocketManager E
}.
Arguments mkMdp {E} _ _ _.
Arguments orderbook_snapshot_ring_buffers {E} _.
Arguments trade_ring_buffers {E} _.
Arguments websocket_server {E} _.

Section Processor.
Context {E : Type} {ep : Endpoint E} `{JsonLibrary}.
Implicit Types (w : WebsocketManager E).

(** [snapshot_shm] and [trade_shm] map the shared memory of a name. *)
Definition ring_name (symbol shm_file server_name : string) : string :=
  (symbol ++ "_" ++ shm_file ++ "_" ++ server_name)%string.

Definition new_mdp (snapshot_shm : string -> MpscRingBuffer TopOrderBookLevelAggregates)
    (trade_shm : string -> MpscRingBuffer Trade) (server_name : string) (server : WebsocketManager E)
    (active_symbols : list string) : MarketDataProcessor E :=
  mkMdp
    (map (fun symbol => attach OrderbookSnapshotRingBufferCapacity
            (snapshot_shm (ring_name symbol ORDERBOOK_SNAPSHOT_SHM_FILE server_name))) active_symbols)
    (map (fun symbol => attach TradeRingBufferCapacity
            (trade_shm (ring_name symbol TRADE_SHM_FILE server_name))) active_symbols)
    server.

(** The body of either loop: at most one message per buffer and turn.  The ids
    that failed are only logged. *)
Definition publish_ring {T} (capacity : Z) (to_json : T -> res json) w (r : MpscRingBuffer T)
    : res (WebsocketManager E * MpscRingBuffer T) :=
  '(r', o) ← try_pop capacity r;
  match o with
  | None => Ok (w, r')
  | Some v =>
      j ← to_json v;
      let '(w', failed_ids) := send_to_all w (dump j) fmt_text in
      Ok (w', r')
  end.

Fixpoint publish_rings {T} (capacity : Z) (to_json : T -> res json) w (rs : list (MpscRingBuffer T))
    : res (WebsocketManager E * list (MpscRingBuffer T)) :=
  match rs with
  | [] => Ok (w, [])
  | r :: rs' =>
      '(w1, r') ← publish_ring capacity to_json w r;
      '(w2, rs'') ← publish_rings capacity to_json w1 rs';
      Ok (w2, r' :: rs'')
  end.

(** One turn of the loop of [start]. *)
Definition mdp_iteration (mdp : MarketDataProcessor E) : res (MarketDataProcessor E) :=
  '(w, snapshots) ← publish_rings OrderbookSnapshotRingBufferCapacity snapshot_to_json
                      (websocket_server mdp) (orderbook_snapshot_ring_buffers mdp);
  '(w, trades) ← publish_rings TradeRingBufferCapacity trade_to_json w (trade_ring_buffers mdp);
  Ok (mkMdp snapshots trades w).

(** [start] until the loop. *)
Definition mdp_start (mdp : MarketDataProcessor E) : res (MarketDataProcessor E) :=
  let '(w, ok) := server_start (websocket_server mdp) in
  _ ← check RuntimeError ok;
  Ok (mkMdp (orderbook_snapshot_ring_buffers mdp) (trade_ring_buffers mdp) w).
End Processor.

(** ** JSON trades read back *)
Section Trade_json.
Context `{JsonLibraryLaws}.

(** Reading a member of a fresh object. *)
Lemma at_string l k s : (list_to_map l : gmap string json) !! k = Some (j_string s) ->
  (j_at (j_object l) k ≫= get_string) = Ok s.
Proof. intros Hl. rewrite (j_at_object _ _ _ Hl). apply get_string_string. Qed.
Lemma at_double l k d : (list_to_map l : gmap string json) !! k = Some (j_double d) ->
  (j_at (j_object l) k ≫= get_double) = Ok d.
Proof. intros Hl. rewrite (j_at_object _ _ _ Hl). apply get_double_double. Qed.
Lemma at_int l k z : (list_to_map l : gmap string json) !! k = Some (j_int z) -> in_i32 z = true ->
  (j_at (j_object l) k ≫= get_int) = Ok z.
Proof. intros Hl Hz. rewrite (j_at_object _ _ _ Hl). by apply get_int_int. Qed.
Lemma at_uint l k z : (list_to_map l : gmap string json) !! k = Some (j_uint z) ->
  (j_at (j_object l) k ≫= get_int) = Ok (wrap32 z).
Proof. intros Hl. rewrite (j_at_object _ _ _ Hl). apply get_int_uint. Qed.

Lemma to_i32_decimal p : 0 <= p <= INT_MAX ->
  exists p', to_i32 (dmul (to_decimal p) decimal_to_int_multiplier) = Ok p' /\ p - 1 <= p' <= p.
Proof.
  intros Hp. destruct (Z.eq_dec p 0) as [->|]; [exists 0; split; [reflexivity|lia]|].
  destruct (price_roundtrip p ltac:(lia)) as [Hq|Hq]; [exists p|exists (p - 1)];
    (split; [exact Hq|lia]).
Qed.

Lemma compare_side (b : bool) : compare_nonzero (if b then BUY_STR else SELL_STR) BUY_STR = negb b.
Proof. by destruct b. Qed.

(** A trade that goes through JSON comes back with the other side as the
    taker.  [from_json] of [to_json] keeps the ticker, the ids and the names, and
    the price and quantity up to one hundredth; but it takes the result of
    [compare] for equality, so a buying taker becomes a selling one and the other
    way round, and it cuts the timestamp to 32 bits. *)
Theorem trade_json_flips_side ticker price quantity trade_id taker maker toid moid buyer ts t :
  fits MAX_TICKER_LENGTH ticker = true -> fits UUID_LENGTH trade_id = true ->
  fits MAX_USERNAME_LENGTH taker = true -> fits MAX_USERNAME_LENGTH maker = true ->
  0 <= price <= INT_MAX -> 0 <= quantity <= INT_MAX -> in_i32 toid = true -> in_i32 moid = true ->
  Trade_ctor ticker price quantity trade_id taker maker toid moid buyer ts = Ok t ->
  exists p q t', price - 1 <= p <= price /\ quantity - 1 <= q <= quantity /\
    (trade_to_json t ≫= trade_from_json) = Ok t' /\
    Trade_ctor ticker p q trade_id taker maker toid moid (negb buyer) (u64 (wrap32 ts)) = Ok t'.
Proof.
  intros Ht Hi Htk Hmk Hp Hq Hto Hmo Hctor.
  destruct (copy_field_fits _ _ Ht) as (a1 & C1 & R1). destruct (copy_field_fits _ _ Hi) as (a2 & C2 & R2).
  destruct (copy_field_fits _ _ Htk) as (a3 & C3 & R3). destruct (copy_field_fits _ _ Hmk) as (a4 & C4 & R4).
  unfold Trade_ctor in Hctor. rewrite C1, C2, C3, C4 in Hctor. simpl in Hctor. ok_inv.
  destruct (to_i32_decimal price Hp) as (p & Ep & Bp). destruct (to_i32_decimal quantity Hq) as (q & Eq & Bq).
  exists p, q. eexists. split; [done|]. split; [done|].
  unfold trade_to_json. simpl. rewrite R1, R2, R3, R4. simpl. unfold trade_from_json.
  rewrite (at_string _ "ticker" ticker), (at_string _ "taker_side" (if buyer then BUY_STR else SELL_STR)),
    (at_double _ "price" (to_decimal price)), (at_double _ "quantity" (to_decimal quantity)),
    (at_string _ "trade_id" trade_id), (at_string _ "taker_id" taker), (at_string _ "maker_id" maker),
    (at_int _ "taker_order_id" toid), (at_int _ "maker_order_id" moid),
    (at_uint _ "create_timestamp" ts) by (done || reflexivity).
  simpl. rewrite Ep, Eq. simpl.
  rewrite compare_side. unfold Trade_ctor. rewrite C1, C2, C3, C4. simpl. split; reflexivity.
Qed.
End Trade_json.

(** ** What the clients receive *)
Section Relay.
Context {E : Type} {ep : Endpoint E} `{JsonLibrary}.
Implicit Types (w : WebsocketManager E).

(** Every connection got some of [outs] in order, the others' queues are as they
    were; with [reliable] every connection got all of them. *)
Definition reliable : Prop := forall (e : E) h m fmt, (ep_send e h m fmt).2 = true.

Definition relayed w w' (outs : list string) : Prop :=
  dom (m_id_to_connection_map w') = dom (m_id_to_connection_map w) /\
  (forall id, queued_on w' id = queued_on w id) /\
  forall id, exists got, got `sublist_of` outs /\ sent_on w' id = sent_on w id ++ got /\
    (reliable -> is_Some (m_id_to_connection_map w !! id) -> got = outs).

Lemma relayed_nil w : relayed w w [].
Proof. split_and!; [done..|]. intros id. exists []. by rewrite app_nil_r. Qed.

Lemma relayed_trans w w1 w2 o1 o2 : relayed w w1 o1 -> relayed w1 w2 o2 -> relayed w w2 (o1 ++ o2).
Proof.
  intros (Hd1 & Hq1 & Hs1) (Hd2 & Hq2 & Hs2). split_and!; [congruence|intros id; by rewrite Hq2|].
  intros id. destruct (Hs1 id) as (g1 & Hg1 & E1 & R1). destruct (Hs2 id) as (g2 & Hg2 & E2 & R2).
  exists (g1 ++ g2). split; [by apply sublist_app|]. split; [by rewrite E2, E1, app_assoc|].
  intros Hrel Hid. rewrite R1, R2; [done|done| |done|done].
  apply elem_of_dom. rewrite Hd1. by apply elem_of_dom.
Qed.

(** One send, to a connection of the list or not. *)
Lemma send_one w id m fmt w' ok : send w id m fmt = (w', ok) ->
  dom (m_id_to_connection_map w') = dom (m_id_to_connection_map w) /\
  (forall i, queued_on w' i = queued_on w i) /\
  (forall i, sent_on w' i = sent_on w i ++ (if ok && (i =? id) then [m] else [])) /\
  (reliable -> is_Some (m_id_to_connection_map w !! id) -> ok = true).
Proof.
  intros Hs. destruct (websocket_send_law _ _ _ _ _ _ Hs) as [Hq Hsent]. split_and!.
  - unfold send in Hs. destruct (m_id_to_connection_map w !! id) as [md|] eqn:Eid; [|by simplify_eq].
    destruct (ep_send _ _ _ _) as [e []]; simplify_eq/=; [|done].
    apply dom_insert_lookup_L. by eexists.
  - done.
  - intros i. rewrite Hsent. destruct (ok && (i =? id)); by rewrite ?app_nil_r.
  - intros Hrel [md Hid]. unfold send in Hs. rewrite Hid in Hs.
    pose proof (Hrel (m_endpoint w) (m_handle md) m fmt) as Hok.
    destruct (ep_send _ _ _ _) as [e []]; by simplify_eq/=.
Qed.

Abbreviation send_each m fmt := (fun '(w, failed_ids) (kv : Z * ConnectionMetadata) =>
  let '(w', ok) := send w kv.1 m fmt in (w', if ok then failed_ids else failed_ids ++ [kv.1])).

Lemma send_each_spec m fmt l w failed w' failed' :
  NoDup l.*1 -> foldl (send_each m fmt) (w, failed) l = (w', failed') ->
  dom (m_id_to_connection_map w') = dom (m_id_to_connection_map w) /\
  (forall i, queued_on w' i = queued_on w i) /\
  forall i, exists ok : bool, sent_on w' i = sent_on w i ++ (if ok then [m] else []) /\
    (reliable -> is_Some (m_id_to_connection_map w !! i) -> i ∈ l.*1 -> ok = true) /\
    (i ∉ l.*1 -> ok = false).
Proof.
  revert w failed; induction l as [|[k md] l IH]; intros w failed Hnd; cbn [foldl fst].
  { intros [= <- <-]. split_and!; [done..|]. intros i. exists false. rewrite app_nil_r. set_solver. }
  rewrite fmap_cons, NoDup_cons in Hnd. destruct Hnd as [Hk Hnd]. simpl in Hk.
  destruct (send w k m fmt) as [w1 ok1] eqn:Es. intros Hrest.
  destruct (send_one _ _ _ _ _ _ Es) as (Hd1 & Hq1 & Hs1 & Hr1).
  destruct (IH _ _ Hnd Hrest) as (Hd & Hq & Hs). split_and!; [congruence|intros i; by rewrite Hq|].
  intros i. destruct (Hs i) as (ok & Hok & Hrel & Hnot). rewrite Hok, Hs1.
  destruct (Z.eqb_spec i k) as [->|Hne].
  - rewrite (Hnot Hk), app_nil_r, andb_true_r. exists ok1. split_and!; [done|auto|set_solver].
  - rewrite andb_false_r, app_nil_r. exists ok. split_and!; [done| |set_solver].
    intros Hr Hi Hin. apply Hrel; [done| |set_solver]. apply elem_of_dom. rewrite Hd1. by apply elem_of_dom.
Qed.

Lemma send_to_all_relayed w m w' failed : send_to_all w m fmt_text = (w', failed) -> relayed w w' [m].
Proof.
  intros Hall. destruct (send_each_spec _ _ _ _ _ _ _ (NoDup_fst_map_to_list _) Hall) as (Hd & Hq & Hs).
  split_and!; [done..|]. intros id. destruct (Hs id) as (ok & Hok & Hrel & Hnot).
  exists (if ok then [m] else []). split; [destruct ok; [done|apply sublist_nil_l]|]. split; [done|].
  intros Hr [md Hid]. rewrite Hrel; [done|done|by eexists|].
  apply list_elem_of_fmap. exists (id, md). split; [done|by apply elem_of_map_to_list].
Qed.

(** The buffers hold these queues. *)
Definition holds {T} (rs : list (MpscRingBuffer T)) (queues : list (list T)) : Prop :=
  Forall2 (fun r l => ring_rep 10 r l /\ far_from_wrap r) rs queues.

(** The messages that one turn takes: the oldest of each queue that has one. *)
Definition oldest {T} (queues : list (list T)) : list T := omap head queues.

Lemma publish_ring_ok {T} (to_json : T -> res json) w r l :
  ring_rep 10 r l -> far_from_wrap r -> (forall v, head l = Some v -> exists j, to_json v = Ok j) ->
  exists w' r' js, publish_ring 1024 to_json w r = Ok (w', r') /\
    ring_rep 10 r' (tail l) /\ far_from_wrap r' /\
    Forall2 (fun v j => to_json v = Ok j) (option_list (head l)) js /\ relayed w w' (map dump js).
Proof.
  intros Hrep Hfar Hjson. change 1024 with (2 ^ 10). unfold publish_ring. destruct l as [|v l].
  - rewrite (try_pop_empty 10 ltac:(lia) r Hrep Hfar). simpl. exists w, r, [].
    split_and!; [done..|constructor|apply relayed_nil].
  - destruct (try_pop_first 10 ltac:(lia) r v l Hrep Hfar) as (r' & -> & Hrep' & Hhead). cbn [mbind res_bind].
    destruct (Hjson v eq_refl) as [j Hj]. rewrite Hj. cbn [mbind res_bind].
    destruct (send_to_all w (dump j) fmt_text) as [w' failed] eqn:Es.
    exists w', r', [j]. split_and!; [done|done| |by repeat constructor|by eapply send_to_all_relayed].
    unfold far_from_wrap in *. by rewrite Hhead.
Qed.

Lemma publish_rings_ok {T} (to_json : T -> res json) w rs queues :
  holds rs queues -> Forall (fun v => exists j, to_json v = Ok j) (oldest queues) ->
  exists w' rs' js, publish_rings 1024 to_json w rs = Ok (w', rs') /\ holds rs' (map tail queues) /\
    Forall2 (fun v j => to_json v = Ok j) (oldest queues) js /\ relayed w w' (map dump js).
Proof.
  intros Hrs. revert w. induction Hrs as [|r l rs ls [Hrep Hfar] Hrs IH]; intros w Hjson.
  { exists w, [], []. split_and!; [done|constructor|constructor|apply relayed_nil]. }
  assert (oldest (l :: ls) = option_list (head l) ++ oldest ls) as Hold
    by (unfold oldest; simpl; by destruct (head l)).
  rewrite Hold, Forall_app in Hjson. destruct Hjson as [Hj Hjs].
  destruct (publish_ring_ok to_json w r l Hrep Hfar) as (w1 & r' & js1 & H1 & Hr' & Hf' & HF1 & R1).
  { intros v Hv. rewrite Hv in Hj. by inversion Hj. }
  destruct (IH w1 Hjs) as (w2 & rs' & js2 & H2 & Hrs' & HF2 & R2).
  exists w2, (r' :: rs'), (js1 ++ js2). cbn [publish_rings]. rewrite H1. cbn [mbind res_bind].
  rewrite H2. split_and!; [done|by constructor|rewrite Hold; by apply Forall2_app|].
  rewrite map_app. by eapply relayed_trans.
Qed.

(** The market data processor relays without loss or reordering.  One turn
    of its loop takes the oldest snapshot of every snapshot buffer and then the
    oldest trade of every trade buffer, leaves the rest of the buffers as they
    were, and sends the JSON texts in that order to every client.  A client whose
    connection refuses some of them still gets the others in order, and with
    connections that accept everything each gets exactly the whole list. *)
Theorem mdp_relays mdp snapshots trades :
  holds (orderbook_snapshot_ring_buffers mdp) snapshots -> holds (trade_ring_buffers mdp) trades ->
  Forall (fun v => exists j, snapshot_to_json v = Ok j) (oldest snapshots) ->
  Forall (fun v => exists j, trade_to_json v = Ok j) (oldest trades) ->
  exists mdp' sjs tjs, mdp_iteration mdp = Ok mdp' /\
    holds (orderbook_snapshot_ring_buffers mdp') (map tail snapshots) /\
    holds (trade_ring_buffers mdp') (map tail trades) /\
    Forall2 (fun v j => snapshot_to_json v = Ok j) (oldest snapshots) sjs /\
    Forall2 (fun v j => trade_to_json v = Ok j) (oldest trades) tjs /\
    relayed (websocket_server mdp) (websocket_server mdp') (map dump (sjs ++ tjs)).
Proof.
  intros Hs Ht Hsj Htj. unfold mdp_iteration.
  destruct (publish_rings_ok snapshot_to_json (websocket_server mdp) _ _ Hs Hsj)
    as (w1 & rs1 & js1 & H1 & Hr1 & HF1 & R1).
  destruct (publish_rings_ok trade_to_json w1 _ _ Ht Htj) as (w2 & rs2 & js2 & H2 & Hr2 & HF2 & R2).
  unfold OrderbookSnapshotRingBufferCapacity, TradeRingBufferCapacity. rewrite H1. cbn [mbind res_bind].
  rewrite H2. exists (mkMdp rs1 rs2 w2), js1, js2. split_and!; [done..|].
  rewrite map_app. by eapply relayed_trans.
Qed.
End Relay.

(** ** A concrete library, and a trade on its way *)
Inductive jvalue :=
  | VObject (l : list (string * jvalue))
  | VArray (l : list jvalue)
  | VString (s : string)
  | VDouble (d : double)
  | VInt (z : Z)
  | VUint (z : Z).

Definition json_tree : JsonLibrary := {|
  json := jvalue;
  j_object := VObject; j_array := VArray; j_string := VString; j_double := VDouble;
  j_int := VInt; j_uint := VUint;
  j_at v k := match v with
              | VObject l => get_or OutOfRange ((list_to_map l : gmap string jvalue) !! k)
              | _ => Err LogicError
              end;
  get_string v := match v with VString s => Ok s | _ => Err LogicError end;
  get_double v := match v with VDouble d => Ok d | _ => Err LogicError end;
  get_int v := match v with VInt z | VUint z => Ok (wrap32 z) | _ => Err LogicError end;
  dump v := match v with VObject ((k, VString s) :: _) => s | _ => EmptyString end
|}.

Lemma json_tree_laws : @JsonLibraryLaws json_tree.
Proof.
  split; try done.
  - intros l k v Hl. simpl in *. by rewrite Hl.
  - intros z Hz. unfold get_int, j_int, json_tree, wrap32. unfold_int.
    apply andb_true_iff in Hz as [?%Z.leb_le ?%Z.leb_le].
    destruct (Z_lt_le_dec z 0).
    + rewrite <- (Z.mod_add z 1) by lia. rewrite Z.mod_small by lia.
      rewrite (proj2 (Z.ltb_ge _ _)) by lia. f_equal. lia.
    + rewrite Z.mod_small by lia. by rewrite (proj2 (Z.ltb_lt _ _)) by lia.
Qed.

#[local] Existing Instances json_tree json_tree_laws.

Definition gme_trade_result : res Trade :=
  Trade_ctor "GME" 1250 1000 "t1" "alice" "bob" 1 2 true 1700000000000.
Definition gme_trade : Trade :=
  match gme_trade_result with Ok t => t | Err _ => mkTrade [] 0 0 [] [] [] 0 0 true 0 end.

Lemma trade_json_flips_side_witness :
  exists p q t', 1250 - 1 <= p <= 1250 /\ 1000 - 1 <= q <= 1000 /\
    (trade_to_json gme_trade ≫= trade_from_json) = Ok t' /\
    Trade_ctor "GME" p q "t1" "alice" "bob" 1 2 (negb true) (u64 (wrap32 1700000000000)) = Ok t'.
Proof.
  apply (trade_json_flips_side "GME" 1250 1000 "t1" "alice" "bob" 1 2 true 1700000000000 gme_trade);
    first [reflexivity|unfold INT_MAX; lia].
Defined.

(** One client, one symbol, one trade waiting. *)
Definition trade_ring : MpscRingBuffer Trade :=
  (shared_memory_publish 1024 (init 1024 zero_ring) gme_trade).1.

Lemma trade_ring_rep : ring_rep 10 trade_ring [gme_trade] /\ far_from_wrap trade_ring.
Proof.
  assert (far_from_wrap (init 1024 (zero_ring (T := Trade)))) by (unfold far_from_wrap; simpl; lia).
  destruct (try_push_free 10 ltac:(lia) (init 1024 zero_ring) [] gme_trade) as (r & Hr & Hrep);
    [apply (init_rep 10); lia|done|simpl; lia|].
  unfold trade_ring, shared_memory_publish. change (2 ^ 10) with 1024 in Hr. rewrite Hr. simpl.
  split; [done|]. replace r with trade_ring; [vm_compute; reflexivity|].
  unfold trade_ring, shared_memory_publish. by rewrite Hr.
Qed.

Definition sample_mdp : MarketDataProcessor unit := mkMdp [] [trade_ring] sample_server.

Lemma mdp_relays_witness :
  exists mdp' sjs tjs, mdp_iteration sample_mdp = Ok mdp' /\
    holds (orderbook_snapshot_ring_buffers mdp') (map tail []) /\
    holds (trade_ring_buffers mdp') (map tail [[gme_trade]]) /\
    Forall2 (fun v j => snapshot_to_json v = Ok j) (oldest []) sjs /\
    Forall2 (fun v j => trade_to_json v = Ok j) (oldest [[gme_trade]]) tjs /\
    relayed (websocket_server sample_mdp) (websocket_server mdp') (map dump (sjs ++ tjs)).
Proof.
  apply (mdp_relays sample_mdp [] [[gme_trade]]).
  - constructor.
  - constructor; [exact trade_ring_rep|constructor].
  - constructor.
  - constructor; [|constructor]. eexists. reflexivity.
Defined.
