(* ===== verification/MarketDataPath.v ===== *)
(** * From the matching engine to the market data processor

    Both services open the same ring buffers by name: the constructor of
    [MarketDataProcessor] creates two for each of its symbols
    ([services/market_data_processor/src/market_data_processor.cpp]), and the
    factories in [services/matching_engine/src/main.cpp] open them for the
    publishers of the engine's books.  The operating system and the ring buffer
    class are those of [SharedMemory]; snapshots and trades are messages of one
    type [T] here, and the two kinds of ring differ in size. *)

From S2P Require Import Prelude Core LimitOrderBook RingBuffer SharedMemory MarketData.
From Stdlib Require Import ZArith Lia Ascii String.
From stdpp Require Import base option list gmap strings pretty.

Open Scope Z_scope.

Inductive kind := snapshots | trades.

#[export] Instance kind_eq_dec : EqDecision kind.
Proof. solve_decision. Defined.
#[export] Instance kind_countable : Countable kind.
Proof.
  refine (inj_countable' (fun k => match k with snapshots => true | trades => false end)
    (fun b => if b then snapshots else trades) _). by intros [].
Defined.

(** A ring is known by its symbol and its kind. *)
Abbreviation key := (string * kind)%type.

Section Path.
Context {T : Type} (size_of : kind -> Z) (SERVER_NAME : string).

Definition ring_capacity (q : kind) : Z :=
  match q with snapshots => OrderbookSnapshotRingBufferCapacity | trades => TradeRingBufferCapacity end.

Definition shm_prefix (r : key) : string :=
  ring_name r.1 (match r.2 with snapshots => ORDERBOOK_SNAPSHOT_SHM_FILE | trades => TRADE_SHM_FILE end) SERVER_NAME.

Definition create_ring (r : key) : shm (T := T) MpscSharedMemoryRingBuffer :=
  create (ring_capacity r.2) (size_of r.2) (shm_prefix r) true.

Definition open_ring (r : key) : shm (T := T) MpscSharedMemoryRingBuffer :=
  open_exist_shm (ring_capacity r.2) (size_of r.2) (shm_prefix r) true.

(** ** MarketDataProcessor::MarketDataProcessor *)
Fixpoint mdp_rings (active_symbols : list string) : shm (T := T) (list (key * MpscSharedMemoryRingBuffer)) :=
  match active_symbols with
  | [] => mret []
  | symbol :: symbols =>
      snapshot ← create_ring (symbol, snapshots);
      trade ← create_ring (symbol, trades);
      rest ← mdp_rings symbols;
      mret (((symbol, snapshots), snapshot) :: ((symbol, trades), trade) :: rest)
  end.

(** ** MatchingEngine::MatchingEngine *)

(** [emplace] of a new publisher: if there is one for the symbol, the new one is
    destroyed. *)
Definition emplace_publisher (r : key) (b : MpscSharedMemoryRingBuffer)
    (pubs : gmap key MpscSharedMemoryRingBuffer) : shm (T := T) (gmap key MpscSharedMemoryRingBuffer) :=
  match pubs !! r with
  | Some _ => _ ← release (size_of r.2) b; mret pubs
  | None => mret (<[r := b]> pubs)
  end.

Fixpoint engine_publishers (active_symbols : list string) (pubs : gmap key MpscSharedMemoryRingBuffer)
    : shm (T := T) (gmap key MpscSharedMemoryRingBuffer) :=
  match active_symbols with
  | [] => mret pubs
  | symbol :: symbols =>
      trade ← open_ring (symbol, trades);
      pubs ← emplace_publisher (symbol, trades) trade pubs;
      snapshot ← open_ring (symbol, snapshots);
      pubs ← emplace_publisher (symbol, snapshots) snapshot pubs;
      engine_publishers symbols pubs
  end.

(** ** SharedMemoryPublisher::try_publish *)
Definition publish (pubs : gmap key MpscSharedMemoryRingBuffer) (r : key) (v : T) : shm (T := T) bool :=
  match pubs !! r with
  | Some b => shm_try_push (ring_capacity r.2) (size_of r.2) b v
  | None => throw "map::at"
  end.

Fixpoint publish_all (pubs : gmap key MpscSharedMemoryRingBuffer) (msgs : list (key * T)) : shm (T := T) unit :=
  match msgs with
  | [] => mret tt
  | (r, v) :: msgs' => _ ← publish pubs r v; publish_all pubs msgs'
  end.

Definition take_ring (r : key) (b : MpscSharedMemoryRingBuffer) : shm (T := T) (option T) :=
  shm_try_pop (ring_capacity r.2) (size_of r.2) b.
End Path.

(** ** Names *)
Section Names.
Variable SERVER_NAME : string.

Definition ring_path (r : key) : string := get_shm_file_full_name (2 ^ 10) (shm_prefix SERVER_NAME r).

Lemma ring_path_inj r r' : ring_path r = ring_path r' -> r = r'.
Proof.
  destruct r as [a q], r' as [b q']. unfold ring_path, get_shm_file_full_name, shm_prefix, ring_name. simpl.
  intros He%append_inj_r.
  assert (forall x y, x +:+ "_" +:+ y +:+ "_" +:+ SERVER_NAME = (x +:+ "_" +:+ y) +:+ "_" +:+ SERVER_NAME) as Hassoc.
  { intros x y. by rewrite !append_assoc. }
  rewrite !Hassoc in He. apply append_inj_r in He.
  assert (q = q') as <-.
  { apply (f_equal String.list_ascii_of_string) in He. rewrite !chars_app in He.
    destruct q, q'; [done| | |done]; apply (f_equal last) in He; simpl in He; by rewrite !last_app_cons in He. }
  apply append_inj_r in He. by subst.
Qed.
End Names.

(** ** Rings and what they hold *)
Section Routed.
Context {T : Type} (size_of : kind -> Z) (SERVER_NAME : string).
Hypothesis Hsize : forall q, 0 < size_of q.
Abbreviation cap := (2 ^ 10).
Implicit Types (s : OS (T := T)) (b : MpscSharedMemoryRingBuffer) (l : list T) (r : key).

Lemma Hk10 : 1 <= 10 <= 32.
Proof. lia. Qed.

Lemma ring_capacity_eq q : ring_capacity q = cap.
Proof. by destruct q. Qed.

(** No call fails, numbers are fresh, and no two names stand for one object. *)
Record sys_ok s : Prop := {
  so_wf : os_wf s;
  so_faults : os_faults s = [];
  so_names : forall p q ino, os_shm s !! p = Some ino -> os_shm s !! q = Some ino -> p = q;
  so_known : forall p ino, os_shm s !! p = Some ino -> (ino < os_next s)%nat
}.

(** [b] is mapped to the ring [r], which holds [l] and from which nothing was taken. *)
Definition serves s r l b : Prop :=
  exists ino, ring_at 10 (size_of r.2) s true (ring_path SERVER_NAME r) ino l /\
    (forall i, os_inodes s !! ino = Some i -> head_ (in_ring i) = Z.of_nat (length l)) /\ attached s b ino.

(** What was served is still served. *)
Definition still_served s s' : Prop := sys_ok s' /\ forall r l b, serves s r l b -> serves s' r l b.

Lemma still_served_trans s1 s2 s3 : still_served s1 s2 -> still_served s2 s3 -> still_served s1 s3.
Proof. intros [_ H1] [Hok H2]. split; [done|]. eauto. Qed.

(** A system with more names and mappings and the same rings. *)
Lemma serves_more s s' r l b ino' addr :
  serves s r l b -> os_wf s ->
  (forall p ino, os_shm s !! p = Some ino -> os_shm s' !! p = Some ino) ->
  (forall ino i, os_inodes s !! ino = Some i -> os_inodes s' !! ino = Some i) ->
  os_next_id s <= addr -> os_maps s' = <[addr := ino']> (os_maps s) ->
  serves s' r l b.
Proof.
  intros (ino & (Hn & rg & Hi & Hin & Hr) & Hh & (a & Hb & Hm)) Hwf Hnames Hinodes Haddr Hmaps.
  exists ino. split; [split; [by apply Hnames|exists rg; eauto]|]. split.
  - intros i Hi'. rewrite (Hinodes _ _ Hi) in Hi'. injection Hi' as <-. by apply (Hh (mkInode (size_of r.2) rg)).
  - exists a. split; [done|]. rewrite Hmaps, lookup_insert_ne; [done|].
    pose proof (ow_maps _ Hwf a ltac:(by rewrite Hm)). lia.
Qed.

Lemma create_ring_new s r :
  sys_ok s -> os_shm s !! ring_path SERVER_NAME r = None ->
  exists s' b, create_ring size_of SERVER_NAME r s = (s', Returned b) /\ still_served s s' /\ serves s' r [] b /\
    (forall p, p <> ring_path SERVER_NAME r -> os_shm s' !! p = os_shm s !! p).
Proof.
  intros [Hwf Hf Hinj Hknown] Hn. unfold create_ring. rewrite ring_capacity_eq.
  pose proof (create_fresh 10 (size_of r.2) s true (shm_prefix SERVER_NAME r) Hwf Hf Hn) as Hc.
  fold (ring_path SERVER_NAME r) in Hc. set (s' := made _ _ _ _ _) in Hc. eexists s', _. split; [exact Hc|].
  assert (os_wf s') as Hwf' by (by apply os_wf_made).
  split; [split; [split; [done|done| |]|]|split].
  - simpl. intros p q ino [[<- <-]|[Hp Hs]]%lookup_insert_Some [[<- Hq]|[Hq Hs']]%lookup_insert_Some; [done| | |by eapply Hinj].
    + apply Hknown in Hs'. lia.
    + subst. apply Hknown in Hs. lia.
  - simpl. intros p ino [[_ <-]|[_ Hs]]%lookup_insert_Some; [lia|]. apply Hknown in Hs. lia.
  - intros r' l b Hb. eapply serves_more; [exact Hb|done| | | |reflexivity]; [| |lia].
    + intros p ino Hp. simpl. rewrite lookup_insert_ne; [done|]. intros <-. congruence.
    + intros ino i Hi. simpl. rewrite lookup_insert_ne; [done|]. intros <-.
      pose proof (ow_inodes _ Hwf (os_next s) ltac:(by rewrite Hi)). lia.
  - exists (os_next s). split; [by apply ring_at_made|]. split.
    + intros i Hi. simpl in Hi. rewrite lookup_insert_eq in Hi. by injection Hi as <-.
    + eexists. split; [done|]. simpl. apply lookup_insert_eq.
  - intros p Hp. simpl. by rewrite lookup_insert_ne.
Qed.

Lemma open_ring_served s r l b :
  sys_ok s -> serves s r l b ->
  exists s' b', open_ring size_of SERVER_NAME r s = (s', Returned b') /\ still_served s s' /\ serves s' r l b'.
Proof.
  intros [Hwf Hf Hinj Hknown] Hs. pose proof Hs as (ino & Hat & Hh & _). unfold open_ring. rewrite ring_capacity_eq.
  pose proof (open_found 10 (size_of r.2) s true (shm_prefix SERVER_NAME r) ino l Hwf Hf Hat) as Ho.
  eexists _, _. split; [exact Ho|]. split; [split; [split; [by apply os_wf_found|done..]|]|].
  - intros r' l' b' Hb. eapply serves_more; [exact Hb|done| | | |reflexivity]; [done|done|lia].
  - exists ino. split; [exact Hat|]. split; [exact Hh|]. eexists. split; [done|]. simpl. apply lookup_insert_eq.
Qed.

(** Two buffers that serve one ring are mapped to the same memory. *)
Lemma serves_ino s r l b ino :
  os_shm s !! ring_path SERVER_NAME r = Some ino -> serves s r l b -> attached s b ino.
Proof. intros Hn (ino' & (Hn' & _) & _ & Ha). simpl in Hn'. by simplify_eq. Qed.

Lemma push_ring s r l b v :
  sys_ok s -> serves s r l b -> (length l < 1024)%nat ->
  exists s', shm_try_push (ring_capacity r.2) (size_of r.2) b v s = (s', Returned true) /\ sys_ok s' /\
    (forall b', serves s r l b' -> serves s' r (l ++ [v]) b') /\
    (forall r' l' b', r' <> r -> serves s r' l' b' -> serves s' r' l' b').
Proof.
  intros [[Hm1 Hm2 Hm3] Hf Hinj Hknown] (ino & (Hn & rg & Hi & Hin & Hr) & Hh & (a & Hb & Hm)) Hl.
  specialize (Hh _ Hi). simpl in Hh, Hn. rewrite ring_capacity_eq.
  destruct (try_push_free 10 Hk10 rg l v Hr) as (rg' & Hp & Hr'); [unfold far_from_wrap; rewrite Hh; lia|lia|].
  destruct (try_push_fields 10 _ _ _ _ Hp) as [Einit Ehead].
  exists (set_inode s ino (mkInode (size_of r.2) rg')).
  split; [unfold shm_try_push, on_buffer; rewrite Hb; by eapply on_ring_ok|]. split; [|split].
  - split; [split; [done|done|]|done..]. simpl. intros ino' [<-|?%Hm3]%lookup_insert_is_Some'; [|done]. by eapply Hknown.
  - intros b' Hs'. exists ino. split; [|split].
    + split; [done|]. exists rg'. split; [apply lookup_insert_eq|]. split; [|done]. unfold is_initialized in *. by rewrite Einit.
    + intros i Hi'. simpl in Hi'. rewrite lookup_insert_eq in Hi'. injection Hi' as <-. simpl.
      rewrite Ehead, Hh, u64_small, length_app; simpl; lia.
    + destruct (serves_ino s r l b' ino Hn Hs') as (a' & ? & ?). by exists a'.
  - intros r' l' b' Hne (ino' & (Hn' & rg2 & Hi' & Hrest) & Hh' & (a' & Hb' & Hm')).
    assert (ino <> ino') as Hino by (intros <-; by eapply Hne, ring_path_inj, Hinj).
    exists ino'. split; [split; [done|]; exists rg2; split; [simpl; by rewrite lookup_insert_ne|done]|].
    split; [|by exists a']. intros i. simpl. rewrite lookup_insert_ne by done. apply Hh'.
Qed.

Lemma take_ring_first s r l b :
  serves s r l b -> exists s', take_ring size_of r b s = (s', Returned (head l)).
Proof.
  intros (ino & (Hn & rg & Hi & Hin & Hr) & Hh & (a & Hb & Hm)). specialize (Hh _ Hi). simpl in Hh.
  pose proof (rr_size _ _ _ Hr) as Hlen. assert (far_from_wrap rg) as Hw by (unfold far_from_wrap; rewrite Hh; lia).
  unfold take_ring. rewrite ring_capacity_eq. unfold shm_try_pop, on_buffer. rewrite Hb. destruct l as [|v l].
  - pose proof (try_pop_empty 10 Hk10 rg Hr Hw) as Hp. eexists. by eapply on_ring_ok.
  - destruct (try_pop_first 10 Hk10 rg v l Hr Hw) as (rg' & Hp & _). eexists. by eapply on_ring_ok.
Qed.

(** The rings of a list of symbols. *)
Definition all_keys (symbols : list string) : list key :=
  mjoin (map (fun symbol => [(symbol, snapshots); (symbol, trades)]) symbols).

Lemma elem_of_all_keys symbols r : r ∈ all_keys symbols <-> r.1 ∈ symbols.
Proof.
  unfold all_keys. induction symbols as [|x symbols IH]; simpl; [set_solver|].
  destruct r as [a q]. rewrite !elem_of_cons, IH. simpl. destruct q; naive_solver.
Qed.

Lemma mdp_rings_ok symbols s :
  sys_ok s -> NoDup symbols ->
  (forall r, r ∈ all_keys symbols -> os_shm s !! ring_path SERVER_NAME r = None) ->
  exists s' rings, mdp_rings size_of SERVER_NAME symbols s = (s', Returned rings) /\ still_served s s' /\
    map fst rings = all_keys symbols /\ Forall (fun rb => serves s' rb.1 [] rb.2) rings.
Proof.
  intros Hok Hnd. revert s Hok. induction Hnd as [|x symbols Hx Hnd IH]; intros s Hok Hfree; simpl.
  { exists s, []. split; [done|]. split; [by split|]. by repeat constructor. }
  destruct (create_ring_new s (x, snapshots) Hok) as (s1 & b1 & Hc1 & Hk1 & Hs1 & Hn1); [apply Hfree; left|].
  rewrite (bind_ret _ _ _ _ _ Hc1).
  destruct (create_ring_new s1 (x, trades)) as (s2 & b2 & Hc2 & Hk2 & Hs2 & Hn2); [apply Hk1| |].
  { rewrite Hn1; [apply Hfree; right; left|]. intros He%ring_path_inj. done. }
  rewrite (bind_ret _ _ _ _ _ Hc2).
  destruct (IH s2) as (s3 & rings & Hc3 & Hk3 & Hkeys & Hall); [apply Hk2| |].
  { intros r Hr. rewrite Hn2, Hn1; [apply Hfree; by right; right|..]; intros He%ring_path_inj; subst r;
      by apply elem_of_all_keys in Hr. }
  rewrite (bind_ret _ _ _ _ _ Hc3). eexists s3, _. split; [done|].
  split; [exact (still_served_trans _ _ _ Hk1 (still_served_trans _ _ _ Hk2 Hk3))|]. split; [simpl; by rewrite Hkeys|].
  repeat constructor; [by apply Hk3, Hk2|by apply Hk3|done].
Qed.

Lemma emplace_new r b (pubs : gmap key MpscSharedMemoryRingBuffer) s :
  pubs !! r = None -> emplace_publisher size_of r b pubs s = (s, Returned (<[r := b]> pubs)).
Proof. intros Hr. unfold emplace_publisher. by rewrite Hr. Qed.

(** The publishers serve the rings of the symbols seen so far. *)
Definition published (pubs : gmap key MpscSharedMemoryRingBuffer) s : Prop :=
  forall r b, pubs !! r = Some b -> serves s r [] b.

Lemma open_emplace s r b (pubs : gmap key MpscSharedMemoryRingBuffer) {A} (f : _ -> shm A) :
  sys_ok s -> serves s r [] b -> published pubs s -> pubs !! r = None ->
  exists s' b', (x ← open_ring size_of SERVER_NAME r; p ← emplace_publisher size_of r x pubs; f p) s =
      f (<[r := b']> pubs) s' /\ still_served s s' /\ published (<[r := b']> pubs) s'.
Proof.
  intros Hok Hs Hp Hr. destruct (open_ring_served s r [] b Hok Hs) as (s' & b' & Ho & Hk & Hs').
  exists s', b'. rewrite (bind_ret _ _ _ _ _ Ho), (bind_ret _ _ _ _ _ (emplace_new r b' pubs s' Hr)).
  split; [done|]. split; [done|]. intros r' x [[<- <-]|[_ Hx]]%lookup_insert_Some; [done|]. by apply Hk, Hp.
Qed.

Lemma engine_publishers_ok symbols s pubs :
  sys_ok s -> NoDup symbols -> published pubs s ->
  (forall r, r ∈ all_keys symbols -> pubs !! r = None /\ exists b, serves s r [] b) ->
  exists s' pubs', engine_publishers size_of SERVER_NAME symbols pubs s = (s', Returned pubs') /\ still_served s s' /\
    published pubs' s' /\ (forall r, is_Some (pubs' !! r) <-> is_Some (pubs !! r) \/ r ∈ all_keys symbols).
Proof.
  intros Hok Hnd. revert s pubs Hok. induction Hnd as [|x symbols Hx Hnd IH]; intros s pubs Hok Hp Hall; simpl.
  { exists s, pubs. split; [done|]. split; [by split|]. split; [done|]. intros r. unfold all_keys. simpl. set_solver. }
  destruct (Hall (x, trades)) as [Ht (bt & Hbt)]; [right; left|].
  destruct (Hall (x, snapshots)) as [Hs (bs & Hbs)]; [left|].
  destruct (open_emplace s (x, trades) bt pubs (fun pubs =>
    x0 ← open_ring size_of SERVER_NAME (x, snapshots); p ← emplace_publisher size_of (x, snapshots) x0 pubs;
    engine_publishers size_of SERVER_NAME symbols p) Hok Hbt Hp Ht) as (s1 & b1 & -> & Hk1 & Hp1).
  destruct (open_emplace s1 (x, snapshots) bs (<[(x, trades) := b1]> pubs)
    (engine_publishers size_of SERVER_NAME symbols)) as (s2 & b2 & -> & Hk2 & Hp2);
    [apply Hk1|by apply Hk1|done|by rewrite lookup_insert_ne|].
  destruct (IH s2 (<[(x, snapshots) := b2]> (<[(x, trades) := b1]> pubs))) as (s3 & pubs' & -> & Hk3 & Hp3 & Hdom);
    [apply Hk2|done| |].
  { intros r Hr. pose proof Hr as Hr'%elem_of_all_keys. destruct (Hall r) as [Hn (b & Hb)]; [by right; right|].
    split; [by rewrite !lookup_insert_ne by (intros <-; done)|]. exists b. by apply Hk2, Hk1. }
  exists s3, pubs'. split; [done|]. split; [exact (still_served_trans _ _ _ Hk1 (still_served_trans _ _ _ Hk2 Hk3))|]. split; [done|].
  intros r. rewrite Hdom, !lookup_insert_is_Some'. change (all_keys (x :: symbols)) with ((x, snapshots) :: (x, trades) :: all_keys symbols).
  rewrite !elem_of_cons. naive_solver.
Qed.

(** The messages for one ring, in the order in which they were published. *)
Definition for_key r (msgs : list (key * T)) : list T := map snd (filter (fun m => m.1 = r) msgs).

Lemma publish_all_ok pubs msgs (held : key -> list T) s :
  sys_ok s -> Forall (fun m => exists b, pubs !! m.1 = Some b /\ serves s m.1 (held m.1) b) msgs ->
  (forall r, (length (held r ++ for_key r msgs) <= 1024)%nat) ->
  exists s', publish_all size_of pubs msgs s = (s', Returned tt) /\ sys_ok s' /\
    (forall r b, serves s r (held r) b -> serves s' r (held r ++ for_key r msgs) b).
Proof.
  revert held s. induction msgs as [|[r v] msgs IH]; intros held s Hok Hall Hlen; simpl.
  { exists s. split; [done|]. split; [done|]. intros r b. unfold for_key. simpl. by rewrite app_nil_r. }
  apply Forall_cons in Hall as [(b & Hb & Hs) Hall]. simpl in Hb, Hs.
  pose proof (Hlen r) as Hlr. unfold for_key in Hlr. rewrite filter_cons_True in Hlr by done.
  rewrite length_app in Hlr. simpl in Hlr.
  destruct (push_ring s r (held r) b v Hok Hs) as (s1 & Hp & Hok1 & Hsame & Hother); [lia|].
  set (held' := fun r' => if decide (r' = r) then held r ++ [v] else held r').
  assert (forall r' b', serves s r' (held r') b' -> serves s1 r' (held' r') b') as Hstep.
  { intros r' b' Hb'. unfold held'. destruct (decide (r' = r)) as [->|Hne]; auto. }
  assert (forall r', held' r' ++ for_key r' msgs = held r' ++ for_key r' ((r, v) :: msgs)) as Hheld.
  { intros r'. unfold held', for_key. destruct (decide (r' = r)) as [->|Hne].
    - rewrite filter_cons_True by done. simpl. by rewrite <- app_assoc.
    - by rewrite filter_cons_False by (simpl; congruence). }
  destruct (IH held' s1) as (s2 & Hrun & Hok2 & Hfin); [done| |by intros r'; rewrite Hheld|].
  { eapply Forall_impl; [exact Hall|]. intros [r' v'] (b' & ? & ?). exists b'. auto. }
  exists s2. unfold publish at 1. rewrite Hb, (bind_ret _ _ _ _ _ Hp). split; [done|]. split; [done|].
  intros r' b' Hb'. rewrite <- Hheld. auto.
Qed.

(** C9: every message of the engine arrives in the ring of its symbol and of no
    other.  Let the market data processor start with its symbols, on a system
    where their rings do not exist yet, and then the matching engine with symbols
    that are all among them; no call fails.  Both start.  Whatever trades and
    snapshots the engine then publishes, at most 1024 per ring, each ring of the
    processor holds the messages of its own symbol and kind, in the order in which
    they were published: [try_pop] gives the first of them, and nothing if there
    was none. *)
Theorem market_data_routed s mdp_symbols engine_symbols msgs :
  sys_ok s -> NoDup mdp_symbols -> NoDup engine_symbols -> engine_symbols ⊆ mdp_symbols ->
  (forall r, r ∈ all_keys mdp_symbols -> os_shm s !! ring_path SERVER_NAME r = None) ->
  Forall (fun m => m.1.1 ∈ engine_symbols) msgs ->
  (forall r, (length (for_key r msgs) <= 1024)%nat) ->
  exists s' rings,
    (rings ← mdp_rings size_of SERVER_NAME mdp_symbols;
     pubs ← engine_publishers size_of SERVER_NAME engine_symbols ∅;
     _ ← publish_all size_of pubs msgs; mret rings) s = (s', Returned rings) /\
    map fst rings = all_keys mdp_symbols /\
    Forall (fun '(r, b) => serves s' r (for_key r msgs) b /\
              exists s'', take_ring size_of r b s' = (s'', Returned (head (for_key r msgs)))) rings.
Proof.
  intros Hok Hndm Hnde Hsub Hfree Hmsgs Hlen.
  destruct (mdp_rings_ok mdp_symbols s Hok Hndm Hfree) as (s1 & rings & Hm & Hk1 & Hkeys & Hrings).
  rewrite (bind_ret _ _ _ _ _ Hm).
  destruct (engine_publishers_ok engine_symbols s1 ∅) as (s2 & pubs & He & Hk2 & Hp & Hdom);
    [apply Hk1|done|intros r b [=]| |].
  { intros r Hr%elem_of_all_keys. split; [done|]. apply Hsub in Hr. apply elem_of_all_keys in Hr.
    rewrite <- Hkeys in Hr. apply list_elem_of_fmap in Hr as (rb & -> & Hrb).
    exists rb.2. rewrite Forall_forall in Hrings. by apply Hrings. }
  rewrite (bind_ret _ _ _ _ _ He).
  destruct (publish_all_ok pubs msgs (fun _ => []) s2) as (s3 & Hr & _ & Hfin); [apply Hk2| |done|].
  { eapply Forall_impl; [exact Hmsgs|]. intros [r v] Hr. simpl in *.
    destruct (pubs !! r) as [b|] eqn:Hb; [exists b; split; [done|by apply Hp]|].
    apply eq_None_not_Some in Hb. destruct Hb. apply Hdom. right. by apply elem_of_all_keys. }
  rewrite (bind_ret _ _ _ _ _ Hr). exists s3, rings. split; [done|]. split; [done|].
  eapply Forall_impl; [exact Hrings|]. intros [r b] Hs. simpl in Hs.
  assert (serves s3 r (for_key r msgs) b) as Hs' by (apply Hfin, Hk2, Hs).
  split; [done|]. by apply take_ring_first.
Qed.

(** The engine does not start before the processor, nor with a symbol that the
    processor does not have: the first ring that is not there is an exception,
    which [main] does not catch. *)
Lemma engine_needs_mdp s symbol symbols :
  os_faults s = [] -> os_shm s !! ring_path SERVER_NAME (symbol, trades) = None ->
  engine_publishers size_of SERVER_NAME (symbol :: symbols) ∅ s = (s, Thrown "Failed to open shm: ").
Proof.
  intros Hf Hn.
  assert (open_ring size_of SERVER_NAME (symbol, trades) s = (s, Thrown "Failed to open shm: ")) as Ho
    by (unfold open_ring; rewrite ring_capacity_eq; by apply open_absent).
  simpl. unfold mbind at 1, shm_bind at 1. by rewrite Ho.
Qed.
End Routed.

(** ** A concrete start *)
Definition ring_size (q : kind) : Z := match q with snapshots => 4096 | trades => 2048 end.

Definition day_messages : list (key * Z) :=
  [(("GME", trades), 1); (("AMC", snapshots), 2); (("GME", trades), 3); (("GME", snapshots), 4)]%string.

Lemma market_data_routed_witness :
  exists s' rings,
    (rings ← mdp_rings ring_size "demo" ["GME"; "AMC"; "TSLA"]%string;
     pubs ← engine_publishers ring_size "demo" ["AMC"; "GME"]%string ∅;
     _ ← publish_all ring_size pubs day_messages; mret rings) (os0 []) = (s', Returned rings) /\
    length rings = 6%nat /\
    Forall (fun '(r, b) => exists s'', take_ring ring_size r b s' = (s'', Returned (head (for_key r day_messages)))) rings /\
    head (for_key ("GME"%string, trades) day_messages) = Some 1.
Proof.
  destruct (market_data_routed ring_size "demo" ltac:(by intros []) (os0 []) ["GME"; "AMC"; "TSLA"]%string
    ["AMC"; "GME"]%string day_messages) as (s' & rings & Hrun & Hkeys & Hall).
  - split; [by split; intros ? [? ?]|done|by intros ? ? ? ?|by intros ? ? ?].
  - by apply (bool_decide_unpack _).
  - by apply (bool_decide_unpack _).
  - set_solver.
  - intros r Hr. reflexivity.
  - repeat constructor; simpl; set_solver.
  - intros r. unfold for_key. rewrite length_map. etrans; [apply length_filter|]. simpl. lia.
  - exists s', rings. split; [exact Hrun|]. split; [|split; [|reflexivity]].
    + rewrite <- (length_map fst rings), Hkeys. reflexivity.
    + eapply Forall_impl; [exact Hall|]. by intros [r b] [_ ?].
Defined.
