(* ===== verification/SnapshotJson.v ===== *)
(** * Order book snapshots read from JSON

    [TopOrderBookLevelAggregates::from_json] of
    [libs/core/orderbook_snapshot.h], which nothing in the repository but tests
    calls.  It reads what [to_json] writes ([MarketData]); indexing an array and
    the conversion of a number with a fraction to [int] are added to the interface
    of the JSON library. *)

From S2P Require Import Prelude Core Doubles MarketData.
From Stdlib Require Import ZArith Lia Ascii String.
From stdpp Require Import base option list gmap strings fin_maps.

Open Scope Z_scope.

(** [operator[]] of a constant array: past the end is undefined. *)
Class JsonArrays `{JsonLibrary} := {
  j_index : json -> nat -> res json;
  j_index_array : forall l i, j_index (j_array l) i = get_or OutOfBounds (l !! i);
  get_int_double : forall d, get_int (j_double d) = to_i32 d
}.

Section FromJson.
Context `{JsonArrays}.

(** The price is read as a number with a fraction, the quantity as an [int]. *)
Definition level_from_json (level : json) : res LevelAggregate :=
  price_d ← (j_at level "price" ≫= get_double);
  price ← to_i32 (dmul price_d decimal_to_int_multiplier);
  quantity_i ← (j_at level "quantity" ≫= get_int);
  quantity ← to_i32 (dmul (of_int quantity_i) decimal_to_int_multiplier);
  Ok (mkLevelAggregate price quantity).

Definition levels_from_json (j : json) (side : string) : res (list LevelAggregate) :=
  foldM (fun levels i =>
      levels_j ← j_at j side;
      level_j ← j_index levels_j i;
      level ← level_from_json level_j;
      Ok (levels ++ [level]))
    [] (seq 0 ORDER_BOOK_AGGREGATE_LEVELS).

Definition snapshot_from_json (j : json) : res TopOrderBookLevelAggregates :=
  ticker_str ← (j_at j "ticker" ≫= get_string);
  create_timestamp ← (j_at j "create_timestamp" ≫= get_int);
  snapshot ← TopOrderBookLevelAggregates_ctor ticker_str (u64 create_timestamp);
  bids ← levels_from_json j "bids";
  asks ← levels_from_json j "asks";
  Ok (mkTopAggregates (top_ticker snapshot) bids asks (top_create_timestamp snapshot)).
End FromJson.

(** ** A snapshot there and back *)
Definition json_numbers : JsonLibrary := {|
  json := jvalue;
  j_object := VObject; j_array := VArray; j_string := VString; j_double := VDouble;
  j_int := VInt; j_uint := VUint;
  j_at v k := match v with
              | VObject l => get_or OutOfRange ((list_to_map l : gmap string jvalue) !! k)
              | _ => Err LogicError
              end;
  get_string v := match v with VString s => Ok s | _ => Err LogicError end;
  get_double v := match v with VDouble d => Ok d | _ => Err LogicError end;
  get_int v := match v with VInt z | VUint z => Ok (wrap32 z) | VDouble d => to_i32 d | _ => Err LogicError end;
  dump v := EmptyString
|}.

Definition json_numbers_arrays : @JsonArrays json_numbers.
Proof.
  refine (@Build_JsonArrays json_numbers
    (fun v i => match v with VArray l => get_or OutOfBounds (l !! i) | _ => Err LogicError end) _ _); done.
Defined.

(** One and a half shares at 12.50, one at 12.75. *)
Definition half_share : TopOrderBookLevelAggregates :=
  let empty := replicate (ORDER_BOOK_AGGREGATE_LEVELS - 1) (mkLevelAggregate 0 0) in
  mkTopAggregates (list_ascii_of_string "GME" ++ [NUL; NUL]) (mkLevelAggregate 1250 150 :: empty)
    (mkLevelAggregate 1275 100 :: empty) 1700000000.

(** What is read back has the prices, but the half share is gone. *)
Example snapshot_loses_fractions :
  (s ← (@snapshot_to_json json_numbers half_share ≫= @snapshot_from_json json_numbers json_numbers_arrays); Ok (head (top_bids s), head (top_asks s))) =
  Ok (Some (mkLevelAggregate 1250 100), Some (mkLevelAggregate 1275 100)).
Proof. vm_compute. reflexivity. Qed.
