(* ===== verification/MatchingEngine.v ===== *)
(** * The matching engine

    [services/matching_engine/src/matching_engine.{h,cpp}] and the connection
    callback of its [main.cpp].  The engine keeps one book and one snapshot
    publisher per symbol, the queue [trade_events] that the books append to, and
    the two connections from the order manager.  [process_container] is modelled
    whole, [run] as its loop body; an exception that leaves the loop ends the
    process and is the outcome of the step.  The message codec, the server and
    the publishers are the interfaces of [Messaging], [Transport] and
    [LimitOrderBook]. *)

From S2P Require Import Prelude Core Messaging Concurrency Transport OrderedMap LimitOrderBook.
From Stdlib Require Import ZArith Lia Ascii String.
From stdpp Require Import base option list gmap strings fin_maps.

Open Scope Z_scope.

(** [unordered_map::emplace]: an entry that is there stays. *)
Definition map_emplace {A} (m : gmap string A) (k : string) (v : A) : gmap string A :=
  match m !! k with Some _ => m | None => <[k := v]> m end.

Record MatchingEngine (L P Q : Type) := mkEngine {
  incoming_request_connection_id : Z;
  order_response_connection_id : Z;
  inbound_server : L;
  orderbook_snapshot_publishers : gmap string Q;
  flush_interval : Z;
  trade_events : list Trade;
  limit_order_books : gmap string (LimitOrderBook P);
  trade_calls : nat;
  last_flush : Z
}.
Arguments mkEngine {L P Q} _ _ _ _ _ _ _ _ _.
Arguments incoming_request_connection_id {L P Q} _.
Arguments order_response_connection_id {L P Q} _.
Arguments inbound_server {L P Q} _.
Arguments orderbook_snapshot_publishers {L P Q} _.
Arguments flush_interval {L P Q} _.
Arguments trade_events {L P Q} _.
Arguments limit_order_books {L P Q} _.
Arguments trade_calls {L P Q} _.
Arguments last_flush {L P Q} _.

Section Engine.
Context {L P Q : Type} `{InboundServer L} {tpub : Publisher Trade P}
  {spub : Publisher TopOrderBookLevelAggregates Q} `{ProtoCodec} (env : Env).
Implicit Types (me : MatchingEngine L P Q) (srv : L).

(** The constructor, from the dependency factory's functions, and the body of its
    loop over the symbols. *)
Definition add_symbol (create_trade_publisher : string -> P)
    (create_orderbook_snapshot_publisher : string -> Q)
    (maps : gmap string (LimitOrderBook P) * gmap string Q) (symbol : string)
    : gmap string (LimitOrderBook P) * gmap string Q :=
  (map_emplace maps.1 symbol (new_book symbol (create_trade_publisher symbol)),
   map_emplace maps.2 symbol (create_orderbook_snapshot_publisher symbol)).

Definition new_engine (server : L) (create_trade_publisher : string -> P)
    (create_orderbook_snapshot_publisher : string -> Q) (active_symbols : list string)
    (interval start : Z) : MatchingEngine L P Q :=
  let maps := foldl (add_symbol create_trade_publisher create_orderbook_snapshot_publisher)
                (∅, ∅) active_symbols in
  mkEngine (-1) (-1) server maps.2 interval [] maps.1 0 start.

Definition with_server me srv : MatchingEngine L P Q :=
  mkEngine (incoming_request_connection_id me) (order_response_connection_id me) srv
    (orderbook_snapshot_publishers me) (flush_interval me) (trade_events me)
    (limit_order_books me) (trade_calls me) (last_flush me).

Definition with_books me srv (events : list Trade) (books : gmap string (LimitOrderBook P))
    (calls : nat) : MatchingEngine L P Q :=
  mkEngine (incoming_request_connection_id me) (order_response_connection_id me) srv
    (orderbook_snapshot_publishers me) (flush_interval me) events books calls (last_flush me).

(** [init]. *)
Definition engine_init me : res (MatchingEngine L P Q) :=
  let '(srv, ok) := is_start (inbound_server me) in
  if ok then Ok (with_server me srv) else Err Terminated.

(** The condition on which [wait_for_connections] stops sleeping. *)
Definition connected me : bool :=
  negb ((incoming_request_connection_id me =? -1) || (order_response_connection_id me =? -1)).

(** The callback of [main.cpp] that [InboundWebsocketServer] calls. *)
Definition on_connection (md : ConnectionMetadata) me : MatchingEngine L P Q :=
  let set i o := mkEngine i o (inbound_server me) (orderbook_snapshot_publishers me)
    (flush_interval me) (trade_events me) (limit_order_books me) (trade_calls me) (last_flush me) in
  if String.eqb (m_counter_party md) "order_request"
  then set (m_id md) (order_response_connection_id me)
  else if String.eqb (m_counter_party md) "order_response"
  then set (incoming_request_connection_id me) (m_id md)
  else me.

(** The [TradeContainer] built from the head of the queue. *)
Definition trade_container (t : Trade) : res TradeContainer :=
  ticker ← read_cstr (tr_ticker t);
  trade_id ← read_cstr (tr_trade_id t);
  taker_id ← read_cstr (tr_taker_id t);
  maker_id ← read_cstr (tr_maker_id t);
  Ok (mkTradeContainer ticker (tr_price t) (tr_quantity t) trade_id taker_id maker_id
        (tr_taker_order_id t) (tr_maker_order_id t) (tr_is_taker_buyer t)).

(** The [while (!trade_events.empty())] loop: a failed send ends it and leaves
    the trade at the head of the queue. *)
Fixpoint send_trades (connection_id : Z) srv (events : list Trade) : res (L * list Trade) :=
  match events with
  | [] => Ok (srv, [])
  | current_trade :: rest =>
      tc ← trade_container current_trade;
      let '(srv', ok) := is_send srv connection_id (serialize_container (CTrade tc)) fmt_binary in
      if ok then send_trades connection_id srv' rest else Ok (srv', events)
  end.

Definition new_order_handler me (new_order : NewOrderSingleContainer) : res (MatchingEngine L P Q) :=
  order_id ← get_or ContractViolation (no_order_id new_order);
  lob ← at_ (limit_order_books me !! no_symbol new_order);
  '(lob', events, calls) ←
    add_order env lob (trade_events me) (trade_calls me) order_id
      (default (if side_is_bid (no_side new_order) then MARKET_BID_ORDER_PRICE
                else MARKET_ASK_ORDER_PRICE) (no_price new_order))
      (no_order_qty new_order) (no_side new_order) (no_sender_comp_id new_order);
  '(srv, events') ← send_trades (order_response_connection_id me) (inbound_server me) events;
  Ok (with_books me srv events' (<[no_symbol new_order := lob']> (limit_order_books me)) calls).

Definition cancel_order_handler me (cancel_request : CancelOrderRequestContainer)
    : res (MatchingEngine L P Q) :=
  order_id ← get_or ContractViolation (cr_order_id cancel_request);
  lob ← at_ (limit_order_books me !! cr_symbol cancel_request);
  let cancel_success := order_id_exists lob order_id in
  lob' ← (if cancel_success then cancel_order lob order_id else Ok lob);
  let response := mkCancelResponse order_id (cr_cl_ord_id cancel_request) cancel_success in
  let '(srv, _) := is_send (inbound_server me) (order_response_connection_id me)
                     (serialize_container (CCancelOrderResponse response)) fmt_binary in
  Ok (with_books me srv (trade_events me)
        (<[cr_symbol cancel_request := lob']> (limit_order_books me)) (trade_calls me)).

Definition fill_cost_query_handler me (query : FillCostQueryContainer) : res (MatchingEngine L P Q) :=
  lob ← at_ (limit_order_books me !! fq_symbol query);
  total_cost ← get_fill_cost lob (fq_quantity query) (fq_side query);
  let '(srv, _) := is_send (inbound_server me) (incoming_request_connection_id me)
                     (serialize_container (CFillCostResponse (mkFillCostResponse total_cost)))
                     fmt_binary in
  Ok (with_server me srv).

Definition process_container me (container : Container) : res (MatchingEngine L P Q) :=
  match container with
  | CNewOrderSingle c => new_order_handler me c
  | CCancelOrderRequest c => cancel_order_handler me c
  | CFillCostQuery c => fill_cost_query_handler me c
  | _ => Ok me
  end.

(** The snapshots of one flush, one symbol after the other. *)
Definition flush_symbol (now_ms : Z) (pubs : gmap string Q)
    (entry : string * LimitOrderBook P) : res (gmap string Q) :=
  snapshot ← get_top_order_book_level_aggregate entry.2 now_ms;
  publisher ← at_ (pubs !! entry.1);
  Ok (<[entry.1 := (try_publish publisher snapshot).1]> pubs).

Definition flush me (now now_ms : Z) : res (MatchingEngine L P Q) :=
  pubs ← foldM (flush_symbol now_ms) (orderbook_snapshot_publishers me)
           (map_to_list (limit_order_books me));
  Ok (mkEngine (incoming_request_connection_id me) (order_response_connection_id me)
        (inbound_server me) pubs (flush_interval me) (trade_events me) (limit_order_books me)
        (trade_calls me) now).

(** One iteration of [run], at steady-clock time [now] and system time [now_ms]. *)
Definition run_iteration me (now now_ms : Z) : res (MatchingEngine L P Q) :=
  let '(srv, message) := is_dequeue_message (inbound_server me) (incoming_request_connection_id me) in
  let me := with_server me srv in
  me ← match message with
       | None => Ok me
       | Some new_message =>
           container ← deserialize_container new_message;
           process_container me container
       end;
  if flush_interval me <? now - last_flush me then flush me now now_ms else Ok me.
End Engine.
