(* ===== verification/EngineTheorems.v ===== *)
(** * Theorems on the matching engine

    Every handler on every branch: what it does to the books, to the trade queue
    and to the messages on the order manager's connections; the invariant of the
    engine along its runs; the snapshots of a flush. *)

From S2P Require Import Prelude Core Messaging Concurrency Transport OrderedMap LimitOrderBook BookSpec.
From S2P Require Import Matching BookOps BookTheorems BookQueries MatchingEngine.
From Stdlib Require Import ZArith Lia Ascii String.
From stdpp Require Import base option list gmap strings fin_maps.

Open Scope Z_scope.

(** A trade whose arrays can be read back. *)
Definition trade_readable (t : Trade) : Prop := is_ok (trade_container t) = true.

Section Theorems.
Context {L P Q : Type} `{InboundServerLaws L} {tpub : Publisher Trade P}
  {spub : Publisher TopOrderBookLevelAggregates Q} `{ProtoCodec} (env : Env).
Implicit Types (me : MatchingEngine L P Q) (srv : L).

(** The message that announces a trade. *)
Definition trade_message (t : Trade) : string :=
  match trade_container t with
  | Ok tc => serialize_container (CTrade tc)
  | Err _ => ""
  end.

Record engine_wf me : Prop := {
  ew_books : forall sym lob, limit_order_books me !! sym = Some lob ->
    book_wf lob /\ lob_ticker lob = sym;
  ew_publishers : forall sym, is_Some (limit_order_books me !! sym) ->
    is_Some (orderbook_snapshot_publishers me !! sym);
  ew_events : Forall trade_readable (trade_events me)
}.

Lemma is_send_sends srv id m fmt srv' ok :
  is_send srv id m fmt = (srv', ok) -> sends srv srv' id (if ok then [m] else []).
Proof. apply sends_of_law, is_send_law. Qed.

(** The trades that the loop sends are a prefix of the queue; the rest stays. *)
Lemma send_trades_ok id events : forall srv,
  Forall trade_readable events ->
  exists srv' sent pending,
    send_trades id srv events = Ok (srv', pending) /\ events = sent ++ pending /\
    sends srv srv' id (map trade_message sent).
Proof.
  induction events as [|t events IH]; intros srv Hr; simpl.
  - exists srv, [], []. split; [done|]. split; [done|]. apply sends_nil.
  - apply Forall_cons in Hr as [Ht Hr]. unfold trade_readable in Ht.
    destruct (trade_container t) as [tc|] eqn:Htc; [|done]. simpl.
    destruct (is_send _ _ _ _) as [srv1 ok] eqn:Hs. pose proof (is_send_sends _ _ _ _ _ _ Hs) as Hss.
    destruct ok.
    + destruct (IH srv1 Hr) as (srv' & sent & pending & -> & -> & Hs').
      exists srv', (t :: sent), pending. split; [done|]. split; [done|]. simpl.
      unfold trade_message at 1. rewrite Htc. by apply (sends_trans _ _ _ _ [_] _ Hss).
    + by exists srv1, [], (t :: events).
Qed.

(** A trade that reports a fill is readable, and the container holds its data. *)
Lemma reports_readable ticker id side broker f t :
  trade_reports ticker id side broker f t -> trade_readable t.
Proof.
  intros (R1 & _ & _ & R2 & R3 & _ & _ & _ & R4). unfold trade_readable, trade_container.
  rewrite R1, R2, R3. simpl. destruct (read_cstr (tr_trade_id t)); done.
Qed.

Lemma reports_all_readable ticker id side broker fs ts :
  Forall2 (trade_reports ticker id side broker) fs ts -> Forall trade_readable ts.
Proof. induction 1; constructor; [by eapply reports_readable|done]. Qed.

Lemma engine_wf_update me srv events sym lob' calls :
  engine_wf me -> is_Some (limit_order_books me !! sym) -> book_wf lob' -> lob_ticker lob' = sym ->
  Forall trade_readable events ->
  engine_wf (with_books me srv events (<[sym := lob']> (limit_order_books me)) calls).
Proof.
  intros [Hb Hp He] Hs Hwf Ht Hev. split; simpl; [|by intros sym' [<-|?]%lookup_insert_is_Some'; apply Hp|done].
  - intros sym' lob [[<- <-]|[Hne Hl]]%lookup_insert_Some; [done|by apply Hb].
Qed.

Definition order_price (c : NewOrderSingleContainer) : Z :=
  default (if side_is_bid (no_side c) then MARKET_BID_ORDER_PRICE else MARKET_ASK_ORDER_PRICE)
    (no_price c).

(** A new order that meets the book's contract. *)
Lemma new_order_executes me c lob id :
  env_ok env -> engine_wf me -> no_order_id c = Some id ->
  limit_order_books me !! no_symbol c = Some lob ->
  order_ok lob id (order_price c) (no_order_qty c) (no_sender_comp_id c) ->
  exists me' lob' ts fs left sent,
    process_container env me (CNewOrderSingle c) = Ok me' /\ engine_wf me' /\
    limit_order_books me' = <[no_symbol c := lob']> (limit_order_books me) /\
    match_orders (no_side c) (order_price c) (no_order_qty c) (orders_of lob (opposite (no_side c)))
      = (fs, orders_of lob' (opposite (no_side c)), left) /\
    orders_of lob' (no_side c) =
      rest_order (mkOrder id (order_price c) left (no_side c) (no_sender_comp_id c))
        (orders_of lob (no_side c)) /\
    Forall2 (trade_reports (no_symbol c) id (no_side c) (no_sender_comp_id c)) fs ts /\
    trade_events me ++ ts = sent ++ trade_events me' /\
    sends (inbound_server me) (inbound_server me') (order_response_connection_id me)
      (map trade_message sent).
Proof.
  intros Henv Hwf Hid Hlob Hok. destruct (ew_books _ Hwf _ _ Hlob) as [Hbw Htk].
  destruct (add_order_correct env Henv lob (trade_events me) (trade_calls me) _ _ _ (no_side c) _ Hbw Hok)
    as (lob' & ts & fs & left & Hadd & Hm & Hnear & HF & _ & Htk' & Hbw').
  rewrite Htk in HF. assert (Forall trade_readable (trade_events me ++ ts)) as Hread.
  { apply Forall_app. split; [apply Hwf|by eapply reports_all_readable]. }
  destruct (send_trades_ok (order_response_connection_id me) _ (inbound_server me) Hread)
    as (srv' & sent & pending & Hst & Hsplit & Hsends).
  eexists _, lob', ts, fs, left, sent. split; [|split].
  - simpl. unfold new_order_handler. rewrite Hid. simpl. rewrite Hlob. simpl.
    fold (order_price c). rewrite Hadd. simpl. rewrite Hst. done.
  - apply engine_wf_update; try done; [congruence|].
    rewrite Hsplit in Hread. by apply Forall_app in Hread as [_ ?].
  - by do 5 (split; [done|]).
Qed.

(** C10: a new order is executed and announced.  For an active symbol and an
    order that meets the book's contract, the engine returns in a well-formed
    state; the symbol's book changes as price-time priority says, no other book
    changes; the trades that were waiting and the new trades, in order, are split
    into a prefix that was sent on the response connection and a rest that still
    waits, so no trade is lost, repeated or reordered when a send fails. *)
Theorem engine_new_order me c lob id :
  env_ok env -> engine_wf me -> no_order_id c = Some id ->
  limit_order_books me !! no_symbol c = Some lob ->
  order_ok lob id (order_price c) (no_order_qty c) (no_sender_comp_id c) ->
  exists me' lob' ts fs left sent,
    process_container env me (CNewOrderSingle c) = Ok me' /\ engine_wf me' /\
    limit_order_books me' = <[no_symbol c := lob']> (limit_order_books me) /\
    match_orders (no_side c) (order_price c) (no_order_qty c) (orders_of lob (opposite (no_side c)))
      = (fs, orders_of lob' (opposite (no_side c)), left) /\
    orders_of lob' (no_side c) =
      rest_order (mkOrder id (order_price c) left (no_side c) (no_sender_comp_id c))
        (orders_of lob (no_side c)) /\
    Forall2 (trade_reports (no_symbol c) id (no_side c) (no_sender_comp_id c)) fs ts /\
    trade_events me ++ ts = sent ++ trade_events me' /\
    sends (inbound_server me) (inbound_server me') (order_response_connection_id me)
      (map trade_message sent).
Proof. apply new_order_executes. Qed.

(** A cancel request for an active symbol is answered truthfully.  The engine
    returns in a well-formed state; the order is removed from its book when it is
    resting there and nothing changes when it is not; the response, with the
    request's ids and whether the order was there, goes to the response
    connection (or is dropped, when that send fails). *)
Theorem engine_cancel me c lob id :
  engine_wf me -> cr_order_id c = Some id ->
  limit_order_books me !! cr_symbol c = Some lob ->
  exists me' lob',
    process_container env me (CCancelOrderRequest c) = Ok me' /\ engine_wf me' /\
    limit_order_books me' = <[cr_symbol c := lob']> (limit_order_books me) /\
    trade_events me' = trade_events me /\
    (forall side, orders_of lob' side = remove_order id (orders_of lob side)) /\
    order_id_exists lob' id = false /\
    (order_id_exists lob id = false -> lob' = lob) /\
    exists outs, sends (inbound_server me) (inbound_server me') (order_response_connection_id me) outs /\
      (outs = [] \/ outs = [serialize_container (CCancelOrderResponse
         (mkCancelResponse id (cr_cl_ord_id c) (order_id_exists lob id)))]).
Proof.
  intros Hwf Hid Hlob. destruct (ew_books _ Hwf _ _ Hlob) as [Hbw Htk].
  simpl. unfold cancel_order_handler. rewrite Hid. simpl. rewrite Hlob. simpl.
  assert (exists lob', (if order_id_exists lob id then cancel_order lob id else Ok lob) = Ok lob' /\
    (forall side, orders_of lob' side = remove_order id (orders_of lob side)) /\
    order_id_exists lob' id = false /\ (order_id_exists lob id = false -> lob' = lob) /\
    book_wf lob' /\ lob_ticker lob' = cr_symbol c) as (lob' & -> & Ho & Hex & Hsame & Hbw' & Htk').
  { destruct (order_id_exists lob id) eqn:He; unfold order_id_exists in *.
    - rewrite bool_decide_eq_true in He. destruct He as [a Ha].
      destruct (cancel_order_correct lob id a Hbw Ha) as (lob' & Hc & Ho & Hm & Ht' & _ & Hwf').
      exists lob'. rewrite Hm, Ht', lookup_delete_eq. by do 5 (split; [done|]).
    - exists lob. split; [done|]. split; [|by do 3 (split; [done|])].
      rewrite bool_decide_eq_false in He. intros side. symmetry.
      apply remove_order_absent, book_fresh_ids; [done|]. by apply eq_None_not_Some. }
  simpl. destruct (is_send _ _ _ _) as [srv ok] eqn:Hs. apply is_send_sends in Hs.
  eexists _, lob'. split; [done|]. split; [|split; [done|split; [done|]]].
  - apply engine_wf_update; try done. apply Hwf.
  - do 3 (split; [done|]). eexists. split; [exact Hs|]. destruct ok; auto.
Qed.

(** A fill cost query is answered on the request connection with exactly what
    [get_fill_cost] computes on the symbol's book, and changes nothing else. *)
Theorem engine_fill_cost me c lob cost :
  limit_order_books me !! fq_symbol c = Some lob ->
  get_fill_cost lob (fq_quantity c) (fq_side c) = Ok cost ->
  exists srv outs,
    process_container env me (CFillCostQuery c) = Ok (with_server me srv) /\
    sends (inbound_server me) srv (incoming_request_connection_id me) outs /\
    (outs = [] \/ outs = [serialize_container (CFillCostResponse (mkFillCostResponse cost))]).
Proof.
  intros Hlob Hcost. simpl. unfold fill_cost_query_handler. rewrite Hlob. simpl. rewrite Hcost. simpl.
  destruct (is_send _ _ _ _) as [srv ok] eqn:Hs. apply is_send_sends in Hs.
  eexists srv, _. split; [done|]. split; [exact Hs|]. destruct ok; auto.
Qed.

(** The symbol that a request names. *)
Definition request_symbol (c : Container) : option string :=
  match c with
  | CNewOrderSingle c => Some (no_symbol c)
  | CCancelOrderRequest c => Some (cr_symbol c)
  | CFillCostQuery c => Some (fq_symbol c)
  | _ => None
  end.

Definition request_has_id (c : Container) : bool :=
  match c with
  | CNewOrderSingle c => bool_decide (is_Some (no_order_id c))
  | CCancelOrderRequest c => bool_decide (is_Some (cr_order_id c))
  | _ => true
  end.

(** C40: a request that names a symbol without a book ends the engine: the [at]
    call throws and nothing between it and [run] catches.  A new order or cancel
    request without an order id violates a contract.  Containers that are no
    request are ignored. *)
Theorem engine_bad_requests me c :
  match request_symbol c with
  | None => process_container env me c = Ok me
  | Some sym =>
      (request_has_id c = false -> process_container env me c = Err ContractViolation) /\
      (request_has_id c = true -> limit_order_books me !! sym = None ->
       process_container env me c = Err OutOfRange)
  end.
Proof.
  destruct c as [c|c|c|c|c|c|c]; simpl; try done.
  - unfold new_order_handler. destruct (no_order_id c); simpl; split; try done.
    intros _ Hn. by rewrite Hn.
  - unfold cancel_order_handler. destruct (cr_order_id c); simpl; split; try done.
    intros _ Hn. by rewrite Hn.
  - split; [done|]. intros _ Hn. unfold fill_cost_query_handler. by rewrite Hn.
Qed.

(** ** The invariant along the engine's runs *)

(** What the types of a container's fields and the width of the name array ask. *)
Definition container_fits (c : Container) : Prop :=
  match c with
  | CNewOrderSingle c =>
      from_option in_i32 true (no_price c) = true /\ in_i32 (no_order_qty c) = true /\
      fits MAX_USERNAME_LENGTH (no_sender_comp_id c) = true
  | _ => True
  end.

Lemma new_order_handler_wf me c me' :
  env_ok env -> engine_wf me -> container_fits (CNewOrderSingle c) ->
  new_order_handler env me c = Ok me' -> engine_wf me'.
Proof.
  intros Henv Hwf (Hp & Hq & Hb) Hh. unfold new_order_handler in Hh.
  apply bind_ok in Hh as (id & _ & Hh). apply bind_ok in Hh as (lob & Hlob%get_or_ok & Hh).
  apply bind_ok in Hh as ([[lob1 events1] calls1] & Hadd & Hh).
  apply bind_ok in Hh as ([srv events2] & Hst & [= <-]).
  destruct (ew_books _ Hwf _ _ Hlob) as [Hbw Htk]. fold (order_price c) in Hadd.
  assert (in_i32 (order_price c) = true) as Hp'
    by (unfold order_price; destruct (no_price c); [done|by destruct (no_side c)]).
  pose proof (add_order_contract env _ _ _ _ _ _ _ _ _ Hadd Hp' Hq Hb) as Hok.
  destruct (add_order_correct env Henv lob (trade_events me) (trade_calls me) _ _ _ (no_side c) _ Hbw Hok)
    as (lob' & ts & fs & left & Hadd' & _ & _ & HF & _ & Htk' & Hbw').
  rewrite Hadd in Hadd'. injection Hadd' as -> -> ->.
  assert (Forall trade_readable (trade_events me ++ ts)) as Hread.
  { apply Forall_app. split; [apply Hwf|by eapply reports_all_readable]. }
  destruct (send_trades_ok (order_response_connection_id me) _ (inbound_server me) Hread)
    as (srv' & sent & pending & Hst' & Hsplit & _). rewrite Hst in Hst'. injection Hst' as -> ->.
  apply engine_wf_update; try done; [congruence|].
  rewrite Hsplit in Hread. by apply Forall_app in Hread as [_ ?].
Qed.

Lemma engine_wf_with_server me srv : engine_wf me -> engine_wf (with_server me srv).
Proof. by intros [? ? ?]. Qed.

Lemma cancel_order_handler_wf me c me' :
  engine_wf me -> cancel_order_handler me c = Ok me' -> engine_wf me'.
Proof.
  intros Hwf Hh. unfold cancel_order_handler in Hh.
  apply bind_ok in Hh as (id & _ & Hh). apply bind_ok in Hh as (lob & Hlob%get_or_ok & Hh).
  apply bind_ok in Hh as (lob' & Hc & Hh). destruct (is_send _ _ _ _). injection Hh as <-.
  destruct (ew_books _ Hwf _ _ Hlob) as [Hbw Htk].
  assert (book_wf lob' /\ lob_ticker lob' = cr_symbol c) as [? ?].
  { destruct (order_id_exists lob id); [|by injection Hc as <-].
    destruct (cancel_order_contract _ _ _ Hc) as [a Ha].
    destruct (cancel_order_correct lob id a Hbw Ha) as (? & Hc' & _ & _ & Ht' & _ & ?).
    rewrite Hc in Hc'. injection Hc' as <-. by rewrite Ht'. }
  apply engine_wf_update; try done. apply Hwf.
Qed.

Lemma process_container_wf me c me' :
  env_ok env -> engine_wf me -> container_fits c ->
  process_container env me c = Ok me' -> engine_wf me'.
Proof.
  intros Henv Hwf Hf Hp. destruct c as [c|c|c|c|c|c|c]; simpl in Hp; try (by injection Hp as <-).
  - by eapply new_order_handler_wf.
  - by eapply cancel_order_handler_wf.
  - unfold fill_cost_query_handler in Hp. apply bind_ok in Hp as (? & _ & Hp).
    apply bind_ok in Hp as (? & _ & Hp). destruct (is_send _ _ _ _). injection Hp as <-.
    by apply engine_wf_with_server.
Qed.

(** ** Flushing snapshots *)
Definition snapshot_of (now_ms : Z) (lob : LimitOrderBook P) (s : TopOrderBookLevelAggregates) : Prop :=
  get_top_order_book_level_aggregate lob now_ms = Ok s /\
  read_cstr (top_ticker s) = Ok (lob_ticker lob) /\
  top_bids s = side_view lob bid /\ top_asks s = side_view lob ask.

(** Tickers of at most three characters, level quantities that fit an [int]. *)
Definition flushable (lob : LimitOrderBook P) : Prop :=
  (strlen (lob_ticker lob) <= 3)%nat /\ levels_bounded (lob_bids lob) /\ levels_bounded (lob_asks lob).

Lemma snapshot_exists lob now_ms :
  book_wf lob -> flushable lob -> exists s, snapshot_of now_ms lob s.
Proof.
  intros Hwf (H3 & Hb & Ha). unfold snapshot_of, get_top_order_book_level_aggregate.
  destruct (snapshot_ctor_short (lob_ticker lob) now_ms (bw_ticker _ Hwf) H3) as (t & -> & Ht).
  cbn [mbind res_bind top_bids top_asks].
  rewrite (fill_aggregates_ok lob bid Hwf Hb). cbn [mbind res_bind].
  rewrite (fill_aggregates_ok lob ask Hwf Ha). cbn [mbind res_bind]. eauto 6.
Qed.

(** What a flush makes of the publishers, whatever order it visits the books in. *)
Definition published_snapshots (now_ms : Z) (books : list (string * LimitOrderBook P))
    (pubs pubs' : gmap string Q) : Prop :=
  (forall sym lob, (sym, lob) ∈ books -> exists p s, pubs !! sym = Some p /\ snapshot_of now_ms lob s /\
     pubs' !! sym = Some (try_publish p s).1) /\
  (forall sym, sym ∉ books.*1 -> pubs' !! sym = pubs !! sym).

Lemma flush_loop now_ms books : forall pubs,
  NoDup books.*1 -> (forall sym lob, (sym, lob) ∈ books ->
    book_wf lob /\ flushable lob /\ is_Some (pubs !! sym)) ->
  exists pubs', foldM (flush_symbol now_ms) pubs books = Ok pubs' /\
    published_snapshots now_ms books pubs pubs'.
Proof.
  induction books as [|[sym lob] books IH]; intros pubs Hnd Hok; cbn [foldM].
  { exists pubs. split; [done|]. split; [|done]. by intros ? ? ?%elem_of_nil. }
  apply NoDup_cons in Hnd as [Hni Hnd].
  destruct (Hok sym lob) as (Hwf & Hfl & p & Hp); [left|].
  destruct (snapshot_exists lob now_ms Hwf Hfl) as (s & Hs).
  assert (flush_symbol now_ms pubs (sym, lob) = Ok (<[sym := (try_publish p s).1]> pubs)) as ->
    by (unfold flush_symbol; cbn [fst snd]; rewrite (proj1 Hs); cbn [mbind res_bind]; by rewrite Hp).
  cbn [mbind res_bind].
  destruct (IH (<[sym := (try_publish p s).1]> pubs) Hnd) as (pubs' & -> & Hin & Hout).
  { intros sym' lob' Hin. destruct (Hok sym' lob') as (? & ? & ?); [by right|].
    do 2 (split; [done|]). apply lookup_insert_is_Some'. auto. }
  exists pubs'. split; [done|]. split.
  - intros sym' lob' [[= -> ->]|Hin']%elem_of_cons.
    + exists p, s. do 2 (split; [done|]). by rewrite Hout, lookup_insert_eq.
    + destruct (Hin sym' lob' Hin') as (p' & s' & Hp' & ? & ?). exists p', s'.
      rewrite lookup_insert_ne in Hp'; [done|]. intros <-. apply Hni.
      by apply (list_elem_of_fmap_2 fst _ (sym, lob')).
  - intros sym' [Hne Hn]%not_elem_of_cons. rewrite Hout by done. by rewrite lookup_insert_ne.
Qed.

(** A flush publishes, for every symbol, one snapshot of that symbol's book
    (its ticker and the aggregates of its best levels) to that symbol's
    publisher, and touches no other state. *)
Theorem flush_publishes me now now_ms :
  engine_wf me -> (forall sym lob, limit_order_books me !! sym = Some lob -> flushable lob) ->
  exists me', flush me now now_ms = Ok me' /\
    (forall sym lob, limit_order_books me !! sym = Some lob ->
       exists p s, orderbook_snapshot_publishers me !! sym = Some p /\ snapshot_of now_ms lob s /\
         orderbook_snapshot_publishers me' !! sym = Some (try_publish p s).1) /\
    limit_order_books me' = limit_order_books me /\ trade_events me' = trade_events me /\
    inbound_server me' = inbound_server me /\ last_flush me' = now.
Proof.
  intros Hwf Hfl. unfold flush.
  destruct (flush_loop now_ms (map_to_list (limit_order_books me)) (orderbook_snapshot_publishers me))
    as (pubs' & -> & Hin & _).
  - apply NoDup_fst_map_to_list.
  - intros sym lob Hl%elem_of_map_to_list. destruct (ew_books _ Hwf _ _ Hl) as [? _].
    do 2 (split; [by eauto|]). apply Hwf. by eexists.
  - simpl. eexists. split; [done|]. split; [|done].
    intros sym lob Hl. by apply Hin, elem_of_map_to_list.
Qed.

Lemma flush_wf me now now_ms me' : engine_wf me -> flush me now now_ms = Ok me' -> engine_wf me'.
Proof.
  intros [Hb Hp He] Hf. unfold flush in Hf. apply bind_ok in Hf as (pubs & Hpubs & [= <-]).
  split; simpl; try done. intros sym Hs%Hp. revert sym Hs.
  refine (foldM_inv (fun pubs' => forall sym, is_Some (orderbook_snapshot_publishers me !! sym) ->
    is_Some (pubs' !! sym)) (flush_symbol now_ms) _ _ _ _ _ Hpubs); [|done].
  intros [sym lob] p1 p2 _ IH Hf sym' Hs. unfold flush_symbol in Hf. ok_inv.
  apply lookup_insert_is_Some'. auto.
Qed.

(** The states of an engine: the network may change the server's queues and open
    connections between iterations. *)
Inductive engine_reachable : MatchingEngine L P Q -> Prop :=
  | er_new srv ctp csp symbols interval start :
      Forall (fun s => fits MAX_TICKER_LENGTH s = true) symbols ->
      engine_reachable (new_engine srv ctp csp symbols interval start)
  | er_connection me md : engine_reachable me -> engine_reachable (on_connection md me)
  | er_network me srv : engine_reachable me -> engine_reachable (with_server me srv)
  | er_run me now now_ms me' :
      engine_reachable me ->
      (forall m c, head (queued_on (inbound_server me) (incoming_request_connection_id me)) = Some m ->
         deserialize_container m = Ok c -> container_fits c) ->
      run_iteration env me now now_ms = Ok me' -> engine_reachable me'.

Lemma new_engine_wf srv ctp csp symbols interval start :
  Forall (fun s => fits MAX_TICKER_LENGTH s = true) symbols ->
  engine_wf (new_engine srv ctp csp symbols interval start : MatchingEngine L P Q).
Proof.
  intros Hs. unfold new_engine. set (step := add_symbol ctp csp).
  assert (forall syms (bp : gmap string (LimitOrderBook P) * gmap string Q),
    Forall (fun s => fits MAX_TICKER_LENGTH s = true) syms ->
    (forall sym lob, bp.1 !! sym = Some lob -> book_wf lob /\ lob_ticker lob = sym) ->
    (forall sym, is_Some (bp.1 !! sym) -> is_Some (bp.2 !! sym)) ->
    (forall sym lob, (foldl step bp syms).1 !! sym = Some lob -> book_wf lob /\ lob_ticker lob = sym) /\
    (forall sym, is_Some ((foldl step bp syms).1 !! sym) -> is_Some ((foldl step bp syms).2 !! sym)))
    as Hloop.
  { intros syms. induction syms as [|s syms IH]; intros bp HF Hb Hp; simpl; [done|].
    apply Forall_cons in HF as [Hf HF]. destruct bp as [books pubs].
    apply IH; [done|..]; unfold step, add_symbol, map_emplace; simpl in *.
    - intros sym lob. destruct (books !! s) eqn:E; [by apply Hb|].
      intros [[<- <-]|[? ?]]%lookup_insert_Some; [|by apply Hb]. split; [by apply new_book_wf|done].
    - intros sym Hsm. assert (s = sym \/ is_Some (books !! sym)) as [<-|Hsm'].
      { destruct (books !! s); [by right|]. by apply lookup_insert_is_Some' in Hsm. }
      + destruct (pubs !! s) eqn:E; [by rewrite E|]. by rewrite lookup_insert_eq.
      + destruct (pubs !! s); [by apply Hp|]. apply lookup_insert_is_Some'. auto. }
  destruct (Hloop symbols (∅, ∅) Hs) as [Hb Hp].
  - intros sym lob. simpl. by rewrite lookup_empty.
  - intros sym. simpl. rewrite lookup_empty. by intros [].
  - by split.
Qed.

(** C18: the engine's invariant holds in every state it reaches: each book is
    well-formed and filed under its own ticker, each symbol with a book has a
    snapshot publisher, and every trade that waits to be sent can be read back
    from its arrays. *)
Theorem engine_invariant me : env_ok env -> engine_reachable me -> engine_wf me.
Proof.
  intros Henv Hr. induction Hr as [|me md _ IH|me srv _ IH|me now now_ms me' _ IH Hfit Hrun].
  - by apply new_engine_wf.
  - unfold on_connection. destruct (String.eqb _ _), IH; [by split|].
    destruct (String.eqb _ _); by split.
  - by apply engine_wf_with_server.
  - unfold run_iteration in Hrun. destruct (is_dequeue_message _ _) as [srv msg] eqn:Hd.
    apply is_dequeue_law in Hd as (Hmsg & _). rewrite <- Hmsg in Hfit.
    apply bind_ok in Hrun as (me1 & Hpr & Hrun). assert (engine_wf me1) as Hwf1.
    { destruct msg as [m|]; [|injection Hpr as <-; by apply engine_wf_with_server].
      apply bind_ok in Hpr as (c & Hc & Hp). eapply process_container_wf; [done| |by eapply Hfit|done].
      by apply engine_wf_with_server. }
    destruct (_ <? _); [by eapply flush_wf|by injection Hrun as <-].
Qed.
End Theorems.

(** ** The theorems on a concrete engine

    One symbol with the book of [BookTheorems]; request connection 0 and response
    connection 1; the codec of [Messaging]. *)
#[local] Existing Instance toy_codec.

Definition two_connections : WebsocketManager unit :=
  mkManager () {[ 0 := new_metadata 0 10 "uri"; 1 := new_metadata 1 11 "uri" ]} {[ 10%nat := 0; 11%nat := 1 ]}
    2 [].

Definition sample_engine :
    MatchingEngine (WebsocketManager unit) (list Trade) (list TopOrderBookLevelAggregates) :=
  mkEngine 0 1 two_connections {[ "GME"%string := [] ]} 1000 [] {[ "GME"%string := sample_book ]} 0 0.

Lemma sample_engine_wf : engine_wf sample_engine.
Proof.
  split; simpl.
  - intros sym lob [<- <-]%lookup_singleton_Some. split; [exact sample_book_wf|done].
  - intros sym [? [<- <-]%lookup_singleton_Some]. by eexists.
  - constructor.
Qed.

Definition erin_container : NewOrderSingleContainer :=
  mkNewOrder "erin" "OM" (Some 9) 9 "GME" bid 12 limit (Some 103) day.

Lemma engine_new_order_witness :
  exists me' lob' ts fs left sent,
    process_container sample_env sample_engine (CNewOrderSingle erin_container) = Ok me' /\
    engine_wf me' /\
    limit_order_books me' = <["GME"%string := lob']> (limit_order_books sample_engine) /\
    match_orders bid (order_price erin_container) 12 (orders_of sample_book (opposite bid))
      = (fs, orders_of lob' (opposite bid), left) /\
    orders_of lob' bid =
      rest_order (mkOrder 9 (order_price erin_container) left bid "erin") (orders_of sample_book bid) /\
    Forall2 (trade_reports "GME" 9 bid "erin") fs ts /\
    trade_events sample_engine ++ ts = sent ++ trade_events me' /\
    sends (inbound_server sample_engine) (inbound_server me') 1 (map trade_message sent).
Proof.
  apply (engine_new_order sample_env sample_engine erin_container sample_book 9);
    [exact sample_env_ok|exact sample_engine_wf|reflexivity|reflexivity|exact erin_order_ok].
Defined.

Definition cancel_container : CancelOrderRequestContainer :=
  mkCancelRequest "bob" "OM" (Some 1) 1 77 "GME" ask 7.

Lemma engine_cancel_witness :
  exists me' lob',
    process_container sample_env sample_engine (CCancelOrderRequest cancel_container) = Ok me' /\
    engine_wf me' /\
    limit_order_books me' = <["GME"%string := lob']> (limit_order_books sample_engine) /\
    trade_events me' = trade_events sample_engine /\
    (forall side, orders_of lob' side = remove_order 1 (orders_of sample_book side)) /\
    order_id_exists lob' 1 = false /\
    (order_id_exists sample_book 1 = false -> lob' = sample_book) /\
    exists outs, sends (inbound_server sample_engine) (inbound_server me') 1 outs /\
      (outs = [] \/ outs = [serialize_container (CCancelOrderResponse
         (mkCancelResponse 1 77 (order_id_exists sample_book 1)))]).
Proof.
  apply (engine_cancel sample_env sample_engine cancel_container sample_book 1);
    [exact sample_engine_wf|reflexivity|reflexivity].
Defined.

Lemma engine_fill_cost_witness :
  exists srv outs,
    process_container sample_env sample_engine (CFillCostQuery (mkFillCostQuery "GME" 20 ask))
      = Ok (with_server sample_engine srv) /\
    sends (inbound_server sample_engine) srv 0 outs /\
    (outs = [] \/ outs = [serialize_container (CFillCostResponse (mkFillCostResponse (Some 2015)))]).
Proof.
  apply (engine_fill_cost sample_env sample_engine (mkFillCostQuery "GME" 20 ask) sample_book (Some 2015));
    [reflexivity|vm_compute; reflexivity].
Defined.

Lemma sample_flushable sym lob :
  limit_order_books sample_engine !! sym = Some lob -> flushable lob.
Proof.
  simpl. intros [<- <-]%lookup_singleton_Some. split; [vm_compute; lia|].
  split; [exact (sample_bounded bid)|exact (sample_bounded ask)].
Qed.

Lemma flush_publishes_witness :
  exists me', flush sample_engine 5000 1700000000000 = Ok me' /\
    (forall sym lob, limit_order_books sample_engine !! sym = Some lob ->
       exists p s, orderbook_snapshot_publishers sample_engine !! sym = Some p /\
         snapshot_of 1700000000000 lob s /\
         orderbook_snapshot_publishers me' !! sym = Some (try_publish p s).1) /\
    limit_order_books me' = limit_order_books sample_engine /\
    trade_events me' = trade_events sample_engine /\
    inbound_server me' = inbound_server sample_engine /\ last_flush me' = 5000.
Proof.
  apply (flush_publishes sample_engine 5000 1700000000000); [exact sample_engine_wf|exact sample_flushable].
Defined.

(** Two symbols, and the order manager connects for requests. *)
Definition fresh_engine :
    MatchingEngine (WebsocketManager unit) (list Trade) (list TopOrderBookLevelAggregates) :=
  on_connection (mkMetadata 0 10 open "uri" "order_request" "" [] [])
    (new_engine two_connections (fun _ => []) (fun _ => []) ["GME"%string; "AMC"%string] 1000 0).

Lemma fresh_engine_reachable : engine_reachable sample_env fresh_engine.
Proof. apply er_connection, er_new. by repeat constructor. Qed.

Lemma engine_invariant_witness : engine_wf fresh_engine.
Proof. apply (engine_invariant sample_env); [exact sample_env_ok|exact fresh_engine_reachable]. Defined.
