(* ===== verification/BalanceChecker.v ===== *)
(** * The order manager's balance checker

    [services/order_manager/src/balance_checker.{h,cpp}].  While Boost.Contract
    evaluates an assertion it disables the contracts of the functions called
    there, so the calls inside preconditions run the bodies only
    ([owns_ticker_body]); the [assert] in [update_balance] is a plain assertion,
    so the contracts of [has_sufficient_balance] are live in it. *)

From S2P Require Import Prelude.
From Stdlib Require Import ZArith Lia Ascii String.
From stdpp Require Import base option list gmap strings fin_maps.

Open Scope Z_scope.

Abbreviation BalanceChecker := (gmap string (gmap string Z)).

Implicit Types (bc : BalanceChecker) (broker_id ticker : string).

Definition broker_id_exists bc broker_id : bool := bool_decide (is_Some (bc !! broker_id)).

Definition owns_ticker_body bc broker_id ticker : res bool :=
  m ← at_ (bc !! broker_id);
  Ok (bool_decide (is_Some (m !! ticker))).

Definition broker_owns_ticker bc broker_id ticker : res bool :=
  _ ← contract (broker_id_exists bc broker_id);
  _ ← contract (negb (String.eqb ticker ""));
  owns_ticker_body bc broker_id ticker.

(** The common preconditions of the two queries below. *)
Definition requires_record bc broker_id ticker : res unit :=
  _ ← contract (broker_id_exists bc broker_id);
  owns ← owns_ticker_body bc broker_id ticker;
  contract owns.

Definition get_balance bc broker_id ticker : res Z :=
  _ ← requires_record bc broker_id ticker;
  m ← at_ (bc !! broker_id);
  rtn ← at_ (m !! ticker);
  _ ← contract (0 <=? rtn);
  Ok rtn.

Definition has_sufficient_balance bc broker_id ticker (delta : Z) : res bool :=
  _ ← requires_record bc broker_id ticker;
  balance ← get_balance bc broker_id ticker;
  sum ← add64 balance delta;
  Ok (0 <=? sum).

Definition update_balance bc broker_id ticker (delta : Z) : res BalanceChecker :=
  _ ← contract (negb (String.eqb ticker ""));
  match bc !! broker_id with
  | Some m =>
      match m !! ticker with
      | Some v =>
          sufficient ← has_sufficient_balance bc broker_id ticker delta;
          _ ← cassert sufficient;
          v' ← add64 v delta;
          Ok (<[broker_id := <[ticker := v']> m]> bc)
      | None => Ok (<[broker_id := <[ticker := delta]> m]> bc)
      end
  | None => Ok (<[broker_id := {[ticker := delta]}]> bc)
  end.

(** ** What the checker means: a balance per broker and ticker *)
Definition balance_of bc broker_id ticker : Z :=
  default 0 (bc !! broker_id ≫= fun m => m !! ticker).

Definition owns bc broker_id ticker : Prop := is_Some (bc !! broker_id ≫= fun m => m !! ticker).

(** Every recorded balance is a non-negative 64-bit integer. *)
Definition balances_wf bc : Prop :=
  forall b t v, bc !! b ≫= (fun m => m !! t) = Some v -> 0 <= v <= INT64_MAX.

Lemma owns_lookup bc b t : owns bc b t -> exists m v, bc !! b = Some m /\ m !! t = Some v.
Proof. unfold owns. destruct (bc !! b) as [m|]; simpl; [|by intros []]. intros [v ?]. eauto. Qed.

Lemma balance_nonneg bc b t : balances_wf bc -> 0 <= balance_of bc b t <= INT64_MAX.
Proof.
  intros Hwf. unfold balance_of. destruct (bc !! b ≫= _) as [v|] eqn:E; simpl.
  - by eapply Hwf.
  - unfold INT64_MAX. lia.
Qed.

Lemma owns_ticker_body_ok bc b t : owns bc b t -> owns_ticker_body bc b t = Ok true.
Proof.
  intros (m & v & Hm & Hv)%owns_lookup. unfold owns_ticker_body. rewrite Hm. simpl. by rewrite Hv.
Qed.

Lemma broker_owns_ticker_ok bc b t :
  is_Some (bc !! b) -> t <> ""%string ->
  broker_owns_ticker bc b t = Ok (bool_decide (owns bc b t)).
Proof.
  intros [m Hm] Ht. unfold broker_owns_ticker, broker_id_exists, owns_ticker_body, owns.
  rewrite Hm. simpl. rewrite (proj2 (String.eqb_neq _ _)) by done. done.
Qed.

Lemma requires_record_ok bc b t : owns bc b t -> requires_record bc b t = Ok tt.
Proof.
  intros Ho. unfold requires_record, broker_id_exists.
  destruct (owns_lookup _ _ _ Ho) as (m & v & Hm & Hv).
  rewrite bool_decide_eq_true_2 by (by rewrite Hm). simpl. by rewrite owns_ticker_body_ok.
Qed.

Lemma get_balance_ok bc b t :
  balances_wf bc -> owns bc b t -> get_balance bc b t = Ok (balance_of bc b t).
Proof.
  intros Hwf Ho. unfold get_balance. rewrite requires_record_ok by done. simpl.
  destruct (owns_lookup _ _ _ Ho) as (m & v & Hm & Hv). unfold balance_of.
  specialize (Hwf b t v). rewrite Hm in *. simpl in *. rewrite Hv in *. simpl.
  rewrite (proj2 (Z.leb_le _ _)); [done|]. by apply Hwf.
Qed.

Lemma has_sufficient_balance_ok bc b t delta :
  balances_wf bc -> owns bc b t -> INT64_MIN <= balance_of bc b t + delta <= INT64_MAX ->
  has_sufficient_balance bc b t delta = Ok (0 <=? balance_of bc b t + delta).
Proof.
  intros Hwf Ho Hb. unfold has_sufficient_balance. rewrite requires_record_ok by done. simpl.
  rewrite get_balance_ok by done. simpl. unfold add64. by rewrite i64_ok.
Qed.

(** The balances after an update. *)
Definition credited bc (b t : string) (delta : Z) bc' : Prop :=
  forall b' t', balance_of bc' b' t' =
    balance_of bc b' t' + if decide (b' = b /\ t' = t) then delta else 0.

Definition grows bc bc' : Prop := forall b t, owns bc b t -> owns bc' b t.

Lemma set_balance bc b t v m :
  m = default ∅ (bc !! b) ->
  forall b' t', <[b := <[t := v]> m]> bc !! b' ≫= (fun m => m !! t') =
    if decide (b' = b /\ t' = t) then Some v else bc !! b' ≫= (fun m => m !! t').
Proof.
  intros -> b' t'. destruct (decide (b' = b)) as [->|Hb].
  - rewrite lookup_insert_eq. simpl. destruct (decide (t' = t)) as [->|Ht].
    + rewrite lookup_insert_eq, decide_True by done. done.
    + rewrite lookup_insert_ne by done. rewrite decide_False by naive_solver.
      destruct (bc !! b) as [m|]; simpl; [done|]. by rewrite lookup_empty.
  - rewrite lookup_insert_ne by done. by rewrite decide_False by naive_solver.
Qed.

(** An update that leaves a non-negative balance returns, and changes exactly one
    balance. *)
Lemma update_balance_ok bc b t delta :
  balances_wf bc -> t <> ""%string -> 0 <= balance_of bc b t + delta <= INT64_MAX ->
  exists bc', update_balance bc b t delta = Ok bc' /\ balances_wf bc' /\
    credited bc b t delta bc' /\ grows bc bc' /\ owns bc' b t.
Proof.
  intros Hwf Ht Hb.
  assert (forall v m, m = default ∅ (bc !! b) -> v = balance_of bc b t + delta ->
    let bc' := <[b := <[t := v]> m]> bc in
    balances_wf bc' /\ credited bc b t delta bc' /\ grows bc bc' /\ owns bc' b t) as Hset.
  { intros v m Hm Hv bc'. pose proof (set_balance bc b t v m Hm) as Hl. fold bc' in Hl.
    unfold balances_wf, credited, grows, owns, balance_of. setoid_rewrite Hl.
    split; [|split; [|split]].
    - intros b' t' w. case_decide as Hd; [intros [= <-]; lia|apply Hwf].
    - intros b' t'. case_decide as Hd; [|lia]. destruct Hd as [-> ->]. simpl. done.
    - intros b' t'. by case_decide.
    - by rewrite decide_True. }
  unfold update_balance. rewrite (proj2 (String.eqb_neq _ _)) by done. simpl.
  destruct (bc !! b) as [m|] eqn:Hm.
  - destruct (m !! t) as [v|] eqn:Hv.
    + assert (owns bc b t) as Ho by (unfold owns; rewrite Hm; simpl; by rewrite Hv).
      assert (balance_of bc b t = v) as Hbv by (unfold balance_of; rewrite Hm; simpl; by rewrite Hv).
      rewrite has_sufficient_balance_ok by (done || unfold INT64_MIN; lia). simpl.
      rewrite (proj2 (Z.leb_le _ _)) by lia. simpl. unfold add64. rewrite i64_ok by (unfold INT64_MIN; lia).
      simpl. eexists. split; [done|]. apply Hset; [done|lia].
    + eexists. split; [done|]. apply Hset; [done|]. unfold balance_of. rewrite Hm. simpl. by rewrite Hv.
  - eexists. split; [done|]. apply (Hset delta ∅); [done|]. unfold balance_of. by rewrite Hm.
Qed.

(** A successful update, seen from its result. *)
Lemma update_balance_inv bc b t delta bc' :
  balances_wf bc -> update_balance bc b t delta = Ok bc' ->
  (owns bc b t \/ 0 <= delta) -> delta <= INT64_MAX ->
  balances_wf bc' /\ credited bc b t delta bc' /\ grows bc bc' /\ owns bc' b t /\
  0 <= balance_of bc b t + delta.
Proof.
  intros Hwf Hup Hd Hmax. assert (t <> ""%string) as Ht.
  { intros ->. by cbv in Hup. }
  assert (0 <= balance_of bc b t + delta <= INT64_MAX) as Hb.
  { unfold update_balance in Hup. rewrite (proj2 (String.eqb_neq _ _)) in Hup by done. simpl in Hup.
    unfold balance_of. unfold owns in Hd. destruct (bc !! b) as [m|] eqn:Hm; simpl in *.
    - destruct (m !! t) as [v|] eqn:Hv; simpl in *.
      + assert (owns bc b t) as Ho by (unfold owns; rewrite Hm; simpl; by rewrite Hv).
        assert (balance_of bc b t = v) as Hbv by (unfold balance_of; rewrite Hm; simpl; by rewrite Hv).
        ok_inv. int_inv. unfold has_sufficient_balance in *. ok_inv.
        rewrite get_balance_ok in * by done. ok_inv. int_inv.
        match goal with H : (0 <=? _) = true |- _ => apply Z.leb_le in H end. lia.
      + destruct Hd as [[]|]; [done|lia].
    - destruct Hd as [[]|]; [done|lia]. }
  destruct (update_balance_ok bc b t delta Hwf Ht Hb) as (bc1 & Hup' & ? & ? & ? & ?).
  rewrite Hup in Hup'. injection Hup' as <-. do 4 (split; [done|]). lia.
Qed.
