(* ===== verification/OrderManager.v ===== *)
(** * The order manager: definitions

    [services/order_manager/src/order_manager.{h,cpp}], the database interface
    [order_manager_database.h] and the gateway callback of [main.cpp].  The
    handlers take and return the parts of the state that the source passes by
    reference; [run] is modelled as its loop body.  A [std::expected] with a
    message is a sum whose right side is the error.  The execution ids that
    [boost::uuids::time_generator_v7] yields are an oracle ([exec_ids]), as is the
    compiled-in [SERVER_NAME]. *)

From S2P Require Import Prelude Core Messaging Concurrency Transport BalanceChecker.
From Stdlib Require Import ZArith Lia Ascii String.
From stdpp Require Import base option list gmap strings fin_maps.

Open Scope Z_scope.

Definition USD_SYMBOL : string := "USD".

Record OrderInfo := mkOrderInfo {
  oi_sender_comp_id : string;
  oi_symbol : string;
  oi_side : Side;
  oi_price : option Z;
  oi_time_in_force : TimeInForce;
  oi_leaves_qty : Z;
  oi_cum_qty : Z;
  oi_avg_px : Z;
  oi_arrival_gateway_id : Z
}.

(** [OrderInfo{}]. *)
Definition empty_order_info : OrderInfo := mkOrderInfo "" "" bid None day 0 0 0 0.

(** [boost::bimap<int, int>]: [insert] does nothing when either key is taken. *)
Record bimap := mkBimap { bm_left : gmap Z Z; bm_right : gmap Z Z }.

Definition bimap_insert (m : bimap) (l r : Z) : bimap :=
  match bm_left m !! l, bm_right m !! r with
  | None, None => mkBimap (<[l := r]> (bm_left m)) (<[r := l]> (bm_right m))
  | _, _ => m
  end.

(** ** order_manager_database.h *)
Record DbBalanceRow := mkBalanceRow { br_symbol : string; br_balance : Z }.
Record DbUserBalanceInfo := mkUserBalance {
  ub_user_id : Z; ub_username : string; ub_balances : list DbBalanceRow
}.

Class OrderManagerDatabase (D : Type) := {
  db_get_all_users_balances_for_server : D -> string -> list DbUserBalanceInfo + string;
  db_get_server : D -> string -> option Z + string;
  db_insert_order : D -> Z -> NewOrderSingleContainer -> bool -> D;
  db_insert_cancel_request : D -> CancelOrderRequestContainer -> bool -> D;
  db_insert_trade : D -> TradeContainer -> D;
  db_insert_cancel_response : D -> CancelOrderResponseContainer -> D;
  db_update_balance : D -> Z -> Z -> string -> Z -> D
}.

(** ** Start-up *)
Definition load_user (bu : BalanceChecker * gmap string Z) (user : DbUserBalanceInfo)
    : res (BalanceChecker * gmap string Z) :=
  foldM (fun bu row =>
           bc ← update_balance bu.1 (ub_username user) (br_symbol row) (br_balance row);
           Ok (bc, match bu.2 !! ub_username user with
                   | Some _ => bu.2
                   | None => <[ub_username user := ub_user_id user]> bu.2
                   end))
    bu (ub_balances user).

Definition init_balance_checker `{OrderManagerDatabase D} (server_name : string)
    (bc : BalanceChecker) (users : gmap string Z) (db : D) : res (BalanceChecker * gmap string Z) :=
  match db_get_all_users_balances_for_server db server_name with
  | inr _ => Err Terminated
  | inl users_balances =>
      _ ← cassert (negb (Nat.eqb (length users_balances) 0));
      foldM load_user (bc, users) users_balances
  end.

(** One of the two loops of [connect_matching_engine]. *)
Fixpoint connect_loop `{OutboundClient C} (attempts : nat) (client : C) (uri name : string)
    : res (C * Z) :=
  match attempts with
  | O => Err AssertionFailed
  | S attempts' =>
      '(client', r) ← oc_connect client uri name;
      match r with
      | Some connection_id => Ok (client', connection_id)
      | None => connect_loop attempts' client' uri name
      end
  end.

(** ** Requests from the gateway *)
Section Requests.
Context {C : Type} `{OutboundClient C} `{ProtoCodec}.

(** The state that [preprocess_container] changes, its [static] counter included. *)
Record Orders := mkOrders {
  order_id_map : bimap;
  order_info_map : gmap Z OrderInfo;
  latest_assigned_order_id : Z
}.

(** [cl_ord_id * max_user_count + user_id]. *)
Definition transformed_cl_ord_id (cl_ord_id user_id : Z) : res Z :=
  p ← mul32 cl_ord_id max_user_count; add32 p user_id.

(** The loop that waits for the fill cost response.  [wait_and_dequeue_message]
    returns no message only when the connection does not exist, and then the
    loop never ends. *)
Definition wait_response (client : C) (connection_id : Z) : res (C * string) :=
  '(client', response) ← oc_wait_and_dequeue_message client connection_id;
  match response with
  | Some m => Ok (client', m)
  | None => Err Blocked
  end.

Definition query_fill_cost (client : C) (connection_id : Z) (new_order : NewOrderSingleContainer)
    : res (C * (option Z + string)) :=
  let query := mkFillCostQuery (no_symbol new_order) (no_order_qty new_order) ask in
  let '(client', ok) := oc_send client connection_id (serialize_container (CFillCostQuery query)) fmt_binary in
  if ok then
    '(client'', message) ← wait_response client' connection_id;
    container ← deserialize_container message;
    match container with
    | CFillCostResponse r => Ok (client'', inl (fr_total_cost r))
    | _ => Err AssertionFailed
    end
  else Ok (client', inr "Order request dropped due to internal reasons"%string).

Definition with_order_id (c : NewOrderSingleContainer) (id : Z) : NewOrderSingleContainer :=
  mkNewOrder (no_sender_comp_id c) (no_target_comp_id c) (Some id) (no_cl_ord_id c) (no_symbol c)
    (no_side c) (no_order_qty c) (no_ord_type c) (no_price c) (no_time_in_force c).

Definition with_cancel_id (c : CancelOrderRequestContainer) (id : Z) : CancelOrderRequestContainer :=
  mkCancelRequest (cr_sender_comp_id c) (cr_target_comp_id c) (Some id) (cr_orig_cl_ord_id c)
    (cr_cl_ord_id c) (cr_symbol c) (cr_side c) (cr_order_qty c).

Definition order_info_of (c : NewOrderSingleContainer) (arrival_gateway_id : Z) : OrderInfo :=
  mkOrderInfo (no_sender_comp_id c) (no_symbol c) (no_side c) (no_price c) (no_time_in_force c)
    (no_order_qty c) 0 0 arrival_gateway_id.

Definition preprocess_new_order (users : gmap string Z) (arrival_gateway_id connection_id : Z)
    (orders : Orders) (client : C) (c : NewOrderSingleContainer)
    : res (NewOrderSingleContainer * Orders * C * (option Z + string)) :=
  id ← add32 (latest_assigned_order_id orders) 1;
  let new_order := with_order_id c id in
  let counted := mkOrders (order_id_map orders) (order_info_map orders) id in
  match users !! no_sender_comp_id new_order with
  | None => Ok (new_order, counted, client, inr "Order request contains unknown username"%string)
  | Some user_id =>
      t ← transformed_cl_ord_id (no_cl_ord_id new_order) user_id;
      match bm_right (order_id_map orders) !! t with
      | Some _ => Ok (new_order, counted, client, inr "Client order id has already been used"%string)
      | None =>
          let infos := match order_info_map orders !! id with
                       | Some _ => order_info_map orders
                       | None => <[id := order_info_of new_order arrival_gateway_id]> (order_info_map orders)
                       end in
          let orders' := mkOrders (bimap_insert (order_id_map orders) id t) infos id in
          match no_ord_type new_order, no_side new_order with
          | market, bid =>
              '(client', r) ← query_fill_cost client connection_id new_order;
              Ok (new_order, orders', client', r)
          | _, _ => Ok (new_order, orders', client, inl None)
          end
      end
  end.

Definition preprocess_cancel_request (users : gmap string Z) (orders : Orders)
    (c : CancelOrderRequestContainer) : res (CancelOrderRequestContainer * (option Z + string)) :=
  match users !! cr_sender_comp_id c with
  | None => Ok (c, inr "Cancel request contains unknown username"%string)
  | Some user_id =>
      t ← transformed_cl_ord_id (cr_orig_cl_ord_id c) user_id;
      Ok (match bm_right (order_id_map orders) !! t with
          | Some id => with_cancel_id c id
          | None => c
          end, inl None)
  end.

Definition preprocess_container (users : gmap string Z) (arrival_gateway_id connection_id : Z)
    (orders : Orders) (client : C) (container : Container)
    : res (Container * Orders * C * (option Z + string)) :=
  match container with
  | CNewOrderSingle c =>
      '(c', orders', client', r) ←
        preprocess_new_order users arrival_gateway_id connection_id orders client c;
      Ok (CNewOrderSingle c', orders', client', r)
  | CCancelOrderRequest c =>
      '(c', r) ← preprocess_cancel_request users orders c;
      Ok (CCancelOrderRequest c', orders, client, r)
  | _ => Err Terminated
  end.
End Requests.

(** ** Validation: "ok" or the reason, with the funds reserved *)
Definition reserve (bc : BalanceChecker) (broker_id ticker : string) (delta : Z) (reason : string)
    : res (BalanceChecker * string) :=
  sufficient ← has_sufficient_balance bc broker_id ticker delta;
  if (sufficient : bool) then bc' ← update_balance bc broker_id ticker delta; Ok (bc', "ok"%string)
  else Ok (bc, reason).

Definition validate_bid (bc : BalanceChecker) (c : NewOrderSingleContainer)
    (market_bid_fill_cost : option Z) : res (BalanceChecker * string) :=
  owns_usd ← broker_owns_ticker bc (no_sender_comp_id c) USD_SYMBOL;
  if negb owns_usd then Ok (bc, "User has no USD balance record"%string)
  else match no_ord_type c with
  | limit =>
      price ← value_ (no_price c);
      reserved_usd ← mul64 (- price) (no_order_qty c);
      reserve bc (no_sender_comp_id c) USD_SYMBOL reserved_usd "User has insufficient USD balance"
  | market =>
      match market_bid_fill_cost with
      | None => Ok (bc, "User has insufficient USD balance"%string)
      | Some fill_cost =>
          delta ← sub32 0 fill_cost;
          reserve bc (no_sender_comp_id c) USD_SYMBOL delta "User has insufficient USD balance"
      end
  end.

Definition validate_ask (bc : BalanceChecker) (c : NewOrderSingleContainer)
    : res (BalanceChecker * string) :=
  owns_symbol ← broker_owns_ticker bc (no_sender_comp_id c) (no_symbol c);
  if negb owns_symbol then Ok (bc, ("User has no " +:+ no_symbol c +:+ " record")%string)
  else
    delta ← sub32 0 (no_order_qty c);
    reserve bc (no_sender_comp_id c) (no_symbol c) delta
      ("User has insufficient " +:+ no_symbol c +:+ " balance")%string.

Definition validate_new_order (active_symbols : list string) (bc : BalanceChecker)
    (c : NewOrderSingleContainer) (market_bid_fill_cost : option Z) : res (BalanceChecker * string) :=
  if negb (bool_decide (no_symbol c ∈ active_symbols)) then Ok (bc, "Unrecognized symbol"%string)
  else if from_option (fun p => p <=? 0) false (no_price c) then Ok (bc, "Price is not positive"%string)
  else if no_order_qty c <=? 0 then Ok (bc, "Quantity is not positive"%string)
  else if negb (broker_id_exists bc (no_sender_comp_id c))
  then Ok (bc, "Balance record for not found during validation"%string)
  else match no_side c with
  | bid => validate_bid bc c market_bid_fill_cost
  | ask => validate_ask bc c
  end.

Definition validate_container (active_symbols : list string) (bc : BalanceChecker)
    (container : Container) (market_bid_fill_cost : option Z) : res (BalanceChecker * string) :=
  match container with
  | CNewOrderSingle c => validate_new_order active_symbols bc c market_bid_fill_cost
  | CCancelOrderRequest c =>
      Ok (bc, if cr_order_id c then "ok"%string
              else "Cancel request original client order ID not found"%string)
  | _ => Ok (bc, "Unsupported request type"%string)
  end.

(** ** Execution reports

    [exec_id] is the UUID drawn for the report. *)
Section Reports.
Context (SERVER_NAME : string).

Definition generate_rejection_report_container (exec_id : string) (container : Container)
    (infos : gmap Z OrderInfo) (order_reject_reason : string) : res ExecutionReportContainer :=
  match container with
  | CNewOrderSingle c =>
      order_id ← value_ (no_order_id c);
      Ok (mkExecutionReport SERVER_NAME (no_sender_comp_id c) order_id (no_cl_ord_id c) None exec_id
            exec_trans_new status_rejected status_rejected (Some order_reject_reason) (no_symbol c)
            (no_side c) (no_price c) (no_time_in_force c) 0 0 0)
  | CCancelOrderRequest c =>
      order_info ← match cr_order_id c with
                   | Some order_id => at_ (infos !! order_id)
                   | None => Ok empty_order_info
                   end;
      Ok (mkExecutionReport SERVER_NAME (cr_sender_comp_id c) (default (-1) (cr_order_id c))
            (cr_cl_ord_id c) (Some (cr_orig_cl_ord_id c)) exec_id exec_trans_new status_rejected
            status_rejected (Some order_reject_reason) (oi_symbol order_info) (oi_side order_info)
            (oi_price order_info) (oi_time_in_force order_info) 0 (oi_cum_qty order_info)
            (oi_avg_px order_info))
  | _ => Err Terminated
  end.

Definition generate_success_report_container (exec_id : string) (container : Container)
    (infos : gmap Z OrderInfo) : res ExecutionReportContainer :=
  match container with
  | CNewOrderSingle c =>
      order_id ← value_ (no_order_id c);
      Ok (mkExecutionReport SERVER_NAME (no_sender_comp_id c) order_id (no_cl_ord_id c) None exec_id
            exec_trans_new status_new status_new None (no_symbol c) (no_side c) (no_price c)
            (no_time_in_force c) (no_order_qty c) 0 0)
  | CCancelOrderRequest c =>
      order_id ← value_ (cr_order_id c);
      order_info ← at_ (infos !! order_id);
      Ok (mkExecutionReport SERVER_NAME (cr_sender_comp_id c) order_id (cr_cl_ord_id c)
            (Some (cr_orig_cl_ord_id c)) exec_id exec_trans_new status_pending_cancel
            status_pending_cancel None (oi_symbol order_info) (oi_side order_info)
            (oi_price order_info) (oi_time_in_force order_info) (oi_leaves_qty order_info)
            (oi_cum_qty order_info) (oi_avg_px order_info))
  | _ => Err AssertionFailed
  end.

(** The report for one side of a trade. *)
Definition matched_order_report (exec_id : string) (ids : bimap) (infos : gmap Z OrderInfo)
    (trade : TradeContainer) (party : string) (order_id : Z) (side : Side)
    : res ExecutionReportContainer :=
  t ← at_ (bm_left ids !! order_id);
  cl_order_id ← div32 t max_user_count;
  info ← at_ (infos !! order_id);
  let status := if oi_leaves_qty info =? 0 then status_filled else status_partially_filled in
  Ok (mkExecutionReport SERVER_NAME party order_id cl_order_id None exec_id exec_trans_new status
        status None (tc_ticker trade) side (Some (tc_price trade)) (oi_time_in_force info)
        (oi_leaves_qty info) (oi_cum_qty info) (oi_avg_px info)).

Definition generate_matched_order_report_containers (taker_exec_id maker_exec_id : string)
    (trade : TradeContainer) (ids : bimap) (infos : gmap Z OrderInfo)
    : res (ExecutionReportContainer * ExecutionReportContainer) :=
  let taker_side := if tc_is_taker_buyer trade then bid else ask in
  taker ← matched_order_report taker_exec_id ids infos trade (tc_taker_id trade)
            (tc_taker_order_id trade) taker_side;
  maker ← matched_order_report maker_exec_id ids infos trade (tc_maker_id trade)
            (tc_maker_order_id trade) (opposite taker_side);
  Ok (taker, maker).

Definition generate_cancel_response_report_container (exec_id : string)
    (r : CancelOrderResponseContainer) (ids : bimap) (infos : gmap Z OrderInfo)
    : res ExecutionReportContainer :=
  info ← at_ (infos !! cs_order_id r);
  t ← at_ (bm_left ids !! cs_order_id r);
  orig ← div32 t max_user_count;
  let status := if cs_success r then status_canceled else status_rejected in
  Ok (mkExecutionReport SERVER_NAME (oi_sender_comp_id info) (cs_order_id r) (cs_cl_ord_id r)
        (Some orig) exec_id exec_trans_new status status
        (Some (if cs_success r then ""%string else "Order had already been matched"%string))
        (oi_symbol info) (oi_side info) (oi_price info) (oi_time_in_force info) 0
        (oi_cum_qty info) (oi_avg_px info)).
End Reports.

(** ** Responses from the matching engine *)

(** What a fill does to an order's record; the arithmetic is on [int]. *)
Definition fill_order_info (i : OrderInfo) (price quantity : Z) : res OrderInfo :=
  a ← mul32 (oi_avg_px i) (oi_cum_qty i);
  b ← mul32 price quantity;
  n ← add32 a b;
  d ← add32 quantity (oi_cum_qty i);
  avg_px ← div32 n d;
  leaves_qty ← sub32 (oi_leaves_qty i) quantity;
  cum_qty ← add32 (oi_cum_qty i) quantity;
  Ok (mkOrderInfo (oi_sender_comp_id i) (oi_symbol i) (oi_side i) (oi_price i) (oi_time_in_force i)
        leaves_qty cum_qty avg_px (oi_arrival_gateway_id i)).

Definition buyer_id (t : TradeContainer) : string :=
  if tc_is_taker_buyer t then tc_taker_id t else tc_maker_id t.
Definition seller_id (t : TradeContainer) : string :=
  if tc_is_taker_buyer t then tc_maker_id t else tc_taker_id t.
Definition buyer_order_id (t : TradeContainer) : Z :=
  if tc_is_taker_buyer t then tc_taker_order_id t else tc_maker_order_id t.

(** The refund of what a limit buyer saved. *)
Definition refund_improvement (bc : BalanceChecker) (buyer : string) (limit_price : option Z)
    (t : TradeContainer) : res BalanceChecker :=
  match limit_price with
  | None => Ok bc
  | Some price =>
      price_improvement ← sub32 price (tc_price t);
      _ ← cassert (0 <=? price_improvement);
      if 0 <? price_improvement then
        refund ← mul32 price_improvement (tc_quantity t);
        update_balance bc buyer USD_SYMBOL refund
      else Ok bc
  end.

Definition apply_trade (infos : gmap Z OrderInfo) (bc : BalanceChecker) (t : TradeContainer)
    : res (gmap Z OrderInfo * BalanceChecker) :=
  _ ← contract (bool_decide (is_Some (infos !! tc_taker_order_id t)));
  _ ← contract (bool_decide (is_Some (infos !! tc_maker_order_id t)));
  taker ← at_ (infos !! tc_taker_order_id t);
  taker' ← fill_order_info taker (tc_price t) (tc_quantity t);
  let infos := <[tc_taker_order_id t := taker']> infos in
  maker ← at_ (infos !! tc_maker_order_id t);
  maker' ← fill_order_info maker (tc_price t) (tc_quantity t);
  let infos := <[tc_maker_order_id t := maker']> infos in
  bc ← update_balance bc (buyer_id t) (tc_ticker t) (tc_quantity t);
  buyer_order ← at_ (infos !! buyer_order_id t);
  bc ← refund_improvement bc (buyer_id t) (oi_price buyer_order) t;
  proceeds ← mul32 (tc_price t) (tc_quantity t);
  bc ← update_balance bc (seller_id t) USD_SYMBOL proceeds;
  Ok (infos, bc).

Definition apply_cancel_response (infos : gmap Z OrderInfo) (bc : BalanceChecker)
    (r : CancelOrderResponseContainer) : res BalanceChecker :=
  if cs_success r then
    info ← at_ (infos !! cs_order_id r);
    price ← get_or AssertionFailed (oi_price info);
    match oi_side info with
    | bid =>
        refund ← mul32 price (oi_leaves_qty info);
        update_balance bc (oi_sender_comp_id info) USD_SYMBOL refund
    | ask => update_balance bc (oi_sender_comp_id info) (oi_symbol info) (oi_leaves_qty info)
    end
  else Ok bc.

Definition update_internal_data (container : Container) (infos : gmap Z OrderInfo)
    (bc : BalanceChecker) : res (gmap Z OrderInfo * BalanceChecker) :=
  match container with
  | CTrade t => apply_trade infos bc t
  | CCancelOrderResponse r => bc' ← apply_cancel_response infos bc r; Ok (infos, bc')
  | _ => Err Terminated
  end.

(** ** The database *)
Section Database.
Context {D : Type} `{OrderManagerDatabase D}.

Definition persist_balance (server_id : Z) (users : gmap string Z) (bc : BalanceChecker) (db : D)
    (user symbol : string) : res D :=
  user_id ← at_ (users !! user);
  balance ← get_balance bc user symbol;
  Ok (db_update_balance db user_id server_id symbol balance).

(** Both balances of a party are read before either is written. *)
Definition persist_party (server_id : Z) (users : gmap string Z) (bc : BalanceChecker) (db : D)
    (user symbol : string) : res D :=
  user_id ← at_ (users !! user);
  usd_balance ← get_balance bc user USD_SYMBOL;
  symbol_balance ← get_balance bc user symbol;
  Ok (db_update_balance (db_update_balance db user_id server_id USD_SYMBOL usd_balance)
        user_id server_id symbol symbol_balance).

Definition update_database (server_id : Z) (container : Container) (users : gmap string Z)
    (infos : gmap Z OrderInfo) (bc : BalanceChecker) (db : D) (valid_container : option bool)
    : res D :=
  match container with
  | CNewOrderSingle c =>
      order_id ← get_or ContractViolation (no_order_id c);
      valid ← get_or ContractViolation valid_container;
      Ok (db_insert_order db order_id c valid)
  | CCancelOrderRequest c =>
      valid ← get_or ContractViolation valid_container;
      Ok (db_insert_cancel_request db c valid)
  | CExecutionReport _ => Ok db
  | CTrade t =>
      let db := db_insert_trade db t in
      db ← persist_party server_id users bc db (buyer_id t) (tc_ticker t);
      persist_party server_id users bc db (seller_id t) (tc_ticker t)
  | CCancelOrderResponse r =>
      let db := db_insert_cancel_response db r in
      if cs_success r then
        info ← at_ (infos !! cs_order_id r);
        _ ← cassert (bool_decide (is_Some (oi_price info)));
        persist_balance server_id users bc db (oi_sender_comp_id info)
          (match oi_side info with bid => USD_SYMBOL | ask => oi_symbol info end)
      else Ok db
  | _ => Err AssertionFailed
  end.
End Database.

(** ** The service *)
Record OrderManager (I C D : Type) := mkOrderManager {
  active_symbols : list string;
  gateway_connection_ids : list Z;
  order_request_connection_id : Z;
  om_order_response_connection_id : Z;
  om_inbound_server : I;
  order_request_outbound_client : C;
  order_response_outbound_client : C;
  balance_checker : BalanceChecker;
  username_user_id_map : gmap string Z;
  database_client : D;
  server_id : Z;
  orders : Orders;
  exec_count : nat;
  gateway_ids_it : nat
}.
Arguments mkOrderManager {I C D} _ _ _ _ _ _ _ _ _ _ _ _ _ _.
Arguments active_symbols {I C D} _.
Arguments gateway_connection_ids {I C D} _.
Arguments order_request_connection_id {I C D} _.
Arguments om_order_response_connection_id {I C D} _.
Arguments om_inbound_server {I C D} _.
Arguments order_request_outbound_client {I C D} _.
Arguments order_response_outbound_client {I C D} _.
Arguments balance_checker {I C D} _.
Arguments username_user_id_map {I C D} _.
Arguments database_client {I C D} _.
Arguments server_id {I C D} _.
Arguments orders {I C D} _.
Arguments exec_count {I C D} _.
Arguments gateway_ids_it {I C D} _.

Section Service.
Context {I C D : Type} `{InboundServer I} `{OutboundClient C} `{OrderManagerDatabase D}
  `{ProtoCodec} (SERVER_NAME : string) (exec_ids : nat -> string).
Implicit Types (om : OrderManager I C D).

Definition new_order_manager (symbols : list string) (inbound : I) (request response : C) (db : D)
    : OrderManager I C D :=
  mkOrderManager symbols [] (-1) (-1) inbound request response ∅ ∅ db (-1)
    (mkOrders (mkBimap ∅ ∅) ∅ (-1)) 0 0.

(** The callback of [main.cpp]: any client is taken for a gateway. *)
Definition on_gateway_connection (md : ConnectionMetadata) om : OrderManager I C D :=
  mkOrderManager (active_symbols om) (gateway_connection_ids om ++ [m_id md])
    (order_request_connection_id om) (om_order_response_connection_id om) (om_inbound_server om)
    (order_request_outbound_client om) (order_response_outbound_client om) (balance_checker om)
    (username_user_id_map om) (database_client om) (server_id om) (orders om) (exec_count om)
    (gateway_ids_it om).

Definition om_init om : res (OrderManager I C D) :=
  let '(inbound, ok1) := is_start (om_inbound_server om) in
  _ ← check Terminated ok1;
  let '(request, ok2) := oc_start (order_request_outbound_client om) in
  _ ← check Terminated ok2;
  let '(response, ok3) := oc_start (order_response_outbound_client om) in
  _ ← check Terminated ok3;
  '(bc, users) ← init_balance_checker SERVER_NAME (balance_checker om) (username_user_id_map om)
                   (database_client om);
  sid ← match db_get_server (database_client om) SERVER_NAME with
        | inl (Some sid) => Ok sid
        | _ => Err Terminated
        end;
  Ok (mkOrderManager (active_symbols om) (gateway_connection_ids om) (order_request_connection_id om)
        (om_order_response_connection_id om) inbound request response bc users (database_client om)
        sid (orders om) (exec_count om) (gateway_ids_it om)).

Definition connect_matching_engine om (uri : string) (try_attempts : nat)
    : res (OrderManager I C D) :=
  _ ← contract (0 <? try_attempts)%nat;
  '(request, request_id) ← connect_loop try_attempts (order_request_outbound_client om) uri "order_request";
  '(response, response_id) ← connect_loop try_attempts (order_response_outbound_client om) uri "order_response";
  Ok (mkOrderManager (active_symbols om) (gateway_connection_ids om) request_id response_id
        (om_inbound_server om) request response (balance_checker om) (username_user_id_map om)
        (database_client om) (server_id om) (orders om) (exec_count om) (gateway_ids_it om)).

(** [forward_and_reply]: the reject reason is there exactly when the container is
    not valid. *)
Definition forward_and_reply (is_container_valid : bool) (container : Container)
    (infos : gmap Z OrderInfo) (arrival_gateway_id : Z) (client : C) (connection_id : Z)
    (inbound : I) (exec_id : string) (order_reject_reason : option string) : res (C * I) :=
  _ ← contract (if is_container_valid then negb (bool_decide (is_Some order_reject_reason))
                else bool_decide (is_Some order_reject_reason));
  if is_container_valid then
    let client' := (oc_send client connection_id (serialize_container container) fmt_binary).1 in
    report ← generate_success_report_container SERVER_NAME exec_id container infos;
    Ok (client', (is_send inbound arrival_gateway_id
                    (serialize_container (CExecutionReport report)) fmt_binary).1)
  else
    reason ← value_ order_reject_reason;
    report ← generate_rejection_report_container SERVER_NAME exec_id container infos reason;
    Ok (client, (is_send inbound arrival_gateway_id
                   (serialize_container (CExecutionReport report)) fmt_binary).1).

(** The part of [run] between a request's arrival and the next one. *)
Definition process_request om (gateway_id : Z) (message : string) : res (OrderManager I C D) :=
  container ← deserialize_container message;
  '(container, orders', client, r) ←
    preprocess_container (username_user_id_map om) gateway_id (order_request_connection_id om)
      (orders om) (order_request_outbound_client om) container;
  '(bc, verdict) ←
    match r with
    | inl market_bid_fill_cost =>
        validate_container (active_symbols om) (balance_checker om) container market_bid_fill_cost
    | inr err => Ok (balance_checker om, err)
    end;
  (* an error of the preprocessing is never the word "ok" *)
  let valid := match r with inl _ => String.eqb verdict "ok" | inr _ => false end in
  '(client, inbound) ←
    forward_and_reply valid container (order_info_map orders') gateway_id client
      (order_request_connection_id om) (om_inbound_server om) (exec_ids (exec_count om))
      (if valid then None else Some verdict);
  db ← update_database (server_id om) container (username_user_id_map om) (order_info_map orders')
         bc (database_client om) (Some valid);
  Ok (mkOrderManager (active_symbols om) (gateway_connection_ids om) (order_request_connection_id om)
        (om_order_response_connection_id om) inbound client (order_response_outbound_client om) bc
        (username_user_id_map om) db (server_id om) orders' (S (exec_count om)) (gateway_ids_it om)).

Definition return_execution_report (container : Container) (ids : bimap) (infos : gmap Z OrderInfo)
    (inbound : I) (n : nat) : res I :=
  match container with
  | CTrade t =>
      '(taker, maker) ← generate_matched_order_report_containers SERVER_NAME (exec_ids n)
                          (exec_ids (S n)) t ids infos;
      taker_info ← at_ (infos !! tc_taker_order_id t);
      let inbound := (is_send inbound (oi_arrival_gateway_id taker_info)
                        (serialize_container (CExecutionReport taker)) fmt_binary).1 in
      maker_info ← at_ (infos !! tc_maker_order_id t);
      Ok (is_send inbound (oi_arrival_gateway_id maker_info)
            (serialize_container (CExecutionReport maker)) fmt_binary).1
  | CCancelOrderResponse r =>
      report ← generate_cancel_response_report_container SERVER_NAME (exec_ids n) r ids infos;
      info ← at_ (infos !! cs_order_id r);
      Ok (is_send inbound (oi_arrival_gateway_id info)
            (serialize_container (CExecutionReport report)) fmt_binary).1
  | _ => Err Terminated
  end.

Definition process_response om (message : string) : res (OrderManager I C D) :=
  container ← deserialize_container message;
  '(infos, bc) ← update_internal_data container (order_info_map (orders om)) (balance_checker om);
  inbound ← return_execution_report container (order_id_map (orders om)) infos
              (om_inbound_server om) (exec_count om);
  db ← update_database (server_id om) container (username_user_id_map om) infos bc
         (database_client om) None;
  Ok (mkOrderManager (active_symbols om) (gateway_connection_ids om) (order_request_connection_id om)
        (om_order_response_connection_id om) inbound (order_request_outbound_client om)
        (order_response_outbound_client om) bc (username_user_id_map om) db (server_id om)
        (mkOrders (order_id_map (orders om)) infos (latest_assigned_order_id (orders om)))
        (S (S (exec_count om))) (gateway_ids_it om)).

Definition with_links om (inbound : I) (response : C) (it : nat) : OrderManager I C D :=
  mkOrderManager (active_symbols om) (gateway_connection_ids om) (order_request_connection_id om)
    (om_order_response_connection_id om) inbound (order_request_outbound_client om) response
    (balance_checker om) (username_user_id_map om) (database_client om) (server_id om) (orders om)
    (exec_count om) it.

(** One iteration of [run]: a request of the next gateway, then a response. *)
Definition om_run_iteration om : res (OrderManager I C D) :=
  gateway_id ← get_or OutOfBounds (gateway_connection_ids om !! gateway_ids_it om);
  let '(inbound, request) := is_dequeue_message (om_inbound_server om) gateway_id in
  let om := with_links om inbound (order_response_outbound_client om) (gateway_ids_it om) in
  om ← match request with Some m => process_request om gateway_id m | None => Ok om end;
  let it := S (gateway_ids_it om) in
  let it := if Nat.eqb it (length (gateway_connection_ids om)) then 0%nat else it in
  let '(client, response) := oc_dequeue_message (order_response_outbound_client om)
                               (om_order_response_connection_id om) in
  let om := with_links om (om_inbound_server om) client it in
  match response with Some m => process_response om m | None => Ok om end.
End Service.
