(* ===== verification/OrderValidation.v ===== *)
(** * Theorems on the order manager: requests

    Validation reserves exactly what an accepted order can cost and nothing for a
    rejected one; internal order ids are fresh, and client order ids can be
    recovered; every request is answered once and forwarded exactly when it is
    valid. *)

From S2P Require Import Prelude Core Messaging Concurrency Transport BalanceChecker OrderManager.
From Stdlib Require Import ZArith Lia Ascii String.
From stdpp Require Import base option list gmap strings fin_maps.

Open Scope Z_scope.

(** What a new order sets aside: an account and an amount. *)
Definition reservation (c : NewOrderSingleContainer) (fill_cost : option Z) : option (string * Z) :=
  match no_side c with
  | ask => Some (no_symbol c, no_order_qty c)
  | bid =>
      match no_ord_type c with
      | limit => (fun p => (USD_SYMBOL, p * no_order_qty c)) <$> no_price c
      | market => (fun x => (USD_SYMBOL, x)) <$> fill_cost
      end
  end.

(** The fields have the widths of their types; limit bids carry a price (the
    gateway reads one from every limit order). *)
Record well_typed_order (c : NewOrderSingleContainer) (fill_cost : option Z) : Prop := {
  wt_qty : INT_MIN < no_order_qty c <= INT_MAX;
  wt_price : forall p, no_price c = Some p -> INT_MIN <= p <= INT_MAX;
  wt_limit : no_ord_type c = limit -> is_Some (no_price c);
  wt_cost : forall x, fill_cost = Some x -> 0 < x <= INT_MAX
}.

(** The conditions on an accepted order that the matching engine relies on. *)
Definition order_acceptable (symbols : list string) (c : NewOrderSingleContainer) : Prop :=
  no_symbol c ∈ symbols /\ 0 < no_order_qty c /\ from_option (fun p => 0 < p) True (no_price c).

Lemma reserve_ok bc b t amount reason :
  balances_wf bc -> t <> ""%string -> owns bc b t -> 0 <= amount < 2 ^ 62 -> reason <> "ok"%string ->
  exists bc' verdict, reserve bc b t (- amount) reason = Ok (bc', verdict) /\
    (verdict = "ok"%string -> amount <= balance_of bc b t /\ credited bc b t (- amount) bc' /\
       balances_wf bc' /\ grows bc bc') /\
    (verdict <> "ok"%string -> bc' = bc /\ balance_of bc b t < amount).
Proof.
  intros Hwf Ht Ho Ha Hr. pose proof (balance_nonneg bc b t Hwf) as Hb. unfold reserve.
  rewrite has_sufficient_balance_ok by (done || unfold INT64_MIN, INT64_MAX in *; lia). simpl.
  destruct (0 <=? _) eqn:Hs.
  - apply Z.leb_le in Hs.
    destruct (update_balance_ok bc b t (- amount) Hwf Ht ltac:(lia)) as (bc' & -> & Hwf' & Hc & Hg & _).
    simpl. exists bc', "ok"%string. split; [done|]. split; [|done]. intros _. split; [lia|done].
  - exists bc, reason. split; [done|]. split; [done|]. intros _. split; [done|lia].
Qed.

Lemma validate_bid_ok bc c cost :
  balances_wf bc -> is_Some (bc !! no_sender_comp_id c) -> well_typed_order c cost ->
  no_side c = bid -> 0 < no_order_qty c -> (forall p, no_price c = Some p -> 0 < p) ->
  exists bc' verdict, validate_bid bc c cost = Ok (bc', verdict) /\
    (verdict = "ok"%string -> exists t amount, reservation c cost = Some (t, amount) /\ 0 <= amount /\
       owns bc (no_sender_comp_id c) t /\ amount <= balance_of bc (no_sender_comp_id c) t /\
       credited bc (no_sender_comp_id c) t (- amount) bc' /\ balances_wf bc' /\ grows bc bc') /\
    (verdict <> "ok"%string -> bc' = bc).
Proof.
  intros Hwf Hex [Hq Hp Hl Hc] Hside Hpos Hppos. unfold validate_bid.
  rewrite broker_owns_ticker_ok by done. simpl. case_bool_decide as Ho; simpl.
  2: { eexists _, _. split; [done|]. split; done. }
  assert (forall amount, reservation c cost = Some (USD_SYMBOL, amount) -> 0 <= amount < 2 ^ 62 ->
    exists bc' verdict, reserve bc (no_sender_comp_id c) USD_SYMBOL (- amount)
      "User has insufficient USD balance" = Ok (bc', verdict) /\
    (verdict = "ok"%string -> exists t amount, reservation c cost = Some (t, amount) /\ 0 <= amount /\
       owns bc (no_sender_comp_id c) t /\ amount <= balance_of bc (no_sender_comp_id c) t /\
       credited bc (no_sender_comp_id c) t (- amount) bc' /\ balances_wf bc' /\ grows bc bc') /\
    (verdict <> "ok"%string -> bc' = bc)) as Hres.
  { intros amount Hr Ha.
    destruct (reserve_ok bc (no_sender_comp_id c) USD_SYMBOL amount "User has insufficient USD balance"
      Hwf ltac:(done) Ho Ha ltac:(done)) as (bc' & verdict & Hrs & Hok & Hno).
    exists bc', verdict. split; [done|]. split; [|by intros [? _]%Hno].
    intros Hv. destruct (Hok Hv) as (? & ? & ? & ?). exists USD_SYMBOL, amount. split; [done|]. split; [lia|]. by do 4 (split; [done|]). }
  unfold reservation in Hres. rewrite Hside in Hres. destruct (no_ord_type c) eqn:Hty.
  - destruct (Hl eq_refl) as [p Hpr]. rewrite Hpr in *. simpl.
    specialize (Hp p eq_refl). specialize (Hppos p eq_refl). unfold mul64.
    rewrite i64_ok by (unfold INT_MAX, INT64_MIN, INT64_MAX, INT_MIN in *; nia). simpl.
    rewrite Z.mul_opp_l. unfold reservation. rewrite Hside, Hty, Hpr.
    apply Hres; [done|]. unfold INT_MAX in *. nia.
  - destruct cost as [x|]; simpl.
    + specialize (Hc x eq_refl). unfold sub32. rewrite i32_ok by (unfold INT_MIN, INT_MAX in *; lia). simpl.
      unfold reservation. rewrite Hside, Hty. apply Hres; [done|]. unfold INT_MAX in *. lia.
    + eexists _, _. split; [done|]. split; done.
Qed.

Lemma validate_ask_ok bc c cost :
  balances_wf bc -> is_Some (bc !! no_sender_comp_id c) -> well_typed_order c cost ->
  no_side c = ask -> 0 < no_order_qty c -> no_symbol c <> ""%string ->
  exists bc' verdict, validate_ask bc c = Ok (bc', verdict) /\
    (verdict = "ok"%string -> exists t amount, reservation c cost = Some (t, amount) /\ 0 <= amount /\
       owns bc (no_sender_comp_id c) t /\ amount <= balance_of bc (no_sender_comp_id c) t /\
       credited bc (no_sender_comp_id c) t (- amount) bc' /\ balances_wf bc' /\ grows bc bc') /\
    (verdict <> "ok"%string -> bc' = bc).
Proof.
  intros Hwf Hex [Hq _ _ _] Hside Hpos Hsym. unfold validate_ask.
  rewrite broker_owns_ticker_ok by done. simpl. case_bool_decide as Ho; simpl.
  2: { eexists _, _. split; [done|]. split; done. }
  unfold sub32. rewrite i32_ok by (unfold INT_MIN, INT_MAX in *; lia). simpl.
  destruct (reserve_ok bc (no_sender_comp_id c) (no_symbol c) (no_order_qty c)
    ("User has insufficient " +:+ no_symbol c +:+ " balance") Hwf Hsym Ho
    ltac:(unfold INT_MAX in *; lia) ltac:(done)) as (bc' & verdict & Hrs & Hok & Hno).
  exists bc', verdict. split; [done|]. split; [|by intros [? _]%Hno].
  intros Hv. destruct (Hok Hv) as (? & ? & ? & ?). exists (no_symbol c), (no_order_qty c).
  unfold reservation. rewrite Hside. split; [done|]. split; [lia|]. by do 4 (split; [done|]).
Qed.

Lemma validate_new_order_ok symbols bc c cost :
  balances_wf bc -> well_typed_order c cost -> (""%string ∉ symbols) ->
  exists bc' verdict,
    validate_new_order symbols bc c cost = Ok (bc', verdict) /\
    (verdict = "ok"%string ->
       order_acceptable symbols c /\
       exists t amount, reservation c cost = Some (t, amount) /\ 0 <= amount /\
         owns bc (no_sender_comp_id c) t /\ amount <= balance_of bc (no_sender_comp_id c) t /\
         credited bc (no_sender_comp_id c) t (- amount) bc' /\ balances_wf bc' /\ grows bc bc') /\
    (verdict <> "ok"%string -> bc' = bc).
Proof.
  intros Hwf Hwt Hne. unfold validate_new_order.
  case_bool_decide as Hsym; simpl; [|by eexists _, _].
  destruct (from_option _ _ (no_price c)) eqn:Hpr; [by eexists _, _|].
  destruct (no_order_qty c <=? 0) eqn:Hq; [by eexists _, _|]. apply Z.leb_gt in Hq.
  unfold broker_id_exists. case_bool_decide as Hex; simpl; [|by eexists _, _].
  assert (order_acceptable symbols c) as Hacc.
  { split; [done|]. split; [done|]. destruct (no_price c); simpl in *; [lia|done]. }
  assert (no_symbol c <> ""%string) as Hs by congruence.
  assert (forall p, no_price c = Some p -> 0 < p) as Hpp.
  { intros p Hp. rewrite Hp in Hpr. simpl in Hpr. lia. }
  destruct (no_side c) eqn:Hside.
  - destruct (validate_bid_ok bc c cost Hwf Hex Hwt Hside Hq Hpp) as (bc' & v & ? & ? & ?).
    exists bc', v. naive_solver.
  - destruct (validate_ask_ok bc c cost Hwf Hex Hwt Hside Hq Hs) as (bc' & v & ? & ? & ?).
    exists bc', v. naive_solver.
Qed.

(** C19: validation of a new order never fails, and reserves exactly what the
    order needs.  It answers "ok" only for an active symbol, a positive quantity
    and price, and an account that holds the reservation (price times quantity in
    USD for a limit bid, the quoted fill cost for a market bid, the quantity of
    the stock for an ask); then that amount is taken from that account and no
    other balance changes.  With any other answer the balances are untouched. *)
Theorem validation_reserves symbols bc c cost :
  balances_wf bc -> well_typed_order c cost -> (""%string ∉ symbols) ->
  exists bc' verdict,
    validate_container symbols bc (CNewOrderSingle c) cost = Ok (bc', verdict) /\
    (verdict = "ok"%string ->
       order_acceptable symbols c /\
       exists t amount, reservation c cost = Some (t, amount) /\ 0 <= amount /\
         owns bc (no_sender_comp_id c) t /\ amount <= balance_of bc (no_sender_comp_id c) t /\
         credited bc (no_sender_comp_id c) t (- amount) bc' /\ balances_wf bc' /\ grows bc bc') /\
    (verdict <> "ok"%string -> bc' = bc).
Proof. apply validate_new_order_ok. Qed.

(** ** Order ids *)

(** The key under which a client order id is filed is unambiguous and can be
    taken apart again, for non-negative client ids and user ids below 1000: two
    keys are equal only for the same client id of the same user, and dividing a
    key by 1000 (as the reports do) gives back the client's id. *)
Theorem client_id_roundtrip cl user t :
  0 <= cl -> 0 <= user < max_user_count -> transformed_cl_ord_id cl user = Ok t ->
  div32 t max_user_count = Ok cl /\
  forall cl' user', 0 <= cl' -> 0 <= user' < max_user_count ->
    transformed_cl_ord_id cl' user' = Ok t -> cl' = cl /\ user' = user.
Proof.
  unfold transformed_cl_ord_id, max_user_count, div32. intros Hcl Hu Ht. ok_inv. int_inv.
  split.
  - assert (Z.quot (cl * 1000 + user) 1000 = cl) as ->
      by (rewrite Z.quot_div_nonneg, Z.div_add_l, Z.div_small by lia; lia).
    apply i32_ok. unfold INT_MIN, INT_MAX in *. lia.
  - intros cl' user' Hcl' Hu' Ht'. ok_inv. int_inv.
    match goal with H : _ * 1000 + _ = _ * 1000 + _ |- _ => revert H end. lia.
Qed.

(** User 1005's first order and user 5's second one have the same key. *)
Example user_ids_collide : transformed_cl_ord_id 1 1005 = transformed_cl_ord_id 2 5.
Proof. reflexivity. Qed.

(** The two views of the id map agree, every order with a key has a record and
    every id is one that was assigned. *)
Record orders_wf (os : Orders) : Prop := {
  ow_bimap : forall id t, bm_left (order_id_map os) !! id = Some t <->
    bm_right (order_id_map os) !! t = Some id;
  ow_infos : forall id, is_Some (bm_left (order_id_map os) !! id) <->
    is_Some (order_info_map os !! id);
  ow_latest : forall id, is_Some (order_info_map os !! id) -> 0 <= id <= latest_assigned_order_id os;
  ow_start : -1 <= latest_assigned_order_id os
}.

Lemma orders_wf_count os id :
  orders_wf os -> latest_assigned_order_id os <= id ->
  orders_wf (mkOrders (order_id_map os) (order_info_map os) id).
Proof. intros [? ? Hl Hs] Hle. split; simpl; try done; [|lia]. intros i Hi%Hl. lia. Qed.

Lemma orders_wf_insert os id t info :
  orders_wf os -> id = latest_assigned_order_id os + 1 -> bm_right (order_id_map os) !! t = None ->
  orders_wf (mkOrders (bimap_insert (order_id_map os) id t) (<[id := info]> (order_info_map os)) id) /\
  order_info_map os !! id = None.
Proof.
  intros [Hb Hi Hl Hs] -> Ht. set (id := latest_assigned_order_id os + 1).
  assert (order_info_map os !! id = None) as Hn.
  { destruct (_ !! id) eqn:E; [|done]. pose proof (Hl id ltac:(by rewrite E)). unfold id in *. lia. }
  assert (bm_left (order_id_map os) !! id = None) as Hln.
  { destruct (bm_left (order_id_map os) !! id) eqn:E; [|done]. assert (is_Some (order_info_map os !! id)) as Hsm
      by (apply Hi; by rewrite E). rewrite Hn in Hsm. by destruct Hsm. }
  split; [|done]. unfold bimap_insert. rewrite Hln, Ht. split; simpl.
  - intros i u. rewrite !lookup_insert_Some, Hb. split.
    + intros [[<- <-]|[Hne Hr]]; [by left|]. right. split; [|done]. intros ->. congruence.
    + intros [[<- <-]|[Hne Hr]]; [by left|]. right. split; [|done]. intros <-.
      apply Hb in Hr. congruence.
  - intros i. rewrite !lookup_insert_is_Some'. specialize (Hi i). tauto.
  - intros i [<-|Hsm%Hl]%lookup_insert_is_Some'; unfold id in *; lia.
  - unfold id. lia.
Qed.

(** Internal order ids are fresh and the id maps stay consistent.  Whatever a
    preprocessed request does, the maps between internal and client ids remain
    inverse to each other and to the order records; a new order gets an id larger
    than every earlier one, whose record did not exist; when preprocessing
    succeeds the order is recorded under that id, with nothing filled, and when
    it fails no record is added.  A cancel request changes nothing. *)
Theorem preprocess_ids {C} `{OutboundClient C} `{ProtoCodec} users gw conn os (client : C) container
    container' os' client' r :
  orders_wf os ->
  preprocess_container users gw conn os client container = Ok (container', os', client', r) ->
  orders_wf os' /\
  match container, container' with
  | CNewOrderSingle c, CNewOrderSingle c' =>
      let id := latest_assigned_order_id os + 1 in
      c' = with_order_id c id /\ latest_assigned_order_id os' = id /\
      order_info_map os !! id = None /\
      match users !! no_sender_comp_id c with
      | Some user_id =>
          exists t, transformed_cl_ord_id (no_cl_ord_id c) user_id = Ok t /\
            (bm_right (order_id_map os) !! t = None ->
               order_info_map os' = <[id := order_info_of c' gw]> (order_info_map os) /\
               bm_left (order_id_map os') !! id = Some t) /\
            (is_Some (bm_right (order_id_map os) !! t) ->
               order_info_map os' = order_info_map os /\
               r = inr "Client order id has already been used"%string)
      | None => order_info_map os' = order_info_map os /\
                r = inr "Order request contains unknown username"%string
      end
  | CCancelOrderRequest c, CCancelOrderRequest c' => os' = os
  | _, _ => False
  end.
Proof.
  intros Hwf Hp. destruct container as [c|c|?|?|?|?|?]; simpl in Hp; try done.
  - apply bind_ok in Hp as ([[[c1 os1] cl1] r1] & Hpre & [= <- <- <- <-]).
    unfold preprocess_new_order in Hpre. apply bind_ok in Hpre as (id & Hid & Hpre). int_inv.
    set (id := latest_assigned_order_id os + 1) in *.
    assert (order_info_map os !! id = None) as Hn.
    { destruct (_ !! id) eqn:E; [|done]. pose proof (ow_latest _ Hwf id ltac:(by rewrite E)). unfold id in *. lia. }
    assert (orders_wf (mkOrders (order_id_map os) (order_info_map os) id)) as Hcount
      by (apply orders_wf_count; [done|unfold id; lia]).
    simpl in Hpre. destruct (users !! no_sender_comp_id c) as [u|]; [|by simplify_eq].
    apply bind_ok in Hpre as (t & Ht & Hpre).
    destruct (bm_right (order_id_map os) !! t) eqn:Hr.
    + simplify_eq. split; [done|]. do 3 (split; [done|]). exists t. split; [done|].
      split; [congruence|done].
    + rewrite Hn in Hpre.
      destruct (orders_wf_insert os id t (order_info_of (with_order_id c id) gw) Hwf eq_refl Hr) as [Hins _].
      assert (c1 = with_order_id c id /\ os1 = mkOrders (bimap_insert (order_id_map os) id t)
        (<[id := order_info_of (with_order_id c id) gw]> (order_info_map os)) id) as [-> ->].
      { destruct (no_ord_type c), (no_side c); try by simplify_eq.
        apply bind_ok in Hpre as ([cl2 r2] & _ & Hpre). by simplify_eq. }
      split; [done|]. do 3 (split; [done|]). exists t. split; [done|]. rewrite Hr. split.
      * intros _. split; [done|]. simpl. apply (ow_bimap _ Hins). unfold bimap_insert. rewrite Hr.
        destruct (bm_left (order_id_map os) !! id) eqn:Hl.
        -- assert (is_Some (order_info_map os !! id)) as Hsm by (apply (ow_infos _ Hwf); by rewrite Hl).
           rewrite Hn in Hsm. by destruct Hsm.
        -- simpl. by rewrite lookup_insert_eq.
      * by intros [].
  - apply bind_ok in Hp as ([c1 r1] & _ & [= <- <- <- <-]). done.
Qed.

(** ** Requests and their replies *)
Lemma reserve_rejects bc b t delta reason bc' verdict :
  reserve bc b t delta reason = Ok (bc', verdict) -> verdict <> "ok"%string -> bc' = bc.
Proof.
  unfold reserve. intros (s & _ & Hr)%bind_ok Hv. destruct s; [|by simplify_eq].
  apply bind_ok in Hr as (? & _ & Hr). by simplify_eq.
Qed.

Lemma validate_rejects symbols bc container cost bc' verdict :
  validate_container symbols bc container cost = Ok (bc', verdict) ->
  verdict <> "ok"%string -> bc' = bc.
Proof.
  intros Hv Hne. destruct container as [c|c|?|?|?|?|?]; simpl in Hv; try by simplify_eq.
  unfold validate_new_order, validate_bid, validate_ask in Hv.
  repeat (case_match; [by simplify_eq|]). destruct (no_side c);
    apply bind_ok in Hv as (? & _ & Hv); (case_match; [by simplify_eq|]).
  - destruct (no_ord_type c).
    + do 2 (apply bind_ok in Hv as (? & _ & Hv)). by eapply reserve_rejects.
    + destruct cost; [|by simplify_eq]. apply bind_ok in Hv as (? & _ & Hv). by eapply reserve_rejects.
  - apply bind_ok in Hv as (? & _ & Hv). by eapply reserve_rejects.
Qed.

Definition request_sender (c : Container) : string :=
  match c with
  | CNewOrderSingle c => no_sender_comp_id c
  | CCancelOrderRequest c => cr_sender_comp_id c
  | _ => ""
  end.

Definition request_cl_ord_id (c : Container) : Z :=
  match c with
  | CNewOrderSingle c => no_cl_ord_id c
  | CCancelOrderRequest c => cr_cl_ord_id c
  | _ => 0
  end.

(** The status of a successful request. *)
Definition accepted_status (c : Container) : ExecTypeOrOrderStatus :=
  match c with CNewOrderSingle _ => status_new | _ => status_pending_cancel end.

Lemma preprocess_keeps {C} `{OutboundClient C} `{ProtoCodec} users gw conn os (client : C) c c' os' client' r :
  preprocess_container users gw conn os client c = Ok (c', os', client', r) ->
  request_sender c' = request_sender c /\ request_cl_ord_id c' = request_cl_ord_id c /\
  accepted_status c' = accepted_status c.
Proof.
  destruct c as [c|c|?|?|?|?|?]; simpl; try done.
  - intros ([[[c1 os1] cl1] r1] & Hpre & [= <- <- <- <-])%bind_ok. simpl.
    unfold preprocess_new_order in Hpre. apply bind_ok in Hpre as (id & _ & Hpre). simpl in Hpre.
    destruct (users !! _); [|by simplify_eq]. apply bind_ok in Hpre as (t & _ & Hpre).
    destruct (bm_right _ !! t); [by simplify_eq|]. destruct (no_ord_type c), (no_side c); try by simplify_eq.
    apply bind_ok in Hpre as ([] & _ & Hpre). by simplify_eq.
  - intros ([c1 r1] & Hpre & [= <- <- <- <-])%bind_ok. simpl.
    unfold preprocess_cancel_request in Hpre. destruct (users !! _); [|by simplify_eq].
    apply bind_ok in Hpre as (t & _ & Hpre). destruct (bm_right _ !! t); by simplify_eq.
Qed.

Definition request_order_id (c : Container) : option Z :=
  match c with
  | CNewOrderSingle c => no_order_id c
  | CCancelOrderRequest c => cr_order_id c
  | _ => None
  end.

(** What the order manager makes of a request before it validates it: the request
    with its number, the link to the engine (which has carried the query for a
    market bid), and the quote or the reason to reject. *)
Section Prepared.
Context {I C D : Type} `{OutboundClient C} `{ProtoCodec}.
Implicit Types (om : OrderManager I C D).

Definition is_market_bid (c : NewOrderSingleContainer) : Prop := no_ord_type c = market /\ no_side c = bid.

(** The client id, made unique among the users. *)
Definition own_id om (user : string) (cl_ord_id : Z) (t : Z) : Prop :=
  exists u, username_user_id_map om !! user = Some u /\ transformed_cl_ord_id cl_ord_id u = Ok t.

Definition fill_query (c : NewOrderSingleContainer) : string :=
  serialize_container (CFillCostQuery (mkFillCostQuery (no_symbol c) (no_order_qty c) ask)).

Inductive prepared om : Container -> Container -> C -> option Z + string -> Prop :=
  | pr_unknown c :
      username_user_id_map om !! no_sender_comp_id c = None ->
      prepared om (CNewOrderSingle c) (CNewOrderSingle (with_order_id c (latest_assigned_order_id (orders om) + 1)))
        (order_request_outbound_client om) (inr "Order request contains unknown username"%string)
  | pr_used c t :
      own_id om (no_sender_comp_id c) (no_cl_ord_id c) t -> is_Some (bm_right (order_id_map (orders om)) !! t) ->
      prepared om (CNewOrderSingle c) (CNewOrderSingle (with_order_id c (latest_assigned_order_id (orders om) + 1)))
        (order_request_outbound_client om) (inr "Client order id has already been used"%string)
  | pr_plain c t :
      own_id om (no_sender_comp_id c) (no_cl_ord_id c) t -> bm_right (order_id_map (orders om)) !! t = None ->
      ~ is_market_bid c ->
      prepared om (CNewOrderSingle c) (CNewOrderSingle (with_order_id c (latest_assigned_order_id (orders om) + 1)))
        (order_request_outbound_client om) (inl None)
  | pr_unsent c t client :
      own_id om (no_sender_comp_id c) (no_cl_ord_id c) t -> bm_right (order_id_map (orders om)) !! t = None ->
      is_market_bid c ->
      oc_send (order_request_outbound_client om) (order_request_connection_id om) (fill_query c) fmt_binary
        = (client, false) ->
      prepared om (CNewOrderSingle c) (CNewOrderSingle (with_order_id c (latest_assigned_order_id (orders om) + 1)))
        client (inr "Order request dropped due to internal reasons"%string)
  | pr_quoted c t client1 client answer quote :
      own_id om (no_sender_comp_id c) (no_cl_ord_id c) t -> bm_right (order_id_map (orders om)) !! t = None ->
      is_market_bid c ->
      oc_send (order_request_outbound_client om) (order_request_connection_id om) (fill_query c) fmt_binary
        = (client1, true) ->
      oc_wait_and_dequeue_message client1 (order_request_connection_id om) = Ok (client, Some answer) ->
      deserialize_container answer = Ok (CFillCostResponse (mkFillCostResponse quote)) ->
      prepared om (CNewOrderSingle c) (CNewOrderSingle (with_order_id c (latest_assigned_order_id (orders om) + 1)))
        client (inl quote)
  | pr_cancel_unknown c :
      username_user_id_map om !! cr_sender_comp_id c = None ->
      prepared om (CCancelOrderRequest c) (CCancelOrderRequest c) (order_request_outbound_client om)
        (inr "Cancel request contains unknown username"%string)
  | pr_cancel c t :
      own_id om (cr_sender_comp_id c) (cr_orig_cl_ord_id c) t ->
      prepared om (CCancelOrderRequest c)
        (CCancelOrderRequest (from_option (with_cancel_id c) c (bm_right (order_id_map (orders om)) !! t)))
        (order_request_outbound_client om) (inl None).

Lemma query_fill_cost_cases om c client r :
  query_fill_cost (order_request_outbound_client om) (order_request_connection_id om) c = Ok (client, r) ->
  (oc_send (order_request_outbound_client om) (order_request_connection_id om) (fill_query c) fmt_binary
     = (client, false) /\ r = inr "Order request dropped due to internal reasons"%string) \/
  exists client1 answer quote,
    oc_send (order_request_outbound_client om) (order_request_connection_id om) (fill_query c) fmt_binary
      = (client1, true) /\
    oc_wait_and_dequeue_message client1 (order_request_connection_id om) = Ok (client, Some answer) /\
    deserialize_container answer = Ok (CFillCostResponse (mkFillCostResponse quote)) /\ r = inl quote.
Proof.
  unfold query_fill_cost. fold (fill_query c). destruct (oc_send _ _ _ _) as [client1 []].
  - intros ([client2 answer] & Hw & Hq)%bind_ok. apply bind_ok in Hq as (a & Ha & Hq).
    unfold wait_response in Hw. apply bind_ok in Hw as ([cl [m|]] & Hw & Hm); [|done]. injection Hm as -> ->.
    destruct a as [?|?|?|?|[quote]|?|?]; try done. injection Hq as <- <-. right. eauto 8.
  - intros [= <- <-]. by left.
Qed.

Lemma preprocess_prepared om gw c c' os' client r :
  preprocess_container (username_user_id_map om) gw (order_request_connection_id om) (orders om)
    (order_request_outbound_client om) c = Ok (c', os', client, r) ->
  prepared om c c' client r.
Proof.
  destruct c as [c|c|?|?|?|?|?]; simpl; try done.
  - intros ([[[c1 os1] cl1] r1] & Hpre & [= <- <- <- <-])%bind_ok.
    unfold preprocess_new_order in Hpre. apply bind_ok in Hpre as (id & Hid & Hpre).
    apply i32_inv in Hid as [-> _]. simpl in Hpre.
    destruct (username_user_id_map om !! no_sender_comp_id c) as [u|] eqn:Hu;
      [|simplify_eq; by apply pr_unknown].
    apply bind_ok in Hpre as (t & Ht & Hpre).
    assert (own_id om (no_sender_comp_id c) (no_cl_ord_id c) t) as Hown by (by exists u).
    destruct (bm_right _ !! t) eqn:Hused; [simplify_eq; eapply pr_used; [done|by rewrite Hused]|].
    assert (is_market_bid c \/ ~ is_market_bid c) as [Hmb|Hmb].
    { unfold is_market_bid. destruct (no_ord_type c), (no_side c); naive_solver. }
    + destruct Hmb as [Hty Hsd]. rewrite Hty, Hsd in Hpre. apply bind_ok in Hpre as ([cl2 r2] & Hq & Hpre).
      simplify_eq. apply (query_fill_cost_cases om) in Hq as [[Hs ->]|(cl3 & a & q & Hs & Hw & Ha & ->)].
      * by eapply pr_unsent.
      * by eapply pr_quoted.
    + destruct (no_ord_type c) eqn:Hty, (no_side c) eqn:Hsd; simplify_eq; try (by eapply pr_plain).
      exfalso. by apply Hmb.
  - intros ([c1 r1] & Hpre & [= <- <- <- <-])%bind_ok. unfold preprocess_cancel_request in Hpre.
    destruct (username_user_id_map om !! cr_sender_comp_id c) as [u|] eqn:Hu;
      [|simplify_eq; by apply pr_cancel_unknown].
    apply bind_ok in Hpre as (t & Ht & Hpre). simplify_eq. apply (pr_cancel om c t). by exists u.
Qed.
End Prepared.

Section Replies.
Context {I C D : Type} `{InboundServerLaws I} `{OutboundClient C} `{OrderManagerDatabase D}
  `{ProtoCodec} (SERVER_NAME : string) (exec_ids : nat -> string).
Implicit Types (om : OrderManager I C D).

Lemma success_report_fields exec_id c infos report :
  generate_success_report_container SERVER_NAME exec_id c infos = Ok report ->
  er_target_comp_id report = request_sender c /\ er_cl_order_id report = request_cl_ord_id c /\
  er_ord_status report = accepted_status c /\ er_text report = None /\
  request_order_id c = Some (er_order_id report).
Proof.
  destruct c as [c|c|?|?|?|?|?]; simpl; try done.
  - by intros (? & ?%get_or_ok & [= <-])%bind_ok.
  - intros (? & ?%get_or_ok & Hr)%bind_ok. by apply bind_ok in Hr as (? & _ & [= <-]).
Qed.

Lemma rejection_report_fields exec_id c infos reason report :
  generate_rejection_report_container SERVER_NAME exec_id c infos reason = Ok report ->
  er_target_comp_id report = request_sender c /\ er_cl_order_id report = request_cl_ord_id c /\
  er_ord_status report = status_rejected /\ er_text report = Some reason /\
  er_order_id report = default (-1) (request_order_id c).
Proof.
  destruct c as [c|c|?|?|?|?|?]; simpl; try done.
  - by intros (? & ->%get_or_ok & [= <-])%bind_ok.
  - by intros (? & _ & [= <-])%bind_ok.
Qed.

(** The verdict on a prepared request and the balances that it leaves. *)
Definition decided om (c' : Container) (r : option Z + string) (verdict : string) (bc : BalanceChecker) : Prop :=
  match r with
  | inl quote => validate_container (active_symbols om) (balance_checker om) c' quote = Ok (bc, verdict)
  | inr reason => verdict = reason /\ bc = balance_checker om
  end.

(** C29: every request is decided, answered, and forwarded exactly when it is valid.
    When the order manager has processed a message from a gateway, it has prepared
    the request (numbered an order, looked up the order of a cancel request, asked
    for the cost of a market bid) and decided on it by its balances.  A valid
    request, and no other, has been sent as prepared on the link to the matching
    engine.  One execution report has been sent to the gateway that the message
    came from, on which the request's sender, client id and number stand, and
    which says new or pending cancel for a valid request and rejected, with the
    reason, for any other.  (Each send may fail, which the code ignores.)  The
    balances change only for a valid request. *)
Theorem request_answered om gw m om' c :
  deserialize_container m = Ok c -> process_request SERVER_NAME exec_ids om gw m = Ok om' ->
  exists c' link r verdict report ok,
    let valid := match r with inl _ => String.eqb verdict "ok" | inr _ => false end in
    prepared om c c' link r /\ decided om c' r verdict (balance_checker om') /\
    order_request_outbound_client om' =
      (if valid then (oc_send link (order_request_connection_id om) (serialize_container c') fmt_binary).1
       else link) /\
    is_send (om_inbound_server om) gw (serialize_container (CExecutionReport report)) fmt_binary
      = (om_inbound_server om', ok) /\
    sends (om_inbound_server om) (om_inbound_server om') gw
      (if ok then [serialize_container (CExecutionReport report)] else []) /\
    er_target_comp_id report = request_sender c /\ er_cl_order_id report = request_cl_ord_id c /\
    er_order_id report = default (-1) (request_order_id c') /\
    er_ord_status report = (if valid then accepted_status c else status_rejected) /\
    er_text report = (if valid then None else Some verdict) /\
    (valid = false -> balance_checker om' = balance_checker om).
Proof.
  intros Hc Hp. unfold process_request in Hp. rewrite Hc in Hp. cbn [mbind res_bind] in Hp.
  apply bind_ok in Hp as ([[[c' os'] client] r] & Hpre & Hp).
  apply bind_ok in Hp as ([bc verdict] & Hv & Hp).
  apply bind_ok in Hp as ([client' inbound] & Hf & Hp). apply bind_ok in Hp as (db & _ & [= <-]).
  destruct (preprocess_keeps _ _ _ _ _ _ _ _ _ _ Hpre) as (<- & <- & <-). simpl.
  apply preprocess_prepared in Hpre. exists c', client, r, verdict.
  set (valid := match r with inl _ => String.eqb verdict "ok" | inr _ => false end) in *.
  assert (decided om c' r verdict bc) as Hdec by (destruct r; simpl; [done|by simplify_eq]).
  assert (valid = false -> bc = balance_checker om) as Hbc.
  { unfold valid. destruct r as [cost|err]; [|by simplify_eq]. intros Hne%String.eqb_neq.
    by eapply validate_rejects. }
  unfold forward_and_reply in Hf. apply bind_ok in Hf as (? & _ & Hf). destruct valid.
  - apply bind_ok in Hf as (report & Hr & [= <- <-]).
    destruct (success_report_fields _ _ _ _ Hr) as (? & ? & ? & ? & ->). exists report.
    destruct (is_send _ _ _ _) as [inbound ok] eqn:Hsend. simpl. exists ok. do 4 (split; [done|]).
    split; [by eapply sends_of_law; [apply is_send_law|]|]. done.
  - apply bind_ok in Hf as (reason & [= ->]%get_or_ok & Hf). apply bind_ok in Hf as (report & Hr & [= <- <-]).
    destruct (rejection_report_fields _ _ _ _ _ Hr) as (? & ? & ? & ? & ?). exists report.
    destruct (is_send _ _ _ _) as [inbound ok] eqn:Hsend. simpl. exists ok. do 4 (split; [done|]).
    split; [by eapply sends_of_law; [apply is_send_law|]|]. done.
Qed.
End Replies.

(** A cancel request is taken at its word.  A known user whose request names
    no order of their own (the original client id is unknown) but carries an
    internal order id passes preprocessing and validation with that id as it is:
    nothing checks that the order is the user's, or that it exists. *)
Theorem cancel_trusts_client_id {C} `{OutboundClient C} `{ProtoCodec} users gw conn os (client : C)
    symbols bc c id u t :
  users !! cr_sender_comp_id c = Some u ->
  transformed_cl_ord_id (cr_orig_cl_ord_id c) u = Ok t ->
  bm_right (order_id_map os) !! t = None -> cr_order_id c = Some id ->
  preprocess_container users gw conn os client (CCancelOrderRequest c)
    = Ok (CCancelOrderRequest c, os, client, inl None) /\
  validate_container symbols bc (CCancelOrderRequest c) None = Ok (bc, "ok"%string).
Proof.
  intros Hu Ht Hr Hid. simpl. unfold preprocess_cancel_request. rewrite Hu, Ht. simpl.
  rewrite Hr, Hid. done.
Qed.

(** ** The theorems on a concrete order manager *)
#[local] Existing Instance toy_codec.

(** A database that keeps what it is told, as numbered lines. *)
Inductive db_entry :=
  | DbOrder (id : Z) (valid : bool)
  | DbCancelRequest (cl_ord_id : Z) (valid : bool)
  | DbTrade (t : TradeContainer)
  | DbCancelResponse (r : CancelOrderResponseContainer)
  | DbBalance (user_id server_id : Z) (symbol : string) (balance : Z).

#[export] Instance log_database : OrderManagerDatabase (list db_entry) := {|
  db_get_all_users_balances_for_server _ _ := inl [mkUserBalance 7 "alice" [mkBalanceRow "USD" 5000]];
  db_get_server _ _ := inl (Some 1);
  db_insert_order db id _ valid := db ++ [DbOrder id valid];
  db_insert_cancel_request db c valid := db ++ [DbCancelRequest (cr_cl_ord_id c) valid];
  db_insert_trade db t := db ++ [DbTrade t];
  db_insert_cancel_response db r := db ++ [DbCancelResponse r];
  db_update_balance db u s x b := db ++ [DbBalance u s x b]
|}.

Lemma client_id_roundtrip_witness :
  div32 12007 max_user_count = Ok 12 /\
  forall cl' user', 0 <= cl' -> 0 <= user' < max_user_count ->
    transformed_cl_ord_id cl' user' = Ok 12007 -> cl' = 12 /\ user' = 7.
Proof.
  apply (client_id_roundtrip 12 7 12007); [lia|unfold max_user_count; lia|reflexivity].
Defined.

Definition no_orders : Orders := mkOrders (mkBimap ∅ ∅) ∅ (-1).

Lemma no_orders_wf : orders_wf no_orders.
Proof.
  split; simpl; [| | |lia].
  - intros id t. rewrite !lookup_empty. done.
  - intros id. rewrite !lookup_empty. split; by intros [].
  - intros id. rewrite lookup_empty. by intros [].
Qed.

Definition sample_users : gmap string Z := {[ "alice"%string := 7 ]}.
Definition a_client : WebsocketManager unit := mkManager () {[ 0 := new_metadata 0 10 "uri" ]} ∅ 1 [].
Definition alice_order : NewOrderSingleContainer :=
  mkNewOrder "alice" "OM" None 12 "GME" bid 10 limit (Some 100) day.

Definition preprocessed : Orders :=
  match preprocess_container sample_users 3 0 no_orders a_client (CNewOrderSingle alice_order) with
  | Ok (_, os, _, _) => os | Err _ => no_orders
  end.

Lemma preprocess_ids_witness :
  orders_wf preprocessed /\
  let id := latest_assigned_order_id no_orders + 1 in
  with_order_id alice_order 0 = with_order_id alice_order id /\
  latest_assigned_order_id preprocessed = id /\ order_info_map no_orders !! id = None /\
  exists t, transformed_cl_ord_id 12 7 = Ok t /\
    (bm_right (order_id_map no_orders) !! t = None ->
       order_info_map preprocessed = <[id := order_info_of (with_order_id alice_order 0) 3]> (order_info_map no_orders) /\
       bm_left (order_id_map preprocessed) !! id = Some t) /\
    (is_Some (bm_right (order_id_map no_orders) !! t) ->
       order_info_map preprocessed = order_info_map no_orders /\
       (inl None : option Z + string) = inr "Client order id has already been used"%string).
Proof.
  apply (preprocess_ids sample_users 3 0 no_orders a_client (CNewOrderSingle alice_order)
           (CNewOrderSingle (with_order_id alice_order 0)) preprocessed a_client (inl None));
    [exact no_orders_wf|vm_compute; reflexivity].
Defined.

Definition sample_om : OrderManager (WebsocketManager unit) (WebsocketManager unit) (list db_entry) :=
  mkOrderManager ["GME"%string] [0] 0 0 a_client a_client a_client
    {[ "alice"%string := {[ "USD"%string := 5000 ]} ]} sample_users [] 1 no_orders 0 0.

Definition om_after : OrderManager (WebsocketManager unit) (WebsocketManager unit) (list db_entry) :=
  match process_request "UAT" (fun _ => "e"%string) sample_om 0
          (serialize_container (CNewOrderSingle alice_order)) with
  | Ok om => om | Err _ => sample_om
  end.

Lemma request_answered_witness :
  exists c' link r verdict report ok,
    let valid := match r with inl _ => String.eqb verdict "ok" | inr _ => false end in
    prepared sample_om (CNewOrderSingle alice_order) c' link r /\
    decided sample_om c' r verdict (balance_checker om_after) /\
    order_request_outbound_client om_after =
      (if valid then (oc_send link 0 (serialize_container c') fmt_binary).1 else link) /\
    is_send (om_inbound_server sample_om) 0 (serialize_container (CExecutionReport report)) fmt_binary
      = (om_inbound_server om_after, ok) /\
    sends (om_inbound_server sample_om) (om_inbound_server om_after) 0
      (if ok then [serialize_container (CExecutionReport report)] else []) /\
    er_target_comp_id report = "alice"%string /\ er_cl_order_id report = 12 /\
    er_order_id report = default (-1) (request_order_id c') /\
    er_ord_status report = (if valid then status_new else status_rejected) /\
    er_text report = (if valid then None else Some verdict) /\
    (valid = false -> balance_checker om_after = balance_checker sample_om).
Proof.
  apply (request_answered "UAT" (fun _ => "e"%string) sample_om 0
           (serialize_container (CNewOrderSingle alice_order)) om_after (CNewOrderSingle alice_order));
    vm_compute; reflexivity.
Defined.

(** Mallory cancels order 0, which is Alice's. *)
Definition mallory_cancel : CancelOrderRequestContainer :=
  mkCancelRequest "mallory" "OM" (Some 0) 99 1 "GME" bid 10.

Lemma cancel_trusts_client_id_witness :
  preprocess_container {[ "mallory"%string := 8 ]} 3 0 preprocessed a_client (CCancelOrderRequest mallory_cancel)
    = Ok (CCancelOrderRequest mallory_cancel, preprocessed, a_client, inl None) /\
  validate_container ["GME"%string] ∅ (CCancelOrderRequest mallory_cancel) None = Ok (∅, "ok"%string).
Proof.
  apply (cancel_trusts_client_id {[ "mallory"%string := 8 ]} 3 0 preprocessed a_client ["GME"%string] ∅
           mallory_cancel 0 8 99008); vm_compute; reflexivity.
Defined.
