(* ===== verification/OrderSettlement.v ===== *)
(** * Theorems on the order manager: settlement

    A trade moves exactly its quantity and its value between the two parties and
    refunds the buyer's saving; over any sequence of accepted limit orders, trades
    and cancellations, cash and stock are conserved: what the balances lose is
    what the live orders have set aside. *)

From S2P Require Import Prelude Core Messaging Concurrency Transport BalanceChecker OrderManager OrderValidation.
From Stdlib Require Import ZArith Lia Ascii String.
From stdpp Require Import base option list gmap strings fin_maps relations.

Open Scope Z_scope.

Definition seller_order_id (t : TradeContainer) : Z :=
  if tc_is_taker_buyer t then tc_maker_order_id t else tc_taker_order_id t.

(** ** Fills *)

(** The fill of an order's record that the arithmetic on [int] can carry. *)
Record fill_fits (i : OrderInfo) (price quantity : Z) : Prop := {
  ff_avg : 0 <= oi_avg_px i;
  ff_cum : 0 <= oi_cum_qty i;
  ff_price : 0 < price;
  ff_quantity : 0 < quantity;
  ff_value : oi_avg_px i * oi_cum_qty i + price * quantity <= INT_MAX;
  ff_total : quantity + oi_cum_qty i <= INT_MAX;
  ff_leaves : quantity <= oi_leaves_qty i <= INT_MAX
}.

Definition filled_info (i : OrderInfo) (price quantity : Z) : OrderInfo :=
  mkOrderInfo (oi_sender_comp_id i) (oi_symbol i) (oi_side i) (oi_price i) (oi_time_in_force i)
    (oi_leaves_qty i - quantity) (oi_cum_qty i + quantity)
    ((oi_avg_px i * oi_cum_qty i + price * quantity) / (quantity + oi_cum_qty i))
    (oi_arrival_gateway_id i).

Lemma fill_order_info_ok i price quantity :
  fill_fits i price quantity -> fill_order_info i price quantity = Ok (filled_info i price quantity).
Proof.
  intros [? ? ? ? Hv Ht Hl]. unfold fill_order_info, mul32, add32, sub32, div32.
  assert (0 <= oi_avg_px i * oi_cum_qty i) by nia. assert (0 < price * quantity) by nia.
  do 6 (rewrite i32_ok by (unfold INT_MIN, INT_MAX in *; lia); cbn [mbind res_bind]).
  rewrite (proj2 (Z.eqb_neq _ _)), Z.quot_div_nonneg by lia.
  assert (0 <= (oi_avg_px i * oi_cum_qty i + price * quantity) / (quantity + oi_cum_qty i) <= INT_MAX).
  { split; [apply Z.div_pos; lia|]. etrans; [|exact Hv]. apply Z.div_le_upper_bound; nia. }
  by rewrite i32_ok by (unfold INT_MIN, INT_MAX in *; lia).
Qed.

(** A fill that returned, seen from its result. *)
Lemma fill_order_info_inv i price quantity i' :
  fill_order_info i price quantity = Ok i' ->
  oi_sender_comp_id i' = oi_sender_comp_id i /\ oi_symbol i' = oi_symbol i /\
  oi_side i' = oi_side i /\ oi_price i' = oi_price i /\
  oi_leaves_qty i' = oi_leaves_qty i - quantity.
Proof.
  unfold fill_order_info. intros Hf. do 4 (apply bind_ok in Hf as (? & _ & Hf)).
  apply bind_ok in Hf as (? & _ & Hf). apply bind_ok in Hf as (l & Hl & Hf).
  apply bind_ok in Hf as (? & _ & [= <-]). int_inv. done.
Qed.

(** ** One trade *)

(** What a trade adds to the balance of [b] in [x]. *)
Definition trade_delta (limit_price : option Z) (t : TradeContainer) (b x : string) : Z :=
  (if decide (b = buyer_id t /\ x = tc_ticker t) then tc_quantity t else 0) +
  (if decide (b = buyer_id t /\ x = USD_SYMBOL)
   then from_option (fun p => (p - tc_price t) * tc_quantity t) 0 limit_price else 0) +
  (if decide (b = seller_id t /\ x = USD_SYMBOL) then tc_price t * tc_quantity t else 0).

Lemma refund_ok bc buyer limit_price t :
  balances_wf bc -> 0 < tc_price t <= INT_MAX -> 0 < tc_quantity t ->
  (forall p, limit_price = Some p -> tc_price t <= p <= INT_MAX /\
     (p - tc_price t) * tc_quantity t <= INT_MAX) ->
  balance_of bc buyer USD_SYMBOL +
    from_option (fun p => (p - tc_price t) * tc_quantity t) 0 limit_price <= INT64_MAX ->
  exists bc', refund_improvement bc buyer limit_price t = Ok bc' /\ balances_wf bc' /\
    credited bc buyer USD_SYMBOL (from_option (fun p => (p - tc_price t) * tc_quantity t) 0 limit_price) bc'.
Proof.
  intros Hwf Hp Hq Hl Hb. pose proof (balance_nonneg bc buyer USD_SYMBOL Hwf).
  assert (forall d, d = 0 -> credited bc buyer USD_SYMBOL d bc) as Hsame
    by (intros d -> b x; case_decide; lia).
  destruct limit_price as [p|]; simpl in *; [|by eexists; split; [|split; [|apply Hsame]]].
  destruct (Hl p eq_refl) as [Hle Hmax]. unfold sub32.
  rewrite i32_ok by (unfold INT_MIN, INT_MAX in *; lia). simpl.
  rewrite (proj2 (Z.leb_le _ _)) by lia. simpl. destruct (0 <? _) eqn:Hlt.
  - unfold mul32. rewrite i32_ok by (unfold INT_MIN, INT_MAX in *; nia). simpl.
    destruct (update_balance_ok bc buyer USD_SYMBOL ((p - tc_price t) * tc_quantity t) Hwf
      ltac:(done) ltac:(nia)) as (bc' & -> & ? & ? & _). eauto.
  - exists bc. split; [done|]. split; [done|]. apply Hsame. apply Z.ltb_ge in Hlt. nia.
Qed.

Record trade_fits (infos : gmap Z OrderInfo) (bc : BalanceChecker) (t : TradeContainer)
    (taker maker : OrderInfo) (limit_price : option Z) : Prop := {
  tf_taker : infos !! tc_taker_order_id t = Some taker;
  tf_maker : infos !! tc_maker_order_id t = Some maker;
  tf_distinct : tc_taker_order_id t <> tc_maker_order_id t;
  tf_limit : limit_price = oi_price (if tc_is_taker_buyer t then taker else maker);
  tf_taker_fill : fill_fits taker (tc_price t) (tc_quantity t);
  tf_maker_fill : fill_fits maker (tc_price t) (tc_quantity t);
  tf_ticker : tc_ticker t <> ""%string;
  tf_price : tc_price t <= INT_MAX;
  tf_improves : forall p, limit_price = Some p -> tc_price t <= p <= INT_MAX /\
    (p - tc_price t) * tc_quantity t <= INT_MAX;
  tf_room : forall b x, balance_of bc b x + 3 * INT_MAX <= INT64_MAX
}.

(** C14: a trade is settled exactly.  For two orders on record, within the limits
    of the [int] arithmetic and of the balances, [update_internal_data] returns:
    the buyer's stock grows by the quantity, the seller's cash by the value, a
    limit buyer gets back the difference to the limit (a market buyer nothing), no
    other balance changes and none becomes negative; in both records the filled
    quantity moves from leaves to cumulative and the average price is the
    truncated weighted mean. *)
Theorem trade_settles infos bc t taker maker limit_price :
  balances_wf bc -> trade_fits infos bc t taker maker limit_price ->
  exists bc',
    update_internal_data (CTrade t) infos bc =
      Ok (<[tc_maker_order_id t := filled_info maker (tc_price t) (tc_quantity t)]>
            (<[tc_taker_order_id t := filled_info taker (tc_price t) (tc_quantity t)]> infos), bc') /\
    balances_wf bc' /\
    forall b x, balance_of bc' b x = balance_of bc b x + trade_delta limit_price t b x.
Proof.
  intros Hwf [Ht Hm Hne Hlim Hft Hfm Htk Hpm Himp Hroom]. simpl. unfold apply_trade.
  rewrite Ht, Hm. simpl. rewrite fill_order_info_ok by done. simpl.
  rewrite lookup_insert_ne, Hm by done. simpl. rewrite fill_order_info_ok by done. simpl.
  pose proof (ff_quantity _ _ _ Hft) as Hq. pose proof (ff_price _ _ _ Hft) as Hp.
  assert (tc_price t * tc_quantity t <= INT_MAX) as Hval
    by (pose proof (ff_value _ _ _ Hft); pose proof (ff_avg _ _ _ Hft); pose proof (ff_cum _ _ _ Hft); nia).
  assert (tc_quantity t <= INT_MAX) by nia.
  destruct (update_balance_ok bc (buyer_id t) (tc_ticker t) (tc_quantity t) Hwf Htk) as
    (bc1 & -> & Hwf1 & Hc1 & _).
  { pose proof (balance_nonneg bc (buyer_id t) (tc_ticker t) Hwf).
    specialize (Hroom (buyer_id t) (tc_ticker t)). unfold INT_MAX in *. lia. }
  simpl. set (infos' := <[tc_maker_order_id t := _]> _).
  assert (exists i, infos' !! buyer_order_id t = Some i /\ oi_price i = limit_price) as (i & -> & Hi).
  { unfold infos', buyer_order_id. rewrite Hlim. destruct (tc_is_taker_buyer t).
    - rewrite lookup_insert_ne, lookup_insert_eq by done. eauto.
    - rewrite lookup_insert_eq. eauto. }
  simpl. rewrite Hi.
  assert (0 <= from_option (fun p => (p - tc_price t) * tc_quantity t) 0 limit_price <= INT_MAX) as Hrf.
  { destruct limit_price as [p|]; simpl; [|unfold INT_MAX; lia]. destruct (Himp p eq_refl). nia. }
  destruct (refund_ok bc1 (buyer_id t) limit_price t Hwf1 ltac:(lia) Hq Himp) as (bc2 & -> & Hwf2 & Hc2).
  { rewrite Hc1. specialize (Hroom (buyer_id t) USD_SYMBOL). case_decide; unfold INT_MAX in *; lia. }
  simpl. unfold mul32. rewrite i32_ok by (unfold INT_MIN; nia). simpl.
  destruct (update_balance_ok bc2 (seller_id t) USD_SYMBOL (tc_price t * tc_quantity t) Hwf2 ltac:(done))
    as (bc3 & -> & Hwf3 & Hc3 & _).
  { pose proof (balance_nonneg bc2 (seller_id t) USD_SYMBOL Hwf2). split; [nia|].
    rewrite Hc2, Hc1. specialize (Hroom (seller_id t) USD_SYMBOL). repeat case_decide; unfold INT_MAX in *; lia. }
  simpl. exists bc3. split; [done|]. split; [done|].
  intros b x. rewrite Hc3, Hc2, Hc1. unfold trade_delta. lia.
Qed.

(** ** Conservation *)
Section Ledger.
Variable users : list string.
Variable symbols : list string.
Hypothesis Husers : NoDup users.
Hypothesis Hsymbols : ""%string ∉ symbols.

(** All that the users hold of [x]. *)
Definition total (bc : BalanceChecker) (x : string) : Z := sumZ (fun b => balance_of bc b x) users.

(** What an order with this record has set aside. *)
Definition set_aside (i : OrderInfo) (x : string) : Z :=
  match oi_side i with
  | bid => if decide (x = USD_SYMBOL) then default 0 (oi_price i) * oi_leaves_qty i else 0
  | ask => if decide (x = oi_symbol i) then oi_leaves_qty i else 0
  end.

Definition escrow (infos : gmap Z OrderInfo) (live : list Z) (x : string) : Z :=
  sumZ (fun id => from_option (fun i => set_aside i x) 0 (infos !! id)) live.

Record ledger := mkLedger { ld_bc : BalanceChecker; ld_infos : gmap Z OrderInfo; ld_live : list Z }.

(** A live order: a limit order of a known user. *)
Definition live_order (i : OrderInfo) : Prop :=
  oi_sender_comp_id i ∈ users /\ 0 <= oi_leaves_qty i <= INT_MAX /\
  exists p, oi_price i = Some p /\ 0 < p <= INT_MAX.

Record ledger_wf (l : ledger) : Prop := {
  lw_balances : balances_wf (ld_bc l);
  lw_nodup : NoDup (ld_live l);
  lw_live : forall id, id ∈ ld_live l -> exists i, ld_infos l !! id = Some i /\ live_order i
}.

(** What the matching engine guarantees of a trade it announces: it is between a
    resting order and an incoming one, on opposite sides of the same book, for
    no more than either has left. *)
Record trade_between (l : ledger) (t : TradeContainer) (b s : OrderInfo) : Prop := {
  tb_buyer_live : buyer_order_id t ∈ ld_live l;
  tb_seller_live : seller_order_id t ∈ ld_live l;
  tb_distinct : tc_taker_order_id t <> tc_maker_order_id t;
  tb_buyer : ld_infos l !! buyer_order_id t = Some b;
  tb_seller : ld_infos l !! seller_order_id t = Some s;
  tb_sides : oi_side b = bid /\ oi_side s = ask;
  tb_parties : oi_sender_comp_id b = buyer_id t /\ oi_sender_comp_id s = seller_id t;
  tb_symbol : oi_symbol s = tc_ticker t;
  tb_price : 0 < tc_price t;
  tb_quantity : 0 < tc_quantity t /\ tc_quantity t <= oi_leaves_qty b /\ tc_quantity t <= oi_leaves_qty s
}.

(** Limit orders accepted, trades announced and cancellations confirmed, as the
    order manager processes them. *)
Inductive ledger_step : ledger -> ledger -> Prop :=
  | ls_place bc infos live c id gw bc' :
      validate_container symbols bc (CNewOrderSingle c) None = Ok (bc', "ok"%string) ->
      well_typed_order c None -> no_ord_type c = limit -> no_sender_comp_id c ∈ users ->
      infos !! id = None -> id ∉ live ->
      ledger_step (mkLedger bc infos live)
                  (mkLedger bc' (<[id := order_info_of c gw]> infos) (id :: live))
  | ls_trade bc infos live t b s infos' bc' :
      trade_between (mkLedger bc infos live) t b s ->
      update_internal_data (CTrade t) infos bc = Ok (infos', bc') ->
      ledger_step (mkLedger bc infos live) (mkLedger bc' infos' live)
  | ls_cancel bc infos live r infos' bc' live' :
      cs_success r = true -> live ≡ₚ cs_order_id r :: live' ->
      update_internal_data (CCancelOrderResponse r) infos bc = Ok (infos', bc') ->
      ledger_step (mkLedger bc infos live) (mkLedger bc' infos' live').

Lemma total_credited bc b t d bc' x :
  b ∈ users -> credited bc b t d bc' ->
  total bc' x = total bc x + if decide (x = t) then d else 0.
Proof.
  intros Hb Hc. unfold total. clear Hsymbols. revert Hb. induction Husers as [|u us Hu Hus IH]; [set_solver|].
  assert (forall us0, b ∉ us0 -> sumZ (fun b0 => balance_of bc' b0 x) us0 =
    sumZ (fun b0 => balance_of bc b0 x) us0) as Hout.
  { intros us0. induction us0 as [|v us0 IH']; simpl; [done|]. intros [Hv Hn]%not_elem_of_cons.
    rewrite IH', Hc by done. rewrite decide_False by naive_solver. lia. }
  intros [->|Hb]%elem_of_cons; simpl; rewrite Hc.
  - rewrite Hout by done. repeat case_decide; try lia; naive_solver.
  - rewrite IH by done. rewrite decide_False by (intros [-> _]; done). repeat case_decide; lia.
Qed.

Lemma escrow_insert infos live id i x :
  id ∉ live -> escrow (<[id := i]> infos) live x = escrow infos live x.
Proof.
  unfold escrow. induction live as [|id' live IH]; simpl; [done|]. intros [Hne Hn]%not_elem_of_cons.
  by rewrite lookup_insert_ne, IH by done.
Qed.

Lemma escrow_update infos live id i i' x :
  NoDup live -> id ∈ live -> infos !! id = Some i ->
  escrow (<[id := i']> infos) live x = escrow infos live x - set_aside i x + set_aside i' x.
Proof.
  intros Hnd Hin Hi. unfold escrow. induction Hnd as [|id' live Hn Hnd IH]; [set_solver|]. simpl.
  apply elem_of_cons in Hin as [<-|Hin].
  - rewrite lookup_insert_eq, Hi. simpl. fold (escrow (<[id := i']> infos) live x).
    rewrite escrow_insert by done. unfold escrow. lia.
  - assert (id <> id') by congruence. rewrite lookup_insert_ne by done. rewrite IH by done. lia.
Qed.

Lemma escrow_perm infos live live' x : live ≡ₚ live' -> escrow infos live x = escrow infos live' x.
Proof. apply sumZ_perm. Qed.

(** ** Preservation *)
Lemma refund_inv bc buyer limit_price t bc' :
  balances_wf bc -> 0 < tc_quantity t -> refund_improvement bc buyer limit_price t = Ok bc' ->
  balances_wf bc' /\
  credited bc buyer USD_SYMBOL (from_option (fun p => (p - tc_price t) * tc_quantity t) 0 limit_price) bc'.
Proof.
  intros Hwf Hq Hr. assert (forall d, d = 0 -> credited bc buyer USD_SYMBOL d bc) as Hsame
    by (intros d -> b x; case_decide; lia).
  destruct limit_price as [p|]; simpl in *; [|injection Hr as <-; split; [done|by apply Hsame]].
  apply bind_ok in Hr as (im & Him & Hr). int_inv. apply bind_ok in Hr as ([] & Hge%check_ok & Hr).
  apply Z.leb_le in Hge. destruct (0 <? _) eqn:Hlt.
  - apply bind_ok in Hr as (rf & Hrf & Hr). int_inv.
    destruct (update_balance_inv _ _ _ _ _ Hwf Hr) as (? & ? & _);
      [right; nia|unfold INT64_MAX, INT_MAX in *; lia|done].
  - injection Hr as <-. split; [done|]. apply Hsame. apply Z.ltb_ge in Hlt. nia.
Qed.

(** What is left of a live order after a fill, and what it then has set aside. *)
Lemma fill_live i price quantity i' :
  live_order i -> fill_order_info i price quantity = Ok i' -> 0 < quantity <= oi_leaves_qty i ->
  live_order i' /\
  forall x, set_aside i' x = set_aside i x -
    match oi_side i with
    | bid => if decide (x = USD_SYMBOL) then default 0 (oi_price i) * quantity else 0
    | ask => if decide (x = oi_symbol i) then quantity else 0
    end.
Proof.
  intros (Hu & Hl & p & Hp & Hpb) (E1 & E2 & E3 & E4 & E5)%fill_order_info_inv Hq.
  unfold live_order, set_aside. rewrite E1, E2, E3, E4, E5. split.
  - split; [done|]. split; [lia|]. eauto.
  - intros x. destruct (oi_side i); case_decide; lia.
Qed.

Lemma buyer_seller_ids (t : TradeContainer) :
  tc_taker_order_id t <> tc_maker_order_id t ->
  buyer_order_id t <> seller_order_id t /\
  (buyer_order_id t = tc_taker_order_id t /\ seller_order_id t = tc_maker_order_id t \/
   buyer_order_id t = tc_maker_order_id t /\ seller_order_id t = tc_taker_order_id t).
Proof. unfold buyer_order_id, seller_order_id. destruct (tc_is_taker_buyer t); intuition. Qed.

(** A settled trade, seen from its result: the two records and three credits. *)
Lemma apply_trade_inv infos bc t infos' bc' b s :
  balances_wf bc -> 0 < tc_price t -> 0 < tc_quantity t ->
  tc_taker_order_id t <> tc_maker_order_id t ->
  infos !! buyer_order_id t = Some b -> infos !! seller_order_id t = Some s ->
  apply_trade infos bc t = Ok (infos', bc') ->
  exists b' s' bc1 bc2,
    fill_order_info b (tc_price t) (tc_quantity t) = Ok b' /\
    fill_order_info s (tc_price t) (tc_quantity t) = Ok s' /\
    infos' = <[seller_order_id t := s']> (<[buyer_order_id t := b']> infos) /\
    balances_wf bc' /\ credited bc (buyer_id t) (tc_ticker t) (tc_quantity t) bc1 /\
    credited bc1 (buyer_id t) USD_SYMBOL (default 0 ((fun p => (p - tc_price t) * tc_quantity t) <$> oi_price b)) bc2 /\
    credited bc2 (seller_id t) USD_SYMBOL (tc_price t * tc_quantity t) bc'.
Proof.
  intros Hwf Hp Hq Hne Hb Hs Ha. destruct (buyer_seller_ids t Hne) as [Hbs Hids].
  unfold apply_trade in Ha. do 2 (apply bind_ok in Ha as (? & _ & Ha)).
  apply bind_ok in Ha as (tk & Htk%get_or_ok & Ha). apply bind_ok in Ha as (tk' & Hft & Ha).
  apply bind_ok in Ha as (mk & Hmk%get_or_ok & Ha). apply bind_ok in Ha as (mk' & Hfm & Ha).
  rewrite lookup_insert_ne in Hmk by done.
  apply bind_ok in Ha as (bc1 & Hu1 & Ha). apply bind_ok in Ha as (bo & Hbo%get_or_ok & Ha).
  apply bind_ok in Ha as (bc2 & Hu2 & Ha). apply bind_ok in Ha as (pr & Hpr & Ha).
  apply bind_ok in Ha as (bc3 & Hu3 & [= <- <-]). int_inv.
  assert (exists b' s', fill_order_info b (tc_price t) (tc_quantity t) = Ok b' /\
    fill_order_info s (tc_price t) (tc_quantity t) = Ok s' /\ bo = b' /\
    <[tc_maker_order_id t:=mk']> (<[tc_taker_order_id t:=tk']> infos) =
    <[seller_order_id t := s']> (<[buyer_order_id t := b']> infos)) as (b' & s' & Hb' & Hs' & -> & Hinf).
  { destruct Hids as [[Ei Es]|[Ei Es]]; rewrite Ei, Es in *.
    - rewrite lookup_insert_ne, lookup_insert_eq in Hbo by done. simplify_eq. eauto 6.
    - rewrite lookup_insert_eq in Hbo. simplify_eq. exists bo, tk'. do 3 (split; [done|]).
      by apply insert_insert_ne. }
  destruct (fill_order_info_inv _ _ _ _ Hb') as (_ & _ & _ & Hpb & _).
  assert (tc_quantity t <= INT_MAX) as Hqm by (unfold INT_MAX in *; nia).
  destruct (update_balance_inv _ _ _ _ _ Hwf Hu1) as (Hwf1 & Hc1 & _);
    [right; lia|unfold INT64_MAX, INT_MAX in *; lia|].
  destruct (refund_inv _ _ _ _ _ Hwf1 Hq Hu2) as [Hwf2 Hc2].
  destruct (update_balance_inv _ _ _ _ _ Hwf2 Hu3) as (Hwf3 & Hc3 & _);
    [right; nia|unfold INT64_MAX, INT_MAX in *; lia|].
  rewrite Hpb in Hc2. exists b', s', bc1, bc2. do 5 (split; [done|]). split; [|done].
  by destruct (oi_price b).
Qed.

(** What a step keeps. *)
Definition conserved (l l' : ledger) : Prop :=
  forall x, total (ld_bc l') x + escrow (ld_infos l') (ld_live l') x =
            total (ld_bc l) x + escrow (ld_infos l) (ld_live l) x.

Lemma trade_step_conserves bc infos live t b s infos' bc' :
  ledger_wf (mkLedger bc infos live) -> trade_between (mkLedger bc infos live) t b s ->
  apply_trade infos bc t = Ok (infos', bc') ->
  ledger_wf (mkLedger bc' infos' live) /\ conserved (mkLedger bc infos live) (mkLedger bc' infos' live).
Proof.
  intros [Hwf Hnd Hlive] [Hbl Hsl Hne Hb Hs [Hsb Hss] [Hpb Hps] Hsym Hp (Hq & Hqb & Hqs)] Ha. simpl in *.
  destruct (apply_trade_inv _ _ _ _ _ _ _ Hwf Hp Hq Hne Hb Hs Ha)
    as (b' & s' & bc1 & bc2 & Hfb & Hfs & -> & Hwf' & Hc1 & Hc2 & Hc3).
  destruct (buyer_seller_ids t Hne) as [Hbs _].
  destruct (Hlive _ Hbl) as (b0 & Hb0 & Hlb). destruct (Hlive _ Hsl) as (s0 & Hs0 & Hls). simplify_eq.
  destruct (fill_live _ _ _ _ Hlb Hfb ltac:(lia)) as [Hlb' Hab].
  destruct (fill_live _ _ _ _ Hls Hfs ltac:(lia)) as [Hls' Has].
  assert (buyer_id t ∈ users /\ seller_id t ∈ users) as [Hub Hus].
  { rewrite <- Hpb, <- Hps. split; [apply Hlb|apply Hls]. }
  split.
  - split; simpl; try done. intros id Hid. destruct (decide (id = seller_order_id t)) as [->|].
    + rewrite lookup_insert_eq. eauto.
    + rewrite lookup_insert_ne by done. destruct (decide (id = buyer_order_id t)) as [->|].
      * rewrite lookup_insert_eq. eauto.
      * rewrite lookup_insert_ne by done. by apply Hlive.
  - intros x. simpl. rewrite (escrow_update _ _ _ s s') by (done || by rewrite lookup_insert_ne).
    rewrite (escrow_update _ _ _ b b') by done. rewrite Hab, Has, Hsb, Hss, Hsym.
    rewrite (total_credited _ _ _ _ _ x Hus Hc3), (total_credited _ _ _ _ _ x Hub Hc2),
      (total_credited _ _ _ _ _ x Hub Hc1).
    destruct Hlb as (_ & _ & p & -> & _). simpl. repeat case_decide; lia.
Qed.

Lemma cancel_step_conserves bc infos live r bc' live' :
  ledger_wf (mkLedger bc infos live) -> cs_success r = true -> live ≡ₚ cs_order_id r :: live' ->
  apply_cancel_response infos bc r = Ok bc' ->
  ledger_wf (mkLedger bc' infos live') /\ conserved (mkLedger bc infos live) (mkLedger bc' infos live').
Proof.
  intros [Hwf Hnd Hlive] Hok Hperm Ha. simpl in *. unfold apply_cancel_response in Ha. rewrite Hok in Ha.
  apply bind_ok in Ha as (i & Hi%get_or_ok & Ha). apply bind_ok in Ha as (p & Hp%get_or_ok & Ha).
  destruct (Hlive (cs_order_id r)) as (i0 & Hi0 & Hl); [rewrite Hperm; left|]. simplify_eq.
  pose proof Hl as (Hu & Hlv & p0 & Hp0 & Hpb). simplify_eq.
  assert (exists x amount, balances_wf bc' /\ credited bc (oi_sender_comp_id i) x amount bc' /\
    forall y, set_aside i y = if decide (y = x) then amount else 0) as (x & amount & Hwf' & Hc & Hsa).
  { unfold set_aside. destruct (oi_side i).
    - apply bind_ok in Ha as (rf & Hrf & Ha). int_inv.
      destruct (update_balance_inv _ _ _ _ _ Hwf Ha) as (? & ? & _);
        [right; nia|unfold INT64_MAX, INT_MAX in *; lia|].
      eexists _, _. split; [done|]. split; [done|]. rewrite Hp. done.
    - destruct (update_balance_inv _ _ _ _ _ Hwf Ha) as (? & ? & _);
        [right; lia|unfold INT64_MAX, INT_MAX in *; lia|]. eauto. }
  split.
  - split; simpl; [done|by rewrite Hperm in Hnd; apply NoDup_cons in Hnd as [_ ?]|].
    intros id Hid. apply Hlive. rewrite Hperm. by right.
  - intros y. simpl. rewrite (escrow_perm _ _ _ y Hperm), (total_credited _ _ _ _ _ y Hu Hc).
    unfold escrow. simpl. rewrite Hi. simpl. rewrite Hsa. lia.
Qed.

Lemma place_step_conserves bc infos live c id gw bc' :
  ledger_wf (mkLedger bc infos live) ->
  validate_new_order symbols bc c None = Ok (bc', "ok"%string) -> well_typed_order c None ->
  no_ord_type c = limit -> no_sender_comp_id c ∈ users -> infos !! id = None -> id ∉ live ->
  ledger_wf (mkLedger bc' (<[id := order_info_of c gw]> infos) (id :: live)) /\
  conserved (mkLedger bc infos live) (mkLedger bc' (<[id := order_info_of c gw]> infos) (id :: live)).
Proof.
  intros [Hwf Hnd Hlive] Hv Hwt Hlim Hu Hn Hni. simpl in *.
  destruct (validate_new_order_ok symbols bc c None Hwf Hwt Hsymbols) as (bc0 & v & Hv' & Hok & _).
  rewrite Hv in Hv'. injection Hv' as <- <-.
  destruct (Hok eq_refl) as ((_ & Hq & Hpp) & x & amount & Hr & _ & _ & _ & Hc & Hwf' & _).
  destruct (wt_limit _ _ Hwt Hlim) as [p Hp]. pose proof (wt_price _ _ Hwt p Hp) as Hpb.
  rewrite Hp in Hpp. simpl in Hpp. pose proof (wt_qty _ _ Hwt).
  assert (live_order (order_info_of c gw)) as Hl.
  { split; [done|]. split; [simpl; lia|]. exists p. simpl. split; [done|]. lia. }
  assert (forall y, set_aside (order_info_of c gw) y = if decide (y = x) then amount else 0) as Hsa.
  { intros y. unfold reservation in Hr. unfold set_aside. simpl. rewrite Hlim, Hp in *. simpl in *.
    destruct (no_side c); by simplify_eq. }
  split.
  - split; simpl; [done|by apply NoDup_cons|]. intros id' [->|Hid]%elem_of_cons.
    + rewrite lookup_insert_eq. eauto.
    + rewrite lookup_insert_ne by congruence. by apply Hlive.
  - intros y. simpl. rewrite (total_credited _ _ _ _ _ y Hu Hc). unfold escrow at 1. simpl.
    rewrite lookup_insert_eq. simpl. fold (escrow (<[id := order_info_of c gw]> infos) live y).
    rewrite escrow_insert, Hsa by done. case_decide; lia.
Qed.

Lemma ledger_step_conserves l l' : ledger_step l l' -> ledger_wf l -> ledger_wf l' /\ conserved l l'.
Proof.
  destruct 1 as [bc infos live c id gw bc' Hv Hwt Hl Hu Hn Hni|bc infos live t b s infos' bc' Htb Hu
    |bc infos live r infos' bc' live' Hs Hp Hu]; intros Hwf; simpl in *.
  - by apply place_step_conserves.
  - by eapply trade_step_conserves.
  - apply bind_ok in Hu as (bc1 & Hu & [= <- <-]). by eapply cancel_step_conserves.
Qed.

(** C6: the order manager neither creates nor destroys cash or stock.  Along any
    sequence of limit orders that validation accepts, trades between live orders
    that the matching engine announces and cancellations that it confirms, for
    every asset the sum of all users' balances and of what the live orders have
    set aside (limit price times remaining quantity for bids, remaining quantity
    for asks) stays the same, and no balance is ever negative.  Market orders are not
    among these steps: an accepted market ask that finds too few bids loses stock
    ([Exchange.market_ask_stranded]), and market bids are the subject of
    [MarketBid.market_bids_conserve]. *)
Theorem assets_conserved l l' :
  rtc ledger_step l l' -> ledger_wf l ->
  balances_wf (ld_bc l') /\
  forall x, total (ld_bc l') x + escrow (ld_infos l') (ld_live l') x =
            total (ld_bc l) x + escrow (ld_infos l) (ld_live l) x.
Proof.
  intros Hr Hwf. enough (ledger_wf l' /\ conserved l l') as [[? _ _] ?] by done.
  revert Hwf. induction Hr as [l|l l1 l' Hs _ IH]; intros Hwf; [by split|].
  destruct (ledger_step_conserves _ _ Hs Hwf) as [Hwf1 Hc1]. destruct (IH Hwf1) as [? Hc].
  split; [done|]. intros x. by rewrite Hc, Hc1.
Qed.
End Ledger.

(** ** Where [int] is too narrow *)

(** Large orders break the order manager.  Validation computes the reservation
    of a limit bid on 64 bits, but settlement computes on [int]: confirming the
    cancellation of a bid whose price times remaining quantity exceeds [INT_MAX],
    or settling a trade of such a value, overflows. *)
Theorem large_orders_overflow infos bc :
  (forall r i p, cs_success r = true -> infos !! cs_order_id r = Some i -> oi_side i = bid ->
     oi_price i = Some p -> INT_MAX < p * oi_leaves_qty i ->
     update_internal_data (CCancelOrderResponse r) infos bc = Err SignedOverflow) /\
  (forall t taker maker, infos !! tc_taker_order_id t = Some taker ->
     infos !! tc_maker_order_id t = Some maker -> INT_MAX < tc_price t * tc_quantity t ->
     update_internal_data (CTrade t) infos bc = Err SignedOverflow).
Proof.
  split.
  - intros r i p Hs Hi Hside Hp Hbig. simpl. unfold apply_cancel_response.
    rewrite Hs, Hi. simpl. rewrite Hp. simpl. rewrite Hside. unfold mul32.
    by rewrite i32_overflow by lia.
  - intros t taker maker Ht Hm Hbig. simpl. unfold apply_trade. rewrite Ht, Hm. simpl.
    assert (fill_order_info taker (tc_price t) (tc_quantity t) = Err SignedOverflow) as ->; [|done].
    unfold fill_order_info, mul32. rewrite (i32_overflow (tc_price t * tc_quantity t)) by lia.
    unfold i32. by destruct (in_i32 (oi_avg_px taker * oi_cum_qty taker)).
Qed.

(** ** The theorems on concrete orders *)
Definition alice_bid : NewOrderSingleContainer :=
  mkNewOrder "alice" "OM" (Some 0) 1 "GME" bid 10 limit (Some 100) day.
Definition bob_offer : NewOrderSingleContainer :=
  mkNewOrder "bob" "OM" (Some 1) 1 "GME" ask 6 limit (Some 95) day.

Definition sample_balances : BalanceChecker :=
  {[ "alice"%string := {[ "USD"%string := 5000 ]};
     "bob"%string := {[ "USD"%string := 0; "GME"%string := 50 ]} ]}.

(** Balances of a concrete checker, entry by entry. *)
Lemma balances_wf_check (bc : BalanceChecker) :
  bool_decide (map_Forall (fun _ m => map_Forall (fun _ v => 0 <= v <= INT64_MAX) m) bc) = true ->
  balances_wf bc.
Proof.
  intros Hc%bool_decide_eq_true b t v Hl. destruct (bc !! b) as [m|] eqn:Hm; simpl in Hl; [|done].
  exact (Hc b m Hm t v Hl).
Qed.

Lemma sample_balances_wf : balances_wf sample_balances.
Proof. apply balances_wf_check. vm_compute. reflexivity. Qed.

Lemma alice_bid_typed : well_typed_order alice_bid None.
Proof.
  split; simpl; try (unfold INT_MIN, INT_MAX; lia); try done.
  intros p [= <-]. unfold INT_MIN, INT_MAX. lia.
Qed.
Lemma bob_offer_typed : well_typed_order bob_offer None.
Proof.
  split; simpl; try (unfold INT_MIN, INT_MAX; lia); try done.
  intros p [= <-]. unfold INT_MIN, INT_MAX. lia.
Qed.

Lemma validation_reserves_witness :
  exists bc' verdict,
    validate_container ["GME"%string] sample_balances (CNewOrderSingle alice_bid) None = Ok (bc', verdict) /\
    (verdict = "ok"%string ->
       order_acceptable ["GME"%string] alice_bid /\
       exists t amount, reservation alice_bid None = Some (t, amount) /\ 0 <= amount /\
         owns sample_balances "alice" t /\ amount <= balance_of sample_balances "alice" t /\
         credited sample_balances "alice" t (- amount) bc' /\ balances_wf bc' /\ grows sample_balances bc') /\
    (verdict <> "ok"%string -> bc' = sample_balances).
Proof.
  apply (validation_reserves ["GME"%string] sample_balances alice_bid None);
    [exact sample_balances_wf|exact alice_bid_typed|apply (bool_decide_unpack _); vm_compute; exact I].
Defined.

Definition sample_infos : gmap Z OrderInfo :=
  {[ 0 := order_info_of alice_bid 0; 1 := order_info_of bob_offer 0 ]}.
Definition sample_trade : TradeContainer :=
  mkTradeContainer "GME" 95 6 "t1" "alice" "bob" 0 1 true.

Lemma sample_trade_fits :
  trade_fits sample_infos sample_balances sample_trade (order_info_of alice_bid 0)
    (order_info_of bob_offer 0) (Some 100).
Proof.
  split; try done.
  - intros p [= <-]. vm_compute. intuition discriminate.
  - intros b x. assert (balance_of sample_balances b x <= 5000) as Hb.
    { unfold balance_of, sample_balances. destruct (decide (b = "alice"%string)) as [->|].
      - rewrite lookup_insert_eq. simpl. destruct (decide (x = "USD"%string)) as [->|].
        + by rewrite lookup_singleton_eq.
        + by rewrite lookup_singleton_ne.
      - rewrite lookup_insert_ne by done. destruct (decide (b = "bob"%string)) as [->|].
        + rewrite lookup_singleton_eq. simpl. destruct (decide (x = "USD"%string)) as [->|].
          * by rewrite lookup_insert_eq.
          * rewrite lookup_insert_ne by done. destruct (decide (x = "GME"%string)) as [->|].
            -- by rewrite lookup_singleton_eq.
            -- by rewrite lookup_singleton_ne.
        + by rewrite lookup_singleton_ne. }
    unfold INT_MAX, INT64_MAX. lia.
Qed.

Lemma trade_settles_witness :
  exists bc',
    update_internal_data (CTrade sample_trade) sample_infos sample_balances =
      Ok (<[1 := filled_info (order_info_of bob_offer 0) 95 6]>
            (<[0 := filled_info (order_info_of alice_bid 0) 95 6]> sample_infos), bc') /\
    balances_wf bc' /\
    forall b x, balance_of bc' b x = balance_of sample_balances b x + trade_delta (Some 100) sample_trade b x.
Proof.
  apply (trade_settles sample_infos sample_balances sample_trade (order_info_of alice_bid 0)
           (order_info_of bob_offer 0) (Some 100)); [exact sample_balances_wf|exact sample_trade_fits].
Defined.

(** Alice's bid is accepted, then Bob's offer. *)
Definition after_order (bc : BalanceChecker) (c : NewOrderSingleContainer) : BalanceChecker :=
  match validate_container ["GME"%string] bc (CNewOrderSingle c) None with
  | Ok (bc', _) => bc' | Err _ => bc
  end.

Definition sample_ledger : ledger := mkLedger sample_balances ∅ [].
Definition sample_ledger' : ledger :=
  mkLedger (after_order (after_order sample_balances alice_bid) bob_offer)
    (<[1 := order_info_of bob_offer 0]> (<[0 := order_info_of alice_bid 0]> ∅)) [1; 0].

Lemma sample_ledger_run :
  rtc (ledger_step ["alice"%string; "bob"%string] ["GME"%string]) sample_ledger sample_ledger'.
Proof.
  eapply rtc_l.
  { apply (ls_place _ _ sample_balances ∅ [] alice_bid 0 0 (after_order sample_balances alice_bid));
      [vm_compute; reflexivity|exact alice_bid_typed|reflexivity
      |apply (bool_decide_unpack _); vm_compute; exact I|reflexivity
      |apply (bool_decide_unpack _); vm_compute; exact I]. }
  eapply rtc_l; [|apply rtc_refl].
  apply (ls_place _ _ _ _ [0] bob_offer 1 0 (after_order (after_order sample_balances alice_bid) bob_offer));
    [vm_compute; reflexivity|exact bob_offer_typed|reflexivity
    |apply (bool_decide_unpack _); vm_compute; exact I|reflexivity
    |apply (bool_decide_unpack _); vm_compute; exact I].
Qed.

Lemma sample_ledger_wf : ledger_wf ["alice"%string; "bob"%string] sample_ledger.
Proof. split; simpl; [exact sample_balances_wf|apply NoDup_nil_2|by intros id ?%elem_of_nil]. Qed.

Lemma assets_conserved_witness :
  balances_wf (ld_bc sample_ledger') /\
  forall x, total ["alice"%string; "bob"%string] (ld_bc sample_ledger') x +
              escrow (ld_infos sample_ledger') (ld_live sample_ledger') x =
            total ["alice"%string; "bob"%string] (ld_bc sample_ledger) x +
              escrow (ld_infos sample_ledger) (ld_live sample_ledger) x.
Proof.
  apply (assets_conserved ["alice"%string; "bob"%string] ["GME"%string]);
    [apply (bool_decide_unpack _); vm_compute; exact I|apply (bool_decide_unpack _); vm_compute; exact I
    |exact sample_ledger_run|exact sample_ledger_wf].
Defined.
