(* ===== verification/Exchange.v ===== *)
(** * The exchange: components together

    What one service guarantees is what the next one relies on: an order that the
    order manager accepts is executed by the matching engine; the trades of the
    engine reach the market data ring buffer in order, up to its capacity; and
    one case where the two services together lose track of a user's stock. *)

From S2P Require Import Prelude Core Messaging Concurrency Transport OrderedMap LimitOrderBook BookSpec.
From S2P Require Import Matching BookOps BookTheorems BookQueries RingBuffer MatchingEngine EngineTheorems BalanceChecker.
From S2P Require Import OrderManager OrderValidation.
From Stdlib Require Import ZArith Lia Ascii String.
From stdpp Require Import base option list gmap strings fin_maps.

Open Scope Z_scope.

(** ** From the order manager to the matching engine *)

(** The ids of the book's orders were assigned before [id]. *)
Definition ids_below {P} (lob : LimitOrderBook P) (id : Z) : Prop :=
  forall id', is_Some (lob_order_id_map lob !! id') -> id' < id.

Lemma accepted_order_ok {P} (lob : LimitOrderBook P) symbols c cost id :
  order_acceptable symbols c -> well_typed_order c cost -> ids_below lob id -> 0 <= id ->
  fits MAX_USERNAME_LENGTH (no_sender_comp_id c) = true ->
  order_ok lob id (order_price c) (no_order_qty c) (no_sender_comp_id c).
Proof.
  intros (_ & Hq & Hp) [Hqr Hpr _ _] Hids Hid Hf. split; [done| | |lia|done].
  - destruct (_ !! id) eqn:E; [|done]. pose proof (Hids id ltac:(by rewrite E)). lia.
  - unfold order_price. destruct (no_price c) as [p|]; simpl in *.
    + right. specialize (Hpr p eq_refl). lia.
    + destruct (no_side c); simpl; [right; unfold MARKET_BID_ORDER_PRICE, INT_MAX; lia|by left].
Qed.

Section OrderFlow.
Context {L P Q : Type} `{InboundServerLaws L} {tpub : Publisher Trade P}
  {spub : Publisher TopOrderBookLevelAggregates Q} `{ProtoCodec} (env : Env).

(** The matching engine executes every order that the order manager accepts.
    If validation answers "ok" to a new order with a fresh internal id, from a
    user whose name fits a trade's array, then a matching engine in a
    well-formed state with a book for each active symbol processes the forwarded
    container without violating a contract, overflowing or aborting, and stays
    well-formed. *)
Theorem accepted_orders_execute (me : MatchingEngine L P Q) symbols bc bc' c cost id :
  env_ok env -> engine_wf me -> balances_wf bc -> well_typed_order c cost ->
  (""%string ∉ symbols) -> (forall s, s ∈ symbols -> is_Some (limit_order_books me !! s)) ->
  validate_container symbols bc (CNewOrderSingle c) cost = Ok (bc', "ok"%string) ->
  no_order_id c = Some id -> 0 <= id ->
  (forall lob, limit_order_books me !! no_symbol c = Some lob -> ids_below lob id) ->
  fits MAX_USERNAME_LENGTH (no_sender_comp_id c) = true ->
  exists me', process_container env me (CNewOrderSingle c) = Ok me' /\ engine_wf me'.
Proof.
  intros Henv Hwf Hbc Hwt Hne Hbooks Hv Hid Hpos Hids Hf.
  destruct (validate_new_order_ok symbols bc c cost Hbc Hwt Hne) as (bc0 & v & Hv' & Hok & _).
  simpl in Hv. rewrite Hv in Hv'. injection Hv' as <- <-. destruct (Hok eq_refl) as [Hacc _].
  destruct (Hbooks _ (proj1 Hacc)) as [lob Hlob]. destruct (ew_books _ Hwf _ _ Hlob) as [Hbw Htk].
  pose proof (accepted_order_ok lob symbols c cost id Hacc Hwt (Hids _ Hlob) Hpos Hf) as Hoo.
  destruct (add_order_correct env Henv lob (trade_events me) (trade_calls me) _ _ _ (no_side c) _ Hbw Hoo)
    as (lob' & ts & fs & left & Hadd & _ & _ & HF & _ & Htk' & Hbw').
  assert (Forall trade_readable (trade_events me ++ ts)) as Hread.
  { apply Forall_app. split; [apply Hwf|by eapply reports_all_readable]. }
  destruct (send_trades_ok (order_response_connection_id me) _ (inbound_server me) Hread)
    as (srv' & sent & pending & Hst & Hsplit & _).
  eexists. split.
  - simpl. unfold new_order_handler. rewrite Hid. simpl. rewrite Hlob. simpl.
    fold (order_price c). rewrite Hadd. simpl. rewrite Hst. done.
  - apply engine_wf_update; try done; [congruence|].
    rewrite Hsplit in Hread. by apply Forall_app in Hread as [_ ?].
Qed.
End OrderFlow.

(** ** Market asks without a bid *)

(** A market ask that finds no bid takes the user's stock for good.  The order
    manager accepts it and takes the quantity from the user's stock; the engine
    trades nothing and does not keep the order, so no trade will ever mention it;
    and a cancel request is answered with a failure, which returns nothing. *)
Theorem market_ask_stranded {P} {tpub : Publisher Trade P} (env : Env) (lob : LimitOrderBook P)
    symbols bc bc' c id events calls infos r :
  env_ok env -> book_wf lob -> lob_bids lob = [] -> balances_wf bc -> well_typed_order c None ->
  no_side c = ask -> no_price c = None -> ids_below lob id -> 0 <= id ->
  fits MAX_USERNAME_LENGTH (no_sender_comp_id c) = true -> (""%string ∉ symbols) ->
  validate_container symbols bc (CNewOrderSingle c) None = Ok (bc', "ok"%string) ->
  cs_success r = false ->
  credited bc (no_sender_comp_id c) (no_symbol c) (- no_order_qty c) bc' /\
  (exists lob', add_order env lob events calls id (order_price c) (no_order_qty c) ask
                  (no_sender_comp_id c) = Ok (lob', events, calls) /\
     order_id_exists lob' id = false) /\
  update_internal_data (CCancelOrderResponse r) infos bc' = Ok (infos, bc').
Proof.
  intros Henv Hwf Hbids Hbc Hwt Hside Hpr Hids Hid Hf Hne Hv Hr.
  destruct (validate_new_order_ok symbols bc c None Hbc Hwt Hne) as (bc0 & v & Hv' & Hok & _).
  simpl in Hv. rewrite Hv in Hv'. injection Hv' as <- <-.
  destruct (Hok eq_refl) as (Hacc & x & amount & Hres & _ & _ & _ & Hc & _ & _).
  unfold reservation in Hres. rewrite Hside in Hres. injection Hres as <- <-.
  split; [done|]. split; [|simpl; unfold apply_cancel_response; by rewrite Hr].
  pose proof (accepted_order_ok lob symbols c None id Hacc Hwt Hids Hid Hf) as [_ Hfr _ Hq _].
  unfold order_price. rewrite Hpr, Hside. simpl. unfold add_order.
  rewrite (proj2 (Z.leb_le _ _)), (proj2 (Z.ltb_lt 0 (no_order_qty c))), (fits_nonempty _ _ Hf), Hfr by lia.
  rewrite bool_decide_eq_false_2 by (by intros []). simpl. rewrite Hbids.
  unfold match_order. simpl. rewrite andb_false_r. simpl.
  eexists. split; [done|]. unfold order_id_exists. simpl. rewrite Hfr.
  by rewrite bool_decide_eq_false_2 by (by intros []).
Qed.

(** ** From the matching engine to market data *)
Section Feed.
Context (k : Z).
Hypothesis Hk : 1 <= k <= 32.
Implicit Types (r : MpscRingBuffer Trade) (l : list Trade).

(** The engine's publisher for a symbol is the ring buffer. *)
#[local] Instance ring_publisher : Publisher Trade (MpscRingBuffer Trade) :=
  shared_memory_publish (2 ^ k).

(** Pushing a list of trades keeps what fits. *)
Lemma published_ring ts : forall r l,
  ring_rep k r l -> head_ r + Z.of_nat (length ts) < 2 ^ 62 ->
  ring_rep k (published r ts) (l ++ take (Z.to_nat (2 ^ k) - length l) ts).
Proof.
  unfold published. induction ts as [|t ts IH]; intros r l Hr Hw; simpl.
  { by rewrite take_nil, app_nil_r. }
  simpl in Hw. assert (far_from_wrap r) as Hfw by (unfold far_from_wrap; lia).
  pose proof (rr_size _ _ _ Hr) as Hs. unfold try_publish, ring_publisher, shared_memory_publish.
  destruct (decide (Z.of_nat (length l) < 2 ^ k)) as [Hlt|Hge].
  - destruct (try_push_free k Hk r l t Hr Hfw Hlt) as (r' & Hp & Hr'). rewrite Hp. simpl.
    pose proof (rr_head _ _ _ Hr') as Hh'. pose proof (rr_head _ _ _ Hr) as Hh.
    assert (tail_ r' = tail_ r) as Htl.
    { unfold try_push in Hp. simpl in Hp. apply bind_ok in Hp as (d & _ & Hp).
      destruct (d =? 0); [rewrite Z.eqb_refl in Hp; by simplify_eq|].
      destruct (d <? 0); by simplify_eq. }
    specialize (IH r' (l ++ [t]) Hr'). rewrite length_app in *. simpl in *.
    replace (Z.to_nat (2 ^ k) - length l)%nat with (S (Z.to_nat (2 ^ k) - (length l + 1))) by lia.
    simpl. rewrite <- app_assoc in IH. apply IH. lia.
  - rewrite (try_push_full k Hk r l t Hr Hfw) by lia. simpl.
    specialize (IH r l Hr ltac:(lia)).
    replace (Z.to_nat (2 ^ k) - length l)%nat with 0%nat in * by lia. done.
Qed.

(** The market data feed gets the engine's trades in order.  When the trades of
    [add_order] are published to a ring buffer of capacity 2^k that holds [l], the
    buffer afterwards holds [l] followed by as many of the new trades as it has
    room for; the rest is dropped, and the engine's own queue still has them all. *)
Theorem feed_in_order (env : Env) (lob : LimitOrderBook (MpscRingBuffer Trade)) events calls id price q
    side broker lob' events' calls' l :
  env_ok env -> book_wf lob -> order_ok lob id price q broker ->
  ring_rep k (lob_trade_publisher lob) l ->
  add_order env lob events calls id price q side broker = Ok (lob', events', calls') ->
  head_ (lob_trade_publisher lob) + Z.of_nat (length events' - length events) < 2 ^ 62 ->
  exists ts, events' = events ++ ts /\
    ring_rep k (lob_trade_publisher lob') (l ++ take (Z.to_nat (2 ^ k) - length l) ts).
Proof.
  intros Henv Hwf Hok Hr Hadd Hw.
  destruct (add_order_correct env Henv lob events calls _ _ _ side _ Hwf Hok)
    as (lob1 & ts & fs & left & Hadd' & _ & _ & _ & Hpub & _).
  rewrite Hadd in Hadd'. injection Hadd' as -> -> ->. exists ts. split; [done|].
  rewrite Hpub. apply published_ring; [done|]. rewrite length_app in Hw.
  replace (length events + length ts - length events)%nat with (length ts) in Hw by lia. done.
Qed.
End Feed.

(** ** The theorems on concrete services *)
#[local] Existing Instance toy_codec.

Definition erin_funds : BalanceChecker := {[ "erin"%string := {[ "USD"%string := 5000; "GME"%string := 9 ]} ]}.

Lemma erin_funds_wf : balances_wf erin_funds.
Proof.
  intros b t v. unfold erin_funds. destruct (decide (b = "erin"%string)) as [->|].
  - rewrite lookup_singleton_eq. simpl. rewrite lookup_insert_Some, lookup_singleton_Some.
    intros [[_ <-]|[_ [_ <-]]]; unfold INT64_MAX; lia.
  - by rewrite lookup_singleton_ne.
Qed.

Lemma erin_typed : well_typed_order erin_container None.
Proof.
  split; simpl; try (unfold INT_MIN, INT_MAX; lia); try done.
  intros p [= <-]. unfold INT_MIN, INT_MAX. lia.
Qed.

Lemma sample_ids_below : ids_below sample_book 9.
Proof.
  intros id' Hs. unfold sample_book in Hs. simpl in Hs.
  rewrite !lookup_insert_is_Some', lookup_empty in Hs.
  destruct Hs as [<-|[<-|[<-|[<-|[]]]]]; done || lia.
Qed.

Lemma accepted_orders_execute_witness :
  exists me', process_container sample_env sample_engine (CNewOrderSingle erin_container) = Ok me' /\
    engine_wf me'.
Proof.
  apply (accepted_orders_execute sample_env sample_engine ["GME"%string] erin_funds
           (match validate_container ["GME"%string] erin_funds (CNewOrderSingle erin_container) None with
            | Ok (bc, _) => bc | Err _ => erin_funds end) erin_container None 9);
    [exact sample_env_ok|exact sample_engine_wf|exact erin_funds_wf|exact erin_typed
    |apply (bool_decide_unpack _); vm_compute; exact I
    |intros s ->%list_elem_of_singleton; by eexists|vm_compute; reflexivity|reflexivity|lia
    |simpl; intros lob [_ <-]%lookup_singleton_Some; exact sample_ids_below|reflexivity].
Defined.

(** Erin sells 9 at market into a book without bids. *)
Definition erin_market_ask : NewOrderSingleContainer :=
  mkNewOrder "erin" "OM" (Some 9) 9 "GME" ask 9 market None day.

Lemma erin_market_typed : well_typed_order erin_market_ask None.
Proof. split; simpl; try (unfold INT_MIN, INT_MAX; lia); try done. Qed.

Lemma market_ask_stranded_witness :
  let bc' := match validate_container ["GME"%string] erin_funds (CNewOrderSingle erin_market_ask) None with
             | Ok (bc, _) => bc | Err _ => erin_funds end in
  credited erin_funds "erin" "GME" (- 9) bc' /\
  (exists lob', add_order sample_env empty_book [] 0 9 (order_price erin_market_ask) 9 ask "erin"
                  = Ok (lob', [], 0%nat) /\ order_id_exists lob' 9 = false) /\
  update_internal_data (CCancelOrderResponse (mkCancelResponse 9 10 false)) ∅ bc' = Ok (∅, bc').
Proof.
  apply (market_ask_stranded sample_env empty_book ["GME"%string] erin_funds _ erin_market_ask 9 [] 0 ∅
           (mkCancelResponse 9 10 false));
    [exact sample_env_ok|apply new_book_wf; reflexivity|reflexivity|exact erin_funds_wf
    |exact erin_market_typed|reflexivity|reflexivity
    |intros id'; simpl; rewrite lookup_empty; intros []; discriminate|lia|reflexivity
    |apply (bool_decide_unpack _); vm_compute; exact I|vm_compute; reflexivity|reflexivity].
Defined.

(** The sample book, publishing to a ring buffer. *)
Definition ring_book : LimitOrderBook (MpscRingBuffer Trade) :=
  mkLimitOrderBook (init (2 ^ 10) zero_ring) "GME" (lob_bids sample_book) (lob_asks sample_book)
    (lob_order_id_map sample_book) 4.

Lemma ring_book_wf : book_wf ring_book.
Proof. destruct sample_book_wf as [? ? ? ? ?]. by split. Qed.

Lemma ring_order_ok : order_ok ring_book 9 103 12 "erin".
Proof. destruct erin_order_ok as [? ? ? ? ?]. by split. Qed.

Lemma feed_in_order_witness :
  let r := add_order (pub := ring_publisher 10) sample_env ring_book [] 0 9 103 12 bid "erin" in
  exists ts,
    match r with Ok (_, ev, _) => ev | Err _ => [] end = [] ++ ts /\
    ring_rep 10 (lob_trade_publisher (match r with Ok (lob, _, _) => lob | Err _ => ring_book end))
      ([] ++ take (Z.to_nat (2 ^ 10) - length ([] : list Trade)) ts).
Proof.
  apply (feed_in_order 10 (ltac:(lia)) sample_env ring_book [] 0 9 103 12 bid "erin" _ _ 2 []);
    [exact sample_env_ok|exact ring_book_wf|exact ring_order_ok|apply init_rep; lia
    |vm_compute; reflexivity|vm_compute; reflexivity].
Defined.
