(* ===== verification/Inflight.v ===== *)
(** * Orders on their way

    Between the order manager and the matching engine an order's quantity is in
    one of three places: in a request that the engine has not read, in a book, or
    in a trade that the order manager has not read.  This file counts the
    quantity of an order id in each of them and relates the counts before and
    after the engine handles a request. *)

From S2P Require Import Prelude Core Messaging Concurrency Transport OrderedMap LimitOrderBook BookSpec.
From S2P Require Import Matching BookOps BookTheorems MatchingEngine EngineTheorems.
From Stdlib Require Import ZArith Lia Ascii String.
From stdpp Require Import base option list gmap strings fin_maps.

Open Scope Z_scope.

(** ** Sums over a list *)
Lemma sumZ_ext {A} (f g : A -> Z) l : (forall x, x ∈ l -> f x = g x) -> sumZ f l = sumZ g l.
Proof.
  induction l as [|x l IH]; intros Hfg; simpl; [done|].
  rewrite Hfg, IH; [done|by intros; apply Hfg; right|by left].
Qed.

Lemma sumZ_zero {A} (f : A -> Z) l : (forall x, x ∈ l -> f x = 0) -> sumZ f l = 0.
Proof. intros Hf. rewrite (sumZ_ext f (fun _ => 0)) by done. clear. induction l; simpl; lia. Qed.

Lemma sumZ_plus {A} (f g : A -> Z) l : sumZ (fun x => f x + g x) l = sumZ f l + sumZ g l.
Proof. induction l; simpl; lia. Qed.

(** Grouping a list by a key whose values are all listed once. *)
Lemma sumZ_by_key {A} (key : A -> Z) (f : A -> Z) (keys : list Z) l :
  NoDup keys -> (forall x, x ∈ l -> key x ∈ keys) ->
  sumZ (fun k => sumZ (fun x => if decide (key x = k) then f x else 0) l) keys = sumZ f l.
Proof.
  intros Hnd. induction l as [|x l IH]; intros Hin; simpl.
  { apply sumZ_zero. done. }
  rewrite sumZ_plus, IH by (intros; apply Hin; by right). f_equal.
  specialize (Hin x ltac:(by left)). clear IH. induction Hnd as [|k keys Hk Hnd IH]; [set_solver|]. simpl.
  apply elem_of_cons in Hin as [->|Hin].
  - rewrite decide_True by done. rewrite sumZ_zero; [lia|]. intros k' Hk'. by rewrite decide_False by congruence.
  - rewrite IH by done. rewrite decide_False by congruence. lia.
Qed.

Lemma elem_of_concat_map {A B} (f : A -> list B) l y :
  y ∈ concat (map f l) <-> exists x, x ∈ l /\ y ∈ f x.
Proof.
  induction l as [|x l IH]; simpl.
  - split; [by intros ?%elem_of_nil|by intros (? & ?%elem_of_nil & _)].
  - rewrite elem_of_app, IH. setoid_rewrite elem_of_cons. naive_solver.
Qed.

(** ** Quantities by order id *)
Definition order_qty (id : Z) (l : list Order) : Z :=
  sumZ (fun o => if decide (o_order_id o = id) then o_quantity o else 0) l.

Definition fills_qty (id : Z) (fs : list (Order * Z)) : Z :=
  sumZ (fun f => if decide (o_order_id f.1 = id) then f.2 else 0) fs.

Lemma order_qty_absent id l : id ∉ map o_order_id l -> order_qty id l = 0.
Proof.
  intros Hn. apply sumZ_zero. intros o Ho. rewrite decide_False; [done|]. intros <-. apply Hn.
  change (map o_order_id l) with (o_order_id <$> l). by apply list_elem_of_fmap_2.
Qed.

Lemma insert_order_perm o l : insert_order o l ≡ₚ o :: l.
Proof.
  induction l as [|o' l IH]; simpl; [done|]. destruct (worse _ _ _); [done|].
  rewrite IH. constructor.
Qed.

Lemma match_orders_qty id side price l : forall q fs b left,
  match_orders side price q l = (fs, b, left) -> order_qty id l = order_qty id b + fills_qty id fs.
Proof.
  unfold order_qty, fills_qty. induction l as [|o l IH]; intros q fs b left; simpl.
  { by intros [= <- <- <-]. }
  destruct (_ && _); [|by intros [= <- <- <-]; simpl; lia].
  destruct (_ <=? _).
  - destruct (match_orders _ _ _ l) as [[fs' b'] r] eqn:E. intros [= <- <- <-]. simpl.
    rewrite (IH _ _ _ _ E). lia.
  - intros [= <- <- <-]. simpl. case_decide; lia.
Qed.

(** What is left of the queue is made of the orders that were there, with at most
    their quantity. *)
Definition same_order (o o' : Order) : Prop :=
  o_order_id o' = o_order_id o /\ o_price o' = o_price o /\ o_side o' = o_side o /\
  o_trader_id o' = o_trader_id o.

Lemma match_orders_left side price l : forall q fs b left,
  match_orders side price q l = (fs, b, left) ->
  (forall o', o' ∈ b -> exists o, o ∈ l /\ same_order o o') /\
  (forall f, f ∈ fs -> f.1 ∈ l).
Proof.
  induction l as [|o l IH]; intros q fs b left; simpl.
  { intros [= <- <- <-]. split; intros ? ?%elem_of_nil; done. }
  destruct (_ && _).
  2: { intros [= <- <- <-]. split; [|by intros ? ?%elem_of_nil]. intros o' Ho'. by exists o'. }
  destruct (_ <=? _).
  - destruct (match_orders _ _ _ l) as [[fs' b'] r] eqn:E. intros [= <- <- <-].
    destruct (IH _ _ _ _ E) as [Hb Hf]. split.
    + intros o' Ho'. destruct (Hb o' Ho') as (o1 & ? & ?). exists o1. split; [by right|done].
    + intros f [->|Hin]%elem_of_cons; [by left|]. right. by apply Hf.
  - intros [= <- <- <-]. split.
    + intros o' [->|Hin]%elem_of_cons; [exists o|exists o']; (split; [by (left + right)|done]).
    + intros f ->%list_elem_of_singleton. by left.
Qed.

(** ** The orders resting in all books *)
Section Resting.
Context {P : Type}.
Implicit Types (books : gmap string (LimitOrderBook P)) (lob : LimitOrderBook P).

Definition resting_in (entry : string * LimitOrderBook P) : list (string * Order) :=
  (fun o => (entry.1, o)) <$> (orders_of entry.2 bid ++ orders_of entry.2 ask).

Definition resting_orders books : list (string * Order) :=
  concat (resting_in <$> map_to_list books).

Definition resting_qty (id : Z) books : Z :=
  sumZ (fun r => if decide (o_order_id r.2 = id) then o_quantity r.2 else 0) (resting_orders books).

Lemma concat_perm {A} (l1 l2 : list (list A)) : l1 ≡ₚ l2 -> concat l1 ≡ₚ concat l2.
Proof.
  induction 1; simpl; [done|by f_equiv| |by etrans].
  rewrite !app_assoc. f_equiv. apply Permutation_app_comm.
Qed.

Lemma resting_orders_split books sym lob :
  books !! sym = Some lob ->
  exists rest, resting_orders books ≡ₚ resting_in (sym, lob) ++ rest /\
    forall lob', resting_orders (<[sym := lob']> books) ≡ₚ resting_in (sym, lob') ++ rest.
Proof.
  intros Hl. exists (resting_orders (delete sym books)).
  assert (forall lob', resting_orders (<[sym := lob']> (delete sym books)) ≡ₚ
    resting_in (sym, lob') ++ resting_orders (delete sym books)) as Hins.
  { intros lob'. unfold resting_orders. rewrite map_to_list_insert by apply lookup_delete_eq. done. }
  split.
  - rewrite <- Hins, insert_delete_eq, insert_id by done. done.
  - intros lob'. rewrite <- Hins, insert_delete_eq. done.
Qed.

Lemma elem_of_resting_in sym lob r :
  r ∈ resting_in (sym, lob) <-> exists side o, r = (sym, o) /\ o ∈ orders_of lob side.
Proof.
  unfold resting_in. simpl. rewrite list_elem_of_fmap. setoid_rewrite elem_of_app. split.
  - intros (o & -> & [Ho|Ho]); eauto.
  - intros (side & o & -> & Ho). exists o. split; [done|]. destruct side; auto.
Qed.

Lemma elem_of_resting books sym o :
  (sym, o) ∈ resting_orders books <->
  exists lob side, books !! sym = Some lob /\ o ∈ orders_of lob side.
Proof.
  unfold resting_orders. rewrite list_elem_of_In, in_concat. setoid_rewrite <- list_elem_of_In. split.
  - intros (l & ([sym' lob] & -> & Hin)%list_elem_of_fmap & Ho).
    apply elem_of_map_to_list in Hin.
    apply elem_of_resting_in in Ho as (side & o' & [= -> ->] & Ho). eauto.
  - intros (lob & side & Hl & Ho). exists (resting_in (sym, lob)). split.
    + apply list_elem_of_fmap_2. by apply elem_of_map_to_list.
    + apply elem_of_resting_in. eauto.
Qed.

Definition book_qty (id : Z) lob : Z := order_qty id (orders_of lob bid) + order_qty id (orders_of lob ask).

Lemma book_qty_sides id lob side :
  book_qty id lob = order_qty id (orders_of lob side) + order_qty id (orders_of lob (opposite side)).
Proof. unfold book_qty. destruct side; simpl; lia. Qed.

Lemma resting_qty_update id books sym lob lob' :
  books !! sym = Some lob ->
  resting_qty id (<[sym := lob']> books) = resting_qty id books - book_qty id lob + book_qty id lob'.
Proof.
  intros Hl. destruct (resting_orders_split books sym lob Hl) as (rest & H1 & H2).
  unfold resting_qty. rewrite (sumZ_perm _ _ _ H1), (sumZ_perm _ _ _ (H2 lob')), !sumZ_app.
  assert (forall l, sumZ (fun r : string * Order => if decide (o_order_id r.2 = id) then o_quantity r.2 else 0)
    (resting_in (sym, l)) = book_qty id l) as Hs; [|rewrite !Hs; lia].
  intros l. unfold resting_in, book_qty, order_qty. simpl. rewrite fmap_app, sumZ_app.
  f_equal; apply (sumZ_map (fun r : string * Order => _) (fun o => (sym, o))).
Qed.

Lemma book_qty_nonneg id lob : book_wf lob -> 0 <= book_qty id lob.
Proof.
  intros Hwf. assert (forall side, 0 <= order_qty id (orders_of lob side)) as Hs.
  { intros side. pose proof (book_quantities lob side Hwf) as Hq. apply sumZ_nonneg, Forall_forall.
    rewrite Forall_forall in Hq. intros o Ho. specialize (Hq o Ho). case_decide; lia. }
  unfold book_qty. pose proof (Hs bid). pose proof (Hs ask). lia.
Qed.

Definition not_resting (id : Z) books : Prop :=
  forall sym o, (sym, o) ∈ resting_orders books -> o_order_id o <> id.

Lemma resting_qty_absent id books : not_resting id books -> resting_qty id books = 0.
Proof.
  intros Hn. apply sumZ_zero. intros [sym o] Hr. rewrite decide_False; [done|]. by eapply Hn.
Qed.

Lemma order_qty_unique o l :
  NoDup (map o_order_id l) -> o ∈ l -> order_qty (o_order_id o) l = o_quantity o.
Proof.
  unfold order_qty. induction l as [|o' l IH]; simpl; [by intros _ ?%elem_of_nil|].
  intros [Hn Hnd]%NoDup_cons [->|Hin]%elem_of_cons.
  - rewrite decide_True by done. fold (order_qty (o_order_id o') l). rewrite order_qty_absent by done. lia.
  - rewrite IH, decide_False; [lia| |done|done]. intros Heq. apply Hn. rewrite Heq.
    change (map o_order_id l) with (o_order_id <$> l). by apply list_elem_of_fmap_2.
Qed.

(** An order that rests in one book only is all that rests under its id. *)
Lemma resting_qty_unique books sym lob side o :
  books !! sym = Some lob -> book_wf lob -> o ∈ orders_of lob side ->
  (forall sym' o', (sym', o') ∈ resting_orders books -> o_order_id o' = o_order_id o -> sym' = sym) ->
  resting_qty (o_order_id o) books = o_quantity o.
Proof.
  intros Hl Hwf Ho Huniq.
  assert (resting_qty (o_order_id o) (delete sym books) = 0) as Hrest.
  { apply resting_qty_absent. intros sym' o' (lob' & side' & Hl' & Ho')%elem_of_resting Heq.
    apply lookup_delete_Some in Hl' as [Hne Hl']. apply Hne. symmetry. apply (Huniq sym' o'); [|done].
    apply elem_of_resting. eauto. }
  assert (resting_qty (o_order_id o) books = book_qty (o_order_id o) lob + resting_qty (o_order_id o) (delete sym books)) as ->.
  { rewrite <- (insert_delete_id books sym lob Hl) at 1. unfold resting_qty, resting_orders at 1.
    rewrite (sumZ_perm _ _ _ (concat_perm _ _ (fmap_Permutation _ _ _ (map_to_list_insert (delete sym books) sym lob
      (lookup_delete_eq _ _))))). simpl. rewrite sumZ_app. f_equal.
    unfold resting_in, book_qty, order_qty. simpl. rewrite fmap_app, sumZ_app.
    f_equal; apply (sumZ_map (fun r : string * Order => _) (fun o => (sym, o))). }
  rewrite Hrest, Z.add_0_r, (book_qty_sides _ _ side). unfold order_qty. rewrite <- sumZ_app.
  apply (order_qty_unique o); [|by apply elem_of_app; left].
  pose proof (nw_id _ _ _ (book_keys lob side Hwf)) as Hid. rewrite keys_id, map_app in Hid. exact Hid.
Qed.

(** The id map of a well-formed book knows exactly the resting orders. *)
Lemma not_resting_fresh id books sym lob :
  book_wf lob -> books !! sym = Some lob -> not_resting id books -> lob_order_id_map lob !! id = None.
Proof.
  intros Hwf Hl Hn. destruct (lob_order_id_map lob !! id) as [a|] eqn:Ha; [|done].
  destruct (lookup_node lob id a Hwf Ha) as (n & _ & _ & Hid & Hin).
  exfalso. apply (Hn sym (n_order n)); [|done]. apply elem_of_resting. exists lob, (o_side (n_order n)).
  split; [done|]. unfold orders_of. change (map n_order ?l) with (n_order <$> l). by apply list_elem_of_fmap_2.
Qed.

Lemma resting_order_wf books sym lob side o :
  book_wf lob -> books !! sym = Some lob -> o ∈ orders_of lob side ->
  o_side o = side /\ 0 < o_price o < INT_MAX /\ 0 < o_quantity o.
Proof.
  intros Hwf Hl Ho. unfold orders_of in Ho. apply list_elem_of_fmap in Ho as (n & -> & Hn).
  destruct (side_wf_node _ _ _ (book_side_wf lob side Hwf) Hn) as (_ & ? & _ & ? & _).
  apply elem_of_queue in Hn as (b & Hb & Hn).
  destruct (side_wf_level _ _ _ (book_side_wf lob side Hwf) Hb) as (Hp & _ & HF).
  rewrite Forall_forall in HF. destruct (HF n Hn) as [-> _]. split; [done|]. split; [done|lia].
Qed.
End Resting.

(** ** Quantities in messages *)
Definition trade_qty (id : Z) (t : TradeContainer) : Z :=
  (if decide (tc_taker_order_id t = id) then tc_quantity t else 0) +
  (if decide (tc_maker_order_id t = id) then tc_quantity t else 0).

(** What the trades among the responses fill of an order. *)
Definition filled_qty (id : Z) (responses : list Container) : Z :=
  sumZ (fun c => match c with CTrade t => trade_qty id t | _ => 0 end) responses.

(** What the new orders among the requests hold of an order. *)
Definition queued_qty (id : Z) (requests : list Container) : Z :=
  sumZ (fun c => match c with
                 | CNewOrderSingle c => if decide (no_order_id c = Some id) then no_order_qty c else 0
                 | _ => 0
                 end) requests.

(** The orders whose cancellation a response confirms, and those it speaks of. *)
Definition cancelled (c : Container) : list Z :=
  match c with
  | CCancelOrderResponse r => if cs_success r then [cs_order_id r] else []
  | _ => []
  end.

Definition mentioned (c : Container) : list Z :=
  match c with
  | CTrade t => [tc_taker_order_id t; tc_maker_order_id t]
  | _ => cancelled c
  end.

Lemma filled_qty_app id rs1 rs2 : filled_qty id (rs1 ++ rs2) = filled_qty id rs1 + filled_qty id rs2.
Proof. apply sumZ_app. Qed.

Lemma queued_qty_app id rq1 rq2 : queued_qty id (rq1 ++ rq2) = queued_qty id rq1 + queued_qty id rq2.
Proof. apply sumZ_app. Qed.

Lemma filled_qty_nonneg id rs :
  (forall t, CTrade t ∈ rs -> 0 < tc_quantity t) -> 0 <= filled_qty id rs.
Proof.
  intros Ht. apply sumZ_nonneg, Forall_forall. intros c Hc. destruct c; try done.
  specialize (Ht _ Hc). unfold trade_qty. repeat case_decide; lia.
Qed.

(** A trade message that reports a fill. *)
Record announces (ticker : string) (id : Z) (side : Side) (broker : string) (f : Order * Z)
    (t : TradeContainer) : Prop := {
  an_ticker : tc_ticker t = ticker;
  an_price : tc_price t = o_price f.1;
  an_quantity : tc_quantity t = f.2;
  an_taker : tc_taker_id t = broker;
  an_maker : tc_maker_id t = o_trader_id f.1;
  an_taker_order : tc_taker_order_id t = id;
  an_maker_order : tc_maker_order_id t = o_order_id f.1;
  an_buyer : tc_is_taker_buyer t = side_is_bid side
}.

Lemma reports_announce `{ProtoCodec} ticker id side broker fs ts :
  Forall2 (trade_reports ticker id side broker) fs ts ->
  exists tcs, Forall2 (announces ticker id side broker) fs tcs /\
    map trade_message ts = map (fun t => serialize_container (CTrade t)) tcs.
Proof.
  induction 1 as [|f t fs ts (R1 & R2 & R3 & R4 & R5 & R6 & R7 & R8 & R9) _ (tcs & HF & Hm)].
  { by exists []. }
  destruct (read_cstr (tr_trade_id t)) as [tid|] eqn:Htid; [|done].
  exists (mkTradeContainer ticker (tr_price t) (tr_quantity t) tid broker (o_trader_id f.1)
            (tr_taker_order_id t) (tr_maker_order_id t) (tr_is_taker_buyer t) :: tcs).
  split; [constructor; [by split|done]|]. simpl. rewrite Hm. f_equal.
  unfold trade_message, trade_container. rewrite R1, Htid, R4, R5. done.
Qed.

Lemma announced_qty ticker id side broker fs tcs id' :
  Forall2 (announces ticker id side broker) fs tcs ->
  filled_qty id' (map CTrade tcs) =
    (if decide (id' = id) then sumZ snd fs else 0) + fills_qty id' fs.
Proof.
  unfold filled_qty, fills_qty. induction 1 as [|f t fs tcs [] _ IH]; simpl.
  { case_decide; lia. }
  rewrite IH. unfold trade_qty. repeat case_decide; subst; lia.
Qed.

(** ** What the engine makes of a request *)
Section Engine.
Context {L P Q : Type} `{InboundServerLaws L} {tpub : Publisher Trade P}
  {spub : Publisher TopOrderBookLevelAggregates Q} `{ProtoCodec} (env : Env).
Implicit Types (me : MatchingEngine L P Q).

Lemma sends_det (s s' : L) id outs outs' : sends s s' id outs -> sends s s' id outs' -> outs = outs'.
Proof.
  intros [_ Hs1] [_ Hs2]. specialize (Hs1 id). specialize (Hs2 id). rewrite Z.eqb_refl in *.
  rewrite Hs1 in Hs2. by apply app_inv_head in Hs2.
Qed.

(** A book before and after a new order. *)
Record order_placed (lob lob' : LimitOrderBook P) (c : NewOrderSingleContainer) (id p : Z)
    (fs : list (Order * Z)) : Prop := {
  op_fills : forall f, f ∈ fs -> f.1 ∈ orders_of lob (opposite (no_side c)) /\ 0 < f.2 /\
    crosses (no_side c) p (o_price f.1) = true;
  op_left : forall side o', o' ∈ orders_of lob' side ->
    (exists o, o ∈ orders_of lob side /\ same_order o o') \/
    o_order_id o' = id /\ o_price o' = p /\ o_side o' = no_side c /\ o_trader_id o' = no_sender_comp_id c;
  op_others : forall id', id' <> id -> book_qty id' lob = book_qty id' lob' + fills_qty id' fs;
  op_own : book_qty id lob' + sumZ snd fs = no_order_qty c
}.

Lemma add_order_placed lob lob' c id p fs left :
  book_wf lob -> 0 < p < INT_MAX -> 0 < no_order_qty c ->
  lob_order_id_map lob !! id = None ->
  match_orders (no_side c) p (no_order_qty c) (orders_of lob (opposite (no_side c)))
    = (fs, orders_of lob' (opposite (no_side c)), left) ->
  orders_of lob' (no_side c) =
    rest_order (mkOrder id p left (no_side c) (no_sender_comp_id c)) (orders_of lob (no_side c)) ->
  order_placed lob lob' c id p fs.
Proof.
  intros Hwf Hp Hq Hfr Hm Hnear. set (side := no_side c) in *.
  destruct (match_orders_spec _ _ _ _ _ _ _ (Z.lt_le_incl _ _ Hq) (book_quantities lob (opposite side) Hwf) Hm)
    as (Hl & Hs & _ & Hfs & _).
  destruct (match_orders_left _ _ _ _ _ _ _ Hm) as [Hleft Hfrom].
  assert (rests p left = (0 <? left)) as Hrests.
  { unfold rests, MARKET_BID_ORDER_PRICE, MARKET_ASK_ORDER_PRICE, INT_MAX, INT_MIN in *.
    rewrite (proj2 (Z.eqb_neq _ _)), (proj2 (Z.eqb_neq _ _)) by lia. by rewrite !andb_true_r. }
  assert (forall id', order_qty id' (orders_of lob' side) =
    order_qty id' (orders_of lob side) + if decide (id = id') then left else 0) as Hown.
  { intros id'. rewrite Hnear. unfold rest_order. simpl. rewrite Hrests. destruct (0 <? left) eqn:E.
    - unfold order_qty. rewrite (sumZ_perm _ _ _ (insert_order_perm _ _)). simpl. case_decide; lia.
    - apply Z.ltb_ge in E. case_decide; lia. }
  split.
  - intros f Hf. rewrite Forall_forall in Hfs. destruct (Hfs f Hf) as [? ?]. split; [by apply Hfrom|].
    split; [lia|done].
  - intros side' o' Ho'. destruct (decide (side' = side)) as [->|Hne].
    + rewrite Hnear in Ho'. unfold rest_order in Ho'. simpl in Ho'. destruct (rests p left).
      * rewrite insert_order_perm in Ho'. apply elem_of_cons in Ho' as [->|Ho']; [by right|].
        left. by exists o'.
      * left. by exists o'.
    + assert (side' = opposite side) as -> by (by destruct side', side). left. by apply Hleft.
  - intros id' Hne. rewrite !(book_qty_sides _ _ side), Hown, (match_orders_qty id' _ _ _ _ _ _ _ Hm).
    rewrite decide_False by done. lia.
  - rewrite (book_qty_sides _ _ side), Hown, decide_True by done.
    rewrite !order_qty_absent; [lia| |by apply book_fresh_ids].
    intros (o' & Ho' & Hin)%list_elem_of_fmap. destruct (Hleft _ Hin) as (o & Ho & Hso & _).
    apply (book_fresh_ids lob (opposite side) id Hwf Hfr).
    change (map o_order_id ?l) with (o_order_id <$> l). rewrite Ho', Hso. by apply list_elem_of_fmap_2.
Qed.

Lemma engine_order_effect me c id p lob me' outs :
  env_ok env -> engine_wf me -> trade_events me = [] -> no_order_id c = Some id ->
  limit_order_books me !! no_symbol c = Some lob -> no_price c = Some p -> 0 < p < INT_MAX ->
  order_ok lob id p (no_order_qty c) (no_sender_comp_id c) ->
  process_container env me (CNewOrderSingle c) = Ok me' -> trade_events me' = [] ->
  sends (inbound_server me) (inbound_server me') (order_response_connection_id me) outs ->
  exists lob' fs tcs,
    engine_wf me' /\ limit_order_books me' = <[no_symbol c := lob']> (limit_order_books me) /\
    outs = map (fun t => serialize_container (CTrade t)) tcs /\
    Forall2 (announces (no_symbol c) id (no_side c) (no_sender_comp_id c)) fs tcs /\
    order_placed lob lob' c id p fs.
Proof.
  intros Henv Hwf Hev Hid Hlob Hpr Hp Hok Hproc Hev' Hsends.
  destruct (ew_books _ Hwf _ _ Hlob) as [Hbw Htk].
  destruct (add_order_correct env Henv lob (trade_events me) (trade_calls me) _ _ _ (no_side c) _ Hbw Hok)
    as (lob' & ts & fs & left & Hadd & Hm & Hnear & HF & _ & Htk' & Hbw').
  rewrite Htk in HF. assert (Forall trade_readable (trade_events me ++ ts)) as Hread.
  { apply Forall_app. split; [apply Hwf|by eapply reports_all_readable]. }
  destruct (send_trades_ok (order_response_connection_id me) _ (inbound_server me) Hread)
    as (srv' & sent & pending & Hst & Hsplit & Hsends').
  simpl in Hproc. unfold new_order_handler in Hproc. rewrite Hid in Hproc. simpl in Hproc.
  rewrite Hlob, Hpr in Hproc. simpl in Hproc. rewrite Hadd in Hproc. simpl in Hproc.
  rewrite Hst in Hproc. simpl in Hproc. injection Hproc as <-. simpl in *. subst pending.
  rewrite app_nil_r, Hev in Hsplit. simpl in Hsplit. subst sent.
  destruct (reports_announce _ _ _ _ _ _ HF) as (tcs & HF' & Hmsg).
  exists lob', fs, tcs. split; [by apply engine_wf_update; try done; congruence|].
  split; [done|]. split; [by rewrite <- Hmsg; eapply sends_det|]. split; [done|].
  eapply add_order_placed; try done; apply Hok.
Qed.

(** The link takes whatever is sent on it. *)
Definition server_up (srv : L) (id : Z) : Prop := forall m, (is_send srv id m fmt_binary).2 = true.

Lemma order_qty_remove id id' l :
  order_qty id' (remove_order id l) = if decide (id' = id) then 0 else order_qty id' l.
Proof.
  unfold order_qty, remove_order. induction l as [|o l IH]; simpl; [by case_decide|].
  destruct (o_order_id o =? id) eqn:E; simpl; rewrite IH.
  - apply Z.eqb_eq in E. repeat case_decide; try lia.
  - apply Z.eqb_neq in E. repeat case_decide; try lia.
Qed.

Lemma elem_of_remove id o l : o ∈ remove_order id l <-> o ∈ l /\ o_order_id o <> id.
Proof.
  unfold remove_order. rewrite list_elem_of_In, filter_In, <- list_elem_of_In.
  by rewrite negb_true_iff, Z.eqb_neq.
Qed.

Lemma engine_cancel_effect me c me' outs :
  engine_wf me -> server_up (inbound_server me) (order_response_connection_id me) ->
  process_container env me (CCancelOrderRequest c) = Ok me' ->
  sends (inbound_server me) (inbound_server me') (order_response_connection_id me) outs ->
  exists id lob lob',
    cr_order_id c = Some id /\ limit_order_books me !! cr_symbol c = Some lob /\
    engine_wf me' /\ limit_order_books me' = <[cr_symbol c := lob']> (limit_order_books me) /\
    trade_events me' = trade_events me /\
    (forall side, orders_of lob' side = remove_order id (orders_of lob side)) /\
    (order_id_exists lob id = false -> lob' = lob) /\
    outs = [serialize_container (CCancelOrderResponse
      (mkCancelResponse id (cr_cl_ord_id c) (order_id_exists lob id)))].
Proof.
  intros Hwf Hup Hproc Hsends. destruct (cr_order_id c) as [id|] eqn:Hid.
  2: { simpl in Hproc. unfold cancel_order_handler in Hproc. by rewrite Hid in Hproc. }
  destruct (limit_order_books me !! cr_symbol c) as [lob|] eqn:Hlob.
  2: { simpl in Hproc. unfold cancel_order_handler in Hproc. rewrite Hid in Hproc. simpl in Hproc.
       by rewrite Hlob in Hproc. }
  destruct (engine_cancel env me c lob id Hwf Hid Hlob)
    as (me1 & lob' & Hproc' & Hwf' & Hb & Hev & Ho & _ & Hsame & _).
  rewrite Hproc in Hproc'. injection Hproc' as <-. exists id, lob, lob'. do 7 (split; [done|]).
  simpl in Hproc. unfold cancel_order_handler in Hproc. rewrite Hid in Hproc. simpl in Hproc.
  rewrite Hlob in Hproc. simpl in Hproc. apply bind_ok in Hproc as (lob1 & _ & Hproc).
  specialize (Hup (serialize_container (CCancelOrderResponse
    (mkCancelResponse id (cr_cl_ord_id c) (order_id_exists lob id))))).
  destruct (is_send _ _ _ _) as [srv ok] eqn:Hs. simpl in Hup. subst ok. injection Hproc as <-.
  apply is_send_sends in Hs. simpl in *. by eapply sends_det.
Qed.
End Engine.
