(* ===== verification/MarketFlow.v ===== *)
(** * Requests and responses in flight: what the two services agree on

    The effect of a request on the order manager, and the invariant [flow_inv]
    between its records and the engine's books, whatever messages are under way:
    the remaining quantity in an order's record is what rests in the book, plus
    what is still on its way to it, plus what has been traded but not yet
    reported.  One lemma for each thing that either service does. *)

From S2P Require Import Prelude Core Messaging Concurrency Transport OrderedMap LimitOrderBook BookSpec.
From S2P Require Import Matching BookOps BookTheorems MatchingEngine EngineTheorems BalanceChecker.
From S2P Require Import OrderManager OrderValidation OrderSettlement Inflight.
From Stdlib Require Import ZArith Lia Ascii String.
From stdpp Require Import base option list gmap strings fin_maps relations.

Open Scope Z_scope.

(** The parser never makes up a message: what it reads from a serialised
    container, if it reads anything, is that container. *)
Class CodecFaithful `{ProtoCodec} : Prop :=
  parse_faithful : forall w w', ParseFromString (SerializeAsString w) = Some w' -> w' = w.

Lemma deserialize_faithful `{CodecFaithful} c c' :
  deserialize_container (serialize_container c) = Ok c' -> c' = received c.
Proof.
  unfold deserialize_container, serialize_container. intros (w & Hw%get_or_ok & Hof)%bind_ok.
  apply parse_faithful in Hw as ->. rewrite of_to_proto in Hof. by injection Hof.
Qed.

(** ** What the order manager makes of a request *)

(** The requests considered here: limit orders whose price is not the number that
    stands for a market order, whose fields have the width of their types and
    whose sender fits the array of a trade; and any cancel request.  A market bid
    asks the engine for its cost and waits for the answer; a market ask that
    finds no bid is the subject of [Exchange.market_ask_stranded]. *)
Definition admissible (c : Container) : Prop :=
  match c with
  | CNewOrderSingle c =>
      no_ord_type c = limit /\ well_typed_order c None /\ no_price c <> Some INT_MAX /\
      fits MAX_USERNAME_LENGTH (no_sender_comp_id c) = true
  | CCancelOrderRequest _ => True
  | _ => False
  end.

Section Requests.
Context {I C D : Type} `{InboundServer I} `{OutboundClientLaws C} `{OrderManagerDatabase D}
  `{ProtoCodec} (SERVER_NAME : string) (exec_ids : nat -> string).
Implicit Types (om : OrderManager I C D).

Definition client_up (client : C) (id : Z) : Prop := forall m, (oc_send client id m fmt_binary).2 = true.

(** What no handler changes. *)
Definition same_setup om om' : Prop :=
  active_symbols om' = active_symbols om /\ username_user_id_map om' = username_user_id_map om /\
  order_request_connection_id om' = order_request_connection_id om /\
  om_order_response_connection_id om' = om_order_response_connection_id om.

Inductive request_effect om gw om' : Container -> list Container -> Prop :=
  | re_rejected c :
      balance_checker om' = balance_checker om ->
      (order_info_map (orders om') = order_info_map (orders om) \/
       exists id i, order_info_map (orders om) !! id = None /\
         order_info_map (orders om') = <[id := i]> (order_info_map (orders om))) ->
      request_effect om gw om' c []
  | re_order c id :
      no_order_id c = Some id -> 0 <= id -> order_info_map (orders om) !! id = None ->
      is_Some (username_user_id_map om !! no_sender_comp_id c) ->
      admissible (CNewOrderSingle c) ->
      validate_new_order (active_symbols om) (balance_checker om) c None = Ok (balance_checker om', "ok"%string) ->
      order_info_map (orders om') = <[id := order_info_of c gw]> (order_info_map (orders om)) ->
      request_effect om gw om' (CNewOrderSingle c) [CNewOrderSingle c]
  | re_cancel c id :
      cr_order_id c = Some id -> is_Some (order_info_map (orders om) !! id) ->
      balance_checker om' = balance_checker om ->
      order_info_map (orders om') = order_info_map (orders om) ->
      request_effect om gw om' (CCancelOrderRequest c) [CCancelOrderRequest c].

Lemma preprocess_admissible users gw conn os (client : C) c c' os' client' r :
  admissible c -> orders_wf os ->
  preprocess_container users gw conn os client c = Ok (c', os', client', r) ->
  client' = client /\ admissible c' /\ orders_wf os' /\
  (r = inl None \/ exists err, r = inr err).
Proof.
  intros Ha Hwf Hp. pose proof (preprocess_ids _ _ _ _ _ _ _ _ _ _ Hwf Hp) as [Hwf' _].
  destruct c as [c|c|?|?|?|?|?]; simpl in Hp; try done.
  - apply bind_ok in Hp as ([[[c1 os1] cl1] r1] & Hpre & [= <- <- <- <-]).
    destruct Ha as (Hlim & Hwt & Hmax & Hf).
    unfold preprocess_new_order in Hpre. apply bind_ok in Hpre as (id & Hid & Hpre). simpl in Hpre.
    assert (admissible (CNewOrderSingle (with_order_id c id))) as Ha'.
    { split; [done|]. split; [|done]. destruct Hwt. by split. }
    destruct (users !! _) as [u|]; [|simplify_eq; eauto 6].
    apply bind_ok in Hpre as (t & _ & Hpre). rewrite Hlim in Hpre.
    destruct (bm_right _ !! t); simplify_eq; eauto 6.
  - apply bind_ok in Hp as ([c1 r1] & Hpre & [= <- <- <- <-]). do 2 (split; [done|]). split; [done|].
    unfold preprocess_cancel_request in Hpre. destruct (users !! _) as [u|]; [|simplify_eq; eauto].
    apply bind_ok in Hpre as (t & _ & Hpre). simplify_eq. auto.
Qed.

(** Moreover an order is forwarded as it is, but for its new id. *)
Lemma process_request_effect_of om gw m om' c outs :
  orders_wf (orders om) -> deserialize_container m = Ok c -> admissible c ->
  client_up (order_request_outbound_client om) (order_request_connection_id om) ->
  process_request SERVER_NAME exec_ids om gw m = Ok om' ->
  sends (order_request_outbound_client om) (order_request_outbound_client om')
    (order_request_connection_id om) outs ->
  orders_wf (orders om') /\ same_setup om om' /\
  exists c' sent, request_effect om gw om' c' sent /\ outs = map serialize_container sent /\
    forall c0, c = CNewOrderSingle c0 -> sent = [] \/
      c' = CNewOrderSingle (with_order_id c0 (latest_assigned_order_id (orders om) + 1)).
Proof.
  intros Hwf Hc Ha Hup Hp Hsends. unfold process_request in Hp. rewrite Hc in Hp. cbn [mbind res_bind] in Hp.
  apply bind_ok in Hp as ([[[c' os'] client] r] & Hpre & Hp).
  apply bind_ok in Hp as ([bc verdict] & Hv & Hp).
  apply bind_ok in Hp as ([client' inbound] & Hf & Hp). apply bind_ok in Hp as (db & _ & [= <-]).
  destruct (preprocess_admissible _ _ _ _ _ _ _ _ _ _ Ha Hwf Hpre) as (-> & Ha' & Hwf' & Hr).
  destruct (preprocess_ids _ _ _ _ _ _ _ _ _ _ Hwf Hpre) as [_ Hids].
  split; [done|]. split; [done|]. simpl in *.
  unfold forward_and_reply in Hf. apply bind_ok in Hf as (? & _ & Hf).
  set (valid := match r with inl _ => String.eqb verdict "ok" | inr _ => false end) in *.
  destruct valid eqn:Hvalid; apply bind_ok in Hf as (report & Hrep & Hf).
  - injection Hf as <- <-. specialize (Hup (serialize_container c')).
    destruct (oc_send _ _ _ _) as [cl ok] eqn:Hsend. simpl in *. subst ok.
    apply (sends_of_law _ _ _ _ _ _ _ oc_send_law) in Hsend.
    pose proof (sends_det _ _ _ _ _ Hsends Hsend) as ->.
    destruct Hr as [->|[err ->]]; [|done]. apply String.eqb_eq in Hvalid. subst verdict.
    destruct c as [c|c|?|?|?|?|?], c' as [c'|c'|?|?|?|?|?]; try done.
    + destruct Hids as (-> & Hlat & Hnone & Hrec).
      set (c' := with_order_id c (latest_assigned_order_id (orders om) + 1)) in *.
      exists (CNewOrderSingle c'), [CNewOrderSingle c'].
      split; [|split; [done|]; intros c0 [= <-]; by right]. destruct (username_user_id_map om !! _) as [u|] eqn:Hu; [|by destruct Hrec].
      destruct Hrec as (t & _ & Hnew & Hold).
      destruct (bm_right _ !! t) eqn:Ht; [by destruct (Hold ltac:(done))|].
      destruct (Hnew eq_refl) as [Hinfos _]. econstructor; simpl; try done.
      pose proof (ow_start _ Hwf). lia.
    + subst os'. simpl in Hv, Hrep. injection Hv as <- _. exists (CCancelOrderRequest c'), [CCancelOrderRequest c'].
      apply bind_ok in Hrep as (id & Hid%get_or_ok & Hrep). apply bind_ok in Hrep as (i & Hi%get_or_ok & _).
      split; [|by split]. by econstructor.
  - apply bind_ok in Hf as (report' & _ & [= <- <-]). exists c, [].
    pose proof (sends_det _ _ _ _ _ Hsends (sends_nil _ _)) as ->. split; [|split; [done|]; by left].
    constructor; simpl.
    + destruct Hr as [->|[err ->]]; [|by injection Hv as <- _]. apply String.eqb_neq in Hvalid.
      by eapply validate_rejects.
    + destruct c as [c|c|?|?|?|?|?], c' as [c'|c'|?|?|?|?|?]; try done; [|subst os'; by left].
      destruct Hids as (-> & Hlat & Hnone & Hrec).
      destruct (username_user_id_map om !! _) as [u|]; [|by left; destruct Hrec].
      destruct Hrec as (t & _ & Hnew & Hold).
      destruct (bm_right _ !! t) eqn:Ht; [left; by destruct (Hold ltac:(done))|].
      destruct (Hnew eq_refl) as [-> _]. right. eauto.
Qed.
Lemma process_request_effect om gw m om' c outs :
  orders_wf (orders om) -> deserialize_container m = Ok c -> admissible c ->
  client_up (order_request_outbound_client om) (order_request_connection_id om) ->
  process_request SERVER_NAME exec_ids om gw m = Ok om' ->
  sends (order_request_outbound_client om) (order_request_outbound_client om')
    (order_request_connection_id om) outs ->
  orders_wf (orders om') /\ same_setup om om' /\
  exists c' sent, request_effect om gw om' c' sent /\ outs = map serialize_container sent.
Proof.
  intros. edestruct process_request_effect_of as (? & ? & c' & sent & ? & ? & _); [done..|].
  do 2 (split; [done|]). by exists c', sent.
Qed.
End Requests.

(** ** Records, books and messages that agree *)

(** The record of an order says who sent it, for what and at which price. *)
Definition agrees (infos : gmap Z OrderInfo) (id : Z) (who sym : string) (side : Side) (price : Z) : Prop :=
  exists i, infos !! id = Some i /\ oi_sender_comp_id i = who /\ oi_symbol i = sym /\
    oi_side i = side /\ oi_price i = Some price.

(** Records are added and filled, their other fields stay. *)
Definition infos_grow (infos infos' : gmap Z OrderInfo) : Prop :=
  forall id i, infos !! id = Some i -> exists i', infos' !! id = Some i' /\
    oi_sender_comp_id i' = oi_sender_comp_id i /\ oi_symbol i' = oi_symbol i /\
    oi_side i' = oi_side i /\ oi_price i' = oi_price i.

Lemma agrees_grow infos infos' id who sym side price :
  infos_grow infos infos' -> agrees infos id who sym side price -> agrees infos' id who sym side price.
Proof.
  intros Hg (i & Hi & <- & <- & <- & Hp). destruct (Hg _ _ Hi) as (i' & ? & ? & ? & ? & ?).
  exists i'. by rewrite <- Hp.
Qed.

Lemma infos_grow_refl infos : infos_grow infos infos.
Proof. intros id i Hi. by exists i. Qed.

Lemma infos_grow_fresh infos id i : infos !! id = None -> infos_grow infos (<[id := i]> infos).
Proof.
  intros Hn id' i' Hi'. exists i'. split; [|done]. rewrite lookup_insert_ne; [done|]. congruence.
Qed.

Lemma agrees_det infos id who sym side p who' sym' side' p' :
  agrees infos id who sym side p -> agrees infos id who' sym' side' p' ->
  who' = who /\ sym' = sym /\ side' = side /\ p' = p.
Proof. intros (i & ? & ? & ? & ? & ?) (i' & ? & ? & ? & ? & ?). by simplify_eq. Qed.

(** A trade on its way to the order manager. *)
Record trade_known (infos : gmap Z OrderInfo) (live : list Z) (t : TradeContainer) : Prop := {
  tk_distinct : tc_taker_order_id t <> tc_maker_order_id t;
  tk_price : 0 < tc_price t;
  tk_quantity : 0 < tc_quantity t;
  tk_taker_live : tc_taker_order_id t ∈ live;
  tk_maker_live : tc_maker_order_id t ∈ live;
  tk_buyer : exists p, agrees infos (buyer_order_id t) (buyer_id t) (tc_ticker t) bid p /\ tc_price t <= p;
  tk_seller : exists p, agrees infos (seller_order_id t) (seller_id t) (tc_ticker t) ask p
}.

Lemma trade_known_mono infos infos' live live' t :
  infos_grow infos infos' ->
  (forall id, id ∈ [tc_taker_order_id t; tc_maker_order_id t] -> id ∈ live -> id ∈ live') ->
  trade_known infos live t -> trade_known infos' live' t.
Proof.
  intros Hg Hl [? ? ? ? ? (p & ? & ?) (p' & ?)].
  split; try done; [apply Hl; [by left|done]|apply Hl; [by right; left|done]|..]; eauto using agrees_grow.
Qed.

(** The same for a trade that fills a market bid: the taker's record has no price and
    does not count among the live orders. *)
Record market_trade (infos : gmap Z OrderInfo) (live : list Z) (t : TradeContainer) : Prop := {
  mt_distinct : tc_taker_order_id t <> tc_maker_order_id t;
  mt_price : 0 < tc_price t;
  mt_quantity : 0 < tc_quantity t;
  mt_buyer : tc_is_taker_buyer t = true;
  mt_maker_live : tc_maker_order_id t ∈ live;
  mt_maker : agrees infos (tc_maker_order_id t) (tc_maker_id t) (tc_ticker t) ask (tc_price t);
  mt_taker : exists i, infos !! tc_taker_order_id t = Some i /\ oi_sender_comp_id i = tc_taker_id t /\
    oi_price i = None
}.

(** A trade among the responses; [bids] says whether there are market bids. *)
Definition trade_on_way (bids : bool) (infos : gmap Z OrderInfo) (live : list Z) (t : TradeContainer) : Prop :=
  trade_known infos live t \/ bids = true /\ market_trade infos live t.

Lemma market_trade_mono infos infos' live live' t :
  infos_grow infos infos' ->
  (forall id, id ∈ [tc_taker_order_id t; tc_maker_order_id t] -> id ∈ live -> id ∈ live') ->
  market_trade infos live t -> market_trade infos' live' t.
Proof.
  intros Hg Hl [? ? ? ? ? ? (i & Hi & ? & ?)]. split; try done; [apply Hl; [by right; left|done]|by eapply agrees_grow|].
  destruct (Hg _ _ Hi) as (i' & ? & ? & _ & _ & ?). exists i'. split; [done|]. split; congruence.
Qed.

Lemma trade_on_way_mono bids infos infos' live live' t :
  infos_grow infos infos' ->
  (forall id, id ∈ [tc_taker_order_id t; tc_maker_order_id t] -> id ∈ live -> id ∈ live') ->
  trade_on_way bids infos live t -> trade_on_way bids infos' live' t.
Proof.
  intros Hg Hl [Ht|[Hb Ht]]; [left; by eapply trade_known_mono|right]. split; [done|by eapply market_trade_mono].
Qed.

Lemma trade_on_way_ids bids infos live t :
  trade_on_way bids infos live t -> tc_taker_order_id t <> tc_maker_order_id t /\ 0 < tc_quantity t.
Proof. by intros [[]|[_ []]]. Qed.

Lemma trade_on_way_recorded bids infos live t id :
  (forall id, id ∈ live -> is_Some (infos !! id)) -> trade_on_way bids infos live t ->
  id ∈ [tc_taker_order_id t; tc_maker_order_id t] -> is_Some (infos !! id).
Proof.
  intros Hl Ht Hid. destruct Ht as [[_ _ _ Htl Hml _ _]|[_ [_ _ _ _ Hml _ (i & Hi & _)]]];
    apply elem_of_cons in Hid as [-> | ->%list_elem_of_singleton]; eauto.
Qed.

(** An accepted order on its way to the engine. *)
Record order_queued (infos : gmap Z OrderInfo) (live : list Z) (symbols : list string)
    (c : NewOrderSingleContainer) (id : Z) : Prop := {
  oq_id : no_order_id c = Some id;
  oq_pos : 0 <= id;
  oq_live : id ∈ live;
  oq_price : exists p, no_price c = Some p /\ 0 < p < INT_MAX /\
    agrees infos id (no_sender_comp_id c) (no_symbol c) (no_side c) p;
  oq_quantity : 0 < no_order_qty c <= INT_MAX;
  oq_fits : fits MAX_USERNAME_LENGTH (no_sender_comp_id c) = true;
  oq_symbol : no_symbol c ∈ symbols
}.

Lemma order_queued_mono infos infos' live live' symbols c id :
  infos_grow infos infos' -> (id ∈ live -> id ∈ live') ->
  order_queued infos live symbols c id -> order_queued infos' live' symbols c id.
Proof. intros Hg Hl [? ? ? (p & ? & ? & ?) ? ? ?]. split; eauto 6 using agrees_grow. Qed.

Definition queued_id (c : Container) : option Z :=
  match c with CNewOrderSingle c => no_order_id c | _ => None end.
Definition queued_ids (rq : list Container) : list Z := omap queued_id rq.
Definition mentions (rs : list Container) : list Z := concat (map mentioned rs).
Definition cancels (rs : list Container) : list Z := concat (map cancelled rs).

(** Nothing is said of an order after its cancellation was confirmed. *)
Fixpoint settles_last (rs : list Container) : Prop :=
  match rs with
  | [] => True
  | c :: rs' => (forall id, id ∈ cancelled c -> id ∉ mentions rs') /\ settles_last rs'
  end.

Section Flow.
Context {P : Type} {bids : bool}.
Implicit Types (books : gmap string (LimitOrderBook P)) (infos : gmap Z OrderInfo).

Definition owed books (rq rs : list Container) (id : Z) : Z :=
  filled_qty id rs + resting_qty id books + queued_qty id rq.

Record flow_inv infos (live : list Z) (symbols : list string) books (rq rs : list Container) : Prop := {
  fi_live : forall id, id ∈ live -> is_Some (infos !! id);
  fi_resting : forall sym o, (sym, o) ∈ resting_orders books -> o_order_id o ∈ live /\
    agrees infos (o_order_id o) (o_trader_id o) sym (o_side o) (o_price o);
  fi_queued : forall c, CNewOrderSingle c ∈ rq -> exists id, order_queued infos live symbols c id;
  fi_nodup : NoDup (queued_ids rq);
  fi_fresh : forall id, id ∈ queued_ids rq -> not_resting id books /\ id ∉ mentions rs;
  fi_trades : forall t, CTrade t ∈ rs -> trade_on_way bids infos live t;
  fi_cancels : forall id, id ∈ cancels rs -> id ∈ live /\ not_resting id books;
  fi_order : settles_last rs;
  fi_owed : forall id i, id ∈ live -> infos !! id = Some i ->
    owed books rq rs id <= oi_leaves_qty i /\
    (id ∉ cancels rs -> oi_leaves_qty i = owed books rq rs id)
}.

Lemma queued_ids_live infos live symbols books rq rs id :
  flow_inv infos live symbols books rq rs -> id ∈ queued_ids rq -> id ∈ live.
Proof.
  intros Hf (c & Hc & Hid)%list_elem_of_omap. destruct c as [c|?|?|?|?|?|?]; try done.
  destruct (fi_queued _ _ _ _ _ _ Hf c Hc) as (id' & [Hid' _ ? _ _ _ _]). simpl in Hid. by simplify_eq.
Qed.

Lemma mentions_recorded infos live symbols books rq rs id :
  flow_inv infos live symbols books rq rs -> id ∈ mentions rs -> is_Some (infos !! id).
Proof.
  intros Hf (c & Hc & Hid)%elem_of_concat_map. assert (id ∈ cancelled c -> is_Some (infos !! id)) as Hcan.
  { intros Hd. apply (fi_live _ _ _ _ _ _ Hf), (fi_cancels _ _ _ _ _ _ Hf), elem_of_concat_map. eauto. }
  destruct c as [?|?|?|?|?|t|?]; try by auto. simpl in Hid.
  by eapply trade_on_way_recorded; [apply (fi_live _ _ _ _ _ _ Hf)|apply (fi_trades _ _ _ _ _ _ Hf)|].
Qed.

Lemma queued_qty_absent id rq : id ∉ queued_ids rq -> queued_qty id rq = 0.
Proof.
  intros Hn. apply sumZ_zero. intros c Hc. destruct c as [c|?|?|?|?|?|?]; try done.
  rewrite decide_False; [done|]. intros Hid. apply Hn. apply list_elem_of_omap. by exists (CNewOrderSingle c).
Qed.

Lemma filled_qty_absent id rs : id ∉ mentions rs -> filled_qty id rs = 0.
Proof.
  intros Hn. apply sumZ_zero. intros c Hc. destruct c as [?|?|?|?|?|t|?]; try done. unfold trade_qty.
  assert (forall id', id' ∈ mentioned (CTrade t) -> id' <> id) as Hne.
  { intros id' Hid' ->. apply Hn, elem_of_concat_map. eauto. }
  rewrite !decide_False; [done|apply Hne; by right; left|apply Hne; by left].
Qed.

(** The order manager records an order that it rejects. *)
Lemma flow_rejected infos live symbols books rq rs id i :
  flow_inv infos live symbols books rq rs -> infos !! id = None ->
  flow_inv (<[id := i]> infos) live symbols books rq rs.
Proof.
  intros Hf Hn. pose proof (infos_grow_fresh infos id i Hn) as Hg.
  destruct Hf as [Hlive Hrest Hq Hnd Hfr Htr Hcan Hord Howed]. split; try done.
  - intros id' Hid'. apply lookup_insert_is_Some'. auto.
  - intros sym o Ho. destruct (Hrest sym o Ho). eauto using agrees_grow.
  - intros c Hc. destruct (Hq c Hc) as (id' & Hq'). exists id'. by eapply order_queued_mono.
  - intros t Ht. eapply trade_on_way_mono; eauto.
  - intros id' i' Hid' Hi'. apply (Howed id' i' Hid').
    rewrite lookup_insert_ne in Hi'; [done|]. intros <-. destruct (Hlive _ Hid'). congruence.
Qed.

(** The order manager accepts an order and forwards it. *)
Lemma flow_placed infos live symbols books rq rs c id p gw :
  flow_inv infos live symbols books rq rs -> infos !! id = None -> 0 <= id ->
  no_order_id c = Some id -> no_price c = Some p -> 0 < p < INT_MAX -> 0 < no_order_qty c <= INT_MAX ->
  fits MAX_USERNAME_LENGTH (no_sender_comp_id c) = true -> no_symbol c ∈ symbols ->
  flow_inv (<[id := order_info_of c gw]> infos) (id :: live) symbols books (rq ++ [CNewOrderSingle c]) rs.
Proof.
  intros Hf Hn Hpos Hid Hpr Hp Hqty Hfits Hsym. set (i := order_info_of c gw).
  assert (id ∉ live) as Hnl.
  { intros Hl. destruct (fi_live _ _ _ _ _ _ Hf id Hl). congruence. }
  assert (not_resting id books) as Hnr.
  { intros sym o Ho <-. apply Hnl. by eapply (fi_resting _ _ _ _ _ _ Hf). }
  assert (id ∉ mentions rs) as Hnm.
  { intros Hm. destruct (mentions_recorded _ _ _ _ _ _ _ Hf Hm). congruence. }
  assert (id ∉ queued_ids rq) as Hnq by (intros Hm; apply Hnl; by eapply queued_ids_live).
  pose proof (infos_grow_fresh infos id i Hn) as Hg.
  destruct Hf as [Hlive Hrest Hq Hnd Hfr Htr Hcan Hord Howed].
  assert (queued_ids (rq ++ [CNewOrderSingle c]) = queued_ids rq ++ [id]) as Hids.
  { unfold queued_ids. rewrite omap_app. simpl. by rewrite Hid. }
  split; try done.
  - intros id' [->|Hid']%elem_of_cons; apply lookup_insert_is_Some'; auto.
  - intros sym o Ho. destruct (Hrest sym o Ho). split; [by right|]. by eapply agrees_grow.
  - intros c' [Hc'|[= ->]%list_elem_of_singleton]%elem_of_app.
    + destruct (Hq c' Hc') as (id' & Hq'). exists id'. eapply order_queued_mono; [done|by right|done].
    + exists id. split; try done; [by left|]. exists p. split; [done|]. split; [done|].
      exists i. rewrite lookup_insert_eq. done.
  - rewrite Hids. apply NoDup_app. split; [done|]. split; [|apply NoDup_singleton].
    intros id' Hid' ->%list_elem_of_singleton. done.
  - rewrite Hids. intros id' [Hid'| ->%list_elem_of_singleton]%elem_of_app; [by apply Hfr|done].
  - intros t Ht. eapply trade_on_way_mono; [done|by right|by apply Htr].
  - intros id' Hid'. destruct (Hcan id' Hid'). split; [by right|done].
  - intros id' i' Hid' Hi'. unfold owed. rewrite queued_qty_app. unfold queued_qty at 2 4. simpl.
    apply elem_of_cons in Hid' as [->|Hid'].
    + rewrite lookup_insert_eq in Hi'. injection Hi' as <-. rewrite decide_True by done.
      rewrite filled_qty_absent, resting_qty_absent, queued_qty_absent by done. simpl. lia.
    + assert (id' <> id) by congruence. rewrite lookup_insert_ne in Hi' by done.
      rewrite decide_False by congruence. destruct (Howed id' i' Hid' Hi') as [? Heq]. unfold owed in *.
      split; [lia|]. intros Hnc. rewrite (Heq Hnc). lia.
Qed.

(** A cancel request is forwarded. *)
Lemma flow_cancel_queued infos live symbols books rq rs c :
  flow_inv infos live symbols books rq rs ->
  flow_inv infos live symbols books (rq ++ [CCancelOrderRequest c]) rs.
Proof.
  intros [Hlive Hrest Hq Hnd Hfr Htr Hcan Hord Howed].
  assert (queued_ids (rq ++ [CCancelOrderRequest c]) = queued_ids rq) as Hids.
  { unfold queued_ids. rewrite omap_app. apply app_nil_r. }
  split; try done; rewrite ?Hids; try done.
  - intros c' [Hc'|?%list_elem_of_singleton]%elem_of_app; [by apply Hq|done].
  - intros id i Hl Hi. unfold owed. rewrite queued_qty_app. unfold queued_qty at 2 4. simpl.
    rewrite !Z.add_0_r. by apply Howed.
Qed.

Lemma cancelled_mentioned c id : id ∈ cancelled c -> id ∈ mentioned c.
Proof. destruct c; simpl; try done. by intros ?%elem_of_nil. Qed.

Lemma cancels_mentions rs id : id ∈ cancels rs -> id ∈ mentions rs.
Proof. intros (c & ? & ?)%elem_of_concat_map. apply elem_of_concat_map. eauto using cancelled_mentioned. Qed.

Lemma cancels_app rs rs' : cancels (rs ++ rs') = cancels rs ++ cancels rs'.
Proof. unfold cancels. by rewrite map_app, concat_app. Qed.

Lemma mentions_app rs rs' : mentions (rs ++ rs') = mentions rs ++ mentions rs'.
Proof. unfold mentions. by rewrite map_app, concat_app. Qed.

Lemma settles_last_app rs rs' :
  settles_last rs -> settles_last rs' -> (forall id, id ∈ cancels rs -> id ∉ mentions rs') ->
  settles_last (rs ++ rs').
Proof.
  induction rs as [|c rs IH]; simpl; [done|]. intros [Hc Hs] Hs' Hd. split.
  - intros id Hid. rewrite mentions_app, not_elem_of_app. split; [by apply Hc|].
    apply Hd. unfold cancels. simpl. apply elem_of_app. by left.
  - apply IH; [done|done|]. intros id Hid. apply Hd. unfold cancels. simpl. apply elem_of_app. by right.
Qed.

Lemma trades_settle tcs : settles_last (map CTrade tcs) /\ cancels (map CTrade tcs) = [].
Proof.
  induction tcs as [|t tcs [IH1 IH2]]; simpl; [done|]. split; [|done]. split; [|done].
  by intros id ?%elem_of_nil.
Qed.

Lemma book_qty_absent id books sym lob :
  books !! sym = Some lob -> not_resting id books -> book_qty id lob = 0.
Proof.
  intros Hl Hn. unfold book_qty. rewrite !order_qty_absent; [done|..];
    intros (o & -> & Ho)%list_elem_of_fmap; apply (Hn sym o); try done; apply elem_of_resting; eauto.
Qed.

(** The engine has executed an order: its trades, which meet the records. *)
Lemma announced_known infos live books sym lob id p who side fs tcs :
  book_wf lob -> books !! sym = Some lob -> not_resting id books -> id ∈ live ->
  agrees infos id who sym side p ->
  (forall sym o, (sym, o) ∈ resting_orders books -> o_order_id o ∈ live /\
     agrees infos (o_order_id o) (o_trader_id o) sym (o_side o) (o_price o)) ->
  (forall f, f ∈ fs -> f.1 ∈ orders_of lob (opposite side) /\ 0 < f.2 /\
     crosses side p (o_price f.1) = true) ->
  Forall2 (announces sym id side who) fs tcs ->
  forall t, t ∈ tcs -> trade_known infos live t /\
    tc_taker_order_id t = id /\ ~ not_resting (tc_maker_order_id t) books.
Proof.
  intros Hwf Hl Hnr Hlive Hag Hrest Hfs HF t Ht.
  apply list_elem_of_lookup in Ht as (n & Ht). destruct (Forall2_lookup_r _ _ _ _ _ HF Ht) as (f & Hf & Han).
  destruct (Hfs f) as (Hin & Hq & Hcr); [by eapply list_elem_of_lookup_2|].
  destruct (resting_order_wf books sym lob _ _ Hwf Hl Hin) as (Hs & Hp & _).
  assert ((sym, f.1) ∈ resting_orders books) as Hr by (apply elem_of_resting; eauto).
  destruct (Hrest _ _ Hr) as [Hml Hmag]. rewrite Hs in Hmag.
  destruct Han as [A1 A2 A3 A4 A5 A6 A7 A8]. split; [|split; [done|]].
  - split; rewrite ?A1, ?A2, ?A3, ?A6, ?A7; try done; try lia.
    + intros Heq. by apply (Hnr sym f.1).
    + unfold buyer_order_id, buyer_id. rewrite A8, A4, A5, A6, A7. destruct side; simpl in *; [|exists (o_price f.1); split; [done|lia]].
      exists p. split; [done|]. lia.
    + unfold seller_order_id, seller_id. rewrite A8, A4, A5, A6, A7. destruct side; simpl in *; eauto.
  - rewrite A7. intros Hn. by apply (Hn sym f.1).
Qed.

Lemma not_resting_placed books sym lob lob' c id p fs id' :
  books !! sym = Some lob -> order_placed lob lob' c id p fs -> id' <> id ->
  not_resting id' books -> not_resting id' (<[sym := lob']> books).
Proof.
  intros Hl Hpl Hne Hn sym' o (lob1 & side & Hl1 & Ho)%elem_of_resting.
  apply lookup_insert_Some in Hl1 as [[<- <-]|[_ Hl1]].
  - destruct (op_left _ _ _ _ _ _ Hpl side o Ho) as [(o1 & Ho1 & Hso & _)|[-> _]]; [|congruence].
    rewrite Hso. apply (Hn sym). apply elem_of_resting. eauto.
  - apply (Hn sym'). apply elem_of_resting. eauto.
Qed.

Lemma flow_executed infos live symbols books rq rs c id p lob lob' fs tcs :
  flow_inv infos live symbols books (CNewOrderSingle c :: rq) rs ->
  no_order_id c = Some id -> no_price c = Some p ->
  books !! no_symbol c = Some lob -> book_wf lob ->
  Forall2 (announces (no_symbol c) id (no_side c) (no_sender_comp_id c)) fs tcs ->
  order_placed lob lob' c id p fs ->
  flow_inv infos live symbols (<[no_symbol c := lob']> books) rq (rs ++ map CTrade tcs).
Proof.
  intros Hf Hid Hpr Hl Hwf HF Hpl.
  destruct (fi_queued _ _ _ _ _ _ Hf c ltac:(by left)) as (id0 & [Hid0 _ Hlv (p0 & Hp0 & _ & Hag) _ _ _]).
  rewrite Hid in Hid0. rewrite Hpr in Hp0. injection Hid0 as <-. injection Hp0 as <-.
  pose proof (fun Hnr => announced_known infos live books _ lob id p _ _ fs tcs Hwf Hl Hnr Hlv Hag
    (fi_resting _ _ _ _ _ _ Hf) (op_fills _ _ _ _ _ _ Hpl) HF) as Hknown.
  destruct Hf as [Hlive Hrest Hq Hnd Hfr Htr Hcan Hord Howed].
  unfold queued_ids in Hnd, Hfr. cbn [omap list_omap queued_id] in Hnd, Hfr. rewrite Hid in Hnd, Hfr.
  apply NoDup_cons in Hnd as [Hnq Hnd]. destruct (Hfr id ltac:(by left)) as [Hnr Hnm].
  specialize (Hknown Hnr). destruct (trades_settle tcs) as [Hst Hcn].
  assert (forall id', id' <> id -> not_resting id' books -> id' ∉ mentions (map CTrade tcs)) as Hment.
  { intros id' Hne Hn (c' & Hc' & Hm)%elem_of_concat_map.
    apply list_elem_of_fmap in Hc' as (t & -> & Ht). destruct (Hknown t Ht) as (_ & Hk1 & Hk2).
    simpl in Hm. apply elem_of_cons in Hm as [-> | ->%list_elem_of_singleton]; congruence. }
  split; try done.
  - intros sym o (lob1 & side & Hl1 & Ho)%elem_of_resting.
    apply lookup_insert_Some in Hl1 as [[<- <-]|[_ Hl1]]; [|apply Hrest, elem_of_resting; eauto].
    destruct (op_left _ _ _ _ _ _ Hpl side o Ho) as [(o1 & Ho1 & -> & -> & -> & ->)|(-> & -> & -> & ->)]; [|done].
    apply Hrest, elem_of_resting. eauto.
  - intros c' Hc'. apply Hq. by right.
  - intros id' Hid'. assert (id' <> id) by (by intros ->). destruct (Hfr id') as [? ?]; [by right|].
    split; [by eapply not_resting_placed|]. rewrite mentions_app, not_elem_of_app. auto.
  - intros t [Ht|Ht]%elem_of_app; [by apply Htr|]. apply list_elem_of_fmap in Ht as (t' & [= <-] & Ht).
    left. by apply Hknown.
  - rewrite cancels_app, Hcn, app_nil_r. intros id' Hid'. destruct (Hcan id' Hid') as [? ?]. split; [done|].
    eapply not_resting_placed; try done. intros ->. by apply Hnm, cancels_mentions.
  - apply settles_last_app; [done|done|]. intros id' Hid'. destruct (Hcan id' Hid') as [? ?].
    apply Hment; [|done]. intros ->. by apply Hnm, cancels_mentions.
  - rewrite cancels_app, Hcn, app_nil_r. intros id' i Hl' Hi. destruct (Howed id' i Hl' Hi) as [? Heq].
    assert (owed (<[no_symbol c := lob']> books) rq (rs ++ map CTrade tcs) id' =
            owed books (CNewOrderSingle c :: rq) rs id') as ->; [|done].
    unfold owed. rewrite filled_qty_app, (announced_qty _ _ _ _ _ _ id' HF), (resting_qty_update _ _ _ lob) by done.
    unfold queued_qty at 2. simpl. fold (queued_qty id' rq). rewrite Hid.
    destruct (decide (id' = id)) as [->|Hne].
    + rewrite decide_True by done. rewrite (book_qty_absent id books _ lob) by done.
      pose proof (op_own _ _ _ _ _ _ Hpl).
      assert (fills_qty id fs = 0) as ->; [|lia]. apply sumZ_zero. intros f Hf. rewrite decide_False; [done|].
      apply (Hnr (no_symbol c)), elem_of_resting.
      destruct (op_fills _ _ _ _ _ _ Hpl f Hf) as [? _]. eauto.
    + rewrite decide_False by congruence. rewrite (op_others _ _ _ _ _ _ Hpl id' Hne). lia.
Qed.

(** The engine has answered a cancel request. *)
Lemma flow_refused infos live symbols books rq rs c r :
  flow_inv infos live symbols books (CCancelOrderRequest c :: rq) rs -> cs_success r = false ->
  flow_inv infos live symbols books rq (rs ++ [CCancelOrderResponse r]).
Proof.
  intros [Hlive Hrest Hq Hnd Hfr Htr Hcan Hord Howed] Hr.
  assert (mentioned (CCancelOrderResponse r) = []) as Hm by (simpl; by rewrite Hr).
  assert (cancels (rs ++ [CCancelOrderResponse r]) = cancels rs) as Hc.
  { rewrite cancels_app. unfold cancels at 2. simpl. rewrite Hr. apply app_nil_r. }
  assert (mentions (rs ++ [CCancelOrderResponse r]) = mentions rs) as Hms.
  { rewrite mentions_app. unfold mentions at 2. simpl. rewrite Hr. apply app_nil_r. }
  split; rewrite ?Hc, ?Hms; try done.
  - intros c' Hc'. apply Hq. by right.
  - intros t [Ht|?%list_elem_of_singleton]%elem_of_app; [by apply Htr|done].
  - apply settles_last_app; [done| |].
    + split; [|done]. intros id _. by apply not_elem_of_nil.
    + intros id _. unfold mentions. simpl. rewrite Hr. by apply not_elem_of_nil.
  - intros id i Hl Hi. unfold owed. rewrite filled_qty_app. unfold filled_qty at 2 4. simpl.
    rewrite !Z.add_0_r. by apply (Howed id i Hl Hi).
Qed.

Lemma flow_cancelled infos live symbols books rq rs c sym lob lob' r side o :
  flow_inv infos live symbols books (CCancelOrderRequest c :: rq) rs -> cs_success r = true ->
  books !! sym = Some lob -> book_wf lob ->
  o ∈ orders_of lob side -> o_order_id o = cs_order_id r ->
  (forall side, orders_of lob' side = remove_order (cs_order_id r) (orders_of lob side)) ->
  flow_inv infos live symbols (<[sym := lob']> books) rq (rs ++ [CCancelOrderResponse r]).
Proof.
  intros [Hlive Hrest Hq Hnd Hfr Htr Hcan Hord Howed] Hr Hl Hwf Ho Hoid Hrem. set (id := cs_order_id r) in *.
  destruct (Hrest sym o) as [Hidl Hag]; [apply elem_of_resting; eauto|]. rewrite Hoid in Hidl, Hag.
  assert (~ not_resting id books) as Hres.
  { intros Hn. apply (Hn sym o); [apply elem_of_resting; eauto|done]. }
  assert (forall sym' o', (sym', o') ∈ resting_orders (<[sym := lob']> books) ->
    (sym', o') ∈ resting_orders books /\ o_order_id o' <> id) as Hsub.
  { intros sym' o' (lob1 & side' & Hl1 & Ho')%elem_of_resting.
    apply lookup_insert_Some in Hl1 as [[<- <-]|[Hne Hl1]].
    - rewrite Hrem in Ho'. apply elem_of_remove in Ho' as [Ho' ?]. split; [|done]. apply elem_of_resting. eauto.
    - assert ((sym', o') ∈ resting_orders books) as Hin by (apply elem_of_resting; eauto). split; [done|].
      intros Heq. destruct (Hrest _ _ Hin) as [_ Hag']. rewrite Heq in Hag'.
      by destruct (agrees_det _ _ _ _ _ _ _ _ _ _ Hag Hag') as (_ & <- & _). }
  assert (forall id', not_resting id' books -> not_resting id' (<[sym := lob']> books)) as Hnr
    by (intros id' Hn sym' o' Ho'; apply (Hn sym'); by apply Hsub).
  assert (not_resting id (<[sym := lob']> books)) as Hnid by (intros sym' o' Ho'; by apply (Hsub sym' o')).
  assert (cancels [CCancelOrderResponse r] = [id] /\ mentions [CCancelOrderResponse r] = [id]) as [Hc1 Hm1].
  { unfold cancels, mentions. simpl. by rewrite Hr. }
  split; try done.
  - intros sym' o' Ho'. by apply Hrest, Hsub.
  - intros c' Hc'. apply Hq. by right.
  - intros id' Hid'. destruct (Hfr id' Hid') as [Hn Hm]. split; [by apply Hnr|].
    rewrite mentions_app, Hm1, not_elem_of_app. split; [done|]. rewrite list_elem_of_singleton. congruence.
  - intros t [Ht|?%list_elem_of_singleton]%elem_of_app; [by apply Htr|done].
  - rewrite cancels_app, Hc1. intros id' [Hid'| ->%list_elem_of_singleton]%elem_of_app; [|done].
    destruct (Hcan id' Hid'). auto.
  - apply settles_last_app; [done| |].
    + split; [|done]. intros id' _. by apply not_elem_of_nil.
    + intros id' Hid'. rewrite Hm1, list_elem_of_singleton. destruct (Hcan id' Hid'). congruence.
  - rewrite cancels_app, Hc1. intros id' i Hl' Hi. destruct (Howed id' i Hl' Hi) as [Hle Heq].
    assert (book_qty id' lob' = if decide (id' = id) then 0 else book_qty id' lob) as Hbq.
    { unfold book_qty. rewrite !Hrem, !order_qty_remove. by case_decide. }
    pose proof (book_qty_nonneg id' lob Hwf) as Hpos.
    unfold owed in *. rewrite filled_qty_app, (resting_qty_update _ _ _ lob), Hbq by done.
    unfold filled_qty at 2 4. simpl. unfold queued_qty in Hle, Heq. simpl in Hle, Heq.
    fold (queued_qty id' rq) in Hle, Heq. case_decide as Hd; [subst id'|].
    + split; [lia|]. intros Hn. exfalso. apply Hn, elem_of_app. right. by left.
    + split; [lia|]. intros [Hn _]%not_elem_of_app. rewrite (Heq Hn). lia.
Qed.

(** The order manager has read the answer to a cancel request. *)
Lemma flow_refusal_read infos live symbols books rq rs r :
  flow_inv infos live symbols books rq (CCancelOrderResponse r :: rs) -> cs_success r = false ->
  flow_inv infos live symbols books rq rs.
Proof.
  intros [Hlive Hrest Hq Hnd Hfr Htr Hcan Hord Howed] Hr.
  unfold mentions, cancels in *. simpl in *. rewrite Hr in *. simpl in *.
  split; try done; [|by destruct Hord].
  intros t Ht. apply Htr. by right.
Qed.

Lemma flow_cancel_read infos live live' symbols books rq rs r :
  flow_inv infos live symbols books rq (CCancelOrderResponse r :: rs) -> cs_success r = true ->
  NoDup live -> live ≡ₚ cs_order_id r :: live' ->
  flow_inv infos live' symbols books rq rs.
Proof.
  intros Hf Hr Hndl Hperm. destruct Hf as [Hlive Hrest Hq Hnd Hfr Htr Hcan [Hord1 Hord] Howed]. set (id := cs_order_id r) in *.
  unfold mentions, cancels in *. simpl in *. rewrite Hr in *. simpl in *. fold id in Hord1, Hfr, Hcan, Howed.
  assert (id ∉ mentions rs) as Hnm by (apply Hord1; by left).
  destruct (Hcan id ltac:(by left)) as [_ Hnr].
  assert (forall id', id' ∈ live -> id' <> id -> id' ∈ live') as Hin.
  { intros id' Hl Hne. rewrite Hperm in Hl. by apply elem_of_cons in Hl as [?|?]. }
  assert (forall id', id' ∈ live' -> id' ∈ live /\ id' <> id) as Hout.
  { intros id' Hl. split; [rewrite Hperm; by right|]. intros ->. rewrite Hperm in Hndl.
    by apply NoDup_cons in Hndl as [? _]. }
  split; try done.
  - intros id' Hl. apply Hlive. by apply Hout.
  - intros sym o Ho. destruct (Hrest sym o Ho) as [? ?]. split; [|done]. apply Hin; [done|]. by apply (Hnr sym).
  - intros c Hc. destruct (Hq c Hc) as (id' & Hoq). exists id'. eapply order_queued_mono; [apply infos_grow_refl| |done].
    intros Hl. apply Hin; [done|]. intros ->. destruct (Hfr id) as [_ Hnn].
    + apply list_elem_of_omap. exists (CNewOrderSingle c). split; [done|]. apply Hoq.
    + apply Hnn. by left.
  - intros id' Hid'. destruct (Hfr id' Hid') as [? [_ ?]%not_elem_of_cons]. done.
  - intros t Ht. eapply trade_on_way_mono; [apply infos_grow_refl| |apply Htr; by right].
    intros id' Hid' Hl. apply Hin; [done|]. intros ->. apply Hnm, elem_of_concat_map. exists (CTrade t). done.
  - intros id' Hid'. destruct (Hcan id' ltac:(by right)) as [? ?]. split; [|done]. apply Hin; [done|].
    intros ->. by apply Hnm, cancels_mentions.
  - intros id' i Hl Hi. destruct (Hout id' Hl) as [Hl' Hne]. destruct (Howed id' i Hl' Hi) as [? Heq].
    split; [done|]. intros Hn. apply Heq. by apply not_elem_of_cons.
Qed.

(** The order manager reads a trade. *)
Lemma resting_qty_nonneg id books :
  (forall sym lob, books !! sym = Some lob -> book_wf lob) -> 0 <= resting_qty id books.
Proof.
  intros Hwf. apply sumZ_nonneg, Forall_forall. intros [sym o] Hr. simpl.
  apply elem_of_resting in Hr as (lob & side & Hl & Ho).
  destruct (resting_order_wf books sym lob side o (Hwf _ _ Hl) Hl Ho) as (_ & _ & ?). case_decide; lia.
Qed.

Lemma trade_owed infos live symbols books rq rs t id :
  flow_inv infos live symbols books rq (CTrade t :: rs) ->
  (forall sym lob, books !! sym = Some lob -> book_wf lob) ->
  id ∈ [tc_taker_order_id t; tc_maker_order_id t] ->
  tc_quantity t <= owed books rq (CTrade t :: rs) id.
Proof.
  intros Hf Hwf Hid. unfold owed. pose proof (resting_qty_nonneg id books Hwf).
  assert (0 <= queued_qty id rq).
  { apply sumZ_nonneg, Forall_forall. intros c Hc. destruct c as [c|?|?|?|?|?|?]; try done.
    destruct (fi_queued _ _ _ _ _ _ Hf c Hc) as (? & [_ _ _ _ ? _ _]). case_decide; lia. }
  assert (0 <= filled_qty id rs).
  { apply filled_qty_nonneg. intros t' Ht'. eapply trade_on_way_ids, (fi_trades _ _ _ _ _ _ Hf). by right. }
  destruct (trade_on_way_ids _ _ _ _ (fi_trades _ _ _ _ _ _ Hf t ltac:(by left))) as [_ ?].
  unfold filled_qty. simpl. fold (filled_qty id rs). unfold trade_qty.
  apply elem_of_cons in Hid as [-> | ->%list_elem_of_singleton]; repeat case_decide; lia.
Qed.

Lemma trade_on_record bc infos live symbols books rq rs t :
  flow_inv infos live symbols books rq (CTrade t :: rs) -> trade_known infos live t ->
  (forall sym lob, books !! sym = Some lob -> book_wf lob) ->
  exists b s, trade_between (mkLedger bc infos live) t b s.
Proof.
  intros Hf Ht Hwf. destruct Ht
    as [Hne Hp Hq Htl Hml (pb & (b & Hb & B1 & B2 & B3 & B4) & _) (ps & s & Hs & S1 & S2 & S3 & S4)].
  assert (buyer_order_id t ∈ [tc_taker_order_id t; tc_maker_order_id t] /\
          seller_order_id t ∈ [tc_taker_order_id t; tc_maker_order_id t]) as [Hbm Hsm].
  { unfold buyer_order_id, seller_order_id. rewrite !elem_of_cons. destruct (tc_is_taker_buyer t); auto. }
  assert (buyer_order_id t ∈ live /\ seller_order_id t ∈ live) as [Hbl Hsl].
  { unfold buyer_order_id, seller_order_id. by destruct (tc_is_taker_buyer t). }
  exists b, s. split; try done.
  pose proof (trade_owed _ _ _ _ _ _ _ _ Hf Hwf Hbm). pose proof (trade_owed _ _ _ _ _ _ _ _ Hf Hwf Hsm).
  destruct (fi_owed _ _ _ _ _ _ Hf _ _ Hbl Hb). destruct (fi_owed _ _ _ _ _ _ Hf _ _ Hsl Hs). lia.
Qed.

Lemma infos_grow_trade infos t b s b' s' :
  buyer_order_id t <> seller_order_id t ->
  infos !! buyer_order_id t = Some b -> infos !! seller_order_id t = Some s ->
  fill_order_info b (tc_price t) (tc_quantity t) = Ok b' ->
  fill_order_info s (tc_price t) (tc_quantity t) = Ok s' ->
  infos_grow infos (<[seller_order_id t := s']> (<[buyer_order_id t := b']> infos)) /\
  forall id i', <[seller_order_id t := s']> (<[buyer_order_id t := b']> infos) !! id = Some i' ->
    exists i, infos !! id = Some i /\
      oi_leaves_qty i' = oi_leaves_qty i -
        (if decide (id = buyer_order_id t \/ id = seller_order_id t) then tc_quantity t else 0).
Proof.
  intros Hne Hb Hs (? & ? & ? & ? & ?)%fill_order_info_inv (? & ? & ? & ? & ?)%fill_order_info_inv. split.
  - intros id i Hi. destruct (decide (id = seller_order_id t)) as [->|].
    + rewrite lookup_insert_eq. exists s'. by simplify_eq.
    + rewrite lookup_insert_ne by done. destruct (decide (id = buyer_order_id t)) as [->|].
      * rewrite lookup_insert_eq. exists b'. by simplify_eq.
      * rewrite lookup_insert_ne by done. by exists i.
  - intros id i' [[<- <-]|[? [[<- <-]|[? Hi]]%lookup_insert_Some]]%lookup_insert_Some.
    + exists s. split; [done|]. rewrite decide_True by auto. done.
    + exists b. split; [done|]. rewrite decide_True by auto. done.
    + exists i'. split; [done|]. rewrite decide_False by naive_solver. lia.
Qed.

Lemma flow_trade_read infos live symbols books rq rs t b s b' s' :
  flow_inv infos live symbols books rq (CTrade t :: rs) ->
  infos !! buyer_order_id t = Some b -> infos !! seller_order_id t = Some s ->
  fill_order_info b (tc_price t) (tc_quantity t) = Ok b' ->
  fill_order_info s (tc_price t) (tc_quantity t) = Ok s' ->
  flow_inv (<[seller_order_id t := s']> (<[buyer_order_id t := b']> infos)) live symbols books rq rs.
Proof.
  intros Hf Hb Hs Hfb Hfs.
  destruct (trade_on_way_ids _ _ _ _ (fi_trades _ _ _ _ _ _ Hf t ltac:(by left))) as [Hdist _].
  destruct (buyer_seller_ids t Hdist) as [Hne Hids].
  destruct (infos_grow_trade infos t b s b' s' Hne Hb Hs Hfb Hfs) as [Hg Hleaves].
  destruct Hf as [Hlive Hrest Hq Hnd Hfr Htr Hcan [_ Hord] Howed]. split; try done.
  - intros id Hid. destruct (Hlive id Hid) as [i Hi]. destruct (Hg _ _ Hi) as (i' & ? & _). eauto.
  - intros sym o Ho. destruct (Hrest sym o Ho). eauto using agrees_grow.
  - intros c Hc. destruct (Hq c Hc) as (id & ?). exists id. by eapply order_queued_mono.
  - intros id Hid. destruct (Hfr id Hid) as [? Hm]. split; [done|]. unfold mentions in *. simpl in Hm.
    by do 2 apply not_elem_of_cons in Hm as [_ Hm].
  - intros t' Ht'. eapply trade_on_way_mono; [done|by intros|apply Htr; by right].
  - intros id i' Hl Hi'. destruct (Hleaves id i' Hi') as (i & Hi & ->).
    destruct (Howed id i Hl Hi) as [Hle Heq]. unfold owed, filled_qty in *. simpl in *.
    fold (filled_qty id rs) in *.
    assert (trade_qty id t =
      if decide (id = buyer_order_id t \/ id = seller_order_id t) then tc_quantity t else 0) as Htq.
    { unfold trade_qty. destruct Hids as [[-> ->]|[-> ->]]; repeat case_decide; naive_solver lia. }
    rewrite <- Htq. split; [lia|]. intros Hn. rewrite (Heq Hn). lia.
Qed.
End Flow.

(** ** What settlement relies on *)

(** The account that an order's funds were taken from. *)
Definition account (i : OrderInfo) : string :=
  match oi_side i with bid => USD_SYMBOL | ask => oi_symbol i end.

Record record_ok (symbols : list string) (bc : BalanceChecker) (i : OrderInfo) : Prop := {
  ro_owns : owns bc (oi_sender_comp_id i) (account i);
  ro_cum : 0 <= oi_cum_qty i;
  ro_symbol : oi_symbol i ∈ symbols
}.

(** Live orders have accounts, and every answer to a cancel request is about an
    order on record. *)
Record known_inv (symbols : list string) (bc : BalanceChecker) (infos : gmap Z OrderInfo)
    (live : list Z) (rq rs : list Container) : Prop := {
  kn_records : forall id i, id ∈ live -> infos !! id = Some i -> record_ok symbols bc i;
  kn_requests : forall c, CCancelOrderRequest c ∈ rq ->
    exists id, cr_order_id c = Some id /\ is_Some (infos !! id);
  kn_responses : forall r, CCancelOrderResponse r ∈ rs -> is_Some (infos !! cs_order_id r)
}.

(** Records that only gain: more orders, larger fills, more accounts. *)
Definition records_gain (infos infos' : gmap Z OrderInfo) (live' : list Z) : Prop :=
  (forall id, is_Some (infos !! id) -> is_Some (infos' !! id)) /\
  forall id i', id ∈ live' -> infos' !! id = Some i' -> exists i, infos !! id = Some i /\
    oi_sender_comp_id i' = oi_sender_comp_id i /\ oi_symbol i' = oi_symbol i /\ oi_side i' = oi_side i /\
    oi_cum_qty i <= oi_cum_qty i'.

Lemma record_ok_gain symbols bc bc' i i' :
  grows bc bc' -> oi_sender_comp_id i' = oi_sender_comp_id i -> oi_symbol i' = oi_symbol i ->
  oi_side i' = oi_side i -> oi_cum_qty i <= oi_cum_qty i' ->
  record_ok symbols bc i -> record_ok symbols bc' i'.
Proof.
  intros Hg E1 E2 E3 E4 [Ho Hc Hs]. unfold account in Ho. split; unfold account; rewrite ?E1, ?E2, ?E3; [|lia|done].
  by apply Hg.
Qed.

Lemma known_gain symbols bc bc' infos infos' live live' rq rq' rs rs' :
  grows bc bc' -> records_gain infos infos' live' -> (forall id, id ∈ live' -> id ∈ live) ->
  (forall c, CCancelOrderRequest c ∈ rq' -> CCancelOrderRequest c ∈ rq) ->
  (forall r, CCancelOrderResponse r ∈ rs' -> CCancelOrderResponse r ∈ rs) ->
  known_inv symbols bc infos live rq rs -> known_inv symbols bc' infos' live' rq' rs'.
Proof.
  intros Hg [Hdom Hrec] Hl Hq Hr [K1 K2 K3]. split.
  - intros id i' Hid Hi'. destruct (Hrec id i' Hid Hi') as (i & Hi & ? & ? & ? & ?).
    by eapply record_ok_gain; eauto.
  - intros c Hc. destruct (K2 c (Hq c Hc)) as (id & ? & ?). eauto.
  - intros r Hc. auto.
Qed.

Lemma records_gain_refl infos live : records_gain infos infos live.
Proof. split; [done|]. intros id i _ Hi. exists i. repeat split; [done|lia]. Qed.

Lemma records_gain_fresh infos id i live :
  infos !! id = None -> id ∉ live -> records_gain infos (<[id := i]> infos) live.
Proof.
  intros Hn Hl. split.
  - intros id' Hs. apply lookup_insert_is_Some'. auto.
  - intros id' i' Hid Hi'. rewrite lookup_insert_ne in Hi' by congruence. exists i'. repeat split; [done|lia].
Qed.

Lemma grows_refl bc : grows bc bc.
Proof. by intros b t. Qed.

Lemma known_placed symbols bc bc' infos live rq rs c id gw x amount :
  known_inv symbols bc infos live rq rs -> infos !! id = None ->
  (forall id', id' ∈ live -> is_Some (infos !! id')) -> no_ord_type c = limit ->
  reservation c None = Some (x, amount) -> owns bc (no_sender_comp_id c) x -> grows bc bc' ->
  no_symbol c ∈ symbols ->
  known_inv symbols bc' (<[id := order_info_of c gw]> infos) (id :: live) (rq ++ [CNewOrderSingle c]) rs.
Proof.
  intros [K1 K2 K3] Hn Hl Hlim Hr Ho Hg Hs. split.
  - intros id' i [->|Hid]%elem_of_cons Hi.
    + rewrite lookup_insert_eq in Hi. injection Hi as <-. split; simpl; [|lia|done].
      apply Hg. unfold reservation in Hr. unfold account. simpl. rewrite Hlim in Hr.
      destruct (no_side c); [destruct (no_price c)|]; by simplify_eq/=.
    + rewrite lookup_insert_ne in Hi by (intros <-; destruct (Hl _ Hid); congruence).
      eapply record_ok_gain; [exact Hg|..|by eapply K1]; done.
  - intros c' [Hc'|?%list_elem_of_singleton]%elem_of_app; [|done].
    destruct (K2 c' Hc') as (id' & ? & ?). exists id'. split; [done|]. apply lookup_insert_is_Some'. auto.
  - intros r Hr'. apply lookup_insert_is_Some'. auto.
Qed.

Lemma grows_trans bc1 bc2 bc3 : grows bc1 bc2 -> grows bc2 bc3 -> grows bc1 bc3.
Proof. intros G1 G2 b t Ho. by apply G2, G1. Qed.

(** A successful update never drops an account, whatever the amount. *)
Lemma update_balance_grows bc b t delta bc' :
  update_balance bc b t delta = Ok bc' -> grows bc bc' /\ owns bc' b t.
Proof.
  unfold update_balance. intros (? & _ & Hu)%bind_ok.
  assert (exists v m, m = default ∅ (bc !! b) /\ bc' = <[b := <[t := v]> m]> bc) as (v & m & Hm & ->).
  { destruct (bc !! b) as [m|] eqn:Hm; [|injection Hu as <-; by exists delta, ∅].
    destruct (m !! t); [|injection Hu as <-; by exists delta, m].
    do 3 (apply bind_ok in Hu as (? & _ & Hu)). injection Hu as <-. eexists _, m. done. }
  pose proof (set_balance bc b t v m Hm) as Hl. unfold grows, owns. split.
  - intros b' t' Ho. rewrite Hl. case_decide; [by eexists|done].
  - rewrite Hl, decide_True by done. eauto.
Qed.

Lemma refund_grows bc buyer p t bc' : refund_improvement bc buyer p t = Ok bc' -> grows bc bc'.
Proof.
  destruct p as [p|]; simpl; [|intros [= <-]; apply grows_refl]. intros (? & _ & Hr)%bind_ok.
  apply bind_ok in Hr as (? & _ & Hr). destruct (0 <? _); [|injection Hr as <-; apply grows_refl].
  apply bind_ok in Hr as (? & _ & Hr). by apply update_balance_grows in Hr as [? _].
Qed.

(** After a trade the buyer has a stock account and the seller a cash account. *)
Lemma apply_trade_grows infos bc t infos' bc' :
  apply_trade infos bc t = Ok (infos', bc') ->
  grows bc bc' /\ owns bc' (buyer_id t) (tc_ticker t) /\ owns bc' (seller_id t) USD_SYMBOL.
Proof.
  unfold apply_trade. intros Ha. do 6 (apply bind_ok in Ha as (? & _ & Ha)).
  apply bind_ok in Ha as (bc1 & [G1 O1]%update_balance_grows & Ha). apply bind_ok in Ha as (bo & _ & Ha).
  apply bind_ok in Ha as (bc2 & G2%refund_grows & Ha). apply bind_ok in Ha as (pr & _ & Ha).
  apply bind_ok in Ha as (bc3 & [G3 O3]%update_balance_grows & [= _ <-]).
  split; [by eapply grows_trans; [|eapply grows_trans]|]. split; [|done]. by apply G3, G2.
Qed.

Lemma cancel_response_grows infos bc r bc' : apply_cancel_response infos bc r = Ok bc' -> grows bc bc'.
Proof.
  unfold apply_cancel_response. destruct (cs_success r); [|intros [= <-]; apply grows_refl].
  intros (i & _ & Ha)%bind_ok. apply bind_ok in Ha as (p & _ & Ha). destruct (oi_side i).
  - apply bind_ok in Ha as (rf & _ & Ha). by apply update_balance_grows in Ha as [? _].
  - by apply update_balance_grows in Ha as [? _].
Qed.

Lemma fill_cum i price quantity i' :
  fill_order_info i price quantity = Ok i' -> oi_cum_qty i' = oi_cum_qty i + quantity.
Proof.
  unfold fill_order_info. intros Hf. do 6 (apply bind_ok in Hf as (? & _ & Hf)).
  apply bind_ok in Hf as (cum & Hc & [= <-]). int_inv. done.
Qed.

Lemma records_gain_trade infos live t b s b' s' :
  0 < tc_quantity t ->
  infos !! buyer_order_id t = Some b -> infos !! seller_order_id t = Some s ->
  fill_order_info b (tc_price t) (tc_quantity t) = Ok b' ->
  fill_order_info s (tc_price t) (tc_quantity t) = Ok s' ->
  records_gain infos (<[seller_order_id t := s']> (<[buyer_order_id t := b']> infos)) live.
Proof.
  intros Hq Hb Hs Hfb Hfs. pose proof (fill_cum _ _ _ _ Hfb). pose proof (fill_cum _ _ _ _ Hfs).
  apply fill_order_info_inv in Hfb as (? & ? & ? & ? & ?). apply fill_order_info_inv in Hfs as (? & ? & ? & ? & ?).
  split.
  - intros id Hid. rewrite !lookup_insert_is_Some'. auto.
  - intros id i' _ [[<- <-]|[_ [[<- <-]|[_ Hi]]%lookup_insert_Some]]%lookup_insert_Some.
    + exists s. repeat split; try done. lia.
    + exists b. repeat split; try done. lia.
    + exists i'. repeat split; try done.
Qed.
