(* ===== verification/MarketSystem.v ===== *)
(** * The order manager and the matching engine as one system

    The two services as one transition system: the order manager's request and
    response handlers, the engine's handler and its flushes, and the two streams
    of messages between them, first in first out.  [market_inv] holds in every
    state that is reached; from it follow the conservation of assets across both
    services and the absence of failures when a response is read. *)

From S2P Require Import Prelude Core Messaging Concurrency Transport OrderedMap LimitOrderBook BookSpec.
From S2P Require Import Matching BookOps BookTheorems MatchingEngine EngineTheorems BalanceChecker.
From S2P Require Import OrderManager OrderValidation OrderSettlement Inflight MarketFlow.
From Stdlib Require Import ZArith Lia Ascii String.
From stdpp Require Import base option list gmap strings fin_maps relations.

Open Scope Z_scope.

Section Market.
Context {I C D L P Q : Type} `{InboundServer I} `{OutboundClientLaws C} `{OrderManagerDatabase D}
  `{InboundServerLaws L} {tpub : Publisher Trade P} {spub : Publisher TopOrderBookLevelAggregates Q}
  `{CodecFaithful} (SERVER_NAME : string) (exec_ids : nat -> string) (env : Env) {bids : bool}.
Implicit Types (om : OrderManager I C D) (me : MatchingEngine L P Q).

Record market := mkMarket {
  mk_om : OrderManager I C D;
  mk_me : MatchingEngine L P Q;
  mk_requests : list string;
  mk_responses : list string
}.

(** What a service does with its other links, while it waits, changes none of
    what the invariant speaks of. *)
Record om_idle om om' : Prop := {
  id_setup : same_setup om om';
  id_balances : balance_checker om' = balance_checker om;
  id_orders : orders om' = orders om
}.

Record engine_idle me me' : Prop := {
  ei_books : limit_order_books me' = limit_order_books me;
  ei_events : trade_events me' = trade_events me;
  ei_wf : engine_wf me -> engine_wf me'
}.

Inductive market_step : market -> market -> Prop :=
  | ms_request om me rq rs gw m c om' outs :
      deserialize_container m = Ok c -> admissible c ->
      client_up (order_request_outbound_client om) (order_request_connection_id om) ->
      process_request SERVER_NAME exec_ids om gw m = Ok om' ->
      sends (order_request_outbound_client om) (order_request_outbound_client om')
        (order_request_connection_id om) outs ->
      market_step (mkMarket om me rq rs) (mkMarket om' me (rq ++ outs) rs)
  | ms_engine om me rq rs m c me' outs :
      deserialize_container m = Ok c ->
      server_up (inbound_server me) (order_response_connection_id me) ->
      process_container env me c = Ok me' -> trade_events me' = [] ->
      sends (inbound_server me) (inbound_server me') (order_response_connection_id me) outs ->
      market_step (mkMarket om me (m :: rq) rs) (mkMarket om me' rq (rs ++ outs))
  | ms_response om me rq rs m om' :
      process_response SERVER_NAME exec_ids om m = Ok om' ->
      market_step (mkMarket om me rq (m :: rs)) (mkMarket om' me rq rs)
  | ms_om_idle om om' me rq rs :
      om_idle om om' -> market_step (mkMarket om me rq rs) (mkMarket om' me rq rs)
  | ms_engine_idle om me me' rq rs :
      engine_idle me me' -> market_step (mkMarket om me rq rs) (mkMarket om me' rq rs).

Definition users_of om : list string := (map_to_list (username_user_id_map om)).*1.

Lemma users_nodup om : NoDup (users_of om).
Proof. apply NoDup_fst_map_to_list. Qed.

Lemma elem_of_users om u : u ∈ users_of om <-> is_Some (username_user_id_map om !! u).
Proof.
  unfold users_of. rewrite list_elem_of_fmap. split.
  - intros ([u' id] & -> & Hin%elem_of_map_to_list). eauto.
  - intros [id Hid]. exists (u, id). split; [done|]. by apply elem_of_map_to_list.
Qed.

(** The holdings of all users, and what their live orders have set aside. *)
Definition assets om (live : list Z) (x : string) : Z :=
  OrderSettlement.total (users_of om) (balance_checker om) x + escrow (order_info_map (orders om)) live x.

Definition om_ledger om (live : list Z) : ledger :=
  mkLedger (balance_checker om) (order_info_map (orders om)) live.

(** The messages under way are these containers. *)
Definition carries (ms : list string) (cs : list Container) : Prop := ms = map serialize_container cs.

Record market_inv (s : market) (live : list Z) (rq rs : list Container) : Prop := {
  mi_requests : carries (mk_requests s) rq;
  mi_responses : carries (mk_responses s) rs;
  mi_request_kinds : forall c, c ∈ rq -> match c with CNewOrderSingle _ | CCancelOrderRequest _ => True | _ => False end;
  mi_response_kinds : forall c, c ∈ rs -> match c with CTrade _ | CCancelOrderResponse _ => True | _ => False end;
  mi_orders : orders_wf (orders (mk_om s));
  mi_ledger : ledger_wf (users_of (mk_om s)) (om_ledger (mk_om s) live);
  mi_engine : engine_wf (mk_me s);
  mi_events : trade_events (mk_me s) = [];
  mi_symbols : ""%string ∉ active_symbols (mk_om s);
  mi_books : forall x, x ∈ active_symbols (mk_om s) -> is_Some (limit_order_books (mk_me s) !! x);
  mi_flow : flow_inv (bids := bids) (order_info_map (orders (mk_om s))) live (active_symbols (mk_om s))
              (limit_order_books (mk_me s)) rq rs;
  mi_known : known_inv (active_symbols (mk_om s)) (balance_checker (mk_om s))
               (order_info_map (orders (mk_om s))) live rq rs
}.

(** Two states with the same assets; no record is lost. *)
Definition keeps (s s' : market) (live live' : list Z) : Prop :=
  users_of (mk_om s') = users_of (mk_om s) /\
  infos_grow (order_info_map (orders (mk_om s))) (order_info_map (orders (mk_om s'))) /\
  forall x, assets (mk_om s') live' x = assets (mk_om s) live x.

Lemma carries_app ms cs ms' cs' : carries ms cs -> carries ms' cs' -> carries (ms ++ ms') (cs ++ cs').
Proof. unfold carries. intros -> ->. by rewrite map_app. Qed.

Lemma received_request c :
  match c with CNewOrderSingle _ | CCancelOrderRequest _ | CTrade _ | CCancelOrderResponse _ => True | _ => False end ->
  received c = c.
Proof. by destruct c. Qed.

Lemma request_step_inv om me rq rs gw m c om' outs live qs ps :
  market_inv (mkMarket om me rq rs) live qs ps ->
  deserialize_container m = Ok c -> admissible c ->
  client_up (order_request_outbound_client om) (order_request_connection_id om) ->
  process_request SERVER_NAME exec_ids om gw m = Ok om' ->
  sends (order_request_outbound_client om) (order_request_outbound_client om')
    (order_request_connection_id om) outs ->
  exists live' qs', market_inv (mkMarket om' me (rq ++ outs) rs) live' qs' ps /\
    keeps (mkMarket om me rq rs) (mkMarket om' me (rq ++ outs) rs) live live'.
Proof.
  intros [Hrq Hrs Kq Kr Hos Hled Heng Hev Hsym Hbk Hflow Hkn] Hc Ha Hup Hp Hsends. simpl in *.
  destruct (process_request_effect _ _ _ _ _ _ _ _ Hos Hc Ha Hup Hp Hsends)
    as (Hos' & (Es & Eu & _ & _) & c' & sent & Heff & ->).
  unfold users_of, om_ledger, keeps, assets in *. simpl. unfold users_of. rewrite Eu.
  assert (forall live' qs', ledger_wf (map_to_list (username_user_id_map om)).*1
      (mkLedger (balance_checker om') (order_info_map (orders om')) live') ->
    flow_inv (bids := bids) (order_info_map (orders om')) live' (active_symbols om) (limit_order_books me) (qs ++ qs') ps ->
    (forall c, c ∈ qs' -> match c with CNewOrderSingle _ | CCancelOrderRequest _ => True | _ => False end) ->
    known_inv (active_symbols om) (balance_checker om') (order_info_map (orders om')) live' (qs ++ qs') ps ->
    market_inv (mkMarket om' me (rq ++ map serialize_container qs') rs) live' (qs ++ qs') ps) as Hmk.
  { intros live' qs' Hled' Hflow' Kq' Hkn'. split; simpl; unfold users_of, om_ledger; rewrite ?Eu, ?Es; try done.
    - apply carries_app; [done|]. by unfold carries.
    - intros c1 [Hc1|Hc1]%elem_of_app; [by apply (Kq c1)|by apply (Kq' c1)]. }
  destruct Heff as [c1 Hbc Hinf|c1 id Hid Hpos Hnone Hu Hadm Hv Hinf|c1 id Hid Hknown Hbc Hinf].
  - exists live, (qs ++ []). split.
    + apply Hmk; [| |by intros ? ?%elem_of_nil|].
      * rewrite Hbc. destruct Hinf as [->|(id & i & Hn & ->)]; [done|].
        destruct Hled as [? ? Hl]. split; try done. simpl in *. intros id' Hid'.
        destruct (Hl id' Hid') as (i' & Hi' & ?). exists i'. rewrite lookup_insert_ne by congruence. done.
      * rewrite app_nil_r. destruct Hinf as [->|(id & i & Hn & ->)]; [done|by apply flow_rejected].
      * rewrite app_nil_r, Hbc. destruct Hinf as [->|(id & i & Hn & ->)]; [done|].
        eapply known_gain; [apply grows_refl|apply records_gain_fresh; [done|]|..|done]; try done.
        intros Hid. destruct (fi_live _ _ _ _ _ _ Hflow id Hid). congruence.
    + split; [done|]. split.
      { destruct Hinf as [->|(id & i & Hn & ->)]; [apply infos_grow_refl|by apply infos_grow_fresh]. }
      intros x. rewrite Hbc. f_equal. destruct Hinf as [->|(id & i & Hn & ->)]; [done|].
      apply escrow_insert. intros Hid. destruct (fi_live _ _ _ _ _ _ Hflow id Hid). congruence.
  - destruct Hadm as (Hlim & Hwt & Hmax & Hf). assert (id ∉ live) as Hnl.
    { intros Hl. destruct (fi_live _ _ _ _ _ _ Hflow id Hl). congruence. }
    destruct (place_step_conserves _ _ (users_nodup om) Hsym _ _ live c1 id gw _ Hled Hv Hwt Hlim
      ltac:(by apply elem_of_users) Hnone Hnl) as [Hled' Hcons].
    assert (balances_wf (balance_checker om)) as Hbw by apply Hled.
    destruct (validate_new_order_ok _ _ c1 None Hbw Hwt Hsym) as (bc0 & v & Hv' & Hok & _).
    rewrite Hv in Hv'. injection Hv' as <- <-.
    destruct (Hok eq_refl) as ((Hsy & Hq & Hpp) & acct & amount & Hres & _ & Hown & _ & _ & _ & Hgrow).
    destruct (wt_limit _ _ Hwt Hlim) as [p Hpr]. rewrite Hpr in *. simpl in Hpp.
    pose proof (wt_price _ _ Hwt p Hpr). pose proof (wt_qty _ _ Hwt).
    exists (id :: live), (qs ++ [CNewOrderSingle c1]). split.
    + apply Hmk; [by rewrite Hinf| |by intros ? ->%list_elem_of_singleton|]; rewrite Hinf.
      * apply (flow_placed _ _ _ _ _ _ _ _ p); try done; [|lia].
        assert (p <> INT_MAX) by congruence. lia.
      * eapply known_placed; try done. apply Hflow.
    + split; [done|]. split; [rewrite Hinf; by apply infos_grow_fresh|]. intros y. rewrite Hinf. apply (Hcons y).
  - exists live, (qs ++ [CCancelOrderRequest c1]). split.
    + apply Hmk; [by rewrite Hbc, Hinf| |by intros ? ->%list_elem_of_singleton|]; rewrite ?Hbc, ?Hinf.
      * by apply flow_cancel_queued.
      * destruct Hkn as [K1 K2 K3]. split; try done.
        intros c2 [Hc2|[= ->]%list_elem_of_singleton]%elem_of_app; [by apply K2|eauto].
    + split; [done|]. split; [rewrite Hinf; apply infos_grow_refl|]. intros x. by rewrite Hbc, Hinf.
Qed.

Lemma carries_head m ms cs c :
  carries (m :: ms) cs -> deserialize_container m = Ok c ->
  exists c0 cs', cs = c0 :: cs' /\ carries ms cs' /\ c = received c0.
Proof.
  unfold carries. destruct cs as [|c0 cs']; [done|]. simpl. intros [= -> ->] Hd.
  exists c0, cs'. split; [done|]. split; [done|]. by apply deserialize_faithful.
Qed.

(** The engine's step: what is known of the message it reads. *)
Lemma engine_step_flow om me rq rs live c qs ps me' outs :
  env_ok env -> market_inv (mkMarket om me rq rs) live (c :: qs) ps ->
  server_up (inbound_server me) (order_response_connection_id me) ->
  process_container env me c = Ok me' -> trade_events me' = [] ->
  sends (inbound_server me) (inbound_server me') (order_response_connection_id me) outs ->
  exists ps', engine_wf me' /\ carries outs ps' /\
    (forall c, c ∈ ps' -> match c with CTrade _ | CCancelOrderResponse _ => True | _ => False end) /\
    (forall x, is_Some (limit_order_books me !! x) -> is_Some (limit_order_books me' !! x)) /\
    (forall t, CTrade t ∈ ps' -> trade_known (order_info_map (orders om)) live t) /\
    flow_inv (bids := bids) (order_info_map (orders om)) live (active_symbols om) (limit_order_books me') qs (ps ++ ps') /\
    (forall r, CCancelOrderResponse r ∈ ps' -> is_Some (order_info_map (orders om) !! cs_order_id r)).
Proof.
  intros Henv [Hrq Hrs Kq Kr Hos Hled Heng Hev Hsym Hbk Hflow Hkn] Hup Hp Hev' Hsends. simpl in *.
  assert (forall b x (lob' : LimitOrderBook P), is_Some (limit_order_books me !! x) ->
    is_Some (<[b := lob']> (limit_order_books me) !! x)) as Hdom
    by (intros; apply lookup_insert_is_Some'; auto).
  specialize (Kq c ltac:(by left)). destruct c as [c|c|?|?|?|?|?]; try done.
  - destruct (fi_queued _ _ _ _ _ _ Hflow c ltac:(by left)) as (id & [Hid Hpos Hlv (p & Hpr & Hpb & Hag) Hq Hfit Hin]).
    destruct (Hbk _ Hin) as [lob Hlob]. destruct (ew_books _ Heng _ _ Hlob) as [Hbw _].
    destruct (fi_fresh _ _ _ _ _ _ Hflow id) as [Hnr _].
    { apply list_elem_of_omap. exists (CNewOrderSingle c). split; [by left|done]. }
    pose proof (not_resting_fresh id _ _ lob Hbw Hlob Hnr) as Hfr.
    assert (order_ok lob id p (no_order_qty c) (no_sender_comp_id c)) as Hok by (split; try done; right; lia).
    destruct (engine_order_effect env me c id p lob me' outs Henv Heng Hev Hid Hlob Hpr Hpb Hok Hp Hev' Hsends)
      as (lob' & fs & tcs & Hwf' & Hb' & -> & HF & Hpl).
    exists (map CTrade tcs). rewrite Hb'. split; [done|]. split; [unfold carries; by rewrite map_map|].
    split; [|split; [by intros x; apply Hdom|split; [|split; [by eapply flow_executed|]]]].
    + intros c' (t & -> & _)%list_elem_of_fmap. done.
    + intros t (t' & [= ->] & Ht)%list_elem_of_fmap.
      by apply (announced_known _ _ _ _ _ _ _ _ _ _ _ Hbw Hlob Hnr Hlv Hag (fi_resting _ _ _ _ _ _ Hflow)
        (op_fills _ _ _ _ _ _ Hpl) HF).
    + by intros r (t & ? & _)%list_elem_of_fmap.
  - destruct (engine_cancel_effect env me c me' outs Heng Hup Hp Hsends)
      as (id & lob & lob' & Hid & Hlob & Hwf' & Hb' & _ & Ho & Hsame & ->).
    destruct (ew_books _ Heng _ _ Hlob) as [Hbw _]. rewrite Hb'.
    set (r := mkCancelResponse id (cr_cl_ord_id c) (order_id_exists lob id)).
    exists [CCancelOrderResponse r]. split; [done|]. split; [by unfold carries|].
    split; [by intros ? ->%list_elem_of_singleton|]. split; [by intros x; apply Hdom|].
    split; [by intros t ?%list_elem_of_singleton|]. split.
    2: { intros r' [= ->]%list_elem_of_singleton. simpl.
         destruct (kn_requests _ _ _ _ _ _ Hkn c ltac:(by left)) as (id' & Hid' & ?). by simplify_eq. }
    destruct (order_id_exists lob id) eqn:He.
    + unfold order_id_exists in He. apply bool_decide_eq_true in He as [a Ha].
      destruct (lookup_node lob id a Hbw Ha) as (n & _ & _ & Hnid & Hin).
      eapply flow_cancelled; [done|done|exact Hlob|done| |done|done].
      by apply (list_elem_of_fmap_2 n_order).
    + rewrite (Hsame eq_refl), insert_id by done. by eapply flow_refused.
Qed.

Lemma engine_step_inv om me rq rs m c me' outs live qs ps :
  env_ok env -> market_inv (mkMarket om me (m :: rq) rs) live qs ps ->
  deserialize_container m = Ok c ->
  server_up (inbound_server me) (order_response_connection_id me) ->
  process_container env me c = Ok me' -> trade_events me' = [] ->
  sends (inbound_server me) (inbound_server me') (order_response_connection_id me) outs ->
  exists qs' ps', market_inv (mkMarket om me' rq (rs ++ outs)) live qs' (ps ++ ps') /\
    forall t, CTrade t ∈ ps' -> trade_known (order_info_map (orders om)) live t.
Proof.
  intros Henv Hinv Hc Hup Hp Hev' Hsends.
  destruct (carries_head _ _ _ _ (mi_requests _ _ _ _ Hinv) Hc) as (c0 & qs' & -> & Hcs & Hrec).
  rewrite received_request in Hrec; [subst c0|].
  2: { pose proof (mi_request_kinds _ _ _ _ Hinv c0 ltac:(by left)). by destruct c0. }
  destruct (engine_step_flow _ _ _ _ _ _ _ _ _ _ Henv Hinv Hup Hp Hev' Hsends)
    as (ps' & Hwf' & Hcar & Kps & Hdom & Htr & Hflow' & Kn').
  destruct Hinv as [Hrq Hrs Kq Kr Hos Hled Heng Hev Hsym Hbk Hflow Hkn]. simpl in *.
  exists qs', ps'. split; [|done]. split; simpl; try done.
  - by apply carries_app.
  - intros c' Hc'. apply (Kq c'). by right.
  - intros c' [Hc'|Hc']%elem_of_app; [by apply (Kr c')|by apply (Kps c')].
  - intros x Hx. by apply Hdom, Hbk.
  - destruct Hkn as [K1 K2 K3]. split; [done|intros c' Hc'; apply K2; by right|].
    intros r [Hr|Hr]%elem_of_app; [by apply K3|by apply Kn'].
Qed.

Lemma process_response_inv om m om' :
  process_response SERVER_NAME exec_ids om m = Ok om' ->
  exists c, deserialize_container m = Ok c /\ same_setup om om' /\
    order_id_map (orders om') = order_id_map (orders om) /\
    latest_assigned_order_id (orders om') = latest_assigned_order_id (orders om) /\
    update_internal_data c (order_info_map (orders om)) (balance_checker om) =
      Ok (order_info_map (orders om'), balance_checker om').
Proof.
  unfold process_response. intros (c & Hc & Hp)%bind_ok. exists c. split; [done|].
  apply bind_ok in Hp as ([infos bc] & Hu & Hp). apply bind_ok in Hp as (inb & _ & Hp).
  apply bind_ok in Hp as (db & _ & [= <-]). done.
Qed.

Lemma orders_wf_infos os infos' :
  orders_wf os -> (forall id, is_Some (infos' !! id) <-> is_Some (order_info_map os !! id)) ->
  orders_wf (mkOrders (order_id_map os) infos' (latest_assigned_order_id os)).
Proof.
  intros [? Hi Hl ?] Hd. split; simpl; try done.
  - intros id. by rewrite Hi, Hd.
  - intros id Hs. by apply Hl, Hd.
Qed.

Lemma response_step_inv om me rq rs m om' live qs c0 ps' :
  market_inv (mkMarket om me rq (m :: rs)) live qs (c0 :: ps') ->
  (forall t, c0 = CTrade t -> trade_known (order_info_map (orders om)) live t) ->
  process_response SERVER_NAME exec_ids om m = Ok om' ->
  exists live', market_inv (mkMarket om' me rq rs) live' qs ps' /\
    keeps (mkMarket om me rq (m :: rs)) (mkMarket om' me rq rs) live live'.
Proof.
  intros Hinv Hknown Hp. destruct (process_response_inv _ _ _ Hp) as (c & Hc & (Es & Eu & _ & _) & Ei & El & Hu).
  destruct (carries_head _ _ _ _ (mi_responses _ _ _ _ Hinv) Hc) as (? & ? & [= <- <-] & Hcs & Hrec).
  pose proof (mi_response_kinds _ _ _ _ Hinv c0 ltac:(by left)) as Kc.
  rewrite received_request in Hrec by (by destruct c0). subst c0.
  assert (orders om' = mkOrders (order_id_map (orders om)) (order_info_map (orders om'))
    (latest_assigned_order_id (orders om))) as Eo by (rewrite <- Ei, <- El; by destruct (orders om')).
  destruct Hinv as [Hrq Hrs Kq Kr Hos Hled Heng Hev Hsym Hbk Hflow Hkn].
  cbn [mk_om mk_me mk_requests mk_responses] in *.
  assert (forall live', orders_wf (orders om') ->
    ledger_wf (users_of om) (om_ledger om' live') ->
    flow_inv (bids := bids) (order_info_map (orders om')) live' (active_symbols om) (limit_order_books me) qs ps' ->
    grows (balance_checker om) (balance_checker om') ->
    records_gain (order_info_map (orders om)) (order_info_map (orders om')) live' ->
    (forall id, id ∈ live' -> id ∈ live) ->
    market_inv (mkMarket om' me rq rs) live' qs ps') as Hmk.
  { intros live' Hos' Hled' Hflow' Hgrow Hgain Hsub. assert (known_inv (active_symbols om) (balance_checker om')
      (order_info_map (orders om')) live' qs ps') as Hkn'.
    { eapply known_gain; [done|done|done| | |exact Hkn]; [done|]. intros r Hr. by right. }
    unfold users_of, om_ledger in *. split; simpl;
      unfold users_of, om_ledger; rewrite ?Eu, ?Es; try done.
    intros c' Hc'. apply (Kr c'). by right. }
  unfold keeps, assets, om_ledger in *. cbn [mk_om]. unfold users_of in *. rewrite Eu.
  destruct c as [?|?|?|?|?|t|r]; try done; simpl in Hu.
  - destruct (trade_on_record (balance_checker om) _ _ _ _ _ _ _ Hflow (Hknown t eq_refl)) as (b & s & Htb).
    { intros sym lob Hl. by apply (ew_books _ Heng _ _ Hl). }
    destruct (trade_step_conserves _ _ (users_nodup om) Hsym _ _ _ _ _ _ _ _ Hled Htb Hu) as [Hled' Hcons].
    destruct Htb as [_ _ Hne Hb Hs _ _ _ Hp0 (Hq0 & _)]. simpl in Hb, Hs.
    destruct (apply_trade_inv _ _ _ _ _ _ _ (lw_balances _ _ Hled) Hp0 Hq0 Hne Hb Hs Hu)
      as (b' & s' & _ & _ & Hfb & Hfs & Hinf & _).
    destruct (apply_trade_grows _ _ _ _ _ Hu) as [Hgrow _].
    destruct (infos_grow_trade _ t b s b' s' ltac:(by apply buyer_seller_ids) Hb Hs Hfb Hfs) as [Hig _].
    exists live. split; [|split; [done|split; [by rewrite Hinf|exact Hcons]]]. apply Hmk; [|done| |done| |done].
    + rewrite Eo. apply orders_wf_infos; [done|]. intros id. rewrite Hinf, !lookup_insert_is_Some'.
      split; [|by auto]. intros [<-|[<-|?]]; [by rewrite Hs|by rewrite Hb|done].
    + rewrite Hinf. by eapply flow_trade_read.
    + rewrite Hinf. by eapply records_gain_trade.
  - apply bind_ok in Hu as (bc' & Hu & [= Hinf ->]). pose proof (cancel_response_grows _ _ _ _ Hu) as Hgrow.
    destruct (cs_success r) eqn:Hr.
    + assert (cs_order_id r ∈ live) as Hl.
      { apply (fi_cancels _ _ _ _ _ _ Hflow). unfold cancels. simpl. rewrite Hr. by left. }
      apply elem_of_Permutation in Hl as [live' Hperm].
      destruct (cancel_step_conserves _ (users_nodup om) _ _ _ _ _ _ Hled Hr Hperm Hu) as [Hled' Hcons].
      exists live'. rewrite <- Hinf. split; [|split; [done|split; [apply infos_grow_refl|exact Hcons]]]. apply Hmk; rewrite <- ?Hinf.
      * rewrite Eo, <- Hinf. by destruct (orders om).
      * done.
      * by eapply flow_cancel_read; [..|apply Hled|].
      * done.
      * apply records_gain_refl.
      * intros id Hid. rewrite Hperm. by right.
    + unfold apply_cancel_response in Hu. rewrite Hr in Hu. injection Hu as Hbc. rewrite <- Hinf, <- Hbc.
      exists live. split; [|split; [done|split; [apply infos_grow_refl|done]]].
      apply Hmk; rewrite <- ?Hinf, <- ?Hbc;
        [|done|by eapply flow_refusal_read|apply grows_refl|apply records_gain_refl|done].
      rewrite Eo, <- Hinf. by destruct (orders om).
Qed.

Lemma keeps_same_om om me me' rq rq' rs rs' live :
  keeps (mkMarket om me rq rs) (mkMarket om me' rq' rs') live live.
Proof. split; [done|]. split; [apply infos_grow_refl|done]. Qed.

Lemma keeps_refl s live : keeps s s live live.
Proof. destruct s. apply keeps_same_om. Qed.

Lemma infos_grow_trans infos1 infos2 infos3 :
  infos_grow infos1 infos2 -> infos_grow infos2 infos3 -> infos_grow infos1 infos3.
Proof.
  intros G1 G2 id i Hi. destruct (G1 id i Hi) as (i1 & Hi1 & ? & ? & ? & ?).
  destruct (G2 id i1 Hi1) as (i2 & Hi2 & ? & ? & ? & ?). exists i2. split_and!; congruence.
Qed.

Lemma keeps_trans s1 s2 s3 l1 l2 l3 : keeps s1 s2 l1 l2 -> keeps s2 s3 l2 l3 -> keeps s1 s3 l1 l3.
Proof.
  intros (U1 & G1 & A1) (U2 & G2 & A2). split; [congruence|]. split; [by eapply infos_grow_trans|].
  intros x. by rewrite A2, A1.
Qed.

Lemma idle_om_inv om om' me rq rs live qs ps :
  om_idle om om' -> market_inv (mkMarket om me rq rs) live qs ps ->
  market_inv (mkMarket om' me rq rs) live qs ps /\
  keeps (mkMarket om me rq rs) (mkMarket om' me rq rs) live live.
Proof.
  intros [(Es & Eu & _ & _) Eb Eo] [? ? ? ? ? Hled ? ? ? ? ? ?]. unfold keeps, assets, users_of, om_ledger in *.
  simpl in *. rewrite Eu, Eb, Eo. split; [|split; [done|split; [apply infos_grow_refl|done]]].
  split; simpl; unfold users_of, om_ledger; rewrite ?Es, ?Eu, ?Eb, ?Eo; done.
Qed.

Lemma idle_engine_inv om me me' rq rs live qs ps :
  engine_idle me me' -> market_inv (mkMarket om me rq rs) live qs ps ->
  market_inv (mkMarket om me' rq rs) live qs ps.
Proof.
  intros [Eb Ee Ew] [? ? ? ? ? ? ? ? ? ? ? ?]. simpl in *.
  split; simpl; rewrite ?Eb, ?Ee; auto.
Qed.

Lemma market_step_inv s s' live qs ps :
  bids = false -> env_ok env -> market_step s s' -> market_inv s live qs ps ->
  exists live' qs' ps', market_inv s' live' qs' ps' /\ keeps s s' live live'.
Proof.
  intros Hbids Henv Hs Hinv.
  destruct Hs as [om me rq rs gw m c om' outs Hc Ha Hup Hp Hse|om me rq rs m c me' outs Hc Hup Hp Hev Hse
    |om me rq rs m om' Hp|om om' me rq rs Hid|om me me' rq rs Hid].
  - destruct (request_step_inv _ _ _ _ _ _ _ _ _ _ _ _ Hinv Hc Ha Hup Hp Hse) as (l & q & ? & ?). eauto.
  - destruct (engine_step_inv _ _ _ _ _ _ _ _ _ _ _ Henv Hinv Hc Hup Hp Hev Hse) as (q & r & ? & _).
    exists live, q, (ps ++ r). split; [done|apply keeps_same_om].
  - pose proof (mi_responses _ _ _ _ Hinv) as Hrs. destruct ps as [|c0 ps']; [done|].
    assert (forall t, c0 = CTrade t -> trade_known (order_info_map (orders om)) live t) as Hknown.
    { intros t ->. destruct (fi_trades _ _ _ _ _ _ (mi_flow _ _ _ _ Hinv) t ltac:(by left)) as [?|[Hb _]]; [done|congruence]. }
    destruct (response_step_inv _ _ _ _ _ _ _ _ _ _ Hinv Hknown Hp) as (l & ? & ?). by exists l, qs, ps'.
  - destruct (idle_om_inv _ _ _ _ _ _ _ _ Hid Hinv). eauto.
  - exists live, qs, ps. split; [by eapply idle_engine_inv|apply keeps_same_om].
Qed.

Lemma market_run_inv s s' live qs ps :
  bids = false -> env_ok env -> rtc market_step s s' -> market_inv s live qs ps ->
  exists live' qs' ps', market_inv s' live' qs' ps' /\ keeps s s' live live'.
Proof.
  intros Hbids Henv Hr. revert live qs ps. induction Hr as [s|s s1 s' Hs _ IH]; intros live qs ps Hinv.
  { eauto using keeps_refl. }
  destruct (market_step_inv _ _ _ _ _ Hbids Henv Hs Hinv) as (l1 & q1 & r1 & Hinv1 & Hk1).
  destruct (IH _ _ _ Hinv1) as (l2 & q2 & r2 & Hinv2 & Hk2). eauto 6 using keeps_trans.
Qed.

(** ** What the invariant says of the assets *)

(** What a resting order is worth of the asset [x]: the reserved cash of a bid,
    the reserved stock of an ask. *)
Definition resting_value (x : string) (r : string * Order) : Z :=
  match o_side r.2 with
  | bid => if decide (x = USD_SYMBOL) then o_price r.2 * o_quantity r.2 else 0
  | ask => if decide (x = r.1) then o_quantity r.2 else 0
  end.

Definition book_assets me (x : string) : Z :=
  sumZ (resting_value x) (resting_orders (limit_order_books me)).

Lemma sumZ_scale {A} k (f : A -> Z) l : sumZ (fun x => k * f x) l = k * sumZ f l.
Proof. induction l; simpl; lia. Qed.

(** The share of an order in the value of the books is what its record sets aside. *)
Lemma resting_share infos live symbols (books : gmap string (LimitOrderBook P)) id i x :
  flow_inv (bids := bids) infos live symbols books [] [] -> id ∈ live -> infos !! id = Some i ->
  set_aside i x = sumZ (fun r => if decide (o_order_id r.2 = id) then resting_value x r else 0)
                    (resting_orders books).
Proof.
  intros Hf Hl Hi. destruct (fi_owed _ _ _ _ _ _ Hf id i Hl Hi) as [_ Heq].
  specialize (Heq ltac:(by apply not_elem_of_nil)).
  assert (oi_leaves_qty i = resting_qty id books) as Hlv by (rewrite Heq; unfold owed; cbn; lia).
  set (k := match oi_side i with
            | bid => if decide (x = USD_SYMBOL) then default 0 (oi_price i) else 0
            | ask => if decide (x = oi_symbol i) then 1 else 0
            end).
  assert (set_aside i x = k * oi_leaves_qty i) as ->.
  { unfold set_aside, k. destruct (oi_side i); case_decide; lia. }
  rewrite Hlv. unfold resting_qty. rewrite <- sumZ_scale. apply sumZ_ext. intros [sym o] Ho.
  cbn [fst snd]. case_decide as Hd; [|lia]. subst id.
  destruct (fi_resting _ _ _ _ _ _ Hf sym o Ho) as [_ (i' & Hi' & _ & E1 & E2 & E3)].
  rewrite Hi in Hi'. injection Hi' as <-. unfold resting_value, k. cbn [fst snd]. rewrite E1, E2, E3.
  destruct (o_side o); simpl; case_decide; lia.
Qed.

Lemma quiet_assets s live x :
  market_inv s live [] [] ->
  assets (mk_om s) live x =
    OrderSettlement.total (users_of (mk_om s)) (balance_checker (mk_om s)) x + book_assets (mk_me s) x.
Proof.
  intros Hinv. unfold assets. f_equal. unfold escrow, book_assets. pose proof (mi_flow _ _ _ _ Hinv) as Hf.
  rewrite <- (sumZ_by_key (fun r => o_order_id r.2) _ live).
  - apply sumZ_ext. intros id Hid. destruct (fi_live _ _ _ _ _ _ Hf id Hid) as [i Hi]. rewrite Hi. simpl.
    by eapply resting_share.
  - apply (mi_ledger _ _ _ _ Hinv).
  - intros [sym o] Ho. by apply (fi_resting _ _ _ _ _ _ Hf sym o).
Qed.

(** Without messages under way every resting order has its record. *)
Lemma quiet_record s live sym o :
  market_inv s live [] [] -> (sym, o) ∈ resting_orders (limit_order_books (mk_me s)) ->
  exists i, order_info_map (orders (mk_om s)) !! o_order_id o = Some i /\
    oi_sender_comp_id i = o_trader_id o /\ oi_symbol i = sym /\ oi_side i = o_side o /\
    oi_price i = Some (o_price o) /\ oi_leaves_qty i = o_quantity o.
Proof.
  intros Hinv Ho. pose proof (mi_flow _ _ _ _ Hinv) as Hf.
  destruct (fi_resting _ _ _ _ _ _ Hf sym o Ho) as [Hl (i & Hi & E1 & E2 & E3 & E4)].
  exists i. do 5 (split; [done|]). destruct (fi_owed _ _ _ _ _ _ Hf _ _ Hl Hi) as [_ Heq].
  rewrite Heq by (by apply not_elem_of_nil). pose proof Ho as (lob & side & Hlob & Hin)%elem_of_resting.
  destruct (ew_books _ (mi_engine _ _ _ _ Hinv) _ _ Hlob) as [Hbw _].
  unfold owed. rewrite (resting_qty_unique _ sym lob side o); [cbn; lia|done|done|done|].
  intros sym' o' Ho' Hid. destruct (fi_resting _ _ _ _ _ _ Hf sym' o' Ho') as [_ (i' & Hi' & _ & E2' & _)].
  rewrite Hid, Hi in Hi'. congruence.
Qed.

Lemma escrow_nonneg s live qs ps x :
  market_inv s live qs ps -> 0 <= escrow (order_info_map (orders (mk_om s))) live x.
Proof.
  intros Hinv. apply sumZ_nonneg, Forall_forall. intros id Hid.
  destruct (lw_live _ _ (mi_ledger _ _ _ _ Hinv) id Hid) as (i & Hi & _ & Hq & p & Hp & Hpb).
  simpl in Hi. rewrite Hi. simpl. unfold set_aside. rewrite Hp. simpl.
  destruct (oi_side i); case_decide; try lia.
Qed.
End Market.
