(* ===== verification/MarketSafety.v ===== *)
(** * What can go wrong when a response is read

    Reading a trade or the answer to a cancel request, the order manager looks up
    records, accounts and users, and asserts that no balance becomes negative and
    that no buyer pays more than the limit.  In the states of [MarketSystem] none
    of this can fail: the only way for [process_response] to stop is arithmetic on
    [int] or [std::int64_t] that leaves its type. *)

From S2P Require Import Prelude Core Messaging Concurrency Transport OrderedMap LimitOrderBook BookSpec.
From S2P Require Import Matching BookOps BookTheorems MatchingEngine EngineTheorems BalanceChecker.
From S2P Require Import OrderManager OrderValidation OrderSettlement Inflight MarketFlow MarketSystem.
From Stdlib Require Import ZArith Lia Ascii String.
From stdpp Require Import base option list gmap strings fin_maps relations.

Open Scope Z_scope.

(** A computation that stops, if at all, with an overflow. *)
Definition only_overflow {A} (r : res A) : Prop := forall e, r = Err e -> e = SignedOverflow.

Lemma oo_ok {A} (a : A) : only_overflow (Ok a).
Proof. done. Qed.

Lemma oo_bind {A B} (m : res A) (f : A -> res B) :
  only_overflow m -> (forall a, m = Ok a -> only_overflow (f a)) -> only_overflow (x ← m; f x).
Proof. intros Hm Hf e. destruct m as [a|e']; simpl; [by apply Hf|]. intros [= <-]. by apply Hm. Qed.

Lemma oo_i32 z : only_overflow (i32 z).
Proof. unfold i32. destruct (in_i32 z); [done|]. by intros e [= <-]. Qed.

Lemma oo_i64 z : only_overflow (i64 z).
Proof. unfold i64. destruct (in_i64 z); [done|]. by intros e [= <-]. Qed.

Lemma oo_div32 a b : b <> 0 -> only_overflow (div32 a b).
Proof. intros Hb. unfold div32. rewrite (proj2 (Z.eqb_neq _ _)) by done. apply oo_i32. Qed.

Lemma oo_check e b : b = true -> only_overflow (check e b).
Proof. by intros ->. Qed.

Lemma oo_some {A} e (o : option A) : is_Some o -> only_overflow (get_or e o).
Proof. by intros [a ->]. Qed.

Create HintDb overflow discriminated.
#[export] Hint Constants Transparent : overflow.
#[export] Hint Resolve oo_ok oo_i32 oo_i64 oo_check oo_some : overflow.
#[export] Hint Extern 1 (only_overflow (add32 _ _)) => apply oo_i32 : overflow.
#[export] Hint Extern 1 (only_overflow (sub32 _ _)) => apply oo_i32 : overflow.
#[export] Hint Extern 1 (only_overflow (mul32 _ _)) => apply oo_i32 : overflow.
#[export] Hint Extern 1 (only_overflow (add64 _ _)) => apply oo_i64 : overflow.

(** Step into the next operation. *)
Ltac oo_step x Hx := apply oo_bind; [auto with overflow|intros x Hx].

Lemma oo_fill i price quantity :
  0 <= oi_cum_qty i -> 0 < quantity -> only_overflow (fill_order_info i price quantity).
Proof.
  intros Hc Hq. unfold fill_order_info.
  oo_step a Ha. oo_step b Hb. oo_step n Hn. oo_step d Hd. apply i32_inv in Hd as [-> _].
  apply oo_bind; [apply oo_div32; lia|intros avg _]. oo_step l Hl. oo_step k Hk. apply oo_ok.
Qed.

Lemma oo_update bc b t delta :
  balances_wf bc -> t <> ""%string -> 0 <= delta -> only_overflow (update_balance bc b t delta).
Proof.
  intros Hwf Ht Hd. unfold update_balance.
  apply oo_bind; [apply oo_check; by rewrite (proj2 (String.eqb_neq _ _))|intros ? _].
  destruct (bc !! b) as [m|] eqn:Hm; [|apply oo_ok]. destruct (m !! t) as [v|] eqn:Hv; [|apply oo_ok].
  assert (owns bc b t) as Ho by (unfold owns; rewrite Hm; simpl; by rewrite Hv).
  pose proof (balance_nonneg bc b t Hwf) as Hb.
  apply oo_bind.
  - unfold has_sufficient_balance. rewrite requires_record_ok, get_balance_ok by done. simpl.
    apply oo_bind; [apply oo_i64|auto with overflow].
  - intros s Hs. unfold has_sufficient_balance in Hs. rewrite requires_record_ok, get_balance_ok in Hs by done.
    simpl in Hs. apply bind_ok in Hs as (sum & [-> _]%i64_inv & [= <-]).
    apply oo_bind; [apply oo_check; apply Z.leb_le; lia|intros ? _]. oo_step w Hw. apply oo_ok.
Qed.

Lemma oo_refund bc buyer limit_price t :
  balances_wf bc -> 0 < tc_quantity t -> (forall p, limit_price = Some p -> tc_price t <= p) ->
  only_overflow (refund_improvement bc buyer limit_price t).
Proof.
  intros Hwf Hq Hp. destruct limit_price as [p|]; simpl; [|apply oo_ok]. specialize (Hp p eq_refl).
  oo_step im Him. apply i32_inv in Him as [-> _].
  apply oo_bind; [apply oo_check; apply Z.leb_le; lia|intros ? _].
  destruct (0 <? _) eqn:E; [|apply oo_ok]. oo_step rf Hrf. apply i32_inv in Hrf as [-> _].
  apply oo_update; [done|done|]. apply Z.ltb_lt in E. nia.
Qed.

(** A trade between two orders on record. *)
Lemma oo_apply_trade infos bc t b s symbols pb :
  balances_wf bc -> (""%string ∉ symbols) ->
  tc_taker_order_id t <> tc_maker_order_id t -> 0 < tc_price t -> 0 < tc_quantity t ->
  infos !! buyer_order_id t = Some b -> infos !! seller_order_id t = Some s ->
  oi_price b = Some pb -> tc_price t <= pb -> oi_symbol b = tc_ticker t ->
  record_ok symbols bc b -> record_ok symbols bc s ->
  only_overflow (apply_trade infos bc t).
Proof.
  intros Hwf Hne Hdist Hp Hq Hb Hs Hpb Hle Hsym [_ Hcb Hsyb] [_ Hcs _].
  assert (tc_ticker t <> ""%string) as Htk by (rewrite <- Hsym; intros E; by rewrite E in Hsyb).
  assert (exists tk mk, infos !! tc_taker_order_id t = Some tk /\ infos !! tc_maker_order_id t = Some mk /\
    0 <= oi_cum_qty tk /\ 0 <= oi_cum_qty mk /\ (if tc_is_taker_buyer t then tk else mk) = b)
    as (tk & mk & Htk' & Hmk & Hctk & Hcmk & Hbuyer).
  { unfold buyer_order_id, seller_order_id in *. destruct (tc_is_taker_buyer t); eauto 10. }
  unfold apply_trade. rewrite Htk', Hmk.
  oo_step v1 E1. oo_step v2 E2. cbn [at_ get_or mbind res_bind].
  apply oo_bind; [by apply oo_fill|intros tk' Hft]. rewrite lookup_insert_ne, Hmk by done.
  cbn [at_ get_or mbind res_bind]. apply oo_bind; [by apply oo_fill|intros mk' Hfm].
  pose proof (fill_order_info_inv _ _ _ _ Hft) as (_ & _ & _ & Ept & _).
  pose proof (fill_order_info_inv _ _ _ _ Hfm) as (_ & _ & _ & Epm & _).
  apply oo_bind; [apply oo_update; [done|done|lia]|intros bc1 Hu1].
  assert (tc_quantity t <= INT_MAX) as Hqm.
  { unfold fill_order_info in Hft. apply bind_ok in Hft as (? & _ & Hft). apply bind_ok in Hft as (? & Hm & _).
    int_inv. unfold INT_MAX in *. nia. }
  destruct (update_balance_inv _ _ _ _ _ Hwf Hu1) as (Hwf1 & _); [right; lia|unfold INT64_MAX, INT_MAX in *; lia|].
  set (infos' := <[tc_maker_order_id t := mk']> (<[tc_taker_order_id t := tk']> infos)).
  assert (exists i, infos' !! buyer_order_id t = Some i /\ oi_price i = Some pb) as (i & -> & Hi).
  { unfold infos', buyer_order_id. rewrite <- Hpb, <- Hbuyer. destruct (tc_is_taker_buyer t).
    - rewrite lookup_insert_ne, lookup_insert_eq by done. eauto.
    - rewrite lookup_insert_eq. eauto. }
  cbn [at_ get_or mbind res_bind]. rewrite Hi.
  apply oo_bind; [apply oo_refund; [done|done|by intros ? [= <-]]|intros bc2 Hu2].
  destruct (refund_inv _ _ _ _ _ Hwf1 Hq Hu2) as [Hwf2 _].
  oo_step pr Hpr. apply i32_inv in Hpr as [-> _].
  apply oo_bind; [apply oo_update; [done|done|nia]|intros bc3 _]. apply oo_ok.
Qed.

Lemma oo_persist_party {D} `{OrderManagerDatabase D} server_id users bc (db : D) user symbol :
  balances_wf bc -> is_Some (users !! user) -> owns bc user USD_SYMBOL -> owns bc user symbol ->
  only_overflow (persist_party server_id users bc db user symbol).
Proof.
  intros Hwf Hu H1 H2. unfold persist_party. oo_step u Hu'. rewrite !get_balance_ok by done. apply oo_ok.
Qed.

Lemma oo_cancel_response infos bc r i symbols :
  balances_wf bc -> (""%string ∉ symbols) ->
  (cs_success r = true -> infos !! cs_order_id r = Some i /\ record_ok symbols bc i /\
     0 <= oi_leaves_qty i /\ exists p, oi_price i = Some p /\ 0 < p) ->
  only_overflow (apply_cancel_response infos bc r).
Proof.
  intros Hwf Hne Hr. unfold apply_cancel_response. destruct (cs_success r); [|apply oo_ok].
  destruct (Hr eq_refl) as (-> & [_ _ Hs] & Hl & p & Hp & Hpos). cbn [at_ get_or mbind res_bind]. rewrite Hp.
  cbn [get_or mbind res_bind]. destruct (oi_side i).
  - oo_step rf Hrf. apply i32_inv in Hrf as [-> _]. apply oo_update; [done|done|nia].
  - apply oo_update; [done| |done]. intros E. by rewrite E in Hs.
Qed.

Section Safety.
Context {I C D L P Q : Type} `{InboundServer I} `{OutboundClientLaws C} `{OrderManagerDatabase D}
  `{InboundServerLaws L} {tpub : Publisher Trade P} {spub : Publisher TopOrderBookLevelAggregates Q}
  `{CodecFaithful} (SERVER_NAME : string) (exec_ids : nat -> string) (env : Env).
Implicit Types (om : OrderManager I C D) (me : MatchingEngine L P Q).

Lemma oo_matched_report exec_id ids infos t party order_id side :
  is_Some (bm_left ids !! order_id) -> is_Some (infos !! order_id) ->
  only_overflow (matched_order_report SERVER_NAME exec_id ids infos t party order_id side).
Proof.
  intros Hid Hi. unfold matched_order_report. oo_step x Hx.
  apply oo_bind; [by apply oo_div32|intros cl _]. oo_step i Hi'. apply oo_ok.
Qed.

Lemma oo_trade_reports (inbound : I) ids infos t n :
  is_Some (bm_left ids !! tc_taker_order_id t) -> is_Some (bm_left ids !! tc_maker_order_id t) ->
  is_Some (infos !! tc_taker_order_id t) -> is_Some (infos !! tc_maker_order_id t) ->
  only_overflow (return_execution_report SERVER_NAME exec_ids (CTrade t) ids infos inbound n).
Proof.
  intros Ht Hm It Im. cbn [return_execution_report]. unfold generate_matched_order_report_containers.
  apply oo_bind.
  - apply oo_bind; [by apply oo_matched_report|intros tk _].
    apply oo_bind; [by apply oo_matched_report|intros mk _]. apply oo_ok.
  - intros [tk mk] _. oo_step ti Hti. oo_step mi Hmi. apply oo_ok.
Qed.

Lemma oo_cancel_report (inbound : I) ids infos r n :
  is_Some (bm_left ids !! cs_order_id r) -> is_Some (infos !! cs_order_id r) ->
  only_overflow (return_execution_report SERVER_NAME exec_ids (CCancelOrderResponse r) ids infos inbound n).
Proof.
  intros Hid Hi. cbn [return_execution_report]. apply oo_bind.
  - unfold generate_cancel_response_report_container. oo_step i Hi'. oo_step t Ht.
    apply oo_bind; [by apply oo_div32|intros o _]. apply oo_ok.
  - intros report _. oo_step i Hi'. apply oo_ok.
Qed.

(** The market knows all it needs to read a trade. *)
Lemma oo_read_trade om me rq rs live qs ps t m :
  market_inv (bids := false) (mkMarket om me rq rs) live qs (CTrade t :: ps) -> deserialize_container m = Ok (CTrade t) ->
  only_overflow (process_response SERVER_NAME exec_ids om m).
Proof.
  intros [Hrq Hrs Kq Kr Hos Hled Heng Hev Hsym Hbk Hflow Hkn] Hc. simpl in *.
  unfold process_response. rewrite Hc. cbn [mbind res_bind update_internal_data].
  destruct (fi_trades _ _ _ _ _ _ Hflow t ltac:(by left))
    as [[Hne Hp Hq Htl Hml (pb & (b & Hb & B1 & B2 & B3 & B4) & Hle) (ps' & s & Hs & S1 & S2 & S3 & S4)]|[? _]]; [|done].
  assert (buyer_order_id t ∈ live /\ seller_order_id t ∈ live) as [Hbl Hsl].
  { unfold buyer_order_id, seller_order_id. by destruct (tc_is_taker_buyer t). }
  pose proof (kn_records _ _ _ _ _ _ Hkn _ _ Hbl Hb) as Rb. pose proof (kn_records _ _ _ _ _ _ Hkn _ _ Hsl Hs) as Rs.
  assert (balances_wf (balance_checker om)) as Hbw by apply Hled.
  apply oo_bind; [by eapply oo_apply_trade|intros [infos bc] Ha].
  destruct (apply_trade_grows _ _ _ _ _ Ha) as (Hg & Ob & Os).
  destruct (apply_trade_inv _ _ _ _ _ _ _ Hbw Hp Hq Hne Hb Hs Ha)
    as (b' & s' & _ & _ & _ & _ & Hinf & Hbw' & _).
  assert (forall id, is_Some (order_info_map (orders om) !! id) -> is_Some (infos !! id)) as Hdom
    by (intros id Hid; rewrite Hinf, !lookup_insert_is_Some'; auto).
  assert (forall id, id ∈ live -> is_Some (order_info_map (orders om) !! id)) as Hlv by apply Hflow.
  assert (forall id, id ∈ live -> is_Some (bm_left (order_id_map (orders om)) !! id)) as Hids
    by (intros id Hid; by apply (ow_infos _ Hos), Hlv).
  apply oo_bind; [apply oo_trade_reports; auto|intros inb _].
  apply oo_bind; [|intros db _; apply oo_ok]. simpl.
  assert (is_Some (username_user_id_map om !! buyer_id t) /\ is_Some (username_user_id_map om !! seller_id t))
    as [Ub Us].
  { destruct (lw_live _ _ Hled _ Hbl) as (b0 & Hb0 & Hu0 & _). destruct (lw_live _ _ Hled _ Hsl) as (s0 & Hs0 & Hu1 & _).
    simpl in Hb0, Hs0. rewrite Hb in Hb0. rewrite Hs in Hs0. injection Hb0 as <-. injection Hs0 as <-.
    rewrite B1 in Hu0. rewrite S1 in Hu1. by rewrite !elem_of_users in *. }
  destruct Rb as [Ob' _ _]. destruct Rs as [Os' _ _]. unfold account in Ob', Os'.
  rewrite B3, B1 in Ob'. rewrite S3, S2, S1 in Os'.
  apply oo_bind; [apply oo_persist_party; try done; by apply Hg|intros db' _].
  apply oo_persist_party; try done. by apply Hg.
Qed.

Lemma oo_read_cancel om me rq rs live qs ps r m :
  market_inv (bids := false) (mkMarket om me rq rs) live qs (CCancelOrderResponse r :: ps) ->
  deserialize_container m = Ok (CCancelOrderResponse r) ->
  only_overflow (process_response SERVER_NAME exec_ids om m).
Proof.
  intros [Hrq Hrs Kq Kr Hos Hled Heng Hev Hsym Hbk Hflow Hkn] Hc. simpl in *.
  unfold process_response. rewrite Hc. cbn [mbind res_bind update_internal_data].
  destruct (kn_responses _ _ _ _ _ _ Hkn r ltac:(by left)) as [i Hi].
  assert (is_Some (order_info_map (orders om) !! cs_order_id r)) as Hsm by (by rewrite Hi).
  assert (balances_wf (balance_checker om)) as Hbw by apply Hled.
  assert (cs_success r = true -> record_ok (active_symbols om) (balance_checker om) i /\
    is_Some (username_user_id_map om !! oi_sender_comp_id i) /\ 0 <= oi_leaves_qty i /\
    exists p, oi_price i = Some p /\ 0 < p) as Hlive.
  { intros Hr. assert (cs_order_id r ∈ live) as Hl.
    { apply (fi_cancels _ _ _ _ _ _ Hflow). unfold cancels. simpl. rewrite Hr. by left. }
    destruct (lw_live _ _ Hled _ Hl) as (i' & Hi' & Hu & Hlq & p & Hp & Hpb). simpl in Hi'.
    rewrite Hi in Hi'. injection Hi' as <-. split; [by eapply kn_records|].
    split; [by apply elem_of_users|]. split; [lia|]. exists p. split; [done|lia]. }
  apply oo_bind; [apply oo_bind; [|intros; apply oo_ok]|].
  { eapply oo_cancel_response; [done|done|]. intros Hr. destruct (Hlive Hr) as (? & _ & ? & ?). eauto. }
  intros [infos bc] (bc0 & Ha & [= <- ->])%bind_ok. apply oo_bind; [apply oo_cancel_report; [by apply (ow_infos _ Hos)|done]|intros inb _].
  apply oo_bind; [|intros db _; apply oo_ok]. simpl. destruct (cs_success r) eqn:Hr; [|apply oo_ok].
  destruct (Hlive eq_refl) as ([Ho _ _] & Hu & Hlq & p & Hp & Hpos). rewrite Hi. cbn [at_ get_or mbind res_bind].
  rewrite Hp. cbn [bool_decide cassert check mbind res_bind]. oo_step u Hu'.
  assert (balances_wf bc) as Hbw'.
  { assert (cs_order_id r ∈ live) as Hl.
    { apply (fi_cancels _ _ _ _ _ _ Hflow). unfold cancels. simpl. rewrite Hr. by left. }
    apply elem_of_Permutation in Hl as [live' Hperm].
    by destruct (cancel_step_conserves _ (users_nodup om) _ _ _ _ _ _ Hled Hr Hperm Ha) as [[? _ _] _]. }
  unfold persist_balance. oo_step uid Huid. rewrite get_balance_ok; [apply oo_ok|done|].
  by apply (cancel_response_grows _ _ _ _ Ha).
Qed.

Lemma response_safe om me rq rs live qs ps m c :
  market_inv (bids := false) (mkMarket om me rq (m :: rs)) live qs ps -> deserialize_container m = Ok c ->
  only_overflow (process_response SERVER_NAME exec_ids om m).
Proof.
  intros Hinv Hc. destruct (carries_head _ _ _ _ (mi_responses _ _ _ _ Hinv) Hc) as (c0 & ps' & -> & _ & Hrec).
  pose proof (mi_response_kinds _ _ _ _ Hinv c0 ltac:(by left)) as Kc.
  rewrite received_request in Hrec by (by destruct c0). subst c0.
  destruct c as [?|?|?|?|?|t|r]; try done; [by eapply oo_read_trade|by eapply oo_read_cancel].
Qed.

(** The engine executes the next request, if its symbol has a book. *)
Lemma request_executes om me rq rs live qs ps m c :
  env_ok env -> market_inv (bids := false) (mkMarket om me (m :: rq) rs) live qs ps -> deserialize_container m = Ok c ->
  match c with
  | CNewOrderSingle c => True
  | CCancelOrderRequest c => is_Some (limit_order_books me !! cr_symbol c)
  | _ => False
  end -> exists me', process_container env me c = Ok me'.
Proof.
  intros Henv Hinv Hc Hkind.
  destruct (carries_head _ _ _ _ (mi_requests _ _ _ _ Hinv) Hc) as (c0 & qs' & -> & _ & Hrec).
  pose proof (mi_request_kinds _ _ _ _ Hinv c0 ltac:(by left)) as Kc.
  rewrite received_request in Hrec by (by destruct c0). subst c0.
  destruct Hinv as [Hrq Hrs Kq Kr Hos Hled Heng Hev Hsym Hbk Hflow Hkn]. simpl in *.
  destruct c as [c|c|?|?|?|?|?]; try done.
  - destruct (fi_queued _ _ _ _ _ _ Hflow c ltac:(by left)) as (id & [Hid Hpos Hlv (p & Hpr & Hpb & Hag) Hq Hfit Hin]).
    destruct (Hbk _ Hin) as [lob Hlob]. destruct (ew_books _ Heng _ _ Hlob) as [Hbw _].
    destruct (fi_fresh _ _ _ _ _ _ Hflow id) as [Hnr _].
    { apply list_elem_of_omap. exists (CNewOrderSingle c). split; [by left|done]. }
    pose proof (not_resting_fresh id _ _ lob Hbw Hlob Hnr) as Hfr.
    assert (order_ok lob id p (no_order_qty c) (no_sender_comp_id c)) as Hok by (split; try done; right; lia).
    destruct (add_order_correct env Henv lob (trade_events me) (trade_calls me) _ _ _ (no_side c) _ Hbw Hok)
      as (lob' & ts & fs & left & Hadd & _ & _ & HF & _).
    destruct (send_trades_ok (order_response_connection_id me) (trade_events me ++ ts) (inbound_server me))
      as (srv' & sent & pending & Hst & _).
    { apply Forall_app. split; [apply Heng|by eapply reports_all_readable]. }
    simpl. unfold new_order_handler. rewrite Hid. simpl. rewrite Hlob, Hpr. simpl. rewrite Hadd. simpl.
    rewrite Hst. eauto.
  - destruct Hkind as [lob Hlob]. destruct (kn_requests _ _ _ _ _ _ Hkn c ltac:(by left)) as (id & Hid & _).
    destruct (engine_cancel env me c lob id Heng Hid Hlob) as (me' & _ & ? & _). eauto.
Qed.
End Safety.
