(* ===== verification/MarketRun.v ===== *)
(** * The exchange as it runs

    The loops of the two services ([om_run_iteration] and the engine's
    [run_iteration]) with the network between them: what one has sent on a
    connection reaches the queue of the other, in order, at some later time.
    [exchange_step] is all that may happen, each step with its label;
    [orderly_step] restricts it to the conditions of the theorems.  An orderly run
    of this system is a run of [MarketSystem] (a simulation), so its invariant
    holds here; the theorems are about the balances, the books and the failures
    that are possible. *)

From S2P Require Import Prelude Core Messaging Concurrency Transport OrderedMap LimitOrderBook BookSpec.
From S2P Require Import Matching BookOps BookTheorems MatchingEngine EngineTheorems BalanceChecker.
From S2P Require Import OrderManager OrderValidation OrderSettlement Inflight MarketFlow MarketSystem MarketSafety.
From Stdlib Require Import ZArith Lia Ascii String.
From stdpp Require Import base option list gmap strings fin_maps relations.

Open Scope Z_scope.

Section Run.
Context {I C D L P Q : Type} `{InboundServer I} `{OutboundClientLaws C} `{OrderManagerDatabase D}
  `{InboundServerLaws L} {tpub : Publisher Trade P} {spub : Publisher TopOrderBookLevelAggregates Q}
  `{CodecFaithful} (SERVER_NAME : string) (exec_ids : nat -> string) (env : Env).
Implicit Types (om : OrderManager I C D) (me : MatchingEngine L P Q).

Definition request_outbox om : list string :=
  sent_on (order_request_outbound_client om) (order_request_connection_id om).
Definition response_inbox om : list string :=
  queued_on (order_response_outbound_client om) (om_order_response_connection_id om).
Definition request_inbox me : list string :=
  queued_on (inbound_server me) (incoming_request_connection_id me).
Definition response_outbox me : list string :=
  sent_on (inbound_server me) (order_response_connection_id me).

(** The two services, and how many messages of each outbox have arrived. *)
Record exchange := mkExchange {
  ex_om : OrderManager I C D;
  ex_me : MatchingEngine L P Q;
  ex_requests_arrived : nat;
  ex_responses_arrived : nat
}.

Definition pending_requests (x : exchange) : list string :=
  request_inbox (ex_me x) ++ drop (ex_requests_arrived x) (request_outbox (ex_om x)).
Definition pending_responses (x : exchange) : list string :=
  response_inbox (ex_om x) ++ drop (ex_responses_arrived x) (response_outbox (ex_me x)).

(** A message arrives on a connection. *)
Definition arrives `{LinkView T} (s : T) (id : Z) (m : string) (s' : T) : Prop :=
  (forall id', sent_on s' id' = sent_on s id') /\
  (forall id', queued_on s' id' = if id' =? id then queued_on s id' ++ [m] else queued_on s id').

(** The engine's response connection is up when it handles the next message. *)
Definition engine_link_up me : Prop :=
  server_up (is_dequeue_message (inbound_server me) (incoming_request_connection_id me)).1
    (order_response_connection_id me).

(** What the next gateway has sent, if anything, is a request of the admissible
    kind. *)
Definition next_admissible om : Prop :=
  forall gw m c, gateway_connection_ids om !! gateway_ids_it om = Some gw ->
    (is_dequeue_message (om_inbound_server om) gw).2 = Some m ->
    deserialize_container m = Ok c -> admissible c.

(** The links to the engine are two clients, of which [with_links] replaces one. *)
Definition with_clients om (requests responses : C) : OrderManager I C D :=
  mkOrderManager (active_symbols om) (gateway_connection_ids om) (order_request_connection_id om)
    (om_order_response_connection_id om) (om_inbound_server om) requests responses (balance_checker om)
    (username_user_id_map om) (database_client om) (server_id om) (orders om) (exec_count om) (gateway_ids_it om).

Inductive happening :=
  | gateway_traffic | gateway_connects | links_change | request_arrives | response_arrives
  | engine_iterates | order_manager_iterates.

(** Everything that may happen.  The gateways say what they like at any time; the
    links to the engine may fail, lose messages, or be about to bring an answer
    that the order manager will wait for within its iteration (a client holds
    what it will receive while it waits); an iteration of either service may find
    any message and any state. *)
Inductive exchange_step : exchange -> happening -> exchange -> Prop :=
  | xs_gateway om me n k inbound :
      exchange_step (mkExchange om me n k) gateway_traffic
        (mkExchange (with_links om inbound (order_response_outbound_client om) (gateway_ids_it om)) me n k)
  | xs_connect om me n k md :
      exchange_step (mkExchange om me n k) gateway_connects (mkExchange (on_gateway_connection md om) me n k)
  | xs_links om me n k requests responses srv :
      exchange_step (mkExchange om me n k) links_change
        (mkExchange (with_clients om requests responses) (with_server me srv) n k)
  | xs_request_arrives om me n k m srv :
      request_outbox om !! n = Some m ->
      arrives (inbound_server me) (incoming_request_connection_id me) m srv ->
      exchange_step (mkExchange om me n k) request_arrives (mkExchange om (with_server me srv) (S n) k)
  | xs_response_arrives om me n k m client :
      response_outbox me !! k = Some m ->
      arrives (order_response_outbound_client om) (om_order_response_connection_id om) m client ->
      exchange_step (mkExchange om me n k) response_arrives
        (mkExchange (with_links om (om_inbound_server om) client (gateway_ids_it om)) me n (S k))
  | xs_engine om me n k now now_ms me' :
      run_iteration env me now now_ms = Ok me' ->
      exchange_step (mkExchange om me n k) engine_iterates (mkExchange om me' n k)
  | xs_order_manager om me n k om' :
      om_run_iteration SERVER_NAME exec_ids om = Ok om' ->
      exchange_step (mkExchange om me n k) order_manager_iterates (mkExchange om' me n k).

(** A link that shows the same messages, sent and queued. *)
Definition same_views `{LinkView T} (s s' : T) : Prop :=
  forall id, sent_on s' id = sent_on s id /\ queued_on s' id = queued_on s id.

(** The conditions under which the accounts are proved: the links to the engine
    lose nothing, the engine's answers can be sent and none of its trades is left
    waiting, and the gateways send limit orders and cancel requests.  What goes
    wrong without them is shown in MarketFaults and Exchange; market bids are
    treated in MarketBid. *)
Definition orderly (x : exchange) (ev : happening) (x' : exchange) : Prop :=
  match ev with
  | links_change =>
      same_views (order_request_outbound_client (ex_om x)) (order_request_outbound_client (ex_om x')) /\
      same_views (order_response_outbound_client (ex_om x)) (order_response_outbound_client (ex_om x')) /\
      same_views (inbound_server (ex_me x)) (inbound_server (ex_me x'))
  | engine_iterates => engine_link_up (ex_me x) /\ trade_events (ex_me x') = []
  | order_manager_iterates =>
      next_admissible (ex_om x) /\
      client_up (order_request_outbound_client (ex_om x)) (order_request_connection_id (ex_om x))
  | _ => True
  end.

Definition orderly_step (x x' : exchange) : Prop := exists ev, exchange_step x ev x' /\ orderly x ev x'.

(** ** A run of the services is a run of the market *)
Definition as_market (x : exchange) : market :=
  mkMarket (ex_om x) (ex_me x) (pending_requests x) (pending_responses x).

Definition arrived_ok (x : exchange) : Prop :=
  (ex_requests_arrived x <= length (request_outbox (ex_om x)))%nat /\
  (ex_responses_arrived x <= length (response_outbox (ex_me x)))%nat.

Lemma idle_links om inbound client it : om_idle om (with_links om inbound client it).
Proof. by split. Qed.

Lemma idle_server me srv : engine_idle me (with_server me srv).
Proof. split; [done|done|]. apply engine_wf_with_server. Qed.

Lemma idle_flush me now now_ms me' :
  flush me now now_ms = Ok me' -> engine_idle me me' /\ inbound_server me' = inbound_server me /\
    incoming_request_connection_id me' = incoming_request_connection_id me /\
    order_response_connection_id me' = order_response_connection_id me.
Proof.
  intros Hf. assert (engine_wf me -> engine_wf me') as Hwf by (intros; by eapply flush_wf).
  unfold flush in Hf. apply bind_ok in Hf as (pubs & _ & [= <-]). done.
Qed.

Lemma send_trades_sends id events : forall (srv srv' : L) rest,
  send_trades id srv events = Ok (srv', rest) -> exists outs, sends srv srv' id outs.
Proof.
  induction events as [|t events IH]; intros srv srv' rest; simpl.
  { intros [= <- _]. exists []. apply sends_nil. }
  intros (tc & _ & Hs)%bind_ok. destruct (is_send _ _ _ _) as [srv1 ok] eqn:E. apply is_send_sends in E.
  destruct ok; [|injection Hs as <- _; eauto].
  destruct (IH _ _ _ Hs) as [outs Ho]. eexists. by eapply sends_trans.
Qed.

(** Orders and cancel requests are answered on the response connection. *)
Lemma process_container_sends me c me' :
  match c with CNewOrderSingle _ | CCancelOrderRequest _ => True | _ => False end ->
  process_container env me c = Ok me' ->
  incoming_request_connection_id me' = incoming_request_connection_id me /\
  order_response_connection_id me' = order_response_connection_id me /\
  exists outs, sends (inbound_server me) (inbound_server me') (order_response_connection_id me) outs.
Proof.
  intros Hc Hp. destruct c as [c|c|?|?|?|?|?]; try done; simpl in Hp.
  - unfold new_order_handler in Hp. apply bind_ok in Hp as (id & _ & Hp). apply bind_ok in Hp as (lob & _ & Hp).
    apply bind_ok in Hp as ([[lob' ev] calls] & _ & Hp). apply bind_ok in Hp as ([srv ev'] & Hs & [= <-]).
    split; [done|]. split; [done|]. by eapply send_trades_sends.
  - unfold cancel_order_handler in Hp. apply bind_ok in Hp as (id & _ & Hp). apply bind_ok in Hp as (lob & _ & Hp).
    apply bind_ok in Hp as (lob' & _ & Hp). destruct (is_send _ _ _ _) as [srv ok] eqn:E.
    injection Hp as <-. apply is_send_sends in E. eauto.
Qed.

Lemma process_request_links om gw m om' c :
  orders_wf (orders om) -> deserialize_container m = Ok c -> admissible c ->
  process_request SERVER_NAME exec_ids om gw m = Ok om' ->
  order_response_outbound_client om' = order_response_outbound_client om /\
  gateway_ids_it om' = gateway_ids_it om /\
  exists outs, sends (order_request_outbound_client om) (order_request_outbound_client om')
    (order_request_connection_id om) outs.
Proof.
  intros Hwf Hc Ha Hp. unfold process_request in Hp. rewrite Hc in Hp. cbn [mbind res_bind] in Hp.
  apply bind_ok in Hp as ([[[c' os'] client] r] & Hpre & Hp). apply bind_ok in Hp as ([bc v] & _ & Hp).
  apply bind_ok in Hp as ([client' inbound] & Hf & Hp). apply bind_ok in Hp as (db & _ & [= <-]).
  destruct (preprocess_admissible _ _ _ _ _ _ _ _ _ _ Ha Hwf Hpre) as (-> & _). simpl.
  split; [done|]. split; [done|]. unfold forward_and_reply in Hf. apply bind_ok in Hf as (? & _ & Hf).
  destruct (match r with inl _ => _ | inr _ => _ end); apply bind_ok in Hf as (report & _ & Hf).
  - injection Hf as <- _. destruct (oc_send _ _ _ _) as [cl ok] eqn:E.
    apply (sends_of_law _ _ _ _ _ _ _ oc_send_law) in E. eauto.
  - apply bind_ok in Hf as (? & _ & [= <- _]). exists []. apply sends_nil.
Qed.

Lemma process_response_links om m om' :
  process_response SERVER_NAME exec_ids om m = Ok om' ->
  order_request_outbound_client om' = order_request_outbound_client om /\
  order_response_outbound_client om' = order_response_outbound_client om /\ same_setup om om'.
Proof.
  unfold process_response. intros (c & Hc & Hp)%bind_ok.
  apply bind_ok in Hp as ([infos bc] & Hu & Hp). apply bind_ok in Hp as (inb & _ & Hp).
  apply bind_ok in Hp as (db & _ & [= <-]). done.
Qed.

Abbreviation mstep := (market_step SERVER_NAME exec_ids env).

Lemma flush_sim om me now now_ms me' rq rs :
  (if flush_interval me <? now - last_flush me then flush me now now_ms else Ok me) = Ok me' ->
  rtc mstep (mkMarket om me rq rs) (mkMarket om me' rq rs) /\
  request_inbox me' = request_inbox me /\ response_outbox me' = response_outbox me.
Proof.
  destruct (_ <? _); [|intros [= <-]; by split; [apply rtc_refl|]].
  intros (Hid & E1 & E2 & E3)%idle_flush. split; [apply rtc_once; by apply ms_engine_idle|].
  unfold request_inbox, response_outbox. by rewrite E1, E2, E3.
Qed.

Lemma engine_sim om me n k now now_ms me' live qs ps :
  arrived_ok (mkExchange om me n k) -> market_inv (bids := false) (as_market (mkExchange om me n k)) live qs ps ->
  engine_link_up me -> run_iteration env me now now_ms = Ok me' -> trade_events me' = [] ->
  rtc mstep (as_market (mkExchange om me n k)) (as_market (mkExchange om me' n k)) /\
  arrived_ok (mkExchange om me' n k).
Proof.
  intros [Hn Hk] Hinv Hup Hrun Hev. unfold as_market, pending_requests, pending_responses, arrived_ok in *.
  cbn [ex_om ex_me ex_requests_arrived ex_responses_arrived] in *.
  unfold run_iteration in Hrun. unfold engine_link_up in Hup.
  destruct (is_dequeue_message _ _) as [srv msg] eqn:Hd. apply is_dequeue_law in Hd as (Hmsg & Hsent & Hq).
  simpl in Hup. apply bind_ok in Hrun as (me1 & Hpr & Hfl).
  assert (response_outbox (with_server me srv) = response_outbox me) as Hout by apply Hsent.
  assert (request_inbox (with_server me srv) = tail (request_inbox me)) as Hin.
  { unfold request_inbox. simpl. by rewrite Hq, Z.eqb_refl. }
  fold (request_inbox me) in Hmsg.
  destruct msg as [m|].
  2: { injection Hpr as <-. destruct (request_inbox me) as [|m0 ms] eqn:Hri; [|done].
       destruct (flush_sim om (with_server me srv) now now_ms me' (drop n (request_outbox om))
         (response_inbox om ++ drop k (response_outbox me)) Hfl) as (Hr & E1 & E2).
       rewrite E1, E2, Hin, Hout. split; [|done].
       eapply rtc_l; [apply ms_engine_idle, idle_server|exact Hr]. }
  destruct (request_inbox me) as [|m0 ms] eqn:Hri; [done|]. injection Hmsg as <-. simpl in Hin.
  apply bind_ok in Hpr as (c & Hc & Hp).
  assert (match c with CNewOrderSingle _ | CCancelOrderRequest _ => True | _ => False end) as Kc.
  { destruct (carries_head _ _ _ _ (mi_requests _ _ _ _ Hinv) Hc) as (c0 & qs' & -> & _ & ->).
    pose proof (mi_request_kinds _ _ _ _ Hinv c0 ltac:(by left)). by destruct c0. }
  destruct (process_container_sends _ _ _ Kc Hp) as (E1 & E2 & outs & Hs). simpl in E1, E2, Hs.
  assert (trade_events me1 = []) as Hev1.
  { destruct (_ <? _); [|injection Hfl as <-; done]. apply idle_flush in Hfl as [[_ Ee _] _]. by rewrite <- Ee. }
  destruct Hs as [Hs1 Hs2].
  assert (request_inbox me1 = ms) as Hin1.
  { rewrite <- Hin. unfold request_inbox. rewrite E1. simpl. apply Hs1. }
  assert (response_outbox me1 = response_outbox me ++ outs) as Hout1.
  { rewrite <- Hout. unfold response_outbox. rewrite E2, Hs2, Z.eqb_refl. done. }
  destruct (flush_sim om me1 now now_ms me' (ms ++ drop n (request_outbox om))
    (response_inbox om ++ drop k (response_outbox me) ++ outs) Hfl) as (Hr & E3 & E4).
  rewrite E3, E4, Hin1, Hout1, drop_app_le by done. split; [|by rewrite length_app; lia].
  eapply rtc_l; [apply ms_engine_idle, (idle_server me srv)|].
  eapply rtc_l; [|exact Hr]. rewrite app_assoc. eapply ms_engine; done.
Qed.

(** The two halves of the order manager's loop. *)
Lemma request_half_sim om me n k gw om1 live qs ps inbound request :
  arrived_ok (mkExchange om me n k) -> market_inv (bids := false) (as_market (mkExchange om me n k)) live qs ps ->
  client_up (order_request_outbound_client om) (order_request_connection_id om) ->
  (forall m c, request = Some m -> deserialize_container m = Ok c -> admissible c) ->
  (let om0 := with_links om inbound (order_response_outbound_client om) (gateway_ids_it om) in
   match request with Some m => process_request SERVER_NAME exec_ids om0 gw m | None => Ok om0 end) = Ok om1 ->
  rtc mstep (as_market (mkExchange om me n k)) (as_market (mkExchange om1 me n k)) /\
  arrived_ok (mkExchange om1 me n k).
Proof.
  intros [Hn Hk] Hinv Hup Had Hp. unfold as_market, pending_requests, pending_responses, arrived_ok in *.
  cbn [ex_om ex_me ex_requests_arrived ex_responses_arrived] in *.
  set (om0 := with_links om inbound (order_response_outbound_client om) (gateway_ids_it om)) in *.
  assert (forall rq rs, mstep (mkMarket om me rq rs) (mkMarket om0 me rq rs)) as Hidle
    by (intros; apply ms_om_idle, idle_links).
  destruct request as [m|]; [|injection Hp as <-; split; [apply rtc_once, Hidle|done]]. simpl in Hp.
  assert (exists c, deserialize_container m = Ok c) as [c Hc].
  { unfold process_request in Hp. apply bind_ok in Hp as (c & ? & _). eauto. }
  specialize (Had m c eq_refl Hc). assert (orders_wf (orders om0)) as Hos by apply (mi_orders _ _ _ _ Hinv).
  destruct (process_request_links _ _ _ _ _ Hos Hc Had Hp) as (E1 & _ & outs & Hs).
  destruct (process_request_effect _ _ _ _ _ _ _ _ Hos Hc Had Hup Hp Hs) as (_ & (_ & _ & E2 & E3) & _).
  assert (request_outbox om1 = request_outbox om ++ outs) as ->.
  { unfold request_outbox. rewrite E2. destruct Hs as [_ Hs]. by rewrite Hs, Z.eqb_refl. }
  assert (response_inbox om1 = response_inbox om) as -> by (unfold response_inbox; by rewrite E1, E3).
  rewrite drop_app_le by done. split; [|by rewrite length_app; lia].
  eapply rtc_l; [apply Hidle|]. apply rtc_once. rewrite app_assoc. by eapply ms_request.
Qed.

Lemma response_half_sim om me n k om1 it :
  arrived_ok (mkExchange om me n k) ->
  (let '(client, response) := oc_dequeue_message (order_response_outbound_client om)
                                (om_order_response_connection_id om) in
   let om0 := with_links om (om_inbound_server om) client it in
   match response with Some m => process_response SERVER_NAME exec_ids om0 m | None => Ok om0 end) = Ok om1 ->
  rtc mstep (as_market (mkExchange om me n k)) (as_market (mkExchange om1 me n k)) /\
  arrived_ok (mkExchange om1 me n k).
Proof.
  intros [Hn Hk] Hp. unfold as_market, pending_requests, pending_responses, arrived_ok in *.
  cbn [ex_om ex_me ex_requests_arrived ex_responses_arrived] in *.
  destruct (oc_dequeue_message _ _) as [client response] eqn:Hd.
  apply oc_dequeue_law in Hd as (Hm & Hsent & Hq). fold (response_inbox om) in Hm.
  set (om0 := with_links om (om_inbound_server om) client it) in *.
  assert (response_inbox om0 = tail (response_inbox om)) as Hin.
  { unfold response_inbox. simpl. by rewrite Hq, Z.eqb_refl. }
  assert (forall rq rs, mstep (mkMarket om me rq rs) (mkMarket om0 me rq rs)) as Hidle
    by (intros; apply ms_om_idle, idle_links).
  destruct response as [m|]; simpl in Hp.
  - destruct (response_inbox om) as [|m0 ms] eqn:Hri; [done|]. injection Hm as <-. simpl in Hin.
    destruct (process_response_links _ _ _ Hp) as (E1 & E2 & (_ & _ & E3 & E4)).
    assert (request_outbox om1 = request_outbox om) as -> by (unfold request_outbox; by rewrite E1, E3).
    assert (response_inbox om1 = ms) as -> by (rewrite <- Hin; unfold response_inbox; by rewrite E2, E4).
    split; [|done]. eapply rtc_l; [apply Hidle|]. apply rtc_once. by apply ms_response.
  - injection Hp as <-. destruct (response_inbox om) as [|m0 ms] eqn:Hri; [|done]. rewrite Hin.
    split; [|done]. apply rtc_once, Hidle.
Qed.

Lemma order_manager_sim om me n k om' live qs ps :
  env_ok env -> arrived_ok (mkExchange om me n k) -> market_inv (bids := false) (as_market (mkExchange om me n k)) live qs ps ->
  next_admissible om -> client_up (order_request_outbound_client om) (order_request_connection_id om) ->
  om_run_iteration SERVER_NAME exec_ids om = Ok om' ->
  rtc mstep (as_market (mkExchange om me n k)) (as_market (mkExchange om' me n k)) /\
  arrived_ok (mkExchange om' me n k).
Proof.
  intros Henv Harr Hinv Had Hup Hrun. unfold om_run_iteration in Hrun.
  apply bind_ok in Hrun as (gw & Hgw%get_or_ok & Hrun).
  specialize (Had gw). destruct (is_dequeue_message (om_inbound_server om) gw) as [inbound request]. simpl in Had.
  apply bind_ok in Hrun as (om1 & Hreq & Hresp).
  destruct (request_half_sim om me n k gw om1 live qs ps inbound request Harr Hinv Hup) as [Hr1 Harr1];
    [by intros m c -> Hc; eapply Had|exact Hreq|].
  destruct (response_half_sim om1 me n k om' _ Harr1 Hresp) as [Hr2 Harr2].
  split; [by etrans|done].
Qed.

(** Links that show the same messages. *)
Lemma links_sim om me n k requests responses srv :
  let x := mkExchange om me n k in
  let x' := mkExchange (with_clients om requests responses) (with_server me srv) n k in
  orderly x links_change x' -> arrived_ok x -> rtc mstep (as_market x) (as_market x') /\ arrived_ok x'.
Proof.
  intros x x' (Hq & Hp & Hs) Harr. subst x x'. cbn [ex_om ex_me] in *.
  unfold as_market, pending_requests, pending_responses, arrived_ok, request_inbox, response_inbox,
    request_outbox, response_outbox in *.
  cbn [ex_om ex_me ex_requests_arrived ex_responses_arrived] in *. simpl in *.
  destruct (Hq (order_request_connection_id om)) as [-> _].
  destruct (Hp (om_order_response_connection_id om)) as [_ ->].
  destruct (Hs (order_response_connection_id me)) as [-> _].
  destruct (Hs (incoming_request_connection_id me)) as [_ ->].
  split; [|exact Harr]. eapply rtc_l; [apply (ms_om_idle _ _ _ om (with_clients om requests responses)); by split|].
  apply rtc_once, ms_engine_idle, (idle_server me srv).
Qed.

Lemma exchange_sim x x' live qs ps :
  env_ok env -> orderly_step x x' -> arrived_ok x -> market_inv (bids := false) (as_market x) live qs ps ->
  rtc mstep (as_market x) (as_market x') /\ arrived_ok x'.
Proof.
  intros Henv (ev & Hs & Ho) Harr Hinv.
  destruct Hs as [om me n k inbound|om me n k md|om me n k requests responses srv
    |om me n k m srv Hm [Ha1 Ha2]|om me n k m client Hm [Ha1 Ha2]
    |om me n k now now_ms me' Hrun|om me n k om' Hrun]; cbn [orderly ex_om ex_me] in Ho.
  - split; [apply rtc_once, ms_om_idle, idle_links|exact Harr].
  - split; [apply rtc_once, ms_om_idle; by split|exact Harr].
  - by apply links_sim.
  - destruct Harr as [Hn Hk]. unfold as_market, pending_requests, pending_responses, arrived_ok in *.
    cbn [ex_om ex_me ex_requests_arrived ex_responses_arrived] in *.
    assert (request_inbox (with_server me srv) = request_inbox me ++ [m]) as ->.
    { unfold request_inbox. simpl. by rewrite Ha2, Z.eqb_refl. }
    assert (response_outbox (with_server me srv) = response_outbox me) as -> by apply Ha1.
    rewrite <- app_assoc. simpl. rewrite <- (drop_S _ _ _ Hm).
    split; [apply rtc_once, ms_engine_idle, idle_server|]. apply lookup_lt_Some in Hm. split; [lia|done].
  - destruct Harr as [Hn Hk]. unfold as_market, pending_requests, pending_responses, arrived_ok in *.
    cbn [ex_om ex_me ex_requests_arrived ex_responses_arrived] in *.
    set (om0 := with_links om (om_inbound_server om) client (gateway_ids_it om)).
    assert (response_inbox om0 = response_inbox om ++ [m]) as ->.
    { unfold response_inbox. simpl. by rewrite Ha2, Z.eqb_refl. }
    rewrite <- app_assoc. simpl. rewrite <- (drop_S _ _ _ Hm).
    split; [apply rtc_once, ms_om_idle, idle_links|]. apply lookup_lt_Some in Hm. split; [done|lia].
  - destruct Ho. by eapply engine_sim.
  - destruct Ho. by eapply order_manager_sim.
Qed.

(** ** Runs from the start of the trading day *)

(** No order yet, and no message under way. *)
Record exchange_start (x : exchange) : Prop := {
  xt_orders : orders (ex_om x) = no_orders;
  xt_balances : balances_wf (balance_checker (ex_om x));
  xt_symbols : ""%string ∉ active_symbols (ex_om x);
  xt_engine : engine_wf (ex_me x);
  xt_events : trade_events (ex_me x) = [];
  xt_empty : resting_orders (limit_order_books (ex_me x)) = [];
  xt_books : forall a, a ∈ active_symbols (ex_om x) -> is_Some (limit_order_books (ex_me x) !! a);
  xt_requests : pending_requests x = [];
  xt_responses : pending_responses x = [];
  xt_arrived : arrived_ok x
}.

Lemma start_inv {bids} x : exchange_start x -> market_inv (bids := bids) (as_market x) [] [] [].
Proof.
  intros [Ho Hb Hs He Hev Hem Hbk Hrq Hrs Harr].
  split; simpl; rewrite ?Ho, ?Hrq, ?Hrs; try done; try (by intros ? ?%elem_of_nil).
  - exact no_orders_wf.
  - split; simpl; [done|apply NoDup_nil_2|by intros ? ?%elem_of_nil].
  - split; simpl; try done; try (by intros ? ?%elem_of_nil).
    + intros sym o. rewrite Hem. by intros ?%elem_of_nil.
    + apply NoDup_nil_2.
  - split; [by intros ? ? ?%elem_of_nil| |]; by intros ? ?%elem_of_nil.
Qed.

Lemma exchange_run_inv x0 x :
  env_ok env -> exchange_start x0 -> rtc orderly_step x0 x ->
  arrived_ok x /\ exists live qs ps, market_inv (bids := false) (as_market x) live qs ps /\
    keeps (as_market x0) (as_market x) [] live.
Proof.
  intros Henv Hst. revert x. apply rtc_ind_r.
  - split; [apply Hst|]. exists [], [], []. split; [by apply start_inv|apply keeps_refl].
  - intros y z _ Hs (Harr & live & qs & ps & Hinv & Hk).
    destruct (exchange_sim _ _ _ _ _ Henv Hs Harr Hinv) as [Hsim Harr'].
    destruct (market_run_inv _ _ _ _ _ _ _ _ eq_refl Henv Hsim Hinv) as (live' & qs' & ps' & Hinv' & Hk').
    split; [done|]. exists live', qs', ps'. split; [done|by eapply keeps_trans].
Qed.

Lemma start_assets x a :
  exchange_start x -> assets (ex_om x) [] a =
    OrderSettlement.total (users_of (ex_om x)) (balance_checker (ex_om x)) a.
Proof. intros _. unfold assets, escrow. simpl. lia. Qed.

Lemma carries_nil cs : carries [] cs -> cs = [].
Proof. unfold carries. by destruct cs. Qed.

(** C1: an exchange on which only limit orders and cancel requests arrive neither
    creates nor loses cash or stock.  Let the order manager and the matching
    engine run their loops in any interleaving from the start of the day, with
    messages taking any time to arrive, for any limit orders (the price INT_MAX,
    which marks a market order, excepted) and any cancel requests of any clients,
    as long as the links between the two lose nothing and every trade is sent in
    the iteration that made it.  At every moment no balance is negative and for
    every asset the users hold together no more than at the start.  Whenever no
    message is under way, the balances and what the orders in the books have
    reserved (price times quantity in USD for a bid, the quantity of the stock for
    an ask) add up to exactly what there was at the start, and every order in a
    book has a record at the order manager with its owner, symbol, side and price,
    whose remaining quantity is the quantity in the book.  (MarketFaults.cancel_creates_cash
    and Exchange.market_ask_stranded show what is lost otherwise, MarketBid treats
    market bids.) *)
Theorem exchange_conserves x0 x :
  env_ok env -> exchange_start x0 -> rtc orderly_step x0 x ->
  let users := users_of (ex_om x0) in
  let start a := OrderSettlement.total users (balance_checker (ex_om x0)) a in
  let held a := OrderSettlement.total users (balance_checker (ex_om x)) a in
  balances_wf (balance_checker (ex_om x)) /\ (forall a, held a <= start a) /\
  (pending_requests x = [] -> pending_responses x = [] ->
     (forall a, held a + book_assets (ex_me x) a = start a) /\
     forall sym o, (sym, o) ∈ resting_orders (limit_order_books (ex_me x)) ->
       exists i, order_info_map (orders (ex_om x)) !! o_order_id o = Some i /\
         oi_sender_comp_id i = o_trader_id o /\ oi_symbol i = sym /\ oi_side i = o_side o /\
         oi_price i = Some (o_price o) /\ oi_leaves_qty i = o_quantity o).
Proof.
  intros Henv Hst Hr users start held.
  destruct (exchange_run_inv x0 x Henv Hst Hr) as (_ & live & qs & ps & Hinv & Hu & _ & Hk). simpl in Hu, Hk.
  assert (forall a, assets (ex_om x) live a = start a) as Ha by (intros a; rewrite Hk; by apply start_assets).
  split; [apply (mi_ledger _ _ _ _ Hinv)|]. split.
  - intros a. rewrite <- Ha. unfold assets. rewrite Hu. pose proof (escrow_nonneg _ _ _ _ a Hinv). simpl in *.
    unfold held, users. lia.
  - intros Hq Hp. pose proof (mi_requests _ _ _ _ Hinv) as Cq. pose proof (mi_responses _ _ _ _ Hinv) as Cp.
    simpl in Cq, Cp. rewrite Hq in Cq. rewrite Hp in Cp. apply carries_nil in Cq as ->. apply carries_nil in Cp as ->.
    split.
    + intros a. rewrite <- Ha. pose proof (quiet_assets _ _ a Hinv) as Hqa. simpl in Hqa. rewrite Hqa, Hu. done.
    + intros sym o Ho. exact (quiet_record _ _ _ _ Hinv Ho).
Qed.

End Run.

(** The websocket handlers let messages arrive, and a connected link takes what is sent. *)
Section Websocket.
Context {E : Type} {ep : Endpoint E}.
Implicit Types (w : WebsocketManager E).

Lemma client_on_message_arrives w id m :
  is_Some (m_id_to_connection_map w !! id) -> arrives w id m (client_on_message w id m).
Proof.
  intros [md Hid]. unfold client_on_message, arrives, deliver. simpl. rewrite Hid.
  split; intros id'; rewrite view_insert; (destruct (Z.eqb_spec id' id) as [->|]; [by rewrite Hid|done]).
Qed.

Lemma server_on_message_arrives w h id m :
  m_handle_to_connection_map w !! h = Some id -> is_Some (m_id_to_connection_map w !! id) ->
  arrives w id m (server_on_message w h m).
Proof.
  intros Hh [md Hid]. unfold server_on_message, server_handler, arrives. rewrite Hh. simpl.
  split; intros id'; (destruct (Z.eqb_spec id' id) as [->|];
    [rewrite lookup_alter_eq, Hid; done|by rewrite lookup_alter_ne]).
Qed.

Lemma websocket_up w id :
  is_Some (m_id_to_connection_map w !! id) -> (forall e h m f, (ep_send e h m f).2 = true) ->
  client_up w id /\ server_up w id.
Proof.
  intros [md Hid] Hep. assert (forall m, (send w id m fmt_binary).2 = true) as Hs; [|done].
  intros m. unfold send. rewrite Hid. specialize (Hep (m_endpoint w) (m_handle md) m fmt_binary).
  destruct (ep_send _ _ _ _) as [e ok]. simpl in Hep. by subst ok.
Qed.
End Websocket.

(** ** A day on the exchange

    Alice bids for 10 at 100, Bob offers 6 at 95; the engine trades 6 at 100. *)
#[local] Existing Instance toy_codec.

#[local] Instance toy_codec_faithful : CodecFaithful.
Proof.
  intros w w'. cbn [ParseFromString SerializeAsString toy_codec].
  rewrite digits_pos_digits, positives_unflatten_flatten. cbn. rewrite wrapper_of_to_fields. by intros [= <-].
Qed.

Abbreviation ws := (WebsocketManager unit).
Abbreviation day_om := (OrderManager ws ws (list db_entry)).
Abbreviation day_engine := (MatchingEngine ws (list Trade) (list TopOrderBookLevelAggregates)).

(** Both orders wait at the gateway's connection. *)
Definition day_alice : NewOrderSingleContainer :=
  mkNewOrder "alice" "OM" None 1 "GME" bid 10 limit (Some 100) day.
Definition day_bob : NewOrderSingleContainer :=
  mkNewOrder "bob" "OM" None 1 "GME" ask 6 limit (Some 95) day.

Definition day_om0 : day_om :=
  mkOrderManager ["GME"%string] [0] 0 0 a_client a_client a_client sample_balances
    {[ "alice"%string := 7; "bob"%string := 8 ]} [] 1 no_orders 0 0.

Definition day_me0 : day_engine :=
  on_connection (mkMetadata 1 11 open "uri" "order_response" "" [] [])
    (on_connection (mkMetadata 0 10 open "uri" "order_request" "" [] [])
      (new_engine two_connections (fun _ => []) (fun _ => []) ["GME"%string] 1000 0)).

Definition day0 : exchange (I := ws) (C := ws) (D := list db_entry) (L := ws) := mkExchange day_om0 day_me0 0 0.

Definition gateway_says (om : day_om) (c : NewOrderSingleContainer) : day_om :=
  with_links om (client_on_message (om_inbound_server om) 0 (serialize_container (CNewOrderSingle c)))
    (order_response_outbound_client om) (gateway_ids_it om).

Definition om_turn (om : day_om) : day_om :=
  match om_run_iteration "UAT" (fun _ => "e"%string) om with Ok om' => om' | Err _ => om end.
Definition engine_turn (me : day_engine) : day_engine :=
  match run_iteration sample_env me 10 10 with Ok me' => me' | Err _ => me end.

(** The next request reaches the engine, the next response the order manager. *)
Definition request_lands (om : day_om) (me : day_engine) (n : nat) : day_engine :=
  with_server me (server_on_message (inbound_server me) 10 (default ""%string (request_outbox om !! n))).
Definition response_lands (om : day_om) (me : day_engine) (k : nat) : day_om :=
  with_links om (om_inbound_server om)
    (client_on_message (order_response_outbound_client om) 0 (default ""%string (response_outbox me !! k)))
    (gateway_ids_it om).

Definition day_om1 : day_om := om_turn (gateway_says day_om0 day_alice).
Definition day_om2 : day_om := om_turn (gateway_says day_om1 day_bob).
Definition day_me1 : day_engine := engine_turn (request_lands day_om2 day_me0 0).
Definition day_me2 : day_engine := engine_turn (request_lands day_om2 day_me1 1).
Definition day_om3 : day_om := om_turn (response_lands day_om2 day_me2 0).
Definition day1 : exchange (I := ws) (C := ws) (D := list db_entry) (L := ws) := mkExchange day_om3 day_me2 2 1.

(** What the services hold at the end of the day. *)
Example day_outcome :
  pending_requests day1 = [] /\ pending_responses day1 = [] /\
  balance_of (balance_checker day_om3) "alice" "USD" = 4000 /\
  balance_of (balance_checker day_om3) "alice" "GME" = 6 /\
  balance_of (balance_checker day_om3) "bob" "USD" = 600 /\
  balance_of (balance_checker day_om3) "bob" "GME" = 44 /\
  book_assets day_me2 "USD" = 400.
Proof. vm_compute. done. Qed.

Lemma day_start : exchange_start day0.
Proof.
  split.
  - reflexivity.
  - exact sample_balances_wf.
  - apply (bool_decide_unpack _). vm_compute. exact I.
  - assert (engine_wf (new_engine two_connections (fun _ => []) (fun _ => []) ["GME"%string] 1000 0 : day_engine))
      as [? ? ?] by (apply new_engine_wf; by repeat constructor). by split.
  - reflexivity.
  - vm_compute. reflexivity.
  - intros a ->%list_elem_of_singleton. eexists. vm_compute. reflexivity.
  - vm_compute. reflexivity.
  - vm_compute. reflexivity.
  - split; apply Nat.le_0_l.
Qed.

Abbreviation day_step := (orderly_step "UAT" (fun _ => "e"%string) sample_env).

Lemma day_gateway om me n k inbound :
  day_step (mkExchange om me n k)
    (mkExchange (with_links om inbound (order_response_outbound_client om) (gateway_ids_it om)) me n k).
Proof. exists gateway_traffic. split; [apply xs_gateway|exact I]. Qed.

(** A step by hand, its computations checked by evaluation; [said] is the order
    that waits at the gateway's connection. *)
Lemma day_om_step om me n k om' (said : option NewOrderSingleContainer) :
  gateway_connection_ids om !! gateway_ids_it om = Some 0 ->
  (is_dequeue_message (om_inbound_server om) 0).2 = (fun c => serialize_container (CNewOrderSingle c)) <$> said ->
  (forall c, said = Some c -> admissible (CNewOrderSingle c)) ->
  is_Some (m_id_to_connection_map (order_request_outbound_client om) !! order_request_connection_id om) ->
  om_run_iteration "UAT" (fun _ => "e"%string) om = Ok om' ->
  day_step (mkExchange om me n k) (mkExchange om' me n k).
Proof.
  intros Hgw Hsaid Had Hup Hrun. exists order_manager_iterates. split; [by apply xs_order_manager|].
  split; [|by apply websocket_up]. intros gw m c Hgw' Hm Hc. cbn [ex_om] in *. rewrite Hgw in Hgw'. injection Hgw' as <-. rewrite Hsaid in Hm.
  destruct said as [c0|]; [|done]. apply (inj Some) in Hm as <-.
  apply deserialize_faithful in Hc as ->. by apply Had.
Qed.

Lemma day_engine_step om me n k me' :
  is_Some (m_id_to_connection_map
    (is_dequeue_message (inbound_server me) (incoming_request_connection_id me)).1
    !! order_response_connection_id me) ->
  run_iteration sample_env me 10 10 = Ok me' -> trade_events me' = [] ->
  day_step (mkExchange om me n k) (mkExchange om me' n k).
Proof.
  intros Hup Hrun Hev. exists engine_iterates. split; [by eapply xs_engine|]. split; [by apply websocket_up|done].
Qed.

Lemma day_alice_ok : admissible (CNewOrderSingle day_alice).
Proof.
  split; [done|]. split; [|done]. split; simpl; try done. unfold INT_MIN, INT_MAX.
  intros p [= <-]. lia.
Qed.
Lemma day_bob_ok : admissible (CNewOrderSingle day_bob).
Proof.
  split; [done|]. split; [|done]. split; simpl; try done. unfold INT_MIN, INT_MAX.
  intros p [= <-]. lia.
Qed.

(** The trade is on its way. *)
Definition day_trading : exchange (I := ws) (C := ws) (D := list db_entry) (L := ws) := mkExchange day_om2 day_me2 2 0.

Lemma day_morning : rtc day_step day0 day_trading.
Proof.
  eapply rtc_l; [apply (day_gateway day_om0 day_me0 0 0)|].
  eapply rtc_l.
  { apply (day_om_step (gateway_says day_om0 day_alice) day_me0 0 0 day_om1 (Some day_alice));
      [vm_compute; reflexivity|vm_compute; reflexivity|intros c [= <-]; exact day_alice_ok
      |eexists; vm_compute; reflexivity|vm_compute; reflexivity]. }
  eapply rtc_l; [apply (day_gateway day_om1 day_me0 0 0)|].
  eapply rtc_l.
  { apply (day_om_step (gateway_says day_om1 day_bob) day_me0 0 0 day_om2 (Some day_bob));
      [vm_compute; reflexivity|vm_compute; reflexivity|intros c [= <-]; exact day_bob_ok
      |eexists; vm_compute; reflexivity|vm_compute; reflexivity]. }
  eapply rtc_l.
  { exists request_arrives. split; [|exact I].
    apply (xs_request_arrives _ _ _ day_om2 day_me0 0 0 (default ""%string (request_outbox day_om2 !! 0%nat))
      (inbound_server (request_lands day_om2 day_me0 0)));
      [vm_compute; reflexivity|].
    apply server_on_message_arrives; [reflexivity|eexists; reflexivity]. }
  eapply rtc_l.
  { apply (day_engine_step day_om2 (request_lands day_om2 day_me0 0) 1 0 day_me1);
      [eexists; vm_compute; reflexivity|vm_compute; reflexivity|vm_compute; reflexivity]. }
  eapply rtc_l.
  { exists request_arrives. split; [|exact I].
    apply (xs_request_arrives _ _ _ day_om2 day_me1 1 0 (default ""%string (request_outbox day_om2 !! 1%nat))
      (inbound_server (request_lands day_om2 day_me1 1)));
      [vm_compute; reflexivity|].
    apply server_on_message_arrives; [vm_compute; reflexivity|eexists; vm_compute; reflexivity]. }
  eapply rtc_l.
  { apply (day_engine_step day_om2 (request_lands day_om2 day_me1 1) 2 0 day_me2);
      [eexists; vm_compute; reflexivity|vm_compute; reflexivity|vm_compute; reflexivity]. }
  apply rtc_refl.
Qed.

Lemma day_run : rtc day_step day0 day1.
Proof.
  etrans; [exact day_morning|].
  eapply rtc_l.
  { exists response_arrives. split; [|exact I].
    apply (xs_response_arrives _ _ _ day_om2 day_me2 2 0 (default ""%string (response_outbox day_me2 !! 0%nat))
      (order_response_outbound_client (response_lands day_om2 day_me2 0)));
      [vm_compute; reflexivity|].
    apply client_on_message_arrives. eexists. vm_compute. reflexivity. }
  eapply rtc_l; [|apply rtc_refl].
  apply (day_om_step (response_lands day_om2 day_me2 0) day_me2 2 1 day_om3 None);
    [vm_compute; reflexivity|vm_compute; reflexivity|done|eexists; vm_compute; reflexivity
    |vm_compute; reflexivity].
Qed.

Lemma exchange_conserves_witness :
  let users := users_of day_om0 in
  let start a := OrderSettlement.total users sample_balances a in
  let held a := OrderSettlement.total users (balance_checker day_om3) a in
  balances_wf (balance_checker day_om3) /\ (forall a, held a <= start a) /\
  (pending_requests day1 = [] -> pending_responses day1 = [] ->
     (forall a, held a + book_assets day_me2 a = start a) /\
     forall sym o, (sym, o) ∈ resting_orders (limit_order_books day_me2) ->
       exists i, order_info_map (orders day_om3) !! o_order_id o = Some i /\
         oi_sender_comp_id i = o_trader_id o /\ oi_symbol i = sym /\ oi_side i = o_side o /\
         oi_price i = Some (o_price o) /\ oi_leaves_qty i = o_quantity o).
Proof.
  apply (exchange_conserves "UAT" (fun _ => "e"%string) sample_env day0 day1);
    [exact sample_env_ok|exact day_start|exact day_run].
Defined.

Definition day_trade : TradeContainer :=
  match deserialize_container (default ""%string (head (pending_responses day_trading))) with
  | Ok (CTrade t) => t
  | _ => mkTradeContainer "" 0 0 "" "" "" 0 0 false
  end.


Example day_trading_pending :
  head (pending_responses day_trading) = Some (serialize_container (CTrade day_trade)) /\
  tc_quantity day_trade = 6 /\ tc_price day_trade = 100.
Proof. vm_compute. done. Qed.
