(* ===== verification/MarketFaults.v ===== *)
(** * Where the exchange does lose track

    Two runs that break what [MarketRun] proves, each outside its assumptions: a
    trade whose announcement fails is overtaken by the answer to a cancel
    request, and a cancel request names a symbol that has no book. *)

From S2P Require Import Prelude Core Messaging Concurrency Transport OrderedMap LimitOrderBook BookSpec.
From S2P Require Import Matching BookOps BookTheorems MatchingEngine EngineTheorems BalanceChecker.
From S2P Require Import OrderManager OrderValidation OrderSettlement Inflight MarketFlow MarketSystem MarketSafety MarketRun.
From Stdlib Require Import ZArith Lia Ascii String.
From stdpp Require Import base option list gmap strings fin_maps.

Open Scope Z_scope.

(** ** A cancellation that overtakes a trade *)

(** The engine answers a cancel request whatever trades still wait to be sent: the
    answer is on the connection, the trades are not. *)
Theorem cancel_overtakes_trades {L P Q} `{InboundServerLaws L} {tpub : Publisher Trade P}
    {spub : Publisher TopOrderBookLevelAggregates Q} `{ProtoCodec} (env : Env)
    (me : MatchingEngine L P Q) c id lob me' outs :
  engine_wf me -> cr_order_id c = Some id -> limit_order_books me !! cr_symbol c = Some lob ->
  server_up (inbound_server me) (order_response_connection_id me) ->
  process_container env me (CCancelOrderRequest c) = Ok me' ->
  sends (inbound_server me) (inbound_server me') (order_response_connection_id me) outs ->
  trade_events me' = trade_events me /\
  outs = [serialize_container (CCancelOrderResponse
    (mkCancelResponse id (cr_cl_ord_id c) (order_id_exists lob id)))].
Proof.
  intros Hwf Hid Hlob Hup Hp Hs.
  destruct (engine_cancel_effect env me c me' outs Hwf Hup Hp Hs)
    as (id' & lob' & lob1 & Hid' & Hlob' & _ & _ & Hev & _ & _ & ->). by simplify_eq.
Qed.

#[local] Existing Instance toy_codec.

(** A connection whose sends fail as listed. *)
#[local] Instance flaky_endpoint : Endpoint (list bool) := {|
  ep_send e _ _ _ := match e with [] => ([], true) | ok :: e' => (e', ok) end;
  ep_close e _ _ := (e, true); ep_start_accept e := (e, true);
  ep_get_connection e _ := (e, None); ep_append_header e _ _ _ := e; ep_connect e _ := e;
  ep_is_server _ _ := true; ep_request_header _ _ _ := ""%string;
  ep_response_header _ _ _ := ""%string; ep_close_reason _ _ := ""%string
|}.

Abbreviation flaky_engine :=
  (MatchingEngine (WebsocketManager (list bool)) (list Trade) (list TopOrderBookLevelAggregates)).

(** The engine of the day, on a connection whose first send fails. *)
Definition flaky0 : flaky_engine :=
  mkEngine 0 1
    (mkManager [false] {[ 0 := new_metadata 0 10 "uri"; 1 := new_metadata 1 11 "uri" ]} {[ 10%nat := 0; 11%nat := 1 ]} 2 [])
    {[ "GME"%string := [] ]} 1000 [] {[ "GME"%string := new_book "GME" [] ]} 0 0.

Definition engine_reads (me : flaky_engine) (c : Container) : flaky_engine :=
  match process_container sample_env me c with Ok me' => me' | Err _ => me end.

(** Alice's bid rests; Bob's offer trades 6 of it, and the send of the trade
    fails; Alice cancels; a further offer makes the engine send what waits. *)
Definition flaky_alice : Container := CNewOrderSingle (with_order_id day_alice 0).
Definition flaky_bob : Container := CNewOrderSingle (with_order_id day_bob 1).
Definition flaky_cancel : Container := CCancelOrderRequest (mkCancelRequest "alice" "OM" (Some 0) 1 2 "GME" bid 10).
Definition flaky_later : Container :=
  CNewOrderSingle (mkNewOrder "bob" "OM" (Some 2) 2 "GME" ask 1 limit (Some 200) day).

Definition flaky2 : flaky_engine := engine_reads (engine_reads flaky0 flaky_alice) flaky_bob.
Definition flaky4 : flaky_engine := engine_reads (engine_reads flaky2 flaky_cancel) flaky_later.

Definition om_reads (om : day_om) (m : string) : day_om :=
  match process_response "UAT" (fun _ => "e"%string) om m with Ok om' => om' | Err _ => om end.

(** The order manager of the day, which has accepted both orders, reads what
    the engine sent. *)
Definition robbed : day_om := foldl om_reads day_om2 (sent_on (inbound_server flaky4) 1).

(** Alice has her 1000 dollars back and Bob's 6 shares as well; Bob has been paid
    600 dollars that nobody spent. *)
Example cancel_creates_cash :
  length (trade_events flaky2) = 1%nat /\ length (sent_on (inbound_server flaky4) 1) = 2%nat /\
  trade_events flaky4 = [] /\
  balance_of (balance_checker robbed) "alice" "USD" = 5000 /\
  balance_of (balance_checker robbed) "alice" "GME" = 6 /\
  balance_of (balance_checker robbed) "bob" "USD" = 600 /\
  OrderSettlement.total ["alice"%string; "bob"%string] (balance_checker robbed) "USD" =
    OrderSettlement.total ["alice"%string; "bob"%string] (balance_checker day_om0) "USD" + 600.
Proof. vm_compute. done. Qed.

(** ** A cancel request for a symbol without a book *)

(** Whoever has placed an order can stop the engine: the order manager forwards a
    cancel request for it whatever symbol the request names, and the engine looks
    the book up with [at]. *)
Theorem cancel_stops_engine {C L P Q} `{OutboundClient C} `{InboundServer L} `{ProtoCodec}
    {tpub : Publisher Trade P} {spub : Publisher TopOrderBookLevelAggregates Q} (env : Env)
    (me : MatchingEngine L P Q) users gw conn os (client : C) symbols bc c u t id :
  users !! cr_sender_comp_id c = Some u -> transformed_cl_ord_id (cr_orig_cl_ord_id c) u = Ok t ->
  bm_right (order_id_map os) !! t = Some id -> limit_order_books me !! cr_symbol c = None ->
  preprocess_container users gw conn os client (CCancelOrderRequest c) =
    Ok (CCancelOrderRequest (with_cancel_id c id), os, client, inl None) /\
  validate_container symbols bc (CCancelOrderRequest (with_cancel_id c id)) None = Ok (bc, "ok"%string) /\
  process_container env me (CCancelOrderRequest (with_cancel_id c id)) = Err OutOfRange.
Proof.
  intros Hu Ht Hid Hb. split; [|split; [done|]].
  - simpl. unfold preprocess_cancel_request. rewrite Hu, Ht. simpl. by rewrite Hid.
  - simpl. unfold cancel_order_handler. simpl. by rewrite Hb.
Qed.
