(* ===== verification/MarketBid.v ===== *)
(** * Market bids, end to end

    A market bid is the one request for which the order manager talks to the
    engine twice: it asks what the order would cost, waits for the answer,
    reserves exactly that, and forwards the order.  Here these steps are added to
    the transition system of [MarketSystem], one by one and in any interleaving
    with the engine's: the question goes behind the requests that the engine has
    not read, the order manager takes nothing else while it waits ([errand]), and
    the accepted bid is at the head of the requests until the engine reads it.
    Since nothing can come between the answer and the bid, what the engine charges
    is what it quoted; the trades of the bid are then settled like all others. *)

From S2P Require Import Prelude Core Messaging Concurrency Transport OrderedMap LimitOrderBook BookSpec.
From S2P Require Import Matching BookOps BookTheorems BookQueries MatchingEngine EngineTheorems BalanceChecker.
From S2P Require Import OrderManager OrderValidation OrderSettlement Inflight MarketFlow MarketSystem MarketRun.
From Stdlib Require Import ZArith Lia Ascii String.
From stdpp Require Import base option list gmap strings fin_maps relations.

Open Scope Z_scope.

(** ** The quote, read from its result *)
Section Quote.
Context {P : Type}.
Implicit Types (lob : LimitOrderBook P).

Lemma sum_quantity_inv ns : forall a q,
  foldM (fun q n => add32 q (o_quantity (n_order n))) a ns = Ok q -> q = a + level_quantity ns.
Proof.
  unfold level_quantity. induction ns as [|n ns IH]; intros a q; simpl.
  { intros [= <-]. lia. }
  intros (a' & Ha & Hf)%bind_ok. int_inv. rewrite (IH _ _ Hf). lia.
Qed.

Lemma get_level_aggregate_inv lob side i p ns la :
  prio side (get_side lob side) !! i = Some (p, ns) ->
  get_level_aggregate lob side (Z.of_nat i) = Ok la -> la = mkLevelAggregate p (level_quantity ns).
Proof.
  intros Hi. unfold get_level_aggregate. intros (_ & _ & Hg)%bind_ok. apply bind_ok in Hg as (_ & _ & Hg).
  rewrite Nat2Z.id in Hg.
  assert ((match side with bid => reverse (get_side lob side) !! i
                         | ask => get_side lob side !! i end) = Some (p, ns)) as Hit by (by destruct side).
  rewrite Hit in Hg. simpl in Hg. apply bind_ok in Hg as (q & Hq%sum_quantity_inv & Hg).
  apply bind_ok in Hg as (_ & _ & Hg). apply bind_ok in Hg as (_ & _ & [= <-]). by rewrite Hq.
Qed.

(** If the loop returns, it has computed the value of the fills. *)
Lemma fill_cost_loop_inv lob side rest : forall i total q fs l' r cost,
  drop i (prio side (get_side lob side)) = rest ->
  Forall (level_wf side) rest -> 0 <= q ->
  match_nodes (opposite side) (market_price (opposite side)) q (concat (map snd rest)) = (fs, l', r) ->
  fill_cost_loop lob side (seq i (length rest)) total q = Ok cost ->
  cost = total + sumZ fill_value (map order_fill fs).
Proof.
  induction rest as [|[p ns] rest IH]; intros i total q fs l' r cost Hd Hlw Hq Hmn; cbn [length seq fill_cost_loop].
  { simpl in Hmn. injection Hmn as <- <- <-. intros [= <-]. simpl. lia. }
  apply Forall_cons in Hlw as [Hl Hlw]. cbn [map concat snd] in Hmn.
  destruct (Z.eqb_spec q 0) as [->|Hq0].
  { rewrite match_nodes_zero in Hmn. injection Hmn as <- <- <-. intros [= <-]. simpl. lia. }
  assert (prio side (get_side lob side) !! i = Some (p, ns)) as Hi.
  { rewrite <- (Nat.add_0_r i), <- lookup_drop, Hd. done. }
  assert (drop (S i) (prio side (get_side lob side)) = rest) as Hd'.
  { rewrite <- Nat.add_1_r, <- drop_drop, Hd. done. }
  intros (la & Hla & Hloop)%bind_ok. apply (get_level_aggregate_inv _ _ _ p ns) in Hla as ->; [|done].
  cbn [la_price la_quantity] in Hloop. destruct (level_quantities _ _ _ Hl) as [Hqs Hpos].
  destruct (match_nodes (opposite side) (market_price (opposite side)) q ns) as [[fs1 ns'] r1] eqn:E1.
  assert (Forall (fun n => o_price (n_order n) = p) ns) as Hps
    by (destruct Hl as (_ & _ & HF); eapply Forall_impl; [exact HF|]; by intros n [? _]).
  destruct (match_nodes_level _ _ _ p _ _ _ _ Hq Hps (market_crosses _ _ Hl) Hqs E1)
    as (Hv1 & Hfull & Hpart).
  rewrite (match_nodes_app _ _ _ _ _ _ _ _ E1) in Hmn.
  destruct (level_quantity ns <=? q) eqn:Hle.
  - destruct Hfull as [-> Hr1]; [lia|]. simpl in Hmn.
    destruct (match_nodes _ _ r1 _) as [[fs2 l2] r2] eqn:E2. injection Hmn as <- <- <-.
    apply bind_ok in Hloop as (c1 & Hc1 & Hloop). apply bind_ok in Hloop as (t1 & Ht1 & Hloop).
    apply bind_ok in Hloop as (q1 & Hq1 & Hloop).
    apply i32_inv in Hc1 as [-> _]. apply i32_inv in Ht1 as [-> _]. apply i32_inv in Hq1 as [-> _].
    rewrite <- Hr1 in Hloop.
    assert (0 <= r1) as Hr1' by lia.
    rewrite (IH _ _ _ _ _ _ _ Hd' Hlw Hr1' E2 Hloop), map_app, sumZ_app, Hv1. nia.
  - destruct Hpart as [En Hr1]; [lia|]. rewrite En in Hmn. injection Hmn as <- <- <-.
    apply bind_ok in Hloop as (c1 & Hc1 & Hloop). apply bind_ok in Hloop as (t1 & Ht1 & Hloop).
    apply i32_inv in Hc1 as [-> _]. apply i32_inv in Ht1 as [-> _].
    rewrite (IH _ _ _ _ _ _ _ Hd' Hlw (Z.le_refl 0) (match_nodes_zero _ _ _) Hloop), Hv1, Hr1. simpl. lia.
Qed.

Lemma fill_cost_loop_bound lob side levels : forall total q cost,
  total <= INT_MAX -> fill_cost_loop lob side levels total q = Ok cost -> cost <= INT_MAX.
Proof.
  induction levels as [|i levels IH]; intros total q cost Ht; cbn [fill_cost_loop]; [by intros [= <-]|].
  destruct (q =? 0); [by intros [= <-]|]. intros (la & _ & Hl)%bind_ok.
  destruct (_ <=? _); apply bind_ok in Hl as (c1 & _ & Hl); apply bind_ok in Hl as (t1 & Ht1 & Hl); int_inv.
  - apply bind_ok in Hl as (q1 & _ & Hl). eapply IH; [|exact Hl]. lia.
  - eapply IH; [|exact Hl]. lia.
Qed.

(** The quote that [get_fill_cost] returns is the value of the fills of a market
    order for that quantity. *)
Lemma get_fill_cost_inv lob side q fs b left cost :
  book_wf lob -> 0 < q ->
  match_orders (opposite side) (market_price (opposite side)) q (orders_of lob side) = (fs, b, left) ->
  get_fill_cost lob q side = Ok (Some cost) -> cost = sumZ fill_value fs /\ 0 < cost <= INT_MAX.
Proof.
  intros Hwf Hq Hm. unfold get_fill_cost. intros (_ & _ & Hg)%bind_ok.
  destruct (is_nil (get_side lob side)); [done|]. apply bind_ok in Hg as (total & Hloop & Hg).
  apply bind_ok in Hg as ([] & Hpos%check_ok & [= <-]).
  destruct (match_nodes (opposite side) (market_price (opposite side)) q
    (queue side (get_side lob side))) as [[fs' l'] r] eqn:E.
  pose proof (match_nodes_orders _ _ _ _ _ _ _ E) as E'. unfold orders_of in Hm.
  rewrite Hm in E'. injection E' as -> -> ->.
  pose proof (fun H => fill_cost_loop_inv lob side (prio side (get_side lob side)) 0 0 q fs' l' r total
    (drop_0 _) H ltac:(lia) E) as Hinv. rewrite prio_length in Hinv.
  specialize (Hinv (levels_wf_prio lob side Hwf) Hloop). split; [lia|]. apply Z.ltb_lt in Hpos. split; [done|].
  by eapply fill_cost_loop_bound; [|exact Hloop].
Qed.

Lemma get_fill_cost_range lob side q cost :
  get_fill_cost lob q side = Ok (Some cost) -> 0 < cost <= INT_MAX.
Proof.
  unfold get_fill_cost. intros (_ & _ & Hg)%bind_ok. destruct (is_nil (get_side lob side)); [done|].
  apply bind_ok in Hg as (total & Hloop & Hg). apply bind_ok in Hg as ([] & Hpos%check_ok & [= <-]).
  apply Z.ltb_lt in Hpos. split; [done|]. by eapply fill_cost_loop_bound; [|exact Hloop].
Qed.
End Quote.

(** ** The engine executes a market bid *)
Section Engine.
Context {L P Q : Type} `{InboundServerLaws L} {tpub : Publisher Trade P}
  {spub : Publisher TopOrderBookLevelAggregates Q} `{ProtoCodec} (env : Env).
Implicit Types (me : MatchingEngine L P Q) (lob : LimitOrderBook P).

(** A book before and after: only asks are filled, and nothing of the bid stays. *)
Record market_filled lob lob' (fs : list (Order * Z)) : Prop := {
  mf_fills : forall f, f ∈ fs -> f.1 ∈ orders_of lob ask /\ 0 < f.2;
  mf_left : forall side o', o' ∈ orders_of lob' side -> exists o, o ∈ orders_of lob side /\ same_order o o';
  mf_qty : forall id, book_qty id lob = book_qty id lob' + fills_qty id fs
}.

Lemma add_market_filled lob lob' id q who fs left :
  book_wf lob -> 0 < q ->
  match_orders bid MARKET_BID_ORDER_PRICE q (orders_of lob ask) = (fs, orders_of lob' ask, left) ->
  orders_of lob' bid = rest_order (mkOrder id MARKET_BID_ORDER_PRICE left bid who) (orders_of lob bid) ->
  market_filled lob lob' fs.
Proof.
  intros Hwf Hq Hm Hnear.
  destruct (match_orders_spec _ _ _ _ _ _ _ (Z.lt_le_incl _ _ Hq) (book_quantities lob ask Hwf) Hm)
    as (_ & _ & _ & Hfs & _).
  destruct (match_orders_left _ _ _ _ _ _ _ Hm) as [Hleft Hfrom].
  assert (orders_of lob' bid = orders_of lob bid) as Hbid.
  { rewrite Hnear. unfold rest_order, rests. simpl. by rewrite andb_false_r. }
  split.
  - intros f Hf. rewrite Forall_forall in Hfs. destruct (Hfs f Hf) as [? ?]. split; [by apply Hfrom|lia].
  - intros [] o' Ho'; [|by apply Hleft]. rewrite Hbid in Ho'. by exists o'.
  - intros id'. unfold book_qty. rewrite Hbid, (match_orders_qty id' _ _ _ _ _ _ _ Hm). lia.
Qed.

Lemma engine_market_effect me c id lob me' outs :
  env_ok env -> engine_wf me -> trade_events me = [] -> no_order_id c = Some id ->
  no_price c = None -> no_side c = bid -> limit_order_books me !! no_symbol c = Some lob ->
  order_ok lob id MARKET_BID_ORDER_PRICE (no_order_qty c) (no_sender_comp_id c) ->
  process_container env me (CNewOrderSingle c) = Ok me' -> trade_events me' = [] ->
  sends (inbound_server me) (inbound_server me') (order_response_connection_id me) outs ->
  exists lob' fs tcs left,
    engine_wf me' /\ limit_order_books me' = <[no_symbol c := lob']> (limit_order_books me) /\
    outs = map (fun t => serialize_container (CTrade t)) tcs /\
    Forall2 (announces (no_symbol c) id bid (no_sender_comp_id c)) fs tcs /\
    market_filled lob lob' fs /\
    match_orders bid MARKET_BID_ORDER_PRICE (no_order_qty c) (orders_of lob ask)
      = (fs, orders_of lob' ask, left).
Proof.
  intros Henv Hwf Hev Hid Hpr Hside Hlob Hok Hproc Hev' Hsends.
  destruct (ew_books _ Hwf _ _ Hlob) as [Hbw Htk].
  destruct (add_order_correct env Henv lob (trade_events me) (trade_calls me) _ _ _ bid _ Hbw Hok)
    as (lob' & ts & fs & left & Hadd & Hm & Hnear & HF & _ & Htk' & Hbw').
  rewrite Htk in HF. assert (Forall trade_readable (trade_events me ++ ts)) as Hread.
  { apply Forall_app. split; [apply Hwf|by eapply reports_all_readable]. }
  destruct (send_trades_ok (order_response_connection_id me) _ (inbound_server me) Hread)
    as (srv' & sent & pending & Hst & Hsplit & Hsends').
  simpl in Hproc. unfold new_order_handler in Hproc. rewrite Hid in Hproc. simpl in Hproc.
  rewrite Hlob, Hpr, Hside in Hproc. simpl in Hproc. rewrite Hadd in Hproc. simpl in Hproc.
  rewrite Hst in Hproc. simpl in Hproc. injection Hproc as <-. simpl in *. subst pending.
  rewrite app_nil_r, Hev in Hsplit. simpl in Hsplit. subst sent.
  destruct (reports_announce _ _ _ _ _ _ HF) as (tcs & HF' & Hmsg).
  exists lob', fs, tcs, left. split; [by apply engine_wf_update; try done; congruence|].
  split; [done|]. split; [by rewrite <- Hmsg; eapply sends_det|]. split; [done|]. split; [|done].
  eapply add_market_filled; [done|apply Hok|exact Hm|exact Hnear].
Qed.

(** The answer to a fill cost query is what [get_fill_cost] returns, and the
    engine is otherwise unchanged. *)
Lemma engine_quote_effect me sym q me' outs :
  process_container env me (CFillCostQuery (mkFillCostQuery sym q ask)) = Ok me' ->
  server_up (inbound_server me) (incoming_request_connection_id me) ->
  sends (inbound_server me) (inbound_server me') (incoming_request_connection_id me) outs ->
  exists lob cost, limit_order_books me !! sym = Some lob /\ get_fill_cost lob q ask = Ok cost /\
    outs = [serialize_container (CFillCostResponse (mkFillCostResponse cost))] /\
    me' = with_server me (inbound_server me').
Proof.
  simpl. unfold fill_cost_query_handler. intros (lob & Hlob%get_or_ok & Hp)%bind_ok Hup Hs.
  apply bind_ok in Hp as (cost & Hcost & Hp). simpl in Hlob, Hcost.
  specialize (Hup (serialize_container (CFillCostResponse (mkFillCostResponse cost)))).
  destruct (is_send _ _ _ _) as [srv ok] eqn:Hsend. simpl in Hup. subst ok. injection Hp as <-.
  exists lob, cost. split; [done|]. split; [done|]. split; [|done].
  apply is_send_sends in Hsend. simpl in *. by eapply sends_det.
Qed.
End Engine.

(** ** The order manager takes a market bid *)
Section Bid.
Context {I C D : Type} `{InboundServer I} `{OutboundClientLaws C} `{OrderManagerDatabase D}
  `{CodecFaithful} (SERVER_NAME : string) (exec_ids : nat -> string).
Implicit Types (om : OrderManager I C D).

Definition market_bid (c : NewOrderSingleContainer) : Prop :=
  no_ord_type c = Core.market /\ no_side c = bid /\ no_price c = None /\
  INT_MIN < no_order_qty c <= INT_MAX /\ fits MAX_USERNAME_LENGTH (no_sender_comp_id c) = true.

(** The order manager asks: its user is known and the client id is not in use.
    (Otherwise the bid is rejected before anything is sent.) *)
Definition asks om (c : NewOrderSingleContainer) : Prop :=
  exists u t, username_user_id_map om !! no_sender_comp_id c = Some u /\
    transformed_cl_ord_id (no_cl_ord_id c) u = Ok t /\ bm_right (order_id_map (orders om)) !! t = None.

Definition query_of (c : NewOrderSingleContainer) : Container :=
  CFillCostQuery (mkFillCostQuery (no_symbol c) (no_order_qty c) ask).

(** The exchange of the query and its answer, as the client sees it. *)
Definition asked om (c : NewOrderSingleContainer) (answer : string) (client : C) : Prop :=
  exists client1,
    oc_send (order_request_outbound_client om) (order_request_connection_id om)
      (serialize_container (query_of c)) fmt_binary = (client1, true) /\
    oc_wait_and_dequeue_message client1 (order_request_connection_id om) = Ok (client, Some answer).

Definition as_numbered om (c : NewOrderSingleContainer) : NewOrderSingleContainer :=
  with_order_id c (latest_assigned_order_id (orders om) + 1).

(** What becomes of the bid, given the quote. *)
Inductive bid_effect om om' (c : NewOrderSingleContainer) (cost : option Z) : list Container -> Prop :=
  | be_rejected :
      balance_checker om' = balance_checker om -> bid_effect om om' c cost []
  | be_accepted :
      validate_new_order (active_symbols om) (balance_checker om) (as_numbered om c) cost
        = Ok (balance_checker om', "ok"%string) ->
      bid_effect om om' c cost [CNewOrderSingle (as_numbered om c)].

Lemma preprocess_market_bid om gw c answer client cost :
  market_bid c -> asks om c -> asked om c answer client ->
  deserialize_container answer = Ok (CFillCostResponse (mkFillCostResponse cost)) ->
  forall c' os' client' r,
  preprocess_container (username_user_id_map om) gw (order_request_connection_id om) (orders om)
    (order_request_outbound_client om) (CNewOrderSingle c) = Ok (c', os', client', r) ->
  c' = CNewOrderSingle (as_numbered om c) /\ client' = client /\ r = inl cost.
Proof.
  intros (Hm & Hs & _) (u & t & Hu & Ht & Hfree) (client1 & Hsend & Hwait) Hans c' os' client' r. simpl.
  intros ([[[c1 os1] cl1] r1] & Hpre & [= <- <- <- <-])%bind_ok.
  unfold preprocess_new_order in Hpre. apply bind_ok in Hpre as (id & Hid & Hpre). apply i32_inv in Hid as [-> _].
  simpl in Hpre. rewrite Hu, Ht in Hpre. simpl in Hpre. rewrite Hfree, Hm, Hs in Hpre.
  apply bind_ok in Hpre as ([cl2 r2] & Hq & [= <- <- <- <-]).
  unfold query_fill_cost in Hq. simpl in Hq. unfold query_of in Hsend. rewrite Hsend in Hq.
  unfold wait_response in Hq. rewrite Hwait in Hq. simpl in Hq. rewrite Hans in Hq. simpl in Hq.
  by injection Hq as <- <-.
Qed.

Lemma process_market_bid om gw m c answer client cost om' forwarded :
  orders_wf (orders om) -> deserialize_container m = Ok (CNewOrderSingle c) ->
  market_bid c -> asks om c -> asked om c answer client ->
  deserialize_container answer = Ok (CFillCostResponse (mkFillCostResponse cost)) ->
  client_up client (order_request_connection_id om) ->
  process_request SERVER_NAME exec_ids om gw m = Ok om' ->
  sends client (order_request_outbound_client om') (order_request_connection_id om) forwarded ->
  orders_wf (orders om') /\ same_setup om om' /\
  order_info_map (orders om) !! (latest_assigned_order_id (orders om) + 1) = None /\
  order_info_map (orders om') =
    <[latest_assigned_order_id (orders om) + 1 := order_info_of (as_numbered om c) gw]> (order_info_map (orders om)) /\
  exists sent, bid_effect om om' c cost sent /\ forwarded = map serialize_container sent.
Proof.
  intros Hwf Hc Hb Hask Hasked Hans Hup Hp Hsends. unfold process_request in Hp. rewrite Hc in Hp.
  cbn [mbind res_bind] in Hp. apply bind_ok in Hp as ([[[c' os'] cl] r] & Hpre & Hp).
  apply bind_ok in Hp as ([bc verdict] & Hv & Hp).
  apply bind_ok in Hp as ([client' inbound] & Hf & Hp). apply bind_ok in Hp as (db & _ & [= <-]).
  destruct (preprocess_ids _ _ _ _ _ _ _ _ _ _ Hwf Hpre) as [Hwf' Hids].
  destruct (preprocess_market_bid _ _ _ _ _ _ Hb Hask Hasked Hans _ _ _ _ Hpre) as (-> & -> & ->).
  destruct Hids as (_ & _ & Hnone & Hrec). destruct Hask as (u & t & Hu & Ht & Hfree). rewrite Hu in Hrec.
  destruct Hrec as (t' & Ht' & Hnew & _). rewrite Ht in Ht'. injection Ht' as <-.
  destruct (Hnew Hfree) as [Hinf _]. do 4 (split; [done|]). simpl in *.
  unfold forward_and_reply in Hf. apply bind_ok in Hf as (? & _ & Hf).
  destruct (String.eqb verdict "ok") eqn:Hvalid; apply bind_ok in Hf as (report & Hrep & Hf).
  - injection Hf as <- <-. specialize (Hup (serialize_container (CNewOrderSingle (as_numbered om c)))).
    destruct (oc_send _ _ _ _) as [cl ok] eqn:Hsend. simpl in *. subst ok.
    apply (sends_of_law _ _ _ _ _ _ _ oc_send_law) in Hsend.
    pose proof (sends_det _ _ _ _ _ Hsends Hsend) as ->. apply String.eqb_eq in Hvalid. subst verdict.
    exists [CNewOrderSingle (as_numbered om c)]. split; [by constructor|done].
  - apply bind_ok in Hf as (report' & _ & [= <- <-]).
    pose proof (sends_det _ _ _ _ _ Hsends (sends_nil _ _)) as ->. exists []. split; [|done].
    constructor. simpl. apply String.eqb_neq in Hvalid. by eapply (validate_rejects _ _ (CNewOrderSingle _)).
Qed.

(** A bid whose sender is unknown or whose client id is in use is refused, and
    nothing is asked or sent to the engine. *)
Lemma process_refused_bid om gw m c om' outs :
  orders_wf (orders om) -> deserialize_container m = Ok (CNewOrderSingle c) ->
  market_bid c -> ~ asks om c -> process_request SERVER_NAME exec_ids om gw m = Ok om' ->
  sends (order_request_outbound_client om) (order_request_outbound_client om') (order_request_connection_id om) outs ->
  orders_wf (orders om') /\ same_setup om om' /\ balance_checker om' = balance_checker om /\
  order_info_map (orders om') = order_info_map (orders om) /\ outs = [].
Proof.
  intros Hwf Hc (Hm & Hs & _) Hask Hp Hsends. unfold process_request in Hp. rewrite Hc in Hp.
  cbn [mbind res_bind] in Hp. apply bind_ok in Hp as ([[[c' os'] cl] r] & Hpre & Hp).
  apply bind_ok in Hp as ([bc verdict] & Hv & Hp).
  apply bind_ok in Hp as ([client' inbound] & Hf & Hp). apply bind_ok in Hp as (db & _ & [= <-]).
  destruct (preprocess_ids _ _ _ _ _ _ _ _ _ _ Hwf Hpre) as [Hwf' _].
  assert (order_info_map os' = order_info_map (orders om) /\ cl = order_request_outbound_client om /\
    exists err, r = inr err) as (Hinf & -> & err & ->).
  { simpl in Hpre. apply bind_ok in Hpre as ([[[c1 os1] cl1] r1] & Hpre & [= <- <- <- <-]).
    unfold preprocess_new_order in Hpre. apply bind_ok in Hpre as (id & Hid & Hpre). simpl in Hpre.
    destruct (username_user_id_map om !! no_sender_comp_id c) as [u|] eqn:Hu.
    - apply bind_ok in Hpre as (t & Ht & Hpre). destruct (bm_right (order_id_map (orders om)) !! t) eqn:Hr.
      + injection Hpre as <- <- <- <-. eauto.
      + exfalso. apply Hask. exists u, t. done.
    - injection Hpre as <- <- <- <-. eauto. }
  injection Hv as <- _. simpl in *. unfold forward_and_reply in Hf. apply bind_ok in Hf as (? & _ & Hf).
  apply bind_ok in Hf as (report & _ & Hf). apply bind_ok in Hf as (report' & _ & [= <- <-]).
  split; [done|]. split; [done|]. do 2 (split; [done|]). by eapply sends_det; [|apply sends_nil].
Qed.
End Bid.

(** ** Its trades, on their way and read *)
Section Flow.
Context {P : Type}.
Implicit Types (books : gmap string (LimitOrderBook P)) (infos : gmap Z OrderInfo) (ps : list Container).

(** The cash that the trades of market bids among the responses will hand over: it
    has left the buyer's account and is in no seller's yet. *)
Definition trade_cash infos (c : Container) : Z :=
  match c with
  | CTrade t =>
      match infos !! tc_taker_order_id t with
      | Some i => match oi_price i with None => tc_price t * tc_quantity t | Some _ => 0 end
      | None => 0
      end
  | _ => 0
  end.
Definition unsettled infos ps : Z := sumZ (trade_cash infos) ps.

Lemma unsettled_grow infos infos' ps :
  infos_grow infos infos' -> (forall t, CTrade t ∈ ps -> is_Some (infos !! tc_taker_order_id t)) ->
  unsettled infos' ps = unsettled infos ps.
Proof.
  intros Hg Hps. apply sumZ_ext. intros c Hc. destruct c as [?|?|?|?|?|t|?]; try done. simpl.
  destruct (Hps t Hc) as [i Hi]. destruct (Hg _ _ Hi) as (i' & Hi' & _ & _ & _ & Ep). by rewrite Hi, Hi', Ep.
Qed.

Lemma unsettled_app infos ps ps' : unsettled infos (ps ++ ps') = unsettled infos ps + unsettled infos ps'.
Proof. apply sumZ_app. Qed.

Lemma unsettled_cons infos c ps : unsettled infos (c :: ps) = trade_cash infos c + unsettled infos ps.
Proof. done. Qed.

(** A trade between live orders hands over no cash of a market bid. *)
Lemma known_cash users bc infos live t :
  ledger_wf users (mkLedger bc infos live) -> trade_known infos live t -> trade_cash infos (CTrade t) = 0.
Proof.
  intros Hled Ht. simpl. destruct (lw_live _ _ Hled _ (tk_taker_live _ _ _ Ht)) as (i & Hi & _ & _ & p & Hp & _).
  simpl in Hi. by rewrite Hi, Hp.
Qed.

Lemma known_unsettled users bc infos live ps :
  ledger_wf users (mkLedger bc infos live) -> (forall t, CTrade t ∈ ps -> trade_known infos live t) ->
  unsettled infos ps = 0.
Proof.
  intros Hled Hps. apply sumZ_zero. intros c Hc. destruct c as [?|?|?|?|?|t|?]; try done.
  by eapply known_cash; [|apply Hps].
Qed.

Lemma announced_unsettled infos sym mid who i fs tcs :
  infos !! mid = Some i -> oi_price i = None -> Forall2 (announces sym mid bid who) fs tcs ->
  unsettled infos (map CTrade tcs) = sumZ fill_value fs.
Proof.
  intros Hi Hp. induction 1 as [|f t fs tcs [A1 A2 A3 A4 A5 A6 A7 A8] _ IH]; [done|].
  rewrite map_cons, unsettled_cons, IH. simpl. by rewrite A6, Hi, Hp, A2, A3.
Qed.

Lemma unsettled_nonneg live infos ps :
  (forall t, CTrade t ∈ ps -> trade_on_way true infos live t) -> 0 <= unsettled infos ps.
Proof.
  intros Hps. apply sumZ_nonneg, Forall_forall. intros c Hc. destruct c as [?|?|?|?|?|t|?]; simpl; try lia.
  destruct (infos !! _) as [i|]; [|lia]. destruct (oi_price i); [lia|].
  destruct (Hps t Hc) as [[]|[_ []]]; nia.
Qed.

(** The engine has executed a market bid. *)
Lemma flow_market_executed infos live symbols books rq ps sym mid i who lob lob' fs tcs :
  flow_inv (bids := true) infos live symbols books rq ps ->
  infos !! mid = Some i -> oi_price i = None -> oi_sender_comp_id i = who -> mid ∉ live ->
  books !! sym = Some lob -> book_wf lob -> market_filled lob lob' fs ->
  Forall2 (announces sym mid bid who) fs tcs ->
  flow_inv (bids := true) infos live symbols (<[sym := lob']> books) rq (ps ++ map CTrade tcs).
Proof.
  intros Hf Hi Hp Hw Hnl Hl Hwf [Hfill Hleft Hqty] HF.
  assert (forall t, t ∈ tcs -> market_trade infos live t /\ tc_taker_order_id t = mid /\
    ~ not_resting (tc_maker_order_id t) books) as Hknown.
  { intros t (n & Ht)%list_elem_of_lookup. destruct (Forall2_lookup_r _ _ _ _ _ HF Ht) as (f & Hfn & [A1 A2 A3 A4 A5 A6 A7 A8]).
    destruct (Hfill f) as [Ho Hq]; [by eapply list_elem_of_lookup_2|].
    destruct (resting_order_wf books sym lob _ _ Hwf Hl Ho) as (Hs & Hpr & _).
    assert ((sym, f.1) ∈ resting_orders books) as Hr by (apply elem_of_resting; eauto).
    destruct (fi_resting _ _ _ _ _ _ Hf _ _ Hr) as [Hml Hmag]. rewrite Hs in Hmag.
    split; [|split; [done|rewrite A7; intros Hn; by apply (Hn sym f.1)]].
    split; rewrite ?A1, ?A2, ?A3, ?A5, ?A6, ?A7; try done; [congruence|lia|].
    exists i. rewrite A4. done. }
  assert (forall sym' o, (sym', o) ∈ resting_orders (<[sym := lob']> books) ->
    exists o1, (sym', o1) ∈ resting_orders books /\ same_order o1 o) as Hrest.
  { intros sym' o (lob1 & side & Hl1 & Ho)%elem_of_resting.
    apply lookup_insert_Some in Hl1 as [[<- <-]|[_ Hl1]].
    - destruct (Hleft side o Ho) as (o1 & Ho1 & ?). exists o1. split; [|done]. apply elem_of_resting. eauto.
    - exists o. split; [apply elem_of_resting; eauto|done]. }
  assert (forall id', not_resting id' books -> not_resting id' (<[sym := lob']> books)) as Hnr.
  { intros id' Hn sym' o (o1 & Ho1 & -> & _)%Hrest. by apply (Hn sym'). }
  assert (forall id', id' ∈ live -> not_resting id' books -> id' ∉ mentions (map CTrade tcs)) as Hment.
  { intros id' Hlive Hn (c' & Hc' & Hm)%elem_of_concat_map.
    apply list_elem_of_fmap in Hc' as (t & -> & Ht). destruct (Hknown t Ht) as (_ & Hk1 & Hk2).
    simpl in Hm. apply elem_of_cons in Hm as [-> | ->%list_elem_of_singleton]; congruence. }
  pose proof (fun id => queued_ids_live _ _ _ _ _ _ id Hf) as Hqlive.
  destruct (trades_settle tcs) as [Hst Hcn].
  destruct Hf as [Hlive Hre Hq Hnd Hfr Htr Hcan Hord Howed]. split; try done.
  - intros sym' o (o1 & Ho1 & -> & -> & -> & ->)%Hrest. by apply Hre.
  - intros id' Hid'. destruct (Hfr id' Hid') as [? ?]. split; [by apply Hnr|].
    rewrite mentions_app, not_elem_of_app. split; [done|]. apply Hment; [by apply Hqlive|done].
  - intros t [Ht|Ht]%elem_of_app; [by apply Htr|]. apply list_elem_of_fmap in Ht as (t' & [= <-] & Ht).
    right. split; [done|]. by apply Hknown.
  - rewrite cancels_app, Hcn, app_nil_r. intros id' Hid'. destruct (Hcan id' Hid'). auto.
  - apply settles_last_app; [done|done|]. intros id' Hid'. destruct (Hcan id' Hid'). by apply Hment.
  - rewrite cancels_app, Hcn, app_nil_r. intros id' i' Hl' Hi'. destruct (Howed id' i' Hl' Hi') as [? Heq].
    assert (owed (<[sym := lob']> books) rq (ps ++ map CTrade tcs) id' = owed books rq ps id') as ->; [|done].
    unfold owed. rewrite filled_qty_app, (announced_qty _ _ _ _ _ _ id' HF), (resting_qty_update _ _ _ lob) by done.
    rewrite decide_False by congruence. pose proof (Hqty id'). lia.
Qed.
End Flow.

(** The order manager reads a trade of a market bid: what the buyer paid in advance
    goes to the seller, and the buyer gets the stock. *)
Lemma market_trade_read users bc infos live t infos' bc' :
  NoDup users -> ledger_wf users (mkLedger bc infos live) -> market_trade infos live t -> tc_taker_id t ∈ users ->
  (forall s, infos !! tc_maker_order_id t = Some s -> tc_quantity t <= oi_leaves_qty s) ->
  apply_trade infos bc t = Ok (infos', bc') ->
  (exists b s b' s', infos !! buyer_order_id t = Some b /\ infos !! seller_order_id t = Some s /\
     fill_order_info b (tc_price t) (tc_quantity t) = Ok b' /\
     fill_order_info s (tc_price t) (tc_quantity t) = Ok s' /\
     infos' = <[seller_order_id t := s']> (<[buyer_order_id t := b']> infos)) /\
  ledger_wf users (mkLedger bc' infos' live) /\
  (forall x, OrderSettlement.total users bc' x + escrow infos' live x =
     OrderSettlement.total users bc x + escrow infos live x +
       if decide (x = USD_SYMBOL) then tc_price t * tc_quantity t else 0).
Proof.
  intros Husers Hled [Hne Hp Hq Hb Hml (s & Hs & S1 & S2 & S3 & S4) (b & Hmid & Hbw & Hbp)] Hwho Hle Ha.
  assert (buyer_order_id t = tc_taker_order_id t /\ seller_order_id t = tc_maker_order_id t /\
    buyer_id t = tc_taker_id t /\ seller_id t = tc_maker_id t) as (E1 & E2 & E3 & E4).
  { unfold buyer_order_id, seller_order_id, buyer_id, seller_id. by rewrite Hb. }
  destruct (apply_trade_inv infos bc t infos' bc' b s) as (b' & s' & bc1 & bc2 & Hfb & Hfs & Hinf & Hwf' & Hc1 & Hc2 & Hc3);
    rewrite ?E1, ?E2; try done; [apply Hled|].
  rewrite Hbp in Hc2. rewrite E3, E4 in *. simpl in Hc2.
  destruct (lw_live _ _ Hled _ Hml) as (s0 & Hs0 & Hls). simpl in Hs0. rewrite Hs in Hs0. injection Hs0 as <-.
  destruct (fill_live users _ _ _ _ Hls Hfs ltac:(specialize (Hle s Hs); lia)) as [Hls' Has].
  assert (tc_taker_order_id t ∉ live) as Hnl.
  { intros Hl. destruct (lw_live _ _ Hled _ Hl) as (b0 & Hb0 & _ & _ & p & Hp0 & _). simpl in Hb0. congruence. }
  split; [exists b, s, b', s'; rewrite ?E1, ?E2; split_and!; try done; by rewrite Hinf, E1, E2|].
  rewrite E1, E2 in Hinf. split.
  - destruct Hled as [_ Hnd Hlive]. split; simpl in *; [done|done|]. intros id Hid. rewrite Hinf.
    destruct (decide (id = tc_maker_order_id t)) as [->|]; [rewrite lookup_insert_eq; eauto|].
    rewrite !lookup_insert_ne by congruence. by apply Hlive.
  - intros x. rewrite Hinf, (escrow_update users [] Husers (not_elem_of_nil _) _ _ _ s s') by (apply Hled || done || by rewrite lookup_insert_ne).
    rewrite escrow_insert by done. rewrite Has, S3, S2. assert (tc_maker_id t ∈ users) as Hsu.
    { rewrite <- S1. apply Hls. }
    rewrite (total_credited users Husers _ _ _ _ _ x Hsu Hc3), (total_credited users Husers _ _ _ _ _ x Hwho Hc2),
      (total_credited users Husers _ _ _ _ _ x Hwho Hc1). repeat case_decide; lia.
Qed.

(** ** The exchange with market bids *)
Section Trading.
Context {I C D L P Q : Type} `{InboundServer I} `{OutboundClientLaws C} `{OrderManagerDatabase D}
  `{InboundServerLaws L} {tpub : Publisher Trade P} {spub : Publisher TopOrderBookLevelAggregates Q}
  `{CodecFaithful} (SERVER_NAME : string) (exec_ids : nat -> string) (env : Env).
Implicit Types (om : OrderManager I C D) (me : MatchingEngine L P Q) (ps qs : list Container).

(** What the order manager's thread is doing: nothing that waits; or inside
    [process_request] with a market bid, its question sent; or with the answer sent. *)
Inductive errand :=
  | unoccupied
  | asking (c : NewOrderSingleContainer) (m : string) (gw : Z)
  | answered (c : NewOrderSingleContainer) (m : string) (gw : Z) (answer : string).

Record trading := mkTrading {
  td_market : MarketSystem.market (I := I) (C := C) (D := D) (L := L) (P := P) (Q := Q);
  td_errand : errand
}.

(** The order manager only settles and takes requests while it is not waiting; the
    engine works all the time.  [mk_om] is the state in which [process_request] was
    called until that call returns. *)
Inductive trading_step : trading -> trading -> Prop :=
  | ts_market s s' :
      market_step SERVER_NAME exec_ids env s s' ->
      trading_step (mkTrading s unoccupied) (mkTrading s' unoccupied)
  | ts_refuse om me rq rs gw m c om' outs :
      deserialize_container m = Ok (CNewOrderSingle c) -> market_bid c -> ~ asks om c ->
      process_request SERVER_NAME exec_ids om gw m = Ok om' ->
      sends (order_request_outbound_client om) (order_request_outbound_client om')
        (order_request_connection_id om) outs ->
      trading_step (mkTrading (mkMarket om me rq rs) unoccupied)
        (mkTrading (mkMarket om' me (rq ++ outs) rs) unoccupied)
  | ts_ask om me rq rs gw m c :
      deserialize_container m = Ok (CNewOrderSingle c) -> market_bid c -> asks om c ->
      trading_step (mkTrading (mkMarket om me rq rs) unoccupied)
        (mkTrading (mkMarket om me (rq ++ [serialize_container (query_of c)]) rs) (asking c m gw))
  | ts_engine om me rq rs m c me' outs e :
      deserialize_container m = Ok c -> match c with CFillCostQuery _ => False | _ => True end ->
      server_up (inbound_server me) (order_response_connection_id me) ->
      process_container env me c = Ok me' -> trade_events me' = [] ->
      sends (inbound_server me) (inbound_server me') (order_response_connection_id me) outs ->
      trading_step (mkTrading (mkMarket om me (m :: rq) rs) e) (mkTrading (mkMarket om me' rq (rs ++ outs)) e)
  | ts_answer om me rq rs m q me' answer c m0 gw :
      deserialize_container m = Ok (CFillCostQuery q) ->
      server_up (inbound_server me) (incoming_request_connection_id me) ->
      process_container env me (CFillCostQuery q) = Ok me' ->
      sends (inbound_server me) (inbound_server me') (incoming_request_connection_id me) [answer] ->
      trading_step (mkTrading (mkMarket om me (m :: rq) rs) (asking c m0 gw))
        (mkTrading (mkMarket om me' rq rs) (answered c m0 gw answer))
  | ts_decide om me rq rs c m gw answer r client om' forwarded :
      asked om c answer client -> client_up client (order_request_connection_id om) ->
      deserialize_container answer = Ok r ->
      process_request SERVER_NAME exec_ids om gw m = Ok om' ->
      sends client (order_request_outbound_client om') (order_request_connection_id om) forwarded ->
      trading_step (mkTrading (mkMarket om me rq rs) (answered c m gw answer))
        (mkTrading (mkMarket om' me (rq ++ forwarded) rs) unoccupied)
  | ts_om_idle om om' me rq rs e :
      om_idle om om' -> trading_step (mkTrading (mkMarket om me rq rs) e) (mkTrading (mkMarket om' me rq rs) e)
  | ts_engine_idle om me me' rq rs e :
      engine_idle me me' -> trading_step (mkTrading (mkMarket om me rq rs) e) (mkTrading (mkMarket om me' rq rs) e).

(** An accepted market bid that the engine has not read: the quote still holds. *)
Record bid_queued om me (c : NewOrderSingleContainer) (cost : Z) : Prop := {
  bq_bid : market_bid c;
  bq_user : no_sender_comp_id c ∈ users_of om;
  bq_record : exists id i, no_order_id c = Some id /\ 0 <= id /\ order_info_map (orders om) !! id = Some i /\
    oi_price i = None /\ oi_sender_comp_id i = no_sender_comp_id c;
  bq_quote : exists lob, limit_order_books me !! no_symbol c = Some lob /\
    get_fill_cost lob (no_order_qty c) ask = Ok (Some cost)
}.

Definition queued_bid (h : option (NewOrderSingleContainer * Z)) : list Container :=
  match h with Some (c, _) => [CNewOrderSingle c] | None => [] end.
Definition question (e : errand) : list Container :=
  match e with asking c _ _ => [query_of c] | _ => [] end.

(** [market_inv] for what is left when an accepted market bid at the head of the
    requests and a question at their end are taken away. *)
Record trading_inv (t : trading) live qs ps (h : option (NewOrderSingleContainer * Z)) : Prop := {
  ti_core : market_inv (bids := true)
    (mkMarket (mk_om (td_market t)) (mk_me (td_market t)) (map serialize_container qs) (mk_responses (td_market t)))
    live qs ps;
  ti_requests : mk_requests (td_market t) = map serialize_container (queued_bid h ++ qs ++ question (td_errand t));
  ti_head : match h with Some (c, cost) => bid_queued (mk_om (td_market t)) (mk_me (td_market t)) c cost | None => True end;
  ti_errand : match td_errand t with
    | unoccupied => True
    | asking c m _ => deserialize_container m = Ok (CNewOrderSingle c) /\ market_bid c /\ asks (mk_om (td_market t)) c
    | answered c m _ answer =>
        deserialize_container m = Ok (CNewOrderSingle c) /\ market_bid c /\ asks (mk_om (td_market t)) c /\
        h = None /\ qs = [] /\
        exists lob cost, answer = serialize_container (CFillCostResponse (mkFillCostResponse cost)) /\
          limit_order_books (mk_me (td_market t)) !! no_symbol c = Some lob /\
          get_fill_cost lob (no_order_qty c) ask = Ok cost
    end;
  ti_buyers : forall t' i, CTrade t' ∈ ps -> order_info_map (orders (mk_om (td_market t))) !! tc_taker_order_id t' = Some i ->
    oi_price i = None -> tc_taker_id t' ∈ users_of (mk_om (td_market t))
}.

(** All that the users own: their holdings, what their live limit orders set aside,
    and the cash of market bids that is neither the buyer's nor the seller's. *)
Definition wealth om live ps (h : option (NewOrderSingleContainer * Z)) (x : string) : Z :=
  assets om live x +
  if decide (x = USD_SYMBOL)
  then unsettled (order_info_map (orders om)) ps + match h with Some (_, cost) => cost | None => 0 end
  else 0.

(** The invariant holds again, the users are the same and own the same. *)
Definition preserved (t t' : trading) live ps h : Prop :=
  exists live' qs' ps' h', trading_inv t' live' qs' ps' h' /\
    users_of (mk_om (td_market t')) = users_of (mk_om (td_market t)) /\
    forall x, wealth (mk_om (td_market t')) live' ps' h' x = wealth (mk_om (td_market t)) live ps h x.

Lemma takers_recorded (s : MarketSystem.market (I := I) (C := C) (D := D) (L := L) (P := P) (Q := Q)) live qs ps t :
  market_inv (bids := true) s live qs ps -> CTrade t ∈ ps ->
  is_Some (order_info_map (orders (mk_om s)) !! tc_taker_order_id t).
Proof.
  intros Hinv Ht. pose proof (mi_flow _ _ _ _ Hinv) as Hf.
  eapply trade_on_way_recorded; [apply (fi_live _ _ _ _ _ _ Hf)|by apply (fi_trades _ _ _ _ _ _ Hf)|by left].
Qed.

Lemma bid_queued_grow om om' me me' c cost :
  users_of om' = users_of om -> infos_grow (order_info_map (orders om)) (order_info_map (orders om')) ->
  limit_order_books me' = limit_order_books me -> bid_queued om me c cost -> bid_queued om' me' c cost.
Proof.
  intros Hu Hg Hb [B1 B2 (id & i & Hid & Hpos & Hi & Hp & Hs) B4].
  split; [done|by rewrite Hu| |by rewrite Hb]. destruct (Hg _ _ Hi) as (i' & Hi' & E & _ & _ & Ep).
  exists id, i'. split_and!; congruence.
Qed.

(** A step of the order manager that the invariant of [MarketSystem] covers. *)
Lemma core_step om om' me rq rq' rs rs' live live' qs qs' ps ps' h :
  trading_inv (mkTrading (mkMarket om me rq rs) unoccupied) live qs ps h ->
  market_inv (bids := true) (mkMarket om' me (map serialize_container qs') rs') live' qs' ps' ->
  keeps (mkMarket om me (map serialize_container qs) rs) (mkMarket om' me (map serialize_container qs') rs') live live' ->
  rq' = map serialize_container (queued_bid h ++ qs') ->
  (forall t, CTrade t ∈ ps' -> CTrade t ∈ ps) ->
  unsettled (order_info_map (orders om)) ps' = unsettled (order_info_map (orders om)) ps ->
  preserved (mkTrading (mkMarket om me rq rs) unoccupied) (mkTrading (mkMarket om' me rq' rs') unoccupied) live ps h.
Proof.
  intros [Hcore Hrq Hh _ Hbuy] Hinv (Hu & Hg & Ha) -> Hsub Huns. cbn [td_market td_errand mk_om mk_me] in *.
  assert (forall t, CTrade t ∈ ps' -> is_Some (order_info_map (orders om) !! tc_taker_order_id t)) as Hrec
    by (intros t Ht; by apply (takers_recorded _ _ _ _ _ Hcore), Hsub).
  exists live', qs', ps', h. cbn [td_market mk_om]. split; [split; cbn [td_market td_errand mk_om mk_me mk_requests mk_responses]|split; [done|]].
  - done.
  - simpl. by rewrite app_nil_r.
  - destruct h as [[c cost]|]; [|done]. by eapply bid_queued_grow.
  - done.
  - intros t i Ht Hi Hp. rewrite Hu. destruct (Hrec t Ht) as [i0 Hi0]. destruct (Hg _ _ Hi0) as (i' & Hi' & _ & _ & _ & Ep).
    eapply Hbuy; [by apply Hsub|exact Hi0|congruence].
  - intros x. unfold wealth. rewrite (Ha x). by rewrite (unsettled_grow _ _ _ Hg Hrec), Huns.
Qed.

(** The engine executes an accepted market bid: its trades cost what was quoted. *)
Lemma bid_executed om me me' rs outs live qs ps c cost :
  env_ok env -> market_inv (bids := true) (mkMarket om me (map serialize_container qs) rs) live qs ps ->
  bid_queued om me c cost ->
  process_container env me (CNewOrderSingle c) = Ok me' -> trade_events me' = [] ->
  sends (inbound_server me) (inbound_server me') (order_response_connection_id me) outs ->
  exists tcs, market_inv (bids := true) (mkMarket om me' (map serialize_container qs) (rs ++ outs)) live qs (ps ++ map CTrade tcs) /\
    unsettled (order_info_map (orders om)) (map CTrade tcs) = cost /\
    forall t, t ∈ tcs -> tc_taker_id t = no_sender_comp_id c.
Proof.
  intros Henv [Hrq Hrs Kq Kr Hos Hled Heng Hev Hsym Hbk Hflow Hkn] [Hb Hwho (mid & i & Hid & Hpos & Hi & Hp & Hw) (lob & Hlob & Hcost)]
    Hproc Hev2 Hsends. cbn [mk_om mk_me mk_requests mk_responses] in *.
  destruct Hb as (Hmk & Hside & Hnp & Hqty & Hfits).
  assert (0 < no_order_qty c) as Hq.
  { unfold get_fill_cost in Hcost. apply bind_ok in Hcost as ([] & Hc%check_ok & _). by apply Z.ltb_lt. }
  destruct (ew_books _ Heng _ _ Hlob) as [Hbw _].
  assert (mid ∉ live) as Hnl.
  { intros Hl. destruct (lw_live _ _ Hled _ Hl) as (i0 & Hi0 & _ & _ & p & Hp0 & _). simpl in Hi0. congruence. }
  assert (order_ok lob mid MARKET_BID_ORDER_PRICE (no_order_qty c) (no_sender_comp_id c)) as Hok.
  { split; [done| |unfold MARKET_BID_ORDER_PRICE, INT_MAX; lia|lia|done].
    apply (not_resting_fresh mid _ _ _ Hbw Hlob). intros sym o Ho <-. apply Hnl. by apply (fi_resting _ _ _ _ _ _ Hflow sym o). }
  destruct (engine_market_effect env me c mid lob me' outs Henv Heng) as
    (lob' & fs & tcs & left & Hwf2 & Hb2 & -> & HF & Hfill & Hm); try done.
  destruct (get_fill_cost_inv lob ask (no_order_qty c) _ _ _ cost Hbw Hq Hm Hcost) as [Hval _].
  exists tcs. split; [|split].
  - split; cbn [mk_om mk_me mk_requests mk_responses]; try done.
    + apply carries_app; [done|]. unfold carries. by rewrite map_map.
    + intros c' [Hc'|(t & -> & _)%list_elem_of_fmap]%elem_of_app; [by apply (Kr c')|done].
    + intros x Hx. rewrite Hb2. apply lookup_insert_is_Some'. auto.
    + rewrite Hb2. by eapply flow_market_executed.
    + destruct Hkn as [K1 K2 K3]. split; [done|done|].
      intros r [Hr|(t & ? & _)%list_elem_of_fmap]%elem_of_app; [by apply K3|done].
  - by rewrite (announced_unsettled _ _ _ _ _ _ _ Hi Hp HF), Hval.
  - intros t (n & Ht)%list_elem_of_lookup. destruct (Forall2_lookup_r _ _ _ _ _ HF Ht) as (f & _ & Han). apply Han.
Qed.

(** The engine reads the next request. *)
Lemma engine_reads om me rq rs m c me' outs e live qs ps h :
  env_ok env -> trading_inv (mkTrading (mkMarket om me (m :: rq) rs) e) live qs ps h ->
  deserialize_container m = Ok c -> match c with CFillCostQuery _ => False | _ => True end ->
  server_up (inbound_server me) (order_response_connection_id me) ->
  process_container env me c = Ok me' -> trade_events me' = [] ->
  sends (inbound_server me) (inbound_server me') (order_response_connection_id me) outs ->
  preserved (mkTrading (mkMarket om me (m :: rq) rs) e) (mkTrading (mkMarket om me' rq (rs ++ outs)) e) live ps h.
Proof.
  intros Henv [Hcore Hrq Hh He Hbuy] Hc Hnq Hup Hproc Hev Hsends. cbn [td_market td_errand mk_om mk_me mk_requests mk_responses] in *.
  destruct h as [[c0 cost]|].
  - change (m :: rq = serialize_container (CNewOrderSingle c0) :: map serialize_container (qs ++ question e)) in Hrq.
    injection Hrq as -> Hrq. apply deserialize_faithful in Hc as ->.
    destruct (bid_executed _ _ _ _ _ _ _ _ _ _ Henv Hcore Hh Hproc Hev Hsends) as (tcs & Hinv & Hcash & Hwho).
    exists live, qs, (ps ++ map CTrade tcs), None. split; [|split; [done|]].
    + split; cbn [td_market td_errand mk_om mk_me mk_requests mk_responses]; try done.
      * destruct e as [| |]; try done. destruct He as (_ & _ & _ & ? & _). done.
      * intros t i [Ht|Ht]%elem_of_app Hi Hp; [by eapply Hbuy|].
        apply list_elem_of_fmap in Ht as (t' & [= ->] & Ht). rewrite (Hwho t' Ht). apply Hh.
    + intros x. unfold wealth. cbn [td_market mk_om]. rewrite unsettled_app, Hcash. case_decide; lia.
  - destruct qs as [|c1 qs].
    { destruct e; [done| |done]. cbn [queued_bid question app map] in Hrq. injection Hrq as -> _.
      by apply deserialize_faithful in Hc as ->. }
    change (m :: rq = serialize_container c1 :: map serialize_container (qs ++ question e)) in Hrq.
    injection Hrq as -> Hrq.
    change (map serialize_container (c1 :: qs)) with (serialize_container c1 :: map serialize_container qs) in Hcore.
    destruct (engine_step_inv _ _ _ _ _ _ _ _ _ _ _ _ Henv Hcore Hc Hup Hproc Hev Hsends) as (qs' & ps' & Hinv & Htr).
    pose proof (mi_requests _ _ _ _ Hinv) as Hqs. cbn [mk_requests] in Hqs. unfold carries in Hqs. rewrite Hqs in Hinv.
    exists live, qs', (ps ++ ps'), None. split; [|split; [done|]].
    + split; cbn [td_market td_errand mk_om mk_me mk_requests mk_responses]; try done.
      * cbn [queued_bid app]. by rewrite Hrq, !map_app, Hqs.
      * destruct e as [| |]; try done. destruct He as (_ & _ & _ & _ & ? & _). done.
      * intros t i [Ht|Ht]%elem_of_app Hi Hp; [by eapply Hbuy|].
        destruct (lw_live _ _ (mi_ledger _ _ _ _ Hcore) _ (tk_taker_live _ _ _ (Htr t Ht))) as (i0 & Hi0 & _ & _ & p & Hp0 & _).
        simpl in Hi0. congruence.
    + intros x. unfold wealth. cbn [td_market mk_om].
      pose proof (known_unsettled _ _ _ _ ps' (mi_ledger _ _ _ _ Hcore) Htr) as Hnone. cbn [mk_om] in Hnone.
      rewrite unsettled_app, Hnone. case_decide; lia.
Qed.

(** The order manager reads a trade of a market bid. *)
Lemma market_trade_step om me rq rs m t om' live qs ps :
  market_inv (bids := true) (mkMarket om me rq (m :: rs)) live qs (CTrade t :: ps) ->
  market_trade (order_info_map (orders om)) live t -> tc_taker_id t ∈ users_of om ->
  process_response SERVER_NAME exec_ids om m = Ok om' ->
  market_inv (bids := true) (mkMarket om' me rq rs) live qs ps /\ users_of om' = users_of om /\
  infos_grow (order_info_map (orders om)) (order_info_map (orders om')) /\
  forall x, assets om' live x = assets om live x + if decide (x = USD_SYMBOL) then tc_price t * tc_quantity t else 0.
Proof.
  intros Hinv Hmt Hwho Hp. destruct (process_response_inv _ _ _ _ _ Hp) as (c & Hc & (Es & Eu & _ & _) & Ei & El & Hu).
  destruct (carries_head _ _ _ _ (mi_responses _ _ _ _ Hinv) Hc) as (? & ? & [= <- <-] & Hcs & ->). simpl in Hu.
  assert (users_of om' = users_of om) as Eus by (unfold users_of; by rewrite Eu).
  assert (orders om' = mkOrders (order_id_map (orders om)) (order_info_map (orders om'))
    (latest_assigned_order_id (orders om))) as Eo by (rewrite <- Ei, <- El; by destruct (orders om')).
  destruct Hinv as [Hrq Hrs Kq Kr Hos Hled Heng Hev Hsym Hbk Hflow Hkn]. cbn [mk_om mk_me mk_requests mk_responses] in *.
  assert (forall s, order_info_map (orders om) !! tc_maker_order_id t = Some s -> tc_quantity t <= oi_leaves_qty s) as Hle.
  { intros s Hs. destruct (fi_owed _ _ _ _ _ _ Hflow _ s (mt_maker_live _ _ _ Hmt) Hs) as [Hle _].
    pose proof (trade_owed _ _ _ _ _ _ _ (tc_maker_order_id t) Hflow
      (fun sym lob Hl => proj1 (ew_books _ Heng sym lob Hl)) ltac:(by right; left)). lia. }
  destruct (market_trade_read _ _ _ _ _ _ _ (users_nodup om) Hled Hmt Hwho Hle Hu)
    as ((b & s & b' & s' & Hb & Hs & Hfb & Hfs & Hinf) & Hled' & Hcons).
  destruct (infos_grow_trade _ t b s b' s' ltac:(by apply buyer_seller_ids, Hmt) Hb Hs Hfb Hfs) as [Hig _].
  destruct (apply_trade_grows _ _ _ _ _ Hu) as [Hgrow _].
  split; [|split; [done|split; [by rewrite Hinf|]]].
  - split; cbn [mk_om mk_me mk_requests mk_responses]; rewrite ?Es; try done.
    + intros c' Hc'. apply (Kr c'). by right.
    + rewrite Eo. apply orders_wf_infos; [done|]. intros id. rewrite Hinf, !lookup_insert_is_Some'.
      split; [|by auto]. intros [<-|[<-|?]]; [by rewrite Hs|by rewrite Hb|done].
    + by rewrite Eus.
    + rewrite Hinf. by eapply flow_trade_read.
    + eapply known_gain; [exact Hgrow| |done|done| |exact Hkn].
      * rewrite Hinf. eapply records_gain_trade; try done. apply Hmt.
      * intros r Hr. by right.
  - intros x. unfold assets. rewrite Eus. apply Hcons.
Qed.

(** The order manager reads the next response. *)
Lemma order_manager_reads om me rq rs m om' live qs ps h :
  trading_inv (mkTrading (mkMarket om me rq (m :: rs)) unoccupied) live qs ps h ->
  process_response SERVER_NAME exec_ids om m = Ok om' ->
  preserved (mkTrading (mkMarket om me rq (m :: rs)) unoccupied) (mkTrading (mkMarket om' me rq rs) unoccupied) live ps h.
Proof.
  intros Hinv Hp. pose proof Hinv as [Hcore Hrq Hh _ Hbuy]. cbn [td_market td_errand mk_om mk_me mk_requests mk_responses] in *.
  pose proof (mi_responses _ _ _ _ Hcore) as Hrs. destruct ps as [|c0 ps]; [done|].
  assert (question unoccupied = []) as Hqu by done. rewrite Hqu, app_nil_r in Hrq.
  assert ((forall t, c0 = CTrade t -> trade_known (order_info_map (orders om)) live t) \/
    exists t, c0 = CTrade t /\ market_trade (order_info_map (orders om)) live t) as [Hkn|(t & -> & Hmt)].
  { destruct c0 as [?|?|?|?|?|t|?]; try (by left).
    destruct (fi_trades _ _ _ _ _ _ (mi_flow _ _ _ _ Hcore) t ltac:(by left)) as [Hk|[_ Hm]]; [|by eauto].
    left. by intros ? [= <-]. }
  - destruct (response_step_inv _ _ _ _ _ _ _ _ _ _ _ _ Hcore Hkn Hp) as (live' & Hinv' & Hk).
    eapply core_step; [exact Hinv|exact Hinv'|exact Hk|done|by right|].
    assert (trade_cash (order_info_map (orders om)) c0 = 0) as Hzero; [|rewrite unsettled_cons; lia].
    destruct c0 as [?|?|?|?|?|t|?]; try done. by eapply known_cash; [apply Hcore|apply Hkn].
  - pose proof (mt_taker _ _ _ Hmt) as (b & Hb & _ & Hbp).
    destruct (market_trade_step _ _ _ _ _ _ _ _ _ _ Hcore Hmt (Hbuy t b ltac:(by left) Hb Hbp) Hp) as (Hinv' & Hu & Hg & Ha).
    exists live, qs, ps, h. cbn [td_market mk_om]. split; [|split; [done|]].
    + split; cbn [td_market td_errand mk_om mk_me mk_requests mk_responses]; try done.
      * by rewrite Hqu, app_nil_r.
      * destruct h as [[c cost]|]; [|done]. by eapply bid_queued_grow.
      * intros t' i' Ht' Hi' Hp'. rewrite Hu.
        destruct (takers_recorded _ _ _ _ t' Hcore ltac:(by right)) as [i0 Hi0]. simpl in Hi0.
        destruct (Hg _ _ Hi0) as (i1 & Hi1 & _ & _ & _ & Ep). eapply Hbuy; [by right|exact Hi0|congruence].
    + intros x. unfold wealth. rewrite (Ha x).
      rewrite (unsettled_grow (order_info_map (orders om)) (order_info_map (orders om')) ps Hg)
        by (intros t' Ht'; apply (takers_recorded _ _ _ _ _ Hcore); by right).
      assert (trade_cash (order_info_map (orders om)) (CTrade t) = tc_price t * tc_quantity t) as Ht
        by (simpl; by rewrite Hb, Hbp).
      rewrite unsettled_cons, Ht. case_decide; lia.
Qed.

(** A market bid is recorded, whether it is accepted or not. *)
Lemma bid_recorded om om' me rs live qs ps mid i :
  market_inv (bids := true) (mkMarket om me (map serialize_container qs) rs) live qs ps ->
  orders_wf (orders om') -> same_setup om om' -> balances_wf (balance_checker om') ->
  grows (balance_checker om) (balance_checker om') -> order_info_map (orders om) !! mid = None ->
  order_info_map (orders om') = <[mid := i]> (order_info_map (orders om)) ->
  market_inv (bids := true) (mkMarket om' me (map serialize_container qs) rs) live qs ps /\
  users_of om' = users_of om /\ infos_grow (order_info_map (orders om)) (order_info_map (orders om')) /\
  forall x, escrow (order_info_map (orders om')) live x = escrow (order_info_map (orders om)) live x.
Proof.
  intros [Hrq Hrs Kq Kr Hos Hled Heng Hev Hsym Hbk Hflow Hkn] Hos' (Es & Eu & _ & _) Hbw Hgrow Hn Hinf.
  cbn [mk_om mk_me mk_requests mk_responses] in *.
  assert (mid ∉ live) as Hnl by (intros Hid; destruct (fi_live _ _ _ _ _ _ Hflow mid Hid); congruence).
  assert (users_of om' = users_of om) as Eus by (unfold users_of; by rewrite Eu).
  split; [|split; [done|split; [rewrite Hinf; by apply infos_grow_fresh|]]].
  - split; cbn [mk_om mk_me mk_requests mk_responses]; rewrite ?Es, ?Eus, ?Hinf; try done.
    + destruct Hled as [_ Hnd Hl]. unfold om_ledger. rewrite Hinf. split; simpl in *; [done|done|].
      intros id Hid. destruct (Hl id Hid) as (i' & Hi' & ?). exists i'. by rewrite lookup_insert_ne by congruence.
    + by apply flow_rejected.
    + eapply known_gain; [exact Hgrow|by apply records_gain_fresh|done|done|done|exact Hkn].
  - intros x. rewrite Hinf. by apply escrow_insert.
Qed.

(** The order manager has its answer and decides. *)
Lemma order_manager_decides om me rq rs c m gw answer r client om' forwarded live qs ps h :
  trading_inv (mkTrading (mkMarket om me rq rs) (answered c m gw answer)) live qs ps h ->
  asked om c answer client -> client_up client (order_request_connection_id om) ->
  deserialize_container answer = Ok r ->
  process_request SERVER_NAME exec_ids om gw m = Ok om' ->
  sends client (order_request_outbound_client om') (order_request_connection_id om) forwarded ->
  preserved (mkTrading (mkMarket om me rq rs) (answered c m gw answer))
    (mkTrading (mkMarket om' me (rq ++ forwarded) rs) unoccupied) live ps h.
Proof.
  intros [Hcore Hrq Hh (Hc & Hb & Hask & -> & -> & lob & cost & -> & Hlob & Hcost) Hbuy] Hasked Hup Hr Hp Hfw.
  cbn [td_market td_errand mk_om mk_me mk_requests mk_responses] in *. simpl in Hrq. subst rq.
  pose proof (deserialize_faithful _ _ Hr) as ->. simpl received in Hr.
  destruct (process_market_bid _ _ _ _ _ _ _ _ _ _ _ (mi_orders _ _ _ _ Hcore) Hc Hb Hask Hasked Hr Hup Hp Hfw)
    as (Hos' & Hset & Hnone & Hinf & sent & Heff & ->). cbn [mk_om] in *.
  pose proof (lw_balances _ _ (mi_ledger _ _ _ _ Hcore)) as Hbw. cbn [mk_om om_ledger ld_bc] in Hbw.
  assert (forall bc', balances_wf bc' -> grows (balance_checker om) bc' -> balance_checker om' = bc' ->
    market_inv (bids := true) (mkMarket om' me [] rs) live [] ps /\ users_of om' = users_of om /\
    infos_grow (order_info_map (orders om)) (order_info_map (orders om')) /\
    forall x, escrow (order_info_map (orders om')) live x = escrow (order_info_map (orders om)) live x) as Hrec.
  { intros bc' Hw Hg <-. by apply (bid_recorded _ _ _ _ _ [] _ _ _ Hcore Hos' Hset Hw Hg Hnone Hinf). }
  assert (users_of om' = users_of om -> infos_grow (order_info_map (orders om)) (order_info_map (orders om')) ->
    (forall t i, CTrade t ∈ ps -> order_info_map (orders om') !! tc_taker_order_id t = Some i ->
       oi_price i = None -> tc_taker_id t ∈ users_of om') /\
    unsettled (order_info_map (orders om')) ps = unsettled (order_info_map (orders om)) ps) as Hps.
  { intros Hu Hg. split.
    - intros t i Ht Hi Hpr. rewrite Hu. destruct (takers_recorded _ _ _ _ t Hcore Ht) as [i0 Hi0]. simpl in Hi0.
      destruct (Hg _ _ Hi0) as (i1 & Hi1 & _ & _ & _ & Ep). eapply Hbuy; [exact Ht|exact Hi0|congruence].
    - apply (unsettled_grow _ _ _ Hg). intros t Ht. exact (takers_recorded _ _ _ _ t Hcore Ht). }
  destruct Heff as [Hbc|Hv].
  - destruct (Hrec _ Hbw (grows_refl _) Hbc) as (Hinv & Hu & Hg & He). destruct (Hps Hu Hg) as [Hbuy' Huns].
    exists live, [], ps, None. split; [by split|]. split; [done|].
    intros x. unfold wealth, assets. cbn [td_market mk_om]. by rewrite Hu, Hbc, (He x), Huns.
  - destruct Hb as (Hmk & Hside & Hnp & Hqty & Hfits).
    destruct cost as [cost|].
    2: { exfalso. unfold validate_new_order, validate_bid in Hv. simpl in Hv. rewrite Hside, Hmk in Hv.
         repeat (case_match; try discriminate Hv). all: try (apply bind_ok in Hv as (? & _ & Hv); by case_match). }
    assert (0 < cost <= INT_MAX) as Hrange by (by eapply get_fill_cost_range).
    assert (well_typed_order (as_numbered om c) (Some cost)) as Hwt.
    { split; simpl; [done|by rewrite Hnp|by rewrite Hmk|]. intros x [= <-]. done. }
    destruct (validate_new_order_ok (active_symbols om) (balance_checker om) _ _ Hbw Hwt (mi_symbols _ _ _ _ Hcore)) as (bc0 & v & Hv' & Hvok & _).
    rewrite Hv in Hv'. injection Hv' as <- <-.
    destruct (Hvok eq_refl) as (_ & acct & amount & Hres & _ & _ & _ & Hcred & Hbwf & Hgrow).
    unfold reservation in Hres. simpl in Hres. rewrite Hside, Hmk in Hres. simpl in Hres. injection Hres as <- <-.
    destruct (Hrec _ Hbwf Hgrow eq_refl) as (Hinv & Hu & Hg & He). destruct (Hps Hu Hg) as [Hbuy' Huns].
    assert (no_sender_comp_id c ∈ users_of om) as Hwho by (destruct Hask as (u & t & Hu0 & _); apply elem_of_users; eauto).
    exists live, [], ps, (Some (as_numbered om c, cost)). split; [|split; [done|]].
    + split; cbn [td_market td_errand mk_om mk_me mk_requests mk_responses]; try done.
      split; [done|by rewrite Hu| |by exists lob].
      pose proof (ow_start _ (mi_orders _ _ _ _ Hcore)) as Hst. cbn [mk_om] in Hst.
      exists (latest_assigned_order_id (orders om) + 1), (order_info_of (as_numbered om c) gw).
      split; [done|]. split; [lia|]. split; [by rewrite Hinf, lookup_insert_eq|]. split; [|done]. simpl. done.
    + intros x. unfold wealth, assets. cbn [td_market mk_om]. rewrite (He x), Huns, Hu.
      rewrite (total_credited _ (users_nodup om) _ _ _ _ _ x Hwho Hcred). case_decide; lia.
Qed.

(** Whatever the other links bring meanwhile changes nothing. *)
Lemma engine_idles om me me' rq rs e live qs ps h :
  trading_inv (mkTrading (mkMarket om me rq rs) e) live qs ps h -> engine_idle me me' ->
  preserved (mkTrading (mkMarket om me rq rs) e) (mkTrading (mkMarket om me' rq rs) e) live ps h.
Proof.
  intros [Hcore Hrq Hh He Hbuy] Hid. cbn [td_market td_errand mk_om mk_me mk_requests mk_responses] in *.
  pose proof (idle_engine_inv _ _ _ _ _ _ _ _ Hid Hcore) as Hinv'. destruct Hid as [Eb _ _].
  exists live, qs, ps, h. split; [|by split].
  split; cbn [td_market td_errand mk_om mk_me mk_requests mk_responses]; try done.
  - destruct h as [[c cost]|]; [|done]. by eapply bid_queued_grow; [done|apply infos_grow_refl|exact Eb|exact Hh].
  - destruct e as [| |]; try done. by rewrite Eb.
Qed.

Lemma order_manager_idles om om' me rq rs e live qs ps h :
  trading_inv (mkTrading (mkMarket om me rq rs) e) live qs ps h -> om_idle om om' ->
  preserved (mkTrading (mkMarket om me rq rs) e) (mkTrading (mkMarket om' me rq rs) e) live ps h.
Proof.
  intros [Hcore Hrq Hh He Hbuy] Hid. cbn [td_market td_errand mk_om mk_me mk_requests mk_responses] in *.
  destruct (idle_om_inv _ _ _ _ _ _ _ _ Hid Hcore) as [Hinv' (Hu & _ & Ha)]. cbn [mk_om] in *.
  destruct Hid as [(_ & Eu & _ & _) _ Eo].
  exists live, qs, ps, h. split; [|split; [done|]].
  - split; cbn [td_market td_errand mk_om mk_me mk_requests mk_responses]; rewrite ?Eo, ?Hu; try done.
    + destruct h as [[c cost]|]; [|done]. eapply bid_queued_grow; [exact Hu|rewrite Eo; apply infos_grow_refl|done|exact Hh].
    + unfold asks in *. by destruct e as [| |]; rewrite ?Eo, ?Eu.
  - intros x. unfold wealth. cbn [td_market mk_om]. by rewrite (Ha x), Eo.
Qed.

(** A refused bid leaves everything as it was. *)
Lemma refused_inv om om' me rq rs live qs ps :
  market_inv (bids := true) (mkMarket om me rq rs) live qs ps ->
  orders_wf (orders om') -> same_setup om om' -> balance_checker om' = balance_checker om ->
  order_info_map (orders om') = order_info_map (orders om) ->
  market_inv (bids := true) (mkMarket om' me rq rs) live qs ps /\
  keeps (mkMarket om me rq rs) (mkMarket om' me rq rs) live live.
Proof.
  intros [? ? ? ? ? Hled ? ? ? ? ? ?] Hos' (Es & Eu & _ & _) Hbc Hinf. cbn [mk_om mk_me mk_requests mk_responses] in *.
  assert (users_of om' = users_of om) as Eus by (unfold users_of; by rewrite Eu). split.
  - split; cbn [mk_om mk_me mk_requests mk_responses]; rewrite ?Es, ?Eus, ?Hinf, ?Hbc; try done.
    unfold om_ledger. by rewrite Hbc, Hinf.
  - split; [done|]. cbn [mk_om]. rewrite Hinf. split; [apply infos_grow_refl|]. intros x. unfold assets.
    by rewrite Eus, Hbc, Hinf.
Qed.

(** The engine reads the question: nothing else is on its way to it. *)
Lemma engine_answers om me rq rs m q me' answer c m0 gw live qs ps h :
  trading_inv (mkTrading (mkMarket om me (m :: rq) rs) (asking c m0 gw)) live qs ps h ->
  deserialize_container m = Ok (CFillCostQuery q) ->
  server_up (inbound_server me) (incoming_request_connection_id me) ->
  process_container env me (CFillCostQuery q) = Ok me' ->
  sends (inbound_server me) (inbound_server me') (incoming_request_connection_id me) [answer] ->
  preserved (mkTrading (mkMarket om me (m :: rq) rs) (asking c m0 gw))
    (mkTrading (mkMarket om me' rq rs) (answered c m0 gw answer)) live ps h.
Proof.
  intros [Hcore Hrq Hh (Hc & Hb & Hask) Hbuy] Hm Hup Hp Hs. cbn [td_market td_errand mk_om mk_me mk_requests mk_responses] in *.
  assert (h = None /\ qs = [] /\ rq = [] /\ CFillCostQuery q = query_of c) as (-> & -> & -> & Hq).
  { destruct h as [[c0 cost]|]; [|destruct qs as [|c0 qs]].
    - injection Hrq as -> _. by apply deserialize_faithful in Hm.
    - injection Hrq as -> ->. by apply deserialize_faithful in Hm.
    - injection Hrq as -> _. apply deserialize_faithful in Hm.
      pose proof (mi_request_kinds _ _ _ _ Hcore c0 ltac:(by left)). by destruct c0. }
  rewrite Hq in Hp. unfold query_of in Hp.
  destruct (engine_quote_effect env me _ _ me' [answer] Hp Hup Hs) as (lob & cost & Hlob & Hcost & [= ->] & Hme).
  assert (engine_idle me me') as Hid by (rewrite Hme; split; [done|done|apply engine_wf_with_server]).
  pose proof (idle_engine_inv _ _ _ _ _ _ _ _ Hid Hcore) as Hinv'. destruct Hid as [Eb _ _].
  exists live, [], ps, None. split; [|by split].
  split; cbn [td_market td_errand mk_om mk_me mk_requests mk_responses]; try done.
  do 5 (split; [done|]). exists lob, cost. by rewrite Eb.
Qed.

Lemma trading_step_inv t t' live qs ps h :
  env_ok env -> trading_step t t' -> trading_inv t live qs ps h -> preserved t t' live ps h.
Proof.
  intros Henv Hs Hinv.
  destruct Hs as [s s' Hs|om me rq rs gw m c om' outs Hc Hb Hask Hp Hse|om me rq rs gw m c Hc Hb Hask
    |om me rq rs m c me' outs e Hc Hnq Hup Hp Hev Hse|om me rq rs m q me' answer c m0 gw Hc Hup Hp Hse
    |om me rq rs c m gw answer r client om' fw Hasked Hup Hr Hp Hse|om om' me rq rs e Hid|om me me' rq rs e Hid].
  - destruct Hs as [om me rq rs gw m c om' outs Hc Ha Hup Hp Hse|om me rq rs m c me' outs Hc Hup Hp Hev Hse
      |om me rq rs m om' Hp|om om' me rq rs Hid|om me me' rq rs Hid].
    + pose proof Hinv as [Hcore Hrq _ _ _]. cbn [td_market td_errand mk_om mk_me mk_requests mk_responses question] in *.
      destruct (request_step_inv _ _ _ _ _ _ _ _ _ _ _ _ _ _ Hcore Hc Ha Hup Hp Hse) as (live' & qs' & Hinv' & Hk).
      pose proof (mi_requests _ _ _ _ Hinv') as Hqs. cbn [mk_requests] in Hqs. unfold carries in Hqs. rewrite Hqs in Hinv', Hk.
      eapply core_step; [exact Hinv|exact Hinv'|exact Hk| |done|done].
      by rewrite Hrq, app_nil_r, !map_app, <- Hqs, app_assoc.
    + assert (match c with CFillCostQuery _ => False | _ => True end) as Hnq; [|exact (engine_reads _ _ _ _ _ _ _ _ _ _ _ _ _ Henv Hinv Hc Hnq Hup Hp Hev Hse)].
      destruct Hinv as [Hcore Hrq _ _ _]. cbn [td_market td_errand mk_requests question] in *. rewrite app_nil_r in Hrq.
      destruct h as [[c0 cost]|]; [|destruct qs as [|c0 qs]; [done|]]; injection Hrq as -> _;
        apply deserialize_faithful in Hc as ->; [done|].
      pose proof (mi_request_kinds _ _ _ _ Hcore c0 ltac:(by left)). by destruct c0.
    + exact (order_manager_reads _ _ _ _ _ _ _ _ _ _ Hinv Hp).
    + pose proof Hinv as [Hcore Hrq _ _ _]. cbn [td_market td_errand mk_om mk_me mk_requests mk_responses question] in *.
      destruct (idle_om_inv _ _ _ _ _ _ _ _ Hid Hcore) as [Hinv' Hk].
      eapply core_step; [exact Hinv|exact Hinv'|exact Hk| |done|done]. by rewrite Hrq, app_nil_r.
    + exact (engine_idles _ _ _ _ _ _ _ _ _ _ Hinv Hid).
  - pose proof Hinv as [Hcore Hrq Hh _ Hbuy]. cbn [td_market td_errand mk_om mk_me mk_requests mk_responses question] in *.
    destruct (process_refused_bid _ _ _ _ _ _ _ _ (mi_orders _ _ _ _ Hcore) Hc Hb Hask Hp Hse)
      as (Hos' & Hset & Hbc & Hinf & ->).
    destruct (refused_inv _ _ _ _ _ _ _ _ Hcore Hos' Hset Hbc Hinf) as [Hinv' Hk].
    eapply core_step; [exact Hinv|exact Hinv'|exact Hk| |done|done]. by rewrite Hrq, !app_nil_r.
  - destruct Hinv as [Hcore Hrq Hh _ Hbuy]. cbn [td_market td_errand mk_om mk_me mk_requests mk_responses question] in *.
    exists live, qs, ps, h. split; [|by split]. split; cbn [td_market td_errand mk_om mk_me mk_requests mk_responses]; try done.
    by rewrite Hrq, app_nil_r, app_assoc, (map_app _ (queued_bid h ++ qs)).
  - exact (engine_reads _ _ _ _ _ _ _ _ _ _ _ _ _ Henv Hinv Hc Hnq Hup Hp Hev Hse).
  - exact (engine_answers _ _ _ _ _ _ _ _ _ _ _ _ _ _ _ Hinv Hc Hup Hp Hse).
  - exact (order_manager_decides _ _ _ _ _ _ _ _ _ _ _ _ _ _ _ _ Hinv Hasked Hup Hr Hp Hse).
  - exact (order_manager_idles _ _ _ _ _ _ _ _ _ _ Hinv Hid).
  - exact (engine_idles _ _ _ _ _ _ _ _ _ _ Hinv Hid).
Qed.

Lemma trading_run_inv x0 t :
  env_ok env -> exchange_start x0 -> rtc trading_step (mkTrading (as_market x0) unoccupied) t ->
  exists live qs ps h, trading_inv t live qs ps h /\ users_of (mk_om (td_market t)) = users_of (ex_om x0) /\
    forall a, wealth (mk_om (td_market t)) live ps h a =
      OrderSettlement.total (users_of (ex_om x0)) (balance_checker (ex_om x0)) a.
Proof.
  intros Henv Hst Hr. revert t Hr. apply rtc_ind_r.
  - exists [], [], [], None. split; [|split; [done|]].
    + pose proof (start_inv (bids := true) x0 Hst) as Hinv.
      assert (pending_requests x0 = []) as Hrq by apply Hst.
      split; cbn [td_market td_errand mk_om mk_me mk_requests mk_responses]; try done.
      * unfold as_market in Hinv. rewrite Hrq in Hinv. exact Hinv.
      * by intros ? ? ?%elem_of_nil.
    + intros a. rewrite <- (start_assets x0 a Hst). unfold wealth.
      change (mk_om (td_market (mkTrading (as_market x0) unoccupied))) with (ex_om x0).
      change (unsettled (order_info_map (orders (ex_om x0))) []) with 0. case_decide; lia.
  - intros y z _ Hs (live & qs & ps & h & Hinv & Hu & Hw).
    destruct (trading_step_inv _ _ _ _ _ _ Henv Hs Hinv) as (live' & qs' & ps' & h' & Hinv' & Hu' & Hw').
    exists live', qs', ps', h'. split; [done|]. split; [congruence|]. intros a. by rewrite Hw'.
Qed.

Lemma wealth_bounds t live qs ps h a :
  trading_inv t live qs ps h ->
  OrderSettlement.total (users_of (mk_om (td_market t))) (balance_checker (mk_om (td_market t))) a <=
    wealth (mk_om (td_market t)) live ps h a.
Proof.
  intros [Hcore _ Hh _ _]. unfold wealth, assets. pose proof (escrow_nonneg _ _ _ _ a Hcore) as He. cbn [mk_om] in He.
  assert (0 <= match h with Some (_, cost) => cost | None => 0 end) as Hc.
  { destruct h as [[c cost]|]; [|lia]. destruct (bq_quote _ _ _ _ Hh) as (lob & _ & Hq).
    apply get_fill_cost_range in Hq. lia. }
  pose proof (unsettled_nonneg live _ ps (fi_trades _ _ _ _ _ _ (mi_flow _ _ _ _ Hcore))) as Hu. cbn [mk_om] in Hu.
  case_decide; lia.
Qed.

(** C3: market bids neither create nor lose cash or stock.  For a market bid the
    order manager asks the engine what the order would cost, waits for the answer,
    reserves exactly that and forwards the order; while it waits the engine goes on
    with the requests that were sent before, and while the order waits to be read
    further requests can be sent and earlier trades settled.  Let limit orders (their
    price not INT_MAX), cancel requests and market bids arrive from the start of the
    day, with all these steps of the two services in any interleaving, as long as the
    links lose nothing and every trade is sent in the iteration that made it; market
    asks are left out ([Exchange.market_ask_stranded] shows what they lose).  At every
    moment no balance is negative and for every asset the users hold together no more
    than at the start.  Whenever no message is under way, the balances and what the
    orders in the books have reserved add up to exactly what there was at the start:
    nothing of what was set aside for a market bid is left over or missing, because
    what the engine charged is what it had quoted.  And every order in a book has its
    record at the order manager, with the quantity that is in the book. *)
Theorem market_bids_conserve x0 t :
  env_ok env -> exchange_start x0 -> rtc trading_step (mkTrading (as_market x0) unoccupied) t ->
  let om := mk_om (td_market t) in
  let me := mk_me (td_market t) in
  let users := users_of (ex_om x0) in
  let start a := OrderSettlement.total users (balance_checker (ex_om x0)) a in
  let held a := OrderSettlement.total users (balance_checker om) a in
  balances_wf (balance_checker om) /\ (forall a, held a <= start a) /\
  (mk_requests (td_market t) = [] -> mk_responses (td_market t) = [] ->
     (forall a, held a + book_assets me a = start a) /\
     forall sym o, (sym, o) ∈ resting_orders (limit_order_books me) ->
       exists i, order_info_map (orders om) !! o_order_id o = Some i /\
         oi_sender_comp_id i = o_trader_id o /\ oi_symbol i = sym /\ oi_side i = o_side o /\
         oi_price i = Some (o_price o) /\ oi_leaves_qty i = o_quantity o).
Proof.
  intros Henv Hst Hr om me users start held.
  destruct (trading_run_inv x0 t Henv Hst Hr) as (live & qs & ps & h & Hinv & Hu & Hw).
  split; [apply (mi_ledger _ _ _ _ (ti_core _ _ _ _ _ Hinv))|]. split.
  - intros a. unfold start, held, users. rewrite <- (Hw a), <- Hu. by eapply wealth_bounds.
  - intros Hq Hp. destruct Hinv as [Hcore Hrq _ _ _]. rewrite Hq in Hrq. symmetry in Hrq. apply map_eq_nil in Hrq.
    apply app_eq_nil in Hrq as [Hh [-> _]%app_eq_nil]. destruct h as [[c cost]|]; [done|].
    pose proof (mi_responses _ _ _ _ Hcore) as Cp. cbn [mk_responses] in Cp. rewrite Hp in Cp. apply carries_nil in Cp as ->.
    split.
    + intros a. specialize (Hw a). unfold wealth in Hw. pose proof (quiet_assets _ _ a Hcore) as Hqa. cbn [mk_om mk_me] in Hqa.
      rewrite Hqa, Hu in Hw. unfold unsettled in Hw. simpl in Hw. unfold start, held, users, om, me. case_decide; lia.
    + intros sym o Ho. exact (quiet_record _ _ _ _ Hcore Ho).
Qed.
End Trading.

(** ** A market bid

    Bob offers 6 at 95; Alice bids for 4 at market, is quoted 380 and pays it. *)
#[local] Existing Instance toy_codec.
#[local] Existing Instance toy_codec_faithful.

Definition run_ok {A} (r : res A) (d : A) : A := match r with Ok a => a | Err _ => d end.
Definition exec_id (_ : nat) : string := "e"%string.

Definition bid_om1 : day_om :=
  run_ok (process_request "UAT" exec_id day_om0 0 (serialize_container (CNewOrderSingle day_bob))) day_om0.
Definition bob_numbered : Container := CNewOrderSingle (with_order_id day_bob 0).
Definition bid_me1 : day_engine := run_ok (process_container sample_env day_me0 bob_numbered) day_me0.

Definition alice_market : NewOrderSingleContainer :=
  mkNewOrder "alice" "OM" None 2 "GME" bid 4 Core.market None day.
Definition alice_query : Container := query_of alice_market.
Definition bid_me2 : day_engine := run_ok (process_container sample_env bid_me1 alice_query) bid_me1.
Definition quoted : string := serialize_container (CFillCostResponse (mkFillCostResponse (Some 380))).

(** The answer is the next message to arrive at the request connection. *)
Definition waiting_client (w : ws) : ws :=
  mkManager (m_endpoint w) (m_id_to_connection_map w) (m_handle_to_connection_map w) (m_next_id w) [(0, quoted)].
Definition bid_om2 : day_om :=
  mkOrderManager (active_symbols bid_om1) (gateway_connection_ids bid_om1) (order_request_connection_id bid_om1)
    (om_order_response_connection_id bid_om1) (om_inbound_server bid_om1)
    (waiting_client (order_request_outbound_client bid_om1)) (order_response_outbound_client bid_om1)
    (balance_checker bid_om1) (username_user_id_map bid_om1) (database_client bid_om1) (server_id bid_om1)
    (orders bid_om1) (exec_count bid_om1) (gateway_ids_it bid_om1).

Definition answered_client : ws :=
  match wait_and_dequeue_message (send (order_request_outbound_client bid_om2) 0
          (serialize_container alice_query) fmt_binary).1 0 with
  | Ok (w, _) => w | Err _ => order_request_outbound_client bid_om2
  end.
Definition bid_om3 : day_om :=
  run_ok (process_request "UAT" exec_id bid_om2 0 (serialize_container (CNewOrderSingle alice_market))) bid_om2.
Definition alice_numbered : Container := CNewOrderSingle (as_numbered bid_om2 alice_market).
Definition bid_me3 : day_engine := run_ok (process_container sample_env bid_me2 alice_numbered) bid_me2.
Definition bid_trades : list string :=
  drop (length (sent_on (inbound_server bid_me2) 1)) (sent_on (inbound_server bid_me3) 1).
Definition bid_om4 : day_om := run_ok (foldM (process_response "UAT" exec_id) bid_om3 bid_trades) bid_om3.

Example bid_outcome :
  balance_of (balance_checker bid_om4) "alice" "USD" = balance_of sample_balances "alice" "USD" - 380 /\
  balance_of (balance_checker bid_om4) "bob" "USD" = balance_of sample_balances "bob" "USD" + 380 /\
  balance_of (balance_checker bid_om4) "alice" "GME" = balance_of sample_balances "alice" "GME" + 4 /\
  book_assets bid_me3 "GME" = 2.
Proof. vm_compute. done. Qed.

Abbreviation bid_market := (MarketSystem.market (I := ws) (C := ws) (D := list db_entry) (L := ws)
  (P := list Trade) (Q := list TopOrderBookLevelAggregates)).

(** Sends that are checked by evaluation. *)
Lemma one_send (w w' : ws) id m : send w id m fmt_binary = (w', true) -> sends w w' id [m].
Proof. exact (sends_of_law _ _ _ _ _ _ true websocket_send_law). Qed.

Abbreviation bid_trading := (trading (I := ws) (C := ws) (D := list db_entry) (L := ws)
  (P := list Trade) (Q := list TopOrderBookLevelAggregates)).
Abbreviation bid_step := (trading_step "UAT" exec_id sample_env).

(** Bob's order comes to rest. *)
Lemma bob_rests :
  rtc bid_step (mkTrading (as_market day0) unoccupied) (mkTrading (mkMarket bid_om1 bid_me1 [] []) unoccupied).
Proof.
  change (as_market day0) with (mkMarket day_om0 day_me0 [] [] : bid_market).
  eapply rtc_l.
  { apply ts_market. eapply (ms_request _ _ _ day_om0 day_me0 [] [] 0 (serialize_container (CNewOrderSingle day_bob))
      (CNewOrderSingle day_bob) bid_om1 [serialize_container bob_numbered]);
      [vm_compute; reflexivity|exact day_bob_ok| |vm_compute; reflexivity|].
    - apply websocket_up; [eexists; vm_compute; reflexivity|done].
    - apply one_send. vm_compute. reflexivity. }
  eapply rtc_l; [|apply rtc_refl].
  apply ts_market. eapply (ms_engine _ _ _ bid_om1 day_me0 [] [] (serialize_container bob_numbered) bob_numbered bid_me1 []);
    [vm_compute; reflexivity| |vm_compute; reflexivity|vm_compute; reflexivity|].
  - apply websocket_up; [eexists; vm_compute; reflexivity|done].
  - apply (eq_rect (inbound_server day_me0) (fun w => sends (inbound_server day_me0) w 1 []) (sends_nil _ _)).
    vm_compute. reflexivity.
Qed.

(** Alice's bid: the question, the answer, the decision. *)
Definition alice_says : string := serialize_container (CNewOrderSingle alice_market).

Lemma alice_asks :
  rtc bid_step (mkTrading (mkMarket bid_om1 bid_me1 [] []) unoccupied)
    (mkTrading (mkMarket bid_om2 bid_me2 [] []) (answered alice_market alice_says 0 quoted)).
Proof.
  eapply rtc_l.
  { apply (ts_ask _ _ _ bid_om1 bid_me1 [] [] 0 alice_says alice_market); [vm_compute; reflexivity| |].
    - do 3 (split; [done|]). split; [split; vm_compute; done|done].
    - exists 7, 2007. split; [|split]; vm_compute; reflexivity. }
  eapply rtc_l.
  { eapply (ts_answer _ _ _ bid_om1 bid_me1 [] [] _ (mkFillCostQuery "GME" 4 ask) bid_me2 quoted);
      [vm_compute; reflexivity| |vm_compute; reflexivity|].
    - apply websocket_up; [eexists; vm_compute; reflexivity|done].
    - apply one_send. vm_compute. reflexivity. }
  eapply rtc_l; [|apply rtc_refl]. by apply ts_om_idle.
Qed.

Lemma alice_decided :
  bid_step (mkTrading (mkMarket bid_om2 bid_me2 [] []) (answered alice_market alice_says 0 quoted))
    (mkTrading (mkMarket bid_om3 bid_me2 [serialize_container alice_numbered] []) unoccupied).
Proof.
  eapply (ts_decide _ _ _ bid_om2 bid_me2 [] [] alice_market alice_says 0 quoted
    (CFillCostResponse (mkFillCostResponse (Some 380))) answered_client bid_om3 [serialize_container alice_numbered]).
  - eexists. split; [vm_compute; reflexivity|vm_compute; reflexivity].
  - apply websocket_up; [eexists; vm_compute; reflexivity|done].
  - vm_compute. reflexivity.
  - vm_compute. reflexivity.
  - apply one_send. vm_compute. reflexivity.
Qed.

(** The order is executed and its trade settled. *)
Lemma alice_buys :
  rtc bid_step (mkTrading (mkMarket bid_om3 bid_me2 [serialize_container alice_numbered] []) unoccupied)
    (mkTrading (mkMarket bid_om4 bid_me3 [] []) unoccupied).
Proof.
  assert (exists m, bid_trades = [m] /\ send (inbound_server bid_me2) 1 m fmt_binary = (inbound_server bid_me3, true) /\
    process_response "UAT" exec_id bid_om3 m = Ok bid_om4) as (m & Hm & Hs & Hr)
    by (eexists; split; [vm_compute; reflexivity|split; vm_compute; reflexivity]).
  eapply rtc_l.
  { apply ts_market. eapply (ms_engine _ _ _ bid_om3 bid_me2 [] [] (serialize_container alice_numbered) alice_numbered bid_me3 [m]);
      [vm_compute; reflexivity| |vm_compute; reflexivity|vm_compute; reflexivity|by apply one_send].
    apply websocket_up; [eexists; vm_compute; reflexivity|done]. }
  eapply rtc_l; [|apply rtc_refl]. apply ts_market. by apply ms_response.
Qed.

Lemma market_bids_conserve_witness :
  let users := users_of day_om0 in
  let start a := OrderSettlement.total users sample_balances a in
  let held a := OrderSettlement.total users (balance_checker bid_om4) a in
  balances_wf (balance_checker bid_om4) /\ (forall a, held a <= start a) /\
  (([] : list string) = [] -> ([] : list string) = [] ->
     (forall a, held a + book_assets bid_me3 a = start a) /\
     forall sym o, (sym, o) ∈ resting_orders (limit_order_books bid_me3) ->
       exists i, order_info_map (orders bid_om4) !! o_order_id o = Some i /\
         oi_sender_comp_id i = o_trader_id o /\ oi_symbol i = sym /\ oi_side i = o_side o /\
         oi_price i = Some (o_price o) /\ oi_leaves_qty i = o_quantity o).
Proof.
  apply (market_bids_conserve "UAT" exec_id sample_env day0
    (mkTrading (mkMarket bid_om4 bid_me3 [] [] : bid_market) unoccupied)).
  - exact sample_env_ok.
  - exact day_start.
  - etrans; [exact bob_rests|]. etrans; [exact alice_asks|]. eapply rtc_l; [exact alice_decided|exact alice_buys].
Defined.
