(* ===== verification/OrderPath.v ===== *)
(** * The way of an order

    A limit order from the call in the trader's program to the book: the client SDK
    makes a FIX message of it, the gateway a container, the order manager reserves
    what it may cost and gives it an id, and the matching engine executes it.  The
    theorems of the components are put together at the messages that pass between
    them; the order manager and the engine are in any state that the transition
    system of [MarketSystem] can reach with no request under way. *)

From S2P Require Import Prelude Core Doubles Fix Messaging Concurrency Transport Gateway FixClient.
From S2P Require Import OrderedMap LimitOrderBook BookSpec Matching BookOps BookTheorems MatchingEngine EngineTheorems BalanceChecker.
From S2P Require Import OrderManager OrderValidation OrderSettlement Inflight MarketFlow MarketSystem MarketRun.
From Stdlib Require Import ZArith Lia Ascii String.
From stdpp Require Import base option list gmap strings fin_maps.

Open Scope Z_scope.

Lemma to_i32_range d z : to_i32 d = Ok z -> INT_MIN <= z <= INT_MAX.
Proof.
  unfold to_i32. destruct d as [s|s| |s m e]; try done; [intros [= <-]; unfold INT_MIN, INT_MAX; lia|].
  intros Hz. destruct (in_i32 _) eqn:E; [|done]. injection Hz as <-. unfold in_i32 in E. lia.
Qed.

Section Path.
Context {FC FG G I C D L P Q : Type} `{FixLibraryLaws} `{OutboundClientLaws G}.
Context `{FixSessionLaws FC} `{FixSessionLaws FG}.
Context `{InboundServer I} `{OutboundClientLaws C} `{OrderManagerDatabase D}.
Context `{InboundServerLaws L} {tpub : Publisher Trade P} {spub : Publisher TopOrderBookLevelAggregates Q}.
Context `{CodecFaithful} (SERVER_NAME : string) (exec_ids : nat -> string) (env : Env).
Implicit Types (fc : FixClient FC) (g : Gateway G FG) (om : OrderManager I C D) (me : MatchingEngine L P Q).

(** What the gateway makes of the trader's call. *)
Definition limit_request (sender target ticker : string) (side : OrderSide) (qty price id : Z)
    : NewOrderSingleContainer :=
  mkNewOrder sender target None id ticker (core_side side) qty limit (Some price) gtc.

(** The order is executed by price-time priority against the other side of its book,
    what is left of it rests, and its trades are announced. *)
Definition executes me (c : NewOrderSingleContainer) (id price : Z) : Prop :=
  exists me' lob lob' ts fs left sent,
    process_container env me (CNewOrderSingle c) = Ok me' /\
    limit_order_books me !! no_symbol c = Some lob /\
    limit_order_books me' = <[no_symbol c := lob']> (limit_order_books me) /\
    match_orders (no_side c) price (no_order_qty c) (orders_of lob (opposite (no_side c)))
      = (fs, orders_of lob' (opposite (no_side c)), left) /\
    orders_of lob' (no_side c) =
      rest_order (mkOrder id price left (no_side c) (no_sender_comp_id c)) (orders_of lob (no_side c)) /\
    Forall2 (trade_reports (no_symbol c) id (no_side c) (no_sender_comp_id c)) fs ts /\
    ts = sent ++ trade_events me' /\
    sends (inbound_server me) (inbound_server me') (order_response_connection_id me) (map trade_message sent).

(** The order manager has turned the request away, and no balance has changed; or it
    has given the order an id that no order had, has taken what the order reserves
    from its owner and from no other account, and has sent the order on. *)
Definition turned_away om om' (outs : list string) : Prop :=
  outs = [] /\ balance_checker om' = balance_checker om.

Definition taken_on om om' (gw : Z) (c : NewOrderSingleContainer) (id : Z) (outs : list string) : Prop :=
  outs = [serialize_container (CNewOrderSingle (with_order_id c id))] /\
  order_info_map (orders om) !! id = None /\
  order_info_map (orders om') = <[id := order_info_of (with_order_id c id) gw]> (order_info_map (orders om)) /\
  exists asset amount, reservation c None = Some (asset, amount) /\ 0 <= amount /\
    amount <= balance_of (balance_checker om) (no_sender_comp_id c) asset /\
    credited (balance_checker om) (no_sender_comp_id c) asset (- amount) (balance_checker om').

(** The order manager and the engine, on the container of a limit order. *)
Lemma request_taken_on {bids} om me rs live ps gw c price om' outs :
  env_ok env -> market_inv (bids := bids) (mkMarket om me [] rs) live [] ps -> no_price c = Some price ->
  admissible (CNewOrderSingle c) ->
  client_up (order_request_outbound_client om) (order_request_connection_id om) ->
  process_request SERVER_NAME exec_ids om gw (serialize_container (CNewOrderSingle c)) = Ok om' ->
  sends (order_request_outbound_client om) (order_request_outbound_client om')
    (order_request_connection_id om) outs ->
  turned_away om om' outs \/
  exists id, taken_on om om' gw c id outs /\ executes me (with_order_id c id) id price.
Proof.
  intros Henv Hinv Hprice Hadm Hup Hp Hsends.
  assert (deserialize_container (serialize_container (CNewOrderSingle c)) = Ok (CNewOrderSingle c)) as Hc.
  { unfold process_request in Hp. apply bind_ok in Hp as (c0 & Hc0 & _). by rewrite (deserialize_faithful _ _ Hc0) in Hc0. }
  destruct Hinv as [_ _ _ _ Hos Hled Heng Hev Hsym Hbk Hflow _]. simpl in *.
  destruct (process_request_effect_of _ _ _ _ _ _ _ _ Hos Hc Hadm Hup Hp Hsends)
    as (_ & _ & c' & sent & Heff & -> & Hsame).
  destruct (Hsame c eq_refl) as [->| ->].
  { inversion Heff; subst; try done. left. by split. }
  set (id := latest_assigned_order_id (orders om) + 1) in *. set (c1 := with_order_id c id) in *.
  remember (CNewOrderSingle c1) as o eqn:Eo.
  destruct Heff as [? Hbc _|c2 id' Hid Hpos Hnone Hu (Hlim & Hwt & Hmax & Hfit) Hv Hinf|]; [left; by split| |done].
  injection Eo as ->. simpl in Hid. injection Hid as <-. right. exists id.
  assert (balances_wf (balance_checker om)) as Hbw0 by apply Hled.
  destruct (validate_new_order_ok _ _ c1 None Hbw0 Hwt Hsym) as (bc0 & v & Hv' & Hok & _).
  rewrite Hv in Hv'. injection Hv' as <- <-.
  destruct (Hok eq_refl) as ((Hsy & Hqty & Hpp) & asset & amount & Hres & Ha0 & _ & Hle & Hcred & _).
  change (no_price c1) with (no_price c) in *. rewrite Hprice in *. simpl in Hpp.
  split.
  { split; [done|]. split; [done|]. split; [done|]. exists asset, amount. by split. }
  destruct (Hbk _ Hsy) as [lob Hlob]. destruct (ew_books _ Heng _ _ Hlob) as [Hbw _].
  assert (order_ok lob id (order_price c1) (no_order_qty c1) (no_sender_comp_id c1)) as Hoo.
  { split; try done.
    - apply (not_resting_fresh id _ _ lob Hbw Hlob). intros sym o Ho <-.
      destruct (fi_resting _ _ _ _ _ _ Hflow sym o Ho) as [Hl _].
      destruct (fi_live _ _ _ _ _ _ Hflow _ Hl). congruence.
    - right. unfold order_price. simpl. rewrite Hprice. simpl.
      pose proof (wt_price _ _ Hwt price Hprice). lia.
    - pose proof (wt_qty _ _ Hwt). lia. }
  destruct (new_order_executes env me c1 lob id Henv Heng eq_refl Hlob Hoo)
    as (me' & lob' & ts & fs & left & sent & Hproc & _ & Hb & Hm & Hr & HF & Hsplit & Hs).
  rewrite Hev in Hsplit. simpl in Hsplit. unfold order_price in *. simpl in *. rewrite Hprice in *. simpl in *.
  exists me', lob, lob', ts, fs, left, sent. by do 7 (split; [done|]).
Qed.
(** C4: the way of a limit order.  A connected trader whose call of [submit_limit_order]
    returned [true] has sent one FIX message; delivered to the gateway, it makes the
    gateway send exactly the container of that order to the order manager, under the
    session's names, with price and quantity in hundredths.  When the order manager has
    processed that text, either it has sent nothing on and changed no balance; or it
    has given the order a new id, has taken the amount that the order reserves from
    the trader's account, which covers it, and from no other, and has sent the order
    on; and then the engine, reading it, executes it by price-time priority in the
    book of its symbol, lets the rest of it rest there, and announces its trades. *)
Theorem order_reaches_book {bids} time gateway_exec fc g om me rs live ps gw sender target rest ticker side price qty id zp zq
    om' outs :
  is_connected fc = true -> _sessions fc = (sender, target) :: rest -> in_i32 id = true ->
  carried price -> convert_to_internal_price price = Ok zp -> zp <> INT_MAX ->
  carried qty -> convert_to_internal_quantity qty = Ok zq -> zq <> INT_MIN ->
  fits MAX_USERNAME_LENGTH sender = true ->
  (submit_limit_order time fc ticker price qty side GTC id).2 = true ->
  client_up (gw_client g) (gw_connection_id g) ->
  env_ok env -> market_inv (bids := bids) (mkMarket om me [] rs) live [] ps ->
  client_up (order_request_outbound_client om) (order_request_connection_id om) ->
  let c := limit_request sender target ticker side zq zp id in
  process_request SERVER_NAME exec_ids om gw (serialize_container (CNewOrderSingle c)) = Ok om' ->
  sends (order_request_outbound_client om) (order_request_outbound_client om')
    (order_request_connection_id om) outs ->
  (exists m g', fs_sent (_session (submit_limit_order time fc ticker price qty side GTC id).1) =
       fs_sent (_session fc) ++ [(m, sender, target)] /\
     onMessage_NewOrderSingle gateway_exec g (delivered (m, sender, target)) = Ok g' /\
     sends (gw_client g) (gw_client g') (gw_connection_id g) [serialize_container (CNewOrderSingle c)]) /\
  (turned_away om om' outs \/
   exists oid, taken_on om om' gw c oid outs /\ executes me (with_order_id c oid) oid zp).
Proof.
  intros Hcon Hses Hid Hcp Hzp Hpmax Hcq Hzq Hqmin Hfit Hsent Hgup Henv Hinv Hup c Hp Hsends. split.
  - pose proof (limit_order_arrives time gateway_exec fc g sender target rest ticker side price qty id zp zq
      Hcon Hses Hid Hcp Hzp Hcq Hzq) as Harr.
    unfold FixClient.arrives in Harr. rewrite Hsent in Harr. destruct Harr as (m & g' & Hm & Hh & Hf).
    exists m, g'. split; [done|]. split; [done|]. destruct Hf as (_ & _ & ok & Hok & Hs).
    specialize (Hgup (serialize_container (CNewOrderSingle c))). unfold c, limit_request in *.
    rewrite Hok in Hgup. simpl in Hgup. by subst ok.
  - assert (admissible (CNewOrderSingle c)) as Hadm.
    { apply to_i32_range in Hzp, Hzq. split; [done|]. split; [|split; [|done]].
      - split; simpl; [lia| |by eexists|done]. intros p [= <-]. lia.
      - simpl. congruence. }
    exact (request_taken_on om me rs live ps gw c zp om' outs Henv Hinv eq_refl Hadm Hup Hp Hsends).
Qed.
End Path.

(** ** A bid

    Alice bids 0.04 for ten shares: 4 times 1000 in the units of the exchange. *)
#[local] Existing Instances fix42 fix42_laws open_session open_session_laws toy_codec toy_codec_laws toy_codec_faithful.

Definition alice_bid : NewOrderSingleContainer := limit_request "alice" "EDUX" "GME" BUY 1000 4 7.
Definition exec_e (_ : nat) : string := "e"%string.

Definition alice_om : day_om :=
  match process_request "UAT" exec_e day_om0 0 (serialize_container (CNewOrderSingle alice_bid)) with
  | Ok om => om
  | Err _ => day_om0
  end.

Lemma order_reaches_book_witness :
  (exists m g', fs_sent (_session (submit_limit_order "t" sample_client "GME" (to_decimal 4) (of_int 10) BUY GTC 7).1) =
     fs_sent (_session sample_client) ++ [(m, "alice", "EDUX")]%string /\
   onMessage_NewOrderSingle "e" sample_gateway (delivered (m, "alice", "EDUX")%string) = Ok g' /\
   sends (gw_client sample_gateway) (gw_client g') 0 [serialize_container (CNewOrderSingle alice_bid)]) /\
  (turned_away day_om0 alice_om [serialize_container (CNewOrderSingle (with_order_id alice_bid 0))] \/
   exists oid, taken_on day_om0 alice_om 0 alice_bid oid
       [serialize_container (CNewOrderSingle (with_order_id alice_bid 0))] /\
     executes sample_env day_me0 (with_order_id alice_bid oid) oid 4).
Proof.
  refine (order_reaches_book "UAT" exec_e sample_env "t" "e" sample_client sample_gateway day_om0 day_me0 [] [] [] 0
    "alice" "EDUX" [] "GME" BUY (to_decimal 4) (of_int 10) 7 4 1000 alice_om _
    eq_refl eq_refl eq_refl _ _ _ _ _ _ eq_refl _ _ sample_env_ok (start_inv (bids := true) day0 day_start) _ _ _).
  - vm_compute. reflexivity.
  - vm_compute. reflexivity.
  - discriminate.
  - vm_compute. reflexivity.
  - vm_compute. reflexivity.
  - discriminate.
  - vm_compute. reflexivity.
  - apply websocket_up; [eexists; vm_compute; reflexivity|done].
  - apply websocket_up; [eexists; vm_compute; reflexivity|done].
  - vm_compute. reflexivity.
  - apply (sends_of_law _ _ _ _ _ fmt_binary true websocket_send_law). vm_compute. reflexivity.
Defined.
