(* ===== verification/PgArray.v ===== *)
(** * Array literals of the database client

    [parse_pg_array] and [build_pg_array] of [libs/database/database_client.h]: the
    text form in which PostgreSQL sends and takes the tickers of a server.  The loop
    of the parser runs on fuel; [parse_loop_fields] shows that one unit more than the
    length of the text is always enough, and what the loop computes. *)

From S2P Require Import Prelude.
From Stdlib Require Import ZArith Lia Ascii String.
From stdpp Require Import base option list strings sets.

Abbreviation chars := list_ascii_of_string (only parsing).
Abbreviation text := string_of_list_ascii (only parsing).

(** [s.find(c, pos)]; [None] is [npos]. *)
Fixpoint index_of (c : ascii) (l : list ascii) : option nat :=
  match l with
  | [] => None
  | x :: l' => if Ascii.eqb x c then Some 0%nat else S <$> index_of c l'
  end.

Definition find_from (c : ascii) (pos : nat) (l : list ascii) : option nat :=
  (fun i => pos + i)%nat <$> index_of c (drop pos l).

Definition dquote : ascii := "034".

(** [if (token.size() >= 2 && token.front() == QUOTE && token.back() == QUOTE)
    token = token.substr(1, token.size() - 2)]. *)
Definition unquote (token : list ascii) : list ascii :=
  if ((2 <=? length token)%nat && bool_decide (head token = Some dquote)
      && bool_decide (last token = Some dquote))%bool
  then take (length token - 2) (drop 1 token) else token.

Definition keep_token (result : list string) (token : list ascii) : list string :=
  match unquote token with
  | [] => result
  | t => result ++ [text t]
  end.

Fixpoint parse_loop (fuel : nat) (inner : list ascii) (pos : nat) (result : list string)
    : res (list string) :=
  match fuel with
  | O => Err OutOfFuel
  | S fuel' =>
      if (pos <=? length inner)%nat then
        let comma := find_from "," pos inner in
        let end_ := default (length inner) comma in
        let token := take (end_ - pos) (drop pos inner) in
        let result := keep_token result token in
        match comma with
        | None => Ok result
        | Some comma => parse_loop fuel' inner (comma + 1) result
        end
      else Ok result
  end.

Definition parse_pg_array_loop (pg_array : string) : res (list string) :=
  let l := chars pg_array in
  if ((length l <? 2)%nat || negb (bool_decide (head l = Some "{"%char)))%bool then Ok []
  else
    let inner := take (length l - 2) (drop 1 l) in
    match inner with
    | [] => Ok []
    | _ => parse_loop (S (length inner)) inner 0 []
    end.

(** The function that the queries use; the error case is unreachable, by
    [parse_pg_array_total]. *)
Definition parse_pg_array (pg_array : string) : list string :=
  match parse_pg_array_loop pg_array with Ok result => result | Err _ => [] end.

(** [for (i = 0; i < items.size(); ++i) { if (i > 0) arr += ','; arr += items[i]; }]. *)
Fixpoint build_loop (i : nat) (items : list string) (arr : string) : string :=
  match items with
  | [] => arr
  | item :: items' =>
      let arr := if (0 <? i)%nat then (arr +:+ ",")%string else arr in
      build_loop (S i) items' (arr +:+ item)%string
  end.

Definition build_pg_array (items : list string) : string :=
  (build_loop 0 items "{" +:+ "}")%string.

(** ** Reference: the fields between the commas *)
Fixpoint split_on (c : ascii) (l : list ascii) : list (list ascii) :=
  match l with
  | [] => [[]]
  | x :: l' =>
      if Ascii.eqb x c then [] :: split_on c l'
      else match split_on c l' with
           | [] => [[x]]
           | f :: fs => (x :: f) :: fs
           end
  end.

Definition fields (inner : list ascii) : list string :=
  map text (List.filter (fun t => negb (Nat.eqb (length t) 0)) (map unquote (split_on "," inner))).

(** A name that PostgreSQL prints without quotes and that the two functions keep:
    not empty, printable, without blank, comma, brace, quote and backslash, and
    not the word that stands for a null. *)
Definition plain_char (c : ascii) : bool :=
  let n := N_of_ascii c in
  ((33 <=? n)%N && (n <=? 126)%N && negb (bool_decide (c ∈ [","; "{"; "}"; dquote; "\"]%char)))%bool.

Definition plain_name (s : string) : bool :=
  (negb (String.eqb s "") && forallb plain_char (chars s)
   && negb (forallb (fun p => Ascii.eqb (Ascii.ascii_of_N (N.lor (N_of_ascii p.1) 32)) p.2)
              (zip (chars s) (chars "null")) && (String.length s =? 4)%nat))%bool.

(** The literal of a list of plain names. *)
Definition literal (items : list string) : string :=
  ("{" +:+ String.concat "," items +:+ "}")%string.

(** ** The loop *)
Lemma index_of_split c l :
  match index_of c l with
  | None => split_on c l = [l]
  | Some i => split_on c l = take i l :: split_on c (drop (S i) l)
  end.
Proof.
  induction l as [|x l IH]; simpl; [done|].
  destruct (Ascii.eqb x c); simpl; [done|].
  destruct (index_of c l) as [i|]; simpl; by rewrite IH.
Qed.

Lemma index_of_lt c l i : index_of c l = Some i -> (i < length l)%nat.
Proof.
  revert i. induction l as [|x l IH]; intros i; simpl; [done|].
  destruct (Ascii.eqb x c); [intros [= <-]; lia|].
  destruct (index_of c l); simpl; intros [= <-]. specialize (IH _ eq_refl). lia.
Qed.

Lemma keep_token_fields result token :
  keep_token result token
  = result ++ map text (List.filter (fun t => negb (Nat.eqb (length t) 0)) [unquote token]).
Proof. unfold keep_token. destruct (unquote token); simpl; by rewrite ?app_nil_r. Qed.

Lemma parse_loop_fields fuel inner pos result :
  (pos <= length inner)%nat -> (length inner < pos + fuel)%nat ->
  parse_loop fuel inner pos result = Ok (result ++ fields (drop pos inner)).
Proof.
  revert pos result. induction fuel as [|fuel IH]; intros pos result Hpos Hf; [lia|].
  cbn [parse_loop]. rewrite (proj2 (Nat.leb_le _ _)) by done.
  unfold find_from, fields. pose proof (index_of_split "," (drop pos inner)) as Hs.
  destruct (index_of "," (drop pos inner)) as [i|] eqn:Ei; simpl; rewrite Hs; simpl.
  - pose proof (index_of_lt _ _ _ Ei) as Hi. rewrite length_drop in Hi.
    rewrite IH by lia. f_equal. rewrite keep_token_fields, <- app_assoc. f_equal.
    replace (pos + i - pos)%nat with i by lia.
    rewrite skipn_skipn. replace (S i + pos)%nat with (pos + i + 1)%nat by lia.
    unfold fields. simpl. by destruct (negb _).
  - rewrite keep_token_fields, firstn_all2 by (rewrite length_drop; lia). done.
Qed.

Lemma parse_pg_array_total s :
  parse_pg_array_loop s = Ok (parse_pg_array s) /\
  parse_pg_array s
  = match chars s with
    | (c :: _ :: _) as l =>
        if (Ascii.eqb c "{") then fields (take (length l - 2) (drop 1 l)) else []
    | _ => []
    end.
Proof.
  unfold parse_pg_array, parse_pg_array_loop.
  destruct (chars s) as [|c [|d l]]; [done|done|].
  set (inner := take _ _). replace (length (c :: d :: l) <? 2)%nat with false by done.
  cbn [orb head]. destruct (Ascii.eqb_spec c "{") as [->|Hc].
  - rewrite bool_decide_eq_true_2 by done. cbn [negb].
    clearbody inner. destruct inner as [|x inner]; [done|].
    by rewrite parse_loop_fields by (simpl; lia).
  - by rewrite bool_decide_eq_false_2 by congruence.
Qed.

(** ** Building and parsing again *)
Lemma append_nil s : (s +:+ "" = s)%string.
Proof. induction s as [|c s IH]; [done|]. by apply (f_equal (String c)) in IH. Qed.

Lemma build_loop_concat i items arr :
  build_loop i items arr
  = (arr +:+ (match i, items with S _, _ :: _ => "," | _, _ => "" end)
     +:+ String.concat "," items)%string.
Proof.
  revert i arr. induction items as [|x [|y items] IH]; intros i arr; simpl.
  - destruct i; simpl; by rewrite ?append_nil.
  - destruct i; simpl; by rewrite ?append_assoc.
  - specialize (IH (S i)). simpl in IH. rewrite IH. destruct i; simpl; by rewrite ?append_assoc.
Qed.

Lemma build_pg_array_literal items : build_pg_array items = literal items.
Proof. unfold build_pg_array, literal. rewrite build_loop_concat. simpl. by rewrite ?append_assoc. Qed.

Lemma split_on_app c f l : c ∉ f -> split_on c (f ++ c :: l) = f :: split_on c l.
Proof.
  induction f as [|x f IH]; intros Hc; simpl; [by rewrite Ascii.eqb_refl|].
  destruct (Ascii.eqb_spec x c) as [->|]; [set_solver|]. rewrite IH; [done|set_solver].
Qed.

Lemma split_on_none c f : c ∉ f -> split_on c f = [f].
Proof.
  induction f as [|x f IH]; intros Hc; simpl; [done|].
  destruct (Ascii.eqb_spec x c) as [->|]; [set_solver|]. rewrite IH; [done|set_solver].
Qed.

Lemma split_on_concat items :
  items <> [] -> Forall (fun s => ","%char ∉ chars s) items ->
  split_on "," (chars (String.concat "," items)) = map chars items.
Proof.
  induction items as [|x [|y items] IH]; intros Hne Hall; [done| |].
  - apply Forall_cons in Hall as [Hx _]. simpl. by apply split_on_none.
  - apply Forall_cons in Hall as [Hx Hall].
    change (String.concat "," (x :: y :: items)) with (x +:+ "," +:+ String.concat "," (y :: items))%string.
    rewrite !chars_app. change (chars "," ++ ?l) with (","%char :: l).
    rewrite split_on_app by done. by rewrite IH.
Qed.

Lemma plain_chars s c : plain_name s = true -> c ∈ chars s -> plain_char c = true.
Proof.
  unfold plain_name. intros [[_ Hs]%andb_true_iff _]%andb_true_iff Hc.
  rewrite forallb_forall in Hs. apply Hs. by apply list_elem_of_In.
Qed.

Lemma plain_no_comma s : plain_name s = true -> ","%char ∉ chars s.
Proof. intros Hs Hc. by apply (plain_chars s) in Hc. Qed.

Lemma plain_unquote s : plain_name s = true -> unquote (chars s) = chars s.
Proof.
  intros Hs. unfold unquote. destruct (bool_decide (head _ = _)) eqn:E; [|by rewrite andb_false_r].
  apply bool_decide_eq_true in E. destruct (chars s) as [|c l] eqn:El; [done|].
  injection E as ->. exfalso. pose proof (plain_chars s dquote Hs) as H.
  rewrite El in H. specialize (H ltac:(left)). done.
Qed.

Lemma plain_nonempty s : plain_name s = true -> length (chars s) <> 0%nat.
Proof. by destruct s. Qed.

Lemma plain_fields items :
  forallb plain_name items = true -> items <> [] ->
  fields (chars (String.concat "," items)) = items.
Proof.
  intros Hp Hne. rewrite forallb_forall in Hp. unfold fields. rewrite split_on_concat.
  2: done.
  2: { apply Forall_forall. intros x Hx. apply plain_no_comma, Hp. by apply list_elem_of_In. }
  clear Hne. induction items as [|x items IH]; [done|]. cbn [map List.filter].
  rewrite plain_unquote by (apply Hp; by left).
  destruct (Nat.eqb_spec (length (chars x)) 0) as [E|_].
  { by apply plain_nonempty in E; [|apply Hp; left]. }
  cbn [negb map]. rewrite string_of_list_ascii_of_string, IH; [done|]. intros y Hy. apply Hp. by right.
Qed.

Lemma between_braces (mid : list ascii) a b :
  take (length (a :: mid ++ [b]) - 2) (drop 1 (a :: mid ++ [b])) = mid.
Proof.
  change (drop 1 (?x :: ?l)) with l. cbn [length]. rewrite length_app. cbn [length].
  rewrite take_app_le by lia. by rewrite firstn_all2 by lia.
Qed.

Lemma parse_literal items :
  forallb plain_name items = true -> parse_pg_array (literal items) = items.
Proof.
  intros Hp. destruct (parse_pg_array_total (literal items)) as [_ ->].
  unfold literal. rewrite !chars_app. cbn [list_ascii_of_string app].
  set (mid := chars (String.concat "," items)).
  destruct (mid ++ ["}"%char]) as [|y l] eqn:E; [by destruct mid|].
  change (Ascii.eqb "{" "{") with true. cbn match. rewrite <- E.
  replace (take _ _) with mid by (symmetry; apply (between_braces mid)).
  destruct items as [|x items]; [done|]. by apply plain_fields.
Qed.

(** C37: parsing array literals.  The loop of [parse_pg_array] ends on every text, after
    at most as many iterations as the text has characters: it never runs out of the
    bound of the model, and what it returns are the non-empty fields between the
    commas with their quotes removed.  It returns what [build_pg_array] was given, for
    every list of plain names. *)
Theorem pg_array_parser :
  (forall s, parse_pg_array_loop s = Ok (parse_pg_array s)) /\
  (forall inner, inner <> [] -> parse_pg_array (text ("{"%char :: inner ++ ["}"%char])) = fields inner) /\
  (forall items, forallb plain_name items = true -> parse_pg_array (build_pg_array items) = items).
Proof.
  split_and!.
  - intros s. apply parse_pg_array_total.
  - intros inner Hne. destruct (parse_pg_array_total (text ("{"%char :: inner ++ ["}"%char]))) as [_ ->].
    rewrite list_ascii_of_string_of_list_ascii.
    destruct (inner ++ ["}"%char]) as [|y l] eqn:E; [by destruct inner|].
    change (Ascii.eqb "{" "{") with true. cbn match. rewrite <- E.
    f_equal. apply (between_braces inner).
  - intros items Hp. rewrite build_pg_array_literal. by apply parse_literal.
Qed.
