(* ===== verification/Postgres.v ===== *)
(** * The core database and its transactions

    The tables of [scripts/db_scripts/init_postgresql.sql] with their keys, references
    and checks, the SQL statements of [libs/database/database_client.h] as functions
    on them, and the transactions in which the client runs the statements.  A table is
    a finite map from its primary key, so the key is unique by construction; the other
    constraints are checked by each statement, which fails as the server does.

    What PostgreSQL decides by itself is the interface [Postgres]: the order of the
    rows of a query without ORDER BY, the texts of its errors, the text form of arrays
    and the limit of a VARCHAR, and which requests fail for reasons outside the data
    (a lost connection, a deadlock, a full disk).  A failed COMMIT may have been
    applied all the same.  Sequences are not rolled back. *)

From S2P Require Import Prelude Core PgArray.
From Stdlib Require Import ZArith Lia Ascii String.
From stdpp Require Import base option list gmap strings sets fin_maps fin_sets.

Open Scope Z_scope.

(** ** Tables *)
Record UserRec := mkUserRec { us_name : string; us_password : string }.

Record ServerRec := mkServerRec {
  sv_name : string;
  sv_admin : option Z;
  sv_tickers : option (list string);
  sv_description : option string;
  sv_initial_usd : Z
}.

Record MachineRec := mkMachineRec { mc_name : string; mc_ip : string }.

Record Tables := mkTables {
  t_users : gmap Z UserRec;                    (** user_id *)
  t_servers : gmap Z ServerRec;                (** server_id *)
  t_allowlist : gset (Z * Z);                  (** server_id, user_id *)
  t_balances : gmap (Z * string * Z) Z;        (** user_id, symbol, server_id *)
  t_init_bot : gmap (Z * Z) Z;                 (** user_id, server_id *)
  t_machines : gmap Z MachineRec;              (** machine_id *)
  t_services : gmap (Z * Z * Z) string;        (** server_id, machine_id, port *)
  t_initial_usd_column : bool                  (** the column servers.initial_usd exists *)
}.

#[export] Instance UserRec_eq_dec : EqDecision UserRec.
Proof. solve_decision. Defined.
#[export] Instance ServerRec_eq_dec : EqDecision ServerRec.
Proof. solve_decision. Defined.

(** The counters behind SERIAL. *)
Record Sequences := mkSequences { users_seq : Z; servers_seq : Z }.

Inductive DbError :=
  | UniqueViolation | ForeignKeyViolation | CheckViolation | ValueTooLong
  | InvalidArray | InvalidEnum | SequenceExhausted | MissingParameter | UndefinedColumn
  | UndefinedTable
  | UnexpectedRows   (** pqxx: a query for one value did not return one row *)
  | NullConversion   (** pqxx: a null read as a value *)
  | BadExpectedAccess. (** [value()] of an unexpected *)

Definition printable (s : string) : bool :=
  forallb (fun c => (32 <=? N_of_ascii c)%N && (N_of_ascii c <=? 126)%N) (list_ascii_of_string s).

Class Postgres := {
  row_order : nat -> forall A : Type, list A -> list A;
  fault : nat -> option (string * bool);
  error_text : DbError -> string;
  varchar_in : nat -> string -> option string;
  array_in : string -> option (list string);
  array_out : list string -> string;
  row_order_perm : forall n A (l : list A), row_order n A l ≡ₚ l;
  varchar_in_fits : forall n s,
    printable s = true -> (String.length s <= n)%nat -> varchar_in n s = Some s;
  array_in_plain : forall items,
    forallb plain_name items = true -> array_in (literal items) = Some items;
  array_out_plain : forall items,
    forallb plain_name items = true -> array_out items = literal items
}.

(** ** Updates of one table *)
Definition set_users f t := mkTables (f (t_users t)) (t_servers t) (t_allowlist t) (t_balances t)
  (t_init_bot t) (t_machines t) (t_services t) (t_initial_usd_column t).
Definition set_servers f t := mkTables (t_users t) (f (t_servers t)) (t_allowlist t) (t_balances t)
  (t_init_bot t) (t_machines t) (t_services t) (t_initial_usd_column t).
Definition set_allowlist f t := mkTables (t_users t) (t_servers t) (f (t_allowlist t)) (t_balances t)
  (t_init_bot t) (t_machines t) (t_services t) (t_initial_usd_column t).
Definition set_balances f t := mkTables (t_users t) (t_servers t) (t_allowlist t) (f (t_balances t))
  (t_init_bot t) (t_machines t) (t_services t) (t_initial_usd_column t).
Definition set_init_bot f t := mkTables (t_users t) (t_servers t) (t_allowlist t) (t_balances t)
  (f (t_init_bot t)) (t_machines t) (t_services t) (t_initial_usd_column t).
Definition set_services f t := mkTables (t_users t) (t_servers t) (t_allowlist t) (t_balances t)
  (t_init_bot t) (t_machines t) (f (t_services t)) (t_initial_usd_column t).

(** ** Statements

    A statement that changes the tables gives the new tables and what it returns, or
    the constraint that it breaks. *)
Definition Stmt A := Tables -> Sequences -> Sequences * ((Tables * A) + DbError).

Definition has_user (id : Z) (t : Tables) : bool := bool_decide (is_Some (t_users t !! id)).
Definition has_server (id : Z) (t : Tables) : bool := bool_decide (is_Some (t_servers t !! id)).

(** No row of the map satisfies the test. *)
Definition none_of {K V} `{Countable K} (P : K -> V -> bool) (m : gmap K V) : bool :=
  forallb (fun kv => negb (P kv.1 kv.2)) (map_to_list m).

Section Statements.
Context `{Postgres}.

(** INSERT INTO users (username, password) ... RETURNING user_id, username. *)
Definition insert_users (username password : string) : Stmt (list (Z * string)) := fun t q =>
  let id := users_seq q + 1 in
  let q' := mkSequences id (servers_seq q) in
  if INT_MAX <? id then (q, inr SequenceExhausted)
  else if (has_user id t || negb (none_of (fun _ u => String.eqb (us_name u) username) (t_users t)))%bool
  then (q', inr UniqueViolation)
  else (q', inl (set_users <[id := mkUserRec username password]> t, [(id, username)])).

(** A text given for VARCHAR(10)[]. *)
Definition tickers_in (arr : string) : (list string) + DbError :=
  match array_in arr with
  | None => inr InvalidArray
  | Some items =>
      match mapM (varchar_in 10) items with
      | None => inr ValueTooLong
      | Some items => inl items
      end
  end.

(** INSERT INTO servers (...) ... RETURNING server_id, with or without a value for the
    column initial_usd. *)
Definition insert_servers (name : string) (admin : Z) (description arr : string)
    (initial_usd : option Z) : Stmt (list Z) := fun t q =>
  if (bool_decide (is_Some initial_usd) && negb (t_initial_usd_column t))%bool
  then (q, inr UndefinedColumn) else
  match tickers_in arr, varchar_in 255 description with
  | inr e, _ => (q, inr e)
  | _, None => (q, inr ValueTooLong)
  | inl tickers, Some description =>
      let id := servers_seq q + 1 in
      let q' := mkSequences (users_seq q) id in
      if INT_MAX <? id then (q, inr SequenceExhausted)
      else if (has_server id t || negb (none_of (fun _ s => String.eqb (sv_name s) name) (t_servers t)))%bool
      then (q', inr UniqueViolation)
      else if negb (has_user admin t) then (q', inr ForeignKeyViolation)
      else (q', inl (set_servers <[id := mkServerRec name (Some admin) (Some tickers)
                                           (Some description) (default 100000 initial_usd)]> t, [id]))
  end.

Definition pure_stmt {A} (f : Tables -> (Tables * A) + DbError) : Stmt A := fun t q => (q, f t).

(** INSERT INTO allowlist (server_id, user_id). *)
Definition insert_allowlist (server user : Z) : Stmt unit := pure_stmt (fun t =>
  if bool_decide ((server, user) ∈ t_allowlist t) then inr UniqueViolation
  else if negb (has_server server t && has_user user t)%bool then inr ForeignKeyViolation
  else inl (set_allowlist (fun a => {[ (server, user) ]} ∪ a) t, tt)).

Definition service_types : list string :=
  ["gateway"; "oms"; "me"; "mdp"; "oracle"; "deployment_server"]%string.

(** INSERT INTO services (machine_id, server_id, service_type, port). *)
Definition insert_services (machine server : Z) (type : string) (port : Z) : Stmt unit :=
  pure_stmt (fun t =>
  if negb (bool_decide (type ∈ service_types)) then inr InvalidEnum
  else if negb ((1 <=? port) && (port <=? 65535))%bool then inr CheckViolation
  else if bool_decide (is_Some (t_services t !! (server, machine, port))) then inr UniqueViolation
  else if negb (has_server server t && bool_decide (is_Some (t_machines t !! machine)))%bool
  then inr ForeignKeyViolation
  else inl (set_services <[(server, machine, port) := type]> t, tt)).

(** INSERT INTO balances; [do_nothing] is ON CONFLICT (...) DO NOTHING, and the result
    is the number of affected rows. *)
Definition insert_balances (do_nothing : bool) (user server : Z) (symbol : string) (balance : Z)
    : Stmt Z := pure_stmt (fun t =>
  match varchar_in 10 symbol with
  | None => inr ValueTooLong
  | Some symbol =>
      if bool_decide (is_Some (t_balances t !! (user, symbol, server)))
      then if do_nothing then inl (t, 0) else inr UniqueViolation
      else if negb (has_user user t && has_server server t)%bool then inr ForeignKeyViolation
      else inl (set_balances <[(user, symbol, server) := balance]> t, 1)
  end).

(** INSERT INTO init_bot_portfolio_balances ... ON CONFLICT DO UPDATE. *)
Definition upsert_init_bot (user server balance : Z) : Stmt unit := pure_stmt (fun t =>
  if negb (has_user user t && has_server server t)%bool then inr ForeignKeyViolation
  else inl (set_init_bot <[(user, server) := balance]> t, tt)).

(** UPDATE balances SET balance = ... *)
Definition update_balances (user server : Z) (symbol : string) (balance : Z) : Stmt unit :=
  pure_stmt (fun t => inl (set_balances (alter (fun _ => balance) (user, symbol, server)) t, tt)).

(** UPDATE servers SET description = ..., active_tickers = ... *)
Definition update_servers (server : Z) (description arr : string) : Stmt unit := pure_stmt (fun t =>
  match tickers_in arr, varchar_in 255 description with
  | inr e, _ => inr e
  | _, None => inr ValueTooLong
  | inl tickers, Some description =>
      inl (set_servers (alter (fun s => mkServerRec (sv_name s) (sv_admin s) (Some tickers)
                                          (Some description) (sv_initial_usd s)) server) t, tt)
  end).

(** DELETE FROM ... WHERE server_id = ... or user_id = ... *)
Definition delete_allowlist (server : Z) : Stmt unit := pure_stmt (fun t =>
  inl (set_allowlist (filter (fun k => k.1 <> server)) t, tt)).

Definition delete_balances_of_server (server : Z) : Stmt unit := pure_stmt (fun t =>
  inl (set_balances (filter (fun kv => kv.1.2 <> server)) t, tt)).

Definition delete_balances_of_user (user : Z) : Stmt unit := pure_stmt (fun t =>
  inl (set_balances (filter (fun kv => kv.1.1.1 <> user)) t, tt)).

Definition delete_services (server : Z) : Stmt unit := pure_stmt (fun t =>
  inl (set_services (filter (fun kv => kv.1.1.1 <> server)) t, tt)).

(** A server is referred to by allowlist and balances, which forbid its deletion, and
    by services and init_bot_portfolio_balances, whose rows go with it. *)
Definition delete_servers (server : Z) : Stmt unit := pure_stmt (fun t =>
  if (has_server server t &&
      (negb (none_of (fun k _ => k.2 =? server) (t_balances t)) ||
       negb (forallb (fun k => negb (k.1 =? server)) (elements (t_allowlist t)))))%bool
  then inr ForeignKeyViolation
  else inl (set_servers (delete server)
             (set_services (filter (fun kv => kv.1.1.1 <> server))
               (set_init_bot (filter (fun kv => kv.1.2 <> server)) t)), tt)).

Definition delete_users (user : Z) : Stmt unit := pure_stmt (fun t =>
  if (has_user user t &&
      (negb (none_of (fun k _ => k.1.1 =? user) (t_balances t)) ||
       negb (none_of (fun _ s => bool_decide (sv_admin s = Some user)) (t_servers t)) ||
       negb (forallb (fun k => negb (k.2 =? user)) (elements (t_allowlist t)))))%bool
  then inr ForeignKeyViolation
  else inl (set_users (delete user)
             (set_init_bot (filter (fun kv => kv.1.1 <> user)) t), tt)).
End Statements.

(** ** Transactions

    A connection: what is committed, what the open transaction has made of it, the
    sequences, the number of requests sent so far, and the client's cache of the
    answer of [servers_has_initial_usd_column]. *)
Record Conn := mkConn {
  stored : Tables;
  work : Tables;
  sequences : Sequences;
  requests : nat;
  m_has_servers_initial_usd_column : option bool
}.

(** The body of a [try] block: a value, or an exception with its text. *)
Inductive outcome (A : Type) :=
  | Returned (a : A)
  | Thrown (what : string).
Arguments Returned {A} a.
Arguments Thrown {A} what.

Definition Txn (A : Type) : Type := Conn -> outcome A * Conn.

#[export] Instance txn_ret : MRet Txn := fun A a c => (Returned a, c).
#[export] Instance txn_bind : MBind Txn := fun A B f m c =>
  match m c with
  | (Returned a, c') => f a c'
  | (Thrown e, c') => (Thrown e, c')
  end.

Definition throw {A} (e : string) : Txn A := fun c => (Thrown e, c).

(** [for (x : l) body(x)], each iteration with what the earlier ones left. *)
Fixpoint for_each {A} (f : A -> Txn unit) (l : list A) : Txn unit :=
  match l with
  | [] => mret tt
  | x :: l' => _ ← f x; for_each f l'
  end.

Section Transactions.
Context `{Postgres}.

Definition tick (c : Conn) : Conn :=
  mkConn (stored c) (work c) (sequences c) (S (requests c)) (m_has_servers_initial_usd_column c).

(** A request to the server: it may fail, whatever it asks. *)
Definition request {A} (f : Txn A) : Txn A := fun c =>
  match fault (requests c) with
  | Some (e, _) => (Thrown e, tick c)
  | None => f (tick c)
  end.

(** [pqxx::work txn{connection}] *)
Definition begin_work : Txn unit :=
  request (fun c => (Returned tt, mkConn (stored c) (stored c) (sequences c) (requests c)
                                    (m_has_servers_initial_usd_column c))).

(** [txn.commit()]; a transaction that ends without it is rolled back. *)
Definition commit : Txn unit := fun c =>
  let done := mkConn (work c) (work c) (sequences c) (S (requests c))
                (m_has_servers_initial_usd_column c) in
  match fault (requests c) with
  | Some (e, applied) => (Thrown e, if applied then done else tick c)
  | None => (Returned tt, done)
  end.

(** [txn.exec(...)] of a statement, and of a query. *)
Definition exec {A} (stmt : Stmt A) : Txn A := request (fun c =>
  match stmt (work c) (sequences c) with
  | (q, inl (t, a)) =>
      (Returned a, mkConn (stored c) t q (requests c) (m_has_servers_initial_usd_column c))
  | (q, inr e) =>
      (Thrown (error_text e),
       mkConn (stored c) (work c) q (requests c) (m_has_servers_initial_usd_column c))
  end).

Definition select {A} (query : Tables -> list A) : Txn (list A) := request (fun c =>
  (Returned (row_order (requests c) A (query (work c))), c)).

(** A query that names the column servers.initial_usd when [has_initial_usd]. *)
Definition select_servers {A} (has_initial_usd : bool) (query : Tables -> list A) : Txn (list A) :=
  request (fun c =>
    if (has_initial_usd && negb (t_initial_usd_column (work c)))%bool
    then (Thrown (error_text UndefinedColumn), c)
    else (Returned (row_order (requests c) A (query (work c))), c)).

(** [row["..."].as<T>()] *)
Definition as_ {A} (field : option A) : Txn A :=
  match field with Some a => mret a | None => throw (error_text NullConversion) end.

(** [try { ... } catch (const std::exception& e) { return std::unexpected{prefix + e.what()}; }] *)
Definition try_catch {A} (prefix : string) (body : Txn (A + string)) (c : Conn)
    : (A + string) * Conn :=
  match body c with
  | (Returned r, c') => (r, c')
  | (Thrown e, c') => (inr (prefix +:+ e)%string, c')
  end.

(** ** What a transaction can do

    [keeps P] holds of a body that turns any tables of a transaction that satisfy [P]
    into such tables. *)
Definition keeps {A} (P : Tables -> Prop) (m : Txn A) : Prop :=
  forall c, P (stored c) -> P (work c) -> P (stored (m c).2) /\ P (work (m c).2).

Lemma keeps_ret {A} P (a : A) : keeps P (mret a).
Proof. by intros c ? ?. Qed.

Lemma keeps_throw {A} P e : keeps P (@throw A e).
Proof. by intros c ? ?. Qed.

Lemma keeps_bind {A B} P (m : Txn A) (f : A -> Txn B) :
  keeps P m -> (forall a, keeps P (f a)) -> keeps P (m ≫= f).
Proof.
  intros Hm Hf c Hs Hw. specialize (Hm c Hs Hw). unfold mbind, txn_bind.
  destruct (m c) as [[a|e] c']; [|done]. destruct Hm. by apply Hf.
Qed.

Lemma keeps_if {A} P (b : bool) (m1 m2 : Txn A) :
  keeps P m1 -> keeps P m2 -> keeps P (if b then m1 else m2).
Proof. by destruct b. Qed.

Lemma keeps_for_each {A} P (f : A -> Txn unit) l :
  (forall x, x ∈ l -> keeps P (f x)) -> keeps P (for_each f l).
Proof.
  induction l as [|x l IH]; intros Hf; simpl; [apply keeps_ret|].
  apply keeps_bind; [apply Hf; left|]. intros _. apply IH. intros y Hy. apply Hf. by right.
Qed.

Lemma keeps_begin P : keeps P begin_work.
Proof. intros c Hs Hw. unfold begin_work, request. by destruct (fault _) as [[]|]. Qed.

Lemma keeps_commit P : keeps P commit.
Proof. intros c Hs Hw. unfold commit. by destruct (fault _) as [[? []]|]. Qed.

Lemma keeps_select {A} P (query : Tables -> list A) : keeps P (select query).
Proof. intros c Hs Hw. unfold select, request. by destruct (fault _) as [[]|]. Qed.

Lemma keeps_select_servers {A} P b (query : Tables -> list A) : keeps P (select_servers b query).
Proof.
  intros c Hs Hw. unfold select_servers, request. destruct (fault _) as [[]|]; [done|].
  by destruct (_ && _)%bool.
Qed.

Lemma keeps_as {A} P (field : option A) : keeps P (as_ field).
Proof. destruct field; [apply keeps_ret|apply keeps_throw]. Qed.

(** [stmt] turns tables with [P] into tables with [P]. *)
Definition preserves {A} (P : Tables -> Prop) (stmt : Stmt A) : Prop :=
  forall t q q' t' a, P t -> stmt t q = (q', inl (t', a)) -> P t'.

Lemma keeps_exec {A} P (stmt : Stmt A) : preserves P stmt -> keeps P (exec stmt).
Proof.
  intros Hstmt c Hs Hw. unfold exec, request. destruct (fault _) as [[]|]; [done|]. simpl.
  destruct (stmt _ _) as [q [[t a]|e]] eqn:E; [|done]. split; [done|]. by eapply Hstmt.
Qed.

Lemma keeps_try {A} P prefix (body : Txn (A + string)) c :
  keeps P body -> P (stored c) -> P (work c) -> P (stored (try_catch prefix body c).2).
Proof.
  intros Hb Hs Hw. destruct (Hb c Hs Hw) as [? _]. unfold try_catch.
  by destruct (body c) as [[]].
Qed.

(** ** Bodies that only read *)
Definition reads {A} (m : Txn A) : Prop :=
  forall c, stored (m c).2 = stored c /\ work (m c).2 = work c.

Lemma reads_ret {A} (a : A) : reads (mret a).
Proof. by intros c. Qed.
Lemma reads_throw {A} e : reads (@throw A e).
Proof. by intros c. Qed.
Lemma reads_bind {A B} (m : Txn A) (f : A -> Txn B) :
  reads m -> (forall a, reads (f a)) -> reads (m ≫= f).
Proof.
  intros Hm Hf c. specialize (Hm c). unfold mbind, txn_bind.
  destruct (m c) as [[a|e] c']; [|done]. simpl in Hm. destruct (Hf a c'), Hm. split; congruence.
Qed.
Lemma reads_select {A} (query : Tables -> list A) : reads (select query).
Proof. intros c. unfold select, request. by destruct (fault _) as [[]|]. Qed.
Lemma reads_select_servers {A} b (query : Tables -> list A) : reads (select_servers b query).
Proof.
  intros c. unfold select_servers, request. destruct (fault _) as [[]|]; [done|].
  by destruct (_ && _)%bool.
Qed.
Lemma reads_as {A} (field : option A) : reads (as_ field).
Proof. destruct field; [apply reads_ret|apply reads_throw]. Qed.
Lemma reads_for_each {A} (f : A -> Txn unit) l : (forall x, reads (f x)) -> reads (for_each f l).
Proof. intros Hf. induction l; simpl; [apply reads_ret|]. by apply reads_bind. Qed.

(** ** Successful runs *)
Lemma txn_returned {A B} (m : Txn A) (f : A -> Txn B) c b c' :
  (m ≫= f) c = (Returned b, c') <-> exists a c1, m c = (Returned a, c1) /\ f a c1 = (Returned b, c').
Proof.
  unfold mbind, txn_bind. split.
  - destruct (m c) as [[a|e] c1]; [|done]. eauto.
  - by intros (a & c1 & -> & ?).
Qed.

Lemma begin_returned c u c' :
  begin_work c = (Returned u, c') ->
  stored c' = stored c /\ work c' = stored c /\ sequences c' = sequences c /\
  m_has_servers_initial_usd_column c' = m_has_servers_initial_usd_column c.
Proof. unfold begin_work, request. destruct (fault _) as [[]|]; [done|]. intros E. by simplify_eq/=. Qed.

Lemma commit_returned c u c' :
  commit c = (Returned u, c') ->
  stored c' = work c /\ work c' = work c /\ sequences c' = sequences c /\
  m_has_servers_initial_usd_column c' = m_has_servers_initial_usd_column c.
Proof. unfold commit. destruct (fault _) as [[]|]; [done|]. intros E. by simplify_eq/=. Qed.

Lemma select_returned {A} (query : Tables -> list A) c rows c' :
  select query c = (Returned rows, c') ->
  c' = tick c /\ rows ≡ₚ query (work c).
Proof.
  unfold select, request. destruct (fault _) as [[]|]; [done|]. intros [= <- <-].
  split; [done|]. apply row_order_perm.
Qed.

Lemma select_servers_returned {A} b (query : Tables -> list A) c rows c' :
  select_servers b query c = (Returned rows, c') ->
  c' = tick c /\ rows ≡ₚ query (work c) /\ (b = true -> t_initial_usd_column (work c) = true).
Proof.
  unfold select_servers, request. destruct (fault _) as [[]|]; [done|]. simpl.
  destruct b, (t_initial_usd_column _) eqn:E; simpl; intros [= <- <-];
    (split; [done|]; split; [apply row_order_perm|done]).
Qed.

Lemma exec_returned {A} (stmt : Stmt A) c a c' :
  exec stmt c = (Returned a, c') ->
  stmt (work c) (sequences c) = (sequences c', inl (work c', a)) /\ stored c' = stored c /\
  m_has_servers_initial_usd_column c' = m_has_servers_initial_usd_column c.
Proof.
  unfold exec, request. destruct (fault _) as [[]|]; [done|]. simpl.
  destruct (stmt _ _) as [q [[t x]|e]] eqn:E; [|done]. intros [= <- <-]. done.
Qed.

Lemma as_returned {A} (field : option A) c a c' :
  as_ field c = (Returned a, c') -> field = Some a /\ c' = c.
Proof. unfold as_, mret, txn_ret, throw. destruct field; intros E; by simplify_eq/=. Qed.

Lemma try_inl {A} prefix (body : Txn (A + string)) c a c' :
  try_catch prefix body c = (inl a, c') <-> body c = (Returned (inl a), c').
Proof. unfold try_catch. destruct (body c) as [[r|e] c1]; split; intros; simplify_eq/=; done. Qed.

(** ** Uncommitted work *)
Definition uncommitted {A} (m : Txn A) : Prop := forall c, stored (m c).2 = stored c.

Lemma uncommitted_ret {A} (a : A) : uncommitted (mret a).
Proof. by intros c. Qed.
Lemma uncommitted_throw {A} e : uncommitted (@throw A e).
Proof. by intros c. Qed.
Lemma uncommitted_bind {A B} (m : Txn A) (f : A -> Txn B) :
  uncommitted m -> (forall a, uncommitted (f a)) -> uncommitted (m ≫= f).
Proof.
  intros Hm Hf c. specialize (Hm c). unfold mbind, txn_bind.
  destruct (m c) as [[a|e] c']; [|done]. simpl in Hm. rewrite <- Hm. apply Hf.
Qed.
Lemma uncommitted_exec {A} (stmt : Stmt A) : uncommitted (exec stmt).
Proof.
  intros c. unfold exec, request. destruct (fault _) as [[]|]; [done|]. simpl.
  by destruct (stmt _ _) as [q [[t x]|e]].
Qed.
Lemma uncommitted_begin : uncommitted begin_work.
Proof. intros c. unfold begin_work, request. by destruct (fault _) as [[]|]. Qed.
Lemma uncommitted_reads {A} (m : Txn A) : reads m -> uncommitted m.
Proof. intros Hm c. apply Hm. Qed.
Lemma uncommitted_for_each {A} (f : A -> Txn unit) l :
  (forall x, uncommitted (f x)) -> uncommitted (for_each f l).
Proof. intros Hf. induction l; simpl; [apply uncommitted_ret|]. by apply uncommitted_bind. Qed.

(** A COMMIT that was the last request and was applied although it was reported as
    failed: the only way in which an error is returned and something has changed. *)
Definition in_doubt (c : Conn) : Prop := exists e, fault (pred (requests c)) = Some (e, true).

(** [m] changes what is stored only if it returns a value that is not an error, or
    leaves the commit in doubt. *)
Definition atomic {A} (m : Txn (A + string)) : Prop :=
  forall c, match m c with
            | (Returned (inl _), _) => True
            | (_, c') => stored c' = stored c \/ in_doubt c'
            end.

Lemma atomic_uncommitted {A} (m : Txn (A + string)) : uncommitted m -> atomic m.
Proof. intros Hm c. specialize (Hm c). destruct (m c) as [[[]|] c']; auto. Qed.

Lemma atomic_bind {A B} (m : Txn A) (f : A -> Txn (B + string)) :
  uncommitted m -> (forall a, atomic (f a)) -> atomic (m ≫= f).
Proof.
  intros Hm Hf c. specialize (Hm c). unfold mbind, txn_bind.
  destruct (m c) as [[a|e] c1]; simpl in *; [|auto].
  specialize (Hf a c1). rewrite <- Hm. done.
Qed.

Lemma atomic_exec {A B} (stmt : Stmt A) (f : A -> Txn (B + string)) :
  (forall t q q' t' a, stmt t q = (q', inl (t', a)) -> atomic (f a)) -> atomic (exec stmt ≫= f).
Proof.
  intros Hf c. unfold mbind, txn_bind. pose proof (uncommitted_exec stmt c) as Hu.
  destruct (exec stmt c) as [[a|e] c1] eqn:E; simpl in *; [|auto].
  apply exec_returned in E as [E _]. specialize (Hf _ _ _ _ _ E c1). rewrite <- Hu. done.
Qed.

Lemma atomic_commit {A} (a : A) : atomic (_ ← commit; mret (inl a)).
Proof.
  intros c. unfold mbind, txn_bind, commit.
  destruct (fault (requests c)) as [[e []]|] eqn:E; simpl; [|auto|auto].
  right. by exists e.
Qed.

Lemma atomic_if {A} (b : bool) (m1 m2 : Txn (A + string)) :
  atomic m1 -> atomic m2 -> atomic (if b then m1 else m2).
Proof. by destruct b. Qed.

Lemma atomic_try {A} prefix (body : Txn (A + string)) c e c' :
  atomic body -> try_catch prefix body c = (inr e, c') -> stored c' = stored c \/ in_doubt c'.
Proof.
  intros Hb. specialize (Hb c). unfold try_catch.
  destruct (body c) as [[[]|] c1]; intros; simplify_eq/=; auto.
Qed.
End Transactions.

#[export] Hint Resolve keeps_ret keeps_throw keeps_bind keeps_if keeps_begin keeps_commit keeps_select
  keeps_select_servers keeps_as reads_ret reads_throw reads_bind reads_select
  reads_select_servers reads_as uncommitted_ret uncommitted_throw uncommitted_bind uncommitted_exec
  uncommitted_begin uncommitted_reads uncommitted_for_each atomic_uncommitted atomic_bind atomic_commit
  atomic_if : edux.

(** Take a successful run of a transaction apart. *)
Ltac txn_step :=
  match goal with
  | H : try_catch _ _ _ = (inl _, _) |- _ => apply try_inl in H
  | H : (mbind _ _) _ = (Returned _, _) |- _ => apply txn_returned in H as (? & ? & ? & H)
  | H : begin_work _ = (Returned _, _) |- _ => apply begin_returned in H as (? & ? & ? & ?)
  | H : commit _ = (Returned _, _) |- _ => apply commit_returned in H as (? & ? & ? & ?)
  | H : select _ _ = (Returned _, _) |- _ => apply select_returned in H as (? & ?)
  | H : select_servers _ _ _ = (Returned _, _) |- _ => apply select_servers_returned in H as (? & ? & ?)
  | H : exec _ _ = (Returned _, _) |- _ => apply exec_returned in H as (? & ? & ?)
  | H : as_ _ _ = (Returned _, _) |- _ => apply as_returned in H as (? & ?)
  | H : mret _ _ = (Returned _, _) |- _ => unfold mret, txn_ret in H
  end.
Ltac txn_inv := repeat (txn_step; simplify_eq/=).

(** ** A concrete server

    It returns rows in the order of the maps, refuses long texts, reads and writes
    arrays of plain names, and fails as [faults] says. *)
Definition sample_pg (faults : nat -> option (string * bool)) : Postgres.
Proof.
  refine {|
    row_order := fun _ _ l => l;
    fault := faults;
    error_text := fun _ => "error"%string;
    varchar_in := fun n s => if (String.length s <=? n)%nat then Some s else None;
    array_in := fun s => Some (parse_pg_array s);
    array_out := literal |}.
  - done.
  - intros n s _ Hn. by rewrite (proj2 (Nat.leb_le _ _)).
  - intros items Hp. by rewrite parse_literal.
  - done.
Defined.

Definition healthy : Postgres := sample_pg (fun _ => None).

(** Two users, one machine and no server. *)
Definition sample_tables : Tables :=
  mkTables {[ 1 := mkUserRec "alice" "pw1"; 2 := mkUserRec "bob" "pw2" ]} ∅ ∅ ∅ ∅
    {[ 1 := mkMachineRec "localhost" "127.0.0.1" ]} ∅ true.

Definition sample_conn : Conn := mkConn sample_tables sample_tables (mkSequences 2 0) 0 None.
