(* ===== verification/DatabaseClient.v ===== *)
(** * The database client: core database

    The operations of [DatabaseClient] in [libs/database/database_client.h] that work
    on the core database, each with its transaction, its early returns and its catch
    block.  [std::expected<T, std::string>] is [T + string].  An early return leaves
    the transaction without a commit, so its changes are lost. *)

From S2P Require Import Prelude Core Doubles PgArray Postgres.
From Stdlib Require Import ZArith Lia Ascii String.
From stdpp Require Import base option list gmap strings sets fin_maps fin_sets.

Open Scope Z_scope.

Record BalanceRow := mkBalanceRow { bw_symbol : string; bw_balance : Z }.
Record UserRow := mkUserRow { uw_user_id : Z; uw_username : string }.

Record ServerRow := mkServerRow {
  sw_server_id : Z;
  sw_admin_id : Z;
  sw_server_name : string;
  sw_admin_name : string;
  sw_active_tickers : list string;
  sw_description : string;
  sw_initial_usd : Z
}.

Record UserServerRow := mkUserServerRow {
  usw_server_id : Z;
  usw_server_name : string;
  usw_role : string;
  usw_active_tickers : list string;
  usw_description : string;
  usw_initial_usd : Z;
  usw_balances : list BalanceRow
}.

Record AccountDetailsRow := mkAccountDetailsRow {
  ad_server_id : Z;
  ad_server_name : string;
  ad_admin_name : string;
  ad_description : string;
  ad_active_tickers : list string;
  ad_role : string;
  ad_initial_usd : Z;
  ad_initial_bot_portfolio_balance : option Z;
  ad_balances : list BalanceRow
}.

Record MachineRow := mkMachineRow { mw_machine_id : Z; mw_machine_name : string; mw_ip : string }.
Record ServiceRow := mkServiceRow { svw_service_type : Service; svw_ip : string; svw_port : Z }.
Record ServiceEndpoint := mkServiceEndpoint { ep_ip : string; ep_port : Z }.
Record ServiceInsertRow := mkServiceInsertRow {
  si_machine_id : Z;
  si_service_type : Service;
  si_port : Z
}.

Record UserBalanceInfo := mkUserBalanceInfo {
  ubi_user_id : Z;
  ubi_username : string;
  ubi_balances : list BalanceRow
}.

(** ** Queries *)
(** SELECT symbol, balance FROM balances WHERE user_id = ... AND server_id = ... *)
Definition balances_of (user server : Z) (t : Tables) : list BalanceRow :=
  omap (fun kv => if ((kv.1.1.1 =? user) && (kv.1.2 =? server))%bool
                  then Some (mkBalanceRow kv.1.1.2 kv.2) else None) (map_to_list (t_balances t)).

(** SELECT user_id, username FROM users WHERE username = ... *)
Definition users_named (username : string) (t : Tables) : list UserRow :=
  omap (fun kv => if String.eqb (us_name kv.2) username
                  then Some (mkUserRow kv.1 (us_name kv.2)) else None) (map_to_list (t_users t)).

Definition users_with_password (username password : string) (t : Tables) : list UserRow :=
  omap (fun kv => if (String.eqb (us_name kv.2) username && String.eqb (us_password kv.2) password)%bool
                  then Some (mkUserRow kv.1 (us_name kv.2)) else None) (map_to_list (t_users t)).

(** SELECT ... FROM servers WHERE server_name = ... *)
Definition servers_named (server_name : string) (t : Tables) : list (Z * ServerRec) :=
  List.filter (fun kv => String.eqb (sv_name kv.2) server_name) (map_to_list (t_servers t)).

(** servers s JOIN users u ON s.admin_id = u.user_id *)
Definition with_admin (t : Tables) (kv : Z * ServerRec) : option (Z * ServerRec * (Z * string)) :=
  match sv_admin kv.2 with
  | None => None
  | Some a => match t_users t !! a with
              | None => None
              | Some u => Some (kv, (a, us_name u))
              end
  end.

(** SELECT user_id FROM allowlist WHERE server_id = ... *)
Definition allowed_users (server : Z) (t : Tables) : list Z :=
  omap (fun k => if k.1 =? server then Some k.2 else None) (elements (t_allowlist t)).

Definition is_allowed (server user : Z) (t : Tables) : bool :=
  bool_decide ((server, user) ∈ t_allowlist t).

Section Operations.
Context `{Postgres}.

(** [row["active_tickers"].as<std::string>("{}")] *)
Definition tickers_of (s : ServerRec) : list string :=
  parse_pg_array (match sv_tickers s with None => "{}" | Some items => array_out items end)%string.

Definition initial_usd_of (has_initial_usd : bool) (s : ServerRec) : Z :=
  if has_initial_usd then sv_initial_usd s else 100000.

Definition set_column_cache (b : bool) : Txn bool := fun c =>
  (Returned b, mkConn (stored c) (work c) (sequences c) (requests c) (Some b)).

Definition query_column : Txn bool :=
  res ← select (fun t => if t_initial_usd_column t then [1] else []);
  set_column_cache (negb (Nat.eqb (length res) 0)).

Definition servers_has_initial_usd_column : Txn bool := fun c =>
  match m_has_servers_initial_usd_column c with
  | Some b => (Returned b, c)
  | None => query_column c
  end.

(** ** Balances *)
Definition read_balance (user_id server_id : Z) (symbol : string) : Conn -> (Z + string) * Conn :=
  try_catch "Error faced when getting balance: " (
    _ ← begin_work;
    res ← select (fun t => match t_balances t !! (user_id, symbol, server_id) with
                           | Some b => [b] | None => [] end);
    balance ← match res with
              | [balance] => mret balance
              | _ => throw (error_text UnexpectedRows)
              end;
    _ ← commit;
    mret (inl balance)).

Definition read_balances (user_id server_id : Z) : Conn -> (list BalanceRow + string) * Conn :=
  try_catch "Error faced when getting balance: " (
    _ ← begin_work;
    res ← select (balances_of user_id server_id);
    _ ← commit;
    mret (inl res)).

Definition update_balance (user_id server_id : Z) (symbol : string) (balance : Z)
    : Conn -> (unit + string) * Conn :=
  try_catch "Error faced when updating balance: " (
    _ ← begin_work;
    _ ← exec (update_balances user_id server_id symbol balance);
    _ ← commit;
    mret (inl tt)).

Definition insert_balance (user_id server_id : Z) (symbol : string) (balance : Z)
    : Conn -> (unit + string) * Conn :=
  try_catch "Error inserting balance: " (
    _ ← begin_work;
    _ ← exec (insert_balances false user_id server_id symbol balance);
    _ ← commit;
    mret (inl tt)).

Definition upsert_init_bot_portfolio_balance (user_id server_id balance : Z)
    : Conn -> (unit + string) * Conn :=
  try_catch "Error upserting initial bot portfolio balance: " (
    _ ← begin_work;
    _ ← exec (upsert_init_bot user_id server_id balance);
    _ ← commit;
    mret (inl tt)).

(** ** Users *)
Definition authenticate_user (username password : string)
    : Conn -> (option UserRow + string) * Conn :=
  try_catch "Error authenticating user: " (
    _ ← begin_work;
    res ← select (users_with_password username password);
    _ ← commit;
    mret (inl (head res))).

Definition create_user (username password : string) : Conn -> (UserRow + string) * Conn :=
  try_catch "Error creating user: " (
    _ ← begin_work;
    res ← exec (insert_users username password);
    _ ← commit;
    match res with
    | [] => mret (inr "Failed to create user"%string)
    | (user_id, username) :: _ => mret (inl (mkUserRow user_id username))
    end).

Definition get_user (username : string) : Conn -> (option UserRow + string) * Conn :=
  try_catch "Error getting user: " (
    _ ← begin_work;
    res ← select (users_named username);
    _ ← commit;
    mret (inl (head res))).

Fixpoint resolve_user_ids_loop (ids : list Z) (usernames : list string) (c : Conn)
    : (list Z + string) * Conn :=
  match usernames with
  | [] => (inl ids, c)
  | uname :: usernames' =>
      match get_user uname c with
      | (inr e, c') => (inr e, c')
      | (inl None, c') => (inr ("User not found: " +:+ uname)%string, c')
      | (inl (Some u), c') => resolve_user_ids_loop (ids ++ [uw_user_id u]) usernames' c'
      end
  end.

Definition resolve_user_ids (usernames : list string) : Conn -> (list Z + string) * Conn :=
  resolve_user_ids_loop [] usernames.

(** ** Servers *)
Definition server_row (has_initial_usd : bool) (r : Z * ServerRec * (Z * string)) : ServerRow :=
  let '((id, s), (admin, admin_name)) := r in
  mkServerRow id admin (sv_name s) admin_name (tickers_of s) (default "" (sv_description s))%string
    (initial_usd_of has_initial_usd s).

Definition get_active_servers : Conn -> (list ServerRow + string) * Conn :=
  try_catch "Error getting active servers: " (
    _ ← begin_work;
    has_initial_usd ← servers_has_initial_usd_column;
    res ← select_servers has_initial_usd (fun t => omap (with_admin t) (map_to_list (t_servers t)));
    _ ← commit;
    mret (inl (map (server_row has_initial_usd) res))).

Definition get_server (server_name : string) : Conn -> (option ServerRow + string) * Conn :=
  try_catch "Error getting server: " (
    _ ← begin_work;
    has_initial_usd ← servers_has_initial_usd_column;
    res ← select_servers has_initial_usd (fun t => omap (with_admin t) (servers_named server_name t));
    _ ← commit;
    mret (inl (server_row has_initial_usd <$> head res))).

Definition get_server_active_symbols (server_name : string)
    : Conn -> (list string + string) * Conn :=
  try_catch "Error getting active symbols: " (
    _ ← begin_work;
    res ← select (servers_named server_name);
    _ ← commit;
    match res with
    | [] => mret (inl [])
    | (_, s) :: _ => mret (inl (tickers_of s))
    end).

Definition role_of (user_id : Z) (s : ServerRec) : string :=
  (if bool_decide (sv_admin s = Some user_id) then "admin" else "member")%string.

Definition is_member (user_id : Z) (t : Tables) (kv : Z * ServerRec) : bool :=
  (bool_decide (sv_admin kv.2 = Some user_id) || is_allowed kv.1 user_id t)%bool.

Fixpoint user_servers_loop (user_id : Z) (has_initial_usd : bool) (rows : list (Z * ServerRec))
    : Txn (list UserServerRow) :=
  match rows with
  | [] => mret []
  | (id, s) :: rows' =>
      bal_res ← select (balances_of user_id id);
      result ← user_servers_loop user_id has_initial_usd rows';
      mret (mkUserServerRow id (sv_name s) (role_of user_id s) (tickers_of s)
              (default "" (sv_description s))%string (initial_usd_of has_initial_usd s) bal_res :: result)
  end.

Definition get_user_servers (username : string) : Conn -> (list UserServerRow + string) * Conn :=
  try_catch "Error getting user servers: " (
    _ ← begin_work;
    user_res ← select (users_named username);
    match user_res with
    | [] => mret (inl [])
    | u :: _ =>
        let user_id := uw_user_id u in
        has_initial_usd ← servers_has_initial_usd_column;
        srv_res ← select_servers has_initial_usd
                    (fun t => List.filter (is_member user_id t) (map_to_list (t_servers t)));
        result ← user_servers_loop user_id has_initial_usd srv_res;
        _ ← commit;
        mret (inl result)
    end).

(** users u JOIN servers s ON s.server_name = ... JOIN users u_admin ... *)
Definition account_rows (username server_name : string) (t : Tables)
    : list (Z * (Z * ServerRec * (Z * string))) :=
  u ← users_named username t;
  kv ← List.filter (is_member (uw_user_id u) t) (servers_named server_name t);
  match with_admin t kv with None => [] | Some r => [(uw_user_id u, r)] end.

Definition get_account_details (username server_name : string)
    : Conn -> (option AccountDetailsRow + string) * Conn :=
  try_catch "Error getting account details: " (
    _ ← begin_work;
    has_initial_usd ← servers_has_initial_usd_column;
    res ← select_servers has_initial_usd (account_rows username server_name);
    match res with
    | [] => mret (inl None)
    | (user_id, ((server_id, s), (_, admin_name))) :: _ =>
        bal_res ← select (balances_of user_id server_id);
        bot_init_balance_res ← select (fun t => match t_init_bot t !! (user_id, server_id) with
                                                | Some b => [b] | None => [] end);
        _ ← commit;
        mret (inl (Some (mkAccountDetailsRow server_id (sv_name s) admin_name
          (default "" (sv_description s))%string (tickers_of s) (role_of user_id s)
          (initial_usd_of has_initial_usd s) (head bot_init_balance_res) bal_res)))
    end).

Definition insert_service_row (server_id : Z) (service : ServiceInsertRow) : Txn unit :=
  exec (insert_services (si_machine_id service) server_id
          (service_enum_to_str (si_service_type service)) (si_port service)).

Definition create_server_with_services (server_name : string) (admin_id : Z) (description : string)
    (symbols : list string) (allowlist_user_ids : list Z) (services : list ServiceInsertRow)
    (initial_usd : Z) : Conn -> (Z + string) * Conn :=
  try_catch "Error creating server: " (
    _ ← begin_work;
    let arr := build_pg_array symbols in
    has_initial_usd ← servers_has_initial_usd_column;
    res ← exec (insert_servers server_name admin_id description arr
                  (if (has_initial_usd : bool) then Some initial_usd else None));
    match res with
    | [] => mret (inr "Failed to create server"%string)
    | server_id :: _ =>
        _ ← for_each (fun uid => exec (insert_allowlist server_id uid)) allowlist_user_ids;
        _ ← for_each (insert_service_row server_id) services;
        _ ← commit;
        mret (inl server_id)
    end).

Definition create_server (server_name : string) (admin_id : Z) (description : string)
    (symbols : list string) (allowlist_user_ids : list Z) (initial_usd : Z)
    : Conn -> (Z + string) * Conn :=
  create_server_with_services server_name admin_id description symbols allowlist_user_ids []
    initial_usd.

Definition configure_server (server_name : string) (caller_id : Z) (description : string)
    (symbols : list string) (allowlist_user_ids : list Z) : Conn -> (bool + string) * Conn :=
  try_catch "Error configuring server: " (
    _ ← begin_work;
    srv_res ← select (servers_named server_name);
    match srv_res with
    | [] => mret (inl false)
    | (server_id, s) :: _ =>
        admin_id ← as_ (sv_admin s);
        if negb (admin_id =? caller_id) then mret (inl false)
        else
          let arr := build_pg_array symbols in
          _ ← exec (update_servers server_id description arr);
          _ ← exec (delete_allowlist server_id);
          _ ← for_each (fun uid => exec (insert_allowlist server_id uid)) allowlist_user_ids;
          _ ← commit;
          mret (inl true)
    end).

Definition delete_server (server_name : string) : Conn -> (bool + string) * Conn :=
  try_catch "Error deleting server: " (
    _ ← begin_work;
    srv_res ← select (servers_named server_name);
    match srv_res with
    | [] => mret (inl false)
    | (server_id, _) :: _ =>
        _ ← exec (delete_allowlist server_id);
        _ ← exec (delete_balances_of_server server_id);
        _ ← exec (delete_services server_id);
        _ ← exec (delete_servers server_id);
        _ ← commit;
        mret (inl true)
    end).

(** ** Machines and services *)
Definition query_machines : Conn -> (list MachineRow + string) * Conn :=
  try_catch "Error getting active servers: " (
    _ ← begin_work;
    res ← select (fun t => map (fun kv => mkMachineRow kv.1 (mc_name kv.2) (mc_ip kv.2))
                             (map_to_list (t_machines t)));
    _ ← commit;
    mret (inl res)).

(** services s JOIN servers sv ... JOIN machines m ... *)
Definition service_rows (t : Tables) : list (string * (string * string) * (string * Z)) :=
  omap (fun kv =>
          match t_servers t !! kv.1.1.1, t_machines t !! kv.1.1.2 with
          | Some sv, Some m => Some (sv_name sv, (mc_name m, mc_ip m), (kv.2, kv.1.2))
          | _, _ => None
          end) (map_to_list (t_services t)).

(** [service_str_to_enum(...).value()] throws on a name that it does not know. *)
Fixpoint service_rows_loop (rows : list (string * (string * string) * (string * Z)))
    : Txn (list ServiceRow) :=
  match rows with
  | [] => mret []
  | (_, (_, ip), (type, port)) :: rows' =>
      match service_str_to_enum type with
      | inr _ => throw (error_text BadExpectedAccess)
      | inl service_type =>
          result ← service_rows_loop rows';
          mret (mkServiceRow service_type ip port :: result)
      end
  end.

(** The statement has a parameter [$1] but is executed without any. *)
Definition query_services_all : Conn -> (list ServiceRow + string) * Conn :=
  try_catch "Error getting active servers: " (
    _ ← begin_work;
    res ← exec (pure_stmt (fun _ => inr MissingParameter));
    _ ← commit;
    result ← service_rows_loop res;
    mret (inl result)).

Definition query_services (machine_name : string) : Conn -> (list ServiceRow + string) * Conn :=
  try_catch ("Error getting services of machine " +:+ machine_name +:+ ": ")%string (
    _ ← begin_work;
    res ← select (fun t => List.filter (fun r => String.eqb r.1.2.1 machine_name) (service_rows t));
    _ ← commit;
    result ← service_rows_loop res;
    mret (inl result)).

Definition get_service_endpoint (server_name : string) (service_type : Service)
    : Conn -> (option ServiceEndpoint + string) * Conn :=
  try_catch ("Error getting service endpoint for " +:+ server_name +:+ ": ")%string (
    _ ← begin_work;
    res ← select (fun t => List.filter (fun r => (String.eqb r.1.1 server_name &&
                     String.eqb r.2.1 (service_enum_to_str service_type))%bool) (service_rows t));
    _ ← commit;
    mret (inl ((fun r => mkServiceEndpoint r.1.2.2 r.2.2) <$> head res))).

Definition insert_service (machine_id server_id : Z) (service_type : Service) (port : Z)
    : Conn -> (unit + string) * Conn :=
  try_catch "Error inserting service: " (
    _ ← begin_work;
    _ ← exec (insert_services machine_id server_id (service_enum_to_str service_type) port);
    _ ← commit;
    mret (inl tt)).

(** ** Members of a server and their balances *)
Definition get_users_by_server (server_id : Z) : Conn -> (list Z + string) * Conn :=
  try_catch "Error getting users by server: " (
    _ ← begin_work;
    res ← select (allowed_users server_id);
    _ ← commit;
    mret (inl res)).

(** [static_cast<std::int64_t>(initial_usd * decimal_to_int_multiplier *
    decimal_to_int_multiplier)], in doubles. *)
Definition usd_balance (initial_usd : Z) : Z :=
  match trunc_i64 (dmul (dmul (of_int initial_usd) decimal_to_int_multiplier)
                     decimal_to_int_multiplier) with
  | Ok balance => balance
  | Err _ => 0
  end.

Definition add_admin (admin_id : Z) (user_ids : list Z) : list Z :=
  if bool_decide (admin_id ∈ user_ids) then user_ids else user_ids ++ [admin_id].

Fixpoint insert_usd_loop (server_id balance : Z) (user_ids : list Z) (inserted_count : Z) : Txn Z :=
  match user_ids with
  | [] => mret inserted_count
  | user_id :: user_ids' =>
      affected_rows ← exec (insert_balances true user_id server_id "USD" balance);
      insert_usd_loop server_id balance user_ids' (inserted_count + affected_rows)
  end.

Definition ensure_initial_usd_balances (server_name : string) (initial_usd_amount : Z)
    : Conn -> (Z + string) * Conn :=
  try_catch "Error ensuring initial USD balances: " (
    _ ← begin_work;
    has_initial_usd ← servers_has_initial_usd_column;
    server_res ← select_servers has_initial_usd (servers_named server_name);
    match server_res with
    | [] => mret (inr ("Server not found: " +:+ server_name)%string)
    | (server_id, s) :: _ =>
        admin_id ← as_ (sv_admin s);
        let initial_usd := if (has_initial_usd : bool) then sv_initial_usd s else initial_usd_amount in
        allowlist_res ← select (allowed_users server_id);
        inserted_count ← insert_usd_loop server_id (usd_balance initial_usd)
                           (add_admin admin_id allowlist_res) 0;
        _ ← commit;
        mret (inl inserted_count)
    end).

Fixpoint users_balances_loop (server_id : Z) (user_ids : list Z) : Txn (list UserBalanceInfo) :=
  match user_ids with
  | [] => mret []
  | user_id :: user_ids' =>
      user_res ← select (fun t => match t_users t !! user_id with
                                  | Some u => [us_name u] | None => [] end);
      match user_res with
      | [] => users_balances_loop server_id user_ids'
      | username :: _ =>
          balance_res ← select (balances_of user_id server_id);
          result ← users_balances_loop server_id user_ids';
          mret (mkUserBalanceInfo user_id username balance_res :: result)
      end
  end.

Definition get_all_users_balances_for_server (server_name : string)
    : Conn -> (list UserBalanceInfo + string) * Conn :=
  try_catch "Error getting users and balances: " (
    _ ← begin_work;
    server_res ← select (servers_named server_name);
    match server_res with
    | [] => mret (inr ("Server not found: " +:+ server_name)%string)
    | (server_id, s) :: _ =>
        admin_id ← as_ (sv_admin s);
        allowlist_res ← select (allowed_users server_id);
        result ← users_balances_loop server_id (add_admin admin_id allowlist_res);
        _ ← commit;
        mret (inl result)
    end).

Definition delete_uat_data (user_ids server_ids : list Z) : Conn -> (unit + string) * Conn :=
  match user_ids, server_ids with
  | [], [] => fun c => (inl tt, c)
  | _, _ =>
      try_catch "Error deleting UAT data: " (
        _ ← begin_work;
        _ ← for_each (fun sid => exec (delete_allowlist sid)) server_ids;
        _ ← for_each (fun uid => exec (delete_balances_of_user uid)) user_ids;
        _ ← for_each (fun sid => exec (delete_servers sid)) server_ids;
        _ ← for_each (fun uid => exec (delete_users uid)) user_ids;
        _ ← commit;
        mret (inl tt))
  end.
End Operations.
