(* ===== verification/DatabaseTheorems.v ===== *)
(** * What the database client guarantees

    The integrity of the core database under every operation of the client, and the
    effect of the operations that manage users, servers, members and balances. *)

From S2P Require Import Prelude Core Doubles PgArray Postgres DatabaseClient.
From Stdlib Require Import ZArith Lia Ascii String.
From stdpp Require Import base option list gmap strings sets fin_maps fin_sets relations.

Open Scope Z_scope.

(** ** Integrity of the tables *)
Record integrity (t : Tables) : Prop := {
  names_unique : forall i j u v,
    t_users t !! i = Some u -> t_users t !! j = Some v -> us_name u = us_name v -> i = j;
  servers_unique : forall i j s r,
    t_servers t !! i = Some s -> t_servers t !! j = Some r -> sv_name s = sv_name r -> i = j;
  admin_exists : forall i s a,
    t_servers t !! i = Some s -> sv_admin s = Some a -> is_Some (t_users t !! a);
  allow_exists : forall s u,
    (s, u) ∈ t_allowlist t -> is_Some (t_servers t !! s) /\ is_Some (t_users t !! u);
  balance_exists : forall u sym s b,
    t_balances t !! (u, sym, s) = Some b -> is_Some (t_users t !! u) /\ is_Some (t_servers t !! s);
  init_bot_exists : forall u s b,
    t_init_bot t !! (u, s) = Some b -> is_Some (t_users t !! u) /\ is_Some (t_servers t !! s);
  service_exists : forall s m p ty,
    t_services t !! (s, m, p) = Some ty ->
    is_Some (t_servers t !! s) /\ is_Some (t_machines t !! m) /\ 1 <= p <= 65535 /\ ty ∈ service_types
}.

Lemma none_of_spec {K V} `{Countable K} (P : K -> V -> bool) (m : gmap K V) :
  none_of P m = true <-> forall k v, m !! k = Some v -> P k v = false.
Proof.
  unfold none_of. rewrite forallb_forall. split.
  - intros Hall k v Hk. specialize (Hall (k, v)). simpl in Hall.
    rewrite <- list_elem_of_In, elem_of_map_to_list in Hall. specialize (Hall Hk).
    by destruct (P k v).
  - intros Hall [k v] Hin. apply list_elem_of_In, elem_of_map_to_list in Hin. simpl.
    by rewrite (Hall _ _ Hin).
Qed.

Lemma has_user_spec u t : has_user u t = true <-> is_Some (t_users t !! u).
Proof. apply bool_decide_eq_true. Qed.
Lemma has_server_spec s t : has_server s t = true <-> is_Some (t_servers t !! s).
Proof. apply bool_decide_eq_true. Qed.

(** A lookup that was defined stays defined under an insertion. *)
Lemma insert_is_Some {K V} `{Countable K} (m : gmap K V) k v i :
  is_Some (m !! i) -> is_Some (<[k := v]> m !! i).
Proof. rewrite lookup_insert_is_Some'. auto. Qed.

Lemma alter_is_Some {K V} `{Countable K} (f : V -> V) (m : gmap K V) k i :
  is_Some (alter f k m !! i) <-> is_Some (m !! i).
Proof. apply lookup_alter_is_Some. Qed.

(** Case analysis on the guards of a statement that succeeded. *)
Ltac stmt_inv H :=
  repeat match type of H with
  | context [match ?x with _ => _ end] => destruct x eqn:?; try discriminate H
  end;
  injection H as ? ? ?; subst.

Ltac bool_facts :=
  repeat match goal with
  | H : negb _ = false |- _ => apply negb_false_iff in H
  | H : negb _ = true |- _ => apply negb_true_iff in H
  | H : (_ && _)%bool = true |- _ => apply andb_true_iff in H as [? ?]
  | H : (_ || _)%bool = false |- _ => apply orb_false_iff in H as [? ?]
  | H : has_user _ _ = true |- _ => apply has_user_spec in H
  | H : has_server _ _ = true |- _ => apply has_server_spec in H
  | H : none_of _ _ = true |- _ => rewrite none_of_spec in H
  | H : bool_decide _ = true |- _ => apply bool_decide_eq_true in H
  | H : bool_decide _ = false |- _ => apply bool_decide_eq_false in H
  | H : (_ <=? _) = true |- _ => apply Z.leb_le in H
  end.

Section Statements.
Context `{Postgres}.

(** References survive when rows are only added to the tables referred to. *)
Ltac keep_refs Ht :=
  destruct Ht as [Hn Hsn Ha Hal Hb Hi Hv]; constructor; simpl; try done;
  try solve
    [ intros i x adm Hx Hadm; eauto using insert_is_Some
    | intros sid uid Hin; destruct (Hal sid uid Hin); split; eauto using insert_is_Some
    | intros uid sym sid bal Hin; destruct (Hb uid sym sid bal Hin); split; eauto using insert_is_Some
    | intros uid sid bal Hin; destruct (Hi uid sid bal Hin); split; eauto using insert_is_Some
    | intros sid mid port ty Hin; destruct (Hv sid mid port ty Hin) as (? & ? & ? & ?);
      split_and!; eauto using insert_is_Some; lia ].

Lemma insert_users_integrity name pw : preserves integrity (insert_users name pw).
Proof.
  intros t q q' t' a Ht Hs. unfold insert_users in Hs. stmt_inv Hs. bool_facts.
  assert (forall i u, t_users t !! i = Some u -> us_name u <> name) as Hfresh.
  { intros i u Hu. apply String.eqb_neq. eauto. }
  keep_refs Ht.
  intros i j u v. rewrite !lookup_insert_Some.
  intros [[<- <-]|[? Hu]] [[<- <-]|[? Hv']] Heq; simpl in *; [done| | |eauto];
    exfalso; by eapply Hfresh.
Qed.

Lemma insert_servers_integrity name admin description arr usd :
  preserves integrity (insert_servers name admin description arr usd).
Proof.
  intros t q q' t' a Ht Hs. unfold insert_servers in Hs. stmt_inv Hs. bool_facts.
  assert (forall i s, t_servers t !! i = Some s -> sv_name s <> name) as Hfresh.
  { intros i u Hu. apply String.eqb_neq. eauto. }
  keep_refs Ht.
  - intros i j u v. rewrite !lookup_insert_Some.
    intros [[<- <-]|[? Hu]] [[<- <-]|[? Hv']] Heq; simpl in *; [done| | |eauto];
      exfalso; by eapply Hfresh.
  - intros i srv adm. rewrite lookup_insert_Some. intros [[<- <-]|[? Hsrv]]; [|eauto].
    simpl. by intros [= <-].
Qed.

Lemma insert_allowlist_integrity server user : preserves integrity (insert_allowlist server user).
Proof.
  intros t q q' t' a Ht Hs. unfold insert_allowlist, pure_stmt in Hs. stmt_inv Hs. bool_facts.
  keep_refs Ht. intros s u [[= -> ->]%elem_of_singleton|Hin]%elem_of_union; [done|eauto].
Qed.

Lemma insert_services_integrity machine server type port :
  preserves integrity (insert_services machine server type port).
Proof.
  intros t q q' t' a Ht Hs. unfold insert_services, pure_stmt in Hs. stmt_inv Hs. bool_facts.
  keep_refs Ht. intros s m p ty. rewrite lookup_insert_Some. intros [[[= <- <- <-] <-]|[_ Hs]]; [|eauto].
  done.
Qed.

Lemma insert_balances_integrity b user server symbol balance :
  preserves integrity (insert_balances b user server symbol balance).
Proof.
  intros t q q' t' a Ht Hs. unfold insert_balances, pure_stmt in Hs. stmt_inv Hs; [done|]. bool_facts.
  keep_refs Ht. intros u sym sid x. rewrite lookup_insert_Some. intros [[[= <- <- <-] <-]|[_ Hx]]; [|eauto].
  done.
Qed.

Lemma upsert_init_bot_integrity user server balance :
  preserves integrity (upsert_init_bot user server balance).
Proof.
  intros t q q' t' a Ht Hs. unfold upsert_init_bot, pure_stmt in Hs. stmt_inv Hs. bool_facts.
  keep_refs Ht. intros u s x. rewrite lookup_insert_Some. intros [[[= <- <-] <-]|[_ Hs]]; [|eauto].
  done.
Qed.

Lemma update_balances_integrity user server symbol balance :
  preserves integrity (update_balances user server symbol balance).
Proof.
  intros t q q' t' a Ht Hs. unfold update_balances, pure_stmt in Hs. stmt_inv Hs.
  keep_refs Ht. intros u sym s x Hx.
  assert (is_Some (t_balances t !! (u, sym, s))) as [y Hy] by (rewrite <- alter_is_Some; by eexists).
  eauto.
Qed.

Lemma update_servers_integrity server description arr :
  preserves integrity (update_servers server description arr).
Proof.
  intros t q q' t' a Ht Hs. unfold update_servers, pure_stmt in Hs. stmt_inv Hs.
  destruct Ht as [Hn Hsn Ha Hal Hb Hi Hv]; constructor; simpl; try done.
  - intros i j x y. rewrite !lookup_alter_Some. naive_solver.
  - intros i x adm. rewrite lookup_alter_Some. naive_solver.
  - intros sid u. rewrite alter_is_Some. eauto.
  - intros u sym sid x. rewrite alter_is_Some. eauto.
  - intros u sid x. rewrite alter_is_Some. eauto.
  - intros sid m p ty. rewrite alter_is_Some. eauto.
Qed.

(** Deleting rows of a table that nothing refers to. *)
Ltac drop_rows Ht :=
  intros t q q' t' a Ht Hs; unfold pure_stmt in Hs; stmt_inv Hs; keep_refs Ht;
  intros *; rewrite ?elem_of_filter, ?map_lookup_filter_Some; intros [? ?]; eauto.

Lemma delete_allowlist_integrity server : preserves integrity (delete_allowlist server).
Proof. unfold delete_allowlist. drop_rows Ht. Qed.
Lemma delete_balances_of_server_integrity server :
  preserves integrity (delete_balances_of_server server).
Proof. unfold delete_balances_of_server. drop_rows Ht. Qed.
Lemma delete_balances_of_user_integrity user : preserves integrity (delete_balances_of_user user).
Proof. unfold delete_balances_of_user. drop_rows Ht. Qed.
Lemma delete_services_integrity server : preserves integrity (delete_services server).
Proof. unfold delete_services. drop_rows Ht. Qed.

Lemma delete_servers_integrity server : preserves integrity (delete_servers server).
Proof.
  intros t q q' t' a Ht Hs. unfold delete_servers, pure_stmt in Hs.
  destruct (_ && _)%bool eqn:E; simplify_eq/=. destruct Ht as [Hn Hsn Ha Hal Hb Hi Hv].
  assert (forall u sym, t_balances t !! (u, sym, server) = None) as Hnb.
  { intros u sym. apply eq_None_not_Some. intros [b Hbal].
    pose proof (proj2 (Hb _ _ _ _ Hbal)) as Hsrv%has_server_spec. rewrite Hsrv in E.
    apply orb_false_iff in E as [E _]. bool_facts. specialize (E _ _ Hbal). simpl in E. lia. }
  assert (forall u, (server, u) ∉ t_allowlist t) as Hna.
  { intros u Hin. pose proof (proj1 (Hal _ _ Hin)) as Hsrv%has_server_spec. rewrite Hsrv in E.
    apply orb_false_iff in E as [_ E]. apply negb_false_iff in E. rewrite forallb_forall in E.
    specialize (E (server, u) ltac:(by apply list_elem_of_In, elem_of_elements)). simpl in E. lia. }
  constructor; simpl.
  - done.
  - intros i j x y. rewrite !lookup_delete_Some. naive_solver.
  - intros i x adm. rewrite lookup_delete_Some. naive_solver.
  - intros sid u Hin. destruct (Hal _ _ Hin). split; [|done].
    apply lookup_delete_is_Some. split; [|done]. intros <-. by eapply Hna.
  - intros u sym sid x Hx. destruct (Hb _ _ _ _ Hx). split; [done|].
    apply lookup_delete_is_Some. split; [|done]. intros <-. by rewrite Hnb in Hx.
  - intros u sid x. rewrite map_lookup_filter_Some. simpl. intros [Hx Hne]. destruct (Hi _ _ _ Hx).
    split; [done|]. by apply lookup_delete_is_Some.
  - intros sid m p ty. rewrite map_lookup_filter_Some. simpl. intros [Hx Hne].
    destruct (Hv _ _ _ _ Hx) as (? & ? & ? & ?). split_and!; [by apply lookup_delete_is_Some|done|lia..|done].
Qed.

Lemma delete_users_integrity user : preserves integrity (delete_users user).
Proof.
  intros t q q' t' a Ht Hs. unfold delete_users, pure_stmt in Hs.
  destruct (_ && _)%bool eqn:E; simplify_eq/=. destruct Ht as [Hn Hsn Ha Hal Hb Hi Hv].
  assert (is_Some (t_users t !! user) ->
    (forall k v, t_balances t !! k = Some v -> (k.1.1 =? user) = false) /\
    (forall k v, t_servers t !! k = Some v -> sv_admin v <> Some user) /\
    (forall k, k ∈ t_allowlist t -> k.2 <> user)) as Href.
  { intros Hu%has_user_spec. rewrite Hu in E. apply orb_false_iff in E as [E E3]. bool_facts.
    split_and!; [eauto| |].
    - intros k v Hk. eapply bool_decide_eq_false_1. eauto.
    - intros k Hk. rewrite forallb_forall in E3.
      specialize (E3 k ltac:(by apply list_elem_of_In, elem_of_elements)). lia. }
  constructor; simpl.
  - intros i j x y. rewrite !lookup_delete_Some. naive_solver.
  - done.
  - intros i x adm Hx Hadm. apply lookup_delete_is_Some. split; [|eauto]. intros <-.
    by apply (proj1 (proj2 (Href (Ha _ _ _ Hx Hadm))) i x).
  - intros sid u Hin. destruct (Hal _ _ Hin) as [? Hu]. split; [done|].
    apply lookup_delete_is_Some. split; [|done]. intros <-.
    by apply (proj2 (proj2 (Href Hu)) _ Hin).
  - intros u sym sid x Hx. destruct (Hb _ _ _ _ Hx) as [Hu ?]. split; [|done].
    apply lookup_delete_is_Some. split; [|done]. intros <-.
    pose proof (proj1 (Href Hu) _ _ Hx) as Hne. simpl in Hne. lia.
  - intros u sid x. rewrite map_lookup_filter_Some. simpl. intros [Hx Hne]. destruct (Hi _ _ _ Hx).
    split; [|done]. by apply lookup_delete_is_Some.
  - done.
Qed.
End Statements.

(** ** Operations that only read *)
Section Reading.
Context `{Postgres}.

Lemma reads_column : reads servers_has_initial_usd_column.
Proof.
  intros c. unfold servers_has_initial_usd_column, query_column.
  destruct (m_has_servers_initial_usd_column c); [done|].
  apply reads_bind; [apply reads_select|]. by intros a c'.
Qed.

Lemma reads_service_rows rows : reads (service_rows_loop rows).
Proof.
  induction rows as [|[[? []] []] rows IH]; simpl; [apply reads_ret|].
  destruct (service_str_to_enum _); [|apply reads_throw].
  apply reads_bind; [done|]. intros. apply reads_ret.
Qed.

Lemma reads_user_servers uid b rows : reads (user_servers_loop uid b rows).
Proof.
  induction rows as [|[] rows IH]; simpl; [apply reads_ret|].
  apply reads_bind; [apply reads_select|]. intros. apply reads_bind; [done|]. intros. apply reads_ret.
Qed.

Lemma reads_users_balances sid uids : reads (users_balances_loop sid uids).
Proof.
  induction uids as [|u uids IH]; simpl; [apply reads_ret|].
  apply reads_bind; [apply reads_select|]. intros [|name ?]; [done|].
  apply reads_bind; [apply reads_select|]. intros. apply reads_bind; [done|]. intros. apply reads_ret.
Qed.

(** A transaction whose statements only read leaves the database as it is, also
    when its commit fails. *)
Definition settled {A} (m : Txn A) : Prop :=
  forall c, work c = stored c -> stored (m c).2 = stored c /\ work (m c).2 = stored c.

Lemma settled_bind {A B} (m : Txn A) (f : A -> Txn B) :
  settled m -> (forall a, settled (f a)) -> settled (m ≫= f).
Proof.
  intros Hm Hf c Hc. destruct (Hm c Hc) as [Hs Hw]. unfold mbind, txn_bind.
  destruct (m c) as [[a|e] c']; [|done]. simpl in *. rewrite <- Hs. apply Hf. congruence.
Qed.
Lemma settled_reads {A} (m : Txn A) : reads m -> settled m.
Proof. intros Hm c Hc. destruct (Hm c). split; congruence. Qed.
Lemma settled_commit : settled commit.
Proof. intros c Hc. unfold commit. destruct (fault _) as [[? []]|]; simpl; split; congruence. Qed.

Lemma settled_try {A} prefix (body : Txn (A + string)) c :
  settled body -> stored (try_catch prefix (_ ← begin_work; body) c).2 = stored c.
Proof.
  intros Hb. unfold try_catch. unfold mbind, txn_bind.
  destruct (begin_work c) as [[u|e] c1] eqn:E.
  - apply begin_returned in E as (E1 & E2 & _). destruct (Hb c1) as [Hs _]; [congruence|].
    destruct (body c1) as [[]]; simpl in *; congruence.
  - pose proof (uncommitted_begin c) as Hu. by rewrite E in Hu.
Qed.
End Reading.

#[export] Hint Resolve reads_column reads_service_rows reads_user_servers reads_users_balances : edux.

Ltac settled_tac :=
  repeat first
    [ apply settled_commit
    | match goal with |- forall _, _ => intro end
    | apply settled_reads; solve [auto with edux]
    | apply settled_bind
    | match goal with |- settled (match ?x with _ => _ end) => destruct x end ].

(** ** Steps of the clients

    The operations of any number of clients, one after the other: [step_switch] hands
    the database over to a client with its own request counter and its own cache. *)
Section Steps.
Context `{Postgres}.

Inductive read_step : Conn -> Conn -> Prop :=
  | read_read_balance u s sym c : read_step c (read_balance u s sym c).2
  | read_read_balances u s c : read_step c (read_balances u s c).2
  | read_authenticate n p c : read_step c (authenticate_user n p c).2
  | read_get_user n c : read_step c (get_user n c).2
  | read_resolve ns c : read_step c (resolve_user_ids ns c).2
  | read_active_servers c : read_step c (get_active_servers c).2
  | read_get_server n c : read_step c (get_server n c).2
  | read_symbols n c : read_step c (get_server_active_symbols n c).2
  | read_user_servers n c : read_step c (get_user_servers n c).2
  | read_account n s c : read_step c (get_account_details n s c).2
  | read_machines c : read_step c (query_machines c).2
  | read_services_all c : read_step c (query_services_all c).2
  | read_services m c : read_step c (query_services m c).2
  | read_endpoint n s c : read_step c (get_service_endpoint n s c).2
  | read_users_by_server s c : read_step c (get_users_by_server s c).2
  | read_all_balances n c : read_step c (get_all_users_balances_for_server n c).2.

Inductive client_step : Conn -> Conn -> Prop :=
  | step_read c c' : read_step c c' -> client_step c c'
  | step_update_balance u s sym b c : client_step c (update_balance u s sym b c).2
  | step_insert_balance u s sym b c : client_step c (insert_balance u s sym b c).2
  | step_upsert u s b c : client_step c (upsert_init_bot_portfolio_balance u s b c).2
  | step_create_user n p c : client_step c (create_user n p c).2
  | step_create_server n a d syms al svs usd c :
      client_step c (create_server_with_services n a d syms al svs usd c).2
  | step_configure n a d syms al c : client_step c (configure_server n a d syms al c).2
  | step_delete_server n c : client_step c (delete_server n c).2
  | step_insert_service m s ty p c : client_step c (insert_service m s ty p c).2
  | step_ensure n usd c : client_step c (ensure_initial_usd_balances n usd c).2
  | step_delete_uat us ss c : client_step c (delete_uat_data us ss c).2
  | step_switch c n cache :
      client_step c (mkConn (stored c) (work c) (sequences c) n cache).

Lemma read_step_stored c c' : read_step c c' -> stored c' = stored c.
Proof.
  destruct 1; try solve [apply settled_try; settled_tac].
  - (* resolve_user_ids *)
    unfold resolve_user_ids. generalize (@nil Z).
    revert c. induction ns as [|n ns IH]; intros c ids; simpl; [done|].
    assert (stored (get_user n c).2 = stored c) by (apply settled_try; settled_tac).
    destruct (get_user n c) as [[[u|]|e] c1]; simpl in *; [|done|done]. by rewrite IH.
  - (* query_services without its parameter *)
    apply settled_try. apply settled_bind; [|intros; settled_tac].
    intros c' Hc. unfold exec, request. by destruct (fault _) as [[]|].
Qed.

Lemma keeps_reads {A} P (m : Txn A) : reads m -> keeps P m.
Proof. intros Hm c Hs Hw. destruct (Hm c) as [-> ->]. done. Qed.

Lemma keeps_insert_usd sid b uids n : keeps integrity (insert_usd_loop sid b uids n).
Proof.
  revert n. induction uids as [|u uids IH]; intros n; simpl; [apply keeps_ret|].
  apply keeps_bind; [apply keeps_exec, insert_balances_integrity|]. auto.
Qed.

(** A transaction that starts from consistent tables. *)
Lemma keeps_work {A} P prefix (body : Txn (A + string)) c :
  keeps P body -> P (stored c) -> P (stored (try_catch prefix (_ ← begin_work; body) c).2).
Proof.
  intros Hb Hs. unfold try_catch. unfold mbind, txn_bind.
  destruct (begin_work c) as [[u|e] c1] eqn:E.
  - apply begin_returned in E as (E1 & E2 & _). destruct (Hb c1) as [? _]; [congruence..|].
    by destruct (body c1) as [[]].
  - pose proof (uncommitted_begin c) as Hu. rewrite E in Hu. simpl in *. congruence.
Qed.
End Steps.

#[export] Hint Resolve insert_users_integrity insert_servers_integrity insert_allowlist_integrity
  insert_services_integrity insert_balances_integrity upsert_init_bot_integrity update_balances_integrity
  update_servers_integrity delete_allowlist_integrity delete_balances_of_server_integrity
  delete_balances_of_user_integrity delete_services_integrity delete_servers_integrity
  delete_users_integrity keeps_insert_usd : edux.

Ltac keeps_tac :=
  repeat first
    [ match goal with |- forall _, _ => intro end
    | apply keeps_commit
    | apply keeps_insert_usd
    | apply keeps_reads; solve [auto with edux]
    | apply keeps_exec; solve [auto with edux]
    | apply keeps_for_each
    | apply keeps_bind
    | match goal with |- keeps _ (match ?x with _ => _ end) => destruct x end ].

Section Integrity.
Context `{Postgres}.

(** The constraints of the tables: user names and server names stay unique, and every
    administrator, member, balance, initial balance and service refers to rows that
    exist, whatever a client does and whichever of its requests fail, commits that
    are reported as failed but were applied included. *)
Lemma client_step_integrity c c' : client_step c c' -> integrity (stored c) -> integrity (stored c').
Proof.
  intros Hstep Hc. destruct Hstep;
    try solve [apply (keeps_work integrity); [keeps_tac|done]].
  - by erewrite read_step_stored.
  - destruct us, ss; try done; (apply (keeps_work integrity); [keeps_tac|done]).
  - done.
Qed.

End Integrity.

Lemma sample_integrity : integrity sample_tables.
Proof.
  constructor; simpl.
  - intros i j u v. rewrite !lookup_insert_Some, !lookup_singleton_Some. naive_solver.
  - intros *. by rewrite lookup_empty.
  - intros *. by rewrite lookup_empty.
  - intros *. by rewrite elem_of_empty.
  - intros *. by rewrite lookup_empty.
  - intros *. by rewrite lookup_empty.
  - intros *. by rewrite lookup_empty.
Qed.
