(* ===== verification/DatabaseSpecs.v ===== *)
(** * Effects of the database operations

    What creating, configuring and deleting a server, signing up and logging in, and
    the initial balances do to the tables, exactly; and that an operation that returns
    an error has changed nothing, unless its commit was in doubt. *)

From S2P Require Import Prelude Core Doubles PgArray Postgres DatabaseClient DatabaseTheorems.
From Stdlib Require Import ZArith Lia Ascii String.
From stdpp Require Import base option list gmap strings sets fin_maps fin_sets relations.

Open Scope Z_scope.

(** ** Effects as functions on tables *)
Definition add_services (server : Z) (services : list ServiceInsertRow) (m : gmap (Z * Z * Z) string)
    : gmap (Z * Z * Z) string :=
  foldl (fun m s => <[(server, si_machine_id s, si_port s) :=
                        service_enum_to_str (si_service_type s)]> m) m services.

Definition members_set (server : Z) (users : list Z) : gset (Z * Z) :=
  list_to_set ((fun u => (server, u)) <$> users).

Definition added_server (id : Z) (s : ServerRec) (users : list Z) (services : list ServiceInsertRow)
    (t : Tables) : Tables :=
  mkTables (t_users t) (<[id := s]> (t_servers t)) (members_set id users ∪ t_allowlist t)
    (t_balances t) (t_init_bot t) (t_machines t) (add_services id services (t_services t))
    (t_initial_usd_column t).

Definition without_server (id : Z) (t : Tables) : Tables :=
  mkTables (t_users t) (delete id (t_servers t)) (filter (fun k => k.1 <> id) (t_allowlist t))
    (filter (fun kv => kv.1.2 <> id) (t_balances t)) (filter (fun kv => kv.1.2 <> id) (t_init_bot t))
    (t_machines t) (filter (fun kv => kv.1.1.1 <> id) (t_services t)) (t_initial_usd_column t).

Definition reconfigured (id : Z) (tickers : list string) (description : string) (users : list Z)
    (t : Tables) : Tables :=
  mkTables (t_users t)
    (alter (fun s => mkServerRec (sv_name s) (sv_admin s) (Some tickers) (Some description)
                       (sv_initial_usd s)) id (t_servers t))
    (members_set id users ∪ filter (fun k => k.1 <> id) (t_allowlist t))
    (t_balances t) (t_init_bot t) (t_machines t) (t_services t) (t_initial_usd_column t).

(** ** Rows by name *)
Lemma perm_head {A} (l l' : list A) x : l ≡ₚ l' -> head l = Some x -> x ∈ l'.
Proof. intros Hp Hh. rewrite <- Hp. destruct l; simplify_eq/=. left. Qed.

Lemma perm_nil_eq {A} (l : list A) : [] ≡ₚ l -> l = [].
Proof. intros H. by apply Permutation_nil in H. Qed.

Lemma servers_named_spec name t id s :
  (id, s) ∈ servers_named name t <-> t_servers t !! id = Some s /\ sv_name s = name.
Proof.
  unfold servers_named. rewrite list_elem_of_In, filter_In, <- list_elem_of_In, elem_of_map_to_list.
  simpl. by rewrite String.eqb_eq.
Qed.

Lemma servers_named_nil name t :
  servers_named name t = [] <-> forall id s, t_servers t !! id = Some s -> sv_name s <> name.
Proof.
  split.
  - intros Hnil id s Hs Hn. assert ((id, s) ∈ servers_named name t) as Hin by by apply servers_named_spec.
    rewrite Hnil in Hin. by apply elem_of_nil in Hin.
  - intros Hall. destruct (servers_named name t) as [|[id s] l] eqn:E; [done|].
    assert ((id, s) ∈ servers_named name t) as [? ?]%servers_named_spec by (rewrite E; left).
    naive_solver.
Qed.

Lemma users_named_spec name t u :
  u ∈ users_named name t <->
  exists r, t_users t !! uw_user_id u = Some r /\ us_name r = name /\ uw_username u = name.
Proof.
  unfold users_named. rewrite list_elem_of_omap. split.
  - intros ([id r] & Hin & Hu). apply elem_of_map_to_list in Hin. simpl in Hu.
    destruct (String.eqb_spec (us_name r) name); simplify_eq/=. eauto.
  - intros (r & Hr & Hn & Hu). destruct u as [id nm]. simpl in *. subst.
    exists (id, r). split; [by apply elem_of_map_to_list|]. simpl. by rewrite String.eqb_refl.
Qed.

(** Under integrity a name leads to at most one row, so the unspecified order of rows
    does not matter. *)
Lemma singleton_list {A} (l : list A) x : NoDup l -> x ∈ l -> (forall y, y ∈ l -> y = x) -> l = [x].
Proof.
  intros Hnd Hx Hall. destruct l as [|y [|z l]].
  - by apply elem_of_nil in Hx.
  - by rewrite (Hall y ltac:(left)).
  - assert (y = x) as -> by (apply Hall; left). assert (z = x) as -> by (apply Hall; right; left).
    apply NoDup_cons in Hnd as [Hn _]. exfalso. apply Hn. left.
Qed.

Lemma servers_named_unique t id s :
  integrity t -> t_servers t !! id = Some s -> servers_named (sv_name s) t = [(id, s)].
Proof.
  intros Ht Hs. apply singleton_list.
  - apply NoDup_ListNoDup, List.NoDup_filter, NoDup_ListNoDup, NoDup_map_to_list.
  - by apply servers_named_spec.
  - intros [j r] [Hr Hn]%servers_named_spec.
    assert (j = id) as -> by (by eapply (servers_unique t Ht)). congruence.
Qed.

Lemma servers_named_at_most_one t name l :
  integrity t -> l ≡ₚ servers_named name t ->
  l = [] /\ (forall id s, t_servers t !! id = Some s -> sv_name s <> name) \/
  exists id s, l = [(id, s)] /\ t_servers t !! id = Some s /\ sv_name s = name.
Proof.
  intros Ht Hl. destruct (servers_named name t) as [|[id s] l'] eqn:E.
  - left. apply Permutation_sym, perm_nil_eq in Hl. by rewrite <- servers_named_nil.
  - right. assert ((id, s) ∈ servers_named name t) as [Hs Hn]%servers_named_spec by (rewrite E; left).
    subst name. rewrite (servers_named_unique t id s Ht Hs) in E. simplify_eq.
    apply Permutation_sym, Permutation_length_1_inv in Hl. eauto.
Qed.

Section Loops.
Context `{Postgres}.

Lemma allowlist_loop server users c u c' :
  for_each (fun uid => exec (insert_allowlist server uid)) users c = (Returned u, c') ->
  stored c' = stored c /\ sequences c' = sequences c /\
  m_has_servers_initial_usd_column c' = m_has_servers_initial_usd_column c /\
  work c' = set_allowlist (fun a => members_set server users ∪ a) (work c) /\ NoDup users /\
  Forall (fun v => (server, v) ∉ t_allowlist (work c) /\ is_Some (t_users (work c) !! v)) users.
Proof.
  revert c. induction users as [|v users IH]; intros c Hl; simpl in Hl; txn_inv.
  - split_and!; [done..| |apply NoDup_nil_2|constructor].
    unfold set_allowlist, members_set. simpl. rewrite (left_id_L ∅ (∪)). by destruct (work c').
  - match goal with H : for_each _ _ _ = _ |- _ => apply IH in H as (Hs & Hq & Hm & Hw & Hnd & Hall) end.
    match goal with H : insert_allowlist _ _ _ _ = _ |- _ =>
      unfold insert_allowlist, pure_stmt in H; stmt_inv H end. bool_facts.
    match goal with H : set_allowlist _ _ = work _ |- _ => rewrite <- H in Hw, Hall; clear H end.
    split_and!; [congruence..| | |].
    + rewrite Hw. unfold set_allowlist, members_set. simpl. f_equal. set_solver.
    + apply NoDup_cons. split; [|done]. intros Hv. rewrite Forall_forall in Hall.
      destruct (Hall v Hv) as [Hn _]. simpl in Hn. set_solver.
    + constructor; [done|]. eapply Forall_impl; [exact Hall|]. simpl. set_solver.
Qed.

Lemma services_loop server services c u c' :
  for_each (insert_service_row server) services c = (Returned u, c') ->
  stored c' = stored c /\ sequences c' = sequences c /\
  m_has_servers_initial_usd_column c' = m_has_servers_initial_usd_column c /\
  work c' = set_services (add_services server services) (work c).
Proof.
  revert c. induction services as [|v services IH]; intros c Hl; simpl in Hl; txn_inv.
  - split_and!; try done. by destruct (work c').
  - unfold insert_service_row in *. txn_inv.
    match goal with H : for_each _ _ _ = _ |- _ => apply IH in H as (Hs & Hq & Hm & Hw) end.
    match goal with H : insert_services _ _ _ _ _ _ = _ |- _ =>
      unfold insert_services, pure_stmt in H; stmt_inv H end.
    match goal with H : set_services _ _ = work _ |- _ => rewrite <- H in Hw end.
    split_and!; [congruence..|]. by rewrite Hw.
Qed.

Lemma column_returned c b c' :
  servers_has_initial_usd_column c = (Returned b, c') ->
  stored c' = stored c /\ work c' = work c /\ sequences c' = sequences c /\
  m_has_servers_initial_usd_column c' = Some b /\
  (forall x, m_has_servers_initial_usd_column c = Some x -> b = x) /\
  (m_has_servers_initial_usd_column c = None -> b = t_initial_usd_column (work c)).
Proof.
  unfold servers_has_initial_usd_column. destruct (m_has_servers_initial_usd_column c) as [x|] eqn:Ec.
  - intros [= <- <-]. split_and!; try done. by intros ? [= ->].
  - unfold query_column. intros Hq. txn_inv. unfold set_column_cache in Hq. simplify_eq/=.
    split_and!; try done. intros _. destruct (t_initial_usd_column (work c)).
    + match goal with H : _ ≡ₚ [_] |- _ => apply Permutation_length in H as -> end. done.
    + match goal with H : _ ≡ₚ [] |- _ => apply Permutation_length in H as -> end. done.
Qed.
End Loops.

Ltac column_inv :=
  repeat match goal with
  | H : servers_has_initial_usd_column _ = (Returned _, _) |- _ =>
      apply column_returned in H as (? & ? & ? & ? & Hsome & Hnone)
  end.

(** Follow the tables from a connection to the next. *)
Ltac store_eq :=
  repeat match goal with
  | H : stored ?c = _ |- context [stored ?c] => rewrite H
  | H : work ?c = _ |- context [work ?c] => rewrite H
  | H : ?f ?g ?t = work ?c |- context [work ?c] => rewrite <- H
  end.

(** ** Creating a server *)
Section Create.
Context `{Postgres}.

(** The client's cache agrees with the schema. *)
Definition cache_ok (c : Conn) : Prop :=
  forall b, m_has_servers_initial_usd_column c = Some b -> b = t_initial_usd_column (stored c).

Lemma cached_column c c1 b :
  cache_ok c -> m_has_servers_initial_usd_column c1 = m_has_servers_initial_usd_column c ->
  work c1 = stored c ->
  (forall x, m_has_servers_initial_usd_column c1 = Some x -> b = x) ->
  (m_has_servers_initial_usd_column c1 = None -> b = t_initial_usd_column (work c1)) ->
  b = t_initial_usd_column (stored c).
Proof.
  intros Hc Hm Hw Hs Hn. destruct (m_has_servers_initial_usd_column c1) as [x|] eqn:E.
  - rewrite (Hs x eq_refl). apply Hc. congruence.
  - rewrite <- Hw. auto.
Qed.

Lemma create_atomic name admin description symbols users services usd c e c' :
  create_server_with_services name admin description symbols users services usd c = (inr e, c') ->
  stored c' = stored c \/ in_doubt c'.
Proof.
  apply atomic_try. apply atomic_bind; [apply uncommitted_begin|intros _].
  apply atomic_bind; [apply uncommitted_reads, reads_column|intros b].
  apply atomic_bind; [apply uncommitted_exec|intros [|id ?]].
  { apply atomic_uncommitted, uncommitted_ret. }
  apply atomic_bind; [apply uncommitted_for_each; intros; apply uncommitted_exec|intros _].
  apply atomic_bind; [apply uncommitted_for_each; intros; apply uncommitted_exec|intros _].
  apply atomic_commit.
Qed.

Lemma insert_servers_effect name admin description arr usd t q q' t' rows :
  insert_servers name admin description arr usd t q = (q', inl (t', rows)) ->
  exists id tickers description',
    tickers_in arr = inl tickers /\ varchar_in 255 description = Some description' /\ rows = [id] /\
    t' = set_servers <[id := mkServerRec name (Some admin) (Some tickers) (Some description')
                              (default 100000 usd)]> t /\
    t_servers t !! id = None /\ is_Some (t_users t !! admin) /\
    (forall i s, t_servers t !! i = Some s -> sv_name s <> name) /\
    (is_Some usd -> t_initial_usd_column t = true).
Proof.
  intros Hins. unfold insert_servers in Hins. stmt_inv Hins. bool_facts.
  eexists _, _, _. split_and!; try done.
  - apply eq_None_not_Some. unfold has_server in *. by bool_facts.
  - intros i x Hx. apply String.eqb_neq. eauto.
  - intros Husd. match goal with H : (_ && _)%bool = false |- _ =>
      rewrite bool_decide_eq_true_2 in H by done end. bool_facts. by destruct (t_initial_usd_column t).
Qed.

Lemma create_effect name admin description symbols users services usd c id c' :
  cache_ok c ->
  create_server_with_services name admin description symbols users services usd c = (inl id, c') ->
  exists tickers description',
    tickers_in (build_pg_array symbols) = inl tickers /\ varchar_in 255 description = Some description' /\
    stored c' = added_server id
      (mkServerRec name (Some admin) (Some tickers) (Some description')
         (if t_initial_usd_column (stored c) then usd else 100000)) users services (stored c) /\
    t_servers (stored c) !! id = None /\ is_Some (t_users (stored c) !! admin) /\
    (forall i s, t_servers (stored c) !! i = Some s -> sv_name s <> name) /\
    NoDup users /\ Forall (fun u => is_Some (t_users (stored c) !! u)) users /\
    cache_ok c'.
Proof.
  intros Hcache Hc. unfold create_server_with_services in Hc. txn_inv. column_inv.
  match goal with H : match ?rows with [] => _ | _ => _ end _ = _ |- _ => destruct rows as [|sid rest] end;
    txn_inv.
  repeat match goal with
  | H : for_each (insert_service_row _) _ _ = _ |- _ => apply services_loop in H as (? & ? & ? & ?)
  | H : for_each _ _ _ = _ |- _ => apply allowlist_loop in H as (? & ? & ? & ? & ? & Hall)
  end.
  match goal with H : insert_servers _ _ _ _ _ ?t _ = _ |- _ =>
    replace t with (stored c) in H by congruence;
    apply insert_servers_effect in H as (sid & tickers & description' & ? & ? & Hrows & Hins & ? & ? & ? & Hcol)
  end. simplify_eq.
  match type of Hcol with is_Some (if ?b then _ else _) -> _ => assert (b = t_initial_usd_column (stored c)) as -> end.
  { refine (cached_column c _ _ Hcache _ _ Hsome Hnone); congruence. }
  exists tickers, description'. split_and!; try done.
  - store_eq.
    by destruct (t_initial_usd_column (stored c)).
  - eapply Forall_impl; [exact Hall|]. rewrite Hins. by intros ? [_ ?].
  - intros b Hb. store_eq. simpl. congruence.
Qed.
End Create.

(** The rows of a server by its name: none, or one. *)
Tactic Notation "named_rows" constr(Ht) "as" ident(i) ident(s) ident(Hs) :=
  match goal with
  | Hp : ?rows ≡ₚ servers_named _ (work ?x), Hw : work ?x = ?t |- _ =>
      rewrite Hw in Hp;
      apply servers_named_at_most_one in Hp as [[-> ?]|(i & s & -> & Hs & ?)]; [| |exact Ht]
  end.

(** ** Deleting a server *)
Section Delete.
Context `{Postgres}.

Lemma delete_atomic name c e c' :
  delete_server name c = (inr e, c') -> stored c' = stored c \/ in_doubt c'.
Proof.
  apply atomic_try. apply atomic_bind; [apply uncommitted_begin|intros _].
  apply atomic_bind; [apply uncommitted_reads, reads_select|intros [|[id s] ?]].
  { apply atomic_uncommitted, uncommitted_ret. }
  do 4 (apply atomic_bind; [apply uncommitted_exec|intros _]). apply atomic_commit.
Qed.

Lemma delete_effect name c b c' :
  integrity (stored c) -> delete_server name c = (inl b, c') ->
  if b then exists id s, t_servers (stored c) !! id = Some s /\ sv_name s = name /\
                         stored c' = without_server id (stored c)
  else stored c' = stored c /\ forall id s, t_servers (stored c) !! id = Some s -> sv_name s <> name.
Proof.
  intros Ht Hc. unfold delete_server in Hc. txn_inv.
  named_rows Ht as id s Hs; txn_inv; [by store_eq|]. exists id, s. split_and!; [done..|]. store_eq.
  unfold delete_allowlist, delete_balances_of_server, delete_services, delete_servers, pure_stmt in *.
  repeat match goal with H : (_, inl _) = (_, inl _) |- _ => injection H as ? ? end.
  match goal with H : (_, if ?b then _ else _) = _ |- _ => destruct b; [discriminate H|injection H as ? ?] end.
  store_eq. unfold without_server, set_servers, set_services, set_init_bot, set_balances, set_allowlist. simpl.
  f_equal. apply map_eq. intros k. apply option_eq. intros v.
  rewrite !map_lookup_filter_Some. tauto.
Qed.

(** ** Reading a server back *)
Lemma get_server_effect name c r c' :
  integrity (stored c) -> cache_ok c -> get_server name c = (inl r, c') ->
  stored c' = stored c /\
  match r with
  | None => forall id s u, t_servers (stored c) !! id = Some s -> sv_name s = name ->
              sv_admin s = Some u -> False
  | Some row => exists id s u admin, t_servers (stored c) !! id = Some s /\ sv_name s = name /\
      sv_admin s = Some u /\ t_users (stored c) !! u = Some admin /\
      row = server_row (t_initial_usd_column (stored c)) (id, s, (u, us_name admin))
  end.
Proof.
  intros Ht Hcache Hc. pose proof (read_step_stored _ _ (read_get_server name c)) as Hst.
  rewrite Hc in Hst. simpl in Hst. split; [done|].
  unfold get_server in Hc. txn_inv. column_inv.
  match goal with Hp : ?rows ≡ₚ omap _ (servers_named _ ?t) |- _ =>
    replace t with (stored c) in Hp by congruence; rename Hp into Hrows; rename rows into res end.
  match goal with |- context [server_row ?b] => assert (b = t_initial_usd_column (stored c)) as -> end.
  { refine (cached_column c _ _ Hcache _ _ Hsome Hnone); congruence. }
  destruct (head res) as [[[id s] [u an]]|] eqn:Hh; simpl.
  - apply (perm_head _ _ _ Hrows), list_elem_of_omap in Hh as ([id' s'] & [Hs Hn]%servers_named_spec & Ha).
    unfold with_admin in Ha. simpl in Ha. destruct (sv_admin s') as [a|] eqn:Ea; [|done].
    destruct (t_users (stored c) !! a) as [adm|] eqn:Eu; [|done]. simplify_eq. eauto 10.
  - destruct res; [|done]. apply perm_nil_eq in Hrows. intros id s u Hs Hn Ha.
    destruct (admin_exists _ Ht _ _ _ Hs Ha) as [adm Hadm].
    assert ((id, s, (u, us_name adm)) ∈ omap (with_admin (stored c)) (servers_named name (stored c))) as Hin.
    { apply list_elem_of_omap. exists (id, s). split; [by apply servers_named_spec|].
      unfold with_admin. simpl. by rewrite Ha, Hadm. }
    rewrite Hrows in Hin. by apply elem_of_nil in Hin.
Qed.
End Delete.

(** ** A server's life *)
Section RoundTrip.
Context `{Postgres}.

Lemma members_set_in id users k : k ∈ members_set id users <-> k.1 = id /\ k.2 ∈ users.
Proof.
  unfold members_set. rewrite elem_of_list_to_set, list_elem_of_fmap. destruct k as [a b]. simpl.
  naive_solver.
Qed.

Lemma add_services_lookup id services m k :
  k.1.1 <> id -> add_services id services m !! k = m !! k.
Proof.
  intros Hk. unfold add_services. revert m. induction services as [|s services IH]; intros m; simpl; [done|].
  rewrite IH. apply lookup_insert_ne. intros <-. by apply Hk.
Qed.

(** Nothing refers to an id that is not in use. *)
Lemma unused_server t id :
  integrity t -> t_servers t !! id = None ->
  (forall u, (id, u) ∉ t_allowlist t) /\ (forall u sym, t_balances t !! (u, sym, id) = None) /\
  (forall u, t_init_bot t !! (u, id) = None) /\ (forall m p, t_services t !! (id, m, p) = None).
Proof.
  intros Ht Hid. split_and!; intros.
  - intros Hin. destruct (allow_exists _ Ht _ _ Hin) as [[? ?] _]. congruence.
  - apply eq_None_not_Some. intros [b Hb]. destruct (balance_exists _ Ht _ _ _ _ Hb) as [_ [? ?]]. congruence.
  - apply eq_None_not_Some. intros [b Hb]. destruct (init_bot_exists _ Ht _ _ _ Hb) as [_ [? ?]]. congruence.
  - apply eq_None_not_Some. intros [b Hb]. destruct (service_exists _ Ht _ _ _ _ Hb) as [[? ?] _]. congruence.
Qed.

Lemma without_with_server id s users services t :
  integrity t -> t_servers t !! id = None ->
  without_server id (added_server id s users services t) = t.
Proof.
  intros Ht Hid. destruct (unused_server t id Ht Hid) as (Hal & Hb & Hi & Hv).
  destruct t as [us sv al bl ib mc sc col]. unfold without_server, added_server. simpl in *. f_equal.
  - by rewrite delete_insert_id.
  - apply leibniz_equiv. intros [a b]. rewrite elem_of_filter, elem_of_union, members_set_in. simpl.
    split; [tauto|]. intros Hin. split; [|by right]. intros ->. by eapply Hal.
  - apply map_filter_id. intros [[u sym] sid] x Hx. simpl. intros ->. by rewrite Hb in Hx.
  - apply map_filter_id. intros [u sid] x Hx. simpl. intros ->. by rewrite Hi in Hx.
  - apply map_eq. intros [[a m] p]. destruct (decide (a = id)) as [->|Hne].
    + rewrite Hv. apply map_lookup_filter_None. right. simpl. tauto.
    + apply option_eq. intros x. rewrite map_lookup_filter_Some, add_services_lookup by done. simpl. naive_solver.
Qed.

Lemma plain_printable s : plain_name s = true -> printable s = true.
Proof.
  intros Hs. unfold printable. apply forallb_forall. intros c Hc. apply list_elem_of_In in Hc.
  pose proof (plain_chars s c Hs Hc) as Hp. unfold plain_char in Hp.
  apply andb_true_iff in Hp as [[H1%N.leb_le H2]%andb_true_iff _]. apply andb_true_iff.
  split; [apply N.leb_le; lia|done].
Qed.

(** Tickers that PostgreSQL stores as they are given. *)
Definition good_tickers (symbols : list string) : Prop :=
  forallb plain_name symbols = true /\ Forall (fun s => (String.length s <= 10)%nat) symbols.

Lemma tickers_in_plain symbols :
  good_tickers symbols -> tickers_in (build_pg_array symbols) = inl symbols.
Proof.
  intros [Hp Hl]. unfold tickers_in. rewrite build_pg_array_literal, array_in_plain by done.
  replace (mapM (varchar_in 10) symbols) with (Some symbols); [done|]. symmetry.
  apply mapM_Some_2. rewrite forallb_forall in Hp.
  assert (forall s, s ∈ symbols -> plain_name s = true) as Hp'
    by (intros s Hs; by apply Hp, list_elem_of_In). clear Hp.
  induction Hl as [|s symbols Hs Hl IH]; constructor.
  - apply varchar_in_fits; [|done]. apply plain_printable, Hp'. left.
  - apply IH. intros s' Hs'. apply Hp'. by right.
Qed.

Lemma tickers_of_plain s symbols :
  forallb plain_name symbols = true -> sv_tickers s = Some symbols -> tickers_of s = symbols.
Proof. intros Hp Hs. unfold tickers_of. by rewrite Hs, array_out_plain, parse_literal. Qed.

(** C25: the life of a server.  What [create_server_with_services] stored is what
    [get_server] reads back (name, administrator, tickers, description and initial
    cash, for plain tickers and a printable description), and deleting the server
    right away leaves the tables exactly as they were before it was created. *)
Theorem server_roundtrip name admin description symbols users services usd c id c1 r c2 b c3 :
  integrity (stored c) -> cache_ok c -> good_tickers symbols ->
  printable description = true -> (String.length description <= 255)%nat ->
  create_server_with_services name admin description symbols users services usd c = (inl id, c1) ->
  get_server name c1 = (inl r, c2) ->
  delete_server name c2 = (inl b, c3) ->
  (exists admin_name,
    r = Some (mkServerRow id admin name admin_name symbols description
                (if t_initial_usd_column (stored c) then usd else 100000)) /\
    us_name <$> t_users (stored c) !! admin = Some admin_name) /\
  b = true /\ stored c3 = stored c.
Proof.
  intros Ht Hcache Hsym Hd1 Hd2 Hcreate Hget Hdel.
  assert (integrity (stored c1)) as Ht1.
  { pose proof (client_step_integrity _ _
      (step_create_server name admin description symbols users services usd c) Ht) as Hi.
    by rewrite Hcreate in Hi. }
  apply create_effect in Hcreate as (tickers & d' & Htk & Hd & Hst & Hfresh & [adm Hadm] & Hname & _ & _ & Hc1);
    [|done].
  rewrite tickers_in_plain in Htk by done. rewrite varchar_in_fits in Hd by done. simplify_eq.
  assert (t_servers (stored c1) !! id
    = Some (mkServerRec name (Some admin) (Some tickers) (Some d')
              (if t_initial_usd_column (stored c) then usd else 100000))) as Hid.
  { rewrite Hst. simpl. apply lookup_insert_eq. }
  apply get_server_effect in Hget as [Hst2 Hget]; [|done..].
  apply delete_effect in Hdel; [|by rewrite Hst2].
  rewrite Hst2 in Hdel. split.
  - destruct r as [row|]; [|exfalso; by eapply (Hget id)].
    destruct Hget as (id' & s & u & admin' & Hs & Hn & Ha & Hu & ->).
    assert (id' = id) as -> by (eapply (servers_unique _ Ht1); eauto).
    rewrite Hid in Hs. injection Hs as <-. injection Ha as <-.
    rewrite Hst in Hu. simpl in Hu. exists (us_name admin'). split; [|by rewrite Hu].
    unfold server_row. simpl.
    rewrite (tickers_of_plain _ tickers) by (done || apply Hsym). f_equal. f_equal.
    unfold initial_usd_of. rewrite Hst. simpl. by destruct (t_initial_usd_column (stored c)).
  - destruct b; [|exfalso; destruct Hdel as [_ Hdel]; by eapply Hdel].
    destruct Hdel as (id' & s & Hs & Hn & ->).
    assert (id' = id) as -> by (eapply (servers_unique _ Ht1); eauto).
    split; [done|]. rewrite Hst. by apply without_with_server.
Qed.
End RoundTrip.

(** A server with one member and one service. *)
Lemma server_roundtrip_witness :
  let create := @create_server_with_services healthy "lab" 1 "a lab" ["AAPL"; "GOOG"] [2]
                  [mkServiceInsertRow 1 mdp 9000] 5 sample_conn in
  (exists admin_name,
    Some (mkServerRow 1 1 "lab" "alice" ["AAPL"; "GOOG"] "a lab" 5)
    = Some (mkServerRow 1 1 "lab" admin_name ["AAPL"; "GOOG"] "a lab" 5) /\
    us_name <$> t_users sample_tables !! 1 = Some admin_name) /\
  true = true /\ stored (@delete_server healthy "lab" (@get_server healthy "lab" create.2).2).2 = sample_tables.
Proof.
  intros create.
  apply (@server_roundtrip healthy "lab" 1 "a lab" ["AAPL"; "GOOG"]%string [2]
           [mkServiceInsertRow 1 mdp 9000] 5 sample_conn 1 create.2 _ (@get_server healthy "lab" create.2).2).
  - apply sample_integrity.
  - by intros b [=].
  - split; [reflexivity|]. repeat constructor; simpl; lia.
  - reflexivity.
  - simpl. lia.
  - vm_compute. reflexivity.
  - vm_compute. reflexivity.
  - vm_compute. reflexivity.
Defined.

(** ** Configuring a server *)
Section Configure.
Context `{Postgres}.

(** Only the administrator of a server changes it.  [configure_server] answers
    true exactly when the caller is the administrator of a server of that name; the
    new tickers, description and members then replace the old ones and nothing else
    changes.  When it answers false, or an error whose commit is not in doubt, nothing
    changes at all. *)
Theorem configure_authorized name caller description symbols users c r c' :
  integrity (stored c) ->
  configure_server name caller description symbols users c = (r, c') ->
  match r with
  | inl true => exists id s tickers description',
      t_servers (stored c) !! id = Some s /\ sv_name s = name /\ sv_admin s = Some caller /\
      tickers_in (build_pg_array symbols) = inl tickers /\ varchar_in 255 description = Some description' /\
      stored c' = reconfigured id tickers description' users (stored c)
  | inl false => stored c' = stored c /\
      forall id s, t_servers (stored c) !! id = Some s -> sv_name s = name -> sv_admin s <> Some caller
  | inr _ => stored c' = stored c \/ in_doubt c'
  end.
Proof.
  intros Ht Hc. destruct r as [b|e].
  - unfold configure_server in Hc. txn_inv. named_rows Ht as id s Hs; txn_inv.
    + split; [by store_eq|]. intros id s Hs Hn. naive_solver.
    + match goal with H : (if negb (?a =? ?b) then _ else _) _ = _ |- _ =>
        destruct (Z.eqb_spec a b) as [->|Hne]; simpl in H; txn_inv end.
      2: { split; [by store_eq|]. intros id' s' Hs' Hn'.
           assert (id' = id) as -> by (eapply (servers_unique _ Ht); eauto). congruence. }
      match goal with H : for_each _ _ _ = _ |- _ => apply allowlist_loop in H as (? & ? & ? & ? & ? & ?) end.
      unfold update_servers, delete_allowlist, pure_stmt in *.
      repeat match goal with
      | H : (_, match tickers_in _ with _ => _ end) = _ |- _ => destruct (tickers_in _) as [tickers|] eqn:?
      | H : (_, match varchar_in _ _ with _ => _ end) = _ |- _ => destruct (varchar_in _ _) as [d|] eqn:?
      | H : (_, inl _) = (_, inl _) |- _ => injection H as ? ?
      | H : (_, inr _) = (_, inl _) |- _ => discriminate H
      end.
      exists id, s, tickers, d. split_and!; try done. by store_eq.
  - unfold configure_server in Hc. revert Hc. apply atomic_try.
    apply atomic_bind; [apply uncommitted_begin|intros _].
    apply atomic_bind; [apply uncommitted_reads, reads_select|intros [|[id s] ?]].
    { apply atomic_uncommitted, uncommitted_ret. }
    apply atomic_bind; [apply uncommitted_reads, reads_as|intros a].
    apply atomic_if; [apply atomic_uncommitted, uncommitted_ret|].
    do 2 (apply atomic_bind; [apply uncommitted_exec|intros _]).
    apply atomic_bind; [apply uncommitted_for_each; intros; apply uncommitted_exec|intros _].
    apply atomic_commit.
Qed.
End Configure.

Definition lab_conn : Conn :=
  (@create_server_with_services healthy "lab" 1 "a lab" ["AAPL"] [2] [] 5 sample_conn).2.

Lemma lab_integrity : integrity (stored lab_conn).
Proof.
  apply (@client_step_integrity healthy sample_conn); [apply step_create_server|apply sample_integrity].
Qed.

(** Alice, who created the server, changes it; bob, who is its member, cannot. *)
Lemma configure_authorized_witness :
  let bob := @configure_server healthy "lab" 2 "mine" [] [2] lab_conn in
  bob.1 = inl false /\ stored bob.2 = stored lab_conn.
Proof.
  intros bob. split; [vm_compute; reflexivity|].
  apply (@configure_authorized healthy "lab" 2 "mine" [] [2] lab_conn (inl false) bob.2).
  - apply lab_integrity.
  - vm_compute. reflexivity.
Defined.

(** ** Initial balances *)
Definition members (id admin : Z) (t : Tables) : gset Z :=
  list_to_set (allowed_users id t) ∪ {[ admin ]}.

Lemma allowed_users_spec id t u : u ∈ allowed_users id t <-> (id, u) ∈ t_allowlist t.
Proof.
  unfold allowed_users. rewrite list_elem_of_omap. split.
  - intros ([s v] & Hin & Hu). simpl in Hu. destruct (Z.eqb_spec s id); simplify_eq.
    by apply elem_of_elements.
  - intros Hin. exists (id, u). split; [by apply elem_of_elements|]. simpl. by rewrite Z.eqb_refl.
Qed.

(** The balances in which every user of [us] has cash. *)
Definition granted (id amount : Z) (us : gset Z) (m m' : gmap (Z * string * Z) Z) : Prop :=
  forall u sym sid,
    m' !! (u, sym, sid)
    = match m !! (u, sym, sid) with
      | Some x => Some x
      | None => if decide (sid = id /\ sym = "USD"%string /\ u ∈ us) then Some amount else None
      end.

Section Ensure.
Context `{Postgres}.

Lemma usd_fits : varchar_in 10 "USD" = Some "USD"%string.
Proof. apply varchar_in_fits; [reflexivity|simpl; lia]. Qed.

Lemma insert_usd_effect id amount users n c n' c' :
  insert_usd_loop id amount users n c = (Returned n', c') ->
  stored c' = stored c /\ m_has_servers_initial_usd_column c' = m_has_servers_initial_usd_column c /\
  exists m, work c' = set_balances (fun _ => m) (work c) /\
    granted id amount (list_to_set users) (t_balances (work c)) m /\
    n' = n + (Z.of_nat (size m) - Z.of_nat (size (t_balances (work c)))).
Proof.
  revert n c. induction users as [|v users IH]; intros n c Hl; simpl in Hl; txn_inv.
  - split_and!; [done..|]. exists (t_balances (work c')). split_and!; [by destruct (work c')| |lia].
    intros u sym sid. destruct (_ !! _); [done|]. rewrite decide_False; [done|]. set_solver.
  - apply IH in Hl as (Hs & Hm & m & Hw & Hg & ->). clear IH.
    match goal with H : insert_balances _ _ _ _ _ _ _ = _ |- _ =>
      unfold insert_balances, pure_stmt in H; rewrite usd_fits in H; stmt_inv H end; bool_facts.
    + match goal with H : work c = work _ |- _ => rewrite <- H in Hw, Hg |- *; clear H end.
      split_and!; [congruence..|]. exists m. split_and!; [done| |lia].
      intros u sym sid. rewrite (Hg u sym sid). destruct (t_balances (work c) !! (u, sym, sid)) eqn:E; [done|].
      apply decide_ext. split; [set_solver|]. intros (-> & -> & Hu). split_and!; try done.
      apply elem_of_union in Hu as [->%elem_of_singleton|]; [|done].
      match goal with H : is_Some _ |- _ => rewrite E in H; by destruct H end.
    + match goal with H : set_balances _ _ = work _ |- _ => rewrite <- H in Hw, Hg |- *; clear H end.
      simpl in *.
      split_and!; [congruence..|]. exists m. split_and!; [by rewrite Hw| |].
      * intros u sym sid. rewrite (Hg u sym sid).
        destruct (decide ((v, "USD"%string, id) = (u, sym, sid))) as [[= <- <- <-]|Hne].
        -- rewrite lookup_insert_eq.
           match goal with H : ~ is_Some _ |- _ => apply eq_None_not_Some in H as -> end.
           rewrite decide_True; [done|]. set_solver.
        -- rewrite lookup_insert_ne by done. destruct (t_balances (work c) !! (u, sym, sid)); [done|].
           apply decide_ext. set_solver.
      * rewrite map_size_insert_None by (by apply eq_None_not_Some). lia.
Qed.

Lemma usd_balance_exact usd : 0 <= usd <= INT_MAX -> usd_balance usd = 10000 * usd.
Proof.
  intros Hu. unfold usd_balance, INT_MAX in *. destruct (Z.eq_dec usd 0) as [->|]; [reflexivity|].
  rewrite !dmul_hundred by lia. rewrite trunc_i64_of_int by lia. lia.
Qed.

Lemma add_admin_set admin l l' :
  l ≡ₚ l' -> (list_to_set (add_admin admin l) : gset Z) = list_to_set l' ∪ {[ admin ]}.
Proof.
  intros Hl. unfold add_admin. case_bool_decide; apply leibniz_equiv; rewrite <- Hl; set_solver.
Qed.

Lemma ensure_effect name usd c n c' :
  integrity (stored c) -> cache_ok c -> ensure_initial_usd_balances name usd c = (inl n, c') ->
  exists id s admin, t_servers (stored c) !! id = Some s /\ sv_name s = name /\ sv_admin s = Some admin /\
    granted id (usd_balance (if t_initial_usd_column (stored c) then sv_initial_usd s else usd))
      (members id admin (stored c)) (t_balances (stored c)) (t_balances (stored c')) /\
    stored c' = set_balances (fun _ => t_balances (stored c')) (stored c) /\
    n = Z.of_nat (size (t_balances (stored c'))) - Z.of_nat (size (t_balances (stored c))) /\
    cache_ok c'.
Proof.
  intros Ht Hcache Hc. unfold ensure_initial_usd_balances in Hc. txn_inv. column_inv.
  match goal with Hp : ?rows ≡ₚ servers_named _ ?t |- _ =>
    replace t with (stored c) in Hp by congruence;
    apply servers_named_at_most_one in Hp as [[-> ?]|(id & s & -> & Hs & Hn)]; [| |exact Ht] end;
    txn_inv.
  match goal with H : insert_usd_loop _ _ _ _ _ = _ |- _ =>
    apply insert_usd_effect in H as (? & ? & m & Hw & Hg & ->) end.
  match goal with H : sv_admin s = Some ?a |- _ => rename H into Ha; set (admin := a) in * end.
  match goal with Hp : ?l ≡ₚ allowed_users _ _ |- _ => apply (add_admin_set admin) in Hp as Hset end.
  rewrite Hset in Hg. simpl in *.
  match goal with H : work ?x = set_balances _ (work ?y) |- _ =>
    replace (work y) with (stored c) in * by congruence end.
  match goal with H : forall x, _ -> ?b = x |- _ => assert (b = t_initial_usd_column (stored c)) as -> end.
  { refine (cached_column c _ _ Hcache _ _ Hsome Hnone); congruence. }
  assert (stored c' = set_balances (fun _ => m) (stored c)) as Hst' by congruence.
  exists id, s, admin. rewrite Hst'. split_and!; try done.
  intros b Hb. rewrite Hst'. simpl. congruence.
Qed.

(** Initial balances.  [ensure_initial_usd_balances] gives every member of the
    server, its administrator included, a cash balance of the initial amount in
    hundredths of a cent, and changes no balance that exists and nothing else; it
    returns the number of balances added, and a second run adds none and changes
    nothing. *)
Theorem initial_balances name usd c n c1 usd2 n2 c2 :
  integrity (stored c) -> cache_ok c ->
  ensure_initial_usd_balances name usd c = (inl n, c1) ->
  ensure_initial_usd_balances name usd2 c1 = (inl n2, c2) ->
  (exists id s admin amount, t_servers (stored c) !! id = Some s /\ sv_name s = name /\
     sv_admin s = Some admin /\
     amount = (if t_initial_usd_column (stored c) then sv_initial_usd s else usd) /\
     granted id (usd_balance amount) (members id admin (stored c)) (t_balances (stored c))
       (t_balances (stored c1)) /\
     (0 <= amount <= INT_MAX -> usd_balance amount = 10000 * amount)) /\
  stored c1 = set_balances (fun _ => t_balances (stored c1)) (stored c) /\
  n = Z.of_nat (size (t_balances (stored c1))) - Z.of_nat (size (t_balances (stored c))) /\
  n2 = 0 /\ stored c2 = stored c1.
Proof.
  intros Ht Hcache H1 H2.
  assert (integrity (stored c1)) as Ht1.
  { pose proof (client_step_integrity _ _ (step_ensure name usd c) Ht) as Hi. by rewrite H1 in Hi. }
  apply ensure_effect in H1 as (id & s & admin & Hs & Hn & Ha & Hg & Hst & Hcount & Hc1); [|done..].
  apply ensure_effect in H2 as (id2 & s2 & admin2 & Hs2 & Hn2 & Ha2 & Hg2 & Hst2 & Hcount2 & _); [|done..].
  assert (t_balances (stored c2) = t_balances (stored c1)) as Hsame.
  { assert (id2 = id /\ admin2 = admin) as [-> ->].
    { rewrite Hst in Hs2. simpl in Hs2.
      assert (id2 = id) as -> by (eapply (servers_unique _ Ht); [exact Hs2|exact Hs|congruence]).
      split; congruence. }
    apply map_eq. intros [[u sym] sid]. rewrite (Hg2 u sym sid).
    destruct (t_balances (stored c1) !! (u, sym, sid)) eqn:E; [done|].
    rewrite decide_False; [done|]. intros (-> & -> & Hu). rewrite (Hg u "USD"%string id) in E.
    destruct (t_balances (stored c) !! (u, "USD"%string, id)); [done|].
    rewrite decide_True in E; [done|]. split_and!; try done. by rewrite Hst in Hu. }
  split_and!; [|done|done|rewrite Hcount2, Hsame; lia|].
  - exists id, s, admin. eexists. split_and!; [done..|done|exact Hg|]. apply usd_balance_exact.
  - rewrite Hst2, Hsame. by destruct (stored c1).
Qed.
End Ensure.

Lemma initial_balances_witness :
  let r1 := @ensure_initial_usd_balances healthy "lab" 7 lab_conn in
  let r2 := @ensure_initial_usd_balances healthy "lab" 9 r1.2 in
  r1.1 = inl 2 /\ r2.1 = inl 0 /\ stored r2.2 = stored r1.2 /\
  t_balances (stored r1.2) !! (2, "USD"%string, 1) = Some 50000.
Proof.
  intros r1 r2. split; [vm_compute; reflexivity|]. split; [vm_compute; reflexivity|].
  split; [|vm_compute; reflexivity].
  apply (@initial_balances healthy "lab" 7 lab_conn 2 r1.2 9 0 r2.2).
  - apply lab_integrity.
  - vm_compute. by intros b [= <-].
  - vm_compute. reflexivity.
  - vm_compute. reflexivity.
Defined.

(** ** Signing up and logging in *)
Section Login.
Context `{Postgres}.

Lemma users_with_password_spec name password t u :
  u ∈ users_with_password name password t <->
  t_users t !! uw_user_id u = Some (mkUserRec name password) /\ uw_username u = name.
Proof.
  unfold users_with_password. rewrite list_elem_of_omap. split.
  - intros ([id [n p]] & Hin & Hu). apply elem_of_map_to_list in Hin. simpl in Hu.
    destruct (String.eqb_spec n name), (String.eqb_spec p password); simplify_eq/=. done.
  - intros [Hr Hn]. destruct u as [id nm]. simpl in *. subst.
    exists (id, mkUserRec name password). split; [by apply elem_of_map_to_list|]. simpl.
    by rewrite !String.eqb_refl.
Qed.

Lemma authenticate_effect name password c r c' :
  authenticate_user name password c = (inl r, c') ->
  stored c' = stored c /\
  match r with
  | Some u => t_users (stored c) !! uw_user_id u = Some (mkUserRec name password) /\ uw_username u = name
  | None => forall id, t_users (stored c) !! id <> Some (mkUserRec name password)
  end.
Proof.
  intros Hc. pose proof (read_step_stored _ _ (read_authenticate name password c)) as Hst.
  rewrite Hc in Hst. split; [done|]. unfold authenticate_user in Hc. txn_inv.
  match goal with Hp : ?rows ≡ₚ users_with_password _ _ ?t |- _ =>
    replace t with (stored c) in Hp by congruence; rename Hp into Hrows; rename rows into res end.
  destruct (head res) as [u|] eqn:Hh.
  - by apply (perm_head _ _ _ Hrows), users_with_password_spec in Hh.
  - destruct res; [|done]. apply perm_nil_eq in Hrows. intros id Hid.
    assert (mkUserRow id name ∈ users_with_password name password (stored c)) as Hin
      by by apply users_with_password_spec.
    rewrite Hrows in Hin. by apply elem_of_nil in Hin.
Qed.

Lemma create_user_effect name password c u c' :
  create_user name password c = (inl u, c') ->
  uw_username u = name /\ t_users (stored c) !! uw_user_id u = None /\
  (forall i r, t_users (stored c) !! i = Some r -> us_name r <> name) /\
  stored c' = set_users <[uw_user_id u := mkUserRec name password]> (stored c).
Proof.
  intros Hc. unfold create_user in Hc. txn_inv.
  match goal with H : insert_users _ _ _ _ = _ |- _ => unfold insert_users in H; stmt_inv H end.
  txn_inv. bool_facts. unfold has_user in *. bool_facts.
  replace (work x0) with (stored c) in * by congruence.
  split_and!; [done|by apply eq_None_not_Some| |congruence].
  intros i r Hr. apply String.eqb_neq. eauto.
Qed.

(** Signing up and logging in.  An account is created only for a name that nobody
    has; with a taken name [create_user] answers an error and nothing changes (unless
    its commit was in doubt).  Afterwards the new account, and no other, is returned
    for that name with the right password, and nothing for a wrong one; everybody
    else's log-in is as before. *)
Theorem signup_login name password c u c1 name' password' r c2 :
  create_user name password c = (u, c1) ->
  authenticate_user name' password' c1 = (inl r, c2) ->
  match u with
  | inl row =>
      (forall i x, t_users (stored c) !! i = Some x -> us_name x <> name) /\
      uw_username row = name /\
      (name' = name -> r = if decide (password' = password) then Some row else None) /\
      (name' <> name -> forall row', r = Some row' ->
         t_users (stored c) !! uw_user_id row' = Some (mkUserRec name' password'))
  | inr _ => stored c1 = stored c \/ in_doubt c1
  end.
Proof.
  intros Hu Hr. destruct u as [row|e].
  - apply create_user_effect in Hu as (Hn & Hid & Hfresh & Hst).
    apply authenticate_effect in Hr as [_ Hr]. rewrite Hst in Hr. simpl in Hr.
    split_and!; [done|done| |].
    + intros ->. destruct r as [[id nm]|].
      * destruct Hr as [Hr Hnm]. simpl in *. subst nm. apply lookup_insert_Some in Hr as [[Hi [= ->]]|[_ Hr]].
        -- rewrite decide_True by done. destruct row; simpl in *; by subst.
        -- exfalso. by eapply Hfresh.
      * destruct (decide _) as [->|]; [|done]. exfalso. apply (Hr (uw_user_id row)).
        apply lookup_insert_eq.
    + intros Hne row' ->. destruct Hr as [Hr _]. apply lookup_insert_Some in Hr as [[_ [= -> ->]]|[_ Hr]]; done.
  - revert Hu. apply atomic_try. apply atomic_bind; [apply uncommitted_begin|intros _].
    apply atomic_exec. intros t q q' t' rows Hins. unfold insert_users in Hins. stmt_inv Hins.
    apply atomic_commit.
Qed.
End Login.

Lemma signup_login_witness :
  (forall i x, t_users sample_tables !! i = Some x -> us_name x <> "carol"%string) /\
  "carol"%string = "carol"%string /\
  ("carol" = "carol" -> Some (mkUserRow 3 "carol") =
     if decide ("pw" = "pw") then Some (mkUserRow 3 "carol") else None)%string /\
  ("carol" <> "carol" -> forall row', Some (mkUserRow 3 "carol") = Some row' ->
     t_users sample_tables !! uw_user_id row' = Some (mkUserRec "carol" "pw"))%string.
Proof.
  apply (@signup_login healthy "carol" "pw" sample_conn (inl (mkUserRow 3 "carol"))
           (@create_user healthy "carol" "pw" sample_conn).2 "carol" "pw" (Some (mkUserRow 3 "carol"))
           (@authenticate_user healthy "carol" "pw" (@create_user healthy "carol" "pw" sample_conn).2).2).
  - vm_compute. reflexivity.
  - vm_compute. reflexivity.
Defined.

(** ** A server can be created *)
Section Succeeds.
Context `{Postgres}.

(** Nothing fails from request [n] on. *)
Definition reliable_from (n : nat) : Prop := forall k, (n <= k)%nat -> fault k = None.

Lemma exec_runs {A} (stmt : Stmt A) c q t a :
  reliable_from (requests c) -> stmt (work c) (sequences c) = (q, inl (t, a)) ->
  exec stmt c = (Returned a, mkConn (stored c) t q (S (requests c)) (m_has_servers_initial_usd_column c)).
Proof. intros Hf Hs. unfold exec, request. rewrite Hf by lia. simpl. by rewrite Hs. Qed.

Lemma begin_runs c :
  reliable_from (requests c) ->
  begin_work c = (Returned tt, mkConn (stored c) (stored c) (sequences c) (S (requests c))
                                 (m_has_servers_initial_usd_column c)).
Proof. intros Hf. unfold begin_work, request. by rewrite Hf by lia. Qed.

Lemma commit_runs c :
  reliable_from (requests c) ->
  commit c = (Returned tt, mkConn (work c) (work c) (sequences c) (S (requests c))
                             (m_has_servers_initial_usd_column c)).
Proof. intros Hf. unfold commit. by rewrite Hf by lia. Qed.

Lemma column_runs c :
  reliable_from (requests c) ->
  exists c', servers_has_initial_usd_column c
    = (Returned (default (t_initial_usd_column (work c)) (m_has_servers_initial_usd_column c)), c') /\
    stored c' = stored c /\ work c' = work c /\ sequences c' = sequences c /\
    (requests c <= requests c')%nat.
Proof.
  intros Hf. unfold servers_has_initial_usd_column.
  destruct (m_has_servers_initial_usd_column c) as [b|]; [by exists c|].
  unfold query_column, mbind, txn_bind, select, request. rewrite Hf by lia. simpl.
  unfold set_column_cache. eexists. split.
  - f_equal. f_equal.
    match goal with |- context [row_order ?n ?A ?l] => rewrite (Permutation_length (row_order_perm n A l)) end.
    by destruct (t_initial_usd_column (work c)).
  - simpl. auto.
Qed.

Lemma allowlist_runs server users c :
  reliable_from (requests c) -> is_Some (t_servers (work c) !! server) -> NoDup users ->
  Forall (fun u => (server, u) ∉ t_allowlist (work c) /\ is_Some (t_users (work c) !! u)) users ->
  exists c', for_each (fun uid => exec (insert_allowlist server uid)) users c = (Returned tt, c') /\
    t_servers (work c') = t_servers (work c) /\ t_machines (work c') = t_machines (work c) /\
    t_services (work c') = t_services (work c) /\ (requests c <= requests c')%nat.
Proof.
  revert c. induction users as [|u users IH]; intros c Hf Hs Hnd Hall; simpl; [by exists c|].
  apply NoDup_cons in Hnd as [Hu Hnd]. apply Forall_cons in Hall as [[Hnot Huser] Hall].
  unfold mbind, txn_bind. erewrite exec_runs; [|done|].
  2: { unfold insert_allowlist, pure_stmt. rewrite bool_decide_eq_false_2 by done.
       rewrite (proj2 (has_server_spec _ _) Hs), (proj2 (has_user_spec _ _) Huser). done. }
  match goal with |- context [for_each _ _ ?c1] => destruct (IH c1) as (c' & -> & ? & ? & ? & ?) end;
    [by intros k Hk; apply Hf; simpl in *; lia|done|done| |].
  - eapply Forall_impl; [|].
    + apply Forall_and. split; [exact Hall|]. apply Forall_forall. intros x Hx. exact Hx.
    + simpl. intros x [[Hn ?] Hin]. split; [|done]. set_solver.
  - exists c'. simpl in *. split_and!; try done; lia.
Qed.

Lemma service_type_known s : service_enum_to_str s ∈ service_types.
Proof. destruct s; simpl; set_solver. Qed.

Lemma services_run server services c :
  reliable_from (requests c) -> is_Some (t_servers (work c) !! server) ->
  NoDup (map (fun s => (si_machine_id s, si_port s)) services) ->
  Forall (fun s => 1 <= si_port s <= 65535 /\ is_Some (t_machines (work c) !! si_machine_id s) /\
                   t_services (work c) !! (server, si_machine_id s, si_port s) = None) services ->
  exists c', for_each (insert_service_row server) services c = (Returned tt, c') /\
    (requests c <= requests c')%nat.
Proof.
  revert c. induction services as [|s services IH]; intros c Hf Hs Hnd Hall; simpl; [by exists c|].
  apply NoDup_cons in Hnd as [Hu Hnd]. apply Forall_cons in Hall as [(Hport & Hmach & Hfree) Hall].
  unfold mbind, txn_bind. unfold insert_service_row at 1. erewrite exec_runs; [|done|].
  2: { unfold insert_services, pure_stmt. rewrite bool_decide_eq_true_2 by apply service_type_known.
       rewrite !(proj2 (Z.leb_le _ _)) by lia. simpl.
       rewrite bool_decide_eq_false_2 by (by rewrite Hfree; intros [? ?]).
       rewrite (proj2 (has_server_spec _ _) Hs), bool_decide_eq_true_2 by done. done. }
  match goal with |- context [for_each _ _ ?c1] => destruct (IH c1) as (c' & -> & ?) end;
    [by intros k Hk; apply Hf; simpl in *; lia|done|done| |].
  - apply Forall_forall. intros x Hx. rewrite Forall_forall in Hall. destruct (Hall x Hx) as (? & ? & ?).
    simpl. split_and!; [lia..|done|]. rewrite lookup_insert_ne; [done|]. intros [= Hm Hp].
    apply Hu. apply list_elem_of_fmap. exists x. by rewrite Hm, Hp.
  - exists c'. simpl in *. split; [done|lia].
Qed.

Lemma insert_servers_runs name admin description symbols usd t q :
  let id := servers_seq q + 1 in
  id <= INT_MAX -> t_servers t !! id = None ->
  (forall i s, t_servers t !! i = Some s -> sv_name s <> name) -> is_Some (t_users t !! admin) ->
  good_tickers symbols -> printable description = true -> (String.length description <= 255)%nat ->
  (is_Some usd -> t_initial_usd_column t = true) ->
  insert_servers name admin description (build_pg_array symbols) usd t q
  = (mkSequences (users_seq q) id,
     inl (set_servers <[id := mkServerRec name (Some admin) (Some symbols) (Some description)
                                (default 100000 usd)]> t, [id])).
Proof.
  intros id Hseq Hid Hname Hadmin Hsym Hd1 Hd2 Husd. unfold insert_servers.
  rewrite tickers_in_plain, varchar_in_fits by done. fold id. rewrite (proj2 (Z.ltb_ge _ _)) by lia.
  replace (has_server id t) with false
    by (symmetry; apply bool_decide_eq_false_2; rewrite Hid; by intros [? ?]).
  replace (none_of _ (t_servers t)) with true
    by (symmetry; apply none_of_spec; intros k v Hv; apply String.eqb_neq; eauto).
  rewrite (proj2 (has_user_spec _ _) Hadmin). simpl.
  destruct (bool_decide (is_Some usd)) eqn:E; [|done].
  rewrite Husd by (by apply bool_decide_eq_true in E). done.
Qed.

(** A well-formed request for a server is granted.  When the database answers, the
    name is free, the administrator and the members exist, no member is listed twice,
    the tickers and the description fit their columns and the services have known
    machines and distinct valid ports, [create_server_with_services] returns the next
    id of the sequence. *)
Theorem create_server_succeeds name admin description symbols users services usd c :
  integrity (stored c) -> cache_ok c -> reliable_from (requests c) ->
  servers_seq (sequences c) < INT_MAX -> t_servers (stored c) !! (servers_seq (sequences c) + 1) = None ->
  (forall i s, t_servers (stored c) !! i = Some s -> sv_name s <> name) ->
  is_Some (t_users (stored c) !! admin) ->
  good_tickers symbols -> printable description = true -> (String.length description <= 255)%nat ->
  NoDup users -> Forall (fun u => is_Some (t_users (stored c) !! u)) users ->
  NoDup (map (fun s => (si_machine_id s, si_port s)) services) ->
  Forall (fun s => 1 <= si_port s <= 65535 /\ is_Some (t_machines (stored c) !! si_machine_id s)) services ->
  (create_server_with_services name admin description symbols users services usd c).1
  = inl (servers_seq (sequences c) + 1).
Proof.
  intros Ht Hcache Hf Hseq Hid Hname Hadmin Hsym Hd1 Hd2 Hnd Husers Hnds Hsv.
  set (id := servers_seq (sequences c) + 1) in *.
  destruct (unused_server _ _ Ht Hid) as (Hal & _ & _ & Hvs).
  unfold create_server_with_services, try_catch, mbind, txn_bind. rewrite begin_runs by done.
  match goal with |- context [servers_has_initial_usd_column ?c1] =>
    destruct (column_runs c1) as (c2 & -> & Hs2 & Hw2 & Hq2 & Hr2) end.
  { intros k Hk. apply Hf. simpl in Hk. lia. }
  simpl in *. set (b := default _ _).
  assert (b = t_initial_usd_column (stored c)) as Hb.
  { unfold b. destruct (m_has_servers_initial_usd_column c) as [x|] eqn:E; [|done]. by apply Hcache. }
  erewrite exec_runs; [|intros k Hk; apply Hf; lia|].
  2: { rewrite Hw2, Hq2. apply insert_servers_runs; try done; [fold id; lia|].
       rewrite Hb. by destruct (t_initial_usd_column (stored c)). }
  cbn match. cbv beta. fold id.
  match goal with |- context [for_each (fun uid => exec _) _ ?c3] =>
    destruct (allowlist_runs id users c3) as (c4 & -> & Hsv4 & Hmc4 & Hsc4 & Hr4) end.
  { intros k Hk. apply Hf. simpl in Hk. lia. }
  { simpl. rewrite lookup_insert_eq. eauto. }
  { done. }
  { eapply Forall_impl; [exact Husers|]. simpl. intros u Hu. split; [apply Hal|done]. }
  simpl in Hsv4, Hmc4, Hsc4, Hr4.
  destruct (services_run id services c4) as (c5 & -> & Hr5).
  { intros k Hk. apply Hf. simpl in Hk. lia. }
  { rewrite Hsv4, lookup_insert_eq. eauto. }
  { done. }
  { rewrite Hmc4, Hsc4. eapply Forall_impl; [exact Hsv|]. simpl. intros s [? ?]. split_and!; [lia..|done|].
    apply Hvs. }
  rewrite commit_runs; [done|]. intros k Hk. apply Hf. lia.
Qed.
End Succeeds.

Lemma create_server_succeeds_witness :
  (@create_server_with_services healthy "lab" 1 "a lab" ["AAPL"; "GOOG"] [2]
     [mkServiceInsertRow 1 mdp 9000; mkServiceInsertRow 1 gateway 9001] 5 sample_conn).1 = inl (0 + 1).
Proof.
  apply (@create_server_succeeds healthy); simpl.
  - apply sample_integrity.
  - by intros b [=].
  - by intros k _.
  - unfold INT_MAX. lia.
  - reflexivity.
  - intros i s Hs. by rewrite lookup_empty in Hs.
  - by eexists.
  - split; [reflexivity|]. repeat constructor; simpl; lia.
  - reflexivity.
  - lia.
  - by repeat constructor; set_solver.
  - repeat constructor; by eexists.
  - repeat constructor; set_solver.
  - repeat constructor; simpl; try lia; by eexists.
Defined.
