(* ===== verification/DatabaseEffects.v ===== *)
(** * Effects of the database operations, whatever their outcome

    For each operation that the backend uses to change the core database, what it
    leaves in the tables when it succeeds; when it fails, the tables are as before, or
    the commit was applied although it was reported as failed. *)

From S2P Require Import Prelude Core Doubles PgArray Postgres DatabaseClient DatabaseTheorems DatabaseSpecs.
From Stdlib Require Import ZArith Lia Ascii String.
From stdpp Require Import base option list gmap strings sets fin_maps fin_sets.

Open Scope Z_scope.

(** [effect r t t' Φ]: the operation returned [r] and turned [t] into [t']. *)
Definition effect {A} (r : A + string) (t t' : Tables) (Φ : A -> Tables -> Prop) : Prop :=
  match r with
  | inl a => Φ a t'
  | inr _ => t' = t \/ exists a, Φ a t'
  end.

Lemma effect_keeps {A} (P : Tables -> Prop) (r : A + string) t t' Φ :
  effect r t t' Φ -> P t -> (forall a, Φ a t' -> P t') -> P t'.
Proof. destruct r as [a|e]; simpl; [eauto|]. intros [->|[a ?]]; eauto. Qed.

Lemma effect_impl {A} (r : A + string) t t' (Φ Ψ : A -> Tables -> Prop) :
  effect r t t' Φ -> (forall a, Φ a t' -> Ψ a t') -> effect r t t' Ψ.
Proof. destruct r as [a|e]; simpl; [auto|]. intros [->|[a ?]]; eauto. Qed.

Section Rules.
Context `{Postgres}.

Definition applies {A} (m : Txn (A + string)) (c : Conn) (Φ : A -> Tables -> Prop) : Prop :=
  match m c with
  | (Returned r, c') => effect r (stored c) (stored c') Φ
  | (Thrown e, c') => effect (inr e) (stored c) (stored c') Φ
  end.

Lemma applies_ret {A} (a : A) c (Φ : A -> Tables -> Prop) : Φ a (stored c) -> applies (mret (inl a)) c Φ.
Proof. done. Qed.
Lemma applies_error {A} e c (Φ : A -> Tables -> Prop) : applies (mret (inr e)) c Φ.
Proof. by left. Qed.

Lemma applies_bind {A B} (m : Txn A) (f : A -> Txn (B + string)) c (Φ : B -> Tables -> Prop) :
  uncommitted m ->
  (forall a c1, m c = (Returned a, c1) -> applies (f a) c1 Φ) -> applies (m ≫= f) c Φ.
Proof.
  intros Hm Hf. specialize (Hm c). unfold applies, mbind, txn_bind in *.
  destruct (m c) as [[a|e] c1]; simpl in Hm; [|by left].
  specialize (Hf a c1 eq_refl). by rewrite Hm in Hf.
Qed.

Lemma applies_commit {A} (a : A) c (Φ : A -> Tables -> Prop) :
  Φ a (work c) -> applies (_ ← commit; mret (inl a)) c Φ.
Proof.
  intros Ha. unfold applies, mbind, txn_bind, commit.
  destruct (fault (requests c)) as [[e []]|]; simpl; eauto.
Qed.

Lemma applies_try {A} prefix (body : Txn (A + string)) c (Φ : A -> Tables -> Prop) :
  applies body c Φ ->
  effect (try_catch prefix body c).1 (stored c) (stored (try_catch prefix body c).2) Φ.
Proof. unfold applies, try_catch. by destruct (body c) as [[r|e] c']. Qed.
End Rules.

(** Go on behind the first statement of a body. *)
Ltac next_stmt :=
  apply applies_bind;
  [ repeat match goal with |- uncommitted (for_each _ _) => apply uncommitted_for_each; intros end;
    solve [ apply uncommitted_begin | apply uncommitted_exec | apply uncommitted_reads, reads_column
          | apply uncommitted_reads, reads_select | apply uncommitted_reads, reads_as ]
  | intros ? ? ?; txn_inv ].

Section Effects.
Context `{Postgres}.

Lemma create_user_applies name password c :
  effect (create_user name password c).1 (stored c) (stored (create_user name password c).2)
    (fun u t' => uw_username u = name /\ t_users (stored c) !! uw_user_id u = None /\
       (forall i r, t_users (stored c) !! i = Some r -> us_name r <> name) /\
       t' = set_users <[uw_user_id u := mkUserRec name password]> (stored c)).
Proof.
  apply applies_try. do 2 next_stmt.
  match goal with H : insert_users _ _ _ _ = _ |- _ => unfold insert_users in H; stmt_inv H end.
  bool_facts. unfold has_user in *. bool_facts. apply applies_commit. simpl.
  match goal with H : work ?x = stored c |- _ => rewrite H in * end.
  split_and!; [done|by apply eq_None_not_Some| |congruence].
  intros i r Hr. apply String.eqb_neq. eauto.
Qed.

Lemma insert_balance_applies user server symbol balance c :
  effect (insert_balance user server symbol balance c).1 (stored c)
    (stored (insert_balance user server symbol balance c).2)
    (fun _ t' => exists symbol', varchar_in 10 symbol = Some symbol' /\
       t_balances (stored c) !! (user, symbol', server) = None /\
       is_Some (t_users (stored c) !! user) /\ is_Some (t_servers (stored c) !! server) /\
       t' = set_balances <[(user, symbol', server) := balance]> (stored c)).
Proof.
  apply applies_try. do 2 next_stmt.
  match goal with H : insert_balances _ _ _ _ _ _ _ = _ |- _ =>
    unfold insert_balances, pure_stmt in H; stmt_inv H end.
  bool_facts. apply applies_commit.
  match goal with H : work ?x = stored c |- _ => rewrite H in * end.
  eexists. split_and!; [done|by apply eq_None_not_Some|done|done|congruence].
Qed.

Lemma upsert_applies user server balance c :
  effect (upsert_init_bot_portfolio_balance user server balance c).1 (stored c)
    (stored (upsert_init_bot_portfolio_balance user server balance c).2)
    (fun _ t' => t' = set_init_bot <[(user, server) := balance]> (stored c)).
Proof.
  apply applies_try. do 2 next_stmt.
  match goal with H : upsert_init_bot _ _ _ _ _ = _ |- _ =>
    unfold upsert_init_bot, pure_stmt in H; stmt_inv H end.
  apply applies_commit. congruence.
Qed.

(** The columns of a server that are stored from its symbols and its description. *)
Definition described (srv : ServerRec) (symbols : list string) (description : string) : Prop :=
  exists tickers description', tickers_in (build_pg_array symbols) = inl tickers /\
    varchar_in 255 description = Some description' /\
    sv_tickers srv = Some tickers /\ sv_description srv = Some description'.

Lemma create_server_applies name admin description symbols users services usd c :
  let op := create_server_with_services name admin description symbols users services usd in
  effect (op c).1 (stored c) (stored (op c).2)
    (fun id t' => exists srv, sv_name srv = name /\ sv_admin srv = Some admin /\
       t_servers (stored c) !! id = None /\
       ((forall i s, t_servers (stored c) !! i = Some s -> sv_name s <> name) /\ described srv symbols description) /\
       t' = added_server id srv users services (stored c)).
Proof.
  intros op. apply applies_try. do 2 next_stmt. column_inv. next_stmt.
  match goal with H : insert_servers _ _ _ _ _ _ _ = _ |- _ =>
    apply insert_servers_effect in H as (id & tickers & description' & Htick & Hdesc & -> & Hins & Hid & _ & Hn & _)
  end.
  do 2 next_stmt.
  repeat match goal with
  | H : for_each (insert_service_row _) _ _ = _ |- _ => apply services_loop in H as (? & _ & _ & ?)
  | H : for_each _ _ _ = _ |- _ => apply allowlist_loop in H as (? & _ & _ & ? & _ & _)
  end.
  match type of Hid with t_servers ?t !! _ = _ => replace t with (stored c) in Hid, Hn by congruence end.
  apply applies_commit. eexists. split_and!; [| | | | |store_eq; reflexivity]; [done..|].
  by exists tickers, description'.
Qed.

Lemma configure_applies name caller description symbols users c :
  let op := configure_server name caller description symbols users in
  effect (op c).1 (stored c) (stored (op c).2)
    (fun b t' => if b : bool then exists id s tickers description',
       t_servers (stored c) !! id = Some s /\ sv_name s = name /\ sv_admin s = Some caller /\
       t' = reconfigured id tickers description' users (stored c)
     else t' = stored c).
Proof.
  intros op. apply applies_try. do 2 next_stmt.
  match goal with Hp : ?rows ≡ₚ servers_named _ _ |- _ => destruct rows as [|[id s] rows] end.
  { apply applies_ret. simpl. congruence. }
  assert ((id, s) ∈ servers_named name (stored c)) as [Hs Hn]%servers_named_spec.
  { match goal with H : work ?x = stored c, Hp : _ ≡ₚ _ |- _ => rewrite H in Hp; rewrite <- Hp end. left. }
  next_stmt. destruct (negb _) eqn:E; [apply applies_ret; simpl; congruence|].
  apply negb_false_iff, Z.eqb_eq in E. subst.
  do 3 next_stmt.
  match goal with H : for_each _ _ _ = _ |- _ => apply allowlist_loop in H as (? & _ & _ & ? & _ & _) end.
  unfold update_servers, delete_allowlist, pure_stmt in *.
  destruct (tickers_in _) as [tickers|]; [|done]. destruct (varchar_in _ _) as [description'|]; [|done].
  simplify_eq. apply applies_commit. exists id, s, tickers, description'. split_and!; [done..|].
  store_eq. reflexivity.
Qed.

Lemma delete_applies name c :
  effect (delete_server name c).1 (stored c) (stored (delete_server name c).2)
    (fun b t' => if b : bool then exists id s, t_servers (stored c) !! id = Some s /\ sv_name s = name /\
       t' = without_server id (stored c)
     else t' = stored c).
Proof.
  apply applies_try. do 2 next_stmt.
  match goal with Hp : ?rows ≡ₚ servers_named _ _ |- _ => destruct rows as [|[id s] rows] end.
  { apply applies_ret. simpl. congruence. }
  assert ((id, s) ∈ servers_named name (stored c)) as [Hs Hn]%servers_named_spec.
  { match goal with H : work ?x = stored c, Hp : _ ≡ₚ _ |- _ => rewrite H in Hp; rewrite <- Hp end. left. }
  do 4 next_stmt. apply applies_commit. exists id, s. split_and!; [done..|].
  unfold delete_allowlist, delete_balances_of_server, delete_services, delete_servers, pure_stmt in *.
  repeat match goal with H : (_, inl _) = (_, inl _) |- _ => injection H as ? ? end.
  match goal with H : (_, if ?b then _ else _) = _ |- _ => destruct b; [discriminate H|injection H as ? ?] end.
  store_eq. unfold without_server, set_servers, set_services, set_init_bot, set_balances, set_allowlist. simpl.
  f_equal. apply map_eq. intros k. apply option_eq. intros v.
  rewrite !map_lookup_filter_Some. tauto.
Qed.

(** ** What queries return *)
Lemma get_user_found name c r c' : get_user name c = (inl r, c') ->
  match r with
  | Some u => exists x, t_users (stored c) !! uw_user_id u = Some x /\ us_name x = name /\ uw_username u = name
  | None => forall i x, t_users (stored c) !! i = Some x -> us_name x <> name
  end.
Proof.
  intros Hg. unfold get_user in Hg. txn_inv.
  match goal with Hp : ?res ≡ₚ users_named _ ?t |- _ =>
    replace t with (stored c) in Hp by congruence; rename Hp into Hrows; rename res into rows end.
  destruct (head rows) as [u|] eqn:Hh; [by apply (perm_head _ _ _ Hrows), users_named_spec in Hh|].
  destruct rows; [|done]. apply perm_nil_eq in Hrows. intros i y Hy Hn.
  assert (mkUserRow i name ∈ users_named name (stored c)) as Hin by (apply users_named_spec; by exists y).
  rewrite Hrows in Hin. by apply elem_of_nil in Hin.
Qed.

Lemma get_server_found name c row c' : get_server name c = (inl (Some row), c') ->
  exists s, t_servers (stored c) !! sw_server_id row = Some s /\ sv_name s = name /\
    sv_admin s = Some (sw_admin_id row).
Proof.
  intros Hg. unfold get_server in Hg. txn_inv. column_inv.
  match goal with Hp : ?res ≡ₚ omap _ (servers_named _ ?t), Hh : _ <$> head ?res = _ |- _ =>
    replace t with (stored c) in Hp by congruence; rename Hp into Hrows; rename res into rows; rename Hh into Hhead end.
  destruct (head rows) as [[[id s] [u an]]|] eqn:Hh; simplify_eq/=.
  apply (perm_head _ _ _ Hrows), list_elem_of_omap in Hh as ([id' s'] & [Hs Hn]%servers_named_spec & Ha).
  unfold with_admin in Ha. simpl in Ha. destruct (sv_admin s') as [a|] eqn:Ea; [|done].
  destruct (t_users (stored c) !! a) as [adm|]; simplify_eq. eauto.
Qed.
End Effects.
