(* ===== verification/AsyncWriter.v ===== *)
(** * The asynchronous writer of the database client

    [AsyncWriter] and its write tasks in [libs/database/database_client.h].  The owner
    of the client enqueues tasks; a writer thread takes them, appends a row for each to
    a buffer of the QuestDB line sender and flushes the buffer now and then; the
    destructor stops the thread, appends what is left and flushes a last time.  The
    line sender is the interface [LineSender].  The two threads are a transition
    system whose steps are the accesses to the shared queue and flag. *)

From S2P Require Import Prelude Core Concurrency.
From Stdlib Require Import ZArith Lia Ascii String.
From stdpp Require Import base option list strings relations.

Open Scope Z_scope.

(** ** Texts of the enumerations *)
Definition side_to_string (s : Side) : string := match s with bid => "BID" | ask => "ASK" end.
Definition order_type_to_string (t : OrderType) : string :=
  match t with limit => "LIMIT" | market => "MARKET" end.
Definition tif_to_string (tif : TimeInForce) : string := match tif with day => "DAY" | gtc => "GTC" end.
Definition status_to_string (s : ExecTypeOrOrderStatus) : string :=
  match s with
  | status_new => "NEW"
  | status_partially_filled => "PARTIALLY_FILLED"
  | status_filled => "FILLED"
  | status_canceled => "CANCELED"
  | status_pending_cancel => "PENDING_CANCEL"
  | status_rejected => "REJECTED"
  end.

(** ** Write tasks *)
Inductive WriteTask :=
  | OrderInsertionTask (internal_order_id : Z) (new_order_request : NewOrderSingleContainer)
      (is_order_valid : bool)
  | CancelRequestInsertionTask (cancel_order_request : CancelOrderRequestContainer)
      (is_request_valid : bool)
  | ExecutionInsertionTask (execution_report : ExecutionReportContainer)
  | TradeInsertionTask (trade : TradeContainer)
  | CancelResponseInsertionTask (cancel_order_response : CancelOrderResponseContainer).

(** ** The line sender

    The calls that build a row; each may throw.  A row is open from its [table] to its
    [at].  [lb_rows] is the list of the rows of a buffer in which no row is open, and
    [ls_sent] what the server has received: they are only used to state the laws. *)
Inductive LineCall :=
  | LTable (name : string)
  | LSymbol (name value : string)
  | LInt (name : string) (value : Z)
  | LStr (name value : string)
  | LBool (name : string) (value : bool)
  | LAt                  (** [at] the present time *)
  | LAtMicros (ts : Z).  (** [at(timestamp_micros{ts})] *)

Abbreviation Row := (list LineCall).

Class LineSender := {
  line_buffer : Type;
  line_sender : Type;
  lb_call : line_buffer -> LineCall -> line_buffer * bool;        (** false: it throws *)
  lb_row_count : line_buffer -> Z;
  lb_size : line_buffer -> Z;
  ls_flush : line_sender -> line_buffer -> line_sender * line_buffer * bool;
  lb_rows : line_buffer -> option (list Row);
  ls_sent : line_sender -> list Row;
  sendable : Row -> bool
}.

Section Calls.
Context `{LineSender}.

(** [buffer.table(...).symbol(...)...at(...)]: the first call that throws ends the
    chain, and what was put into the buffer stays there. *)
Fixpoint chain (b : line_buffer) (calls : list LineCall) : line_buffer * bool :=
  match calls with
  | [] => (b, true)
  | call :: calls' =>
      let '(b', ok) := lb_call b call in
      if ok then chain b' calls' else (b', false)
  end.
End Calls.

(** Documented behaviour of the sender: a valid row is appended, the counters count, and
    a flush that succeeds sends the rows in order and empties the buffer. *)
Class LineSenderLaws `{LineSender} := {
  chain_row : forall b rows row, lb_rows b = Some rows -> sendable row = true ->
    exists b', chain b row = (b', true) /\ lb_rows b' = Some (rows ++ [row]);
  row_count_rows : forall b rows, lb_rows b = Some rows -> lb_row_count b = Z.of_nat (length rows);
  size_rows : forall b rows, lb_rows b = Some rows -> (0 <? lb_size b) = negb (Nat.eqb (length rows) 0);
  flush_rows : forall s b s' b' rows, lb_rows b = Some rows -> ls_flush s b = (s', b', true) ->
    ls_sent s' = ls_sent s ++ rows /\ lb_rows b' = Some []
}.

Section Writer.
Context `{LineSender} (SERVER_NAME : string).

(** ** The rows *)
Definition orders_table : LineCall := LTable ("orders_" +:+ SERVER_NAME)%string.
Definition trades_table : LineCall := LTable ("trades_" +:+ SERVER_NAME)%string.

Definition order_row (internal_order_id : Z) (r : NewOrderSingleContainer) (is_order_valid : bool) : Row :=
  [orders_table;
   LSymbol "symbol" (no_symbol r);
   LSymbol "side" (side_to_string (no_side r));
   LSymbol "ord_type" (order_type_to_string (no_ord_type r));
   LSymbol "time_in_force" (tif_to_string (no_time_in_force r));
   LSymbol "order_status" (if is_order_valid then "NEW" else "REJECTED")%string;
   LStr "sender_comp_id" (no_sender_comp_id r);
   LInt "order_id" internal_order_id;
   LInt "cl_order_id" (no_cl_ord_id r);
   LInt "order_qty" (no_order_qty r);
   LInt "filled_qty" 0;
   LInt "price" (default 0 (no_price r));
   LAt].

Definition cancel_request_row (r : CancelOrderRequestContainer) (is_request_valid : bool) : Row :=
  [orders_table;
   LSymbol "symbol" (cr_symbol r);
   LSymbol "side" (side_to_string (cr_side r));
   LSymbol "order_status" (if is_request_valid then "PENDING_CANCEL" else "REJECTED_CANCEL")%string;
   LStr "sender_comp_id" (cr_sender_comp_id r);
   LInt "order_id" (default (-1) (cr_order_id r));
   LInt "cl_order_id" (cr_orig_cl_ord_id r);
   LInt "order_qty" (cr_order_qty r);
   LInt "filled_qty" 0;
   LAt].

(** The quantity of the order is the sum of two [int]s. *)
Definition execution_row (r : ExecutionReportContainer) : res Row :=
  order_qty ← add32 (er_leaves_qty r) (er_cum_qty r);
  Ok [orders_table;
      LSymbol "symbol" (er_symbol r);
      LSymbol "side" (side_to_string (er_side r));
      LSymbol "order_status" (status_to_string (er_ord_status r));
      LSymbol "time_in_force" (tif_to_string (er_time_in_force r));
      LStr "sender_comp_id" (er_sender_comp_id r);
      LInt "order_id" (er_order_id r);
      LInt "cl_order_id" (er_cl_order_id r);
      LInt "order_qty" order_qty;
      LInt "filled_qty" (er_cum_qty r);
      LInt "price" (default 0 (er_price r));
      LAt].

Definition trade_row (t : TradeContainer) : Row :=
  [trades_table;
   LSymbol "symbol" (tc_ticker t);
   LInt "price" (tc_price t);
   LInt "quantity" (tc_quantity t);
   LStr "trade_id" (tc_trade_id t);
   LStr "taker_id" (tc_taker_id t);
   LStr "maker_id" (tc_maker_id t);
   LInt "taker_order_id" (tc_taker_order_id t);
   LInt "maker_order_id" (tc_maker_order_id t);
   LBool "is_taker_buyer" (tc_is_taker_buyer t);
   LAt].

(** This row goes to the table [orders], which belongs to no server. *)
Definition cancel_response_row (r : CancelOrderResponseContainer) : Row :=
  [LTable "orders";
   LSymbol "order_status" (if cs_success r then "CANCELLED" else "REJECTED_CANCEL")%string;
   LInt "order_id" (cs_order_id r);
   LAt].

Definition task_row (task : WriteTask) : res Row :=
  match task with
  | OrderInsertionTask id r valid => Ok (order_row id r valid)
  | CancelRequestInsertionTask r valid => Ok (cancel_request_row r valid)
  | ExecutionInsertionTask r => execution_row r
  | TradeInsertionTask t => Ok (trade_row t)
  | CancelResponseInsertionTask r => Ok (cancel_response_row r)
  end.

(** [append(t)]: an exception is swallowed. *)
Definition append (b : line_buffer) (task : WriteTask) : res line_buffer :=
  row ← task_row task;
  Ok (chain b row).1.

(** ** The threads *)
Record AsyncWriter := mkAsyncWriter {
  m_flush_threshold : Z;
  m_flush_interval : Z;            (** milliseconds *)
  m_sender : line_sender;
  m_buffer : line_buffer;
  last_flush : Z                   (** the local variable of [writer_loop] *)
}.

Definition set_buffer (w : AsyncWriter) (b : line_buffer) : AsyncWriter :=
  mkAsyncWriter (m_flush_threshold w) (m_flush_interval w) (m_sender w) b (last_flush w).

Definition due (w : AsyncWriter) (now : Z) : bool :=
  ((0 <? lb_row_count (m_buffer w)) && (m_flush_interval w <? now - last_flush w)
   || (u64 (m_flush_threshold w) <=? lb_row_count (m_buffer w)))%bool.

(** The end of an iteration of [writer_loop]: a failed flush throws out of the thread. *)
Definition flush_if_due (w : AsyncWriter) (now : Z) : res AsyncWriter :=
  if due w now then
    let '(s, b, ok) := ls_flush (m_sender w) (m_buffer w) in
    if ok then Ok (mkAsyncWriter (m_flush_threshold w) (m_flush_interval w) s b now)
    else Err Terminated
  else Ok w.

(** The last statement of the destructor, which swallows a failure. *)
Definition last_flush_of (w : AsyncWriter) : AsyncWriter :=
  if 0 <? lb_size (m_buffer w) then
    let '(s, b, _) := ls_flush (m_sender w) (m_buffer w) in
    mkAsyncWriter (m_flush_threshold w) (m_flush_interval w) s b (last_flush w)
  else w.

(** Where the writer thread and the destructor are. *)
Inductive phase :=
  | Draining   (** in the inner loop of [writer_loop] *)
  | Sleeping   (** at the end of an iteration *)
  | Closing    (** the thread has ended, the destructor drains the queue *)
  | Closed.    (** the destructor has returned *)

#[export] Instance phase_eq_dec : EqDecision phase.
Proof. solve_decision. Defined.

Record WriterState := mkWriterState {
  m_write_queue : list WriteTask;
  m_stop : bool;
  writer : AsyncWriter;
  where_ : phase
}.

Definition take (st : WriterState) : res WriterState :=
  match m_write_queue st with
  | [] => Err Blocked
  | task :: queue =>
      b ← append (m_buffer (writer st)) task;
      Ok (mkWriterState queue (m_stop st) (set_buffer (writer st) b) (where_ st))
  end.

Inductive wstep : WriterState -> option WriteTask -> WriterState -> Prop :=
  | step_enqueue st task : m_stop st = false ->
      wstep st (Some task) (mkWriterState (ThreadSafeQueue.enqueue (m_write_queue st) task) false
                              (writer st) (where_ st))
  | step_take st st' : where_ st = Draining \/ where_ st = Closing -> take st = Ok st' -> wstep st None st'
  | step_decide st w now : where_ st = Draining -> m_write_queue st = [] ->
      flush_if_due (writer st) now = Ok w ->
      wstep st None (mkWriterState [] (m_stop st) w Sleeping)
  | step_wake st : where_ st = Sleeping -> m_stop st = false ->
      wstep st None (mkWriterState (m_write_queue st) false (writer st) Draining)
  | step_exit st : where_ st = Sleeping -> m_stop st = true ->
      wstep st None (mkWriterState (m_write_queue st) true (writer st) Closing)
  | step_stop st : m_stop st = false ->
      wstep st None (mkWriterState (m_write_queue st) true (writer st) (where_ st))
  | step_close st : where_ st = Closing -> m_write_queue st = [] ->
      wstep st None (mkWriterState [] (m_stop st) (last_flush_of (writer st)) Closed).

Inductive wsteps : WriterState -> list WriteTask -> WriterState -> Prop :=
  | wsteps_nil st : wsteps st [] st
  | wsteps_cons st o st1 tasks st2 :
      wstep st o st1 -> wsteps st1 tasks st2 -> wsteps st (option_list o ++ tasks) st2.
End Writer.

(** ** Nothing is lost *)
Section Theorems.
Context `{LineSender} `{!LineSenderLaws} (SERVER_NAME : string).
Implicit Types st : WriterState.

(** The task has a row and the sender takes it. *)
Definition writable (task : WriteTask) : bool :=
  match task_row SERVER_NAME task with Ok row => sendable row | Err _ => false end.

Definition rows_of (tasks : list WriteTask) : list Row :=
  omap (fun t => match task_row SERVER_NAME t with Ok row => Some row | Err _ => None end) tasks.

Lemma rows_of_app t1 t2 : rows_of (t1 ++ t2) = rows_of t1 ++ rows_of t2.
Proof. apply omap_app. Qed.

(** Before the destructor returns: what was sent, what is buffered and what is queued
    make up the tasks so far. *)
Definition accounted (done : list Row) st : Prop :=
  where_ st <> Closed -> Forall (fun t => writable t = true) (m_write_queue st) /\
  exists buffered, lb_rows (m_buffer (writer st)) = Some buffered /\
    ls_sent (m_sender (writer st)) ++ buffered ++ rows_of (m_write_queue st) = done.

Lemma append_writable b rows task :
  lb_rows b = Some rows -> writable task = true ->
  exists b', append SERVER_NAME b task = Ok b' /\ lb_rows b' = Some (rows ++ rows_of [task]).
Proof.
  intros Hb Ht. unfold writable in Ht. unfold append, rows_of. simpl.
  destruct (task_row SERVER_NAME task) as [row|]; [|done]. simpl.
  destruct (chain_row b rows row Hb Ht) as (b' & -> & Hb'). eauto.
Qed.

Lemma flush_if_due_rows w now w' rows :
  lb_rows (m_buffer w) = Some rows -> flush_if_due w now = Ok w' ->
  exists rows', lb_rows (m_buffer w') = Some rows' /\
    ls_sent (m_sender w') ++ rows' = ls_sent (m_sender w) ++ rows /\ (due w now = true -> rows' = []).
Proof.
  intros Hb Hf. unfold flush_if_due in Hf. destruct (due w now); [|simplify_eq; by exists rows].
  destruct (ls_flush _ _) as [[s b] []] eqn:E; simplify_eq/=.
  destruct (flush_rows _ _ _ _ _ Hb E) as [-> ->]. exists []. by rewrite app_nil_r.
Qed.

Lemma wstep_accounted done st o st' :
  wstep SERVER_NAME st o st' -> Forall (fun t => writable t = true) (option_list o) ->
  accounted done st -> accounted (done ++ rows_of (option_list o)) st'.
Proof.
  intros Hs Ho Ha Hc. destruct Hs as [st task Hstop|st st' Hw Ht|st w now Hw Hq Hf|st Hw Hst|st Hw Hst|st Hst|st Hw Hq];
    simpl in *; change (rows_of []) with (@nil Row) in *; rewrite ?app_nil_r.
  - destruct (Ha Hc) as (Hall & rows & Hb & Hd). split.
    { apply Forall_app. split; [done|]. by apply Forall_cons in Ho as [? _]; repeat constructor. }
    exists rows. split; [done|]. unfold ThreadSafeQueue.enqueue. rewrite rows_of_app, <- Hd, !app_assoc. done.
  - destruct Ha as (Hall & rows & Hb & Hd); [by destruct Hw as [-> | ->]|].
    unfold take in Ht. destruct (m_write_queue st) as [|task queue] eqn:Eq; [done|].
    apply Forall_cons in Hall as [Htask Hall].
    destruct (append_writable _ _ _ Hb Htask) as (b' & Hap & Hb'). rewrite Hap in Ht. simpl in Ht. simplify_eq/=.
    split; [done|]. exists (rows ++ rows_of [task]). split; [done|].
    unfold rows_of at 1. simpl. destruct (task_row SERVER_NAME task); simpl; by rewrite <- !app_assoc.
  - destruct Ha as (Hall & rows & Hb & Hd); [congruence|]. rewrite Hq in Hd.
    destruct (flush_if_due_rows _ _ _ _ Hb Hf) as (rows' & Hb' & Heq & _).
    split; [done|]. exists rows'. split; [done|]. unfold rows_of in *. simpl in *. rewrite app_nil_r in *. congruence.
  - apply Ha. congruence.
  - apply Ha. congruence.
  - apply Ha. congruence.
  - done.
Qed.

Lemma wsteps_accounted done st tasks st' :
  wsteps SERVER_NAME st tasks st' -> Forall (fun t => writable t = true) tasks ->
  accounted done st -> accounted (done ++ rows_of tasks) st'.
Proof.
  intros Hs. revert done. induction Hs as [st|st o st1 tasks st2 H1 _ IH]; intros done Hall Ha.
  - unfold rows_of. simpl. by rewrite app_nil_r.
  - apply Forall_app in Hall as [Ho Hall]. rewrite rows_of_app, app_assoc.
    apply IH; [done|]. by eapply wstep_accounted.
Qed.

(** A new writer, about to enter [writer_loop], with an empty buffer. *)
Definition starts st : Prop :=
  m_write_queue st = [] /\ where_ st = Sleeping /\ lb_rows (m_buffer (writer st)) = Some [].

(** C23: the writer keeps the order and loses nothing.  However the owner's insertions
    and the writer thread interleave, and whenever the buffer is flushed, at every
    moment the rows that the server has received, followed by those in the buffer,
    followed by those of the queued tasks, are the rows of all tasks in the order of
    their insertion. *)
Theorem writer_in_order st tasks st' :
  starts st -> Forall (fun t => writable t = true) tasks ->
  wsteps SERVER_NAME st tasks st' -> where_ st' <> Closed ->
  exists buffered, lb_rows (m_buffer (writer st')) = Some buffered /\
    ls_sent (m_sender (writer st')) ++ buffered ++ rows_of (m_write_queue st')
    = ls_sent (m_sender (writer st)) ++ rows_of tasks.
Proof.
  intros (Hq & Hw & Hb) Hall Hs Hc.
  destruct (wsteps_accounted (ls_sent (m_sender (writer st))) _ _ _ Hs Hall) as (_ & Hres); [|done|done].
  intros _. rewrite Hq. split; [constructor|]. exists []. unfold rows_of. simpl. by rewrite app_nil_r.
Qed.

(** How many steps a stopped writer can still make. *)
Definition remaining st : nat :=
  (length (m_write_queue st) +
   match where_ st with Draining => 3 | Sleeping => 2 | Closing => 1 | Closed => 0 end)%nat.

Lemma stopped_step st o st' :
  m_stop st = true -> wstep SERVER_NAME st o st' ->
  o = None /\ m_stop st' = true /\ remaining st = S (remaining st').
Proof.
  intros Hst Hs. destruct Hs as [st task Hstop|st st' Hw Ht|st w now Hw Hq Hf|st Hw Hst'|st Hw Hst'|st Hst'|st Hw Hq];
    try congruence; unfold remaining.
  - unfold take in Ht. destruct (m_write_queue st) as [|task queue]; [done|].
    apply bind_ok in Ht as (b & _ & Ht). by simplify_eq/=.
  - rewrite Hw, Hq. done.
  - rewrite Hw. simpl. split_and!; try done; lia.
  - rewrite Hw, Hq. done.
Qed.

(** A stopped writer that has not returned can make a step. *)
Lemma stopped_enabled done st :
  (forall s b, (ls_flush s b).2 = true) -> accounted done st -> m_stop st = true -> where_ st <> Closed ->
  exists st', wstep SERVER_NAME st None st'.
Proof.
  intros Hflush Ha Hst Hc. destruct (Ha Hc) as (Hall & rows & Hb & _).
  destruct (m_write_queue st) as [|task queue] eqn:Eq.
  - destruct (where_ st) eqn:Ew; [| |eexists; by apply step_close|done].
    + assert (exists w, flush_if_due (writer st) 0 = Ok w) as [w Hw].
      { unfold flush_if_due. specialize (Hflush (m_sender (writer st)) (m_buffer (writer st))).
        destruct (due _ _); [|eauto]. destruct (ls_flush _ _) as [[s b] ok]. simpl in Hflush. subst. eauto. }
      eexists. by eapply step_decide.
    + eexists. by apply step_exit.
  - apply Forall_cons in Hall as [Htask _].
    destruct (append_writable _ _ _ Hb Htask) as (b' & Hap & _).
    destruct (where_ st) eqn:Ew; [| |  |done].
    + eexists. apply step_take; [auto|]. unfold take. by rewrite Eq, Hap.
    + eexists. by apply step_exit.
    + eexists. apply step_take; [auto|]. unfold take. by rewrite Eq, Hap.
Qed.

Lemma close_sends done st st' :
  (forall s b, (ls_flush s b).2 = true) -> accounted done st -> where_ st <> Closed ->
  wstep SERVER_NAME st None st' -> where_ st' = Closed -> ls_sent (m_sender (writer st')) = done.
Proof.
  intros Hflush Ha Hc Hs Hc'. destruct (Ha Hc) as (_ & rows & Hb & Hd).
  inversion Hs as [|? ? Hw Ht|? ? ? ? ? ?|? ?|? ?|? ?|? Hw Hq]; subst; simpl in *; try congruence.
  - unfold take in Ht. destruct (m_write_queue st); [done|]. apply bind_ok in Ht as (b & _ & Ht).
    by simplify_eq/=.
  - rewrite Hq. unfold rows_of. simpl. rewrite app_nil_r.
    unfold last_flush_of. rewrite (size_rows _ _ Hb). destruct rows as [|row rows]; simpl.
    + by rewrite app_nil_r.
    + specialize (Hflush (m_sender (writer st)) (m_buffer (writer st))).
      destruct (ls_flush _ _) as [[s b] ok] eqn:E. simpl in *. subst.
      by destruct (flush_rows _ _ _ _ _ Hb E) as [-> _].
Qed.

Definition silent st st' : Prop := wstep SERVER_NAME st None st'.

(** C24: shutting down ends and writes everything.  Once the destructor has set the
    stop flag, no run has more steps than the queue has tasks and three; a run can
    only end with the destructor returning; and when it has returned the server has
    received the rows of all tasks that were ever inserted, in order, if the
    connection to the server holds. *)
Theorem writer_shutdown st tasks st1 :
  (forall s b, (ls_flush s b).2 = true) ->
  starts st -> Forall (fun t => writable t = true) tasks ->
  wsteps SERVER_NAME st tasks st1 -> m_stop st1 = true -> where_ st1 <> Closed ->
  (forall n st2, nsteps silent n st1 st2 -> (n <= length (m_write_queue st1) + 3)%nat) /\
  (forall st2, rtc silent st1 st2 -> nf silent st2 ->
     where_ st2 = Closed /\
     ls_sent (m_sender (writer st2)) = ls_sent (m_sender (writer st)) ++ rows_of tasks).
Proof.
  intros Hflush (Hq & Hw & Hb) Hall Hs Hst Hc.
  assert (accounted (ls_sent (m_sender (writer st)) ++ rows_of tasks) st1) as Ha.
  { apply (wsteps_accounted _ _ _ _ Hs Hall). intros _. rewrite Hq. split; [constructor|].
    exists []. unfold rows_of. simpl. by rewrite app_nil_r. }
  clear Hs Hall. split.
  - intros n st2 Hn.
    assert (n + remaining st2 = remaining st1)%nat as Hrem; [|unfold remaining in Hrem; destruct (where_ st1), (where_ st2); lia].
    clear Ha Hc. induction Hn as [|n x y z Hxy Hn IH]; [done|].
    destruct (stopped_step _ _ _ Hst Hxy) as (_ & Hst' & ->). specialize (IH Hst'). lia.
  - intros st2 Hr Hnf. induction Hr as [x|x y z Hxy Hr IH].
    + destruct (stopped_enabled _ _ Hflush Ha Hst Hc) as [st' Hst']. exfalso. apply Hnf. by exists st'.
    + destruct (stopped_step _ _ _ Hst Hxy) as (_ & Hst' & _).
      destruct (decide (where_ y = Closed)) as [Ey|Ey].
      2: { apply IH; try done.
           pose proof (wstep_accounted _ _ _ _ Hxy ltac:(constructor) Ha) as Ha'.
           change (rows_of (option_list None)) with (@nil Row) in Ha'. by rewrite app_nil_r in Ha'. }
      pose proof (close_sends _ _ _ Hflush Ha Hc Hxy Ey) as Hsent.
      destruct Hr as [|y' z' w Hyz _]; [done|]. exfalso.
      inversion Hyz; subst; simpl in *; naive_solver congruence.
Qed.
End Theorems.

(** ** A concrete sender

    A buffer is its finished rows and the row that is open; out-of-turn calls throw; the
    connection never fails. *)
Definition sample_call (b : list Row * option Row) (call : LineCall) : (list Row * option Row) * bool :=
  match b.2, call with
  | None, LTable _ => ((b.1, Some [call]), true)
  | Some row, (LAt | LAtMicros _) => ((b.1 ++ [row ++ [call]], None), true)
  | Some _, LTable _ | None, _ => (b, false)
  | Some row, _ => ((b.1, Some (row ++ [call])), true)
  end.

Fixpoint ends_row (calls : Row) : bool :=
  match calls with
  | [] => false
  | [LAt] | [LAtMicros _] => true
  | LAt :: _ | LAtMicros _ :: _ | LTable _ :: _ => false
  | _ :: calls' => ends_row calls'
  end.

Definition sample_sendable (row : Row) : bool :=
  match row with LTable _ :: row' => ends_row row' | _ => false end.

#[export] Instance sample_sender : LineSender := {|
  line_buffer := list Row * option Row;
  line_sender := list Row;
  lb_call := sample_call;
  lb_row_count := fun b => Z.of_nat (length b.1);
  lb_size := fun b => Z.of_nat (length b.1 + length (option_list b.2));
  ls_flush := fun s b => (s ++ b.1, ([], None), true);
  lb_rows := fun b => match b.2 with None => Some b.1 | Some _ => None end;
  ls_sent := fun s => s;
  sendable := sample_sendable |}.

Lemma sample_chain rows start calls :
  ends_row calls = true ->
  chain (rows, Some start) calls = ((rows ++ [start ++ calls], None), true).
Proof.
  revert start. induction calls as [|c calls IH]; intros start Hc; [done|].
  destruct c; cbn [chain lb_call sample_sender sample_call fst snd]; try done;
    try (rewrite IH by (destruct calls; done); by rewrite <- app_assoc);
    (destruct calls as [|c' ?]; [done|]; by destruct c').
Qed.

#[export] Instance sample_sender_laws : LineSenderLaws.
Proof.
  constructor; simpl.
  - intros [rows o] rows' row Hr Hs. simpl in *. destruct o; simplify_eq/=.
    destruct row as [|[] row]; try done. cbn [chain lb_call sample_sender sample_call fst snd].
    rewrite sample_chain by done. eauto.
  - intros [rows []] rows' Hr; by simplify_eq/=.
  - intros [rows []] rows' Hr; simplify_eq/=. destruct rows'; [done|]. simpl. by rewrite Nat.add_0_r.
  - intros s [rows []] s' b' rows' Hr [= <- <-]; by simplify_eq/=.
Qed.

Definition sample_writer : AsyncWriter := @mkAsyncWriter sample_sender 64 100 [] ([], None) 0.
Definition sample_start : WriterState := mkWriterState [] false sample_writer Sleeping.
Definition sample_trade_task : WriteTask :=
  TradeInsertionTask (mkTradeContainer "AAPL" 15000 3 "t1" "alice" "bob" 7 8 true).
Definition sample_reply : WriteTask := CancelResponseInsertionTask (mkCancelResponse 9 1 true).

(** The thread takes the trade while the reply is inserted, then it is told to stop. *)
Definition sample_stopped : WriterState :=
  mkWriterState [sample_reply] true
    (@set_buffer sample_sender sample_writer ([trade_row "lab" (mkTradeContainer "AAPL" 15000 3 "t1" "alice" "bob" 7 8 true)], None)) Draining.

Lemma sample_run : wsteps "lab" sample_start [sample_trade_task; sample_reply] sample_stopped.
Proof.
  change [sample_trade_task; sample_reply] with (option_list (Some sample_trade_task) ++ (option_list None ++
    (option_list None ++ (option_list (Some sample_reply) ++ (option_list None ++ []))))).
  eapply wsteps_cons; [by apply step_enqueue|]. eapply wsteps_cons; [by apply step_wake|].
  eapply wsteps_cons; [apply step_take; [by left|reflexivity]|].
  eapply wsteps_cons; [by apply step_enqueue|]. eapply wsteps_cons; [by apply step_stop|]. apply wsteps_nil.
Qed.

Lemma writer_in_order_witness :
  exists buffered, @lb_rows sample_sender (m_buffer (writer sample_stopped)) = Some buffered /\
    @ls_sent sample_sender (m_sender (writer sample_stopped)) ++ buffered ++
      rows_of "lab" (m_write_queue sample_stopped)
    = @ls_sent sample_sender (m_sender (writer sample_start)) ++ rows_of "lab" [sample_trade_task; sample_reply].
Proof.
  apply (writer_in_order "lab" sample_start [sample_trade_task; sample_reply] sample_stopped).
  - done.
  - by repeat constructor.
  - apply sample_run.
  - done.
Defined.

Lemma writer_shutdown_witness :
  (forall n st2, nsteps (silent "lab") n sample_stopped st2 -> (n <= 1 + 3)%nat) /\
  (forall st2, rtc (silent "lab") sample_stopped st2 -> nf (silent "lab") st2 ->
     where_ st2 = Closed /\
     @ls_sent sample_sender (m_sender (writer st2)) = [] ++ rows_of "lab" [sample_trade_task; sample_reply]).
Proof.
  apply (writer_shutdown "lab" sample_start [sample_trade_task; sample_reply] sample_stopped).
  - done.
  - done.
  - by repeat constructor.
  - apply sample_run.
  - done.
  - done.
Defined.
