(* ===== verification/QuestDb.v ===== *)
(** * The database client: time series

    The operations of [DatabaseClient] on QuestDB: reading orders and trades, creating,
    dropping and truncating the tables of a server, inserting through the asynchronous
    writer, and the lazy connections.  QuestDB is reached over the wire protocol of
    PostgreSQL; what it decides is the interface [QuestServer].  The server name is
    pasted into the SQL text, so that the text after FROM is a table only for a name
    that is an identifier ([q_from]); creating, dropping and truncating tables are
    modelled for such names. *)

From S2P Require Import Prelude Core PgArray Postgres Fix Concurrency AsyncWriter.
From Stdlib Require Import ZArith Lia Ascii String.
From stdpp Require Import base option list gmap strings sorting.

Open Scope Z_scope.

Inductive QValue := QInt (z : Z) | QStr (s : string) | QBool (b : bool).

#[export] Instance QValue_eq_dec : EqDecision QValue.
Proof. solve_decision. Defined.

(** A null is a missing column. *)
Abbreviation QRow := (gmap string QValue).

Record QTable := mkQTable { qt_columns : list string; qt_rows : list QRow }.

Record QConn := mkQConn {
  q_tables : gmap string QTable;
  q_requests : nat;
  q_open : bool          (** [m_timeseries_db_sql_connection] is there and open *)
}.

Definition ident_char (c : ascii) : bool :=
  let n := N_of_ascii c in
  ((48 <=? n) && (n <=? 57) || (65 <=? n) && (n <=? 90) || (97 <=? n) && (n <=? 122) || (n =? 95))%N%bool.

Definition identifier (s : string) : bool := forallb ident_char (list_ascii_of_string s).

(** The order of ORDER BY timestamp ASC, trade_id ASC. *)
Definition ts_of (r : QRow) : Z := match r !! "timestamp"%string with Some (QInt z) => z | _ => 0 end.

Class QuestServer := {
  q_fault : nat -> option string;
  q_error : DbError -> string;
  q_from : gmap string QTable -> string -> QTable + DbError;
  q_order : nat -> list QRow -> list QRow;
  q_order_by_ts : list QRow -> list QRow;
  q_from_identifier : forall m name, identifier name = true ->
    q_from m name = match m !! name with Some t => inl t | None => inr UndefinedTable end;
  q_order_perm : forall n l, q_order n l ≡ₚ l;
  q_order_by_ts_perm : forall l, q_order_by_ts l ≡ₚ l;
  q_order_by_ts_sorted : forall l, StronglySorted (fun r r' => ts_of r <= ts_of r') (q_order_by_ts l)
}.

Record OrderRow := mkOrderRow {
  ow_order_id : Z;
  ow_cl_order_id : Z;
  ow_sender_comp_id : string;
  ow_symbol : string;
  ow_side : string;
  ow_order_qty : Z;
  ow_filled_qty : Z;
  ow_ord_type : string;
  ow_price : Z;
  ow_time_in_force : string;
  ow_order_status : string
}.

Record TradeRow := mkTradeRow {
  tw_price : Z;
  tw_quantity : Z;
  tw_symbol : string;
  tw_trade_id : string;
  tw_taker_id : string;
  tw_maker_id : string;
  tw_taker_order_id : Z;
  tw_maker_order_id : Z;
  tw_is_taker_buyer : bool
}.

Record HistoricalTradeRow := mkHistoricalTradeRow {
  hw_trade_id : string;
  hw_symbol : string;
  hw_price : Z;
  hw_quantity : Z;
  hw_ts_ms : Z
}.

Definition QTxn (A : Type) : Type := QConn -> outcome A * QConn.

#[export] Instance qtxn_ret : MRet QTxn := fun A a c => (Returned a, c).
#[export] Instance qtxn_bind : MBind QTxn := fun A B f m c =>
  match m c with
  | (Returned a, c') => f a c'
  | (Thrown e, c') => (Thrown e, c')
  end.

Definition q_try {A} (prefix : string) (body : QTxn A) (c : QConn) : (A + string) * QConn :=
  match body c with
  | (Returned r, c') => (inl r, c')
  | (Thrown e, c') => (inr (prefix +:+ e)%string, c')
  end.

Fixpoint q_map {A B} (f : A -> QTxn B) (l : list A) : QTxn (list B) :=
  match l with
  | [] => mret []
  | x :: l' => y ← f x; ys ← q_map f l'; mret (y :: ys)
  end.

Section Quest.
Context `{QuestServer}.

Definition q_throw {A} (e : DbError) : QTxn A := fun c => (Thrown (q_error e), c).

(** Any request may fail. *)
Definition q_request {A} (f : QTxn A) : QTxn A := fun c =>
  let c' := mkQConn (q_tables c) (S (q_requests c)) (q_open c) in
  match q_fault (q_requests c) with Some e => (Thrown e, c') | None => f c' end.

Definition ensure_timeseries_connection : QTxn unit := fun c =>
  if q_open c then (Returned tt, c)
  else q_request (fun c => (Returned tt, mkQConn (q_tables c) (q_requests c) true)) c.

Definition q_begin : QTxn unit := q_request (fun c => (Returned tt, c)).
Definition q_commit : QTxn unit := q_request (fun c => (Returned tt, c)).

(** [txn.exec("SELECT columns FROM table ...")]: every column must exist. *)
Definition q_select (columns : list string) (table : string) (query : nat -> list QRow -> list QRow)
    : QTxn (list QRow) :=
  q_request (fun c =>
    match q_from (q_tables c) table with
    | inr e => (Thrown (q_error e), c)
    | inl t =>
        if forallb (fun col => bool_decide (col ∈ qt_columns t)) columns
        then (Returned (query (q_requests c) (qt_rows t)), c)
        else (Thrown (q_error UndefinedColumn), c)
    end).

Definition q_exec (f : gmap string QTable -> gmap string QTable + DbError) : QTxn unit :=
  q_request (fun c =>
    match f (q_tables c) with
    | inl m => (Returned tt, mkQConn m (q_requests c) (q_open c))
    | inr e => (Thrown (q_error e), c)
    end).

(** [row["..."].as<int>(0)] and its like: the default for a null. *)
Definition as_int (row : QRow) (col : string) : QTxn Z :=
  match row !! col with
  | None => mret 0
  | Some (QInt z) => if in_i32 z then mret z else q_throw NullConversion
  | Some _ => q_throw NullConversion
  end.

Definition as_int64 (row : QRow) (col : string) : QTxn Z :=
  match row !! col with
  | None => mret 0
  | Some (QInt z) => if in_i64 z then mret z else q_throw NullConversion
  | Some _ => q_throw NullConversion
  end.

Definition as_string (row : QRow) (col : string) : QTxn string :=
  match row !! col with
  | None => mret ""%string
  | Some (QStr s) => mret s
  | Some (QInt z) => mret (to_string z)
  | Some (QBool b) => mret (if b then "t" else "f")%string
  end.

Definition as_bool (row : QRow) (col : string) : QTxn bool :=
  match row !! col with
  | None => mret false
  | Some (QBool b) => mret b
  | Some _ => q_throw NullConversion
  end.

Definition order_row_of (r : QRow) : QTxn OrderRow :=
  order_id ← as_int r "order_id";
  cl_order_id ← as_int r "cl_order_id";
  sender_comp_id ← as_string r "sender_comp_id";
  symbol ← as_string r "symbol";
  side ← as_string r "side";
  order_qty ← as_int r "order_qty";
  filled_qty ← as_int r "filled_qty";
  ord_type ← as_string r "ord_type";
  price ← as_int r "price";
  time_in_force ← as_string r "time_in_force";
  order_status ← as_string r "order_status";
  mret (mkOrderRow order_id cl_order_id sender_comp_id symbol side order_qty filled_qty ord_type
          price time_in_force order_status).

Definition query_orders (server_name : string) : QConn -> (list OrderRow + string) * QConn :=
  q_try "Error querying orders: " (
    _ ← ensure_timeseries_connection;
    _ ← q_begin;
    res ← q_select ["order_id"; "cl_order_id"; "sender_comp_id"; "symbol"; "side"; "order_qty";
                    "filled_qty"; "ord_type"; "price"; "time_in_force"; "order_status"]
            ("orders_" +:+ server_name) q_order;
    _ ← q_commit;
    q_map order_row_of res)%string.

Definition trade_row_of (r : QRow) : QTxn TradeRow :=
  price ← as_int r "price";
  quantity ← as_int r "quantity";
  symbol ← as_string r "symbol";
  trade_id ← as_string r "trade_id";
  taker_id ← as_string r "taker_id";
  maker_id ← as_string r "maker_id";
  taker_order_id ← as_int r "taker_order_id";
  maker_order_id ← as_int r "maker_order_id";
  is_taker_buyer ← as_bool r "is_taker_buyer";
  mret (mkTradeRow price quantity symbol trade_id taker_id maker_id taker_order_id maker_order_id
          is_taker_buyer).

Definition query_trades (server_name : string) : QConn -> (list TradeRow + string) * QConn :=
  q_try "Error querying trades: " (
    _ ← ensure_timeseries_connection;
    _ ← q_begin;
    res ← q_select ["price"; "quantity"; "symbol"; "trade_id"; "taker_id"; "maker_id";
                    "taker_order_id"; "maker_order_id"; "is_taker_buyer"]
            ("trades_" +:+ server_name) q_order;
    _ ← q_commit;
    q_map trade_row_of res)%string.

(** Trades of a symbol after a time in milliseconds.  The columns [symbol] and
    [timestamp] are also used by WHERE and ORDER BY. *)
Definition historical_row_of (r : QRow) : QTxn HistoricalTradeRow :=
  trade_id ← as_string r "trade_id";
  symbol ← as_string r "symbol";
  price ← as_int r "price";
  quantity ← as_int r "quantity";
  ts_micros ← as_int64 r "timestamp";
  mret (mkHistoricalTradeRow trade_id symbol price quantity (Z.quot ts_micros 1000)).

Definition selected (symbol : string) (after_ts_micros : Z) (r : QRow) : bool :=
  (bool_decide (r !! "symbol"%string = Some (QStr symbol)) &&
   match r !! "timestamp"%string with Some (QInt ts) => after_ts_micros <=? ts | _ => false end)%bool.

Definition query_trades_after (server_name symbol : string) (after_ts_ms : Z) (c : QConn)
    : res ((list HistoricalTradeRow + string) * QConn) :=
  match ensure_timeseries_connection c with
  | (Thrown e, c') => Ok (inr ("Error querying trades: " +:+ e)%string, c')
  | (Returned _, c') =>
      match q_begin c' with
      | (Thrown e, c') => Ok (inr ("Error querying trades: " +:+ e)%string, c')
      | (Returned _, c') =>
          after_ts_micros ← mul64 after_ts_ms 1000;
          Ok (q_try "Error querying trades: " (
                res ← q_select ["trade_id"; "symbol"; "price"; "quantity"; "timestamp"]
                        ("trades_" +:+ server_name)
                        (fun _ rows => q_order_by_ts (List.filter (selected symbol after_ts_micros) rows));
                _ ← q_commit;
                q_map historical_row_of res)%string c')
      end
  end.

(** ** Tables *)
Definition create_if_not_exists (name : string) (columns : list string) (m : gmap string QTable)
    : gmap string QTable + DbError :=
  match m !! name with
  | Some _ => inl m
  | None => inl (<[name := mkQTable columns []]> m)
  end.

Definition create_quest_tables (server_name : string) : QConn -> (unit + string) * QConn :=
  q_try ("Error creating orders and trades table for server " +:+ server_name +:+ ": ") (
    _ ← ensure_timeseries_connection;
    _ ← q_begin;
    _ ← q_exec (create_if_not_exists ("trades_" +:+ server_name)
                  ["ts"; "price"; "quantity"; "symbol"; "trade_id"; "taker_id"; "maker_id";
                   "taker_order_id"; "maker_order_id"; "is_taker_buyer"]);
    _ ← q_exec (create_if_not_exists ("orders_" +:+ server_name)
                  ["ts"; "order_id"; "cl_order_id"; "sender_comp_id"; "symbol"; "side"; "order_qty";
                   "filled_qty"; "ord_type"; "price"; "time_in_force"; "order_status"]);
    _ ← q_commit;
    mret tt)%string.

Definition drop_quest_tables (server_name : string) : QConn -> (unit + string) * QConn :=
  q_try ("Error dropping quest db table for server " +:+ server_name +:+ ": ") (
    _ ← ensure_timeseries_connection;
    _ ← q_begin;
    _ ← q_exec (fun m => inl (delete ("orders_" +:+ server_name) m));
    _ ← q_exec (fun m => inl (delete ("trades_" +:+ server_name) m));
    _ ← q_commit;
    mret tt)%string.

Definition truncate (prefix table server_name : string) (c : QConn) : (unit + string) * QConn :=
  match create_quest_tables server_name c with
  | (inr e, c') => (inr e, c')
  | (inl _, c') =>
      q_try prefix (
        _ ← ensure_timeseries_connection;
        _ ← q_begin;
        _ ← q_exec (fun m => match m !! (table +:+ server_name) with
                             | Some t => inl (<[table +:+ server_name := mkQTable (qt_columns t) []]> m)
                             | None => inr UndefinedTable
                             end);
        _ ← q_commit;
        mret tt)%string c'
  end.

Definition truncate_orders (server_name : string) : QConn -> (unit + string) * QConn :=
  truncate "Error truncating orders: " "orders_" server_name.
Definition truncate_trades (server_name : string) : QConn -> (unit + string) * QConn :=
  truncate "Error truncating trades: " "trades_" server_name.
End Quest.

(** ** Historical trades *)
Section History.
Context `{QuestServer}.

Lemma qtxn_returned {A B} (m : QTxn A) (f : A -> QTxn B) c b c' :
  (m ≫= f) c = (Returned b, c') <-> exists a c1, m c = (Returned a, c1) /\ f a c1 = (Returned b, c').
Proof.
  unfold mbind, qtxn_bind. split.
  - destruct (m c) as [[a|e] c1]; [|done]. eauto.
  - by intros (a & c1 & -> & ?).
Qed.

Lemma q_map_returned {A B} (f : A -> QTxn B) l c ys c' :
  (forall x c1 y c2, f x c1 = (Returned y, c2) -> c2 = c1) ->
  q_map f l c = (Returned ys, c') -> c' = c /\ Forall2 (fun x y => f x c = (Returned y, c)) l ys.
Proof.
  intros Hf. revert c ys. induction l as [|x l IH]; intros c ys Hm; simpl in Hm.
  - unfold mret, qtxn_ret in Hm. simplify_eq. split; [done|constructor].
  - apply qtxn_returned in Hm as (y & c1 & Hy & (ys' & c2 & Hys & Hr)%qtxn_returned).
    unfold mret, qtxn_ret in Hr. simplify_eq.
    assert (c1 = c) as -> by eauto. apply IH in Hys as [-> Hall]. split; [done|]. by constructor.
Qed.

(** Reading fields does not touch the connection. *)
Definition stays {A} (m : QTxn A) : Prop := forall c a c', m c = (Returned a, c') -> c' = c.

Lemma stays_ret {A} (a : A) : stays (mret a).
Proof. intros c x c' E. unfold mret, qtxn_ret in E. by simplify_eq. Qed.
Lemma stays_throw {A} e : stays (@q_throw _ A e).
Proof. by intros c x c' E. Qed.
Lemma stays_bind {A B} (m : QTxn A) (f : A -> QTxn B) :
  stays m -> (forall a, stays (f a)) -> stays (m ≫= f).
Proof.
  intros Hm Hf c b c' (a & c1 & Ha & Hb)%qtxn_returned.
  apply Hm in Ha as ->. by apply Hf in Hb.
Qed.
Lemma stays_int r col : stays (as_int r col).
Proof. unfold as_int. repeat case_match; auto using stays_ret, stays_throw. Qed.
Lemma stays_int64 r col : stays (as_int64 r col).
Proof. unfold as_int64. repeat case_match; auto using stays_ret, stays_throw. Qed.
Lemma stays_string r col : stays (as_string r col).
Proof. unfold as_string. repeat case_match; auto using stays_ret, stays_throw. Qed.

Lemma stays_historical r : stays (historical_row_of r).
Proof.
  unfold historical_row_of.
  repeat (apply stays_bind; [auto using stays_int, stays_int64, stays_string|intros ?]). apply stays_ret.
Qed.

Lemma historical_row_fields r c y :
  historical_row_of r c = (Returned y, c) ->
  hw_ts_ms y = Z.quot (ts_of r) 1000 /\
  (forall s, r !! "symbol"%string = Some (QStr s) -> hw_symbol y = s).
Proof.
  unfold historical_row_of.
  intros (tid & c1 & E1 & (sym & c2 & E2 & (p & c3 & E3 & (q & c4 & E4 & (ts & c5 & E5 & E6)%qtxn_returned)
    %qtxn_returned)%qtxn_returned)%qtxn_returned)%qtxn_returned.
  unfold mret, qtxn_ret in E6. simplify_eq/=. split.
  - unfold ts_of, as_int64 in *. repeat case_match; unfold mret, qtxn_ret, q_throw in *; by simplify_eq.
  - intros s Hs. unfold as_string in E2. rewrite Hs in E2. unfold mret, qtxn_ret in E2. by simplify_eq.
Qed.

Lemma keeps_connect c u c' :
  ensure_timeseries_connection c = (Returned u, c') -> q_tables c' = q_tables c.
Proof. unfold ensure_timeseries_connection, q_request. repeat case_match; intros; by simplify_eq/=. Qed.

(** [q_begin] and [q_commit]. *)
Lemma keeps_plain c u c' :
  q_request (fun c => (Returned tt, c)) c = (Returned u, c') -> q_tables c' = q_tables c.
Proof. unfold q_request. repeat case_match; intros; by simplify_eq/=. Qed.

Lemma q_exec_returned f c u c' : q_exec f c = (Returned u, c') -> f (q_tables c) = inl (q_tables c').
Proof.
  unfold q_exec, q_request. destruct (q_fault _); [done|]. cbn [q_tables].
  destruct (f _); intros; by simplify_eq/=.
Qed.

Lemma query_after_effect server symbol after c rows c' t :
  identifier ("trades_" +:+ server) = true -> q_tables c !! ("trades_" +:+ server)%string = Some t ->
  query_trades_after server symbol after c = Ok (inl rows, c') ->
  "timestamp"%string ∈ qt_columns t /\
  exists c1, Forall2 (fun r y => historical_row_of r c1 = (Returned y, c1))
    (q_order_by_ts (List.filter (selected symbol (after * 1000)) (qt_rows t))) rows.
Proof.
  intros Hid Ht Hq. unfold query_trades_after in Hq.
  destruct (ensure_timeseries_connection c) as [[u|e] c1] eqn:He; [|done]. apply keeps_connect in He.
  destruct (q_begin c1) as [[v|e] c2] eqn:Hb; [|done]. apply keeps_plain in Hb.
  apply bind_ok in Hq as (m & Hm & Hq). int_inv. injection Hq as Hq.
  unfold q_try in Hq. match type of Hq with (match ?X with _ => _ end) = _ => destruct X as [[x|e] c3] eqn:E end;
    simplify_eq/=.
  apply qtxn_returned in E as (res & c4 & Hsel & (w & c5 & _ & Hmap)%qtxn_returned).
  unfold q_select, q_request in Hsel. destruct (q_fault _); [done|]. cbn [q_tables] in Hsel.
  rewrite Hb, He, q_from_identifier, Ht in Hsel by done. destruct (forallb _ _) eqn:Hcol; [|done].
  injection Hsel as <- _. split.
  { rewrite forallb_forall in Hcol. eapply bool_decide_eq_true_1, Hcol. simpl. tauto. }
  exists c5.
  apply q_map_returned in Hmap as [_ Hall]; [done|apply stays_historical].
Qed.

Lemma selected_fields symbol after r :
  selected symbol after r = true -> r !! "symbol"%string = Some (QStr symbol) /\ after <= ts_of r.
Proof.
  unfold selected, ts_of. intros [Hs Ht]%andb_true_iff. apply bool_decide_eq_true in Hs. split; [done|].
  destruct (r !! "timestamp"%string) as [[]|]; try done. by apply Z.leb_le.
Qed.

(** Historical trades.  A successful query returns the trades of the symbol at or
    after the given time, each once, oldest first, with times in milliseconds; a time
    so large that it overflows in microseconds is undefined behaviour. *)
Theorem history_in_order server symbol after c rows c' t :
  identifier ("trades_" +:+ server) = true -> q_tables c !! ("trades_" +:+ server)%string = Some t ->
  query_trades_after server symbol after c = Ok (inl rows, c') ->
  StronglySorted (fun x y => hw_ts_ms x <= hw_ts_ms y) rows /\
  Forall (fun x => hw_symbol x = symbol /\ after <= hw_ts_ms x) rows /\
  length rows = length (List.filter (selected symbol (after * 1000)) (qt_rows t)).
Proof.
  intros Hid Ht Hq. destruct (query_after_effect _ _ _ _ _ _ _ Hid Ht Hq) as (_ & c1 & Hall). clear Hq.
  set (l := List.filter _ _) in *.
  pose proof (q_order_by_ts_perm l) as Hp. pose proof (q_order_by_ts_sorted l) as Hs.
  assert (Forall (fun r => selected symbol (after * 1000) r = true) (q_order_by_ts l)) as Hin.
  { apply Forall_forall. intros r Hr. rewrite Hp in Hr. unfold l in Hr.
    by apply list_elem_of_In, filter_In in Hr as [_ ?]. }
  split_and!.
  - clear Hin Hp. induction Hall as [|r y rs ys Hy Hys IH]; constructor.
    + apply IH. by inversion Hs.
    + apply StronglySorted_inv in Hs as [_ Hr]. apply historical_row_fields in Hy as [-> _].
      clear IH. induction Hys as [|r' y' rs ys Hy' Hys IH]; constructor.
      * apply historical_row_fields in Hy' as [-> _]. apply Z.quot_le_mono; [lia|]. by inversion Hr.
      * apply IH. by inversion Hr.
  - clear Hs Hp. induction Hall as [|r y rs ys Hy Hys IH]; constructor.
    + apply Forall_cons in Hin as [[Hsym Hts]%selected_fields _].
      apply historical_row_fields in Hy as [-> Hsy]. split; [by apply Hsy|].
      rewrite <- (Z.quot_mul after 1000) by lia. apply Z.quot_le_mono; lia.
    + apply IH. by apply Forall_cons in Hin as [_ ?].
  - rewrite <- (Forall2_length _ _ _ Hall). by apply Permutation_length.
Qed.

(** The table that the client creates for the trades of a server cannot be queried
    for historical trades.  [create_quest_tables] names the time column [ts], while
    the query reads [timestamp]: on a table made by the former the latter answers an
    error, whatever the server does. *)
Theorem created_history_fails server symbol after c c1 r c2 :
  identifier ("trades_" +:+ server) = true -> q_tables c !! ("trades_" +:+ server)%string = None ->
  create_quest_tables server c = (inl tt, c1) ->
  query_trades_after server symbol after c1 = Ok (r, c2) ->
  exists e, r = inr e.
Proof.
  intros Hid Hnone Hcr Hq. destruct r as [rows|e]; [exfalso|eauto].
  assert (exists t, q_tables c1 !! ("trades_" +:+ server)%string = Some t /\
            "timestamp"%string ∉ qt_columns t) as (t & Ht & Hcol).
  2: { by destruct (query_after_effect _ _ _ _ _ _ _ Hid Ht Hq) as [? _]. }
  unfold create_quest_tables, q_try in Hcr.
  match type of Hcr with (match ?X with _ => _ end) = _ => destruct X as [[x|e] c3] eqn:E end; simplify_eq/=.
  apply qtxn_returned in E as (? & d1 & He & (? & d2 & Hb & (? & d3 & Htr & (? & d4 & Hor &
    (? & d5 & Hco & Hr)%qtxn_returned)%qtxn_returned)%qtxn_returned)%qtxn_returned).
  unfold mret, qtxn_ret in Hr. simplify_eq.
  apply keeps_connect in He. apply keeps_plain in Hb. apply keeps_plain in Hco.
  apply q_exec_returned in Htr. apply q_exec_returned in Hor.
  unfold create_if_not_exists in Htr, Hor. rewrite Hb, He, Hnone in Htr. injection Htr as Htr.
  eexists. split.
  - rewrite Hco. destruct (q_tables d3 !! _) eqn:Eo; injection Hor as <-;
      rewrite ?lookup_insert_ne by done; rewrite <- Htr; apply lookup_insert_eq.
  - cbn [qt_columns]. rewrite !elem_of_cons, elem_of_nil. intuition discriminate.
Qed.
End History.

(** ** A concrete server *)
Definition ts_le (r r' : QRow) : Prop := ts_of r <= ts_of r'.
#[export] Instance ts_le_dec : RelDecision ts_le.
Proof. intros r r'. unfold ts_le. apply _. Defined.
#[export] Instance ts_le_total : Total ts_le.
Proof. intros r r'. unfold ts_le. lia. Qed.
#[export] Instance ts_le_trans : Transitive ts_le.
Proof. intros r r' r''. unfold ts_le. lia. Qed.

#[export] Instance sample_quest : QuestServer.
Proof.
  refine {|
    q_fault := fun _ => None;
    q_error := fun _ => "error"%string;
    q_from := fun m name => match m !! name with Some t => inl t | None => inr UndefinedTable end;
    q_order := fun _ l => l;
    q_order_by_ts := merge_sort ts_le |}.
  - done.
  - done.
  - intros l. apply merge_sort_Permutation.
  - intros l. apply (StronglySorted_merge_sort ts_le l).
Defined.

Definition sample_ticks : QTable :=
  mkQTable ["timestamp"; "trade_id"; "symbol"; "price"; "quantity"]
    [{[ "timestamp" := QInt 9000; "trade_id" := QStr "b"; "symbol" := QStr "AAPL"; "price" := QInt 5 ]};
     {[ "timestamp" := QInt 2000; "trade_id" := QStr "a"; "symbol" := QStr "AAPL"; "price" := QInt 4 ]}]%string.
Definition sample_qconn : QConn := mkQConn {[ "trades_lab"%string := sample_ticks ]} 0 false.

Lemma history_in_order_witness :
  StronglySorted (fun x y => hw_ts_ms x <= hw_ts_ms y)
    [mkHistoricalTradeRow "a" "AAPL" 4 0 2; mkHistoricalTradeRow "b" "AAPL" 5 0 9] /\
  Forall (fun x => hw_symbol x = "AAPL"%string /\ 2 <= hw_ts_ms x)
    [mkHistoricalTradeRow "a" "AAPL" 4 0 2; mkHistoricalTradeRow "b" "AAPL" 5 0 9] /\
  2%nat = 2%nat.
Proof.
  apply (history_in_order "lab" "AAPL" 2 sample_qconn
           [mkHistoricalTradeRow "a" "AAPL" 4 0 2; mkHistoricalTradeRow "b" "AAPL" 5 0 9]
           (mkQConn {[ "trades_lab"%string := sample_ticks ]} 4 true) sample_ticks).
  - reflexivity.
  - reflexivity.
  - vm_compute. reflexivity.
Defined.

Lemma created_history_fails_witness :
  exists e, (inr "Error querying trades: error" : list HistoricalTradeRow + string)%string = inr e.
Proof.
  apply (created_history_fails "lab" "AAPL" 2 (mkQConn ∅ 0 false)
    (create_quest_tables "lab" (mkQConn ∅ 0 false)).2 _
    (mkQConn (q_tables (create_quest_tables "lab" (mkQConn ∅ 0 false)).2) 7 true)).
  - reflexivity.
  - reflexivity.
  - vm_compute. reflexivity.
  - vm_compute. reflexivity.
Defined.
