(* ===== verification/DatabaseWrapper.v ===== *)
(** * The database of the order manager

    [services/order_manager/src/database_client_wrapper.h]: [DatabaseClientWrapper]
    implements the interface [OrderManagerDatabase] of the order manager with the
    database client; an insertion starts the asynchronous writer if need be and
    enqueues a task.  The connection that the writer opens when it is constructed is
    taken to succeed.  The theorem at the end composes the database with the start of the order manager. *)

From S2P Require Import Prelude Core Concurrency Transport BalanceChecker OrderManager PgArray Postgres DatabaseClient DatabaseTheorems DatabaseSpecs AsyncWriter.
From Stdlib Require Import ZArith Lia Ascii String.
From stdpp Require Import base option list gmap strings sets fin_maps fin_sets.

Open Scope Z_scope.

(** The client: the connection to the core database, the queue that it shares with the
    writer, and whether the writer exists. *)
Record DatabaseClientWrapper := mkWrapper {
  core_db : Conn;
  write_queue : list WriteTask;
  m_async_writer : bool
}.

Section Wrapper.
Context `{Postgres}.
Implicit Types d : DatabaseClientWrapper.

Definition ensure_async_writer d : DatabaseClientWrapper :=
  if m_async_writer d then d else mkWrapper (core_db d) (write_queue d) true.

Definition enqueue_task d (task : WriteTask) : DatabaseClientWrapper :=
  mkWrapper (core_db d) (ThreadSafeQueue.enqueue (write_queue d) task) (m_async_writer d).

Definition insert_order d (internal_order_id : Z) (new_order_request : NewOrderSingleContainer)
    (is_order_valid : bool) : DatabaseClientWrapper :=
  enqueue_task (ensure_async_writer d)
    (OrderInsertionTask internal_order_id new_order_request is_order_valid).

Definition insert_cancel_request d (cancel_order_request : CancelOrderRequestContainer)
    (is_request_valid : bool) : DatabaseClientWrapper :=
  enqueue_task (ensure_async_writer d) (CancelRequestInsertionTask cancel_order_request is_request_valid).

Definition insert_execution d (execution_report : ExecutionReportContainer) : DatabaseClientWrapper :=
  enqueue_task (ensure_async_writer d) (ExecutionInsertionTask execution_report).

Definition insert_trade d (trade : TradeContainer) : DatabaseClientWrapper :=
  enqueue_task (ensure_async_writer d) (TradeInsertionTask trade).

Definition insert_cancel_response d (cancel_order_response : CancelOrderResponseContainer)
    : DatabaseClientWrapper :=
  enqueue_task (ensure_async_writer d) (CancelResponseInsertionTask cancel_order_response).

Definition wrap_balance_info (info : UserBalanceInfo) : DbUserBalanceInfo :=
  mkUserBalance (ubi_user_id info) (ubi_username info)
    (map (fun row => OrderManager.mkBalanceRow (bw_symbol row) (bw_balance row)) (ubi_balances info)).

Definition wrapper_get_all_users_balances d (server_name : string) : list DbUserBalanceInfo + string :=
  match (get_all_users_balances_for_server server_name (core_db d)).1 with
  | inl infos => inl (map wrap_balance_info infos)
  | inr e => inr e
  end.

(** Of the row only the id of the server is used by the order manager. *)
Definition wrapper_get_server d (server_name : string) : option Z + string :=
  match (get_server server_name (core_db d)).1 with
  | inl row => inl (sw_server_id <$> row)
  | inr e => inr e
  end.

Definition wrapper_ensure_initial_usd_balances d (server_name : string) (initial_usd_amount : Z)
    : (Z + string) * DatabaseClientWrapper :=
  let '(r, c) := ensure_initial_usd_balances server_name initial_usd_amount (core_db d) in
  (r, mkWrapper c (write_queue d) (m_async_writer d)).

#[export] Instance wrapper_database : OrderManagerDatabase DatabaseClientWrapper := {|
  db_get_all_users_balances_for_server := wrapper_get_all_users_balances;
  db_get_server := wrapper_get_server;
  db_insert_order := insert_order;
  db_insert_cancel_request := insert_cancel_request;
  db_insert_trade := insert_trade;
  db_insert_cancel_response := insert_cancel_response;
  db_update_balance d user_id server_id symbol balance :=
    mkWrapper (DatabaseClient.update_balance user_id server_id symbol balance (core_db d)).2
      (write_queue d) (m_async_writer d) |}.

(** ** What the order manager loads *)
Lemma users_balances_effect id uids c infos c' :
  users_balances_loop id uids c = (Returned infos, c') ->
  Forall (fun u => is_Some (t_users (work c) !! u)) uids ->
  Forall2 (fun u info => ubi_user_id info = u /\ us_name <$> t_users (work c) !! u = Some (ubi_username info) /\
                         ubi_balances info ≡ₚ balances_of u id (work c)) uids infos.
Proof.
  revert c infos c'. induction uids as [|u uids IH]; intros c infos c' Hl Hall; simpl in Hl; txn_inv.
  - constructor.
  - apply Forall_cons in Hall as [[r Hr] Hall]. rewrite Hr in *.
    match goal with Hp : _ ≡ₚ [us_name r] |- _ => apply Permutation_sym, Permutation_length_1_inv in Hp as -> end.
    txn_inv. constructor.
    + simpl. rewrite Hr. split_and!; try done.
    + match goal with H : users_balances_loop _ _ _ = _ |- _ => apply IH in H; [done|exact Hall] end.
Qed.

Lemma balances_of_spec u id t row :
  row ∈ balances_of u id t <-> t_balances t !! (u, bw_symbol row, id) = Some (bw_balance row).
Proof.
  unfold balances_of. rewrite list_elem_of_omap. split.
  - intros ([[[u' sym] s'] b] & Hin & Hr). apply elem_of_map_to_list in Hin. simpl in Hr.
    destruct (Z.eqb_spec u' u), (Z.eqb_spec s' id); simplify_eq/=. done.
  - intros Hb. exists (u, bw_symbol row, id, bw_balance row).
    split; [by apply elem_of_map_to_list|]. simpl. rewrite !Z.eqb_refl. simpl. by destruct row.
Qed.

Lemma balances_of_NoDup u id t : NoDup (map bw_symbol (balances_of u id t)).
Proof.
  unfold balances_of. generalize (NoDup_fst_map_to_list (t_balances t)).
  generalize (map_to_list (t_balances t)). intros l.
  induction l as [|[[[u' sym] s'] b] l IH]; intros Hnd; [constructor|].
  simpl in Hnd. apply NoDup_cons in Hnd as [Hn Hnd]. specialize (IH Hnd). simpl.
  destruct (Z.eqb_spec u' u) as [->|], (Z.eqb_spec s' id) as [->|]; simpl; try done.
  apply NoDup_cons. split; [|done]. intros Hin. apply list_elem_of_fmap in Hin as (row & -> & Hrow).
  apply list_elem_of_omap in Hrow as ([[[u2 sym2] s2] b2] & Hin & Hr). simpl in Hr.
  destruct (Z.eqb_spec u2 u), (Z.eqb_spec s2 id); simplify_eq/=.
  apply Hn. apply list_elem_of_fmap. by exists (u, sym2, id, b2).
Qed.

(** The state of the order manager's start: balances and user ids by name. *)
Abbreviation Loaded := (BalanceChecker * gmap string Z)%type.

Definition bal (bc : BalanceChecker) (n sym : string) : option Z := bc !! n ≫= fun m => m !! sym.

(** One row of a user. *)
Definition load_row (name : string) (uid : Z) (bu : Loaded) (row : DbBalanceRow) : res Loaded :=
  bc ← BalanceChecker.update_balance bu.1 name (br_symbol row) (br_balance row);
  Ok (bc, match bu.2 !! name with Some _ => bu.2 | None => <[name := uid]> bu.2 end).

Lemma load_row_fresh name uid bu row :
  br_symbol row <> ""%string -> bal bu.1 name (br_symbol row) = None ->
  (bu.2 !! name = None \/ bu.2 !! name = Some uid) ->
  exists bu', load_row name uid bu row = Ok bu' /\ bu'.2 = <[name := uid]> bu.2 /\
    forall n sym, bal bu'.1 n sym
      = if decide (n = name /\ sym = br_symbol row) then Some (br_balance row) else bal bu.1 n sym.
Proof.
  intros Hne Hfree Hu. destruct bu as [bc users]. unfold load_row, BalanceChecker.update_balance, bal in *.
  simpl in *. rewrite (proj2 (String.eqb_neq _ _)) by done. simpl.
  assert (match users !! name with Some _ => users | None => <[name:=uid]> users end
          = <[name := uid]> users) as Husers.
  { destruct Hu as [-> | Hu]; [done|]. rewrite Hu. symmetry. by apply insert_id. }
  destruct (bc !! name) as [m|] eqn:Em; simpl in *.
  - rewrite Hfree. simpl. eexists. split; [done|]. split; [done|]. intros n sym. simpl.
    destruct (decide (n = name)) as [->|Hn].
    + rewrite lookup_insert_eq, Em. simpl. destruct (decide (sym = br_symbol row)) as [->|Hs].
      * rewrite lookup_insert_eq, decide_True by done. done.
      * rewrite lookup_insert_ne, decide_False by naive_solver. done.
    + rewrite lookup_insert_ne, decide_False by naive_solver. done.
  - eexists. split; [done|]. split; [done|]. intros n sym. simpl.
    destruct (decide (n = name)) as [->|Hn].
    + rewrite lookup_insert_eq, Em. simpl. destruct (decide (sym = br_symbol row)) as [->|Hs].
      * rewrite lookup_singleton_eq, decide_True by done. done.
      * rewrite lookup_singleton_ne, decide_False by naive_solver. done.
    + rewrite lookup_insert_ne, decide_False by naive_solver. done.
Qed.

Lemma load_rows_fresh name uid rows bu :
  NoDup (map br_symbol rows) -> Forall (fun r => br_symbol r <> ""%string) rows ->
  (forall r, r ∈ rows -> bal bu.1 name (br_symbol r) = None) ->
  (bu.2 !! name = None \/ bu.2 !! name = Some uid) ->
  exists bu', foldM (load_row name uid) bu rows = Ok bu' /\
    (forall n sym v, bal bu'.1 n sym = Some v <->
       (n = name /\ (OrderManager.mkBalanceRow sym v) ∈ rows) \/ bal bu.1 n sym = Some v) /\
    (forall n u, bu'.2 !! n = Some u <-> (n = name /\ u = uid /\ rows <> []) \/ bu.2 !! n = Some u).
Proof.
  revert bu. induction rows as [|r rows IH]; intros bu Hnd Hne Hfree Hu; simpl in *.
  { exists bu. split_and!; try done.
    - intros n sym v. split; [auto|]. intros [[_ []%not_elem_of_nil]|?]; done.
    - intros n u. split; [auto|]. by intros [(_ & _ & ?)|?]. }
  apply NoDup_cons in Hnd as [Hr Hnd]. apply Forall_cons in Hne as [Hr0 Hne].
  destruct (load_row_fresh name uid bu r) as (bu1 & Hl & Hu1 & Hb1); [done|apply Hfree; left|done|].
  rewrite Hl. simpl. destruct (IH bu1) as (bu' & Hf & Hbal & Hus); [done|done| | |].
  { intros r' Hr'. rewrite Hb1, decide_False; [apply Hfree; by right|].
    intros [_ Heq]. apply Hr. rewrite <- Heq. by apply list_elem_of_fmap_2. }
  { right. rewrite Hu1. apply lookup_insert_eq. }
  exists bu'. split; [done|]. split.
  - intros n sym v. rewrite Hbal, Hb1, elem_of_cons. destruct (decide _) as [[-> ->]|Hd].
    + split.
      * intros [[_ ?]|[= <-]]; [auto|]. left. split; [done|]. left. by destruct r.
      * intros [[_ [Heq|?]]|Hs]; [right; by rewrite <- Heq|auto|].
        exfalso. rewrite (Hfree r ltac:(left)) in Hs. done.
    + split; [intros [[-> ?]|?]; auto|]. intros [[-> [Heq|?]]|?]; [|auto|auto].
      exfalso. apply Hd. split; [done|]. by rewrite <- Heq.
  - intros n u. rewrite Hus, Hu1, lookup_insert_Some. split.
    + intros [(-> & -> & _)|[[<- <-]|[_ ?]]]; auto.
    + intros [(-> & -> & _)|Hn]; [auto|]. destruct (decide (name = n)) as [<-|]; [|auto].
      right; left. destruct Hu as [Hu|Hu]; rewrite Hn in Hu; by simplify_eq.
Qed.

Definition info_ok (info : DbUserBalanceInfo) : Prop :=
  NoDup (map br_symbol (ub_balances info)) /\ Forall (fun r => br_symbol r <> ""%string) (ub_balances info).

Lemma load_users_fresh infos (bu : Loaded) :
  NoDup (map ub_username infos) -> Forall info_ok infos ->
  (forall info sym, info ∈ infos -> bal bu.1 (ub_username info) sym = None) ->
  (forall info, info ∈ infos -> bu.2 !! ub_username info = None) ->
  exists bu', foldM load_user bu infos = Ok bu' /\
    (forall n sym v, bal bu'.1 n sym = Some v <->
       (exists info, info ∈ infos /\ ub_username info = n /\
          OrderManager.mkBalanceRow sym v ∈ ub_balances info) \/ bal bu.1 n sym = Some v) /\
    (forall n u, bu'.2 !! n = Some u <->
       (exists info, info ∈ infos /\ ub_username info = n /\ ub_user_id info = u /\ ub_balances info <> [])
       \/ bu.2 !! n = Some u).
Proof.
  revert bu. induction infos as [|info infos IH]; intros bu Hnd Hok Hfree Hu; cbn [foldM map] in *.
  { exists bu. split_and!; try done.
    - intros n sym v. split; [auto|]. intros [(i & []%not_elem_of_nil & _)|?]; done.
    - intros n u. split; [auto|]. intros [(i & []%not_elem_of_nil & _)|?]; done. }
  apply NoDup_cons in Hnd as [Hn Hnd]. apply Forall_cons in Hok as [[Hi1 Hi2] Hok].
  destruct (load_rows_fresh (ub_username info) (ub_user_id info) (ub_balances info) bu)
    as (bu1 & Hl & Hb1 & Hu1); [done|done|intros; apply Hfree; left|left; apply Hu; left|].
  change (load_user bu info) with (foldM (load_row (ub_username info) (ub_user_id info)) bu (ub_balances info)).
  rewrite Hl. cbn [mbind res_bind].
  assert (forall i, i ∈ infos -> ub_username i <> ub_username info) as Hother.
  { intros i Hi Heq. apply Hn. rewrite <- Heq. by apply list_elem_of_fmap_2. }
  destruct (IH bu1) as (bu' & Hf & Hb & Hus); [done|done| | |].
  { intros i sym Hi. apply eq_None_not_Some. intros [v [[Heq _]|Hv]%Hb1]; [by eapply Hother|].
    rewrite Hfree in Hv by (by right). done. }
  { intros i Hi. apply eq_None_not_Some. intros [v [(Heq & _)|Hv]%Hu1]; [by eapply Hother|].
    rewrite Hu in Hv by (by right). done. }
  exists bu'. split; [done|]. split.
  - intros n sym v. rewrite Hb, Hb1. split.
    + intros [(i & Hi & ?)|[[-> ?]|?]]; [left; exists i; split; [by right|done]| |by right].
      left. exists info. split; [left|done].
    + intros [(i & [->|Hi]%elem_of_cons & Hin & ?)|?]; [|left; by exists i|by right; right].
      right; left. by rewrite Hin.
  - intros n u. rewrite Hus, Hu1. split.
    + intros [(i & Hi & ?)|[(-> & -> & ?)|?]]; [left; exists i; split; [by right|done]| |by right].
      left. exists info. split; [left|done].
    + intros [(i & [->|Hi]%elem_of_cons & Hin & Hid & ?)|?]; [|left; by exists i|by right; right].
      right; left. by rewrite Hin, Hid.
Qed.

Lemma allowed_users_NoDup id t : NoDup (allowed_users id t).
Proof.
  unfold allowed_users. generalize (NoDup_elements (t_allowlist t)). generalize (elements (t_allowlist t)).
  intros l. induction l as [|[s u] l IH]; intros Hnd; [constructor|].
  apply NoDup_cons in Hnd as [Hn Hnd]. simpl. destruct (Z.eqb_spec s id) as [->|]; [|auto].
  apply NoDup_cons. split; [|auto]. intros ([s' u'] & Hin & Hs)%list_elem_of_omap. simpl in Hs.
  destruct (Z.eqb_spec s' id); by simplify_eq.
Qed.

(** What [get_all_users_balances_for_server] returns. *)
Lemma get_all_effect name c infos c' :
  integrity (stored c) -> get_all_users_balances_for_server name c = (inl infos, c') ->
  exists id s admin, t_servers (stored c) !! id = Some s /\ sv_name s = name /\ sv_admin s = Some admin /\
    NoDup (map ubi_user_id infos) /\ infos <> [] /\
    (forall u, u ∈ map ubi_user_id infos <-> u ∈ members id admin (stored c)) /\
    Forall (fun info => us_name <$> t_users (stored c) !! ubi_user_id info = Some (ubi_username info) /\
                        ubi_balances info ≡ₚ balances_of (ubi_user_id info) id (stored c)) infos.
Proof.
  intros Ht Hc. unfold get_all_users_balances_for_server in Hc. txn_inv.
  named_rows Ht as id s Hs; txn_inv.
  match goal with H : sv_admin s = Some ?a |- _ => rename H into Ha; set (admin := a) in * end.
  match goal with Hp : ?l ≡ₚ allowed_users _ ?t |- _ =>
    replace t with (stored c) in Hp by (simpl; congruence); rename Hp into Hl; rename l into rows end.
  match goal with H : users_balances_loop _ _ ?c1 = _ |- _ => apply users_balances_effect in H;
    replace (work c1) with (stored c) in * by (simpl; congruence); [rename H into Hall|] end.
  2: { apply Forall_forall. intros u Hu.
       assert (u ∈ (list_to_set (add_admin admin rows) : gset Z)) as Hu' by (by apply elem_of_list_to_set).
       rewrite (add_admin_set _ _ _ Hl) in Hu'. apply elem_of_union in Hu' as [Hu'| ->%elem_of_singleton].
       - apply elem_of_list_to_set, allowed_users_spec in Hu'. by apply (allow_exists _ Ht) in Hu' as [_ ?].
       - by eapply (admin_exists _ Ht). }
  exists id, s, admin.
  assert (map ubi_user_id infos = add_admin admin rows) as Hids.
  { clear - Hall. induction Hall as [|u i us is_ [Hi _] _ IH]; [done|]. simpl. by rewrite Hi, IH. }
  split_and!; try done.
  - rewrite Hids. unfold add_admin. pose proof (allowed_users_NoDup id (stored c)) as Hnd.
    rewrite <- Hl in Hnd. case_bool_decide; [done|]. apply NoDup_app. split_and!; [done| |apply NoDup_singleton].
    intros v Hv ->%list_elem_of_singleton. done.
  - intros ->. simpl in Hids. unfold add_admin in Hids. case_bool_decide as Hin; [subst; set_solver|by destruct rows].
  - intros u. rewrite Hids. unfold members. rewrite <- (add_admin_set _ _ _ Hl). by rewrite elem_of_list_to_set.
  - clear - Hall. induction Hall as [|u i us is_ (Hi & ? & ?) _ IH]; constructor; [|done]. by rewrite Hi.
Qed.

Lemma NoDup_map_by {A B C} (f : A -> B) (g : A -> C) l :
  NoDup (map f l) -> (forall x y, x ∈ l -> y ∈ l -> g x = g y -> f x = f y) -> NoDup (map g l).
Proof.
  induction l as [|x l IH]; simpl; intros Hnd Hfg; [constructor|].
  apply NoDup_cons in Hnd as [Hx Hnd]. apply NoDup_cons. split.
  - intros (y & Hy & Hin)%list_elem_of_fmap. apply Hx. rewrite (Hfg x y); [|left|by right|done].
    by apply list_elem_of_fmap_2.
  - apply IH; [done|]. intros a b Ha Hb. apply Hfg; by right.
Qed.

Lemma wrapped_ok info u id t :
  ubi_balances info ≡ₚ balances_of u id t ->
  (forall v sym b, t_balances t !! (v, sym, id) = Some b -> sym <> ""%string) ->
  info_ok (wrap_balance_info info).
Proof.
  intros Hp Hne. unfold info_ok, wrap_balance_info. simpl. rewrite map_map. simpl. split.
  - change (map (fun x => bw_symbol x) (ubi_balances info)) with (map bw_symbol (ubi_balances info)).
    rewrite (Permutation_map bw_symbol Hp). apply balances_of_NoDup.
  - apply Forall_forall. intros r Hr. apply list_elem_of_fmap in Hr as (row & -> & Hrow). simpl.
    rewrite Hp in Hrow. apply balances_of_spec in Hrow. by eapply Hne.
Qed.

Lemma wrapped_row info u id t sym v :
  ubi_balances info ≡ₚ balances_of u id t ->
  OrderManager.mkBalanceRow sym v ∈ ub_balances (wrap_balance_info info) <->
  t_balances t !! (u, sym, id) = Some v.
Proof.
  intros Hp. simpl. rewrite list_elem_of_fmap. split.
  - intros (row & Heq & Hrow). rewrite Hp in Hrow. apply balances_of_spec in Hrow. by simplify_eq.
  - intros Hb. exists (mkBalanceRow sym v). split; [done|]. rewrite Hp. by apply balances_of_spec.
Qed.

(** C32: the order manager starts with the balances of the database.  When the query of
    the wrapper succeeds, [init_balance_checker] succeeds too, and the balance it
    records for a user name and a symbol is exactly the balance that the database
    holds for that member of the server; nobody else has one.  The user ids by which
    later updates are written back are those of the members. *)
Theorem order_manager_starts name d infos :
  integrity (stored (core_db d)) ->
  db_get_all_users_balances_for_server d name = inl infos ->
  (forall v sym sid b, t_balances (stored (core_db d)) !! (v, sym, sid) = Some b -> sym <> ""%string) ->
  exists bc users id s admin,
    init_balance_checker name ∅ ∅ d = Ok (bc, users) /\
    t_servers (stored (core_db d)) !! id = Some s /\ sv_name s = name /\ sv_admin s = Some admin /\
    (forall u r sym, u ∈ members id admin (stored (core_db d)) ->
       t_users (stored (core_db d)) !! u = Some r ->
       bal bc (us_name r) sym = t_balances (stored (core_db d)) !! (u, sym, id)) /\
    (forall n sym v, bal bc n sym = Some v -> exists u r, u ∈ members id admin (stored (core_db d)) /\
       t_users (stored (core_db d)) !! u = Some r /\ us_name r = n) /\
    (forall n u, users !! n = Some u -> us_name <$> t_users (stored (core_db d)) !! u = Some n).
Proof.
  intros Ht Hq Hne. unfold init_balance_checker. rewrite Hq. simpl in Hq.
  unfold wrapper_get_all_users_balances in Hq.
  destruct (get_all_users_balances_for_server name (core_db d)) as [[is_|e] c'] eqn:E; simplify_eq/=.
  apply get_all_effect in E as (id & s & admin & Hs & Hn & Ha & Hnd & Hnil & Hmem & Hall); [|done].
  rewrite Forall_forall in Hall.
  destruct (load_users_fresh (map wrap_balance_info is_) (∅, ∅)) as ([bc users] & Hf & Hb & Hu).
  { rewrite map_map. simpl. apply (NoDup_map_by ubi_user_id); [done|]. intros x y Hx Hy Heq.
    destruct (Hall x Hx) as [Hx' _], (Hall y Hy) as [Hy' _].
    apply fmap_Some in Hx' as (rx & Hrx & Hnx). apply fmap_Some in Hy' as (ry & Hry & Hny).
    eapply (names_unique _ Ht); eauto. congruence. }
  { apply Forall_forall. intros i Hi. apply list_elem_of_fmap in Hi as (info & -> & Hinfo).
    eapply wrapped_ok; [apply Hall; done|]. intros v sym b. apply Hne. }
  { done. }
  { done. }
  exists bc, users, id, s, admin. split_and!; try done.
  - rewrite length_map. destruct is_; [done|]. exact Hf.
  - intros u r sym Hum Hr. apply option_eq. intros v. rewrite Hb. simpl. split.
    + intros [(i & Hi & Hin & Hrow)|?]; [|done].
      apply list_elem_of_fmap in Hi as (info & -> & Hinfo). destruct (Hall _ Hinfo) as [Hnm Hp].
      rewrite (wrapped_row _ _ _ _ _ _ Hp) in Hrow. apply fmap_Some in Hnm as (r' & Hr' & Hnm).
      assert (ubi_user_id info = u) as <-; [|done]. eapply (names_unique _ Ht); eauto. simpl in Hin. congruence.
    + intros Hv. left. apply Hmem in Hum. apply list_elem_of_fmap in Hum as (info & -> & Hinfo).
      destruct (Hall _ Hinfo) as [Hnm Hp]. exists (wrap_balance_info info). split_and!.
      * by apply list_elem_of_fmap_2.
      * simpl. rewrite Hr in Hnm. by simplify_eq/=.
      * by apply (wrapped_row _ _ _ _ _ _ Hp).
  - intros n sym v Hv. apply Hb in Hv as [(i & Hi & Hin & _)|?]; [|done].
    apply list_elem_of_fmap in Hi as (info & -> & Hinfo). destruct (Hall _ Hinfo) as [Hnm _].
    apply fmap_Some in Hnm as (r & Hr & Hnm). exists (ubi_user_id info), r. split_and!; [|done|].
    + apply Hmem. by apply list_elem_of_fmap_2.
    + simpl in Hin. congruence.
  - intros n u Hv. apply Hu in Hv as [(i & Hi & Hin & Hid & _)|?]; [|done].
    apply list_elem_of_fmap in Hi as (info & -> & Hinfo). destruct (Hall _ Hinfo) as [Hnm _].
    simpl in Hin, Hid. by subst.
Qed.
End Wrapper.

Lemma symbols_nonempty (m : gmap (Z * string * Z) Z) :
  forallb (fun kv => negb (String.eqb kv.1.1.2 "")) (map_to_list m) = true ->
  forall v sym sid b, m !! (v, sym, sid) = Some b -> sym <> ""%string.
Proof.
  intros Hall v sym sid b Hb. rewrite forallb_forall in Hall.
  specialize (Hall (v, sym, sid, b)). rewrite <- list_elem_of_In, elem_of_map_to_list in Hall.
  specialize (Hall Hb). by apply negb_true_iff, String.eqb_neq in Hall.
Qed.

(** The members of the sample server after their initial balances. *)
Definition sample_wrapper : DatabaseClientWrapper :=
  mkWrapper (@ensure_initial_usd_balances healthy "lab" 7 lab_conn).2 [] true.

Lemma order_manager_starts_witness :
  exists bc users id s admin,
    @init_balance_checker _ (@wrapper_database healthy) "lab" ∅ ∅ sample_wrapper = Ok (bc, users) /\
    t_servers (stored (core_db sample_wrapper)) !! id = Some s /\ sv_name s = "lab"%string /\
    sv_admin s = Some admin /\
    (forall u r sym, u ∈ members id admin (stored (core_db sample_wrapper)) ->
       t_users (stored (core_db sample_wrapper)) !! u = Some r ->
       bal bc (us_name r) sym = t_balances (stored (core_db sample_wrapper)) !! (u, sym, id)) /\
    (forall n sym v, bal bc n sym = Some v -> exists u r, u ∈ members id admin (stored (core_db sample_wrapper)) /\
       t_users (stored (core_db sample_wrapper)) !! u = Some r /\ us_name r = n) /\
    (forall n u, users !! n = Some u -> us_name <$> t_users (stored (core_db sample_wrapper)) !! u = Some n).
Proof.
  apply (@order_manager_starts healthy "lab" sample_wrapper
    [mkUserBalance 2 "bob" [OrderManager.mkBalanceRow "USD" 50000];
     mkUserBalance 1 "alice" [OrderManager.mkBalanceRow "USD" 50000]]).
  - apply (@client_step_integrity healthy lab_conn); [apply step_ensure|apply lab_integrity].
  - vm_compute. reflexivity.
  - apply symbols_nonempty. vm_compute. reflexivity.
Defined.
