(* ===== verification/Json.v ===== *)
(** * JSON values

    The values of Boost.JSON as the backend uses them: a number is an [int64_t], a
    [uint64_t] or a [double]; an object keeps its members in the order of insertion,
    and assigning to a key that is there replaces the value in its place. *)

From S2P Require Import Prelude Doubles.
From Stdlib Require Import ZArith Ascii String SpecFloat.
From stdpp Require Import base option list strings.

Open Scope Z_scope.

Inductive JValue :=
  | JNull
  | JBool (b : bool)
  | JInt64 (z : Z)
  | JUint64 (n : N)
  | JDouble (d : double)
  | JString (s : string)
  | JArray (l : list JValue)
  | JObject (o : list (string * JValue)).

Abbreviation Obj := (list (string * JValue)).

(** [obj.find(key)] *)
Fixpoint jfind (key : string) (o : Obj) : option JValue :=
  match o with
  | [] => None
  | (k, v) :: o' => if String.eqb k key then Some v else jfind key o'
  end.

Definition contains (key : string) (o : Obj) : bool := match jfind key o with Some _ => true | None => false end.

(** [obj[key] = v] *)
Fixpoint jset (key : string) (v : JValue) (o : Obj) : Obj :=
  match o with
  | [] => [(key, v)]
  | (k, x) :: o' => if String.eqb k key then (k, v) :: o' else (k, x) :: jset key v o'
  end.

Definition jstrings (l : list string) : JValue := JArray (map JString l).

(** The strings of an array, the other values skipped. *)
Definition string_items (l : list JValue) : list string :=
  omap (fun v => match v with JString s => Some s | _ => None end) l.

(** [if (auto it = body.find(key); it != body.end() && it->value().is_array())] *)
Definition find_strings (key : string) (body : Obj) : option (list string) :=
  match jfind key body with Some (JArray l) => Some (string_items l) | _ => None end.

Lemma jfind_jset key key' v o :
  jfind key (jset key' v o) = if String.eqb key' key then Some v else jfind key o.
Proof.
  induction o as [|[k x] o IH]; simpl; [done|].
  destruct (String.eqb_spec k key') as [->|Hk]; simpl.
  - by destruct (String.eqb key' key).
  - rewrite IH. destruct (String.eqb_spec k key) as [->|]; [|done].
    by rewrite (proj2 (String.eqb_neq _ _)) by congruence.
Qed.

Lemma contains_jset key key' v o :
  contains key (jset key' v o) = (String.eqb key' key || contains key o)%bool.
Proof.
  unfold contains. rewrite jfind_jset. by destruct (String.eqb key' key).
Qed.
