(* ===== verification/BackendConfig.v ===== *)
(** * The backend service: the contents of a create request

    The lambdas of [RequestHandler::handle_create_server] in
    [services/backend_service/request_handler.cpp] that read the bots and the oracle
    out of the body of a request.  [std::expected<T, std::string>] is [T + string],
    inside [res] because converting a huge number to an integer is undefined. *)

From S2P Require Import Prelude Doubles Fix Json.
From Stdlib Require Import ZArith Lia Ascii String SpecFloat.
From stdpp Require Import base option list gmap strings.

Open Scope Z_scope.

(** ** Early returns of an error *)
Definition Exp (A : Type) : Type := res (A + string).

#[export] Instance exp_ret : MRet Exp := fun A a => Ok (inl a).
#[export] Instance exp_bind : MBind Exp := fun A B f m =>
  match m with
  | Ok (inl a) => f a
  | Ok (inr e) => Ok (inr e)
  | Err e => Err e
  end.

Definition fail {A} (e : string) : Exp A := Ok (inr e).

Fixpoint exp_fold {A S} (f : S -> A -> Exp S) (s : S) (l : list A) : Exp S :=
  match l with
  | [] => mret s
  | x :: l' => s' ← f s x; exp_fold f s' l'
  end.

(** [if (auto it = obj.find(key); it != obj.end()) { x = parse(it->value()); }] *)
Definition optional {A} (o : Obj) (key : string) (x : A) (parse : JValue -> Exp A) : Exp A :=
  match jfind key o with None => mret x | Some v => parse v end.

Definition kServerNameMaxLength : nat := 11.
Definition kDefaultInitialTickerPriceUsd : Z := 100.

Definition isalnum (c : ascii) : bool :=
  let n := N_of_ascii c in
  ((48 <=? n) && (n <=? 57) || (65 <=? n) && (n <=? 90) || (97 <=? n) && (n <=? 122))%N%bool.

Definition is_server_name_valid (server_name : string) : bool :=
  if (String.eqb server_name "" || (kServerNameMaxLength <? String.length server_name)%nat)%bool
  then false
  else forallb isalnum (list_ascii_of_string server_name).

(** ** Numbers *)
Definition in_int_range (parsed : Z) (field_name : string) : Exp Z :=
  if ((parsed <? 0) || (INT_MAX <? parsed))%bool
  then fail (field_name +:+ " must be between 0 and " +:+ to_string INT_MAX)%string
  else mret parsed.

Definition parse_int_value (value : JValue) (field_name : string) (default_value : Z) : Exp Z :=
  match value with
  | JNull => mret default_value
  | JInt64 z => in_int_range z field_name
  | JUint64 raw =>
      if INT_MAX <? Z.of_N raw then fail (field_name +:+ " must be <= " +:+ to_string INT_MAX)%string
      else in_int_range (Z.of_N raw) field_name
  | JDouble raw =>
      if negb (deq (dtrunc raw) raw) then fail (field_name +:+ " must be an integer")%string
      else match trunc_i64 raw with
           | Ok parsed => in_int_range parsed field_name
           | Err e => Err e
           end
  | _ => fail (field_name +:+ " must be an integer")%string
  end.

Definition parse_double_value (value : JValue) (field_name : string) (default_value : double)
    : Exp double :=
  let non_negative parsed :=
    if dlt parsed dzero then fail (field_name +:+ " must be non-negative")%string else mret parsed in
  match value with
  | JNull => mret default_value
  | JDouble parsed => non_negative parsed
  | JInt64 z => non_negative (of_int z)
  | JUint64 n => mret (of_int (Z.of_N n))
  | _ => fail (field_name +:+ " must be numeric")%string
  end.

Definition parse_numeric_value (value : JValue) (field_name : string) (default_value : double)
    : Exp double :=
  match value with
  | JNull => mret default_value
  | JDouble parsed => mret parsed
  | JInt64 z => mret (of_int z)
  | JUint64 n => mret (of_int (Z.of_N n))
  | _ => fail (field_name +:+ " must be numeric")%string
  end.

(** ** Bots *)
Record BotGroupConfig := mkBotGroupConfig {
  group_tag : string;
  bot_count : Z;
  bot_initial_usd : Z;
  initial_inventory : double;
  inventory_by_symbol : gmap string double;
  deploy_params : Obj;
  user_ids : list Z;
  usernames : list string
}.

Record BotCreateConfig := mkBotCreateConfig {
  bot_service_name : string;
  groups : list BotGroupConfig
}.

Record OracleDeployConfig := mkOracleDeployConfig {
  mu : double;
  sigma : double;
  jump_intensity : double;
  jump_mean : double;
  jump_std : double;
  update_interval_ms : Z
}.

Definition oracle_defaults : OracleDeployConfig :=
  mkOracleDeployConfig dzero (decimal 3 1000) (decimal 6 100) dzero (decimal 1 100) 60000.

(** The parameters of a kind of bot with their defaults. *)
Abbreviation ParamDefaults := (list (string * double)).

Definition set_defaults (param_defaults : ParamDefaults) (o : Obj) : Obj :=
  fold_left (fun o kd => jset kd.1 (JDouble kd.2) o) param_defaults o.

(** The deploy parameters that every group starts with. *)
Definition base_params (count_key username_prefix tag : string) (count : Z)
    (default_initial_inventory : double) (param_defaults : ParamDefaults) : Obj :=
  set_defaults param_defaults
    (jset "initial_inventory" (JDouble default_initial_inventory)
      (jset "cfg_prefix" (JString (username_prefix +:+ "_" +:+ tag)%string)
        (jset count_key (JInt64 count) []))).

Section Symbols.
Variable symbols : list string.

Definition is_usd (symbol : string) : bool := String.eqb symbol "USD".

(** Every symbol but USD gets the group's inventory ([emplace] keeps an earlier entry). *)
Definition default_inventories (inventory : double) : gmap string double :=
  fold_left (fun m symbol =>
               if is_usd symbol then m
               else match m !! symbol with Some _ => m | None => <[symbol := inventory]> m end)
    symbols ∅.

Definition inventory_entry (path : string) (inventory : double) (m : gmap string double)
    (kv : string * JValue) : Exp (gmap string double) :=
  let '(symbol, val) := kv in
  if negb (bool_decide (symbol ∈ symbols))
  then fail (path +:+ "inventory_by_symbol has unknown symbol: " +:+ symbol)%string
  else
    parsed ← parse_double_value val (path +:+ "inventory_by_symbol." +:+ symbol)%string inventory;
    mret (<[symbol := parsed]> m).

(** [group.inventory_by_symbol[*first_symbol_it]] inserts a zero when it is missing. *)
Definition first_inventory (inventory : double) (m : gmap string double)
    : double * gmap string double :=
  match List.find (fun symbol => negb (is_usd symbol)) symbols with
  | None => (inventory, m)
  | Some first_symbol =>
      match m !! first_symbol with
      | Some x => (x, m)
      | None => (dzero, <[first_symbol := dzero]> m)
      end
  end.

Definition group_param (path : string) (params_obj : Obj) (o : Obj) (kd : string * double) : Exp Obj :=
  let '(key, default_value) := kd in
  parsed_value ← optional params_obj key default_value
                   (fun v => parse_double_value v (path +:+ "params." +:+ key)%string default_value);
  mret (jset key (JDouble parsed_value) o).

Definition parse_bot_group (group_obj : Obj) (bot_key username_prefix count_key : string)
    (default_count : Z) (default_initial_inventory : double) (param_defaults : ParamDefaults)
    (group_index : nat) (base_initial_usd : Z) : Exp BotGroupConfig :=
  let tag := ("grp" +:+ to_string (Z.of_nat group_index + 1))%string in
  let path := (bot_key +:+ ".groups[" +:+ to_string (Z.of_nat group_index) +:+ "].")%string in
  let params := base_params count_key username_prefix tag default_count default_initial_inventory
                  param_defaults in
  count ← optional group_obj "count" default_count
            (fun v => parse_int_value v (path +:+ "count")%string default_count);
  usd ← optional group_obj "initial_usd" base_initial_usd
          (fun v => parse_int_value v (path +:+ "initial_usd")%string base_initial_usd);
  inventory ← optional group_obj "initial_inventory" default_initial_inventory
                (fun v => parse_double_value v (path +:+ "initial_inventory")%string
                            default_initial_inventory);
  let params := jset count_key (JInt64 count) params in
  inventories ← optional group_obj "inventory_by_symbol" (default_inventories inventory)
    (fun v => match v with
              | JObject o => exp_fold (inventory_entry path inventory) (default_inventories inventory) o
              | _ => fail (path +:+ "inventory_by_symbol must be an object")%string
              end);
  let '(inventory, inventories) := first_inventory inventory inventories in
  let params := jset "initial_inventory" (JDouble inventory) params in
  params ← optional group_obj "params" params
    (fun v => match v with
              | JObject params_obj => exp_fold (group_param path params_obj) params param_defaults
              | _ => fail (path +:+ "params must be an object")%string
              end);
  mret (mkBotGroupConfig tag count usd inventory inventories params [] []).

Definition empty_group (username_prefix count_key : string) (default_group_initial_usd : Z)
    (default_initial_inventory : double) (param_defaults : ParamDefaults) : BotGroupConfig :=
  mkBotGroupConfig "grp1" 0 default_group_initial_usd default_initial_inventory ∅
    (base_params count_key username_prefix "grp1" 0 default_initial_inventory param_defaults) [] [].

Section BotConfig.
Variables (bots_obj : option Obj) (bot_key username_prefix service_name count_key : string)
  (default_count default_group_initial_usd : Z) (default_initial_inventory : double)
  (param_defaults : ParamDefaults).

Fixpoint parse_groups (idx : nat) (groups_arr : list JValue) : Exp (list BotGroupConfig) :=
  match groups_arr with
  | [] => mret []
  | JObject group_obj :: groups_arr' =>
      parsed_group ← parse_bot_group group_obj bot_key username_prefix count_key default_count
                       default_initial_inventory param_defaults idx default_group_initial_usd;
      rest ← parse_groups (S idx) groups_arr';
      mret (parsed_group :: rest)
  | _ :: _ => fail (bot_key +:+ ".groups[" +:+ to_string (Z.of_nat idx) +:+ "] must be an object")%string
  end.

Definition parse_bot_config : Exp BotCreateConfig :=
  let empty := empty_group username_prefix count_key default_group_initial_usd
                 default_initial_inventory param_defaults in
  match bots_obj ≫= jfind bot_key with
  | Some (JObject type_obj) =>
      match jfind "groups" type_obj with
      | Some (JArray groups_arr) =>
          parsed_groups ← parse_groups 0 groups_arr;
          mret (mkBotCreateConfig service_name
                  (match parsed_groups with [] => [empty] | _ => parsed_groups end))
      | _ =>
          (* backward compatibility: single-group shape *)
          parsed_group ← parse_bot_group type_obj bot_key username_prefix count_key default_count
                           default_initial_inventory param_defaults 0 default_group_initial_usd;
          mret (mkBotCreateConfig service_name [parsed_group])
      end
  | _ => mret (mkBotCreateConfig service_name [empty])
  end.
End BotConfig.

(** The three kinds of bots. *)
Definition mm_params : ParamDefaults :=
  [("lot_size", decimal 1 1); ("gamma", decimal 6 10); ("k", decimal 8 1); ("terminal_time", decimal 30 1)]%string.
Definition nt_params : ParamDefaults :=
  [("lambda_eps", decimal 6 10); ("bernoulli", decimal 5 10); ("pareto_scale", decimal 5 10);
   ("pareto_shape", decimal 4 1)]%string.
Definition it_params : ParamDefaults :=
  [("epsilon", decimal 12 100); ("trade_qty", decimal 5 1); ("max_inventory", decimal 1200 1)]%string.

Definition parse_bot_configs (body : Obj) (initial_usd : Z) : Exp (list BotCreateConfig) :=
  bots_obj ← match jfind "bots" body with
             | None => mret None
             | Some (JObject o) => mret (Some o)
             | Some _ => fail "bots must be an object"
             end;
  mm ← parse_bot_config bots_obj "mm" "market_maker" "mm" "num_market_makers" 4 initial_usd
         (of_int 300) mm_params;
  nt ← parse_bot_config bots_obj "nt" "noise_trader" "nt" "num_noise_traders" 0 initial_usd
         (of_int 20) nt_params;
  it ← parse_bot_config bots_obj "it" "informed_trader" "it" "num_informed_traders" 0 1500000
         (of_int 150) it_params;
  mret [mm; nt; it].
End Symbols.

(** ** The oracle *)
Definition parse_oracle (body : Obj) : Exp OracleDeployConfig :=
  let cfg := oracle_defaults in
  match jfind "oracle" body with
  | None => mret cfg
  | Some (JObject o) =>
      m ← optional o "mu" (mu cfg) (fun v => parse_numeric_value v "oracle.mu" (mu cfg));
      s ← optional o "sigma" (sigma cfg) (fun v => parse_double_value v "oracle.sigma" (sigma cfg));
      ji ← optional o "jump_intensity" (jump_intensity cfg)
             (fun v => parse_double_value v "oracle.jump_intensity" (jump_intensity cfg));
      jm ← optional o "jump_mean" (jump_mean cfg)
             (fun v => parse_numeric_value v "oracle.jump_mean" (jump_mean cfg));
      js ← optional o "jump_std" (jump_std cfg)
             (fun v => parse_double_value v "oracle.jump_std" (jump_std cfg));
      ms ← optional o "update_interval_ms" (update_interval_ms cfg) (fun v =>
             parsed ← parse_int_value v "oracle.update_interval_ms" (update_interval_ms cfg);
             if parsed <=? 0 then fail "oracle.update_interval_ms must be positive" else mret parsed);
      mret (mkOracleDeployConfig m s ji jm js ms)
  | Some _ => fail "oracle must be an object"
  end.

(** ** The whole request *)
Record CreateRequest := mkCreateRequest {
  rq_server_name : string;
  rq_description : string;
  rq_initial_usd : Z;
  rq_symbols : list string;
  rq_allowlist_names : list string;
  rq_bot_configs : list BotCreateConfig;
  rq_oracle : OracleDeployConfig
}.

Definition parse_server_name (body : Obj) : Exp string :=
  match jfind "server_name" body with
  | Some (JString s) => mret s
  | _ => fail "Missing or invalid server_name"
  end.

Definition parse_description (body : Obj) (current : string) : string :=
  match jfind "description" body with Some (JString s) => s | _ => current end.

Definition parse_initial_usd (body : Obj) : Exp Z :=
  match jfind "initial_usd" body with
  | None => mret 100000
  | Some (JInt64 raw_initial_usd) =>
      if ((raw_initial_usd <? 0) || (INT_MAX <? raw_initial_usd))%bool
      then fail "initial_usd must be between 0 and 2147483647"
      else mret raw_initial_usd
  | Some _ => fail "initial_usd must be an integer"
  end.

Definition parse_create_request (body : Obj) : Exp CreateRequest :=
  server_name ← parse_server_name body;
  if negb (is_server_name_valid server_name)
  then fail "server_name must be 1-11 characters using only A-Z, a-z, and 0-9"
  else
    let description := parse_description body "" in
    initial_usd ← parse_initial_usd body;
    let symbols := default [] (find_strings "active_symbols" body) in
    let allowlist_names := default [] (find_strings "allowlist" body) in
    if Nat.eqb (length symbols) 0 then fail "active_symbols must contain at least one symbol"
    else if Nat.eqb (length allowlist_names) 0 then fail "allowlist must contain at least one user"
    else
      bot_configs ← parse_bot_configs symbols body initial_usd;
      oracle_cfg ← parse_oracle body;
      mret (mkCreateRequest server_name description initial_usd symbols allowlist_names bot_configs
              oracle_cfg).

(** ** Well-formed requests *)
Lemma exp_returned {A B} (m : Exp A) (f : A -> Exp B) b :
  (m ≫= f) = Ok (inl b) <-> exists a, m = Ok (inl a) /\ f a = Ok (inl b).
Proof.
  unfold mbind, exp_bind. split.
  - destruct m as [[a|e]|e]; [eauto|done|done].
  - by intros (a & -> & ?).
Qed.

Lemma optional_returned {A} (P : A -> Prop) o key x parse y :
  optional o key x parse = Ok (inl y) -> P x -> (forall v y, parse v = Ok (inl y) -> P y) -> P y.
Proof.
  unfold optional. destruct (jfind key o) as [v|]; [by eauto|]. by intros [= <-].
Qed.

Lemma exp_fold_inv {A S} (P : S -> Prop) (f : S -> A -> Exp S) l s s' :
  (forall x s1 s2, P s1 -> f s1 x = Ok (inl s2) -> P s2) ->
  P s -> exp_fold f s l = Ok (inl s') -> P s'.
Proof.
  intros Hf. revert s. induction l as [|x l IH]; intros s Hs; simpl.
  - by intros [= <-].
  - intros (s1 & H1 & H2)%exp_returned. eapply IH; [|done]. by eapply Hf.
Qed.

Ltac exp_step :=
  match goal with
  | H : (mbind _ _) = Ok (inl _) |- _ => apply exp_returned in H as (? & ? & H)
  | H : mret _ = Ok (inl _) |- _ => unfold mret, exp_ret in H
  | H : fail _ = Ok (inl _) |- _ => discriminate H
  | H : (if ?b then _ else _) = Ok (inl _) |- _ => destruct b eqn:?
  end.
Ltac exp_inv := repeat (exp_step; simplify_eq/=).

(** What an [int] field of a request can hold, and what an amount can be: a number
    that is not below zero. *)
Definition is_count (z : Z) : Prop := 0 <= z <= INT_MAX.
Definition is_amount (d : double) : Prop := dlt d dzero = false.

Record group_wf (symbols : list string) (count_key : string) (g : BotGroupConfig) : Prop := {
  group_count : is_count (bot_count g);
  group_usd : is_count (bot_initial_usd g);
  group_inventory : is_amount (initial_inventory g);
  group_inventories : map_Forall (fun _ x => is_amount x) (inventory_by_symbol g);
  group_symbols : 0 < bot_count g -> Forall (fun symbol => is_usd symbol = true \/
                    is_Some (inventory_by_symbol g !! symbol)) symbols;
  group_count_key : jfind count_key (deploy_params g) = Some (JInt64 (bot_count g));
  group_users : user_ids g = [] /\ usernames g = []
}.

Definition config_wf (symbols : list string) (service count_key : string) (c : BotCreateConfig) : Prop :=
  bot_service_name c = service /\ groups c <> [] /\ Forall (group_wf symbols count_key) (groups c).

Record request_wf (r : CreateRequest) : Prop := {
  rq_name_wf : is_server_name_valid (rq_server_name r) = true;
  rq_usd_wf : is_count (rq_initial_usd r);
  rq_symbols_wf : rq_symbols r <> [];
  rq_allowlist_wf : rq_allowlist_names r <> [];
  rq_bots_wf : exists mm nt it, rq_bot_configs r = [mm; nt; it] /\
    config_wf (rq_symbols r) "mm" "num_market_makers" mm /\
    config_wf (rq_symbols r) "nt" "num_noise_traders" nt /\
    config_wf (rq_symbols r) "it" "num_informed_traders" it;
  rq_oracle_wf : is_amount (sigma (rq_oracle r)) /\ is_amount (jump_intensity (rq_oracle r)) /\
    is_amount (jump_std (rq_oracle r)) /\ 0 < update_interval_ms (rq_oracle r) <= INT_MAX
}.

Lemma in_int_range_ok z f y : in_int_range z f = Ok (inl y) -> is_count y.
Proof. unfold in_int_range, is_count. intros. exp_inv. apply orb_false_iff in Heqb as [? ?]. lia. Qed.

Lemma parse_int_ok v f d y : parse_int_value v f d = Ok (inl y) -> is_count d -> is_count y.
Proof.
  intros Hp Hd. destruct v; simpl in Hp; try discriminate Hp; try by eapply in_int_range_ok.
  - by injection Hp as <-.
  - exp_inv. by eapply in_int_range_ok.
  - exp_inv. destruct (trunc_i64 d0); [|done]. by eapply in_int_range_ok.
Qed.

Lemma of_int_amount p : is_amount (of_int (Zpos p)).
Proof.
  unfold is_amount, of_int, binary_normalize, binary_round. destruct (shl_align _ _ _) as [m e].
  unfold binary_round_aux. destruct (shr_fexp _ _ _ _ _) as [mrs e'].
  destruct (shr_fexp _ _ _ e' _) as [mrs' e''].
  by destruct (shr_m mrs') as [|q|q]; [|destruct (e'' <=? _)|].
Qed.

Lemma parse_double_ok v f d y : parse_double_value v f d = Ok (inl y) -> is_amount d -> is_amount y.
Proof.
  intros Hp Hd. destruct v; simpl in Hp; try discriminate Hp.
  - by injection Hp as <-.
  - exp_inv. done.
  - injection Hp as <-. destruct n; [done|apply of_int_amount].
  - exp_inv. done.
Qed.

Section Groups.
Variables (symbols : list string).

Lemma default_inventories_spec inventory :
  (forall symbol x, default_inventories symbols inventory !! symbol = Some x -> x = inventory) /\
  (forall symbol, symbol ∈ symbols -> is_usd symbol = false ->
     is_Some (default_inventories symbols inventory !! symbol)).
Proof.
  unfold default_inventories. set (step := fun _ _ => _).
  assert (forall l m,
    (forall symbol x, m !! symbol = Some x -> x = inventory) ->
    (forall symbol x, fold_left step l m !! symbol = Some x -> x = inventory) /\
    (forall symbol, is_Some (m !! symbol) \/ (symbol ∈ l /\ is_usd symbol = false) ->
       is_Some (fold_left step l m !! symbol))) as Hgen.
  { induction l as [|y l IH]; intros m Hm; simpl.
    - split; [done|]. intros symbol [?|[?%elem_of_nil _]]; done.
    - destruct (IH (step m y)) as [H1 H2].
      { unfold step. intros symbol x. destruct (is_usd y); [apply Hm|].
        destruct (m !! y); [apply Hm|]. rewrite lookup_insert_Some. intros [[_ <-]|[_ ?]]; [done|eauto]. }
      split; [done|]. intros symbol Hs. apply H2. unfold step.
      destruct (is_usd y) eqn:Ey, (m !! y) as [v|] eqn:Em, Hs as [Hs|[[->|Hs]%elem_of_cons Hu]]; eauto;
        try congruence; left; rewrite ?lookup_insert_is_Some', ?lookup_insert_eq; eauto. }
  destruct (Hgen symbols ∅) as [H1 H2]; [by intros ? ?; rewrite lookup_empty|]. split; [done|]. eauto.
Qed.

(** Inventories that are amounts and cover the symbols. *)
Definition covering (m : gmap string double) : Prop :=
  map_Forall (fun _ x => is_amount x) m /\
  Forall (fun symbol => is_usd symbol = true \/ is_Some (m !! symbol)) symbols.

Lemma covering_default inventory : is_amount inventory -> covering (default_inventories symbols inventory).
Proof.
  intros Hi. destruct (default_inventories_spec inventory) as [H1 H2]. split.
  - intros k x Hx. by rewrite (H1 _ _ Hx).
  - apply Forall_forall. intros symbol Hs. destruct (is_usd symbol) eqn:E; auto.
Qed.

Lemma covering_insert m symbol x : is_amount x -> covering m -> covering (<[symbol := x]> m).
Proof.
  intros Hx [H1 H2]. split.
  - by apply map_Forall_insert_2.
  - eapply Forall_impl; [done|]. intros y [|]; [by left|]. right. rewrite lookup_insert_is_Some'. auto.
Qed.

Lemma covering_entry path inventory m kv m' : is_amount inventory ->
  covering m -> inventory_entry symbols path inventory m kv = Ok (inl m') -> covering m'.
Proof.
  intros Hi Hm. destruct kv as [symbol val]. unfold inventory_entry. intros. exp_inv.
  apply covering_insert; [|done]. by eapply parse_double_ok.
Qed.

Lemma first_inventory_ok inventory m x m' : is_amount inventory -> covering m ->
  first_inventory symbols inventory m = (x, m') -> is_amount x /\ covering m'.
Proof.
  intros Hi Hm. unfold first_inventory. destruct (List.find _ symbols) as [f|].
  - destruct (m !! f) as [y|] eqn:Ef; intros [= <- <-].
    + split; [|done]. by apply (proj1 Hm f).
    + split; [done|]. by apply covering_insert.
  - by intros [= <- <-].
Qed.

Lemma group_param_keeps key path params o kd o' : key <> kd.1 ->
  group_param path params o kd = Ok (inl o') -> jfind key o' = jfind key o.
Proof.
  intros Hk. destruct kd as [k d]. unfold group_param. intros. exp_inv.
  rewrite jfind_jset. by rewrite (proj2 (String.eqb_neq _ _)) by (simpl in *; congruence).
Qed.

Lemma group_params_keep key path params l o o' : Forall (fun kd => key <> kd.1) l ->
  exp_fold (group_param path params) o l = Ok (inl o') -> jfind key o' = jfind key o.
Proof.
  intros Hall. revert o. induction Hall as [|kd l Hk _ IH]; intros o; simpl; [by intros [= <-]|].
  intros (o1 & H1 & H2)%exp_returned. rewrite (IH _ H2). by eapply group_param_keeps.
Qed.

Variables (count_key : string) (param_defaults : ParamDefaults).
Hypothesis Hkey : Forall (fun kd => count_key <> kd.1) param_defaults.
Hypothesis Hkey' : count_key <> "initial_inventory"%string /\ count_key <> "cfg_prefix"%string.

Lemma parse_bot_group_wf o bot_key prefix n d i usd g : is_count n -> is_amount d -> is_count usd ->
  parse_bot_group symbols o bot_key prefix count_key n d param_defaults i usd = Ok (inl g) ->
  group_wf symbols count_key g.
Proof.
  intros Hn Hd Husd. unfold parse_bot_group.
  intros (count & Hcount & H)%exp_returned.
  apply (optional_returned is_count) in Hcount; [|done|by intros; eapply parse_int_ok].
  apply exp_returned in H as (usd' & Husd' & H).
  apply (optional_returned is_count) in Husd'; [|done|by intros; eapply parse_int_ok].
  apply exp_returned in H as (inv & Hinv & H).
  apply (optional_returned is_amount) in Hinv; [|done|by intros; eapply parse_double_ok].
  apply exp_returned in H as (m & Hm & H).
  apply (optional_returned covering) in Hm; [|by apply covering_default|].
  2: { intros [| | | | | | |obj] m' Hm'; try done.
       eapply exp_fold_inv; [|by apply covering_default|done]. intros. by eapply covering_entry. }
  destruct (first_inventory _ _ _) as [inv' m'] eqn:Efirst.
  apply first_inventory_ok in Efirst as [Hinv' [Hm1 Hm2]]; [|done|done].
  apply exp_returned in H as (params & Hparams & H). injection H as <-.
  constructor; simpl; try done.
  set (start := jset "initial_inventory" _ _) in Hparams.
  assert (jfind count_key start = Some (JInt64 count)) as Hstart.
  { unfold start. rewrite jfind_jset, (proj2 (String.eqb_neq _ _)) by (destruct Hkey'; congruence).
    by rewrite jfind_jset, String.eqb_refl. }
  apply (optional_returned (fun p => jfind count_key p = Some (JInt64 count))) in Hparams; [done..|].
  intros [| | | | | | |obj] p Hp; try done. rewrite <- Hstart. by eapply group_params_keep.
Qed.

Lemma empty_group_wf prefix usd d : is_count usd -> is_amount d ->
  group_wf symbols count_key (empty_group prefix count_key usd d param_defaults).
Proof.
  intros Husd Hd. constructor; simpl; try done; try lia.
  unfold base_params, set_defaults. generalize Hkey.
  match goal with |- context [fold_left _ _ ?o] => assert (jfind count_key o = Some (JInt64 0)) as Ho end.
  { destruct Hkey'. rewrite !jfind_jset, !(proj2 (String.eqb_neq _ _)) by congruence.
    by rewrite String.eqb_refl. }
  revert Ho. generalize (jset "initial_inventory" (JDouble d)
    (jset "cfg_prefix" (JString (prefix +:+ "_" +:+ "grp1")) (jset count_key (JInt64 0) [])))%string.
  clear Hkey. induction param_defaults as [|kd l IH]; intros o Ho Hall; [done|]. simpl.
  apply Forall_cons in Hall as [Hk Hall]. apply IH; [|done].
  by rewrite jfind_jset, (proj2 (String.eqb_neq _ _)) by congruence.
Qed.

Ltac parsed_group_wf :=
  match goal with H : parse_bot_group _ _ _ _ _ _ _ _ _ _ = _ |- _ => by apply parse_bot_group_wf in H end.

Lemma parse_bot_config_wf bots bot_key prefix service n usd d c :
  is_count n -> is_count usd -> is_amount d ->
  parse_bot_config symbols bots bot_key prefix service count_key n usd d param_defaults = Ok (inl c) ->
  config_wf symbols service count_key c.
Proof.
  intros Hn Husd Hd. unfold parse_bot_config. intros Hc.
  assert (forall g, c = mkBotCreateConfig service [g] -> group_wf symbols count_key g ->
            config_wf symbols service count_key c) as Hone.
  { intros g -> Hg. split_and!; [done|done|]. by apply Forall_singleton. }
  destruct (bots ≫= _) as [[| | | | | | |o]|];
    try (unfold mret, exp_ret in Hc; simplify_eq; eapply Hone; [done|]; by apply empty_group_wf).
  assert (forall arr i gs, parse_groups symbols bot_key prefix count_key n usd d param_defaults i arr
            = Ok (inl gs) -> Forall (group_wf symbols count_key) gs) as Hgroups.
  { induction arr as [|[| | | | | | |go] arr IH]; intros i gs Hgs; simpl in Hgs; try discriminate Hgs.
    - by injection Hgs as <-.
    - exp_inv. apply Forall_cons. split; [parsed_group_wf|by eapply IH]. }
  destruct (jfind "groups" o) as [[| | | | | |arr|]|]; exp_inv;
    try (eapply Hone; [done|]; parsed_group_wf).
  destruct x as [|g gs]; [eapply Hone; [done|]; by apply empty_group_wf|].
  split_and!; [done|done|]. by eapply Hgroups.
Qed.
End Groups.

Lemma parse_oracle_wf body o : parse_oracle body = Ok (inl o) ->
  is_amount (sigma o) /\ is_amount (jump_intensity o) /\ is_amount (jump_std o) /\
  0 < update_interval_ms o <= INT_MAX.
Proof.
  unfold parse_oracle. destruct (jfind "oracle" body) as [[| | | | | | |obj]|]; try done.
  2: { intros [= <-]. by vm_compute. }
  intros. exp_inv.
  repeat match goal with
  | H : optional _ _ _ (fun v => parse_double_value v _ _) = Ok (inl _) |- _ =>
      apply (optional_returned is_amount) in H;
        [|vm_compute; reflexivity|intros ? ? Hp; eapply parse_double_ok; [exact Hp|vm_compute; reflexivity]]
  end.
  match goal with H : optional _ "update_interval_ms" _ _ = Ok (inl _) |- _ =>
    apply (optional_returned (fun z => 0 < z <= INT_MAX)) in H; [|unfold INT_MAX; simpl; lia|] end.
  - done.
  - intros v y Hy. apply exp_returned in Hy as (z & Hz & Hy). exp_inv.
    apply parse_int_ok in Hz; unfold is_count, INT_MAX in *; simpl in *; lia.
Qed.

Lemma parse_initial_usd_ok body usd : parse_initial_usd body = Ok (inl usd) -> is_count usd.
Proof.
  unfold parse_initial_usd, is_count. destruct (jfind "initial_usd" body) as [[]|]; try done; intros; exp_inv;
    [|unfold INT_MAX; lia]. match goal with H : (_ || _)%bool = false |- _ => apply orb_false_iff in H end. lia.
Qed.

Lemma parse_bot_configs_wf symbols body usd l : is_count usd ->
  parse_bot_configs symbols body usd = Ok (inl l) ->
  exists mm nt it, l = [mm; nt; it] /\ config_wf symbols "mm" "num_market_makers" mm /\
    config_wf symbols "nt" "num_noise_traders" nt /\ config_wf symbols "it" "num_informed_traders" it.
Proof.
  intros Husd. unfold parse_bot_configs. intros H. exp_inv.
  eexists _, _, _. split; [done|].
  split_and!; (eapply parse_bot_config_wf; [ | | | | |eassumption]);
    try done; try solve [repeat constructor; discriminate|vm_compute; reflexivity|
                         unfold is_count, INT_MAX; lia].
Qed.

Lemma create_request_ok body r : parse_create_request body = Ok (inl r) -> request_wf r.
Proof.
  unfold parse_create_request. intros H. exp_inv.
  match goal with H : parse_initial_usd _ = _ |- _ => apply parse_initial_usd_ok in H end.
  constructor; simpl.
  - by apply negb_false_iff.
  - done.
  - intros E. by rewrite E in *.
  - intros E. by rewrite E in *.
  - by eapply parse_bot_configs_wf.
  - by eapply parse_oracle_wf.
Qed.

(** C26: the requests that are accepted.  Whatever the body of a create request holds, if it
    is accepted then the server name has 1 to 11 letters and digits, there is a symbol
    and a member, amounts of money and numbers of bots are non-negative 32-bit
    integers, inventories are not negative and exist for every symbol that a bot will
    hold, the number of bots given to the deployment is the number created, and the
    oracle's interval is positive. *)
Theorem create_request_wf body r : parse_create_request body = Ok (inl r) -> request_wf r.
Proof. apply create_request_ok. Qed.

(** A request with one symbol, one member and two informed traders of which the
    inventory is given. *)
Definition sample_body : Obj :=
  [("server_name", JString "lab"); ("initial_usd", JInt64 500); ("active_symbols", jstrings ["AAPL"]);
   ("allowlist", jstrings ["bob"]);
   ("bots", JObject [("it", JObject [("count", JInt64 2); ("initial_inventory", JInt64 7)])])]%string.

Lemma create_request_wf_witness :
  exists r, parse_create_request sample_body = Ok (inl r) /\ request_wf r.
Proof.
  eexists. split; [vm_compute; reflexivity|].
  apply (create_request_wf sample_body). vm_compute. reflexivity.
Defined.
