(* ===== verification/Backend.v ===== *)
(** * The backend service: handlers and queries

    [services/backend_service/request_handler.cpp]: what a handler can do (use the
    database client, talk to the deployment server, return early), the handlers of the
    GET requests and the identification of the caller.  What Boost decides (parsing a
    target, parsing and printing JSON), what the deployment server answers and the
    order in which an unordered container is traversed are interfaces. *)

From S2P Require Import Prelude Core Doubles Fix Json BackendConfig Postgres DatabaseClient QuestDb.
From Stdlib Require Import ZArith Lia Ascii String SpecFloat.
From stdpp Require Import base option list gmap strings.

Open Scope Z_scope.

(** ** The outside of the process *)
Inductive Verb := verb_options | verb_get | verb_post | verb_other.

Record Request := mkRequest {
  rq_method : Verb;
  rq_target : string;
  rq_authorization : option string;
  rq_body : string
}.

Record Response := mkResponse {
  rs_status : Z;
  rs_headers : list (string * string);
  rs_body : string
}.

Class Boost := {
  (** path and decoded parameters; [None] when [url_view] throws *)
  parse_target : string -> option (string * list (string * string));
  (** a value, or the text of the exception *)
  bj_parse : string -> JValue + string;
  bj_serialize : Obj -> string
}.

(** A POST to the deployment server of a machine. *)
Record Exchange := mkExchange { ex_ip : string; ex_target : string; ex_body : string }.

Class DeploymentServer := {
  (** the status and the body of the n-th answer, or the text of the exception *)
  deployment_reply : nat -> Exchange -> (Z * string) + string
}.

Class Unordered := {
  hash_order : nat -> forall A : Type, list A -> list A;
  hash_order_perm : forall n A (l : list A), hash_order n A l ≡ₚ l
}.

(** ** Handlers *)
Record World := mkWorld {
  w_db : Conn;
  w_quest : QConn;
  w_sent : list Exchange    (** the calls of the deployment server, in order *)
}.

(** A handler goes on with a value, or has returned its response. *)
Definition H (A : Type) : Type := World -> res ((A + Obj) * World).

#[export] Instance h_ret : MRet H := fun A a w => Ok (inl a, w).
#[export] Instance h_bind : MBind H := fun A B f m w =>
  match m w with
  | Ok (inl a, w') => f a w'
  | Ok (inr o, w') => Ok (inr o, w')
  | Err e => Err e
  end.

Definition reply {A} (o : Obj) : H A := fun w => Ok (inr o, w).
Definition lift {A} (r : res A) : H A := fun w =>
  match r with Ok a => Ok (inl a, w) | Err e => Err e end.

Definition error_reply (e : string) : Obj := [("error"%string, JString e)].
Definition auth_error_reply (e : string) : Obj := [("auth_error"%string, JString e)].
Definition internal_error (_ : string) : Obj := error_reply "Internal server error".

Definition of_exp {A} (m : Exp A) : H A := fun w =>
  match m with
  | Ok (inl a) => Ok (inl a, w)
  | Ok (inr e) => Ok (inr (error_reply e), w)
  | Err e => Err e
  end.

Definition db {A} (op : Conn -> (A + string) * Conn) : H (A + string) := fun w =>
  let '(r, c) := op (w_db w) in Ok (inl r, mkWorld c (w_quest w) (w_sent w)).

Definition quest {A} (op : QConn -> (A + string) * QConn) : H (A + string) := fun w =>
  let '(r, q) := op (w_quest w) in Ok (inl r, mkWorld (w_db w) q (w_sent w)).

(** [if (!result.has_value()) { res[...] = ...; return res; }] *)
Definition expect {A} (on_error : string -> Obj) (r : A + string) : H A :=
  match r with inl a => mret a | inr e => reply (on_error e) end.

Definition db_or {A} (on_error : string -> Obj) (op : Conn -> (A + string) * Conn) : H A :=
  r ← db op; expect on_error r.

Fixpoint h_for {A} (f : A -> H unit) (l : list A) : H unit :=
  match l with
  | [] => mret tt
  | x :: l' => _ ← f x; h_for f l'
  end.

Fixpoint h_map {A B} (f : A -> H B) (l : list A) : H (list B) :=
  match l with
  | [] => mret []
  | x :: l' => y ← f x; ys ← h_map f l'; mret (y :: ys)
  end.

(** The response of a handler, however it returned. *)
Definition run (m : H Obj) (w : World) : res (Obj * World) :=
  match m w with
  | Ok (inl o, w') | Ok (inr o, w') => Ok (o, w')
  | Err e => Err e
  end.

(** [params.find(key)] *)
Fixpoint find_param (key : string) (params : list (string * string)) : option string :=
  match params with
  | [] => None
  | (k, v) :: params' => if String.eqb k key then Some v else find_param key params'
  end.

Definition required {A} (o : option A) (r : Obj) : H A :=
  match o with Some a => mret a | None => reply r end.

Section Queries.
Context `{Postgres} `{QuestServer}.

(** ** Accounts *)
Definition outcome_reply (success : bool) (err_msg : string) : Obj :=
  [("success", JBool success); ("err_msg", JString err_msg)]%string.

Definition handle_login (params : list (string * string)) : H Obj :=
  let missing := outcome_reply false "Missing user_name or password" in
  user_name ← required (find_param "user_name" params) missing;
  password ← required (find_param "password" params) missing;
  result ← db_or (fun _ => outcome_reply false "Internal server error")
             (authenticate_user user_name password);
  match result with
  | Some _ => mret (outcome_reply true "")
  | None => mret (outcome_reply false "Invalid username or password")
  end.

Definition handle_signup (params : list (string * string)) : H Obj :=
  let missing := outcome_reply false "Missing user_name or password" in
  user_name ← required (find_param "user_name" params) missing;
  password ← required (find_param "password" params) missing;
  _ ← db_or (fun _ => outcome_reply false "Username already exists") (create_user user_name password);
  mret (outcome_reply true "").

(** ** Servers *)
Definition active_server_entry (srv : ServerRow) : H JValue :=
  endpoint ← db_or internal_error (get_service_endpoint (sw_server_name srv) mdp);
  let '(mdp_ip, mdp_port) := match endpoint with
                             | Some e => (ep_ip e, ep_port e)
                             | None => (""%string, 0)
                             end in
  mret (JObject
    [("server_id", JInt64 (sw_server_id srv)); ("server_name", JString (sw_server_name srv));
     ("admin_name", JString (sw_admin_name srv)); ("description", JString (sw_description srv));
     ("mdp_ip", JString mdp_ip); ("mdp_port", JInt64 mdp_port);
     ("active_symbols", jstrings (sw_active_tickers srv))])%string.

Definition handle_active_servers : H Obj :=
  result ← db_or internal_error get_active_servers;
  arr ← h_map active_server_entry result;
  mret [("servers"%string, JArray arr)].

Definition handle_server_mdp_endpoint (params : list (string * string)) : H Obj :=
  server_name ← required (find_param "server_name" params) (error_reply "Missing server_name");
  endpoint ← db_or internal_error (get_service_endpoint server_name mdp);
  endpoint ← required endpoint (error_reply "MDP endpoint not found");
  mret [("server_name", JString server_name); ("mdp_ip", JString (ep_ip endpoint));
        ("mdp_port", JInt64 (ep_port endpoint))]%string.

Definition handle_active_symbols (params : list (string * string)) : H Obj :=
  server_name ← required (find_param "server_name" params) (error_reply "Missing server_name");
  result ← db_or internal_error (get_server_active_symbols server_name);
  mret [("symbols"%string, jstrings result)].

(** [static_cast<int>(core::constants::decimal_to_int_multiplier)] and its square *)
Definition balance_multiplier : Z := 100.
Definition balance_multiplier_squared : Z := balance_multiplier * balance_multiplier.

Definition scaled_balance (b : BalanceRow) : double :=
  let divisor := if String.eqb (bw_symbol b) "USD" then balance_multiplier_squared else balance_multiplier in
  ddiv (of_int (bw_balance b)) (of_int divisor).

Definition balance_entry (b : BalanceRow) : JValue :=
  JObject [("symbol", JString (bw_symbol b)); ("balance", JDouble (scaled_balance b))]%string.

Definition user_server_entry (srv : UserServerRow) : JValue :=
  JObject [("server_id", JInt64 (usw_server_id srv)); ("server_name", JString (usw_server_name srv));
           ("role", JString (usw_role srv)); ("description", JString (usw_description srv));
           ("initial_usd", JInt64 (usw_initial_usd srv));
           ("active_symbols", jstrings (usw_active_tickers srv));
           ("balances", JArray (map balance_entry (usw_balances srv)))]%string.

Definition handle_user_servers (params : list (string * string)) : H Obj :=
  user_name ← required (find_param "user_name" params) (error_reply "Missing user_name");
  result ← db_or internal_error (get_user_servers user_name);
  _ ← match result with
      | [] =>
          let not_found := [("error", JString "User not found"); ("servers", JArray [])]%string in
          user_result ← db_or (fun _ => not_found) (get_user user_name);
          _ ← required user_result not_found;
          mret tt
      | _ => mret tt
      end;
  mret [("servers"%string, JArray (map user_server_entry result))].

(** ** Historical trades *)
Definition stoll (s : string) : res Z :=
  z ← parse_signed (skip_space s);
  if in_i64 z then Ok z else Err OutOfRange.

Definition historical_trade_entry (t : HistoricalTradeRow) : JValue :=
  JObject [("trade_id", JString (hw_trade_id t)); ("ticker", JString (hw_symbol t));
           ("price", JDouble (to_decimal (hw_price t)));
           ("quantity", JDouble (to_decimal (hw_quantity t)));
           ("create_timestamp", JInt64 (hw_ts_ms t))]%string.

(** [catch (...)]: any exception of [stoll]. *)
Definition parse_after_ts (s : string) : H Z :=
  match stoll s with Ok z => mret z | Err _ => reply (error_reply "Invalid after_ts_ms") end.

Definition query_history (server_name symbol : string) (after_ts_ms : Z)
    : H (list HistoricalTradeRow + string) := fun w =>
  match query_trades_after server_name symbol after_ts_ms (w_quest w) with
  | Ok (r, q) => Ok (inl r, mkWorld (w_db w) q (w_sent w))
  | Err e => Err e
  end.

Definition handle_historical_trades (params : list (string * string)) : H Obj :=
  let missing := error_reply "Missing server or symbol" in
  server_name ← required (find_param "server" params) missing;
  symbol ← required (find_param "symbol" params) missing;
  after_ts ← required (find_param "after_ts_ms" params) (error_reply "No after_ts_ms specified");
  after_ts_ms ← parse_after_ts after_ts;
  result ← query_history server_name symbol after_ts_ms;
  trades ← expect internal_error result;
  mret [("trades"%string, JArray (map historical_trade_entry trades))].

(** ** Account details *)
Definition total_value (balances : list BalanceRow) : double :=
  fold_left (fun total b => dadd total (scaled_balance b)) balances dzero.

Definition account_server (d : AccountDetailsRow) : JValue :=
  JObject [("server_id", JInt64 (ad_server_id d)); ("server_name", JString (ad_server_name d));
           ("description", JString (ad_description d)); ("admin_name", JString (ad_admin_name d));
           ("initial_usd", JInt64 (ad_initial_usd d));
           ("active_symbols", jstrings (ad_active_tickers d))]%string.

Definition account_reply (d : AccountDetailsRow) : Obj :=
  let total := total_value (ad_balances d) in
  let initial := of_int (ad_initial_usd d) in
  let pnl := dsub total initial in
  let pnl_pct := if ad_initial_usd d =? 0 then dzero
                 else dmul (ddiv pnl initial) (of_int 100) in
  [("server", account_server d); ("role", JString (ad_role d));
   ("balances", JArray (map balance_entry (ad_balances d))); ("total_value", JDouble total);
   ("initial_usd", JInt64 (ad_initial_usd d))]%string ++
  match ad_initial_bot_portfolio_balance d with
  | Some b => [("initial_bot_portfolio_balance"%string,
                JDouble (ddiv (of_int b) (of_int balance_multiplier_squared)))]
  | None => []
  end ++
  [("pnl", JDouble pnl); ("pnl_pct", JDouble pnl_pct)]%string.

Definition handle_account_details (params : list (string * string)) : H Obj :=
  let missing := error_reply "Missing user_name or server_name" in
  user_name ← required (find_param "user_name" params) missing;
  server_name ← required (find_param "server_name" params) missing;
  result ← db_or internal_error (get_account_details user_name server_name);
  details ← required result (error_reply "User is not a member of this server");
  mret (account_reply details).

(** ** Who is calling *)
Definition bearer : string := "Bearer ".

Definition bearer_name (req : Request) : option string :=
  match rq_authorization req with
  | None => None
  | Some value =>
      if String.prefix bearer value
      then Some (substring (String.length bearer) (String.length value - String.length bearer) value)
      else None
  end.

Definition authenticate_admin (req : Request) : H Z :=
  match bearer_name req with
  | None => mret (-1)
  | Some username =>
      result ← db (get_user username);
      match result with
      | inl (Some u) => mret (uw_user_id u)
      | _ => mret (-1)
      end
  end.

Definition authenticated (req : Request) : H Z :=
  caller_id ← authenticate_admin req;
  if caller_id <? 0
  then reply (auth_error_reply "Unauthorized: valid Authorization header required")
  else mret caller_id.
End Queries.

Section Bodies.
Context `{Boost}.

Definition parse_body (req : Request) : H Obj :=
  match bj_parse (rq_body req) with
  | inr _ => reply (error_reply "Invalid JSON body")
  | inl (JObject body) => mret body
  | inl _ => reply (error_reply "Body must be a JSON object")
  end.
End Bodies.
