(* ===== verification/BackendServers.v ===== *)
(** * The backend service: managing servers

    The POST handlers of [services/backend_service/request_handler.cpp], which create,
    configure and remove a server, and [RequestHandler::handle] with its routes and
    status codes. *)

From S2P Require Import Prelude Core Doubles Fix Json BackendConfig PgArray Postgres DatabaseClient QuestDb Backend.
From Stdlib Require Import ZArith Lia Ascii String.
From stdpp Require Import base option list gmap strings sets.

Open Scope Z_scope.

(** ** Free ports *)
Fixpoint skip_used (fuel : nat) (used_ports : gset Z) (next_port_candidate : Z) : res Z :=
  match fuel with
  | O => Err OutOfFuel
  | S fuel' =>
      if bool_decide (next_port_candidate ∈ used_ports)
      then next ← add32 next_port_candidate 1; skip_used fuel' used_ports next
      else Ok next_port_candidate
  end.

(** The variables that the lambda captures: [used_ports] and [next_port_candidate]. *)
Definition take_next_available_port (s : gset Z * Z) : res (Z * (gset Z * Z)) :=
  let '(used_ports, next_port_candidate) := s in
  assigned_port ← skip_used (S (size used_ports)) used_ports next_port_candidate;
  next ← add32 assigned_port 1;
  Ok (assigned_port, ({[assigned_port]} ∪ used_ports, next)).

Definition kMinUnreservedPort : Z := 10001.

Record Ports := mkPorts {
  mdp_port : Z; me_port : Z; oms_port : Z; gateway_port : Z; oracle_port : Z
}.

Definition take_ports (used_ports : gset Z) : res Ports :=
  '(mdp_p, s) ← take_next_available_port (used_ports, kMinUnreservedPort);
  '(me_p, s) ← take_next_available_port s;
  '(oms_p, s) ← take_next_available_port s;
  '(gateway_p, s) ← take_next_available_port s;
  '(oracle_p, s) ← take_next_available_port s;
  Ok (mkPorts mdp_p me_p oms_p gateway_p oracle_p).

Definition join_csv (values : list string) : string := build_loop 0 values "".

Definition deployment_port : Z := 10000.
Definition kBotPassword : string := "eduxpassword".

(** ** The bots' users *)
Definition add_bot (username : string) (user_id : Z) (g : BotGroupConfig) : BotGroupConfig :=
  mkBotGroupConfig (group_tag g) (bot_count g) (bot_initial_usd g) (initial_inventory g)
    (inventory_by_symbol g) (deploy_params g) (user_ids g ++ [user_id]) (usernames g ++ [username]).

(** All bots: [for (bot_cfg : bot_configs) for (group : bot_cfg.groups) ...]. *)
Definition all_groups (bot_configs : list BotCreateConfig) : list BotGroupConfig :=
  bot_configs ≫= groups.
Definition bot_ids (bot_configs : list BotCreateConfig) : list Z := all_groups bot_configs ≫= user_ids.
Definition bot_names (bot_configs : list BotCreateConfig) : list string :=
  all_groups bot_configs ≫= usernames.

Section Handlers.
Context `{Postgres} `{QuestServer} `{Boost} `{DeploymentServer} `{Unordered}.

Definition bot_user_id (username : string) : H Z :=
  user ← db_or error_reply (get_user username);
  match user with
  | Some u => mret (uw_user_id u)
  | None =>
      u ← db_or error_reply (create_user username kBotPassword);
      mret (uw_user_id u)
  end.

Fixpoint group_users_loop (service_name : string) (n : nat) (running_index : Z) (g : BotGroupConfig)
    : H (Z * BotGroupConfig) :=
  match n with
  | O => mret (running_index, g)
  | S n' =>
      let username := (service_name +:+ to_string running_index)%string in
      next ← lift (add32 running_index 1);
      user_id ← bot_user_id username;
      group_users_loop service_name n' next (add_bot username user_id g)
  end.

Fixpoint config_users_loop (service_name : string) (running_index : Z) (gs : list BotGroupConfig)
    : H (list BotGroupConfig) :=
  match gs with
  | [] => mret []
  | g :: gs' =>
      '(next, g') ← group_users_loop service_name (Z.to_nat (bot_count g)) running_index g;
      rest ← config_users_loop service_name next gs';
      mret (g' :: rest)
  end.

Definition create_bot_users (bot_configs : list BotCreateConfig) : H (list BotCreateConfig) :=
  h_map (fun bot_cfg =>
    gs ← config_users_loop (bot_service_name bot_cfg) 1 (groups bot_cfg);
    mret (mkBotCreateConfig (bot_service_name bot_cfg) gs)) bot_configs.

(** [if (allowlist_set.insert(name).second) all_allowlist_names.push_back(name)] *)
Definition add_new (l : list string) (name : string) : list string :=
  if bool_decide (name ∈ l) then l else l ++ [name].

Definition with_bots (allowlist_names : list string) (bot_configs : list BotCreateConfig) : list string :=
  fold_left add_new (bot_names bot_configs) allowlist_names.

(** ** Balances of a new server *)
(** Later assignments win: members, the administrator, then the bots. *)
Definition initial_usd_by_user_id (ids : list Z) (caller_id initial_usd : Z)
    (bot_configs : list BotCreateConfig) : gmap Z Z :=
  fold_left (fun m g => fold_left (fun m id => <[id := bot_initial_usd g]> m) (user_ids g) m)
    (all_groups bot_configs)
    (<[caller_id := initial_usd]> (fold_left (fun m id => <[id := initial_usd]> m) ids ∅)).

(** [for (x : container)] of an unordered container. *)
Definition h_for_unordered {A} (f : A -> H unit) (l : list A) : H unit := fun w =>
  h_for f (hash_order (requests (w_db w)) A l) w.

Definition insert_usd (server_id : Z) (entry : Z * Z) : H unit :=
  initial_usd_scaled ← lift (mul64 entry.2 balance_multiplier_squared);
  db_or error_reply (insert_balance entry.1 server_id "USD" initial_usd_scaled).

Fixpoint bot_inventory_loop (g : BotGroupConfig) (bot_user_id server_id : Z) (symbols : list string)
    (portfolio : Z) : H Z :=
  match symbols with
  | [] => mret portfolio
  | symbol :: symbols' =>
      if is_usd symbol then bot_inventory_loop g bot_user_id server_id symbols' portfolio
      else
        let inventory := default (initial_inventory g) (inventory_by_symbol g !! symbol) in
        inventory_scaled ← lift (llround (dmul inventory (of_int balance_multiplier)));
        _ ← db_or error_reply (insert_balance bot_user_id server_id symbol inventory_scaled);
        at_price ← lift (mul64 inventory_scaled kDefaultInitialTickerPriceUsd);
        scaled ← lift (mul64 at_price balance_multiplier);
        portfolio ← lift (add64 portfolio scaled);
        bot_inventory_loop g bot_user_id server_id symbols' portfolio
  end.

Definition insert_bot (server_id : Z) (symbols : list string) (g : BotGroupConfig) (bot_user_id : Z)
    : H unit :=
  usd ← lift (mul64 (bot_initial_usd g) balance_multiplier_squared);
  portfolio ← bot_inventory_loop g bot_user_id server_id symbols usd;
  db_or error_reply (upsert_init_bot_portfolio_balance bot_user_id server_id portfolio).

Definition insert_zero_balances (server_id : Z) (symbols : list string) (user_id : Z) : H unit :=
  h_for_unordered (fun symbol => db_or error_reply (insert_balance user_id server_id symbol 0))
    (elements (list_to_set (List.filter (fun s => negb (is_usd s)) symbols) : gset string)).

Definition insert_initial_balances (server_id caller_id initial_usd : Z) (ids : list Z)
    (symbols : list string) (bot_configs : list BotCreateConfig) : H unit :=
  _ ← h_for_unordered (insert_usd server_id)
        (map_to_list (initial_usd_by_user_id ids caller_id initial_usd bot_configs));
  let non_bot_user_ids : gset Z :=
    ({[caller_id]} ∪ list_to_set ids) ∖ list_to_set (bot_ids bot_configs) in
  _ ← h_for_unordered (insert_zero_balances server_id symbols) (elements non_bot_user_ids);
  h_for (fun g => h_for (insert_bot server_id symbols g) (user_ids g)) (all_groups bot_configs).

(** ** Calls of the deployment server *)
Definition exchange (ip target : string) (payload : Obj) : H ((Z * string) + string) := fun w =>
  let x := mkExchange ip target (bj_serialize payload) in
  Ok (inl (deployment_reply (length (w_sent w)) x), mkWorld (w_db w) (w_quest w) (w_sent w ++ [x])).

(** [subject] is how the messages name the service, [expected] the status awaited. *)
Definition deployment_call (ip target : string) (payload : Obj) (service_name subject failed expected : string)
    : H (unit + string) :=
  let server := (ip +:+ ":" +:+ to_string deployment_port)%string in
  let error what := inr ("Error calling deployment_server " +:+ server +:+ " for " +:+ subject +:+ ": " +:+ what)%string in
  answer ← exchange ip target payload;
  mret (match answer with
        | inr what => error what
        | inl (status, body) =>
            if negb (status =? 200)
            then inr ("deployment_server " +:+ server +:+ " returned status " +:+ to_string status
                      +:+ " for " +:+ subject +:+ ": " +:+ body)%string
            else match bj_parse body with
                 | inr what => error what
                 | inl (JObject obj) =>
                     match jfind "status" obj with
                     | Some (JString s) =>
                         if String.eqb s expected then inl tt
                         else inr (failed +:+ " failed for " +:+ service_name +:+ ": " +:+ body)%string
                     | _ => inr (failed +:+ " failed for " +:+ service_name +:+ ": " +:+ body)%string
                     end
                 | inl _ => inr ("Invalid response body from deployment_server for " +:+ subject
                                 +:+ ": " +:+ body)%string
                 end
        end).

Definition deploy_service (machine_ip server_name service_name : string) (params : Obj)
    : H (unit + string) :=
  deployment_call machine_ip "/deploy"
    [("service_name", JString service_name); ("server_name", JString server_name);
     ("params", JObject params)]%string
    service_name service_name "Deployment" "deployed".

Definition deploy (machine_ip server_name service_name : string) (params : Obj) : H unit :=
  r ← deploy_service machine_ip server_name service_name params; expect error_reply r.

(** The parameters of the services *)
Definition mdp_params (ip : string) (ports : Ports) (symbols : list string) : Obj :=
  [("host", JString ip); ("ws_port", JInt64 (mdp_port ports));
   ("active_symbols", JString (join_csv symbols))]%string.

Definition me_params (ip : string) (ports : Ports) (symbols : list string) : Obj :=
  [("matching_engine_host", JString ip); ("matching_engine_port", JInt64 (me_port ports));
   ("active_symbols", JString (join_csv symbols))]%string.

Definition oms_params (ip : string) (ports : Ports) (symbols : list string) : Obj :=
  [("order_manager_host", JString ip); ("order_manager_port", JInt64 (oms_port ports));
   ("active_symbols", JString (join_csv symbols));
   ("downstream_matching_engine_host", JString ip);
   ("downstream_matching_engine_port", JInt64 (me_port ports))]%string.

Definition gateway_params (ip : string) (ports : Ports) (names : list string) : Obj :=
  [("downstream_order_manager_host", JString ip);
   ("downstream_order_manager_port", JInt64 (oms_port ports));
   ("fix_server_port", JInt64 (gateway_port ports)); ("whitelist", JString (join_csv names))]%string.

Definition oracle_params (ports : Ports) (symbols : list string) (cfg : OracleDeployConfig) : Obj :=
  [("active_symbols", JString (join_csv symbols)); ("oracle_ws_port", JInt64 (oracle_port ports));
   ("mu", JDouble (mu cfg)); ("sigma", JDouble (sigma cfg));
   ("jump_intensity", JDouble (jump_intensity cfg)); ("jump_mean", JDouble (jump_mean cfg));
   ("jump_std", JDouble (jump_std cfg)); ("update_interval_ms", JInt64 (update_interval_ms cfg))]%string.

Definition bot_params (ip : string) (ports : Ports) (symbols : list string) (service_name : string)
    (g : BotGroupConfig) : Obj :=
  let o := jset "gateway_host" (JString ip) (deploy_params g) in
  let o := jset "gateway_port" (JInt64 (gateway_port ports)) o in
  let o := jset "active_symbols" (JString (join_csv symbols)) o in
  let o := jset "group_tag" (JString (group_tag g)) o in
  let o := if bool_decide (service_name ∈ ["mm"; "nt"; "it"]%string)
           then jset "mdp_ws_port" (JInt64 (mdp_port ports)) (jset "mdp_ws_host" (JString ip) o)
           else o in
  let o := if String.eqb service_name "it"
           then jset "oracle_ws_port" (JInt64 (oracle_port ports)) (jset "oracle_ws_host" (JString ip) o)
           else o in
  jset "sender_comp_ids" (jstrings (usernames g)) o.

Definition deploy_bots (ip server_name : string) (ports : Ports) (symbols : list string)
    (bot_cfg : BotCreateConfig) : H unit :=
  h_for (fun g =>
    if bot_count g <=? 0 then mret tt
    else deploy ip server_name (bot_service_name bot_cfg)
           (bot_params ip ports symbols (bot_service_name bot_cfg) g)) (groups bot_cfg).

Definition deploy_all (ip : string) (ports : Ports) (r : CreateRequest) (bot_configs : list BotCreateConfig)
    (names : list string) : H unit :=
  let server_name := rq_server_name r in
  let symbols := rq_symbols r in
  _ ← deploy ip server_name "mdp" (mdp_params ip ports symbols);
  _ ← deploy ip server_name "me" (me_params ip ports symbols);
  _ ← deploy ip server_name "oms" (oms_params ip ports symbols);
  _ ← deploy ip server_name "gateway" (gateway_params ip ports names);
  _ ← deploy ip server_name "oracle" (oracle_params ports symbols (rq_oracle r));
  h_for (deploy_bots ip server_name ports symbols) bot_configs.

(** ** POST /create_server *)
Definition choose_machine : H MachineRow :=
  machines ← db_or error_reply query_machines;
  required (head machines) (error_reply "No available machines found").

Definition choose_ports (machine_name : string) : H Ports :=
  services ← db_or error_reply (query_services machine_name);
  lift (take_ports (list_to_set (map svw_port services))).

Definition service_inserts (machine_id : Z) (ports : Ports) : list ServiceInsertRow :=
  [mkServiceInsertRow machine_id mdp (mdp_port ports); mkServiceInsertRow machine_id me (me_port ports);
   mkServiceInsertRow machine_id oms (oms_port ports);
   mkServiceInsertRow machine_id gateway (gateway_port ports);
   mkServiceInsertRow machine_id oracle (oracle_port ports)].

Definition create_reply (warning : unit + string) (server_id caller_id : Z) (r : CreateRequest)
    (names : list string) : Obj :=
  match warning with inl _ => [] | inr e => [("warning"%string, JString e)] end ++
  [("success", JBool true); ("server_id", JInt64 server_id);
   ("server_name", JString (rq_server_name r)); ("admin_id", JInt64 caller_id);
   ("description", JString (rq_description r)); ("initial_usd", JInt64 (rq_initial_usd r));
   ("active_symbols", jstrings (rq_symbols r)); ("allowlist", jstrings names)]%string.

Definition handle_create_server (req : Request) : H Obj :=
  caller_id ← authenticated req;
  body ← parse_body req;
  r ← of_exp (parse_create_request body);
  bot_configs ← create_bot_users (rq_bot_configs r);
  let all_allowlist_names := with_bots (rq_allowlist_names r) bot_configs in
  ids ← db_or error_reply (resolve_user_ids all_allowlist_names);
  machine ← choose_machine;
  ports ← choose_ports (mw_machine_name machine);
  server_id ← db_or error_reply
    (create_server_with_services (rq_server_name r) caller_id (rq_description r) (rq_symbols r) ids
       (service_inserts (mw_machine_id machine) ports) (rq_initial_usd r));
  _ ← insert_initial_balances server_id caller_id (rq_initial_usd r) ids (rq_symbols r) bot_configs;
  _ ← deploy_all (mw_ip machine) ports r bot_configs all_allowlist_names;
  warning ← quest (create_quest_tables (rq_server_name r));
  mret (create_reply warning server_id caller_id r all_allowlist_names).

(** ** The server that a request names, for its administrator only *)
Definition own_server (caller_id : Z) (server_name : string) : H ServerRow :=
  found ← db_or internal_error (get_server server_name);
  srv ← required found (error_reply ("Server not found: " +:+ server_name)%string);
  if negb (sw_admin_id srv =? caller_id)
  then reply (auth_error_reply "Forbidden: you are not the admin of this server")
  else mret srv.

(** ** POST /configure_server *)
Definition handle_configure_server (req : Request) : H Obj :=
  caller_id ← authenticated req;
  body ← parse_body req;
  server_name ← of_exp (parse_server_name body);
  srv ← own_server caller_id server_name;
  let description := parse_description body (sw_description srv) in
  let symbols := default (sw_active_tickers srv) (find_strings "active_symbols" body) in
  let allowlist_names := default [] (find_strings "allowlist" body) in
  ids ← db_or error_reply (resolve_user_ids allowlist_names);
  _ ← db_or error_reply (configure_server server_name caller_id description symbols ids);
  mret [("success", JBool true); ("server_name", JString server_name);
        ("description", JString description); ("active_symbols", jstrings symbols);
        ("allowlist", jstrings allowlist_names)]%string.

(** ** POST /remove_server *)
Definition endpoint_of (server_name service_type : string) (service : Service) : H ServiceEndpoint :=
  endpoint ← db_or error_reply (get_service_endpoint server_name service);
  required endpoint (error_reply ("Service endpoint not found for " +:+ service_type
                                  +:+ " on server " +:+ server_name)%string).

Definition remove_simulation_service (ip server_name service_type : string) : H unit :=
  r ← deployment_call ip "/remove_server"
        [("service_type", JString service_type); ("server_name", JString server_name)]%string
        service_type ("remove " +:+ service_type)%string "Remove" "removed";
  expect error_reply r.

Definition remove_service (server_name service_type : string) (service_enum : Service) : H unit :=
  endpoint ← endpoint_of server_name service_type service_enum;
  remove_simulation_service (ep_ip endpoint) server_name service_type.

Definition stop_services (server_name deployment_server_ip : string) : H unit :=
  _ ← remove_service server_name "mdp" mdp;
  _ ← remove_service server_name "me" me;
  _ ← remove_service server_name "oms" oms;
  _ ← remove_service server_name "gateway" gateway;
  _ ← remove_simulation_service deployment_server_ip server_name "mm";
  _ ← remove_simulation_service deployment_server_ip server_name "nt";
  _ ← remove_simulation_service deployment_server_ip server_name "it";
  remove_simulation_service deployment_server_ip server_name "oracle".

Definition handle_remove_server (req : Request) : H Obj :=
  caller_id ← authenticated req;
  body ← parse_body req;
  server_name ← of_exp (parse_server_name body);
  _ ← own_server caller_id server_name;
  gateway_endpoint ← endpoint_of server_name "gateway" gateway;
  _ ← stop_services server_name (ep_ip gateway_endpoint);
  dropped ← quest (drop_quest_tables server_name);
  let warned := match dropped with inl _ => [] | inr e => [("warning"%string, JString e)] end in
  deleted ← db_or (fun e => warned ++ error_reply e) (delete_server server_name);
  if negb deleted then reply (warned ++ error_reply ("Server not found: " +:+ server_name)%string)
  else mret (warned ++ [("success", JBool true); ("server_name", JString server_name)]%string).

(** ** Routes and status codes *)
Definition get_route (path : string) (params : list (string * string)) : option (H Obj) :=
  if String.eqb path "/login" then Some (handle_login params)
  else if String.eqb path "/signup" then Some (handle_signup params)
  else if String.eqb path "/active_servers" then Some handle_active_servers
  else if String.eqb path "/active_symbols" then Some (handle_active_symbols params)
  else if String.eqb path "/user_servers" then Some (handle_user_servers params)
  else if String.eqb path "/get_account_details" then Some (handle_account_details params)
  else if String.eqb path "/get_historical_trades" then Some (handle_historical_trades params)
  else if String.eqb path "/server_mdp_endpoint" then Some (handle_server_mdp_endpoint params)
  else None.

Definition post_route (path : string) (req : Request) : option (H Obj) :=
  if String.eqb path "/create_server" then Some (handle_create_server req)
  else if String.eqb path "/configure_server" then Some (handle_configure_server req)
  else if String.eqb path "/remove_server" then Some (handle_remove_server req)
  else None.

Definition get_status (path : string) (o : Obj) : Z :=
  if (String.eqb path "/server_mdp_endpoint" && contains "error" o)%bool then 400 else 200.

Definition post_status (o : Obj) : Z :=
  let status := if contains "error" o then 400 else 200 in
  if contains "auth_error" o then 401 else status.

Definition json_response (status : Z) (o : Obj) : Response :=
  mkResponse status [("Content-Type", "application/json"); ("Access-Control-Allow-Origin", "*")]%string
    (bj_serialize o).

Definition preflight_response : Response :=
  mkResponse 204 [("Access-Control-Allow-Origin", "*");
                  ("Access-Control-Allow-Methods", "GET, POST, OPTIONS");
                  ("Access-Control-Allow-Headers", "Content-Type, Authorization")]%string "".

Definition handle (req : Request) (w : World) : res (Response * World) :=
  match rq_method req with
  | verb_options => Ok (preflight_response, w)
  | verb =>
      match parse_target (rq_target req) with
      | None => Err RuntimeError
      | Some (path, params) =>
          match verb with
          | verb_get =>
              match get_route path params with
              | Some m => '(o, w') ← run m w; Ok (json_response (get_status path o) o, w')
              | None => Ok (json_response 404 (error_reply "Unknown endpoint"), w)
              end
          | verb_post =>
              match post_route path req with
              | Some m => '(o, w') ← run m w; Ok (json_response (post_status o) o, w')
              | None => Ok (json_response 404 (error_reply "Unknown endpoint"), w)
              end
          | _ => Ok (json_response 405 (error_reply "Method not allowed"), w)
          end
      end
  end.

(** A session whose handler throws sends nothing; one that leaves the language has no
    defined outcome. *)
Definition handle_session (req : Request) (w : World) : res (option Response * World) :=
  match handle req w with
  | Ok (rs, w') => Ok (Some rs, w')
  | Err RuntimeError => Ok (None, w)
  | Err e => Err e
  end.
End Handlers.
