(* ===== verification/BackendSamples.v ===== *)
(** * The backend service: concrete surroundings

    A Boost that reads fixed values, deployment servers that agree or refuse, and a
    world with two users, one machine and no server, on which requests are run. *)

From S2P Require Import Prelude Core Json BackendConfig Postgres QuestDb Backend BackendServers.
From Stdlib Require Import ZArith Ascii String.
From stdpp Require Import base option list gmap strings.

Open Scope Z_scope.

(** The target is the path, the body of a request reads as [v], and the answers of
    the deployment server are single words. *)
Definition sample_boost (params : list (string * string)) (v : JValue) : Boost := {|
  parse_target := fun target => Some (target, params);
  bj_parse := fun s =>
    if String.eqb s "deployed" then inl (JObject [("status", JString "deployed")])
    else if String.eqb s "removed" then inl (JObject [("status", JString "removed")])
    else inl v;
  bj_serialize := fun o => String.concat "," (map fst o)
|}%string.

Definition agreeing : DeploymentServer := {|
  deployment_reply := fun _ x =>
    inl (200, if String.eqb (ex_target x) "/deploy" then "deployed" else "removed")%string
|}.

Definition refusing : DeploymentServer := {| deployment_reply := fun _ _ => inr "refused"%string |}.

Definition in_order : Unordered.
Proof. by refine {| hash_order := fun _ _ l => l |}. Defined.

Definition sample_world : World := mkWorld sample_conn sample_qconn [].

Definition post (target user : string) : Request :=
  mkRequest verb_post target (Some (bearer +:+ user)%string) "".

(** Alice creates the server of [sample_body]. *)
Definition created_world : res (Obj * World) :=
  run (@handle_create_server healthy sample_quest (sample_boost [] (JObject sample_body)) agreeing in_order
         (post "/create_server" "alice")) sample_world.

Definition lab_world : World :=
  match created_world with Ok (_, w) => w | Err _ => sample_world end.

Definition named_body (name : string) : JValue := JObject [("server_name"%string, JString name)].

(** What a request on the server "lab" leads to. *)
Definition ask_lab (target user : string) : res (Response * World) :=
  @handle healthy sample_quest (sample_boost [] (named_body "lab")) agreeing in_order
    (post target user) lab_world.

Example creation_succeeds :
  match created_world with
  | Ok (o, w) => contains "success" o = true /\ length (w_sent w) = 6%nat
  | Err _ => False
  end.
Proof. vm_compute. split; reflexivity. Qed.

Example removal_succeeds :
  match ask_lab "/remove_server" "alice" with
  | Ok (rs, w) => rs_status rs = 200 /\ t_servers (stored (w_db w)) = ∅ /\ length (w_sent w) = 14%nat
  | Err _ => False
  end.
Proof. vm_compute. split_and!; reflexivity. Qed.

Example removal_is_forbidden :
  match ask_lab "/remove_server" "bob" with
  | Ok (rs, w) => rs_status rs = 401 /\ length (w_sent w) = 6%nat
  | Err _ => False
  end.
Proof. vm_compute. split; reflexivity. Qed.
