(* ===== verification/BackendPorts.v ===== *)
(** * The backend service: free ports

    The search for free ports of [RequestHandler::handle_create_server] ends, and its
    five results are the smallest ports above the reserved ones that nothing uses. *)

From S2P Require Import Prelude Core Postgres DatabaseClient Backend BackendServers.
From Stdlib Require Import ZArith Lia.
From stdpp Require Import base option list list_numbers gmap sets fin_sets.

Open Scope Z_scope.

(** A set that contains an interval has at least as many elements. *)
Lemma interval_size (u : gset Z) a b :
  a <= b -> (forall x, a <= x < b -> x ∈ u) -> b - a <= Z.of_nat (size u).
Proof.
  intros Hab Hall.
  assert (list_to_set (seqZ a (b - a)) ⊆ u) as Hsub.
  { intros x. rewrite elem_of_list_to_set, elem_of_seqZ. intros. apply Hall. lia. }
  apply subseteq_size in Hsub. rewrite size_list_to_set, length_seqZ in Hsub by apply NoDup_seqZ. lia.
Qed.

(** The loop stops at the first candidate that is not in use, within the fuel it has. *)
Lemma skip_used_ends fuel (used : gset Z) p :
  (size (filter (fun x => (p <= x)%Z) used) < fuel)%nat ->
  (forall x, x ∈ used -> x < INT_MAX) -> INT_MIN <= p <= INT_MAX ->
  exists q, skip_used fuel used p = Ok q /\ p <= q <= INT_MAX /\ q ∉ used /\
    forall x, p <= x < q -> x ∈ used.
Proof.
  revert p. induction fuel as [|fuel IH]; intros p Hf Hu Hp; [lia|]. simpl.
  destruct (bool_decide (p ∈ used)) eqn:E.
  - apply bool_decide_eq_true in E. pose proof (Hu p E). unfold add32.
    rewrite i32_ok by lia. simpl.
    destruct (IH (p + 1)) as (q & Hq & Hle & Hn & Hall); [|done|lia|].
    + assert (filter (fun x => p + 1 <= x) used ⊂ filter (fun x => p <= x) used) as Hs.
      { split; [set_unfold; intros; split; [lia|tauto]|]. intros Hsub.
        assert (p ∈ filter (fun x => p + 1 <= x) used) as Hin.
        { apply Hsub, elem_of_filter. split; [lia|done]. }
        apply elem_of_filter in Hin. lia. }
      apply subset_size in Hs. lia.
    + exists q. split_and!; [done|lia|lia|done|]. intros x Hx.
      destruct (decide (x = p)) as [->|]; [done|]. apply Hall. lia.
  - apply bool_decide_eq_false in E. exists p. split_and!; [done|lia|lia|done|lia].
Qed.

(** [used] contains everything from [lo] up to the candidate, and no port above
    [hi] except those that were taken below it. *)
Record searching (lo : Z) (taken : list Z) (used0 used : gset Z) (next : Z) : Prop := {
  search_used : forall x, x ∈ used <-> x ∈ used0 \/ x ∈ taken;
  search_full : forall x, lo <= x < next -> x ∈ used;
  search_next : lo <= next;
  search_taken : Forall (fun x => lo <= x < next /\ x ∉ used0) taken;
  search_nodup : NoDup taken
}.

Lemma searching_size lo taken used0 used next :
  searching lo taken used0 used next -> (size used <= size used0 + length taken)%nat.
Proof.
  intros Hs. assert (used ⊆ used0 ∪ list_to_set taken) as Hsub.
  { intros x Hx%(search_used _ _ _ _ _ Hs). set_solver. }
  apply subseteq_size in Hsub.
  assert (size (used0 ∪ list_to_set taken : gset Z) <= size used0 + length taken)%nat; [|lia].
  rewrite size_union_alt.
  assert (size (list_to_set taken ∖ used0 : gset Z) <= length taken)%nat; [|lia].
  transitivity (size (list_to_set taken : gset Z)); [apply subseteq_size; set_solver|].
  by rewrite size_list_to_set by apply (search_nodup _ _ _ _ _ Hs).
Qed.

Lemma take_next_ends lo taken used0 used next :
  searching lo taken used0 used next -> INT_MIN <= lo ->
  (forall x, x ∈ used -> x < INT_MAX) -> lo + Z.of_nat (size used0 + length taken) < INT_MAX ->
  exists p used' next',
    take_next_available_port (used, next) = Ok (p, (used', next')) /\
    searching lo (taken ++ [p]) used0 used' next' /\ next <= p /\ (forall x, next <= x < p -> x ∈ used) /\
    p <= lo + Z.of_nat (size used0 + length taken) /\ (forall x, x ∈ used' -> x < INT_MAX).
Proof.
  intros Hs Hlo Hu Hroom. pose proof (searching_size _ _ _ _ _ Hs) as Hsize.
  pose proof (search_next _ _ _ _ _ Hs) as Hnext.
  pose proof (interval_size used lo next Hnext (search_full _ _ _ _ _ Hs)) as Hint.
  destruct (skip_used_ends (S (size used)) used next) as (p & Hp & Hle & Hn & Hall); [|done|lia|].
  { assert (size (filter (fun x => (next <= x)%Z) used) <= size used)%nat; [|lia].
    apply subseteq_size. set_solver. }
  assert (forall x, lo <= x < p -> x ∈ used) as Hfull.
  { intros x Hx. destruct (decide (x < next)); [apply (search_full _ _ _ _ _ Hs); lia|apply Hall; lia]. }
  pose proof (interval_size used lo p ltac:(lia) Hfull) as Hint'.
  exists p, ({[p]} ∪ used), (p + 1). unfold take_next_available_port. rewrite Hp. simpl.
  unfold add32. rewrite i32_ok by lia. simpl. split; [done|]. split_and!; [|lia|done|lia|].
  - destruct Hs as [Hmem Hf _ Ht Hnd].
    assert (p ∉ used0 /\ p ∉ taken) as [Hp0 Hpt] by (rewrite Hmem in Hn; tauto).
    constructor.
    + intros x. set_solver.
    + intros x Hx. destruct (decide (x = p)); [set_solver|]. apply elem_of_union_r, Hfull. lia.
    + lia.
    + apply Forall_app. split; [|by repeat constructor; try lia].
      eapply Forall_impl; [done|]. simpl. intros x [? ?]. split; [lia|done].
    + apply NoDup_app. split_and!; [done| |apply NoDup_singleton]. set_solver.
  - set_unfold. intros x [->|?]; [lia|auto].
Qed.

(** A port that is found is not in use, whatever the set. *)
Lemma skip_used_free fuel used p q : skip_used fuel used p = Ok q -> q ∉ used.
Proof.
  revert p. induction fuel as [|fuel IH]; intros p; simpl; [done|].
  destruct (bool_decide (p ∈ used)) eqn:E; [|by intros [= <-]; apply bool_decide_eq_false in E].
  intros (x & _ & Hq)%bind_ok. by eapply IH.
Qed.

Lemma take_next_free s p s' : take_next_available_port s = Ok (p, s') -> p ∉ s.1 /\ s'.1 = {[p]} ∪ s.1.
Proof.
  destruct s as [used next]. unfold take_next_available_port.
  intros (q & Hq%skip_used_free & (n & _ & [= <- <-])%bind_ok)%bind_ok.
  done.
Qed.

Definition port_list (ports : Ports) : list Z :=
  [mdp_port ports; me_port ports; oms_port ports; gateway_port ports; oracle_port ports].

Lemma take_ports_free used ports p : take_ports used = Ok ports -> p ∈ port_list ports -> p ∉ used.
Proof.
  unfold take_ports. intros H.
  repeat match goal with H : mbind _ _ = Ok _ |- _ => apply bind_ok in H as ([? ?] & ?%take_next_free & H) end.
  simplify_eq. unfold port_list. simpl in *. set_solver.
Qed.

Lemma take_ports_distinct used ports : take_ports used = Ok ports -> NoDup (port_list ports).
Proof.
  unfold take_ports. intros H.
  repeat match goal with H : mbind _ _ = Ok _ |- _ => apply bind_ok in H as ([? ?] & ?%take_next_free & H) end.
  simplify_eq. unfold port_list. simpl in *. destruct_and!.
  repeat (apply NoDup_cons; split; [set_solver|]). apply NoDup_nil_2.
Qed.

(** The smallest free ports.  The search for the ports of a new server ends for every
    set of used ports from 1 to 65535, without overflow: the five ports are increasing,
    above the reserved ones, unused, and every port in between is in use; with [n]
    ports in use the last is at most 10005 + n. *)
Theorem ports_found (used : gset Z) :
  (forall x, x ∈ used -> 1 <= x <= 65535) ->
  exists ports, take_ports used = Ok ports /\
    NoDup (port_list ports) /\
    Forall (fun p => kMinUnreservedPort <= p <= 10005 + Z.of_nat (size used) /\ p ∉ used) (port_list ports) /\
    (mdp_port ports < me_port ports < oms_port ports /\
     oms_port ports < gateway_port ports < oracle_port ports) /\
    (forall x, kMinUnreservedPort <= x <= oracle_port ports -> x ∈ used \/ x ∈ port_list ports).
Proof.
  intros Hu. unfold take_ports.
  assert (Z.of_nat (size used) <= 65535) as Hsize.
  { assert (used ⊆ list_to_set (seqZ 1 65535)) as Hsub.
    { intros x Hx. rewrite elem_of_list_to_set, elem_of_seqZ. specialize (Hu x Hx). lia. }
    apply subseteq_size in Hsub. rewrite size_list_to_set, length_seqZ in Hsub by apply NoDup_seqZ. lia. }
  assert (searching kMinUnreservedPort [] used used kMinUnreservedPort) as Hs.
  { constructor; [set_solver|lia|lia|constructor|apply NoDup_nil_2]. }
  assert (forall x, x ∈ used -> x < INT_MAX) as Hmax by (intros x Hx; specialize (Hu x Hx); unfold INT_MAX; lia).
  assert (kMinUnreservedPort = 10001) as Hk by done.
  assert (INT_MAX = 2147483647 /\ INT_MIN = -2147483648) as [? ?] by done.
  destruct (take_next_ends _ _ _ _ _ Hs) as (p1 & u1 & n1 & -> & S1 & ? & ? & ? & M1); [lia|done|simpl; lia|].
  cbn [mbind res_bind].
  destruct (take_next_ends _ _ _ _ _ S1) as (p2 & u2 & n2 & -> & S2 & ? & ? & ? & M2); [lia|done|simpl; lia|].
  cbn [mbind res_bind].
  destruct (take_next_ends _ _ _ _ _ S2) as (p3 & u3 & n3 & -> & S3 & ? & ? & ? & M3); [lia|done|simpl; lia|].
  cbn [mbind res_bind].
  destruct (take_next_ends _ _ _ _ _ S3) as (p4 & u4 & n4 & -> & S4 & ? & ? & ? & M4); [lia|done|simpl; lia|].
  cbn [mbind res_bind].
  destruct (take_next_ends _ _ _ _ _ S4) as (p5 & u5 & n5 & -> & S5 & ? & ? & ? & M5); [lia|done|simpl; lia|].
  cbn [mbind res_bind]. eexists. split; [done|].
  assert (forall taken used' next', searching kMinUnreservedPort taken used used' next' ->
            Forall (fun x => x < next') taken) as Hbelow.
  { intros taken used' next' Hse. eapply Forall_impl; [apply (search_taken _ _ _ _ _ Hse)|].
    simpl. intros x [? _]. lia. }
  pose proof (search_taken _ _ _ _ _ S5) as Hall. pose proof (search_nodup _ _ _ _ _ S5) as Hnd.
  pose proof (Hbelow _ _ _ S1) as B1. pose proof (Hbelow _ _ _ S2) as B2.
  pose proof (Hbelow _ _ _ S3) as B3. pose proof (Hbelow _ _ _ S4) as B4.
  pose proof (Hbelow _ _ _ S5) as B5.
  clear Hbelow. rewrite !app_nil_l, <- ?app_assoc in *. cbn [app length] in *.
  rewrite ?Forall_cons in *.
  unfold port_list; simpl. split_and!; [done| | |lia..|].
  - rewrite !Forall_cons. split_and!; try (apply Hall || lia). all: try lia. apply Forall_nil_2.
  - lia.
  - intros x Hx.
    assert (x ∈ u5) as Hx5 by (apply (search_full _ _ _ _ _ S5); lia).
    by apply (search_used _ _ _ _ _ S5) in Hx5.
Qed.

Lemma ports_found_witness :
  exists ports, take_ports {[ 10001; 10003 ]} = Ok ports /\
    NoDup (port_list ports) /\
    Forall (fun p => kMinUnreservedPort <= p <= 10005 + Z.of_nat (size ({[ 10001; 10003 ]} : gset Z)) /\
                     p ∉ ({[ 10001; 10003 ]} : gset Z)) (port_list ports) /\
    (mdp_port ports < me_port ports < oms_port ports /\
     oms_port ports < gateway_port ports < oracle_port ports) /\
    (forall x, kMinUnreservedPort <= x <= oracle_port ports ->
       x ∈ ({[ 10001; 10003 ]} : gset Z) \/ x ∈ port_list ports).
Proof. apply (ports_found {[ 10001; 10003 ]}). set_unfold. intros x [-> | ->]; lia. Defined.
