(* ===== verification/BackendSafety.v ===== *)
(** * The backend service: what a request can change

    A program logic for handlers, and two guarantees over all requests: a server is
    touched only on behalf of its administrator, and no two servers share a port of a
    machine. *)

From S2P Require Import Prelude Core Doubles Fix Json BackendConfig PgArray Postgres DatabaseClient DatabaseTheorems DatabaseSpecs DatabaseEffects QuestDb Backend BackendServers BackendSamples BackendPorts.
From Stdlib Require Import ZArith Lia Ascii String.
From stdpp Require Import base option list gmap strings sets fin_maps fin_sets relations.

Open Scope Z_scope.

(** ** Triples

    From a world with [P], the handler goes on with a value in a world with [Q], or
    has returned in a world with [E]. *)
Definition triple {A} (P : World -> Prop) (m : H A) (Q : A -> World -> Prop) (E : Obj -> World -> Prop)
    : Prop :=
  forall w r w', P w -> m w = Ok (r, w') -> match r with inl a => Q a w' | inr o => E o w' end.

Section Rules.
Context {A : Type}.
Implicit Types (P : World -> Prop) (E : Obj -> World -> Prop).

Lemma triple_conseq P P' (m : H A) (Q Q' : A -> World -> Prop) E E' :
  (forall w, P w -> P' w) -> triple P' m Q' E' -> (forall a w, Q' a w -> Q a w) ->
  (forall o w, E' o w -> E o w) -> triple P m Q E.
Proof. intros HP Hm HQ HE w r w' Hw Hr. specialize (Hm w r w' (HP _ Hw) Hr). destruct r; auto. Qed.

Lemma triple_pure P (φ : Prop) (m : H A) (Q : A -> World -> Prop) E :
  (φ -> triple P m Q E) -> triple (fun w => P w /\ φ) m Q E.
Proof. intros Hm w r w' [Hw Hφ]. by apply Hm. Qed.

Lemma triple_ret P (a : A) (Q : A -> World -> Prop) E : (forall w, P w -> Q a w) -> triple P (mret a) Q E.
Proof. intros HQ w r w' Hw [= <- <-]. by apply HQ. Qed.

Lemma triple_reply P o (Q : A -> World -> Prop) E : (forall w, P w -> E o w) -> triple P (reply o) Q E.
Proof. intros HE w r w' Hw [= <- <-]. by apply HE. Qed.

Lemma triple_bind {B} P (m : H B) (f : B -> H A) R Q E :
  triple P m R E -> (forall b, triple (R b) (f b) Q E) -> triple P (m ≫= f) Q E.
Proof.
  intros Hm Hf w r w' Hw Hr. unfold mbind, h_bind in Hr.
  destruct (m w) as [[[b|o] w1]|e] eqn:Em; [|by simplify_eq; apply (Hm _ _ _ Hw Em)|done].
  by eapply Hf; [apply (Hm _ _ _ Hw Em)|].
Qed.

Lemma triple_lift P (m : res A) (Q : A -> World -> Prop) E :
  (forall a w, m = Ok a -> P w -> Q a w) -> triple P (lift m) Q E.
Proof. intros HQ w r w' Hw Hr. unfold lift in Hr. destruct m; simplify_eq. by apply HQ. Qed.

Lemma triple_of_exp P (m : Exp A) (Q : A -> World -> Prop) E :
  (forall a w, m = Ok (inl a) -> P w -> Q a w) ->
  (forall e w, m = Ok (inr e) -> P w -> E (error_reply e) w) -> triple P (of_exp m) Q E.
Proof. intros HQ HE w r w' Hw Hr. unfold of_exp in Hr. destruct m as [[]|]; simplify_eq; auto. Qed.

Lemma triple_required P (o : option A) reply_ (Q : A -> World -> Prop) E :
  (forall a w, o = Some a -> P w -> Q a w) -> (forall w, o = None -> P w -> E reply_ w) ->
  triple P (required o reply_) Q E.
Proof.
  intros HQ HE. destruct o; simpl; [apply triple_ret|apply triple_reply]; auto.
Qed.

(** An operation of the database client: what it leaves in both cases. *)
Lemma triple_db_or P f (op : Conn -> (A + string) * Conn) (Q : A -> World -> Prop) E :
  (forall w r c, P w -> op (w_db w) = (r, c) ->
     match r with
     | inl a => Q a (mkWorld c (w_quest w) (w_sent w))
     | inr e => E (f e) (mkWorld c (w_quest w) (w_sent w))
     end) -> triple P (db_or f op) Q E.
Proof.
  intros Hop w r w' Hw Hr. unfold db_or, mbind, h_bind, db in Hr.
  destruct (op (w_db w)) as [x c] eqn:Eop. specialize (Hop _ _ _ Hw Eop).
  unfold expect in Hr. destruct x; unfold mret, h_ret, reply in Hr; by simplify_eq.
Qed.
End Rules.

(** ** Handlers that keep a property of the stored tables *)
Definition on (P : Tables -> Prop) (w : World) : Prop := P (stored (w_db w)).

Definition hkeeps {A} (P : Tables -> Prop) (m : H A) : Prop :=
  triple (on P) m (fun _ => on P) (fun _ => on P).

Definition op_keeps {A} (P : Tables -> Prop) (op : Conn -> (A + string) * Conn) : Prop :=
  forall c, P (stored c) -> P (stored (op c).2).

Section Keeps.
Context {A : Type} (P : Tables -> Prop).

Lemma hk_ret (a : A) : hkeeps P (mret a).
Proof. by apply triple_ret. Qed.
Lemma hk_reply o : hkeeps P (@reply A o).
Proof. by apply triple_reply. Qed.
Lemma hk_bind {B} (m : H B) (f : B -> H A) : hkeeps P m -> (forall b, hkeeps P (f b)) -> hkeeps P (m ≫= f).
Proof. intros. by eapply triple_bind. Qed.
Lemma hk_lift (m : res A) : hkeeps P (lift m).
Proof. by apply triple_lift. Qed.
Lemma hk_of_exp (m : Exp A) : hkeeps P (of_exp m).
Proof. by apply triple_of_exp. Qed.
Lemma hk_required (o : option A) r : hkeeps P (required o r).
Proof. by apply triple_required. Qed.
Lemma hk_expect f (r : A + string) : hkeeps P (expect f r).
Proof. destruct r; [apply hk_ret|apply hk_reply]. Qed.
Lemma hk_db_or f (op : Conn -> (A + string) * Conn) : op_keeps P op -> hkeeps P (db_or f op).
Proof.
  intros Hop. apply triple_db_or. intros w r c Hw Hr. specialize (Hop _ Hw). rewrite Hr in Hop.
  by destruct r.
Qed.
Lemma hk_db (op : Conn -> (A + string) * Conn) : op_keeps P op -> hkeeps P (db op).
Proof.
  intros Hop w r w' Hw Hr. unfold db in Hr. specialize (Hop _ Hw). destruct (op _). by simplify_eq/=.
Qed.
Lemma hk_quest (op : QConn -> (A + string) * QConn) : hkeeps P (quest op).
Proof. intros w r w' Hw Hr. unfold quest in Hr. destruct (op _). by simplify_eq/=. Qed.
End Keeps.

Lemma hk_for {A} P (f : A -> H unit) l : (forall x, x ∈ l -> hkeeps P (f x)) -> hkeeps P (h_for f l).
Proof.
  induction l as [|x l IH]; intros Hf; simpl; [apply hk_ret|].
  apply hk_bind; [apply Hf; left|]. intros _. apply IH. intros y Hy. apply Hf. by right.
Qed.
Lemma hk_map {A B} P (f : A -> H B) l : (forall x, hkeeps P (f x)) -> hkeeps P (h_map f l).
Proof.
  intros Hf. induction l as [|x l IH]; simpl; [apply hk_ret|].
  apply hk_bind; [done|]. intros. apply hk_bind; [done|]. intros. apply hk_ret.
Qed.

(** ** Operations that read *)
Section Reading.
Context `{Postgres}.

Lemma op_reads {A} P (op : Conn -> (A + string) * Conn) :
  (forall c, read_step c (op c).2) -> op_keeps P op.
Proof. intros Hop c Hc. by rewrite (read_step_stored _ _ (Hop c)). Qed.

Lemma op_step {A} (op : Conn -> (A + string) * Conn) :
  (forall c, client_step c (op c).2) -> op_keeps integrity op.
Proof. intros Hop c. apply client_step_integrity, Hop. Qed.

Lemma integrity_create_user n p : op_keeps integrity (create_user n p).
Proof. apply op_step, step_create_user. Qed.

Lemma stored_read {A} (op : Conn -> (A + string) * Conn) c r c' :
  read_step c (op c).2 -> op c = (r, c') -> stored c' = stored c.
Proof. intros Hs%read_step_stored Hr. by rewrite Hr in Hs. Qed.
End Reading.

Create HintDb backend discriminated.
#[export] Hint Constants Transparent : backend.

Ltac read_op := apply op_reads; intros; solve [constructor].

(** Walk through a handler whose database operations are known to keep the property. *)
Ltac hk_step :=
  match goal with
  | |- forall _, _ => intro
  | |- hkeeps _ (mbind _ _) => apply hk_bind
  | |- hkeeps _ (mret _) => apply hk_ret
  | |- hkeeps _ (reply _) => apply hk_reply
  | |- hkeeps _ (lift _) => apply hk_lift
  | |- hkeeps _ (of_exp _) => apply hk_of_exp
  | |- hkeeps _ (required _ _) => apply hk_required
  | |- hkeeps _ (expect _ _) => apply hk_expect
  | |- hkeeps _ (quest _) => apply hk_quest
  | |- hkeeps _ (db_or _ _) => apply hk_db_or; solve [read_op | auto with backend]
  | |- hkeeps _ (db _) => apply hk_db; solve [read_op | auto with backend]
  | |- hkeeps _ (h_for _ _) => apply hk_for; intros
  | |- hkeeps _ (h_map _ _) => apply hk_map
  | |- hkeeps _ (match ?x with _ => _ end) => destruct x
  end.
Ltac hk_tac := repeat (solve [auto with backend] || hk_step).

Section Handlers.
Context `{Postgres} `{QuestServer} `{Boost} `{DeploymentServer} `{Unordered}.

Lemma hk_exchange P ip target payload : hkeeps P (exchange ip target payload).
Proof. by intros w r w' Hw [= <- <-]. Qed.
Lemma hk_deployment_call P ip target payload a b c d : hkeeps P (deployment_call ip target payload a b c d).
Proof. unfold deployment_call. apply hk_bind; [apply hk_exchange|]. intros. apply hk_ret. Qed.
Lemma hk_history P s sym ts : hkeeps P (query_history s sym ts).
Proof.
  intros w r w' Hw Hr. unfold query_history in Hr.
  destruct (query_trades_after _ _ _ _) as [[]|]; by simplify_eq/=.
Qed.
Lemma hk_for_unordered {A} P (f : A -> H unit) l :
  (forall x, x ∈ l -> hkeeps P (f x)) -> hkeeps P (h_for_unordered f l).
Proof.
  intros Hf w r w' Hw Hr. unfold h_for_unordered in Hr. eapply hk_for; [|exact Hw|exact Hr].
  intros x Hx. apply Hf. by rewrite hash_order_perm in Hx.
Qed.
End Handlers.
#[export] Hint Resolve hk_exchange hk_deployment_call hk_history : backend.

(** ** Queries change nothing *)
Section Queries.
Context `{Postgres} `{QuestServer} `{Boost}.
Variable P : Tables -> Prop.

Lemma hk_login params : hkeeps P (handle_login params).
Proof. unfold handle_login. hk_tac. Qed.
Lemma hk_signup params :
  (forall n p, op_keeps P (create_user n p)) -> hkeeps P (handle_signup params).
Proof. intros Hc. unfold handle_signup. hk_tac. Qed.
Lemma hk_active_servers : hkeeps P handle_active_servers.
Proof. unfold handle_active_servers, active_server_entry. hk_tac. Qed.
Lemma hk_mdp_endpoint params : hkeeps P (handle_server_mdp_endpoint params).
Proof. unfold handle_server_mdp_endpoint. hk_tac. Qed.
Lemma hk_active_symbols params : hkeeps P (handle_active_symbols params).
Proof. unfold handle_active_symbols. hk_tac. Qed.
Lemma hk_user_servers params : hkeeps P (handle_user_servers params).
Proof. unfold handle_user_servers. hk_tac. Qed.
Lemma hk_historical_trades params : hkeeps P (handle_historical_trades params).
Proof. unfold handle_historical_trades, parse_after_ts. hk_tac. Qed.
Lemma hk_account_details params : hkeeps P (handle_account_details params).
Proof. unfold handle_account_details. hk_tac. Qed.
Lemma hk_authenticated req : hkeeps P (authenticated req).
Proof. unfold authenticated, authenticate_admin. hk_tac. Qed.
Lemma hk_parse_body req : hkeeps P (parse_body req).
Proof. unfold parse_body. hk_tac. Qed.
Lemma hk_own_server caller name : hkeeps P (own_server caller name).
Proof. unfold own_server. hk_tac. Qed.
Lemma hk_endpoint_of name ty svc : hkeeps P (endpoint_of name ty svc).
Proof. unfold endpoint_of. hk_tac. Qed.
Lemma hk_choose_machine : hkeeps P choose_machine.
Proof. unfold choose_machine. hk_tac. Qed.
Lemma hk_choose_ports name : hkeeps P (choose_ports name).
Proof. unfold choose_ports. hk_tac. Qed.

Lemma hk_get_route path params m :
  (forall n p, op_keeps P (create_user n p)) -> get_route path params = Some m -> hkeeps P m.
Proof.
  intros Hc Hm. unfold get_route in Hm.
  repeat match type of Hm with (if ?b then _ else _) = _ => destruct b end; simplify_eq;
    auto using hk_login, hk_signup, hk_active_servers, hk_mdp_endpoint, hk_active_symbols,
      hk_user_servers, hk_historical_trades, hk_account_details.
Qed.

(** ** The steps of creating a server *)
Context `{DeploymentServer} `{Unordered}.

Lemma hk_bot_users configs :
  (forall n p, op_keeps P (create_user n p)) -> hkeeps P (create_bot_users configs).
Proof.
  intros Hc. assert (forall name, hkeeps P (bot_user_id name)) as Hid by (unfold bot_user_id; intros; hk_tac).
  assert (forall s n i g, hkeeps P (group_users_loop s n i g)) as Hg.
  { intros s n. induction n as [|n IH]; intros i g; simpl; hk_tac. }
  assert (forall s gs i, hkeeps P (config_users_loop s i gs)) as Hl.
  { intros s gs. induction gs as [|g gs IH]; intros i; simpl; hk_tac. }
  unfold create_bot_users. hk_tac.
Qed.

Lemma hk_initial_balances id caller usd ids symbols configs :
  (forall u sym b, op_keeps P (insert_balance u id sym b)) ->
  (forall u b, op_keeps P (upsert_init_bot_portfolio_balance u id b)) ->
  hkeeps P (insert_initial_balances id caller usd ids symbols configs).
Proof.
  intros Hi Hu. assert (forall g u syms p, hkeeps P (bot_inventory_loop g u id syms p)) as Hl.
  { intros g u syms. induction syms as [|sym syms IH]; intros p; simpl; [hk_tac|].
    destruct (is_usd sym); hk_tac. }
  unfold insert_initial_balances. apply hk_bind.
  { apply hk_for_unordered. intros e _. unfold insert_usd. hk_tac. }
  intros _. apply hk_bind.
  { apply hk_for_unordered. intros u _. apply hk_for_unordered. intros sym _. hk_tac. }
  intros _. unfold insert_bot. hk_tac.
Qed.

Lemma hk_deploy ip name svc params : hkeeps P (deploy ip name svc params).
Proof. unfold deploy, deploy_service. hk_tac. Qed.
Lemma hk_deploy_all ip ports r configs names : hkeeps P (deploy_all ip ports r configs names).
Proof. pose proof hk_deploy. unfold deploy_all, deploy_bots. hk_tac. Qed.
Lemma hk_stop_services name ip : hkeeps P (stop_services name ip).
Proof.
  assert (forall ip ty, hkeeps P (remove_simulation_service ip name ty)) as Hr
    by (unfold remove_simulation_service; intros; hk_tac).
  pose proof hk_endpoint_of. unfold stop_services, remove_service. hk_tac.
Qed.
End Queries.
#[export] Hint Resolve hk_authenticated hk_parse_body hk_own_server hk_endpoint_of hk_choose_machine
  hk_choose_ports hk_bot_users hk_initial_balances hk_deploy_all hk_stop_services : backend.

(** A property that every route keeps is kept by every request. *)
Section Requests.
Context `{Postgres} `{QuestServer} `{Boost} `{DeploymentServer} `{Unordered}.

Lemma run_keeps P m w o w' : hkeeps P m -> run m w = Ok (o, w') -> on P w -> on P w'.
Proof.
  intros Hm Hr Hw. unfold run in Hr. destruct (m w) as [[[a|e] w1]|] eqn:E; simplify_eq.
  - apply (Hm _ _ _ Hw E).
  - apply (Hm _ _ _ Hw E).
Qed.

Lemma handle_keeps P req w rs w' :
  (forall n p, op_keeps P (create_user n p)) ->
  (rq_method req = verb_post -> hkeeps P (handle_create_server req) /\
     hkeeps P (handle_configure_server req) /\ hkeeps P (handle_remove_server req)) ->
  handle req w = Ok (rs, w') -> on P w -> on P w'.
Proof.
  intros Hc Hpost Hr Hw. unfold handle in Hr.
  destruct (rq_method req) eqn:Em; [by simplify_eq| | |].
  - destruct (parse_target _) as [[path params]|]; [|done].
    destruct (get_route path params) as [m|] eqn:Eroute; [|by simplify_eq].
    apply bind_ok in Hr as ([o w1] & Hrun & [= _ <-]).
    by eapply run_keeps; [eapply hk_get_route|..].
  - destruct (parse_target _) as [[path params]|]; [|done].
    destruct (post_route path req) as [m|] eqn:Eroute; [|by simplify_eq].
    apply bind_ok in Hr as ([o w1] & Hrun & [= _ <-]). destruct (Hpost eq_refl) as (K1 & K2 & K3).
    eapply run_keeps; [|done..]. unfold post_route in Eroute.
    repeat match type of Eroute with (if ?b then _ else _) = _ => destruct b end; by simplify_eq.
  - destruct (parse_target _) as [[path params]|]; by simplify_eq.
Qed.
End Requests.

(** ** Servers and their administrators *)
(** Nothing about server [s] has changed, and no account. *)
Record untouched (s : Z) (t0 t : Tables) : Prop := {
  ut_users : t_users t0 ⊆ t_users t;
  ut_server : t_servers t !! s = t_servers t0 !! s;
  ut_allow : forall u, (s, u) ∈ t_allowlist t <-> (s, u) ∈ t_allowlist t0;
  ut_balances : forall u sym, t_balances t !! (u, sym, s) = t_balances t0 !! (u, sym, s);
  ut_init_bot : forall u, t_init_bot t !! (u, s) = t_init_bot t0 !! (u, s);
  ut_services : forall m p, t_services t !! (s, m, p) = t_services t0 !! (s, m, p)
}.

Lemma untouched_refl s t : untouched s t t.
Proof. by constructor. Qed.

Lemma untouched_add_user s t0 t id u : untouched s t0 t -> t_users t !! id = None ->
  untouched s t0 (set_users <[id := u]> t).
Proof.
  intros [Hu ? ? ? ? ?] Hid. constructor; simpl; try done. etrans; [done|]. by apply insert_subseteq.
Qed.

Lemma untouched_add_server s t0 t id srv users services : untouched s t0 t -> id <> s ->
  untouched s t0 (added_server id srv users services t).
Proof.
  intros [? Hs Ha ? ? Hv] Hid. constructor; simpl; try done.
  - by rewrite lookup_insert_ne.
  - intros u. rewrite elem_of_union, members_set_in, <- Ha. simpl. naive_solver.
  - intros m p. by rewrite add_services_lookup.
Qed.

Lemma untouched_balance s t0 t u sym id b : untouched s t0 t -> id <> s ->
  untouched s t0 (set_balances <[(u, sym, id) := b]> t).
Proof. intros [] Hid. constructor; simpl; try done. intros. rewrite lookup_insert_ne; [done|congruence]. Qed.

Lemma untouched_init_bot s t0 t u id b : untouched s t0 t -> id <> s ->
  untouched s t0 (set_init_bot <[(u, id) := b]> t).
Proof. intros [] Hid. constructor; simpl; try done. intros. rewrite lookup_insert_ne; [done|congruence]. Qed.

Lemma untouched_reconfigured s t0 t id tickers d users : untouched s t0 t -> id <> s ->
  untouched s t0 (reconfigured id tickers d users t).
Proof.
  intros [? ? Ha ? ? ?] Hid. constructor; simpl; try done.
  - by rewrite lookup_alter_ne.
  - intros u. rewrite elem_of_union, members_set_in, elem_of_filter, <- Ha. simpl. naive_solver.
Qed.

(** Filtering out rows of another server. *)
Lemma filter_key_lookup {K V} `{Countable K} (f : K -> Z) id (m : gmap K V) k :
  f k <> id -> filter (fun kv => f kv.1 <> id) m !! k = m !! k.
Proof. intros Hk. apply option_eq. intros x. rewrite map_lookup_filter_Some. simpl. tauto. Qed.

Lemma untouched_without s t0 t id : untouched s t0 t -> id <> s -> untouched s t0 (without_server id t).
Proof.
  intros [? ? Ha Hb Hi Hv] Hid. constructor; simpl; try done.
  - by rewrite lookup_delete_ne.
  - intros u. rewrite elem_of_filter, <- Ha. simpl. naive_solver.
  - intros u sym. rewrite <- Hb. by apply (filter_key_lookup (fun k => k.2)).
  - intros u. rewrite <- Hi. by apply (filter_key_lookup (fun k => k.2)).
  - intros m p. rewrite <- Hv. by apply (filter_key_lookup (fun k => k.1.1)).
Qed.

Section Administrators.
Context `{Postgres} `{QuestServer} `{Boost} `{DeploymentServer} `{Unordered}.
Variables (s : Z) (t0 : Tables) (srv : ServerRec) (req : Request).
Hypothesis Hsrv : t_servers t0 !! s = Some srv.
Hypothesis Ht0 : integrity t0.
Hypothesis Hname : forall a u, sv_admin srv = Some a -> t_users t0 !! a = Some u ->
  bearer_name req <> Some (us_name u).

Definition safe (t : Tables) : Prop := integrity t /\ untouched s t0 t.

(** A step that keeps integrity, with a known effect. *)
Lemma safe_effect {A} (op : Conn -> (A + string) * Conn) c Φ :
  client_step c (op c).2 -> effect (op c).1 (stored c) (stored (op c).2) Φ ->
  (forall a t, Φ a t -> untouched s t0 t) -> safe (stored c) -> safe (stored (op c).2).
Proof.
  intros Hstep Heff HΦ [Hi Hu]. split; [by eapply client_step_integrity|].
  eapply effect_keeps; [exact Heff|done|eauto].
Qed.

Lemma safe_create_user n p : op_keeps safe (create_user n p).
Proof.
  intros c Hc. eapply safe_effect; [apply step_create_user|apply create_user_applies| |done].
  simpl. intros u t (_ & Hid & _ & ->). apply untouched_add_user; [apply Hc|done].
Qed.

Lemma safe_insert_balance u id sym b : id <> s -> op_keeps safe (insert_balance u id sym b).
Proof.
  intros Hid c Hc. eapply safe_effect; [apply step_insert_balance|apply insert_balance_applies| |done].
  simpl. intros _ t (sym' & _ & _ & _ & _ & ->). apply untouched_balance; [apply Hc|done].
Qed.

Lemma safe_upsert u id b : id <> s -> op_keeps safe (upsert_init_bot_portfolio_balance u id b).
Proof.
  intros Hid c Hc. eapply safe_effect; [apply step_upsert|apply upsert_applies| |done].
  simpl. intros _ t ->. apply untouched_init_bot; [apply Hc|done].
Qed.

(** The caller is not the administrator. *)
Lemma caller_not_admin :
  triple (on safe) (authenticated req) (fun id w => on safe w /\ sv_admin srv <> Some id) (fun _ => on safe).
Proof.
  unfold authenticated, authenticate_admin.
  destruct (bearer_name req) as [name|] eqn:En.
  2: { eapply triple_bind; [by apply triple_ret with (Q := fun id w => id = -1 /\ on safe w)|].
       intros id w r w' [-> Hw] Hr. simpl in Hr. unfold reply in Hr. by simplify_eq. }
  eapply (triple_bind _ _ _ (fun id w => on safe w /\ (0 <= id -> sv_admin srv <> Some id))).
  - intros w r w' Hw Hr. unfold mbind, h_bind, db in Hr.
    destruct (get_user name (w_db w)) as [res c] eqn:Eg.
    pose proof (stored_read _ _ _ _ (read_get_user name (w_db w)) Eg) as Hst.
    assert (on safe (mkWorld c (w_quest w) (w_sent w))) as Hw' by (unfold on; simpl; by rewrite Hst).
    destruct res as [[u|]|e]; unfold mret, h_ret in Hr; simplify_eq; (split; [done|lia || intros _]).
    apply get_user_found in Eg as (x & Hx & Hn & _).
    intros Ha. destruct (admin_exists _ Ht0 _ _ _ Hsrv Ha) as [u0 Hu0].
    assert (t_users (stored (w_db w)) !! uw_user_id u = Some u0) as Hu1.
    { eapply lookup_weaken; [done|]. apply (ut_users _ _ _ (proj2 Hw)). }
    apply (Hname _ _ Ha Hu0). congruence.
  - intros id. destruct (id <? 0) eqn:Eid; [by apply triple_reply; intros w [? _]|].
    apply triple_ret. intros w [? Hid]. split; [done|]. apply Hid. lia.
Qed.

Lemma safe_has_server t : safe t -> t_servers t !! s = Some srv.
Proof. intros [_ Hu]. by rewrite (ut_server _ _ _ Hu). Qed.

(** A new server is another one. *)
Lemma safe_create_server name admin d syms users svs usd :
  triple (on safe) (db_or error_reply (create_server_with_services name admin d syms users svs usd))
    (fun id w => on safe w /\ id <> s) (fun _ => on safe).
Proof.
  apply triple_db_or. intros w r c Hw Hr.
  pose proof (create_server_applies name admin d syms users svs usd (w_db w)) as Heff. cbn zeta in Heff.
  assert (forall id, t_servers (stored (w_db w)) !! id = None -> id <> s) as Hne.
  { intros id Hid ->. by rewrite (safe_has_server _ Hw) in Hid. }
  pose proof (safe_effect _ (w_db w) _ (step_create_server name admin d syms users svs usd (w_db w)) Heff) as Hsafe.
  rewrite Hr in *. simpl in *.
  assert (safe (stored c)) as Hc.
  { apply Hsafe; [|done]. intros id t (x & _ & _ & Hid & _ & ->).
    apply untouched_add_server; [apply Hw|eauto]. }
  destruct r as [id|e]; [|done]. split; [done|]. destruct Heff as (x & _ & _ & Hid & _). eauto.
Qed.

Lemma safe_create : hkeeps safe (handle_create_server req).
Proof.
  eapply triple_bind; [apply caller_not_admin|]. intros caller. apply triple_pure. intros _.
  pose proof safe_create_user.
  do 6 (apply hk_bind; [hk_tac|intro]).
  eapply triple_bind; [apply safe_create_server|]. intros id. apply triple_pure. intros Hid.
  apply hk_bind.
  { apply hk_initial_balances; [intros; by apply safe_insert_balance|intros; by apply safe_upsert]. }
  hk_tac.
Qed.

(** The server that the caller administers, whose name the request gives. *)
Definition owned (caller : Z) (name : string) (t : Tables) : Prop :=
  safe t /\ exists id x, t_servers t !! id = Some x /\ sv_name x = name /\ sv_admin x = Some caller.

Lemma own_server_owned caller name :
  triple (on safe) (own_server caller name) (fun _ => on (owned caller name)) (fun _ => on safe).
Proof.
  unfold own_server.
  eapply (triple_bind _ _ _ (fun row w => on safe w /\ forall srv, row = Some srv ->
            exists x, t_servers (stored (w_db w)) !! sw_server_id srv = Some x /\ sv_name x = name /\
                      sv_admin x = Some (sw_admin_id srv))).
  - apply triple_db_or. intros w r c Hw Hr.
    pose proof (stored_read _ _ _ _ (read_get_server name (w_db w)) Hr) as Hst.
    destruct r as [row|e]; unfold on; simpl; rewrite Hst; [|done].
    split; [done|]. intros x ->. by eapply get_server_found.
  - intros row. eapply (triple_bind _ _ _ (fun x w => on safe w /\ exists y,
        t_servers (stored (w_db w)) !! sw_server_id x = Some y /\ sv_name y = name /\
        sv_admin y = Some (sw_admin_id x))).
    + apply triple_required; [intros x w Hx [Hw Hrow]; eauto|by intros w _ [? _]].
    + intros x. destruct (negb _) eqn:E; [by apply triple_reply; intros w [? _]|].
      apply negb_false_iff, Z.eqb_eq in E. apply triple_ret. intros w [Hw (y & Hy & Hn & Ha)].
      split; [done|]. exists (sw_server_id x), y. by rewrite Ha, E.
Qed.

Lemma safe_configure : hkeeps safe (handle_configure_server req).
Proof.
  eapply triple_bind; [apply caller_not_admin|]. intros caller. apply triple_pure. intros Hne.
  do 4 (apply hk_bind; [hk_tac|intro]). apply hk_bind; [|hk_tac].
  apply hk_db_or. intros c Hc. eapply safe_effect; [apply step_configure|apply configure_applies| |done].
  simpl. intros [|] t.
  - intros (id & x & tk & d & Hx & _ & Ha & ->). apply untouched_reconfigured; [apply Hc|].
    intros ->. rewrite (safe_has_server _ Hc) in Hx. congruence.
  - intros ->. apply Hc.
Qed.

Lemma safe_delete caller name : sv_admin srv <> Some caller ->
  forall c, owned caller name (stored c) -> safe (stored (delete_server name c).2).
Proof.
  intros Hne c [Hc (id & x & Hx & Hn & Ha)].
  eapply safe_effect; [apply step_delete_server|apply delete_applies| |done].
  simpl. intros [|] t; [|intros ->; apply Hc].
  intros (id' & y & Hy & Hn' & ->). apply untouched_without; [apply Hc|].
  assert (id' = id) as -> by (eapply servers_unique; [apply Hc|done..|congruence]).
  intros ->. rewrite (safe_has_server _ Hc) in Hx. congruence.
Qed.

Lemma safe_remove : hkeeps safe (handle_remove_server req).
Proof.
  eapply triple_bind; [apply caller_not_admin|]. intros caller. apply triple_pure. intros Hne.
  apply hk_bind; [hk_tac|intros body]. apply hk_bind; [hk_tac|intros name].
  eapply triple_bind; [apply own_server_owned|]. intros row.
  assert (forall (o : Obj) w, on (owned caller name) w -> on safe w) as Hweak by (by intros o w [? _]).
  eapply triple_bind; [eapply triple_conseq; [done|apply (hk_endpoint_of (owned caller name))|done|exact Hweak]|].
  intros ep.
  eapply triple_bind; [eapply triple_conseq; [done|apply (hk_stop_services (owned caller name))|done|exact Hweak]|].
  intros stopped.
  eapply triple_bind; [eapply triple_conseq; [done|apply (hk_quest (owned caller name))|done|exact Hweak]|].
  intros dropped. eapply (triple_bind _ _ _ (fun _ => on safe)).
  2: { intros b. match goal with |- triple _ ?m _ _ => change (hkeeps safe m) end. hk_tac. }
  apply triple_db_or. intros w r c Hw Hr. pose proof (safe_delete caller name Hne _ Hw) as Hs.
  rewrite Hr in Hs. by destruct r.
Qed.
End Administrators.

(** C11: only its administrator touches a server.  Take any server of a consistent database
    and any request whose Authorization header does not name the server's
    administrator.  Whatever the request is, whatever fails on the way and whatever
    the deployment server answers, the server's row, its members, balances, initial
    balances and services stay as they are, and no account is changed or removed. *)
Theorem only_admin_touches `{Postgres} `{QuestServer} `{Boost} `{DeploymentServer} `{Unordered}
    req w rs w' s srv :
  let t := stored (w_db w) in
  integrity t -> t_servers t !! s = Some srv ->
  (forall a u, sv_admin srv = Some a -> t_users t !! a = Some u -> bearer_name req <> Some (us_name u)) ->
  handle req w = Ok (rs, w') ->
  untouched s t (stored (w_db w')) /\ integrity (stored (w_db w')).
Proof.
  intros t Ht Hsrv Hname Hr.
  assert (on (safe s t) w') as [? ?]; [|done].
  eapply handle_keeps; [|intros _; split_and!| |]; [..|exact Hr|split; [done|apply untouched_refl]].
  - apply safe_create_user.
  - by eapply safe_create.
  - by eapply safe_configure.
  - by eapply safe_remove.
Qed.

(** ** Ports are not shared *)
(** A port of a machine belongs to one server. *)
Definition ports_ok (t : Tables) : Prop :=
  forall s1 s2 m p ty1 ty2, t_services t !! (s1, m, p) = Some ty1 ->
    t_services t !! (s2, m, p) = Some ty2 -> s1 = s2.

Definition consistent (t : Tables) : Prop := integrity t /\ ports_ok t.

(** Operations that keep the services, or remove some. *)
Lemma ports_ok_subset t t' : ports_ok t -> t_services t' ⊆ t_services t -> ports_ok t'.
Proof. intros Ht Hsub s1 s2 m p ty1 ty2 H1 H2. eapply Ht; by eapply lookup_weaken. Qed.

Lemma add_services_inv id services m s mm p ty :
  add_services id services m !! (s, mm, p) = Some ty ->
  m !! (s, mm, p) = Some ty \/ s = id /\ exists x, x ∈ services /\ si_machine_id x = mm /\ si_port x = p.
Proof.
  unfold add_services. revert m. induction services as [|x services IH]; intros m; simpl; [by left|].
  intros [Hm|(-> & y & Hy & ?)]%IH.
  - apply lookup_insert_Some in Hm as [[[= <- <- <-] _]|[_ Hm]]; [|by left].
    right. split; [done|]. exists x. split; [left|done].
  - right. split; [done|]. exists y. split; [by right|done].
Qed.

Lemma ports_ok_added id srv users services t mid (ports : list Z) :
  integrity t -> ports_ok t -> t_servers t !! id = None ->
  Forall (fun x => si_machine_id x = mid /\ si_port x ∈ ports) services ->
  (forall s p ty, t_services t !! (s, mid, p) = Some ty -> p ∉ ports) ->
  ports_ok (added_server id srv users services t).
Proof.
  intros Ht Hok Hid Hsv Hfree s1 s2 m p ty1 ty2 H1 H2. simpl in *. rewrite Forall_forall in Hsv.
  apply add_services_inv in H1 as [H1|(-> & x & Hx & <- & <-)], H2 as [H2|(-> & y & Hy & Hm & Hp)];
    [by eapply Hok| | |done].
  - destruct (Hsv y Hy) as [Em Ep]. exfalso. eapply (Hfree s1 p ty1); congruence.
  - destruct (Hsv x Hx) as [Em Ep]. exfalso. eapply (Hfree s2 _ ty2); [|exact Ep]. congruence.
Qed.

Section SharedPorts.
Context `{Postgres} `{QuestServer} `{Boost} `{DeploymentServer} `{Unordered}.

Lemma consistent_effect {A} (op : Conn -> (A + string) * Conn) c Φ :
  client_step c (op c).2 -> effect (op c).1 (stored c) (stored (op c).2) Φ ->
  (forall a t, Φ a t -> t_services t ⊆ t_services (stored c)) ->
  consistent (stored c) -> consistent (stored (op c).2).
Proof.
  intros Hstep Heff HΦ [Hi Hu]. split; [by eapply client_step_integrity|].
  eapply effect_keeps; [exact Heff|done|]. intros a Ha. eapply ports_ok_subset; eauto.
Qed.

Lemma consistent_create_user n p : op_keeps consistent (create_user n p).
Proof.
  intros c Hc. eapply consistent_effect; [apply step_create_user|apply create_user_applies| |done].
  by intros u t (_ & _ & _ & ->).
Qed.
Lemma consistent_insert_balance u id sym b : op_keeps consistent (insert_balance u id sym b).
Proof.
  intros c Hc. eapply consistent_effect; [apply step_insert_balance|apply insert_balance_applies| |done].
  by intros _ t (sym' & _ & _ & _ & _ & ->).
Qed.
Lemma consistent_upsert u id b : op_keeps consistent (upsert_init_bot_portfolio_balance u id b).
Proof.
  intros c Hc. eapply consistent_effect; [apply step_upsert|apply upsert_applies| |done].
  by intros _ t ->.
Qed.
Lemma consistent_configure n a d syms us : op_keeps consistent (configure_server n a d syms us).
Proof.
  intros c Hc. eapply consistent_effect; [apply step_configure|apply configure_applies| |done].
  intros [|] t; [by intros (? & ? & ? & ? & _ & _ & _ & ->)|by intros ->].
Qed.
Lemma consistent_delete n : op_keeps consistent (delete_server n).
Proof.
  intros c Hc. eapply consistent_effect; [apply step_delete_server|apply delete_applies| |done].
  intros [|] t; [|by intros ->]. intros (id & x & _ & _ & ->). simpl. apply map_filter_subseteq.
Qed.

(** The services of a machine as the backend sees them. *)
Lemma service_rows_returned rows c l c' : service_rows_loop rows c = (Returned l, c') ->
  map svw_port l = map (fun r => r.2.2) rows.
Proof.
  revert c l c'. induction rows as [|[[? [? ip]] [ty port]] rows IH]; intros c l c' Hl; simpl in Hl; txn_inv.
  - done.
  - destruct (service_str_to_enum ty); [|done]. txn_inv. simpl. f_equal. by eapply IH.
Qed.

Lemma query_services_complete name c l c' : integrity (stored c) ->
  query_services name c = (inl l, c') ->
  forall s m p ty r, t_services (stored c) !! (s, m, p) = Some ty -> t_machines (stored c) !! m = Some r ->
    mc_name r = name -> p ∈ map svw_port l.
Proof.
  intros Ht Hq s m p ty r Hs Hm Hn. unfold query_services in Hq. txn_inv.
  match goal with H : service_rows_loop _ _ = _ |- _ => apply service_rows_returned in H as -> end.
  match goal with Hp : ?rows ≡ₚ List.filter _ (service_rows ?t) |- _ =>
    replace t with (stored c) in Hp by congruence; rewrite Hp end.
  destruct (service_exists _ Ht _ _ _ _ Hs) as ([sv Hsv] & _).
  apply list_elem_of_fmap. exists (sv_name sv, (mc_name r, mc_ip r), (ty, p)). split; [done|].
  rewrite list_elem_of_In, filter_In, <- list_elem_of_In. simpl. rewrite String.eqb_refl. split; [|done].
  unfold service_rows. apply list_elem_of_omap. exists ((s, m, p), ty).
  rewrite elem_of_map_to_list. simpl. by rewrite Hsv, Hm.
Qed.

(** The machine that is chosen, and ports that none of its services has. *)
Definition registered (machine : MachineRow) (t : Tables) : Prop :=
  exists r, t_machines t !! mw_machine_id machine = Some r /\
    mc_name r = mw_machine_name machine /\ mc_ip r = mw_ip machine.

Definition unused_ports (machine : MachineRow) (ports : Ports) (t : Tables) : Prop :=
  forall s p ty, t_services t !! (s, mw_machine_id machine, p) = Some ty -> p ∉ port_list ports.

Lemma query_machines_found c ms c' m : query_machines c = (inl ms, c') -> head ms = Some m ->
  registered m (stored c).
Proof.
  intros Hq Hm. unfold query_machines in Hq. txn_inv.
  match goal with Hp : _ ≡ₚ map _ (map_to_list (t_machines ?t)) |- _ =>
    replace t with (stored c) in Hp by congruence;
    apply (perm_head _ _ _ Hp), list_elem_of_fmap in Hm as ([id r] & -> & Hr%elem_of_map_to_list) end.
  by exists r.
Qed.

(** For any property of the tables that comes with their integrity. *)
Section Choosing.
Variable P : Tables -> Prop.
Hypothesis P_integrity : forall t, P t -> integrity t.

Lemma machine_chosen :
  triple (on P) choose_machine (fun m => on (fun t => P t /\ registered m t)) (fun _ => on P).
Proof.
  unfold choose_machine. eapply (triple_bind _ _ _ (fun ms w => on P w /\ forall m, head ms = Some m ->
    registered m (stored (w_db w)))).
  - apply triple_db_or. intros w r c Hw Hr.
    pose proof (stored_read _ _ _ _ (read_machines (w_db w)) Hr) as Hst.
    destruct r as [ms|e]; unfold on; simpl; rewrite Hst; [|done]. split; [done|]. intros m.
    by eapply query_machines_found.
  - intros ms. apply triple_required.
    + intros m w Hm [Hw Hall]. split; auto.
    + by intros w _ [? _].
Qed.

Lemma ports_chosen machine :
  triple (on (fun t => P t /\ registered machine t)) (choose_ports (mw_machine_name machine))
    (fun ports => on (fun t => P t /\ NoDup (port_list ports) /\ unused_ports machine ports t)) (fun _ => on P).
Proof.
  unfold choose_ports. eapply (triple_bind _ _ _ (fun services w => on P w /\
    forall s p ty, t_services (stored (w_db w)) !! (s, mw_machine_id machine, p) = Some ty ->
      p ∈ map svw_port services)).
  - apply triple_db_or. intros w r c Hw Hr. destruct Hw as [Hw (x & Hx & Hn & _)].
    pose proof (stored_read _ _ _ _ (read_services _ (w_db w)) Hr) as Hst.
    destruct r as [l|e]; unfold on; simpl; rewrite Hst; [|done]. split; [done|]. intros s p ty Hs.
    eapply query_services_complete; [by apply P_integrity|done..].
  - intros services. apply triple_lift. intros ports w Hports [Hw Hall].
    split; [done|]. split; [by eapply take_ports_distinct|].
    intros s p ty Hs Hin. apply Hall in Hs. eapply take_ports_free; [exact Hports|exact Hin|].
    by apply elem_of_list_to_set.
Qed.
End Choosing.

Lemma consistent_integrity t : consistent t -> integrity t.
Proof. by intros [? _]. Qed.

Definition free_ports (machine : MachineRow) (ports : Ports) (t : Tables) : Prop :=
  consistent t /\ unused_ports machine ports t.

Lemma create_server_consistent machine ports name admin d syms users usd :
  triple (on (free_ports machine ports))
    (db_or error_reply (create_server_with_services name admin d syms users
                          (service_inserts (mw_machine_id machine) ports) usd))
    (fun _ => on consistent) (fun _ => on consistent).
Proof.
  apply triple_db_or. intros w r c [[Hi Hok] Hfree] Hr.
  set (svs := service_inserts (mw_machine_id machine) ports) in *.
  pose proof (create_server_applies name admin d syms users svs usd (w_db w)) as Heff. cbn zeta in Heff.
  pose proof (client_step_integrity _ _ (step_create_server name admin d syms users svs usd (w_db w)) Hi) as Hint.
  rewrite Hr in *. simpl in *.
  assert (consistent (stored c)) as Hc; [|by destruct r].
  split; [done|]. eapply effect_keeps; [exact Heff|done|].
  intros id (x & _ & _ & Hid & _ & ->). eapply ports_ok_added; [done|done|done| |exact Hfree].
  unfold svs, service_inserts, port_list.
  repeat (apply Forall_cons; split; [split; [done|set_solver]|]). apply Forall_nil_2.
Qed.

Lemma consistent_create req : hkeeps consistent (handle_create_server req).
Proof.
  pose proof consistent_create_user. unfold handle_create_server.
  do 5 (apply hk_bind; [hk_tac|intro]).
  eapply triple_bind; [apply machine_chosen|]. intros machine.
  eapply triple_bind; [apply (ports_chosen consistent consistent_integrity)|]. intros ports.
  eapply triple_bind; [eapply triple_conseq; [|apply create_server_consistent|..]|].
  { intros w (? & _ & ?). by split. }
  { intros id w Hw. exact Hw. }
  { done. }
  intros id.
  apply hk_bind; [apply hk_initial_balances|]; hk_tac; [apply consistent_insert_balance|apply consistent_upsert].
Qed.

Lemma consistent_configure_request req : hkeeps consistent (handle_configure_server req).
Proof. pose proof consistent_configure. unfold handle_configure_server. hk_tac. Qed.

Lemma consistent_remove req : hkeeps consistent (handle_remove_server req).
Proof. pose proof consistent_delete. unfold handle_remove_server. hk_tac. Qed.

(** The requests of a run, one after the other. *)
Definition serves (w w' : World) : Prop := exists req rs, handle req w = Ok (rs, w').

Lemma consistent_handle req w rs w' :
  handle req w = Ok (rs, w') -> consistent (stored (w_db w)) -> consistent (stored (w_db w')).
Proof.
  intros Hr Hw. eapply (handle_keeps consistent); [|intros _; split_and!|exact Hr|exact Hw].
  - apply consistent_create_user.
  - apply consistent_create.
  - apply consistent_configure_request.
  - apply consistent_remove.
Qed.

(** C16: servers never share a port when requests are handled one after another.  Over any
    such sequence of requests, with any faults of the database and any answers of the
    deployment server, every port of every machine belongs to the services of at most
    one server.  (Creations that overlap in two threads break this:
    BackendSessions.overlapping_sessions_share_ports.) *)
Theorem ports_never_shared w w' :
  rtc serves w w' -> consistent (stored (w_db w)) -> consistent (stored (w_db w')).
Proof.
  induction 1 as [w|w w1 w' (req & rs & Hr) _ IH]; [done|]. intros Hw. apply IH.
  by eapply consistent_handle.
Qed.
End SharedPorts.

Lemma sample_consistent : consistent (stored (w_db sample_world)).
Proof. split; [apply sample_integrity|]. intros s1 s2 m p ty1 ty2. simpl. by rewrite lookup_empty. Qed.

Lemma lab_consistent : consistent (stored (w_db lab_world)).
Proof.
  unfold lab_world. destruct created_world as [[o w]|] eqn:E; [|apply sample_consistent].
  refine (run_keeps consistent _ _ _ _ _ E sample_consistent). apply consistent_create.
Qed.

(** The world that a request leaves; [w] if its outcome is undefined. *)
Definition world_after {A} (r : res (A * World)) (w : World) : World :=
  match r with Ok (_, w') => w' | Err _ => w end.

(** Alice's server and a second one that bob creates next. *)
Lemma ports_never_shared_witness :
  let bob := @handle healthy sample_quest
    (sample_boost [] (JObject (jset "server_name" (JString "lab2") sample_body))) agreeing in_order
    (post "/create_server" "bob") lab_world in
  match bob with
  | Ok (rs, w) => (rs_status rs =? 200) && (size (t_services (stored (w_db w))) =? 10)%nat
  | Err _ => false
  end%bool = true /\
  consistent (stored (w_db (world_after bob lab_world))).
Proof.
  intros bob. split; [vm_compute; reflexivity|].
  refine (@ports_never_shared healthy sample_quest
    (sample_boost [] (JObject (jset "server_name" (JString "lab2") sample_body))) agreeing in_order
    lab_world _ _ lab_consistent).
  destruct bob as [[rs w]|e] eqn:E; [|apply rtc_refl].
  apply rtc_once. by exists (post "/create_server" "bob"), rs.
Defined.

(** Bob, a member of alice's server, asks for its removal. *)
Lemma only_admin_touches_witness :
  match ask_lab "/remove_server" "bob" with Ok (rs, _) => rs_status rs =? 401 | Err _ => false end = true /\
  untouched 1 (stored (w_db lab_world))
    (stored (w_db (world_after (ask_lab "/remove_server" "bob") lab_world))).
Proof.
  split; [vm_compute; reflexivity|].
  destruct (ask_lab "/remove_server" "bob") as [[rs w]|e] eqn:E; [|apply untouched_refl].
  apply (@only_admin_touches healthy sample_quest (sample_boost [] (named_body "lab")) agreeing in_order
    (post "/remove_server" "bob") lab_world rs w 1 (mkServerRec "lab" (Some 1) (Some ["AAPL"%string])
      (Some ""%string) 500)); [apply lab_consistent| | |exact E].
  - vm_compute. reflexivity.
  - intros a u [= <-] Hu. vm_compute in Hu. injection Hu as <-. by vm_compute.
Defined.
