(* ===== verification/BackendSessions.v ===== *)
(** * The backend service: sessions that overlap

    [services/backend_service/main.cpp] serves every connection in a thread of its own,
    on one request handler without a lock.  Here a request that creates a server may be
    interrupted at one point: after it has read which ports are taken and before
    it inserts its own.  That is enough for two creations that overlap to get the
    same five ports, which no sequence of whole requests does
    ([BackendSafety.ports_never_shared]). *)

From S2P Require Import Prelude Core Json BackendConfig Postgres DatabaseClient DatabaseTheorems DatabaseSpecs DatabaseEffects QuestDb.
From S2P Require Import Backend BackendServers BackendSamples BackendPorts BackendSafety.
From Stdlib Require Import ZArith Lia Ascii String.
From stdpp Require Import base option list gmap strings relations.

Open Scope Z_scope.

(** What [handle_create_server] has decided when it has chosen the ports. *)
Record Creation := mkCreation {
  cn_caller_id : Z;
  cn_request : CreateRequest;
  cn_bot_configs : list BotCreateConfig;
  cn_ids : list Z;
  cn_machine : MachineRow;
  cn_ports : Ports
}.

Section Sessions.
Context `{Postgres} `{QuestServer} `{Boost} `{DeploymentServer} `{Unordered}.

(** ** The two halves of [handle_create_server] *)
Definition begin_create (req : Request) : H Creation :=
  caller_id ← authenticated req;
  body ← parse_body req;
  r ← of_exp (parse_create_request body);
  bot_configs ← create_bot_users (rq_bot_configs r);
  ids ← db_or error_reply (resolve_user_ids (with_bots (rq_allowlist_names r) bot_configs));
  machine ← choose_machine;
  ports ← choose_ports (mw_machine_name machine);
  mret (mkCreation caller_id r bot_configs ids machine ports).

Definition finish_create (n : Creation) : H Obj :=
  let r := cn_request n in
  let all_allowlist_names := with_bots (rq_allowlist_names r) (cn_bot_configs n) in
  server_id ← db_or error_reply
    (create_server_with_services (rq_server_name r) (cn_caller_id n) (rq_description r) (rq_symbols r) (cn_ids n)
       (service_inserts (mw_machine_id (cn_machine n)) (cn_ports n)) (rq_initial_usd r));
  _ ← insert_initial_balances server_id (cn_caller_id n) (rq_initial_usd r) (cn_ids n) (rq_symbols r)
        (cn_bot_configs n);
  _ ← deploy_all (mw_ip (cn_machine n)) (cn_ports n) r (cn_bot_configs n) all_allowlist_names;
  warning ← quest (create_quest_tables (rq_server_name r));
  mret (create_reply warning server_id (cn_caller_id n) r all_allowlist_names).

Lemma bind_assoc {A B C} (m : H A) (f : A -> H B) (g : B -> H C) w :
  ((m ≫= f) ≫= g) w = (m ≫= (fun a => f a ≫= g)) w.
Proof. unfold mbind, h_bind. by destruct (m w) as [[[a|o] w1]|e]. Qed.

Lemma bind_ext {A B} (m : H A) (f g : A -> H B) w :
  (forall a w, f a w = g a w) -> (m ≫= f) w = (m ≫= g) w.
Proof. intros He. unfold mbind, h_bind. by destruct (m w) as [[[a|o] w1]|e]. Qed.

(** Run without a break, the halves are the handler. *)
Lemma create_halves req w : (begin_create req ≫= finish_create) w = handle_create_server req w.
Proof.
  unfold begin_create, handle_create_server.
  repeat (rewrite bind_assoc; apply bind_ext; intros ? ?). reflexivity.
Qed.

(** ** Interleaved sessions

    The creations under way, and the steps of the sessions: a whole request, the first
    half of a creation, or the second. *)
Inductive session_step : World * list Creation -> World * list Creation -> Prop :=
  | ss_request w w' ns : serves w w' -> session_step (w, ns) (w', ns)
  | ss_begin req w r w' ns :
      begin_create req w = Ok (r, w') ->
      session_step (w, ns) (w', match r with inl n => ns ++ [n] | inr _ => ns end)
  | ss_finish l n ns w r w' :
      finish_create n w = Ok (r, w') -> session_step (w, l ++ n :: ns) (w', l ++ ns).
End Sessions.

(** ** Two creations that overlap

    Alice creates the server "lab" and bob the server "lab2". *)
Definition two_bodies : Boost := {|
  parse_target := fun target => Some (target, []);
  bj_parse := fun s =>
    if String.eqb s "deployed" then inl (JObject [("status", JString "deployed")])
    else if String.eqb s "second" then inl (JObject (jset "server_name" (JString "lab2") sample_body))
    else inl (JObject sample_body);
  bj_serialize := fun o => String.concat "," (map fst o)
|}%string.

Definition begun (user body : string) (w : World) : res ((Creation + Obj) * World) :=
  @begin_create healthy two_bodies
    (mkRequest verb_post "/create_server" (Some (bearer +:+ user)%string) body) w.
Definition finished (n : Creation) (w : World) : res ((Obj + Obj) * World) :=
  @finish_create healthy sample_quest two_bodies agreeing in_order n w.

Definition no_creation : Creation :=
  mkCreation 0 (mkCreateRequest "" "" 0 [] [] [] oracle_defaults) [] [] (mkMachineRow 0 "" "") (mkPorts 0 0 0 0 0).
Definition creation_of (r : res ((Creation + Obj) * World)) : Creation :=
  match r with Ok (inl n, _) => n | _ => no_creation end.
Definition left_by {A} (r : res (A * World)) (w : World) : World :=
  match r with Ok (_, w') => w' | Err _ => w end.

Definition alice_begun : World := left_by (begun "alice" "" sample_world) sample_world.
Definition alice_lab : Creation := creation_of (begun "alice" "" sample_world).
Definition bob_begun : World := left_by (begun "bob" "second" alice_begun) alice_begun.
Definition bob_lab2 : Creation := creation_of (begun "bob" "second" alice_begun).
Definition alice_finished : World := left_by (finished alice_lab bob_begun) bob_begun.
Definition bob_finished : World := left_by (finished bob_lab2 alice_finished) alice_finished.

Notation lab_session := (@session_step healthy sample_quest two_bodies agreeing in_order).

Lemma sessions_overlap : rtc lab_session (sample_world, []) (bob_finished, []).
Proof.
  apply rtc_l with (alice_begun, [alice_lab]).
  { apply (@ss_begin healthy sample_quest two_bodies agreeing in_order
      (mkRequest verb_post "/create_server" (Some (bearer +:+ "alice")%string) "") sample_world (inl alice_lab)).
    vm_compute. reflexivity. }
  apply rtc_l with (bob_begun, [alice_lab; bob_lab2]).
  { apply (@ss_begin healthy sample_quest two_bodies agreeing in_order
      (mkRequest verb_post "/create_server" (Some (bearer +:+ "bob")%string) "second") alice_begun (inl bob_lab2)).
    vm_compute. reflexivity. }
  assert (exists r, finished alice_lab bob_begun = Ok (r, alice_finished)) as [r1 H1]
    by (eexists; vm_compute; reflexivity).
  assert (exists r, finished bob_lab2 alice_finished = Ok (r, bob_finished)) as [r2 H2]
    by (eexists; vm_compute; reflexivity).
  apply rtc_l with (alice_finished, [bob_lab2]).
  { exact (@ss_finish healthy sample_quest two_bodies agreeing in_order [] alice_lab [bob_lab2] bob_begun r1 _ H1). }
  apply rtc_once.
  exact (@ss_finish healthy sample_quest two_bodies agreeing in_order [] bob_lab2 [] alice_finished r2 _ H2).
Qed.

(** Both servers have been created, on the same five ports of the same machine. *)
Example overlapping_sessions_share_ports :
  length (w_sent bob_finished) = 12%nat /\ port_list (cn_ports alice_lab) = port_list (cn_ports bob_lab2) /\
  ~ consistent (stored (w_db bob_finished)).
Proof.
  split; [vm_compute; reflexivity|]. split; [vm_compute; reflexivity|]. intros [_ Hp].
  assert (t_services (stored (w_db bob_finished)) !! (1, 1, 10001) = Some "mdp"%string) as H1 by (vm_compute; reflexivity).
  assert (t_services (stored (w_db bob_finished)) !! (2, 1, 10001) = Some "mdp"%string) as H2 by (vm_compute; reflexivity).
  pose proof (Hp _ _ _ _ _ _ H1 H2) as He. discriminate He.
Qed.
