(* ===== verification/BackendSpecs.v ===== *)
(** * The backend service: creating and removing servers

    When the deployment server is called and in which order, and what the database
    holds by then; when a server disappears from the database. *)

From S2P Require Import Prelude Core Doubles Fix Json BackendConfig PgArray Postgres DatabaseClient DatabaseTheorems DatabaseSpecs DatabaseEffects QuestDb Backend BackendServers BackendSamples BackendPorts BackendSafety.
From Stdlib Require Import ZArith Lia Ascii String.
From stdpp Require Import base option list gmap strings sets fin_maps fin_sets.

Open Scope Z_scope.

(** ** Handlers that do not call the deployment server *)
(** They send nothing, and what they return early does not report success. *)
Definition quiet {A} (m : H A) : Prop :=
  forall w r w', m w = Ok (r, w') ->
    w_sent w' = w_sent w /\ match r with inl _ => True | inr o => contains "success" o = false end.

Section Quiet.
Context {A : Type}.

Lemma quiet_ret (a : A) : quiet (mret a).
Proof. by intros w r w' [= <- <-]. Qed.
Lemma quiet_reply o : contains "success" o = false -> quiet (@reply A o).
Proof. by intros Ho w r w' [= <- <-]. Qed.
Lemma quiet_bind {B} (m : H B) (f : B -> H A) : quiet m -> (forall b, quiet (f b)) -> quiet (m ≫= f).
Proof.
  intros Hm Hf w r w' Hr. unfold mbind, h_bind in Hr.
  destruct (m w) as [[[b|o] w1]|] eqn:Em; simplify_eq.
  - destruct (Hm _ _ _ Em) as [<- _]. by apply Hf in Hr.
  - by apply Hm in Em.
Qed.
Lemma quiet_lift (m : res A) : quiet (lift m).
Proof. intros w r w' Hr. unfold lift in Hr. by destruct m; simplify_eq. Qed.
Lemma quiet_of_exp (m : Exp A) : quiet (of_exp m).
Proof. intros w r w' Hr. unfold of_exp in Hr. by destruct m as [[]|]; simplify_eq. Qed.
Lemma quiet_required (o : option A) r : contains "success" r = false -> quiet (required o r).
Proof. intros Hr. destruct o; [apply quiet_ret|by apply quiet_reply]. Qed.
Lemma quiet_db (op : Conn -> (A + string) * Conn) : quiet (db op).
Proof. intros w r w' Hr. unfold db in Hr. destruct (op _). by simplify_eq. Qed.
Lemma quiet_db_or f (op : Conn -> (A + string) * Conn) :
  (forall e, contains "success" (f e) = false) -> quiet (db_or f op).
Proof.
  intros Hf. apply quiet_bind; [apply quiet_db|]. intros [a|e]; [apply quiet_ret|by apply quiet_reply].
Qed.
End Quiet.

Lemma quiet_for {A} (f : A -> H unit) l : (forall x, quiet (f x)) -> quiet (h_for f l).
Proof. intros Hf. induction l; simpl; [apply quiet_ret|]. by apply quiet_bind. Qed.
Lemma quiet_map {A B} (f : A -> H B) l : (forall x, quiet (f x)) -> quiet (h_map f l).
Proof.
  intros Hf. induction l; simpl; [apply quiet_ret|]. apply quiet_bind; [done|]. intros.
  apply quiet_bind; [done|]. intros. apply quiet_ret.
Qed.
Lemma quiet_for_unordered `{Unordered} {A} (f : A -> H unit) l :
  (forall x, quiet (f x)) -> quiet (h_for_unordered f l).
Proof. intros Hf w r w' Hr. unfold h_for_unordered in Hr. by eapply quiet_for. Qed.

(** A triple of a quiet handler also says that nothing was sent. *)
Lemma triple_quiet {A} (P : World -> Prop) (m : H A) Q E sent : quiet m -> triple P m Q E ->
  triple (fun w => P w /\ w_sent w = sent) m (fun a w => Q a w /\ w_sent w = sent)
    (fun o w => E o w /\ w_sent w = sent /\ contains "success" o = false).
Proof.
  intros Hq Hm w r w' [Hw Hs] Hr. destruct (Hq _ _ _ Hr) as [Hs' Ho].
  specialize (Hm _ _ _ Hw Hr). destruct r; split_and!; congruence.
Qed.

Ltac quiet_step :=
  match goal with
  | |- forall _, _ => intro
  | |- quiet (mbind _ _) => apply quiet_bind
  | |- quiet (mret _) => apply quiet_ret
  | |- quiet (reply _) => apply quiet_reply; done
  | |- quiet (lift _) => apply quiet_lift
  | |- quiet (of_exp _) => apply quiet_of_exp
  | |- quiet (required _ _) => apply quiet_required; done
  | |- quiet (db_or _ _) => apply quiet_db_or; done
  | |- quiet (db _) => apply quiet_db
  | |- quiet (h_for _ _) => apply quiet_for
  | |- quiet (h_for_unordered _ _) => apply quiet_for_unordered
  | |- quiet (h_map _ _) => apply quiet_map
  | |- quiet (match ?x with _ => _ end) => destruct x
  end.
Ltac quiet_tac := repeat (solve [eauto] || quiet_step).

Section QuietParts.
Context `{Postgres} `{QuestServer} `{Boost} `{DeploymentServer} `{Unordered}.

Lemma quiet_authenticated req : quiet (authenticated req).
Proof. unfold authenticated, authenticate_admin. quiet_tac. Qed.
Lemma quiet_parse_body req : quiet (parse_body req).
Proof. unfold parse_body. quiet_tac. Qed.
Lemma quiet_own_server caller name : quiet (own_server caller name).
Proof. unfold own_server. quiet_tac. Qed.
Lemma quiet_endpoint_of name ty svc : quiet (endpoint_of name ty svc).
Proof. unfold endpoint_of. quiet_tac. Qed.
Lemma quiet_bot_users configs : quiet (create_bot_users configs).
Proof.
  assert (forall name, quiet (bot_user_id name)) as Hid by (unfold bot_user_id; intros; quiet_tac).
  assert (forall s n i g, quiet (group_users_loop s n i g)) as Hg.
  { intros s n. induction n as [|n IH]; intros i g; simpl; quiet_tac. }
  assert (forall s gs i, quiet (config_users_loop s i gs)) as Hl.
  { intros s gs. induction gs as [|g gs IH]; intros i; simpl; quiet_tac. }
  unfold create_bot_users. quiet_tac.
Qed.
Lemma quiet_choose_machine : quiet choose_machine.
Proof. unfold choose_machine. quiet_tac. Qed.
Lemma quiet_choose_ports name : quiet (choose_ports name).
Proof. unfold choose_ports. quiet_tac. Qed.
Lemma quiet_bot_inventory g u id syms p : quiet (bot_inventory_loop g u id syms p).
Proof.
  revert p. induction syms as [|sym syms IH]; intros p; simpl; [quiet_tac|].
  destruct (is_usd sym); quiet_tac.
Qed.
Lemma quiet_initial_balances id caller usd ids symbols configs :
  quiet (insert_initial_balances id caller usd ids symbols configs).
Proof.
  pose proof quiet_bot_inventory.
  unfold insert_initial_balances, insert_usd, insert_zero_balances, insert_bot. quiet_tac.
Qed.
End QuietParts.

(** ** Loops over lists *)
Lemma h_for_app {A} (f : A -> H unit) l1 l2 w :
  h_for f (l1 ++ l2) w = (_ ← h_for f l1; h_for f l2) w.
Proof.
  revert w. induction l1 as [|x l1 IH]; intros w; simpl; [done|].
  unfold mbind, h_bind in *. by destruct (f x w) as [[[[]|o] w1]|].
Qed.

Lemma h_for_nested {A B} (f : B -> H unit) (g : A -> list B) (h : A -> H unit) l w :
  (forall x w, h x w = h_for f (g x) w) -> h_for h l w = h_for f (l ≫= g) w.
Proof.
  intros Hh. revert w. induction l as [|x l IH]; intros w; [done|]. simpl. rewrite h_for_app.
  unfold mbind, h_bind in *. rewrite Hh. by destruct (h_for f (g x) w) as [[[[]|o] w1]|].
Qed.

Lemma triple_for {A} (I : list A -> World -> Prop) (f : A -> H unit) l E :
  (forall done x, x ∈ l -> triple (I done) (f x) (fun _ => I (done ++ [x])) E) ->
  triple (I []) (h_for f l) (fun _ => I l) E.
Proof.
  intros Hf. assert (forall todo done, done ++ todo = l ->
    triple (I done) (h_for f todo) (fun _ => I l) E) as Hgen; [|by apply (Hgen l [])].
  induction todo as [|x todo IH]; intros done Hl; simpl.
  - apply triple_ret. rewrite app_nil_r in Hl. by subst.
  - eapply triple_bind; [apply Hf; rewrite <- Hl; set_solver|]. intros u. apply IH.
    by rewrite <- app_assoc.
Qed.

(** ** What is deployed *)
Section Deploying.
Context `{Boost} `{DeploymentServer}.
Variables (ip : string) (ports : Ports) (r : CreateRequest) (configs : list BotCreateConfig)
  (names : list string).

Definition bot_deployments (c : BotCreateConfig) : list (string * Obj) :=
  groups c ≫= (fun g => if bot_count g <=? 0 then []
                        else [(bot_service_name c, bot_params ip ports (rq_symbols r) (bot_service_name c) g)]).

(** The services with their parameters, in the order of deployment. *)
Definition deployments : list (string * Obj) :=
  let symbols := JString (join_csv (rq_symbols r)) in
  [("mdp", [("host", JString ip); ("ws_port", JInt64 (mdp_port ports)); ("active_symbols", symbols)]);
   ("me", [("matching_engine_host", JString ip); ("matching_engine_port", JInt64 (me_port ports));
           ("active_symbols", symbols)]);
   ("oms", [("order_manager_host", JString ip); ("order_manager_port", JInt64 (oms_port ports));
            ("active_symbols", symbols); ("downstream_matching_engine_host", JString ip);
            ("downstream_matching_engine_port", JInt64 (me_port ports))]);
   ("gateway", [("downstream_order_manager_host", JString ip);
                ("downstream_order_manager_port", JInt64 (oms_port ports));
                ("fix_server_port", JInt64 (gateway_port ports)); ("whitelist", JString (join_csv names))]);
   ("oracle", [("active_symbols", symbols); ("oracle_ws_port", JInt64 (oracle_port ports));
               ("mu", JDouble (mu (rq_oracle r))); ("sigma", JDouble (sigma (rq_oracle r)));
               ("jump_intensity", JDouble (jump_intensity (rq_oracle r)));
               ("jump_mean", JDouble (jump_mean (rq_oracle r))); ("jump_std", JDouble (jump_std (rq_oracle r)));
               ("update_interval_ms", JInt64 (update_interval_ms (rq_oracle r)))])]%string
  ++ (configs ≫= bot_deployments).

(** What the bots of a group are told: the gateway, the symbols, their names, and the
    services that their kind listens to; the other parameters are the group's. *)
Record bot_told (service : string) (g : BotGroupConfig) (o : Obj) : Prop := {
  bt_host : jfind "gateway_host" o = Some (JString ip);
  bt_port : jfind "gateway_port" o = Some (JInt64 (gateway_port ports));
  bt_symbols : jfind "active_symbols" o = Some (JString (join_csv (rq_symbols r)));
  bt_tag : jfind "group_tag" o = Some (JString (group_tag g));
  bt_ids : jfind "sender_comp_ids" o = Some (jstrings (usernames g));
  bt_mdp : service ∈ ["mm"; "nt"; "it"]%string ->
    jfind "mdp_ws_host" o = Some (JString ip) /\ jfind "mdp_ws_port" o = Some (JInt64 (mdp_port ports));
  bt_oracle : service = "it"%string ->
    jfind "oracle_ws_host" o = Some (JString ip) /\ jfind "oracle_ws_port" o = Some (JInt64 (oracle_port ports));
  bt_rest : forall key, key ∉ ["gateway_host"; "gateway_port"; "active_symbols"; "group_tag"; "sender_comp_ids";
      "mdp_ws_host"; "mdp_ws_port"; "oracle_ws_host"; "oracle_ws_port"]%string ->
    jfind key o = jfind key (deploy_params g)
}.

Lemma bot_params_told service g : bot_told service g (bot_params ip ports (rq_symbols r) service g).
Proof.
  unfold bot_params. case_bool_decide as Em; destruct (String.eqb_spec service "it"%string) as [->|Hit];
    [| |exfalso; set_solver|]; (constructor; intros; rewrite ?jfind_jset; try (simpl; done);
    rewrite !not_elem_of_cons in *; destruct_and?;
    rewrite ?jfind_jset, ?(proj2 (String.eqb_neq _ _)) by congruence; done).
Qed.

Definition deployment_exchange (d : string * Obj) : Exchange :=
  mkExchange ip "/deploy"
    (bj_serialize [("service_name", JString d.1); ("server_name", JString (rq_server_name r));
                   ("params", JObject d.2)]%string).

Lemma deploy_all_plan w :
  deploy_all ip ports r configs names w
  = h_for (fun d => deploy ip (rq_server_name r) d.1 d.2) deployments w.
Proof.
  unfold deploy_all, deployments, mdp_params, me_params, oms_params, gateway_params, oracle_params.
  rewrite h_for_app. simpl. unfold mbind, h_bind. simpl.
  do 5 (destruct (deploy _ _ _ _ _) as [[[[]|?] ?]|]; [|done|done]).
  apply h_for_nested. intros c w'. unfold deploy_bots. apply h_for_nested.
  intros g w''. destruct (bot_count g <=? 0); simpl; [done|].
  unfold mbind, h_bind. by destruct (deploy _ _ _ _ _) as [[[[]|?] ?]|].
Qed.

(** A deployment is sent, and then succeeds or ends the request. *)
Lemma deploy_sends (T : Tables -> Prop) sent d :
  triple (fun w => on T w /\ w_sent w = sent) (deploy ip (rq_server_name r) d.1 d.2)
    (fun _ w => on T w /\ w_sent w = sent ++ [deployment_exchange d])
    (fun o w => (on T w /\ w_sent w = sent ++ [deployment_exchange d]) /\ contains "success" o = false).
Proof.
  intros w x w' [Hw <-] Hr. unfold deploy, deploy_service, deployment_call, exchange in Hr.
  unfold mbind, h_bind, mret, h_ret in Hr. unfold expect in Hr.
  match type of Hr with context [match ?y with inl a => mret a | inr e => _ end] => destruct y end;
    unfold mret, h_ret, reply in Hr; by simplify_eq.
Qed.

Lemma deploy_all_sends (T : Tables -> Prop) sent :
  triple (fun w => on T w /\ w_sent w = sent) (deploy_all ip ports r configs names)
    (fun _ w => on T w /\ w_sent w = sent ++ map deployment_exchange deployments)
    (fun o w => on T w /\ contains "success" o = false /\
       exists ds, ds `prefix_of` deployments /\ w_sent w = sent ++ map deployment_exchange ds).
Proof.
  intros w x w' Hw Hr. rewrite deploy_all_plan in Hr. revert w x w' Hw Hr.
  match goal with |- forall w x w', _ -> _ -> match x with inl a => @?Q a w' | inr o => @?E o w' end =>
    change (triple (fun w => on T w /\ w_sent w = sent)
              (h_for (fun d => deploy ip (rq_server_name r) d.1 d.2) deployments) Q E) end.
  assert (forall ds rest, ds ++ rest = deployments ->
    triple (fun w => on T w /\ w_sent w = sent ++ map deployment_exchange ds)
      (h_for (fun d => deploy ip (rq_server_name r) d.1 d.2) rest)
      (fun _ w => on T w /\ w_sent w = sent ++ map deployment_exchange deployments)
      (fun o w => on T w /\ contains "success" o = false /\
         exists ds, ds `prefix_of` deployments /\ w_sent w = sent ++ map deployment_exchange ds)) as Hgen.
  { intros ds rest. revert ds. induction rest as [|d rest IH]; intros ds Hds; simpl.
    - rewrite app_nil_r in Hds. subst ds. by apply triple_ret.
    - eapply (triple_bind _ _ _ (fun _ w => on T w /\ w_sent w = sent ++ map deployment_exchange (ds ++ [d]))).
      + eapply triple_conseq; [|apply (deploy_sends T (sent ++ map deployment_exchange ds) d)| |]; [done| |].
        * intros u w. by rewrite map_app, app_assoc.
        * intros o w [[Hw Hs] Ho]. split_and!; [done|done|]. exists (ds ++ [d]). split.
          -- exists rest. by rewrite <- app_assoc.
          -- by rewrite Hs, map_app, app_assoc.
      + intros u. apply IH. by rewrite <- app_assoc. }
  specialize (Hgen [] deployments eq_refl). simpl in Hgen. by rewrite app_nil_r in Hgen.
Qed.
End Deploying.

(** ** What is in the database before anything is deployed *)
(** Balances are only added. *)
Record grows (t t' : Tables) : Prop := {
  grow_users : t_users t' = t_users t;
  grow_servers : t_servers t' = t_servers t;
  grow_allowlist : t_allowlist t' = t_allowlist t;
  grow_services : t_services t' = t_services t;
  grow_balances : t_balances t ⊆ t_balances t'
}.

#[export] Instance grows_refl : Reflexive grows.
Proof. by constructor. Qed.

Definition stable (F : Tables -> Prop) : Prop := forall t t', grows t t' -> F t -> F t'.

(** An early return, about which nothing is said. *)
Abbreviation anything := (fun (_ : Obj) (_ : World) => True).

Section Balances.
Context `{Postgres} `{Unordered}.

(** The balance of a user in a symbol, whose name the column may have shortened. *)
Definition has_balance (id user : Z) (symbol : string) (b : Z) (t : Tables) : Prop :=
  exists symbol', varchar_in 10 symbol = Some symbol' /\ t_balances t !! (user, symbol', id) = Some b.

Lemma has_balance_stable id user symbol b : stable (has_balance id user symbol b).
Proof. intros t t' Hg (s & Hs & Hb). exists s. split; [done|]. eapply lookup_weaken; [done|apply Hg]. Qed.

Lemma stable_and F G : stable F -> stable G -> stable (fun t => F t /\ G t).
Proof. intros HF HG t t' Hg [? ?]. split; [by eapply HF|by eapply HG]. Qed.

Lemma stable_all {A} (G : A -> Tables -> Prop) (R : A -> Prop) :
  (forall x, stable (G x)) -> stable (fun t => forall x, R x -> G x t).
Proof. intros HG t t' Hg Ht x Hx. eapply HG; [done|]. auto. Qed.

Lemma insert_balance_has F id user symbol b : stable F ->
  triple (on F) (db_or error_reply (insert_balance user id symbol b))
    (fun _ => on (fun t => F t /\ has_balance id user symbol b t)) anything.
Proof.
  intros HF. apply triple_db_or. intros w r c Hw Hr. destruct r as [[]|e]; [|done].
  pose proof (insert_balance_applies user id symbol b (w_db w)) as Heff. rewrite Hr in Heff. simpl in Heff.
  destruct Heff as (s & Hs & Hn & _ & _ & Ht). unfold on. simpl. rewrite Ht. split.
  - eapply HF; [|exact Hw]. constructor; simpl; try done. by apply insert_subseteq.
  - exists s. split; [done|]. apply lookup_insert_eq.
Qed.

Lemma upsert_stable F id user b : stable F ->
  triple (on F) (db_or error_reply (upsert_init_bot_portfolio_balance user id b)) (fun _ => on F) anything.
Proof.
  intros HF. apply triple_db_or. intros w r c Hw Hr. destruct r as [[]|e]; [|done].
  pose proof (upsert_applies user id b (w_db w)) as Heff. rewrite Hr in Heff. simpl in Heff.
  unfold on. simpl. rewrite Heff. eapply HF; [|exact Hw]. by constructor.
Qed.

(** A loop whose iterations establish [G]. *)
Definition establishes {A} (f : A -> H unit) (G : A -> Tables -> Prop) : Prop :=
  forall F x, stable F -> triple (on F) (f x) (fun _ => on (fun t => F t /\ G x t)) anything.

Lemma establishes_for {A} (f : A -> H unit) (G : A -> Tables -> Prop) l F :
  establishes f G -> (forall x, stable (G x)) -> stable F ->
  triple (on F) (h_for f l) (fun _ => on (fun t => F t /\ forall x, x ∈ l -> G x t)) anything.
Proof.
  intros Hf HG HF.
  eapply triple_conseq; [|apply (triple_for (fun done => on (fun t => F t /\ forall x, x ∈ done -> G x t)))| |].
  - intros w Hw. split; [done|]. by intros x ?%elem_of_nil.
  - intros don x _. eapply triple_conseq; [|apply (Hf (fun t => F t /\ forall y, y ∈ don -> G y t))| |done].
    + done.
    + by apply stable_and, stable_all.
    + intros u w [[Hw Hd] Hx]. split; [done|]. intros y [? | ->%list_elem_of_singleton]%elem_of_app; auto.
  - done.
  - done.
Qed.

Lemma establishes_for_unordered {A} (f : A -> H unit) (G : A -> Tables -> Prop) l F :
  establishes f G -> (forall x, stable (G x)) -> stable F ->
  triple (on F) (h_for_unordered f l) (fun _ => on (fun t => F t /\ forall x, x ∈ l -> G x t)) anything.
Proof.
  intros Hf HG HF w r w' Hw Hr. unfold h_for_unordered in Hr.
  eapply establishes_for in Hr; [|done..]. destruct r; [|done]. destruct Hr as [? Hall]. split; [done|].
  intros x Hx. apply Hall. by rewrite hash_order_perm.
Qed.

(** What the three loops establish. *)
Definition usd_paid (id : Z) (e : Z * Z) : Tables -> Prop := has_balance id e.1 "USD" (e.2 * 10000).

Lemma insert_usd_establishes id : establishes (insert_usd id) (usd_paid id).
Proof.
  intros F [u usd] HF. unfold insert_usd.
  eapply (triple_bind _ _ _ (fun b w => on F w /\ b = usd * 10000)).
  - apply triple_lift. intros b w Hb Hw. int_inv. done.
  - intros b. apply triple_pure. intros ->. by apply insert_balance_has.
Qed.

Definition no_shares (id : Z) (symbols : list string) (user : Z) (t : Tables) : Prop :=
  forall symbol, symbol ∈ symbols -> is_usd symbol = false -> has_balance id user symbol 0 t.

Lemma no_shares_stable id symbols user : stable (no_shares id symbols user).
Proof. intros t t' Hg Ht sym Hin Hu. eapply has_balance_stable; [done|]. by apply Ht. Qed.

Lemma insert_zero_establishes id symbols :
  establishes (insert_zero_balances id symbols) (no_shares id symbols).
Proof.
  intros F u HF. unfold insert_zero_balances.
  eapply triple_conseq; [|apply (establishes_for_unordered _ (fun sym => has_balance id u sym 0))| |done].
  - done.
  - intros F' sym HF'. by apply insert_balance_has.
  - intros sym. apply has_balance_stable.
  - done.
  - intros x w [? Hall]. split; [done|]. intros sym Hs Hu. apply Hall.
    rewrite elem_of_elements, elem_of_list_to_set, list_elem_of_In, filter_In, <- list_elem_of_In.
    by rewrite Hu.
Qed.

Definition bot_shares (id : Z) (symbols : list string) (g : BotGroupConfig) (user : Z) (t : Tables) : Prop :=
  forall symbol, symbol ∈ symbols -> is_usd symbol = false -> exists scaled,
    llround (dmul (default (initial_inventory g) (inventory_by_symbol g !! symbol))
               (of_int balance_multiplier)) = Ok scaled /\
    has_balance id user symbol scaled t.

Lemma bot_shares_stable id symbols g user : stable (bot_shares id symbols g user).
Proof.
  intros t t' Hg Ht sym Hin Hu. destruct (Ht sym Hin Hu) as (b & Hb & ?). exists b. split; [done|].
  by eapply has_balance_stable.
Qed.

Lemma bot_inventory_has F g u id symbols p : stable F ->
  triple (on F) (bot_inventory_loop g u id symbols p)
    (fun _ => on (fun t => F t /\ bot_shares id symbols g u t)) anything.
Proof.
  revert F p. induction symbols as [|sym symbols IH]; intros F p HF; simpl.
  { apply triple_ret. intros w Hw. split; [done|]. by intros ? ?%elem_of_nil. }
  destruct (is_usd sym) eqn:Eu.
  { eapply triple_conseq; [|by apply IH| |done]; [done|]. intros x w [? Hs]. split; [done|].
    intros y [->|Hy]%elem_of_cons Hyu; [congruence|by apply Hs]. }
  eapply (triple_bind _ _ _ (fun b w => on F w /\
    llround (dmul (default (initial_inventory g) (inventory_by_symbol g !! sym)) (of_int balance_multiplier))
    = Ok b)).
  { by apply triple_lift. }
  intros b. apply triple_pure. intros Hb.
  eapply triple_bind; [by apply insert_balance_has|]. intros u0.
  do 3 (eapply (triple_bind _ _ _ (fun _ => on (fun t => F t /\ has_balance id u sym b t)));
        [by apply triple_lift|]; intros ?).
  eapply triple_conseq; [|apply IH; apply stable_and; [done|apply has_balance_stable]| |done]; [done|].
  intros x w [[? Hh] Hs]. split; [done|]. intros y [->|Hy]%elem_of_cons Hyu; [eauto|by apply Hs].
Qed.

Lemma insert_bot_establishes id symbols g : establishes (insert_bot id symbols g) (bot_shares id symbols g).
Proof.
  intros F u HF. unfold insert_bot. eapply (triple_bind _ _ _ (fun _ => on F)); [by apply triple_lift|].
  intros usd. eapply triple_bind; [by apply bot_inventory_has|]. intros p. apply upsert_stable.
  apply stable_and; [done|apply bot_shares_stable].
Qed.

(** Who starts with which cash: the groups overrule the members. *)
Lemma insert_same_lookup (v : Z) l (m : gmap Z Z) u :
  fold_left (fun m id => <[id := v]> m) l m !! u = if bool_decide (u ∈ l) then Some v else m !! u.
Proof.
  revert m. induction l as [|x l IH]; intros m.
  { rewrite bool_decide_eq_false_2; [done|]. by intros ?%elem_of_nil. }
  cbn [fold_left]. rewrite IH. destruct (decide (u = x)) as [->|Hne].
  - rewrite lookup_insert_eq. rewrite (bool_decide_eq_true_2 (x ∈ x :: l)) by left. by case_bool_decide.
  - rewrite lookup_insert_ne by done. do 2 case_bool_decide; try done; set_solver.
Qed.

Lemma insert_groups_lookup gs (m : gmap Z Z) u :
  let m' := fold_left (fun m g => fold_left (fun m id => <[id := bot_initial_usd g]> m) (user_ids g) m) gs m in
  (exists g, g ∈ gs /\ u ∈ user_ids g /\ m' !! u = Some (bot_initial_usd g)) \/
  (u ∉ gs ≫= user_ids) /\ m' !! u = m !! u.
Proof.
  revert m. induction gs as [|g gs IH]; intros m; simpl; [right; split; [by intros ?%elem_of_nil|done]|].
  destruct (IH (fold_left (fun m id => <[id := bot_initial_usd g]> m) (user_ids g) m))
    as [(g' & Hg & Hu & Hm)|[Hn Hm]].
  { left. exists g'. split; [by right|done]. }
  rewrite insert_same_lookup in Hm. case_bool_decide as Hg.
  - left. exists g. split; [left|done].
  - right. split; [|done]. rewrite elem_of_app. tauto.
Qed.

Lemma initial_usd_lookup ids caller usd configs u :
  let m := initial_usd_by_user_id ids caller usd configs in
  (u ∈ bot_ids configs -> exists g, g ∈ all_groups configs /\ u ∈ user_ids g /\ m !! u = Some (bot_initial_usd g)) /\
  (u = caller \/ u ∈ ids -> u ∉ bot_ids configs -> m !! u = Some usd).
Proof.
  intros m. subst m. unfold initial_usd_by_user_id, bot_ids.
  destruct (insert_groups_lookup (all_groups configs)
    (<[caller := usd]> (fold_left (fun m id => <[id := usd]> m) ids ∅)) u) as [(g & Hg & Hu & Hm)|[Hn Hm]].
  - split; [eauto|]. intros _ Hnot. exfalso. apply Hnot. apply list_elem_of_bind. eauto.
  - split; [done|]. intros Hor _. rewrite Hm. destruct (decide (u = caller)) as [->|Hne]; [by rewrite lookup_insert_eq|].
    rewrite lookup_insert_ne, insert_same_lookup by done. destruct Hor as [|Hin]; [done|].
    by rewrite bool_decide_eq_true_2.
Qed.

(** Everybody's balances. *)
Record funded (id caller usd : Z) (ids : list Z) (symbols : list string) (configs : list BotCreateConfig)
    (t : Tables) : Prop := {
  funded_usd : forall u, u = caller \/ u ∈ ids -> u ∉ bot_ids configs -> has_balance id u "USD" (usd * 10000) t;
  funded_bot_usd : forall u, u ∈ bot_ids configs -> exists g, g ∈ all_groups configs /\ u ∈ user_ids g /\
    has_balance id u "USD" (bot_initial_usd g * 10000) t;
  funded_users : forall u, u = caller \/ u ∈ ids -> u ∉ bot_ids configs -> no_shares id symbols u t;
  funded_bots : forall g u, g ∈ all_groups configs -> u ∈ user_ids g -> bot_shares id symbols g u t
}.

Lemma initial_balances_funded F id caller usd ids symbols configs : stable F ->
  triple (on F) (insert_initial_balances id caller usd ids symbols configs)
    (fun _ => on (fun t => F t /\ funded id caller usd ids symbols configs t)) anything.
Proof.
  intros HF. unfold insert_initial_balances.
  eapply triple_bind; [apply (establishes_for_unordered _ _ _ _ (insert_usd_establishes id));
                       [intros; apply has_balance_stable|done]|]. intros u1.
  eapply triple_bind; [apply (establishes_for_unordered _ _ _ _ (insert_zero_establishes id symbols));
                       [intros; apply no_shares_stable|]|].
  { apply stable_and; [done|]. apply stable_all. intros. apply has_balance_stable. }
  intros u2.
  eapply triple_conseq; [|apply (establishes_for _ (fun g t => forall u, u ∈ user_ids g -> bot_shares id symbols g u t))| |done].
  - done.
  - intros F' g HF'. apply establishes_for; [apply insert_bot_establishes|apply bot_shares_stable|done].
  - intros g. apply stable_all. intros. apply bot_shares_stable.
  - apply stable_and; [apply stable_and; [done|]|]; apply stable_all; intros;
      [apply has_balance_stable|apply no_shares_stable].
  - intros x w [[[Hw Husd] Hzero] Hbots]. split; [done|]. constructor.
    + intros u Hu Hb. destruct (initial_usd_lookup ids caller usd configs u) as [_ Hl].
      apply (Husd (u, usd)), elem_of_map_to_list. auto.
    + intros u Hu. destruct (initial_usd_lookup ids caller usd configs u) as [Hl _].
      destruct (Hl Hu) as (g & Hg & Hug & Hm). exists g. split_and!; [done..|].
      by apply (Husd (u, bot_initial_usd g)), elem_of_map_to_list.
    + intros u Hu Hb. apply Hzero. rewrite elem_of_elements. set_solver.
    + eauto.
Qed.
End Balances.

(** ** What a create request asks for, in terms of the tables *)

Definition named (t : Tables) (name : string) (id : Z) : Prop :=
  exists x, t_users t !! id = Some x /\ us_name x = name.

(** Users were added and nothing else has changed. *)
Definition only_users (t0 t : Tables) : Prop :=
  t_users t0 ⊆ t_users t /\ t = set_users (fun _ => t_users t) t0.

Definition user_stable (G : Tables -> Prop) : Prop := forall t t', t_users t ⊆ t_users t' -> G t -> G t'.

Lemma named_stable name id : user_stable (fun t => named t name id).
Proof. intros t t' Hsub (x & Hx & Hn). exists x. split; [by eapply lookup_weaken|done]. Qed.

Lemma named_all_stable names ids : user_stable (fun t => Forall2 (named t) names ids).
Proof. intros t t' Hsub Ht. eapply Forall2_impl; [exact Ht|]. intros. by eapply named_stable. Qed.

Lemma user_stable_and F G : user_stable F -> user_stable G -> user_stable (fun t => F t /\ G t).
Proof. intros HF HG t t' Hs [? ?]. split; [by eapply HF|by eapply HG]. Qed.

(** The bots of a group: [bot_count] names with consecutive numbers, and the users
    who have them. *)
Record staffed_group (t : Tables) (service : string) (from : Z) (g g' : BotGroupConfig) : Prop := {
  sg_tag : group_tag g' = group_tag g;
  sg_count : bot_count g' = bot_count g;
  sg_usd : bot_initial_usd g' = bot_initial_usd g;
  sg_inventory : initial_inventory g' = initial_inventory g;
  sg_inventories : inventory_by_symbol g' = inventory_by_symbol g;
  sg_params : deploy_params g' = deploy_params g;
  sg_names : usernames g' =
    usernames g ++ map (fun k => service +:+ to_string k)%string (seqZ from (Z.of_nat (Z.to_nat (bot_count g))));
  sg_ids : exists ids, user_ids g' = user_ids g ++ ids /\
    Forall2 (named t) (map (fun k => service +:+ to_string k)%string
                         (seqZ from (Z.of_nat (Z.to_nat (bot_count g))))) ids
}.

Inductive staffed (t : Tables) (service : string) : Z -> list BotGroupConfig -> list BotGroupConfig -> Prop :=
  | staffed_nil from : staffed t service from [] []
  | staffed_cons from g g' gs gs' :
      staffed_group t service from g g' ->
      staffed t service (from + Z.of_nat (Z.to_nat (bot_count g))) gs gs' ->
      staffed t service from (g :: gs) (g' :: gs').

Definition staffed_config (t : Tables) (c c' : BotCreateConfig) : Prop :=
  bot_service_name c' = bot_service_name c /\ staffed t (bot_service_name c) 1 (groups c) (groups c').

Lemma staffed_group_stable service from g g' : user_stable (fun t => staffed_group t service from g g').
Proof.
  intros t t' Hsub [? ? ? ? ? ? ? (ids & ? & ?)]. constructor; try done.
  exists ids. split; [done|]. by eapply named_all_stable.
Qed.

Lemma staffed_stable service from gs gs' : user_stable (fun t => staffed t service from gs gs').
Proof.
  intros t t' Hsub. induction 1 as [|from g g' gs gs' Hg _ IH]; constructor; [|done].
  by eapply staffed_group_stable.
Qed.

Lemma staffed_configs_stable cs cs' : user_stable (fun t => Forall2 (staffed_config t) cs cs').
Proof.
  intros t t' Hsub Ht. eapply Forall2_impl; [exact Ht|]. intros c c' [? ?].
  split; [done|by eapply staffed_stable].
Qed.

(** The tables while the users of a request are found and created. *)
Definition at_users (t0 : Tables) (G : Tables -> Prop) (t : Tables) : Prop :=
  integrity t /\ only_users t0 t /\ G t.

Section Users.
Context `{Postgres}.
Variable t0 : Tables.

Lemma only_users_add t id x :
  only_users t0 t -> t_users t !! id = None -> only_users t0 (set_users <[id := x]> t).
Proof.
  intros [Hsub Ht] Hid. split; simpl.
  - etrans; [exact Hsub|]. by apply insert_subseteq.
  - rewrite Ht. done.
Qed.

Lemma bot_user_named G name : user_stable G ->
  triple (on (at_users t0 G)) (bot_user_id name)
    (fun id => on (at_users t0 (fun t => G t /\ named t name id))) anything.
Proof.
  intros HG. unfold bot_user_id.
  eapply (triple_bind _ _ _ (fun found => on (at_users t0 (fun t => G t /\
            match found with Some u => named t name (uw_user_id u) | None => True end)))).
  - apply triple_db_or. intros w r c (Hi & Hu & Hg) Hr.
    pose proof (stored_read _ _ _ _ (read_get_user name (w_db w)) Hr) as Hst.
    destruct r as [found|e]; [|done]. unfold on, at_users. simpl. rewrite Hst. split_and!; try done.
    apply get_user_found in Hr. destruct found; [|done]. destruct Hr as (x & Hx & Hn & _). by exists x.
  - intros [u|]; [by apply triple_ret|].
    eapply (triple_bind _ _ _ (fun u => on (at_users t0 (fun t => G t /\ named t name (uw_user_id u))))).
    2: { intros u. by apply triple_ret. }
    apply triple_db_or. intros w r c (Hi & Hu & Hg & _) Hr. destruct r as [u|e]; [|done].
    pose proof (create_user_applies name kBotPassword (w_db w)) as Ha.
    pose proof (integrity_create_user name kBotPassword (w_db w) Hi) as Hi'. rewrite Hr in Ha, Hi'.
    simpl in Ha, Hi'. destruct Ha as (Hn & Hid & _ & Ht). unfold on, at_users. simpl. split; [done|]. rewrite Ht.
    split; [by apply only_users_add|]. split.
    + eapply HG; [|exact Hg]. simpl. by apply insert_subseteq.
    + exists (mkUserRec name kBotPassword). simpl. by rewrite lookup_insert_eq.
Qed.

(** The names of [n] bots from a number on. *)
Definition bot_name_run (service : string) (from : Z) (n : nat) : list string :=
  map (fun k => service +:+ to_string k)%string (seqZ from (Z.of_nat n)).

Lemma bot_name_run_S service from n :
  bot_name_run service from (S n) = (service +:+ to_string from)%string :: bot_name_run service (from + 1) n.
Proof.
  unfold bot_name_run. rewrite seqZ_cons by lia. simpl. by replace (Z.pred (Z.of_nat (S n))) with (Z.of_nat n) by lia.
Qed.

Definition run_group (service : string) (from : Z) (n : nat) (g : BotGroupConfig) (ids : list Z) : BotGroupConfig :=
  mkBotGroupConfig (group_tag g) (bot_count g) (bot_initial_usd g) (initial_inventory g) (inventory_by_symbol g)
    (deploy_params g) (user_ids g ++ ids) (usernames g ++ bot_name_run service from n).

Lemma group_users_run G service n : forall from g, user_stable G ->
  triple (on (at_users t0 G)) (group_users_loop service n from g)
    (fun res => on (at_users t0 (fun t => G t /\ res.1 = from + Z.of_nat n /\
       exists ids, res.2 = run_group service from n g ids /\ Forall2 (named t) (bot_name_run service from n) ids)))
    anything.
Proof.
  revert G. induction n as [|n IH]; intros G from g HG; cbn [group_users_loop].
  { apply triple_ret. intros w (Hi & Hu & Hg). split; [done|]. split; [done|]. split; [done|]. simpl. split; [lia|].
    exists []. split; [|done]. unfold run_group, bot_name_run. simpl. rewrite !app_nil_r. by destruct g. }
  eapply (triple_bind _ _ _ (fun next => on (at_users t0 (fun t => G t /\ next = from + 1)))).
  { apply triple_lift. intros next w Hn (Hi & Hu & Hg). int_inv. by split_and!. }
  intros next. set (name := (service +:+ to_string from)%string).
  eapply (triple_bind _ _ _ (fun id => on (at_users t0 (fun t => (G t /\ next = from + 1) /\ named t name id)))).
  { apply bot_user_named. apply user_stable_and; [done|]. by intros t t' _. }
  intros id. eapply triple_conseq; [|apply (IH (fun t => (G t /\ next = from + 1) /\ named t name id))| |done].
  - done.
  - apply user_stable_and; [|apply named_stable]. apply user_stable_and; [done|]. by intros t t' _.
  - intros [to g'] w (Hi & Hu & ((Hg & ->) & Hid) & Hto & ids & Hg' & Hids). simpl in *.
    split; [done|]. split; [done|]. split; [done|]. split; [lia|]. exists (id :: ids).
    rewrite bot_name_run_S. split; [|by constructor]. rewrite Hg'. unfold run_group, add_bot. simpl.
    by rewrite bot_name_run_S, <- !app_assoc.
Qed.

Lemma run_group_staffed t service from g ids :
  Forall2 (named t) (bot_name_run service from (Z.to_nat (bot_count g))) ids ->
  staffed_group t service from g (run_group service from (Z.to_nat (bot_count g)) g ids).
Proof. intros Hids. constructor; try done. by exists ids. Qed.

Lemma config_users_staffed G service gs : forall from, user_stable G ->
  triple (on (at_users t0 G)) (config_users_loop service from gs)
    (fun gs' => on (at_users t0 (fun t => G t /\ staffed t service from gs gs'))) anything.
Proof.
  revert G. induction gs as [|g gs IH]; intros G from HG; cbn [config_users_loop].
  { apply triple_ret. intros w (Hi & Hu & Hg). split_and!; try done. constructor. }
  eapply (triple_bind _ _ _ (fun res w => on (at_users t0 (fun t => G t /\ staffed_group t service from g res.2)) w /\
            res.1 = from + Z.of_nat (Z.to_nat (bot_count g)))).
  { eapply triple_conseq; [|by apply group_users_run| |done]; [done|].
    intros [to g'] w (Hi & Hu & Hg & Hto & ids & Hg' & Hids). simpl in *. split; [|done].
    split_and!; try done. rewrite Hg'. by apply run_group_staffed. }
  intros [next g']. apply triple_pure. simpl. intros ->.
  eapply (triple_bind _ _ _ (fun rest => on (at_users t0 (fun t => (G t /\ staffed_group t service from g g') /\
            staffed t service (from + Z.of_nat (Z.to_nat (bot_count g))) gs rest)))).
  - apply IH. apply user_stable_and; [done|apply staffed_group_stable].
  - intros rest. apply triple_ret. intros w (Hi & Hu & (Hg & Hsg) & Hs). split_and!; try done. by constructor.
Qed.

Lemma bot_users_staffed G cs : user_stable G ->
  triple (on (at_users t0 G)) (create_bot_users cs)
    (fun cs' => on (at_users t0 (fun t => G t /\ Forall2 (staffed_config t) cs cs'))) anything.
Proof.
  unfold create_bot_users. revert G. induction cs as [|c cs IH]; intros G HG; cbn [h_map].
  { apply triple_ret. intros w (Hi & Hu & Hg). by split_and!. }
  eapply triple_bind.
  { eapply triple_bind; [by apply config_users_staffed|]. intros gs'. apply triple_ret with
      (Q := fun c' => on (at_users t0 (fun t => G t /\ staffed_config t c c'))).
    intros w (Hi & Hu & Hg & Hs). by split_and!. }
  intros c'. eapply triple_bind.
  { apply IH. apply user_stable_and; [done|]. intros t t' Hsub [? ?]. split; [done|]. by eapply staffed_stable. }
  intros cs'. apply triple_ret. intros w (Hi & Hu & (Hg & Hc) & Hs). split_and!; try done. by constructor.
Qed.

Lemma resolve_named names : forall ids0 c ids c',
  resolve_user_ids_loop ids0 names c = (inl ids, c') ->
  exists ids1, ids = ids0 ++ ids1 /\ Forall2 (named (stored c)) names ids1.
Proof.
  induction names as [|n names IH]; intros ids0 c ids c'; simpl.
  { intros [= <- _]. exists []. by rewrite app_nil_r. }
  destruct (get_user n c) as [[[u|]|e] c1] eqn:Eg; [|done..]. intros Hl.
  pose proof (stored_read _ _ _ _ (read_get_user n c) Eg) as Hst.
  apply get_user_found in Eg as (x & Hx & Hn & _).
  destruct (IH _ _ _ _ Hl) as (ids1 & -> & Hids). exists (uw_user_id u :: ids1).
  rewrite <- app_assoc. split; [done|]. constructor; [by exists x|]. by rewrite <- Hst.
Qed.

Lemma members_named G names :
  triple (on (at_users t0 G)) (db_or error_reply (resolve_user_ids names))
    (fun ids => on (at_users t0 (fun t => G t /\ Forall2 (named t) names ids))) anything.
Proof.
  apply triple_db_or. intros w r c (Hi & Hu & Hg) Hr.
  pose proof (stored_read _ _ _ _ (read_resolve names (w_db w)) Hr) as Hst.
  destruct r as [ids|e]; [|done]. unfold on, at_users. simpl. rewrite Hst. split_and!; try done.
  by apply resolve_named in Hr as (ids1 & -> & Hids).
Qed.

(** The caller is the user whom the Authorization header names. *)
Lemma caller_named req :
  triple (on (fun t => integrity t /\ t = t0)) (authenticated req)
    (fun caller => on (at_users t0 (fun _ => exists name, bearer_name req = Some name /\ named t0 name caller)))
    anything.
Proof.
  unfold authenticated, authenticate_admin. destruct (bearer_name req) as [name|] eqn:En.
  2: { eapply triple_bind; [by apply triple_ret with (Q := fun id _ => id = -1)|].
       intros id w r w' -> Hr. simpl in Hr. unfold reply in Hr. by simplify_eq. }
  eapply (triple_bind _ _ _ (fun id w => on (fun t => integrity t /\ t = t0) w /\ (0 <= id -> named t0 name id))).
  - intros w r w' [Hi Hw] Hr. unfold mbind, h_bind, db in Hr.
    destruct (get_user name (w_db w)) as [res c] eqn:Eg.
    pose proof (stored_read _ _ _ _ (read_get_user name (w_db w)) Eg) as Hst.
    assert (on (fun t => integrity t /\ t = t0) (mkWorld c (w_quest w) (w_sent w))) as Hw'
      by (unfold on; simpl; by rewrite Hst).
    destruct res as [[u|]|e]; unfold mret, h_ret in Hr; simplify_eq; (split; [done|lia || intros _]).
    apply get_user_found in Eg as (x & Hx & Hn & _). by exists x.
  - intros id. destruct (id <? 0) eqn:Eid; [by apply triple_reply|].
    apply triple_ret. intros w [[Hi Hw] Hid]. unfold on, at_users. rewrite Hw in *.
    split; [done|]. split; [|exists name; split; [done|apply Hid; lia]]. split; [done|]. by destruct t0.
Qed.
End Users.

(** ** Creating a server *)
(** The server's row, its members and its services. *)
Record created `{Postgres} (id : Z) (name : string) (admin : Z) (symbols : list string) (description : string)
    (ids : list Z) (machine_id : Z) (ports : Ports) (t : Tables) : Prop := {
  created_row : exists srv, t_servers t !! id = Some srv /\ sv_name srv = name /\ sv_admin srv = Some admin /\
    described srv symbols description;
  created_members : forall u, (id, u) ∈ t_allowlist t <-> u ∈ ids;
  created_services : forall port type, t_services t !! (id, machine_id, port) = Some type <->
    (port, type) ∈ [(mdp_port ports, "mdp"); (me_port ports, "me"); (oms_port ports, "oms");
                    (gateway_port ports, "gateway"); (oracle_port ports, "oracle")]%string
}.

Lemma created_stable `{Postgres} id name admin symbols description ids machine_id ports :
  stable (created id name admin symbols description ids machine_id ports).
Proof. intros t t' [_ Hs Ha Hv _] []. constructor; by rewrite ?Hs, ?Ha, ?Hv. Qed.

Lemma add_services_in id services m x :
  NoDup (map (fun x => (si_machine_id x, si_port x)) services) -> x ∈ services ->
  add_services id services m !! (id, si_machine_id x, si_port x)
  = Some (service_enum_to_str (si_service_type x)).
Proof.
  unfold add_services. revert m. induction services as [|y services IH]; intros m Hnd Hx;
    [by apply elem_of_nil in Hx|]. simpl in *. apply NoDup_cons in Hnd as [Hy Hnd].
  apply elem_of_cons in Hx as [->|Hx]; [|by apply IH].
  assert (forall l (m : gmap (Z * Z * Z) string), (si_machine_id y, si_port y) ∉ map (fun x => (si_machine_id x, si_port x)) l ->
    foldl (fun m s => <[(id, si_machine_id s, si_port s) := service_enum_to_str (si_service_type s)]> m) m l
      !! (id, si_machine_id y, si_port y) = m !! (id, si_machine_id y, si_port y)) as Hskip.
  { induction l as [|z l IHl]; intros m' Hz; simpl; [done|]. rewrite IHl by (intros E; apply Hz; by right).
    apply lookup_insert_ne. intros [= E1 E2]. apply Hz. simpl. rewrite E1, E2. left. }
  rewrite Hskip by done. apply lookup_insert_eq.
Qed.

Section Creating.
Context `{Postgres} `{QuestServer} `{Boost} `{DeploymentServer} `{Unordered}.

(** A property of the tables that the handler keeps goes along. *)
Lemma triple_kept {A} (P F : Tables -> Prop) (m : H A) (Q : A -> Tables -> Prop) E :
  triple (on P) m (fun a => on (Q a)) E -> (forall t, P t -> F t) -> hkeeps F m ->
  triple (on P) m (fun a => on (fun t => Q a t /\ F t)) anything.
Proof.
  intros Hm HF Hk w r w' Hw Hr. pose proof (Hk w r w' (HF _ Hw) Hr). specialize (Hm w r w' Hw Hr).
  destruct r; [by split|done].
Qed.

Lemma create_server_created (F : Tables -> Prop) machine ports name admin d syms ids usd :
  user_stable F -> (forall t, F t -> NoDup (port_list ports)) ->
  triple (on (fun t => integrity t /\ F t))
    (db_or error_reply (create_server_with_services name admin d syms ids
                          (service_inserts (mw_machine_id machine) ports) usd))
    (fun id => on (fun t => F t /\ created id name admin syms d ids (mw_machine_id machine) ports t))
    anything.
Proof.
  intros HF Hnd. apply triple_db_or. intros w r c [Hw Hf] Hr. destruct r as [id|e]; [|done]. specialize (Hnd _ Hf).
  set (svs := service_inserts (mw_machine_id machine) ports) in *.
  pose proof (create_server_applies name admin d syms ids svs usd (w_db w)) as Heff. cbn zeta in Heff.
  rewrite Hr in Heff. simpl in Heff. destruct Heff as (srv & Hn & Ha & Hid & [_ Hdesc] & Ht).
  destruct (unused_server _ _ Hw Hid) as (Hal & _ & _ & Hv). unfold on. simpl. rewrite Ht.
  split; [by eapply HF; [|exact Hf]|].
  constructor; simpl.
  - exists srv. by rewrite lookup_insert_eq.
  - intros u. rewrite elem_of_union, members_set_in. simpl. split; [|tauto]. intros [[_ ?]|?]; [done|].
    by destruct (Hal u).
  - intros port type. assert (NoDup (map (fun x => (si_machine_id x, si_port x)) svs)) as Hkeys.
    { change (NoDup (map (fun p => (mw_machine_id machine, p)) (port_list ports))).
      apply NoDup_fmap_2; [|done]. by intros ? ? [= ->]. }
    split.
    + change (add_services id svs (t_services (stored (w_db w))) !! (id, mw_machine_id machine, port) = Some type ->
        (port, type) ∈ (fun x => (si_port x, service_enum_to_str (si_service_type x))) <$> svs).
      intros Hs. pose proof (add_services_inv _ _ _ _ _ _ _ Hs) as [Hold|(_ & x & Hx & Hm & Hp)].
      { by rewrite Hv in Hold. }
      rewrite <- Hm, <- Hp in Hs. rewrite add_services_in in Hs by done. injection Hs as <-.
      rewrite <- Hp. by apply (list_elem_of_fmap_2 (fun x => (si_port x, service_enum_to_str (si_service_type x)))).
    + intros Hin.
      change ((port, type) ∈ (fun x => (si_port x, service_enum_to_str (si_service_type x))) <$> svs) in Hin.
      apply list_elem_of_fmap in Hin as (x & [= -> ->] & Hx).
      pose proof (add_services_in id svs (t_services (stored (w_db w))) x Hkeys Hx) as Hs.
      assert (si_machine_id x = mw_machine_id machine) as Em; [|rewrite Em in Hs; exact Hs].
      unfold svs, service_inserts in Hx. rewrite !elem_of_cons, elem_of_nil in Hx.
      destruct_or?; by subst x.
Qed.

(** A part that sends nothing, before the rest of the handler. *)
Lemma triple_phase {A B} (P : World -> Prop) sent (m : H A) (f : A -> H B) R Q (E : Obj -> World -> Prop) :
  quiet m -> triple P m R anything -> (forall o w, w_sent w = sent -> contains "success" o = false -> E o w) ->
  (forall a, triple (fun w => R a w /\ w_sent w = sent) (f a) Q E) ->
  triple (fun w => P w /\ w_sent w = sent) (m ≫= f) Q E.
Proof.
  intros Hq Hm HE Hf. eapply triple_bind; [|exact Hf].
  eapply triple_conseq; [|apply (triple_quiet _ _ _ _ sent Hq Hm)| |]; [done|done|].
  intros o w (_ & ? & ?). auto.
Qed.

(** What the handler has decided when it inserts the server: all of it follows from
    the request and the tables [t0] in which it was found; [t] may have more users. *)
Record decided (req : Request) (t0 : Tables) (r : CreateRequest) (caller : Z) (configs : list BotCreateConfig)
    (ids : list Z) (machine : MachineRow) (ports : Ports) (t : Tables) : Prop := {
  dc_request : exists body, bj_parse (rq_body req) = inl (JObject body) /\ parse_create_request body = Ok (inl r);
  dc_caller : exists name, bearer_name req = Some name /\ named t0 name caller;
  dc_bots : Forall2 (staffed_config t) (rq_bot_configs r) configs;
  dc_members : Forall2 (named t) (with_bots (rq_allowlist_names r) configs) ids;
  dc_machine : registered machine t0;
  dc_ports : NoDup (port_list ports) /\ unused_ports machine ports t0
}.

Lemma decided_stable req t0 r caller configs ids machine ports :
  user_stable (decided req t0 r caller configs ids machine ports).
Proof.
  intros t t' Hsub []. constructor; try done; [by eapply staffed_configs_stable|by eapply named_all_stable].
Qed.

Lemma parse_body_reads P req :
  triple (on P) (parse_body req) (fun body => on (fun t => P t /\ bj_parse (rq_body req) = inl (JObject body))) anything.
Proof.
  unfold parse_body. destruct (bj_parse _) as [[| | | | | | |body]|]; try by apply triple_reply. by apply triple_ret.
Qed.

Lemma of_exp_reads {A} P (m : Exp A) : triple (on P) (of_exp m) (fun a => on (fun t => P t /\ m = Ok (inl a))) anything.
Proof. by apply triple_of_exp. Qed.

(** The balances and the server of a request with what was decided. *)
Definition registered_server (req : Request) (t0 : Tables) (r : CreateRequest) (caller : Z)
    (configs : list BotCreateConfig) (ids : list Z) (machine : MachineRow) (ports : Ports) (id : Z) (t : Tables) : Prop :=
  decided req t0 r caller configs ids machine ports t /\
  created id (rq_server_name r) caller (rq_symbols r) (rq_description r) ids
    (mw_machine_id machine) ports t.

Lemma registered_server_stable req t0 r caller configs ids machine ports id :
  stable (registered_server req t0 r caller configs ids machine ports id).
Proof.
  apply stable_and; [|apply created_stable]. intros t t' [Hu _ _ _ _]. apply decided_stable. by rewrite Hu.
Qed.

(** The outcome of a create request: nothing was deployed and no success is reported;
    or the server is in the database as it was decided, with its members, services and
    balances, and the services were deployed in order, all of them if success is reported. *)
Definition create_outcome (req : Request) (t0 : Tables) (sent : list Exchange) (o : Obj) (w : World) : Prop :=
  (w_sent w = sent /\ contains "success" o = false) \/
  exists r caller configs ids machine ports id ds,
    let names := with_bots (rq_allowlist_names r) configs in
    registered_server req t0 r caller configs ids machine ports id (stored (w_db w)) /\
    funded id caller (rq_initial_usd r) ids (rq_symbols r) configs (stored (w_db w)) /\
    (forall service g, bot_told (mw_ip machine) ports r service g
       (bot_params (mw_ip machine) ports (rq_symbols r) service g)) /\
    ds `prefix_of` deployments (mw_ip machine) ports r configs names /\
    w_sent w = sent ++ map (deployment_exchange (mw_ip machine) r) ds /\
    (contains "success" o = true ->
       ds = deployments (mw_ip machine) ports r configs names /\
       exists warning, o = create_reply warning id caller r names).

(** The second half: from the decision to the answer. *)
Lemma finish_outcome req t0 sent r caller configs ids machine ports :
  let names := with_bots (rq_allowlist_names r) configs in
  triple (fun w => on (fun t => integrity t /\ decided req t0 r caller configs ids machine ports t) w /\ w_sent w = sent)
    (server_id ← db_or error_reply
       (create_server_with_services (rq_server_name r) caller (rq_description r) (rq_symbols r) ids
          (service_inserts (mw_machine_id machine) ports) (rq_initial_usd r));
     _ ← insert_initial_balances server_id caller (rq_initial_usd r) ids (rq_symbols r) configs;
     _ ← deploy_all (mw_ip machine) ports r configs names;
     warning ← quest (create_quest_tables (rq_server_name r));
     mret (create_reply warning server_id caller r names))
    (create_outcome req t0 sent) (create_outcome req t0 sent).
Proof.
  intros names. apply triple_phase with
    (R := fun id => on (registered_server req t0 r caller configs ids machine ports id)); [quiet_tac| |by left|intros id].
  { apply create_server_created; [apply decided_stable|by intros t [_ _ _ _ _ [? _]]]. }
  apply triple_phase with (R := fun _ => on (fun t => registered_server req t0 r caller configs ids machine ports id t /\
    funded id caller (rq_initial_usd r) ids (rq_symbols r) configs t));
    [apply quiet_initial_balances|apply initial_balances_funded, registered_server_stable|by left|intros u1].
  eapply triple_bind.
  { eapply triple_conseq; [|apply (deploy_all_sends _ _ _ _ _ (fun t =>
      registered_server req t0 r caller configs ids machine ports id t /\
      funded id caller (rq_initial_usd r) ids (rq_symbols r) configs t) sent)| |]; [done|done|].
    intros o w ([Hc Hf] & Ho & ds & Hds & Hs). right.
    exists r, caller, configs, ids, machine, ports, id, ds. split_and!; try done; [apply bot_params_told|congruence]. }
  intros u2 w x w' [[Hc Hf] Hs] Hr. unfold mbind, h_bind, quest in Hr.
  destruct (create_quest_tables _ _) as [warning q]. unfold mret, h_ret in Hr. simplify_eq. right.
  exists r, caller, configs, ids, machine, ports, id, (deployments (mw_ip machine) ports r configs names).
  split_and!; try done; [apply bot_params_told|]. intros _. split; [done|]. by exists warning.
Qed.

Lemma create_outcome_holds req t0 sent :
  triple (fun w => on (fun t => integrity t /\ t = t0) w /\ w_sent w = sent) (handle_create_server req)
    (create_outcome req t0 sent) (create_outcome req t0 sent).
Proof.
  unfold handle_create_server.
  eapply triple_phase; [exact (quiet_authenticated req)|exact (caller_named t0 req)|by left|intros caller].
  eapply triple_phase; [exact (quiet_parse_body req)|exact (parse_body_reads _ req)|by left|intros body].
  eapply triple_phase; [exact (quiet_of_exp _)|exact (of_exp_reads _ _)|by left|intros r].
  set (G := fun _ : Tables => (exists name, bearer_name req = Some name /\ named t0 name caller) /\
    exists body, bj_parse (rq_body req) = inl (JObject body) /\ parse_create_request body = Ok (inl r)).
  assert (user_stable G) as HG by (by intros t t' _).
  eapply (triple_conseq _ (fun w => on (at_users t0 G) w /\ w_sent w = sent)); [| |intros a w Ha; exact Ha|intros o w Ho; exact Ho].
  { intros w [[[(Hi & Hu & Hc) Hb] Hr] Hs]. split; [|done].
    split; [done|]. split; [done|]. split; [done|]. by exists body. }
  eapply triple_phase; [exact (quiet_bot_users _)|exact (bot_users_staffed t0 G _ HG)|by left|intros configs].
  eapply triple_phase; [|apply (members_named t0)|by left|intros ids]; [quiet_tac|].
  set (P := at_users t0 (fun t => (G t /\ Forall2 (staffed_config t) (rq_bot_configs r) configs) /\
    Forall2 (named t) (with_bots (rq_allowlist_names r) configs) ids)).
  assert (forall t, P t -> integrity t) as HP by (by intros t [? _]).
  apply triple_phase with (R := fun m => on (fun t => P t /\ registered m t)); [apply quiet_choose_machine| |by left|intros machine].
  { eapply triple_conseq; [|apply (machine_chosen P)| |]; done. }
  apply triple_phase with (R := fun ports => on (fun t => (P t /\ NoDup (port_list ports) /\
    unused_ports machine ports t) /\ registered machine t)); [apply quiet_choose_ports| |by left|intros ports].
  { eapply triple_kept; [apply (ports_chosen P HP)|by intros t [_ ?]|apply hk_choose_ports]. }
  eapply triple_conseq; [|apply finish_outcome|intros a w Ha; exact Ha|intros o w Ho; exact Ho].
  intros w [[[(Hi & [_ Ht] & ([Hc Hb] & Hst) & Hm) [Hnd Hfree]] Hreg] Hs]. split; [|done]. split; [done|].
  constructor; try done; rewrite Ht in Hfree, Hreg; done.
Qed.
End Creating.

(** C13: nothing is deployed that the database does not know, and what the database
    knows is what was asked for.  Whatever a create request holds and whatever fails,
    one of two things is true when it has been answered.  Either the deployment
    server was not called and no success is reported.  Or the body of the request
    parses and was accepted, the caller is the user whom the Authorization header
    names, and the database holds: the server under the requested name with the
    caller as its administrator and the requested symbols and description; exactly
    the requested members and the bots, numbered per service, on its allowlist; its
    five services at distinct ports of a registered machine that no service of that
    machine had; a dollar balance for every member, no shares for members and the
    configured inventory for bots.  The services were deployed on that machine in the
    order market data, matching engine, order manager, gateway, oracle, bots, with
    the parameters that were requested; and if success is reported, all of them were. *)
Theorem create_server_outcome `{Postgres} `{QuestServer} `{Boost} `{DeploymentServer} `{Unordered}
    req w o w' :
  integrity (stored (w_db w)) -> run (handle_create_server req) w = Ok (o, w') ->
  create_outcome req (stored (w_db w)) (w_sent w) o w'.
Proof.
  intros Hi Hr. unfold run in Hr.
  destruct (handle_create_server req w) as [[r w1]|] eqn:E; [|done].
  pose proof (create_outcome_holds req (stored (w_db w)) (w_sent w) w r w1 (conj (conj Hi eq_refl) eq_refl) E) as Ho.
  by destruct r; simplify_eq.
Qed.

(** ** Removing a server *)
Section Removing.
Context `{Postgres} `{QuestServer} `{Boost} `{DeploymentServer} `{Unordered}.

Definition removal_body (name service_type : string) : string :=
  bj_serialize [("service_type", JString service_type); ("server_name", JString name)]%string.

(** The deployment server answered that it removed the service. *)
Definition confirmed (n : nat) (x : Exchange) : Prop :=
  exists body obj, deployment_reply n x = inl (200, body) /\ bj_parse body = inl (JObject obj) /\
    jfind "status" obj = Some (JString "removed").

(** These services were removed, one call each, in order. *)
Definition stopped (sent : list Exchange) (name : string) (types : list string) (w : World) : Prop :=
  exists xs, w_sent w = sent ++ xs /\ map ex_body xs = map (removal_body name) types /\
    Forall (fun x => ex_target x = "/remove_server"%string) xs /\
    forall i x, xs !! i = Some x -> confirmed (length sent + i) x.

(** An early return: the database is as it was, and no success is reported. *)
Definition refused (t : Tables) (o : Obj) (w : World) : Prop :=
  stored (w_db w) = t /\ contains "success" o = false.

Lemma call_confirmed ip payload service subject w r w' :
  deployment_call ip "/remove_server" payload service subject "Remove" "removed" w = Ok (inl r, w') ->
  w' = mkWorld (w_db w) (w_quest w) (w_sent w ++ [mkExchange ip "/remove_server" (bj_serialize payload)]) /\
  (r = inl tt -> confirmed (length (w_sent w)) (mkExchange ip "/remove_server" (bj_serialize payload))).
Proof.
  unfold deployment_call, exchange, mbind, h_bind, mret, h_ret. intros [= <- <-]. split; [done|].
  destruct (deployment_reply _ _) as [[status body]|] eqn:Er; [|done].
  destruct (Z.eqb_spec status 200) as [->|]; [|done]. simpl.
  destruct (bj_parse body) as [[| | | | | | |obj]|] eqn:Ep; try done.
  destruct (jfind "status" obj) as [[| | | | |s| |]|] eqn:Ej; try done.
  destruct (String.eqb_spec s "removed") as [->|]; [|done]. intros _. by exists body, obj.
Qed.

Lemma remove_simulation_stops t sent name types ip ty :
  triple (fun w => stored (w_db w) = t /\ stopped sent name types w)
    (remove_simulation_service ip name ty)
    (fun _ w => stored (w_db w) = t /\ stopped sent name (types ++ [ty]) w) (refused t).
Proof.
  intros w r w' [Hw (xs & Hs & Hb & Hx & Hc)] Hr. unfold remove_simulation_service in Hr.
  unfold mbind at 1, h_bind in Hr.
  destruct (deployment_call _ _ _ _ _ _ _ w) as [[[x|o] w1]|] eqn:E; [| |done].
  2: { unfold deployment_call, exchange, mbind, h_bind, mret, h_ret in E. done. }
  apply call_confirmed in E as [-> Hconf]. unfold expect in Hr.
  destruct x as [[]|e]; unfold mret, h_ret, reply in Hr; simplify_eq/=; [|done].
  split; [done|]. exists (xs ++ [mkExchange ip "/remove_server" (removal_body name ty)]). split_and!.
  - simpl. by rewrite Hs, app_assoc.
  - by rewrite !map_app, Hb.
  - apply Forall_app. split; [done|]. by repeat constructor.
  - intros i x [Hi|[Hlen Hi]]%lookup_app_Some; [by apply Hc|].
    apply list_lookup_singleton_Some in Hi as [Hi <-].
    replace (length sent + i)%nat with (length (w_sent w)); [by apply Hconf|].
    rewrite Hs, length_app. lia.
Qed.

Lemma remove_service_stops t sent name types ty svc :
  triple (fun w => stored (w_db w) = t /\ stopped sent name types w)
    (remove_service name ty svc)
    (fun _ w => stored (w_db w) = t /\ stopped sent name (types ++ [ty]) w) (refused t).
Proof.
  unfold remove_service.
  eapply (triple_bind _ _ _ (fun _ w => stored (w_db w) = t /\ stopped sent name types w)).
  - intros w r w' [Hw (xs & Hs & Hrest)] Hr.
    destruct (quiet_endpoint_of _ _ _ _ _ _ Hr) as [Hs' Ho].
    pose proof (hk_endpoint_of (fun t' => t' = t) name ty svc w r w' Hw Hr) as Hk.
    destruct r; [|done]. split; [done|]. exists xs. split; [congruence|done].
  - intros ep. apply remove_simulation_stops.
Qed.

Definition all_services : list string := ["mdp"; "me"; "oms"; "gateway"; "mm"; "nt"; "it"; "oracle"]%string.

Lemma stop_services_stops t sent name ip :
  triple (fun w => stored (w_db w) = t /\ w_sent w = sent) (stop_services name ip)
    (fun _ w => stored (w_db w) = t /\ stopped sent name all_services w) (refused t).
Proof.
  eapply (triple_conseq _ (fun w => stored (w_db w) = t /\ stopped sent name [] w)); [| |intros a w Ha; exact Ha|intros o w Ho; exact Ho].
  { intros w [Hw Hs]. split; [done|]. exists []. by rewrite app_nil_r. }
  unfold stop_services.
  do 4 (eapply triple_bind; [apply remove_service_stops|intros ?]).
  do 3 (eapply triple_bind; [apply remove_simulation_stops|intros ?]).
  apply remove_simulation_stops.
Qed.

(** The server that the request names is gone, and all its services were stopped. *)
Definition removed (t : Tables) (sent : list Exchange) (w : World) : Prop :=
  exists id srv, t_servers t !! id = Some srv /\ stored (w_db w) = without_server id t /\
    stopped sent (sv_name srv) all_services w.

Lemma remove_outcome_holds req t sent :
  triple (fun w => on (fun t' => t' = t) w /\ w_sent w = sent) (handle_remove_server req)
    (fun _ => removed t sent) (fun o w => refused t o w \/ removed t sent w).
Proof.
  unfold handle_remove_server.
  assert (forall A (m : H A), quiet m -> hkeeps (fun t' => t' = t) m ->
    triple (fun w => on (fun t' => t' = t) w /\ w_sent w = sent) m
      (fun _ w => on (fun t' => t' = t) w /\ w_sent w = sent)
      (fun o w => refused t o w \/ removed t sent w)) as Hphase.
  { intros A m Hq Hk. eapply triple_conseq; [|apply (triple_quiet _ _ _ _ sent Hq Hk)| |]; [done|done|].
    intros o w (? & _ & ?). by left. }
  eapply triple_bind; [apply Hphase; [apply quiet_authenticated|apply hk_authenticated]|intros caller].
  eapply triple_bind; [apply Hphase; [apply quiet_parse_body|apply hk_parse_body]|intros body].
  eapply triple_bind; [apply Hphase; [apply quiet_of_exp|apply hk_of_exp]|intros name].
  eapply triple_bind; [apply Hphase; [apply quiet_own_server|apply hk_own_server]|intros srv].
  eapply triple_bind; [apply Hphase; [apply quiet_endpoint_of|apply hk_endpoint_of]|intros ep].
  eapply triple_bind.
  { eapply triple_conseq; [|apply (stop_services_stops t sent name (ep_ip ep))| |]; [done|done|].
    intros o w Ho. by left. }
  intros u. eapply (triple_bind _ _ _ (fun _ w => stored (w_db w) = t /\ stopped sent name all_services w)).
  { intros w r w' Hw Hr. unfold quest in Hr. destruct (drop_quest_tables _ _). by simplify_eq/=. }
  intros dropped. set (warned := match dropped with inl _ => [] | inr e => [("warning"%string, JString e)] end).
  assert (contains "success" warned = false) as Hwarned by (by destruct dropped).
  eapply (triple_bind _ _ _ (fun (b : bool) w => if b then removed t sent w else stored (w_db w) = t)).
  - apply triple_db_or. intros w r c [Hw Hst] Hr.
    pose proof (delete_applies name (w_db w)) as Heff. rewrite Hr in Heff. simpl in Heff.
    assert ((exists id s, t_servers t !! id = Some s /\ sv_name s = name /\ stored c = without_server id t) ->
              removed t sent (mkWorld c (w_quest w) (w_sent w))) as Hdone.
    { intros (id & s & Hs & Hn & Hc). exists id, s. subst name. by split_and!. }
    destruct r as [[|]|e]; simpl in Heff; rewrite ?Hw in Heff; [by apply Hdone|done|].
    destruct Heff as [Heff|[[|] Heff]]; [|by right; apply Hdone|]; left; (split; [done|]);
      by destruct dropped.
  - intros [|]; simpl; [by apply triple_ret|]. apply triple_reply. intros w Hw. left. split; [done|].
    by destruct dropped.
Qed.
End Removing.

(** C30: A server is removed after its services.  When a remove request has been answered,
    either the database is as it was and no success is reported, or the server is
    gone with its members, balances and services and nothing else, and the
    deployment server has confirmed the removal of all eight services, one call each. *)
Theorem remove_server_outcome `{Postgres} `{QuestServer} `{Boost} `{DeploymentServer} `{Unordered}
    req w o w' :
  run (handle_remove_server req) w = Ok (o, w') ->
  (stored (w_db w') = stored (w_db w) /\ contains "success" o = false) \/
  removed (stored (w_db w)) (w_sent w) w'.
Proof.
  intros Hr. unfold run in Hr.
  destruct (handle_remove_server req w) as [[r w1]|] eqn:E; [|done].
  pose proof (remove_outcome_holds req (stored (w_db w)) (w_sent w) w r w1 (conj eq_refl eq_refl) E) as Ho.
  destruct r; simplify_eq; [by right|done].
Qed.

(** Alice's server, with its two bots. *)
Lemma create_server_outcome_witness :
  match created_world with Ok (o, w) => contains "success" o && (length (w_sent w) =? 6)%nat | Err _ => false end
    = true /\
  match created_world with
  | Ok (o, w) => @create_outcome healthy (sample_boost [] (JObject sample_body)) (post "/create_server" "alice")
      (stored (w_db sample_world)) [] o w
  | Err _ => True
  end.
Proof.
  split; [vm_compute; reflexivity|].
  destruct created_world as [[o w]|] eqn:E; [|done].
  apply (@create_server_outcome healthy sample_quest (sample_boost [] (JObject sample_body)) agreeing in_order
           (post "/create_server" "alice") sample_world o w); [apply sample_integrity|exact E].
Defined.

Lemma remove_server_outcome_witness :
  let r := run (@handle_remove_server healthy sample_quest (sample_boost [] (named_body "lab")) agreeing
                  (post "/remove_server" "alice")) lab_world in
  match r with Ok (o, w) => contains "success" o | Err _ => false end = true /\
  match r with
  | Ok (o, w) => (stored (w_db w) = stored (w_db lab_world) /\ contains "success" o = false) \/
      @removed (sample_boost [] (named_body "lab")) agreeing (stored (w_db lab_world)) (w_sent lab_world) w
  | Err _ => True
  end.
Proof.
  intros r. split; [vm_compute; reflexivity|].
  destruct r as [[o w]|] eqn:E; [|done].
  apply (@remove_server_outcome healthy sample_quest (sample_boost [] (named_body "lab")) agreeing in_order
           (post "/remove_server" "alice") lab_world o w); exact E.
Defined.

(** ** Accounts *)
(** Logging in.  The handler answers success exactly when an account with that name and
    password is stored, a wrong pair with its own message, and changes nothing; only
    a failure of the database is reported otherwise. *)
Theorem login_answers `{Postgres} params w o w' name password :
  find_param "user_name" params = Some name -> find_param "password" params = Some password ->
  run (handle_login params) w = Ok (o, w') ->
  let known := exists id, t_users (stored (w_db w)) !! id = Some (mkUserRec name password) in
  stored (w_db w') = stored (w_db w) /\
  (o = outcome_reply true "" /\ known \/
   o = outcome_reply false "Invalid username or password" /\ ~ known \/
   o = outcome_reply false "Internal server error").
Proof.
  intros Hn Hp Hr known. split; [by apply (run_keeps (fun t => t = stored (w_db w)) _ _ _ _ (hk_login _ params) Hr)|].
  unfold run, handle_login in Hr. rewrite Hn, Hp in Hr. simpl in Hr. unfold db_or, db, mbind, h_bind in Hr.
  destruct (authenticate_user name password (w_db w)) as [r c] eqn:Ea. unfold mret, h_ret in Hr.
  rewrite Ea in Hr. unfold expect, reply in Hr. destruct r as [[u|]|e]; simplify_eq/=.
  - apply authenticate_effect in Ea as [_ [Hu _]]. left. split; [done|]. by exists (uw_user_id u).
  - apply authenticate_effect in Ea as [_ Ea]. right. left. split; [done|]. intros [id Hid]. by apply (Ea id).
  - right. right. done.
Qed.

Lemma login_answers_witness :
  let params := [("user_name", "alice"); ("password", "wrong")]%string in
  let r := run (@handle_login healthy params) sample_world in
  match r with
  | Ok (o, w) => stored (w_db w) = sample_tables /\
      (o = outcome_reply true "" /\ (exists id, t_users sample_tables !! id = Some (mkUserRec "alice" "wrong")) \/
       o = outcome_reply false "Invalid username or password" /\
         ~ (exists id, t_users sample_tables !! id = Some (mkUserRec "alice" "wrong")) \/
       o = outcome_reply false "Internal server error")
  | Err _ => True
  end.
Proof.
  intros params r. destruct r as [[o w]|] eqn:E; [|done].
  apply (@login_answers healthy params sample_world o w "alice" "wrong"); [reflexivity|reflexivity|exact E].
Defined.

(** ** Shortcomings *)
(** A request to configure a server that does not mention the allowlist is answered
    with success, and nobody is a member any more. *)
Theorem configure_forgets_members :
  bool_decide ((1, 2) ∈ t_allowlist (stored (w_db lab_world))) = true /\
  match ask_lab "/configure_server" "alice" with
  | Ok (rs, w) => (rs_status rs =? 200) && bool_decide (t_allowlist (stored (w_db w)) = ∅)
  | Err _ => false
  end%bool = true.
Proof. split; vm_compute; reflexivity. Qed.

(** A create request whose deployment fails is answered with an error, but the server,
    its members and balances stay, and the name is taken for the next attempt. *)
Theorem failed_deployment_leaves_server :
  let create d w := run (@handle_create_server healthy sample_quest (sample_boost [] (JObject sample_body)) d
                           in_order (post "/create_server" "alice")) w in
  let first := create refusing sample_world in
  match first with
  | Ok (o, w) => contains "error" o && bool_decide (is_Some (t_servers (stored (w_db w)) !! 1))
  | Err _ => false
  end%bool = true /\
  match create agreeing (world_after first sample_world) with
  | Ok (o, _) => contains "error" o | Err _ => false
  end = true.
Proof. split; vm_compute; reflexivity. Qed.

(** A time in a request for historical trades is multiplied without a check. *)
Theorem history_overflows :
  @handle healthy sample_quest
    (sample_boost [("server", "lab"); ("symbol", "AAPL"); ("after_ts_ms", "9223372036854775807")]%string JNull)
    agreeing in_order (mkRequest verb_get "/get_historical_trades" None "") sample_world
  = Err SignedOverflow.
Proof. vm_compute. reflexivity. Qed.

(** A count of 1e300 passes the test for an integer and is then converted. *)
Theorem huge_count_undefined :
  parse_int_value (JDouble (of_int (10 ^ 300))) "mm.groups[0].count" 4 = Err BadConversion.
Proof. vm_compute. reflexivity. Qed.

(** Seven shares count as seven dollars in the total value of an account. *)
Theorem total_value_ignores_prices :
  total_value [mkBalanceRow "USD" 50000; mkBalanceRow "AAPL" 700] = of_int 12.
Proof. vm_compute. reflexivity. Qed.
