(* ===== verification/MarketDataHandler.v ===== *)
(** * The bots' view of the market

    [MarketDataHandler] of [simulation/traders/market_maker.h]: the order book and the
    recent trades of each ticker, from the messages of the market data processor, and
    the variance of the recent prices, which is kept up to date by adding and
    subtracting instead of being recomputed.  Messages are read with nlohmann/json,
    the interface [JsonInput]; a message whose fields cannot be read throws before
    anything is stored. *)

From S2P Require Import Prelude Core Doubles.
From Stdlib Require Import ZArith Lia Ascii String SpecFloat.
From stdpp Require Import base option list gmap strings.

Open Scope Z_scope.

(** ** Reading JSON *)
Class JsonInput := {
  input : Type;
  parse_input : string -> option input;        (** [None]: the parser throws *)
  in_contains : input -> string -> bool;
  in_string : input -> string -> option string;   (** [None]: the conversion throws *)
  in_double : input -> string -> option double;
  in_int64 : input -> string -> option Z;
  in_empty : input -> string -> bool;             (** [j[key].empty()] *)
  in_first : input -> string -> option input      (** [j[key][0]] *)
}.

Record OrderBookSnapshot := mkOrderBookSnapshot {
  best_bid_price : double;
  best_bid_qty : double;
  best_ask_price : double;
  best_ask_qty : double
}.

Definition empty_snapshot : OrderBookSnapshot := mkOrderBookSnapshot dzero dzero dzero dzero.

Definition mid_price (ob : OrderBookSnapshot) : double :=
  if (dlt dzero (best_bid_price ob) && dlt dzero (best_ask_price ob))%bool
  then ddiv (dadd (best_bid_price ob) (best_ask_price ob)) (of_int 2)
  else dzero.

Record SeenTrade := mkSeenTrade { st_price : double; st_quantity : double; st_timestamp : Z }.

(** ** The running sums

    Over any numbers with these operations: the code's are doubles; whole numbers
    show what the sums mean when nothing is rounded. *)
Class Num (T : Type) := {
  n_zero : T;
  n_add : T -> T -> T;
  n_sub : T -> T -> T;
  n_mul : T -> T -> T
}.

#[export] Instance double_num : Num double := {|
  n_zero := dzero; n_add := dadd; n_sub := dsub; n_mul := dmul
|}.
#[export] Instance Z_num : Num Z := {|
  n_zero := 0; n_add := Z.add; n_sub := Z.sub; n_mul := Z.mul
|}.

Record TradeStats (T : Type) := mkTradeStats { sum_x : T; sum_x2 : T; trade_count : Z }.
Arguments mkTradeStats {T} _ _ _.
Arguments sum_x {T} _.
Arguments sum_x2 {T} _.
Arguments trade_count {T} _.

Section Stats.
Context {T : Type} `{Num T}.

Definition no_stats : TradeStats T := mkTradeStats n_zero n_zero 0.

(** [count] is a [size_t]. *)
Definition add_trade (s : TradeStats T) (price : T) : TradeStats T :=
  mkTradeStats (n_add (sum_x s) price) (n_add (sum_x2 s) (n_mul price price)) (u64 (trade_count s + 1)).

Definition remove_trade (s : TradeStats T) (price : T) : TradeStats T :=
  mkTradeStats (n_sub (sum_x s) price) (n_sub (sum_x2 s) (n_mul price price)) (u64 (trade_count s - 1)).

Definition m_max_trades_window : nat := 1000.

(** The window and the sums after one more price. *)
Definition slide (window : list T) (s : TradeStats T) (price : T) : list T * TradeStats T :=
  let window := window ++ [price] in
  let s := add_trade s price in
  match window with
  | old :: rest =>
      if (m_max_trades_window <? length window)%nat then (rest, remove_trade s old) else (window, s)
  | [] => (window, s)
  end.
End Stats.

Definition get_variance (s : TradeStats double) : double :=
  if trade_count s <? 2 then dzero
  else
    let n := of_int (trade_count s) in
    let var := ddiv (dsub (sum_x2 s) (ddiv (dmul (sum_x s) (sum_x s)) n))
                 (of_int (trade_count s - 1)) in
    if dlt dzero var then var else dzero.

(** ** The handler *)
Record MarketDataHandler := mkMarketDataHandler {
  md_trades : gmap string (list SeenTrade);
  md_trade_stats : gmap string (TradeStats double);
  md_orderbooks : gmap string OrderBookSnapshot
}.

Definition new_handler : MarketDataHandler := mkMarketDataHandler ∅ ∅ ∅.

(** [operator[]] of a map gives an empty entry for a new key. *)
Definition get_latest_orderbook (h : MarketDataHandler) (ticker : string) : OrderBookSnapshot :=
  default empty_snapshot (md_orderbooks h !! ticker).
Definition get_recent_trades (h : MarketDataHandler) (ticker : string) : list SeenTrade :=
  default [] (md_trades h !! ticker).
Definition stats_of (h : MarketDataHandler) (ticker : string) : TradeStats double :=
  default no_stats (md_trade_stats h !! ticker).
Definition calculate_variance (h : MarketDataHandler) (ticker : string) : double :=
  get_variance (stats_of h ticker).

(** What a message says. *)
Inductive MarketEvent :=
  | SawTrade (ticker : string) (t : SeenTrade)
  | SawBook (ticker : string) (ob : OrderBookSnapshot).

Definition record_trade (h : MarketDataHandler) (ticker : string) (t : SeenTrade) : MarketDataHandler :=
  let trades := get_recent_trades h ticker ++ [t] in
  let stats := add_trade (stats_of h ticker) (st_price t) in
  let '(trades, stats) :=
    match trades with
    | old :: rest =>
        if (m_max_trades_window <? length trades)%nat
        then (rest, remove_trade stats (st_price old)) else (trades, stats)
    | [] => (trades, stats)
    end in
  mkMarketDataHandler (<[ticker := trades]> (md_trades h)) (<[ticker := stats]> (md_trade_stats h))
    (md_orderbooks h).

Definition apply_event (h : MarketDataHandler) (e : MarketEvent) : MarketDataHandler :=
  match e with
  | SawTrade ticker t => record_trade h ticker t
  | SawBook ticker ob =>
      mkMarketDataHandler (md_trades h) (md_trade_stats h) (<[ticker := ob]> (md_orderbooks h))
  end.

Section Messages.
Context `{JsonInput}.

(** The best level of a side: zero for a side that is missing or empty. *)
Definition read_side (j : input) (side : string) : option (double * double) :=
  if (in_contains j side && negb (in_empty j side))%bool then
    level ← in_first j side;
    price ← in_double level "price";
    quantity ← in_double level "quantity";
    Some (price, quantity)
  else Some (dzero, dzero).

Definition read_event (j : input) : option MarketEvent :=
  if in_contains j "ticker" then
    ticker ← in_string j "ticker";
    if in_contains j "trade_id" then
      price ← in_double j "price";
      quantity ← in_double j "quantity";
      timestamp ← (if in_contains j "create_timestamp" then in_int64 j "create_timestamp" else Some 0);
      Some (SawTrade ticker (mkSeenTrade price quantity timestamp))
    else
      '(bid_price, bid_qty) ← read_side j "bids";
      '(ask_price, ask_qty) ← read_side j "asks";
      Some (SawBook ticker (mkOrderBookSnapshot bid_price bid_qty ask_price ask_qty))
  else None.

(** [process_message]: anything that throws is logged. *)
Definition process_message (h : MarketDataHandler) (msg : string) : MarketDataHandler :=
  match parse_input msg ≫= read_event with
  | Some e => apply_event h e
  | None => h
  end.

(** The messages that [consume_loop] takes from the socket, in order. *)
Definition consume (h : MarketDataHandler) (msgs : list string) : MarketDataHandler :=
  fold_left process_message msgs h.
End Messages.

(** ** The window *)
Definition last_n {A} (n : nat) (l : list A) : list A := drop (length l - n) l.

Lemma last_n_snoc {A} n (l : list A) x : (0 < n)%nat ->
  last_n n (l ++ [x]) =
  (if (n <? length (last_n n l ++ [x]))%nat then drop 1 (last_n n l ++ [x]) else last_n n l ++ [x]).
Proof.
  intros Hn. unfold last_n. rewrite !length_app, length_drop. simpl.
  destruct (Nat.ltb_spec n (length l - (length l - n) + 1)) as [Hlt|Hge].
  - rewrite !drop_app_le by (rewrite ?length_drop; lia).
    rewrite skipn_skipn. f_equal. f_equal. lia.
  - rewrite drop_app_le by lia. do 2 f_equal. lia.
Qed.

Section Window.
Context {T : Type} `{Num T}.

Lemma slide_eq (window : list T) s price :
  slide window s price
  = (if (m_max_trades_window <? length (window ++ [price]))%nat
     then (drop 1 (window ++ [price]), remove_trade (add_trade s price) (default price (head window)))
     else (window ++ [price], add_trade s price)).
Proof. unfold slide. destruct window; simpl; [done|]. by destruct (_ <? _)%nat. Qed.

Definition slides (prices : list T) : list T * TradeStats T :=
  fold_left (fun ws p => slide ws.1 ws.2 p) prices ([], no_stats).

Lemma slides_snoc prices p : slides (prices ++ [p]) = slide (slides prices).1 (slides prices).2 p.
Proof. unfold slides. by rewrite fold_left_app. Qed.

(** The window is the last thousand prices, and the count its length. *)
Lemma slides_window prices :
  (slides prices).1 = last_n m_max_trades_window prices /\
  trade_count (slides prices).2 = Z.of_nat (length (last_n m_max_trades_window prices)).
Proof.
  induction prices as [|p prices [IHw IHc]] using rev_ind; [done|].
  rewrite slides_snoc, slide_eq, IHw, last_n_snoc by (unfold m_max_trades_window; lia).
  set (window := last_n m_max_trades_window prices) in *.
  assert (length window <= m_max_trades_window)%nat as Hlen.
  { unfold window, last_n. rewrite length_drop. lia. }
  assert (Z.of_nat m_max_trades_window = 1000) as H1000 by done.
  destruct (m_max_trades_window <? length (window ++ [p]))%nat eqn:E; simpl; (split; [done|]);
    rewrite IHc; unfold u64; rewrite length_app in E; simpl in E.
  - rewrite length_drop, length_app. simpl. apply Nat.ltb_lt in E.
    rewrite (Z.mod_small (Z.of_nat (length window) + 1)) by lia. rewrite Z.mod_small by lia. lia.
  - rewrite length_app. simpl. apply Nat.ltb_ge in E. rewrite Z.mod_small by lia. lia.
Qed.
End Window.

(** The reference: the sums of the window, recomputed. *)
Definition window_stats (window : list Z) : TradeStats Z :=
  mkTradeStats (sumZ id window) (sumZ (fun x => x * x) window) (Z.of_nat (length window)).

(** C35: the running sums.  However many prices arrive, the window holds the last thousand,
    and the count is its length (also for the doubles of the code); when nothing is
    rounded, the sums kept by adding the new price and subtracting the old one are the
    sums over the window. *)
Theorem sliding_window_sums :
  (forall prices : list double,
     (slides prices).1 = last_n m_max_trades_window prices /\
     trade_count (slides prices).2 = Z.of_nat (length (last_n m_max_trades_window prices))) /\
  (forall prices : list Z, (slides prices).2 = window_stats (last_n m_max_trades_window prices)).
Proof.
  split; [apply slides_window|].
  induction prices as [|p prices IH] using rev_ind; [done|].
  destruct (slides_window prices) as [Hw Hc]. destruct (slides_window (prices ++ [p])) as [_ Hc'].
  rewrite slides_snoc, slide_eq, Hw, IH in *. rewrite last_n_snoc in * by (unfold m_max_trades_window; lia).
  set (window := last_n m_max_trades_window prices) in *.
  destruct (m_max_trades_window <? length (window ++ [p]))%nat eqn:E; simpl in *.
  - destruct window as [|x window]; [done|]. unfold window_stats, remove_trade, add_trade in *. simpl in *.
    change (drop 0 ?l) with l in *. rewrite Hc'. f_equal; rewrite ?sumZ_app; simpl; unfold id in *; lia.
  - unfold window_stats, add_trade in *. simpl in *. rewrite Hc'. f_equal; rewrite ?sumZ_app; simpl; unfold id in *; lia.
Qed.

(** ** The handler keeps such a window for every ticker *)
Definition trades_of (ticker : string) (events : list MarketEvent) : list SeenTrade :=
  omap (fun e => match e with
                 | SawTrade k t => if String.eqb k ticker then Some t else None
                 | SawBook _ _ => None
                 end) events.

Definition last_book (ticker : string) (events : list MarketEvent) : OrderBookSnapshot :=
  default empty_snapshot (last (omap (fun e => match e with
                                               | SawBook k ob => if String.eqb k ticker then Some ob else None
                                               | SawTrade _ _ => None
                                               end) events)).

Section View.
Context `{JsonInput}.

Definition events_of (msgs : list string) : list MarketEvent :=
  omap (fun msg => parse_input msg ≫= read_event) msgs.

Lemma consume_events h msgs : consume h msgs = fold_left apply_event (events_of msgs) h.
Proof.
  revert h. induction msgs as [|m msgs IH]; intros h; [done|]. simpl. rewrite IH. unfold process_message.
  by destruct (parse_input m ≫= read_event).
Qed.

(** What the handler knows of a ticker. *)
Definition knows (h : MarketDataHandler) (ticker : string) (events : list MarketEvent) : Prop :=
  get_recent_trades h ticker = last_n m_max_trades_window (trades_of ticker events) /\
  stats_of h ticker = (slides (map st_price (trades_of ticker events))).2 /\
  get_latest_orderbook h ticker = last_book ticker events.

Lemma last_n_map {A B} (f : A -> B) n l : map f (last_n n l) = last_n n (map f l).
Proof. unfold last_n. by rewrite skipn_map, length_map. Qed.

Lemma trades_of_snoc ticker events e : trades_of ticker (events ++ [e]) =
  trades_of ticker events ++ trades_of ticker [e].
Proof. unfold trades_of. by rewrite omap_app. Qed.

Lemma last_book_snoc ticker events e : last_book ticker (events ++ [e]) =
  match e with
  | SawBook k ob => if String.eqb k ticker then ob else last_book ticker events
  | SawTrade _ _ => last_book ticker events
  end.
Proof.
  unfold last_book. rewrite omap_app. simpl.
  destruct e as [k t|k ob]; [by rewrite app_nil_r|]. destruct (String.eqb k ticker); [|by rewrite app_nil_r].
  by rewrite last_snoc.
Qed.

(** A trade of the ticker itself slides its window. *)
Lemma record_trade_slides h ticker t :
  let ws := slide (map st_price (get_recent_trades h ticker)) (stats_of h ticker) (st_price t) in
  stats_of (record_trade h ticker t) ticker = ws.2 /\
  get_recent_trades (record_trade h ticker t) ticker =
    (let l := get_recent_trades h ticker ++ [t] in
     if (m_max_trades_window <? length l)%nat then drop 1 l else l).
Proof.
  intros ws. unfold ws, slide, record_trade. set (l := get_recent_trades h ticker).
  assert (map st_price l ++ [st_price t] = map st_price (l ++ [t])) as -> by (by rewrite map_app).
  destruct (l ++ [t]) as [|x rest] eqn:E; [by destruct l|]. cbn [map]. rewrite !(length_cons _ (map _ _)), length_map.
  change (S (length rest)) with (length (x :: rest)).
  destruct (m_max_trades_window <? length (x :: rest))%nat eqn:El; unfold stats_of, get_recent_trades; simpl;
    rewrite !lookup_insert_eq; simpl; rewrite ?El; done.
Qed.

Lemma knows_step h ticker events e : knows h ticker events -> knows (apply_event h e) ticker (events ++ [e]).
Proof.
  intros (Ht & Hs & Hb). unfold knows. rewrite trades_of_snoc, last_book_snoc.
  destruct e as [k t|k ob]; simpl; destruct (String.eqb_spec k ticker) as [->|Hk]; simpl;
    rewrite ?app_nil_r.
  - destruct (record_trade_slides h ticker t) as [H1 H2]. split_and!.
    + rewrite H2, Ht. by rewrite last_n_snoc by (unfold m_max_trades_window; lia).
    + rewrite H1, Ht, Hs, last_n_map, map_app. change (map st_price [t]) with [st_price t]. rewrite slides_snoc.
      by rewrite (proj1 (slides_window (map st_price (trades_of ticker events)))).
    + unfold record_trade. by destruct (match _ with [] => _ | _ => _ end).
  - unfold record_trade. destruct (match _ with [] => _ | _ => _ end).
    unfold get_recent_trades, stats_of, get_latest_orderbook in *. simpl. by rewrite !lookup_insert_ne.
  - unfold get_recent_trades, stats_of, get_latest_orderbook in *. simpl. by rewrite lookup_insert_eq.
  - unfold get_recent_trades, stats_of, get_latest_orderbook in *. simpl. by rewrite lookup_insert_ne.
Qed.

Lemma knows_all events ticker : knows (fold_left apply_event events new_handler) ticker events.
Proof.
  induction events as [|e events IH] using rev_ind.
  - unfold knows, get_recent_trades, stats_of, get_latest_orderbook. simpl. by rewrite !lookup_empty.
  - rewrite fold_left_app. simpl. by apply knows_step.
Qed.

Lemma variance_sign s : deq (get_variance s) dzero = true \/ dlt dzero (get_variance s) = true.
Proof.
  unfold get_variance. destruct (_ <? 2); [by left|]. destruct (dlt dzero _) eqn:E; [by right|by left].
Qed.

(** What a bot sees.  After any messages, readable or not, the recent trades of a
    ticker are its last thousand, its order book is the last one received (empty
    before), and its variance is that of the running sums over those trades: never
    negative and never undefined. *)
Theorem handler_view msgs ticker :
  let h := consume new_handler msgs in
  get_recent_trades h ticker = last_n m_max_trades_window (trades_of ticker (events_of msgs)) /\
  get_latest_orderbook h ticker = last_book ticker (events_of msgs) /\
  calculate_variance h ticker = get_variance (slides (map st_price (trades_of ticker (events_of msgs)))).2 /\
  (deq (calculate_variance h ticker) dzero = true \/ dlt dzero (calculate_variance h ticker) = true).
Proof.
  intros h. unfold h. rewrite consume_events.
  destruct (knows_all (events_of msgs) ticker) as (Ht & Hs & Hb). split_and!; [done|done| |apply variance_sign].
  unfold calculate_variance. by rewrite Hs.
Qed.
End View.
