(* ===== verification/MarketMaker.v ===== *)
(** * The market maker

    [MMFixClient] and [MarketMaker] of [simulation/traders/market_maker.h]: quotes
    around a reservation price, replaced at every round, and the client that remembers
    which orders are out and how much is held.  [std::log] is the interface [Libm];
    the time of a message is a function of its order number, the elapsed time of a
    round is an argument. *)

From S2P Require Import Prelude Core Doubles Fix Gateway MarketData FixClient MarketDataHandler.
From Stdlib Require Import ZArith Lia Ascii String SpecFloat.
From stdpp Require Import base option list gmap strings fin_maps.

Open Scope Z_scope.

Class Libm := { dlog : double -> double; dpow : double -> double -> double; dsqrt : double -> double }.

(** [++m_order_id_counter] of a [std::atomic<int>] wraps around. *)
Definition next_id (counter : Z) : Z := wrap32 (counter + 1).

Record MMFixClient (F : Type) := mkMMFixClient {
  mm_fix : FixClient F;
  mm_inventory : gmap string double;
  mm_active_orders : gmap string (list (Z * OrderSide));
  mm_order_id_counter : Z
}.
Arguments mkMMFixClient {F} _ _ _ _.
Arguments mm_fix {F} _.
Arguments mm_inventory {F} _.
Arguments mm_active_orders {F} _.
Arguments mm_order_id_counter {F} _.

Section Maker.
Context {F : Type} `{FixLibrary} `{FixSession F} `{Libm}.
Implicit Types (c : MMFixClient F).

(** The text of the time at which request number [id] is sent. *)
Variable time_of : Z -> string.

Definition active_orders c (ticker : string) : list (Z * OrderSide) :=
  default [] (mm_active_orders c !! ticker).

Definition get_inventory c (ticker : string) : double := default dzero (mm_inventory c !! ticker).

Definition set_inventory c (ticker : string) (inventory : double) : MMFixClient F :=
  mkMMFixClient (mm_fix c) (<[ticker := inventory]> (mm_inventory c)) (mm_active_orders c)
    (mm_order_id_counter c).

(** The result of [submit_limit_order] is ignored. *)
Definition send_order c (ticker : string) (price quantity : double) (side : string) : MMFixClient F :=
  if negb (is_connected (mm_fix c)) then c
  else
    let order_side := if String.eqb side "BUY" then BUY else SELL in
    let client_order_id := next_id (mm_order_id_counter c) in
    let '(fix_, _) := submit_limit_order (time_of client_order_id) (mm_fix c) ticker price quantity
                        order_side GTC client_order_id in
    mkMMFixClient fix_ (mm_inventory c)
      (<[ticker := active_orders c ticker ++ [(client_order_id, order_side)]]> (mm_active_orders c))
      client_order_id.

Fixpoint cancel_loop c (ticker : string) (orders : list (Z * OrderSide)) : MMFixClient F :=
  match orders with
  | [] => c
  | (id, side) :: orders' =>
      let cancel_id := next_id (mm_order_id_counter c) in
      let '(fix_, _) := client_cancel_order (time_of cancel_id) (mm_fix c) ticker side id cancel_id in
      cancel_loop (mkMMFixClient fix_ (mm_inventory c) (mm_active_orders c) cancel_id) ticker orders'
  end.

Definition cancel_all_orders c (ticker : string) : MMFixClient F :=
  let c := cancel_loop c ticker (active_orders c ticker) in
  mkMMFixClient (mm_fix c) (mm_inventory c) (<[ticker := []]> (mm_active_orders c)) (mm_order_id_counter c).

(** [on_order_update]; [unassigned] is what is found in the status of a report to
    which none was assigned. *)
Definition on_order_update (unassigned : OrderStatus) c (report : ClientReport) : MMFixClient F :=
  match default unassigned (rp_status report) with
  | FILLED | PARTIALLY_FILLED =>
      let q := get_inventory c (rp_ticker report) in
      let q := match rp_side report with
               | BUY => dadd q (rp_filled_qty report)
               | SELL => dsub q (rp_filled_qty report)
               end in
      set_inventory c (rp_ticker report) q
  | _ => c
  end.

(** ** MarketMaker *)
Record MakerParams := mkMakerParams {
  m_initial_inventory : double;
  m_lot_size : double;
  m_gamma : double;
  m_k : double;
  m_terminal_time : double
}.

Variable params : MakerParams.

Definition maker_start (tickers : list string) c : MMFixClient F :=
  fold_left (fun c ticker => set_inventory c ticker (m_initial_inventory params)) tickers c.

Record Quote := mkQuote { optimal_bid : double; optimal_ask : double; optimal_spread : double }.

Definition used_mid_price (ob : OrderBookSnapshot) : double :=
  let mid := mid_price ob in if deq mid dzero then of_int 100 else mid.

Definition used_variance (variance : double) : double :=
  if deq variance dzero then decimal 1 100 else variance.

(** [elapsed]: seconds since the start. *)
Definition quote (ob : OrderBookSnapshot) (variance q elapsed : double) : Quote :=
  let mid := used_mid_price ob in
  let variance := used_variance variance in
  let q_centered := dsub q (m_initial_inventory params) in
  let time_left := dmax dzero (ddiv (dsub (m_terminal_time params) elapsed) (m_terminal_time params)) in
  let reservation_price :=
    dsub mid (dmul (dmul (dmul q_centered (m_gamma params)) variance) time_left) in
  let spread := dadd (dmul (dmul (m_gamma params) variance) time_left)
                  (dmul (ddiv (of_int 2) (m_gamma params))
                     (dlog (dadd (of_int 1) (ddiv (m_gamma params) (m_k params))))) in
  mkQuote (dsub reservation_price (ddiv spread (of_int 2)))
    (dadd reservation_price (ddiv spread (of_int 2))) spread.

Definition num_levels : nat := 5.

Definition place_level (ticker : string) (bid_price ask_price level_spacing : double)
    c (i : nat) : MMFixClient F :=
  let n := of_int (Z.of_nat i) in
  let current_bid := dsub bid_price (dmul n level_spacing) in
  let current_ask := dadd ask_price (dmul n level_spacing) in
  let current_qty := dmul (m_lot_size params) (dadd (of_int 1) (dmul n (decimal 5 10))) in
  send_order (send_order c ticker current_bid current_qty "BUY") ticker current_ask current_qty "SELL".

Definition place_quotes (ticker : string) (bid_price ask_price spread : double) c : MMFixClient F :=
  let c := cancel_all_orders c ticker in
  let level_spacing := dmax (decimal 5 100) (dmul spread (decimal 25 100)) in
  fold_left (place_level ticker bid_price ask_price level_spacing) (seq 0 num_levels) c.

Definition make_market (md : MarketDataHandler) (elapsed : double) (ticker : string) c : MMFixClient F :=
  let q := quote (get_latest_orderbook md ticker) (calculate_variance md ticker)
             (get_inventory c ticker) elapsed in
  place_quotes ticker (optimal_bid q) (optimal_ask q) (optimal_spread q) c.

(** One turn of [run_loop] over the tickers, each with what is known and the time
    at that moment. *)
Definition maker_round (now : string -> MarketDataHandler * double) (tickers : list string) c
    : MMFixClient F :=
  fold_left (fun c ticker => make_market (now ticker).1 (now ticker).2 ticker c) tickers c.
End Maker.

(** ** Requests and connections *)
Section Requests.
Context {F : Type} `{FixLibrary} `{FixSession F} `{FixSessionLaws F}.
Implicit Types (fc : FixClient F).

Lemma submit_connected fc m : is_connected (submit fc m).1 = is_connected fc.
Proof. unfold submit. destruct (get_session_id fc) as [[s t]|]; [|done]. by destruct (fs_send _ _ _ _). Qed.

Lemma limit_connected t fc k p q s tif id :
  is_connected (submit_limit_order t fc k p q s tif id).1 = is_connected fc.
Proof.
  unfold submit_limit_order. destruct (is_connected fc) eqn:E; [|done].
  destruct (decide _); [|done]. by rewrite submit_connected.
Qed.

Lemma cancel_connected t fc k s orig id :
  is_connected (client_cancel_order t fc k s orig id).1 = is_connected fc.
Proof.
  unfold client_cancel_order. destruct (is_connected fc) eqn:E; [|done]. by rewrite submit_connected.
Qed.
End Requests.

Lemma next_id_small n : 0 <= n < INT_MAX -> next_id n = n + 1.
Proof. unfold next_id, wrap32, INT_MAX. intros. rewrite Z.mod_small by lia. by rewrite (proj2 (Z.ltb_lt _ _)) by lia. Qed.

Section Orders.
Context {F : Type} `{FixLibrary} `{FixSession F} `{Libm}.
Variables (time_of : Z -> string) (params : MakerParams).
Implicit Types (c : MMFixClient F).

Lemma cancel_loop_spec c ticker orders :
  mm_inventory (cancel_loop time_of c ticker orders) = mm_inventory c /\
  mm_active_orders (cancel_loop time_of c ticker orders) = mm_active_orders c /\
  is_connected (mm_fix (cancel_loop time_of c ticker orders)) = is_connected (mm_fix c) /\
  (0 <= mm_order_id_counter c -> mm_order_id_counter c + Z.of_nat (length orders) <= INT_MAX ->
   mm_order_id_counter (cancel_loop time_of c ticker orders)
   = mm_order_id_counter c + Z.of_nat (length orders)).
Proof.
  revert c. induction orders as [|[id side] orders IH]; intros c; cbn [cancel_loop].
  { split_and!; try done. simpl. lia. }
  pose proof (cancel_connected (time_of (next_id (mm_order_id_counter c))) (mm_fix c) ticker side id
                (next_id (mm_order_id_counter c))) as Hc.
  destruct (client_cancel_order _ _ _ _ _ _) as [fix_ ok]. simpl in Hc.
  destruct (IH (mkMMFixClient fix_ (mm_inventory c) (mm_active_orders c) (next_id (mm_order_id_counter c))))
    as (I1 & I2 & I3 & I4). simpl in *. split_and!; [done|done|congruence|].
  intros Hpos Hmax. rewrite I4; rewrite next_id_small by lia; lia.
Qed.

(** Sending while connected. *)
Lemma send_order_spec c ticker price qty side :
  is_connected (mm_fix c) = true -> 0 <= mm_order_id_counter c < INT_MAX ->
  let c' := send_order time_of c ticker price qty side in
  let id := mm_order_id_counter c + 1 in
  mm_inventory c' = mm_inventory c /\ is_connected (mm_fix c') = true /\ mm_order_id_counter c' = id /\
  mm_active_orders c' = <[ticker := active_orders c ticker ++
                                     [(id, if String.eqb side "BUY" then BUY else SELL)]]> (mm_active_orders c).
Proof.
  intros Hconn Hn c' id. unfold c', send_order. rewrite Hconn, next_id_small by done. cbn [negb].
  pose proof (limit_connected (time_of id) (mm_fix c) ticker price qty
                (if String.eqb side "BUY" then BUY else SELL) GTC id) as Hc. unfold id in *.
  destruct (submit_limit_order _ _ _ _ _ _ _ _) as [fix_ ok]. simpl in *. split_and!; congruence || done.
Qed.

(** The orders that five levels add. *)
Definition level_orders (n : Z) (levels : nat) : list (Z * OrderSide) :=
  seq 0 levels ≫= (fun i => [(n + 2 * Z.of_nat i + 1, BUY); (n + 2 * Z.of_nat i + 2, SELL)]).

Lemma level_orders_S n levels : level_orders n (S levels) =
  level_orders n levels ++ [(n + 2 * Z.of_nat levels + 1, BUY); (n + 2 * Z.of_nat levels + 2, SELL)].
Proof. unfold level_orders. rewrite seq_S, bind_app. done. Qed.

Lemma place_levels_spec ticker bid ask spacing c levels :
  is_connected (mm_fix c) = true -> 0 <= mm_order_id_counter c ->
  mm_order_id_counter c + 2 * Z.of_nat levels <= INT_MAX ->
  let c' := fold_left (place_level time_of params ticker bid ask spacing) (seq 0 levels) c in
  mm_inventory c' = mm_inventory c /\ is_connected (mm_fix c') = true /\
  mm_order_id_counter c' = mm_order_id_counter c + 2 * Z.of_nat levels /\
  (forall k, active_orders c' k = if String.eqb ticker k
     then active_orders c k ++ level_orders (mm_order_id_counter c) levels else active_orders c k).
Proof.
  intros Hconn Hpos Hmax. induction levels as [|levels IH].
  { simpl. split_and!; [done|done|lia|]. intros k. destruct (String.eqb ticker k); by rewrite ?app_nil_r. }
  destruct IH as (I1 & I2 & I3 & I4); [lia|]. cbn zeta. rewrite seq_S, fold_left_app. cbn [fold_left plus].
  set (c1 := fold_left _ (seq 0 levels) c) in *. unfold place_level.
  match goal with |- context [send_order time_of (send_order time_of c1 ticker ?p ?q "BUY") ticker ?p' _ "SELL"] =>
    destruct (send_order_spec c1 ticker p q "BUY" I2) as (J1 & J2 & J3 & J4); [lia|];
    set (c2 := send_order time_of c1 ticker p q "BUY") in *;
    destruct (send_order_spec c2 ticker p' q "SELL" J2) as (K1 & K2 & K3 & K4); [lia|];
    set (c3 := send_order time_of c2 ticker p' q "SELL") in * end.
  split_and!; [congruence|done|lia|]. intros k. unfold active_orders at 1. rewrite K4.
  destruct (String.eqb_spec ticker k) as [<-|Hk].
  - rewrite lookup_insert_eq. simpl. unfold active_orders at 1. rewrite J4, lookup_insert_eq. simpl.
    specialize (I4 ticker). rewrite String.eqb_refl in I4. rewrite I4, level_orders_S, <- !app_assoc. simpl.
    do 2 f_equal. rewrite J3, I3. by replace (mm_order_id_counter c + 2 * Z.of_nat levels + 1 + 1)
      with (mm_order_id_counter c + 2 * Z.of_nat levels + 2) by lia.
  - rewrite lookup_insert_ne by done. rewrite J4, lookup_insert_ne by done.
    specialize (I4 k). by rewrite (proj2 (String.eqb_neq _ _)) in I4 by done.
Qed.

Lemma cancel_all_spec c ticker :
  0 <= mm_order_id_counter c ->
  mm_order_id_counter c + Z.of_nat (length (active_orders c ticker)) <= INT_MAX ->
  let c' := cancel_all_orders time_of c ticker in
  mm_inventory c' = mm_inventory c /\ is_connected (mm_fix c') = is_connected (mm_fix c) /\
  mm_order_id_counter c' = mm_order_id_counter c + Z.of_nat (length (active_orders c ticker)) /\
  (forall k, active_orders c' k = if String.eqb ticker k then [] else active_orders c k).
Proof.
  intros Hpos Hmax c'. destruct (cancel_loop_spec c ticker (active_orders c ticker)) as (I1 & I2 & I3 & I4).
  unfold c', cancel_all_orders. simpl. split_and!; [done|done|by apply I4|].
  intros k. unfold active_orders at 1. cbn [mm_active_orders]. rewrite I2.
  destruct (String.eqb_spec ticker k) as [<-|Hk]; [by rewrite lookup_insert_eq|by rewrite lookup_insert_ne].
Qed.

(** What one round of quotes does while connected. *)
Lemma place_quotes_spec ticker bid ask spread c :
  is_connected (mm_fix c) = true -> 0 <= mm_order_id_counter c ->
  let n := mm_order_id_counter c + Z.of_nat (length (active_orders c ticker)) in
  n + 10 <= INT_MAX ->
  let c' := place_quotes time_of params ticker bid ask spread c in
  mm_inventory c' = mm_inventory c /\ is_connected (mm_fix c') = true /\ mm_order_id_counter c' = n + 10 /\
  (forall k, active_orders c' k = if String.eqb ticker k then level_orders n num_levels else active_orders c k).
Proof.
  intros Hconn Hpos n Hmax c'. unfold c', place_quotes.
  destruct (cancel_all_spec c ticker Hpos) as (I1 & I2 & I3 & I4); [unfold n in *; lia|].
  set (c1 := cancel_all_orders time_of c ticker) in *.
  set (spacing := dmax _ _).
  destruct (place_levels_spec ticker bid ask spacing c1 num_levels) as (J1 & J2 & J3 & J4);
    [congruence|lia|unfold num_levels, n in *; lia|].
  fold n in I3. rewrite I3 in *.
  split_and!; [congruence|done|rewrite J3; unfold num_levels; lia|].
  intros k. rewrite J4, I4. by destruct (String.eqb ticker k).
Qed.

(** Every order that is out has a number of its own, among those used so far. *)
Record numbered c : Prop := {
  nb_counter : 0 <= mm_order_id_counter c;
  nb_range : forall k o, o ∈ active_orders c k -> 1 <= o.1 <= mm_order_id_counter c;
  nb_distinct : forall k k' o o', o ∈ active_orders c k -> o' ∈ active_orders c k' -> o.1 = o'.1 ->
    k = k' /\ o = o'
}.

Lemma level_orders_in n levels o : o ∈ level_orders n levels ->
  exists i, (i < levels)%nat /\ (o = (n + 2 * Z.of_nat i + 1, BUY) \/ o = (n + 2 * Z.of_nat i + 2, SELL)).
Proof.
  unfold level_orders. intros (i & Ho & Hi)%list_elem_of_bind. apply elem_of_seq in Hi.
  exists i. split; [lia|]. rewrite !elem_of_cons in Ho. destruct Ho as [->|[->|Ho]]; [by left|by right|].
  by apply elem_of_nil in Ho.
Qed.

Lemma numbered_quotes ticker bid ask spread c :
  numbered c -> is_connected (mm_fix c) = true ->
  mm_order_id_counter c + Z.of_nat (length (active_orders c ticker)) + 10 <= INT_MAX ->
  numbered (place_quotes time_of params ticker bid ask spread c).
Proof.
  intros [Hpos Hrange Hdist] Hconn Hmax.
  destruct (place_quotes_spec ticker bid ask spread c Hconn Hpos Hmax) as (_ & _ & Hn & Hact). cbn zeta in *.
  set (c' := place_quotes time_of params ticker bid ask spread c) in *.
  set (n := mm_order_id_counter c + Z.of_nat (length (active_orders c ticker))) in *.
  assert (forall k o, o ∈ active_orders c' k ->
    (k = ticker /\ exists i, (i < 5)%nat /\ (o = (n + 2 * Z.of_nat i + 1, BUY) \/ o = (n + 2 * Z.of_nat i + 2, SELL)))
    \/ o ∈ active_orders c k) as Hin.
  { intros k o. rewrite Hact. destruct (String.eqb_spec ticker k) as [<-|]; [|by right].
    intros Ho%level_orders_in. left. split; [done|]. exact Ho. }
  assert (mm_order_id_counter c <= n) by lia. clearbody c' n. clear Hact Hconn Hmax.
  constructor.
  - lia.
  - intros k o [(-> & i & Hi & Ho)|Ho]%Hin; [destruct Ho as [-> | ->]; simpl; lia|].
    apply Hrange in Ho. lia.
  - intros k k' o o' [(-> & i & Hi & Ho)|Ho]%Hin [(-> & i' & Hi' & Ho')|Ho']%Hin Heq.
    + split; [done|]. destruct Ho as [-> | ->], Ho' as [-> | ->]; simpl in *;
        try (exfalso; lia); assert (i = i') as -> by lia; done.
    + apply Hrange in Ho'. destruct Ho as [-> | ->]; simpl in *; lia.
    + apply Hrange in Ho. destruct Ho' as [-> | ->]; simpl in *; lia.
    + by eapply Hdist.
Qed.
End Orders.

(** ** What is sent *)
Section Sent.
Context {F : Type} `{FixLibrary} `{FixSession F} `{!FixSessionLaws F} `{Libm}.
Variables (time_of : Z -> string) (params : MakerParams) (sender target : string).
Implicit Types (c : MMFixClient F).

(** A session that is up and takes every message. *)
Definition accepting c : Prop :=
  is_connected (mm_fix c) = true /\ (exists rest, _sessions (mm_fix c) = (sender, target) :: rest) /\
  forall f m s t, (fs_send f m s t).2 = true.

Abbreviation sent c := (fs_sent (_session (mm_fix c))).

Lemma submit_sent fc m rest : _sessions fc = (sender, target) :: rest ->
  (forall f m s t, (fs_send f m s t).2 = true) ->
  _sessions (submit fc m).1 = _sessions fc /\ is_connected (submit fc m).1 = is_connected fc /\
  fs_sent (_session (submit fc m).1) = fs_sent (_session fc) ++ [(m, sender, target)].
Proof.
  intros Hs Hok. unfold submit, get_session_id. rewrite Hs. simpl.
  destruct (fs_send _ _ _ _) as [f ok] eqn:E. specialize (Hok (_session fc) m sender target).
  rewrite E in Hok. simpl in Hok. subst ok. simpl. by rewrite (fs_send_law _ _ _ _ _ _ E).
Qed.

(** The cancel requests for the orders [orders], numbered from [n]. *)
Fixpoint cancels (n : Z) (ticker : string) (orders : list (Z * OrderSide))
    : list (FixMessage * string * string) :=
  match orders with
  | [] => []
  | (id, side) :: orders' =>
      (create_cancel_order_fix_request (time_of (next_id n)) ticker side id (next_id n), sender, target)
      :: cancels (next_id n) ticker orders'
  end.

Lemma cancel_loop_sent c ticker orders : accepting c ->
  accepting (cancel_loop time_of c ticker orders) /\
  sent (cancel_loop time_of c ticker orders) = sent c ++ cancels (mm_order_id_counter c) ticker orders.
Proof.
  revert c. induction orders as [|[id side] orders IH]; intros c Hacc; cbn [cancel_loop cancels].
  { by rewrite app_nil_r. }
  destruct Hacc as (Hconn & (rest & Hs) & Hok). unfold client_cancel_order. rewrite Hconn.
  match goal with |- context [submit (mm_fix c) ?m] =>
    destruct (submit_sent (mm_fix c) m rest Hs Hok) as (S1 & S2 & S3);
    destruct (submit (mm_fix c) m) as [fix_ ok]; simpl in S1, S2, S3 end.
  match goal with |- context [cancel_loop time_of ?c1 ticker orders] => destruct (IH c1) as [Ha Hsent] end.
  { split_and!; simpl; [congruence|exists rest; congruence|done]. }
  split; [done|]. rewrite Hsent. simpl. by rewrite S3, <- app_assoc.
Qed.

Lemma send_order_sent c ticker price qty side : accepting c ->
  accepting (send_order time_of c ticker price qty side) /\
  exists m, sent (send_order time_of c ticker price qty side) = sent c ++ [(m, sender, target)] /\
    fm_type m = NewOrderSingle /\
    fm_fields m !! ClOrdID = Some (to_string (next_id (mm_order_id_counter c))).
Proof.
  intros (Hconn & (rest & Hs) & Hok). unfold send_order, submit_limit_order. rewrite Hconn. cbn [negb].
  rewrite decide_True by done.
  match goal with |- context [submit (mm_fix c) ?m] =>
    destruct (submit_sent (mm_fix c) m rest Hs Hok) as (S1 & S2 & S3);
    destruct (submit (mm_fix c) m) as [fix_ ok]; simpl in S1, S2, S3 end.
  split; [split_and!; simpl; [congruence|exists rest; congruence|done]|].
  eexists. split; [exact S3|]. split; [done|]. reflexivity.
Qed.

Lemma place_levels_sent ticker bid ask spacing levels c : accepting c ->
  let c' := fold_left (place_level time_of params ticker bid ask spacing) (seq 0 levels) c in
  accepting c' /\ exists orders, sent c' = sent c ++ orders /\ length orders = (2 * levels)%nat /\
    Forall (fun x => fm_type x.1.1 = NewOrderSingle) orders.
Proof.
  intros Hacc. induction levels as [|levels [IHa (orders & IHs & IHl & IHt)]].
  { simpl. split; [done|]. exists []. by rewrite app_nil_r. }
  cbn zeta. rewrite seq_S, fold_left_app. cbn [fold_left plus].
  set (c1 := fold_left _ (seq 0 levels) c) in *. unfold place_level.
  match goal with |- context [send_order time_of (send_order time_of c1 ticker ?p ?q "BUY") ticker ?p' _ "SELL"] =>
    destruct (send_order_sent c1 ticker p q "BUY" IHa) as (A1 & m1 & M1 & T1 & _);
    set (c2 := send_order time_of c1 ticker p q "BUY") in *;
    destruct (send_order_sent c2 ticker p' q "SELL" A1) as (A2 & m2 & M2 & T2 & _) end.
  split; [done|]. exists (orders ++ [(m1, sender, target); (m2, sender, target)]). split_and!.
  - rewrite M2, M1, IHs, <- !app_assoc. done.
  - rewrite length_app. simpl. lia.
  - apply Forall_app. split; [done|]. by repeat constructor.
Qed.
End Sent.

(** ** The market maker's orders *)
Section Theorems.
Context {F : Type} `{FixLibrary} `{FixSession F} `{!FixSessionLaws F} `{Libm}.
Variables (time_of : Z -> string) (params : MakerParams).
Implicit Types (c : MMFixClient F).

(** C34: A round of quotes replaces the last one.  While the session is up, quoting a ticker
    first asks to cancel every order of that ticker that is out, in order, and then
    sends five buys and five sells with new consecutive numbers; these ten and nothing
    else are then out for the ticker, other tickers are not affected, and every
    number is still used once. *)
Theorem quotes_replaced sender target md elapsed ticker c :
  accepting sender target c -> numbered c ->
  let olds := active_orders c ticker in
  let n := mm_order_id_counter c + Z.of_nat (length olds) in
  n + 10 <= INT_MAX ->
  let c' := make_market time_of params md elapsed ticker c in
  (exists orders, fs_sent (_session (mm_fix c')) = fs_sent (_session (mm_fix c)) ++
     cancels time_of sender target (mm_order_id_counter c) ticker olds ++ orders /\
     length orders = 10%nat /\ Forall (fun x => fm_type x.1.1 = NewOrderSingle) orders) /\
  active_orders c' ticker = level_orders n 5 /\
  (forall k, k <> ticker -> active_orders c' k = active_orders c k) /\
  numbered c' /\ accepting sender target c'.
Proof.
  intros Hacc Hnum olds n Hmax c'. unfold c', make_market.
  set (q := quote _ _ _ _ _). clearbody q.
  destruct (place_quotes_spec time_of params ticker (optimal_bid q) (optimal_ask q) (optimal_spread q) c
              (proj1 Hacc) (nb_counter _ Hnum) Hmax) as (_ & _ & _ & Hact).
  pose proof (numbered_quotes time_of params ticker (optimal_bid q) (optimal_ask q) (optimal_spread q) c
                Hnum (proj1 Hacc) Hmax) as Hnum'.
  split_and!; [| | |exact Hnum'|].
  2: { rewrite Hact. by rewrite String.eqb_refl. }
  2: { intros k Hk. rewrite Hact. by rewrite (proj2 (String.eqb_neq _ _)) by congruence. }
  all: unfold place_quotes;
    destruct (cancel_loop_sent time_of sender target c ticker olds Hacc) as [Ha Hs];
    set (spacing := dmax _ _); set (c1 := cancel_all_orders time_of c ticker);
    assert (accepting sender target c1) as Ha1 by exact Ha;
    destruct (place_levels_sent time_of params sender target ticker (optimal_bid q) (optimal_ask q) spacing
                num_levels c1 Ha1) as (Ha2 & orders & Ho & Hl & Ht).
  - exists orders. split_and!; [|done|done]. rewrite Ho.
    change (fs_sent (_session (mm_fix c1))) with (fs_sent (_session (mm_fix (cancel_loop time_of c ticker olds)))).
    by rewrite Hs, <- app_assoc.
  - exact Ha2.
Qed.

(** ** Shortcomings *)
(** Without a connection the maker forgets its orders: nothing is sent, but none of the
    orders that are in the book is remembered. *)
Theorem disconnected_cancel_forgets ticker c : is_connected (mm_fix c) = false ->
  active_orders (cancel_all_orders time_of c ticker) ticker = [] /\
  mm_fix (cancel_all_orders time_of c ticker) = mm_fix c.
Proof.
  intros Hc. split.
  - unfold cancel_all_orders, active_orders at 1. simpl. by rewrite lookup_insert_eq.
  - unfold cancel_all_orders. simpl. generalize (active_orders c ticker) as orders. intros orders.
    revert c Hc. induction orders as [|[id side] orders IH]; intros c Hc; simpl; [done|].
    unfold client_cancel_order. rewrite Hc. by rewrite IH.
Qed.

Lemma status_never_filled s st : report_status s = Some st -> st = NEW \/ st = CANCELED.
Proof.
  unfold report_status. simpl. repeat (case_bool_decide; simpl); intros; simplify_eq; auto.
Qed.

Lemma report_never_filled m r st : onMessage_ExecutionReport m = Ok r -> rp_status r = Some st ->
  st = NEW \/ st = CANCELED.
Proof.
  unfold onMessage_ExecutionReport. destruct (get_all _ _ _) as [vars x]. intros Hm. ok_inv.
  apply status_never_filled.
Qed.

(** The inventory never changes.  Whatever execution report arrives over FIX, if the
    client assigned its status then the market maker's inventory stays as it was set
    at the start: no report ever says that an order was filled. *)
Theorem fills_never_counted unassigned m r c :
  onMessage_ExecutionReport m = Ok r -> is_Some (rp_status r) -> on_order_update unassigned c r = c.
Proof.
  intros Hm [st Hst]. unfold on_order_update. rewrite Hst. simpl.
  destruct (report_never_filled m r st Hm Hst) as [-> | ->]; done.
Qed.
End Theorems.

(** ** A maker at work *)
#[local] Existing Instances fix42 fix42_laws open_session open_session_laws.

Definition sample_libm : Libm := {| dlog := fun x => x; dpow := fun x _ => x; dsqrt := fun x => x |}.

Definition sample_params : MakerParams :=
  mkMakerParams (of_int 300) (of_int 1) (decimal 6 10) (of_int 8) (of_int 30).

Definition sample_maker : MMFixClient (list (FixMessage * string * string)) :=
  mkMMFixClient sample_client {[ "GME"%string := of_int 300 ]} {[ "GME"%string := [(3, BUY); (4, SELL)] ]} 4.

Lemma quotes_replaced_witness :
  let c' := @make_market _ _ _ sample_libm (fun _ => "t"%string) sample_params new_handler dzero "GME" sample_maker in
  (exists orders, fs_sent (_session (mm_fix c')) = fs_sent (_session (mm_fix sample_maker)) ++
     cancels (fun _ => "t"%string) "alice" "EDUX" 4 "GME" [(3, BUY); (4, SELL)] ++ orders /\
     length orders = 10%nat /\ Forall (fun x => fm_type x.1.1 = NewOrderSingle) orders) /\
  active_orders c' "GME" = level_orders 6 5 /\
  (forall k, k <> "GME"%string -> active_orders c' k = active_orders sample_maker k) /\
  numbered c' /\ accepting "alice" "EDUX" c'.
Proof.
  apply (@quotes_replaced _ _ _ _ sample_libm (fun _ => "t"%string) sample_params "alice" "EDUX" new_handler
           dzero "GME" sample_maker).
  - split_and!; [reflexivity|by exists []|done].
  - assert (forall k o, o ∈ active_orders sample_maker k -> k = "GME"%string /\ (o = (3, BUY) \/ o = (4, SELL))) as Hin.
    { intros k o. unfold active_orders, sample_maker. cbn [mm_active_orders].
      destruct (decide (k = "GME"%string)) as [->|Hk].
      - rewrite lookup_singleton_eq. simpl. rewrite !elem_of_cons, elem_of_nil. naive_solver.
      - rewrite lookup_singleton_ne by congruence. simpl. by intros ?%elem_of_nil. }
    split; [done| |].
    + intros k o [_ [-> | ->]]%Hin; simpl; lia.
    + intros k k' o o' [-> Ho]%Hin [-> Ho']%Hin Heq. split; [done|].
      destruct Ho as [-> | ->], Ho' as [-> | ->]; simpl in *; by try lia.
  - vm_compute. done.
Defined.

(** The report of a complete fill. *)
Definition fill_message : FixMessage :=
  match fix_report filled_report with
  | Ok m => delivered (m, "EDUX", "alice")%string
  | Err _ => mkFix ExecutionReport ∅
  end.

Lemma fills_never_counted_witness :
  match onMessage_ExecutionReport fill_message with
  | Ok r => on_order_update NEW sample_maker r = sample_maker
  | Err _ => False
  end.
Proof.
  destruct (onMessage_ExecutionReport fill_message) as [r|e] eqn:E; [|by vm_compute in E].
  apply (fills_never_counted NEW fill_message r sample_maker E).
  vm_compute in E. injection E as <-. simpl. eauto.
Defined.

Lemma disconnected_cancel_forgets_witness :
  let c := mkMMFixClient (onLogout sample_client) ∅ {[ "GME"%string := [(3, BUY)] ]} 4 in
  active_orders (cancel_all_orders (fun _ => "t"%string) c "GME") "GME" = [] /\
  mm_fix (cancel_all_orders (fun _ => "t"%string) c "GME") = mm_fix c.
Proof. intros c. apply (disconnected_cancel_forgets (fun _ => "t"%string) "GME" c). reflexivity. Defined.
