(* ===== verification/Oracle.v ===== *)
(** * The price oracle

    [OracleService] and [OracleClient] of [simulation/traders/oracle_service.h]: the
    service moves the "true" price of every ticker at random and broadcasts it, the
    client keeps what it last received.  The draws of the random generator are
    inputs; [std::sqrt] is in the interface [Libm] and JSON in [JsonInput]; what the
    feed relies on when a price is printed and read again is [OracleJson]. *)

From S2P Require Import Prelude Core Doubles MarketDataHandler MarketMaker.
From Stdlib Require Import ZArith Lia Ascii String SpecFloat.
From stdpp Require Import base option list gmap strings fin_maps.

Open Scope Z_scope.

Record OracleConfig := mkOracleConfig {
  oc_mu : double;
  oc_sigma : double;
  oc_jump_intensity : double;
  oc_jump_mean : double;
  oc_jump_std : double;
  oc_update_interval_ms : Z
}.

(** [m_true_prices] is a [std::map]: its entries in the order of the keys. *)
Abbreviation Prices := (list (string * double)).

Fixpoint price_insert (ticker : string) (price : double) (m : Prices) : Prices :=
  match m with
  | [] => [(ticker, price)]
  | (k, p) :: m' =>
      match String.compare ticker k with
      | Lt => (ticker, price) :: m
      | Eq => (k, price) :: m'
      | Gt => (k, p) :: price_insert ticker price m'
      end
  end.

Definition OracleService_ctor (tickers : list string) (initial_prices : gmap string double) : Prices :=
  fold_left (fun m ticker => price_insert ticker (default (of_int 100) (initial_prices !! ticker)) m)
    tickers [].

(** What the generator gives for one price: a normal and a uniform number, and the
    size of a jump, which is drawn only when there is one. *)
Record Draw := mkDraw { normal : double; uniform : double; jump : double }.

Definition floor_price : double := decimal 1 100.

Section Service.
Context `{Libm}.
Variable config : OracleConfig.

Definition oracle_dt : double := ddiv (of_int (oc_update_interval_ms config)) (of_int 1000).

Definition next_price (price : double) (d : Draw) : double :=
  let dW := dmul (normal d) (dsqrt oracle_dt) in
  let ds := dmul price (dadd (dmul (oc_mu config) oracle_dt) (dmul (oc_sigma config) dW)) in
  let ds := if dlt (uniform d) (dmul (oc_jump_intensity config) oracle_dt)
            then dadd ds (dmul price (jump d)) else ds in
  let price := dadd price ds in
  if dlt price floor_price then floor_price else price.

(** One pass of [run_loop] over the map: the new prices, which are also what is
    broadcast, with the draws taken in that order. *)
Definition oracle_update (prices : Prices) (draws : list Draw) : Prices :=
  zip_with (fun kp d => (kp.1, next_price kp.2 d)) prices draws.
End Service.

(** ** OracleClient *)
Section Client.
Context `{JsonInput}.

(** The right side of [m_true_prices[ticker] = ...] is evaluated first. *)
Definition oracle_message (prices : gmap string double) (msg : string) : gmap string double :=
  match parse_input msg with
  | None => prices
  | Some j =>
      if (in_contains j "ticker" && in_contains j "true_price")%bool
      then match in_string j "ticker", in_double j "true_price" with
           | Some ticker, Some price => <[ticker := price]> prices
           | _, _ => prices
           end
      else prices
  end.

Definition oracle_consume (prices : gmap string double) (msgs : list string) : gmap string double :=
  fold_left oracle_message msgs prices.
End Client.

Definition get_true_price (prices : gmap string double) (ticker : string) : double :=
  match prices !! ticker with
  | Some price => price
  | None =>
      if (String.eqb ticker "AAPL" && bool_decide (prices = ∅))%bool then decimal 1555 10 else dzero
  end.

(** ** Prices *)
Lemma floored p : dlt (if dlt p floor_price then floor_price else p) floor_price = false.
Proof. destruct (dlt p floor_price) eqn:E; [by vm_compute|done]. Qed.

Lemma price_insert_keys ticker price m k :
  k ∈ map fst (price_insert ticker price m) <-> k = ticker \/ k ∈ map fst m.
Proof.
  induction m as [|[x p] m IH]; simpl; [set_solver|].
  destruct (String.compare ticker x) eqn:E; simpl; rewrite ?elem_of_cons, ?IH; [|tauto|tauto].
  apply String.compare_eq_iff in E as ->. set_solver.
Qed.

Section Updates.
Context `{Libm}.
Variable config : OracleConfig.

Lemma update_keys prices draws : length draws = length prices ->
  map fst (oracle_update config prices draws) = map fst prices.
Proof.
  revert draws. induction prices as [|[k p] prices IH]; intros [|d draws] Hl; simpl in *; try lia; [done|].
  f_equal. apply IH. lia.
Qed.

Lemma update_floor prices draws :
  Forall (fun kp => dlt kp.2 floor_price = false) (oracle_update config prices draws).
Proof.
  revert draws. induction prices as [|[k p] prices IH]; intros [|d draws]; simpl; constructor; [|apply IH].
  apply floored.
Qed.
End Updates.

(** ** The feed *)
Definition is_finite (d : double) : bool :=
  match d with S754_zero _ | S754_finite _ _ _ => true | _ => false end.

(** Printing an update and reading it: a finite number and a printable ticker come
    back (nlohmann/json prints numbers so that they can be read exactly). *)
Class OracleJson `{JsonInput} := {
  dump_update : string -> double -> Z -> string;
  dump_update_read : forall ticker price timestamp,
    forallb (fun c => (32 <=? N_of_ascii c)%N && (N_of_ascii c <=? 126)%N) (list_ascii_of_string ticker) = true ->
    is_finite price = true ->
    exists j, parse_input (dump_update ticker price timestamp) = Some j /\
      in_contains j "ticker" = true /\ in_contains j "true_price" = true /\
      in_string j "ticker" = Some ticker /\ in_double j "true_price" = Some price
}.

Section Feed.
Context `{OracleJson} `{Libm}.

Definition broadcast (timestamp : Z) (prices : Prices) : list string :=
  map (fun kp => dump_update kp.1 kp.2 timestamp) prices.

Lemma consume_broadcast ts prices m :
  Forall (fun kp => forallb (fun c => (32 <=? N_of_ascii c)%N && (N_of_ascii c <=? 126)%N)
                      (list_ascii_of_string kp.1) = true /\ is_finite kp.2 = true) prices ->
  oracle_consume m (broadcast ts prices) = fold_left (fun m kp => <[kp.1 := kp.2]> m) prices m.
Proof.
  intros Hall. revert m. induction Hall as [|[k p] prices [Hk Hp] _ IH]; intros m; [done|].
  simpl. rewrite IH. f_equal. unfold oracle_message.
  destruct (dump_update_read k p ts Hk Hp) as (j & -> & -> & -> & -> & ->). done.
Qed.

Lemma fold_insert_lookup prices m k p : NoDup (map fst prices) -> (k, p) ∈ prices ->
  fold_left (fun (m : gmap string double) kp => <[kp.1 := kp.2]> m) prices m !! k = Some p.
Proof.
  revert m. induction prices as [|[k' p'] prices IH]; intros m Hnd Hin; [by apply elem_of_nil in Hin|].
  simpl in *. apply NoDup_cons in Hnd as [Hk Hnd]. apply elem_of_cons in Hin as [[= -> ->]|Hin]; [|by apply IH].
  assert (forall l (m : gmap string double), k' ∉ map fst l ->
    fold_left (fun m kp => <[kp.1 := kp.2]> m) l m !! k' = m !! k') as Hskip.
  { induction l as [|[x y] l IHl]; intros m' Hx; simpl; [done|].
    rewrite IHl by (intros E; apply Hx; by right). apply lookup_insert_ne. intros ->. apply Hx. left. }
  rewrite Hskip by done. apply lookup_insert_eq.
Qed.

(** True prices reach the traders.  After an update of the oracle no price is below one
    cent; and when a client has received the messages of the update, what it returns
    for each ticker is the oracle's price, as long as the prices are finite numbers. *)
Theorem oracle_feed config prices draws ts client :
  NoDup (map fst prices) -> length draws = length prices ->
  Forall (fun kp => forallb (fun c => (32 <=? N_of_ascii c)%N && (N_of_ascii c <=? 126)%N)
                      (list_ascii_of_string kp.1) = true) prices ->
  let prices' := oracle_update config prices draws in
  Forall (fun kp => is_finite kp.2 = true) prices' ->
  map fst prices' = map fst prices /\
  forall ticker price, (ticker, price) ∈ prices' ->
    dlt price floor_price = false /\
    get_true_price (oracle_consume client (broadcast ts prices')) ticker = price.
Proof.
  intros Hnd Hl Hpr prices' Hfin. pose proof (update_keys config prices draws Hl) as Hkeys. fold prices' in Hkeys.
  split; [done|]. intros ticker price Hin. split.
  - pose proof (update_floor config prices draws) as Hf. rewrite Forall_forall in Hf. by apply (Hf _ Hin).
  - rewrite consume_broadcast.
    + unfold get_true_price. rewrite (fold_insert_lookup _ _ ticker price); [done|by rewrite Hkeys|done].
    + apply Forall_forall. intros [k p] Hkp. rewrite Forall_forall in Hfin. split; [|by apply (Hfin _ Hkp)].
      assert (k ∈ map fst prices) as Hk by (rewrite <- Hkeys; apply list_elem_of_fmap; by exists (k, p)).
      apply list_elem_of_fmap in Hk as ([k' q] & -> & Hk'). rewrite Forall_forall in Hpr. by apply (Hpr _ Hk').
Qed.
End Feed.

(** ** A concrete notation for updates *)
Fixpoint pos_text (p : positive) : string :=
  match p with
  | xH => EmptyString
  | xO p => String "0" (pos_text p)
  | xI p => String "1" (pos_text p)
  end.

Fixpoint text_pos (s : string) : positive :=
  match s with
  | EmptyString => xH
  | String c s => if Ascii.eqb c "0" then xO (text_pos s) else xI (text_pos s)
  end.

Lemma text_pos_text p : text_pos (pos_text p) = p.
Proof. induction p as [p IH|p IH|]; simpl; by rewrite ?IH. Qed.

(** The finite numbers, as something that can be counted. *)
Definition finite_code (d : double) : bool + bool * positive * Z :=
  match d with S754_finite s m e => inr (s, m, e) | S754_zero s => inl s | _ => inl false end.
Definition code_finite (x : bool + bool * positive * Z) : double :=
  match x with inr (s, m, e) => S754_finite s m e | inl s => S754_zero s end.

Lemma code_finite_code d : is_finite d = true -> code_finite (finite_code d) = d.
Proof. by destruct d. Qed.

#[export] Instance sample_input : JsonInput := {|
  input := string * double;
  parse_input := fun s => '(t, x) ← decode (A := string * (bool + bool * positive * Z)) (text_pos s);
                          Some (t, code_finite x);
  in_contains := fun _ key => bool_decide (key ∈ ["ticker"; "true_price"]%string);
  in_string := fun j _ => Some j.1;
  in_double := fun j _ => Some j.2;
  in_int64 := fun _ _ => None;
  in_empty := fun _ _ => true;
  in_first := fun _ _ => None
|}.

#[export] Instance sample_oracle_json : OracleJson.
Proof.
  refine {| dump_update := fun t p _ => pos_text (encode (t, finite_code p)) |}.
  intros t p ts _ Hp. exists (t, p). simpl. rewrite text_pos_text, decode_encode. simpl.
  by rewrite code_finite_code.
Defined.

Definition sample_oracle : OracleConfig :=
  mkOracleConfig dzero (decimal 3 1000) (decimal 6 100) dzero (decimal 1 100) 1000.

(** A quiet second for one ticker, a crash for the other. *)
Definition sample_prices : Prices := OracleService_ctor ["TSLA"; "AAPL"]%string {[ "TSLA"%string := of_int 220 ]}.
Definition sample_draws : list Draw :=
  [mkDraw (of_int 1) (of_int 1) dzero; mkDraw (of_int 1) dzero (of_int (-5))].

Lemma oracle_feed_witness :
  let prices' := @oracle_update sample_libm sample_oracle sample_prices sample_draws in
  map snd prices' = [decimal 1003 10; floor_price] /\
  get_true_price (oracle_consume ∅ (broadcast 7 prices')) "TSLA" = floor_price.
Proof.
  intros prices'. split; [vm_compute; reflexivity|].
  apply (@oracle_feed sample_input sample_oracle_json sample_libm sample_oracle sample_prices sample_draws 7 ∅).
  - repeat constructor; set_solver.
  - reflexivity.
  - by repeat constructor.
  - by vm_compute; repeat constructor.
  - vm_compute. right. left.
Defined.
