(* ===== verification/Traders.v ===== *)
(** * The informed trader and the noise trader

    [simulation/traders/informed_trader.h] and [simulation/traders/noise_trader.h].
    The informed trader compares the best prices with the true price and takes the
    other side when they are too far apart; the noise trader sends random orders.
    The clock and the draws of the random generators are inputs; times are
    nanoseconds of the steady clock. *)

From S2P Require Import Prelude Core Doubles Fix Gateway MarketData FixClient MarketDataHandler MarketMaker Oracle.
From Stdlib Require Import ZArith Lia Ascii String SpecFloat Sorted.
From stdpp Require Import base option list gmap strings fin_maps sorting.

Open Scope Z_scope.

(** ** InformedFixClient *)
Record InformedFixClient (F : Type) := mkInformedFixClient {
  it_fix : FixClient F;
  it_inventory : gmap string double;
  it_order_id_counter : Z
}.
Arguments mkInformedFixClient {F} _ _ _.
Arguments it_fix {F} _.
Arguments it_inventory {F} _.
Arguments it_order_id_counter {F} _.

Record InformedTrader (F : Type) := mkInformedTrader {
  it_client : InformedFixClient F;
  it_last_trade_time : gmap string Z
}.
Arguments mkInformedTrader {F} _ _.
Arguments it_client {F} _.
Arguments it_last_trade_time {F} _.

Record InformedParams := mkInformedParams {
  it_initial_inventory : double;
  it_epsilon : double;
  it_trade_qty : double;
  it_max_inventory : double
}.

(** [a <= b] of doubles. *)
Definition dle (a b : double) : bool := (dlt a b || deq a b)%bool.

Section Informed.
Context {F : Type} `{FixLibrary} `{FixSession F}.
Variables (time_of : Z -> string) (params : InformedParams).
Implicit Types (c : InformedFixClient F) (t : InformedTrader F).

Definition it_get_inventory c (ticker : string) : double := default dzero (it_inventory c !! ticker).
Definition it_set_inventory c (ticker : string) (inventory : double) : InformedFixClient F :=
  mkInformedFixClient (it_fix c) (<[ticker := inventory]> (it_inventory c)) (it_order_id_counter c).

Definition send_snipe_order c (ticker : string) (price quantity : double) (side : string)
    : InformedFixClient F :=
  let order_side := if String.eqb side "BUY" then BUY else SELL in
  let client_order_id := next_id (it_order_id_counter c) in
  let '(fix_, _) := submit_limit_order (time_of client_order_id) (it_fix c) ticker price quantity
                      order_side GTC client_order_id in
  mkInformedFixClient fix_ (it_inventory c) client_order_id.

Definition it_on_order_update (unassigned : OrderStatus) c (report : ClientReport) : InformedFixClient F :=
  match default unassigned (rp_status report) with
  | FILLED | PARTIALLY_FILLED =>
      let q := it_get_inventory c (rp_ticker report) in
      it_set_inventory c (rp_ticker report)
        (match rp_side report with
         | BUY => dadd q (rp_filled_qty report)
         | SELL => dsub q (rp_filled_qty report)
         end)
  | _ => c
  end.

Definition it_start (tickers : list string) t : InformedTrader F :=
  mkInformedTrader
    (fold_left (fun c ticker => it_set_inventory c ticker (it_initial_inventory params)) tickers (it_client t))
    (it_last_trade_time t).

(** A new entry of the map is the clock's epoch. *)
Definition last_trade t (ticker : string) : Z := default 0 (it_last_trade_time t !! ticker).
Definition cooldown : Z := 500000000.

Definition snipe (now : Z) t (ticker : string) (price : double) (side : string) : InformedTrader F :=
  mkInformedTrader (send_snipe_order (it_client t) ticker price (it_trade_qty params) side)
    (<[ticker := now]> (it_last_trade_time t)).

Inductive TradeDecision := Wait | SnipeAsk | SnipeBid.

Definition decide_trade (now : Z) (ob : OrderBookSnapshot) (true_price inventory : double) (last : Z)
    : TradeDecision :=
  if now - last <? cooldown then Wait
  else if (deq (best_bid_price ob) dzero || deq (best_ask_price ob) dzero)%bool then Wait
  else if dlt (dadd (best_ask_price ob) (it_epsilon params)) true_price then
    if dle (dadd inventory (it_trade_qty params)) (it_max_inventory params) then SnipeAsk else Wait
  else if dlt true_price (dsub (best_bid_price ob) (it_epsilon params)) then
    if dle dzero (dsub inventory (it_trade_qty params)) then SnipeBid else Wait
  else Wait.

Definition evaluate_and_trade (now : Z) (md : MarketDataHandler) (truth : gmap string double)
    (ticker : string) t : InformedTrader F :=
  let ob := get_latest_orderbook md ticker in
  match decide_trade now ob (get_true_price truth ticker) (it_get_inventory (it_client t) ticker)
          (last_trade t ticker) with
  | Wait => t
  | SnipeAsk => snipe now t ticker (best_ask_price ob) "BUY"
  | SnipeBid => snipe now t ticker (best_bid_price ob) "SELL"
  end.

(** One turn of [run_loop] over the tickers, each with the time, the market data and the
    true prices of that moment. *)
Definition it_round (seen : string -> Z * MarketDataHandler * gmap string double) (tickers : list string) t
    : InformedTrader F :=
  fold_left (fun t ticker => evaluate_and_trade (seen ticker).1.1 (seen ticker).1.2 (seen ticker).2 ticker t)
    tickers t.

(** ** A run

    What happens to the trader: an evaluation of a ticker with what is known at that
    time, an execution report, a change of the connection. *)
Inductive Happening :=
  | Evaluate (now : Z) (md : MarketDataHandler) (truth : gmap string double) (ticker : string)
  | Report (unassigned : OrderStatus) (m : FixMessage)
  | Connection (up : bool).

Definition happen t (h : Happening) : InformedTrader F :=
  match h with
  | Evaluate now md truth ticker => evaluate_and_trade now md truth ticker t
  | Report u m =>
      match onMessage_ExecutionReport m with
      | Ok r => mkInformedTrader (it_on_order_update u (it_client t) r) (it_last_trade_time t)
      | Err _ => t
      end
  | Connection up =>
      mkInformedTrader (mkInformedFixClient (with_connected (it_fix (it_client t)) up)
                          (it_inventory (it_client t)) (it_order_id_counter (it_client t)))
        (it_last_trade_time t)
  end.

(** The evaluations at which an order was sent, oldest first: time and ticker. *)
Definition sniped t (h : Happening) : list (Z * string) :=
  match h with
  | Evaluate now md truth ticker =>
      match decide_trade now (get_latest_orderbook md ticker) (get_true_price truth ticker)
              (it_get_inventory (it_client t) ticker) (last_trade t ticker) with
      | Wait => []
      | _ => [(now, ticker)]
      end
  | _ => []
  end.

Fixpoint snipes t (hs : list Happening) : list (Z * string) :=
  match hs with
  | [] => []
  | h :: hs' => sniped t h ++ snipes (happen t h) hs'
  end.

(** [x] comes at least the cooldown before [y] if they are for the same ticker. *)
Definition apart (x y : Z * string) : Prop := x.2 = y.2 -> x.1 + cooldown <= y.1.

Lemma last_trade_happen t h ticker :
  last_trade (happen t h) ticker =
  match sniped t h with [(now, k)] => if String.eqb k ticker then now else last_trade t ticker
                      | _ => last_trade t ticker end.
Proof.
  destruct h as [now md truth k|u m|up]; simpl; [| |done].
  - unfold evaluate_and_trade. destruct (decide_trade _ _ _ _ _); [done|..];
      unfold snipe, last_trade; simpl; destruct (String.eqb_spec k ticker) as [<-|];
      rewrite ?lookup_insert_eq, ?lookup_insert_ne by done; done.
  - by destruct (onMessage_ExecutionReport m).
Qed.

Lemma sniped_cooldown t h x : x ∈ sniped t h -> sniped t h = [x] /\ last_trade t x.2 + cooldown <= x.1.
Proof.
  destruct h as [now md truth k|u m|up]; simpl; [|by intros ?%elem_of_nil..].
  destruct (decide_trade _ _ _ _ _) eqn:E; [by intros ?%elem_of_nil|..];
    intros ->%list_elem_of_singleton; simpl; (split; [done|]);
    unfold decide_trade in E; destruct (Z.ltb_spec (now - last_trade t k) cooldown); try done; lia.
Qed.

(** Every snipe comes a cooldown after the last one of its ticker before the run. *)
Lemma snipes_later t hs x : x ∈ snipes t hs -> last_trade t x.2 + cooldown <= x.1.
Proof.
  revert t. induction hs as [|h hs IH]; intros t; simpl; [by intros ?%elem_of_nil|].
  intros [Hx|Hx]%elem_of_app; [by apply sniped_cooldown in Hx as [_ ?]|].
  apply IH in Hx. rewrite last_trade_happen in Hx.
  destruct (sniped t h) as [|[now k] [|]] eqn:E; [done| |done].
  destruct (sniped_cooldown t h (now, k)) as [_ Hc]; [rewrite E; left|]. simpl in Hc.
  destruct (String.eqb_spec k x.2) as [->|]; [|done]. unfold cooldown in *. lia.
Qed.

(** At most one order per ticker in half a second.  In every run, with any order books,
    true prices, reports and clock readings, any two orders that the informed trader
    sends for a ticker are at least 500 ms apart. *)
Theorem informed_cooldown t hs : StronglySorted apart (snipes t hs).
Proof.
  revert t. induction hs as [|h hs IH]; intros t; simpl; [constructor|].
  destruct (sniped t h) as [|[now k] [|y l]] eqn:E; [apply IH| |].
  - simpl. constructor; [apply IH|]. apply Forall_forall. intros x Hx. intros Heq. simpl in *.
    apply snipes_later in Hx. rewrite last_trade_happen, E, Heq, String.eqb_refl in Hx. done.
  - destruct (sniped_cooldown t h (now, k)) as [E' _]; [rewrite E; left|]. congruence.
Qed.

(** ** Shortcomings *)
Lemma report_keeps_client unassigned m r c : onMessage_ExecutionReport m = Ok r -> is_Some (rp_status r) ->
  it_on_order_update unassigned c r = c.
Proof.
  intros Hm [st Hst]. unfold it_on_order_update. rewrite Hst. simpl.
  destruct (report_never_filled m r st Hm Hst) as [-> | ->]; done.
Qed.

(** The status of every report that the client reads was assigned. *)
Definition assigned (h : Happening) : Prop :=
  match h with
  | Report _ m => forall r, onMessage_ExecutionReport m = Ok r -> is_Some (rp_status r)
  | _ => True
  end.

Lemma happen_inventory t h : assigned h ->
  it_inventory (it_client (happen t h)) = it_inventory (it_client t).
Proof.
  destruct h as [now md truth k|u m|up]; simpl; intros Ha; [| |done].
  - unfold evaluate_and_trade. destruct (decide_trade _ _ _ _ _); [done|..];
      unfold snipe, send_snipe_order; by destruct (submit_limit_order _ _ _ _ _ _ _ _).
  - destruct (onMessage_ExecutionReport m) as [r|] eqn:E; [|done]. simpl.
    by rewrite (report_keeps_client u m r _ E (Ha r eq_refl)).
Qed.

(** The limits on the position never take effect.  In every run, whatever is bought and
    sold, the inventory on which the informed trader decides stays what it was at the
    start: reports of fills arrive as cancellations. *)
Theorem informed_inventory_frozen t hs : Forall assigned hs ->
  it_inventory (it_client (fold_left happen hs t)) = it_inventory (it_client t).
Proof.
  intros Ha. revert t. induction Ha as [|h hs Hh _ IH]; intros t; simpl; [done|].
  by rewrite IH, happen_inventory.
Qed.
End Informed.

(** ** The noise trader

    A generator maps what it draws to what it returns: [bernoulli_generate] a
    Bernoulli draw to a side, [pareto_generate] a uniform one of [[0, 1)] to a
    quantity; the others return their draw. *)
Definition bernoulli_generate (draw : bool) : OrderSide := if draw then BUY else SELL.

Definition pareto_generate `{Libm} (scale shape u : double) : double :=
  dmul scale (dpow (dsub (of_int 1) u) (ddiv (of_int (-1)) shape)).

(** What the generators return in one turn of the loop, and the number of [rand]. *)
Record NoiseDraws := mkNoiseDraws {
  nd_side : OrderSide;
  nd_quantity : double;
  nd_rand : Z;
  nd_is_limit : bool;
  nd_noise : double
}.

Record NoiseTrader (F : Type) := mkNoiseTrader {
  nt_fix_client : option (FixClient F);
  nt_client_order_id : Z
}.
Arguments mkNoiseTrader {F} _ _.
Arguments nt_fix_client {F} _.
Arguments nt_client_order_id {F} _.

Definition min_price : double := decimal 1 100.
Definition noise_price (baseline noise : double) : double :=
  dmax min_price (ddiv (dround (dmul (dadd baseline noise) (of_int 100))) (of_int 100)).

(** [m_tickers[rand() % m_tickers.size()]] *)
Definition pick_ticker (tickers : list string) (r : Z) : res string :=
  match tickers with
  | [] => Err DivisionByZero
  | _ => get_or OutOfBounds (tickers !! Z.to_nat (r mod Z.of_nat (length tickers)))
  end.

Section Noise.
Context {F : Type} `{FixLibrary} `{FixSession F}.
Variables (time_of : Z -> string) (tickers : list string).
Implicit Types (t : NoiseTrader F) (d : NoiseDraws) (m : FixMessage).

(** The body of the loop of [run_strategy], up to the wait; [baseline] is
    [m_baseline_price_fn], which may be empty. *)
Definition noise_turn (baseline : option (string -> double)) d t : res (NoiseTrader F) :=
  ticker ← pick_ticker tickers (nd_rand d);
  match nt_fix_client t with
  | Some fc =>
      if is_connected fc then
        id ← add32 (nt_client_order_id t) 1;
        let '(fc', _) :=
          if nd_is_limit d then
            let baseline_price := match baseline with Some f => f ticker | None => of_int 100 end in
            submit_limit_order (time_of id) fc ticker (noise_price baseline_price (nd_noise d))
              (nd_quantity d) (nd_side d) GTC id
          else submit_market_order (time_of id) fc ticker (nd_quantity d) (nd_side d) id in
        Ok (mkNoiseTrader (Some fc') id)
      else Ok t
  | None => Ok t
  end.

(** The loop: before each turn the session may have come up or gone down, and the
    baseline prices are those of that time. *)
Fixpoint run_strategy (turns : list (option bool * option (string -> double) * NoiseDraws)) t
    : res (NoiseTrader F) :=
  match turns with
  | [] => Ok t
  | (up, baseline, d) :: turns' =>
      let t := mkNoiseTrader
                 (match up with
                  | Some b => (fun fc => with_connected fc b) <$> nt_fix_client t
                  | None => nt_fix_client t
                  end) (nt_client_order_id t) in
      t' ← noise_turn baseline d t;
      run_strategy turns' t'
  end.

(** An order that a noise trader may send under the number [id]. *)
Definition noise_order (id : Z) m : Prop :=
  fm_type m = NewOrderSingle /\ fm_fields m !! ClOrdID = Some (to_string id) /\
  (exists ticker, ticker ∈ tickers /\ fm_fields m !! TagSymbol = Some ticker) /\
  (fm_fields m !! OrdType = Some (text_of_char OrdType_MARKET) /\ fm_fields m !! Price = None \/
   fm_fields m !! OrdType = Some (text_of_char OrdType_LIMIT) /\
   exists p, fm_fields m !! Price = Some (text_of_double p) /\ p <> S754_nan /\ dlt p min_price = false).

Definition nt_sent t : list (FixMessage * string * string) :=
  match nt_fix_client t with Some fc => fs_sent (_session fc) | None => [] end.

(** [t'] comes after [t]: what was sent in between are orders whose numbers are above
    those of [t], in increasing order, and not above that of [t']. *)
Definition noise_after t t' : Prop :=
  nt_client_order_id t <= nt_client_order_id t' /\
  exists ids msgs, nt_sent t' = nt_sent t ++ msgs /\ StronglySorted Z.lt ids /\
    Forall (fun id => nt_client_order_id t < id <= nt_client_order_id t') ids /\
    Forall2 (fun id x => noise_order id x.1.1) ids msgs.
End Noise.

Lemma min_price_eq : min_price = S754_finite false 5764607523034235 (-59).
Proof. vm_compute. reflexivity. Qed.

(** A double is below itself never, so the larger of 0.01 and any number, infinite
    ones and NaN included, is a number that is not below 0.01. *)
Lemma max_floor x : dmax min_price x <> S754_nan /\ dlt (dmax min_price x) min_price = false.
Proof.
  rewrite min_price_eq. unfold dmax, dlt, SFltb, SFcompare.
  destruct x as [[]|[]| |[] m e]; try done.
  generalize 5764607523034235%positive (-59). intros m0 e0.
  change (PosDef.Pos.compare_cont Eq m0 m) with (Pos.compare m0 m).
  destruct (e0 ?= e) eqn:Ee, (Pos.compare m0 m) eqn:Em; simpl; (split; [done|]);
    rewrite ?Z.compare_refl, ?(Z.compare_antisym e0 e), ?Ee; simpl; try done;
    change PosDef.Pos.compare_cont with Pos.compare_cont;
    change (Pos.compare_cont Eq ?a ?b) with (Pos.compare a b);
    rewrite ?Pos.compare_refl; try done.
  by rewrite Pos.compare_antisym, Em.
Qed.

Lemma noise_price_floor b n : noise_price b n <> S754_nan /\ dlt (noise_price b n) min_price = false.
Proof. apply max_floor. Qed.

Lemma pick_ticker_ok tickers r : tickers <> [] ->
  exists ticker, pick_ticker tickers r = Ok ticker /\ ticker ∈ tickers.
Proof.
  intros Hne. unfold pick_ticker. destruct tickers as [|k l] eqn:E; [done|]. rewrite <- E in *.
  assert (0 < Z.of_nat (length tickers)) as Hl by (rewrite E; simpl; lia).
  pose proof (Z.mod_pos_bound r _ Hl).
  destruct (tickers !! Z.to_nat (r mod Z.of_nat (length tickers))) as [x|] eqn:Ex.
  - exists x. split; [done|]. by apply list_elem_of_lookup_2 in Ex.
  - apply lookup_ge_None in Ex. lia.
Qed.

Section NoiseTheorems.
Context {F : Type} `{FixLibrary} `{FixSession F} `{!FixSessionLaws F}.
Variables (time_of : Z -> string) (tickers : list string).
Implicit Types (t : NoiseTrader F).

Lemma noise_after_refl t : noise_after tickers t t.
Proof. split; [lia|]. exists [], []. rewrite app_nil_r. by repeat constructor. Qed.

Lemma noise_after_trans t1 t2 t3 :
  noise_after tickers t1 t2 -> noise_after tickers t2 t3 -> noise_after tickers t1 t3.
Proof.
  intros [H12 (ids & msgs & Hs & Hi & Hr & Hf)] [H23 (ids' & msgs' & Hs' & Hi' & Hr' & Hf')].
  split; [lia|]. exists (ids ++ ids'), (msgs ++ msgs'). split; [|split; [|split]].
  - by rewrite Hs', Hs, app_assoc.
  - apply StronglySorted_app. split_and!; [|done|done].
    intros x y Hx Hy. rewrite Forall_forall in Hr, Hr'.
    specialize (Hr x Hx). specialize (Hr' y Hy). simpl in *. lia.
  - apply Forall_app. split; [eapply Forall_impl; [exact Hr|]|eapply Forall_impl; [exact Hr'|]];
      simpl; intros; lia.
  - by apply Forall2_app.
Qed.

(** A request that is handed to the session. *)
Lemma noise_after_submit fc id n m : n < id -> noise_order tickers id m ->
  noise_after tickers (mkNoiseTrader (Some fc) n) (mkNoiseTrader (Some (submit fc m).1) id).
Proof.
  intros Hid Hm. split; [simpl; lia|]. unfold submit, nt_sent. simpl.
  destruct (get_session_id fc) as [[s tg]|e]; simpl; [|exists [], []; rewrite app_nil_r; by repeat constructor].
  destruct (fs_send _ _ _ _) as [f ok] eqn:E. simpl. rewrite (fs_send_law _ _ _ _ _ _ E).
  destruct ok; [|exists [], []; rewrite app_nil_r; by repeat constructor].
  exists [id], [(m, s, tg)]. split; [done|]. split; [repeat constructor|].
  split; [constructor; [lia|constructor]|by constructor].
Qed.

Lemma noise_turn_after baseline d t : tickers <> [] -> 0 <= nt_client_order_id t < INT_MAX ->
  exists t', noise_turn time_of tickers baseline d t = Ok t' /\ noise_after tickers t t' /\
    nt_client_order_id t' <= nt_client_order_id t + 1.
Proof.
  intros Hne Hn. unfold noise_turn. destruct (pick_ticker_ok tickers (nd_rand d) Hne) as (k & -> & Hk). simpl.
  destruct t as [[fc|] n]; simpl in *; [|eexists; split; [done|]; split; [apply noise_after_refl|simpl; lia]].
  destruct (is_connected fc) eqn:Ec; [|eexists; split; [done|]; split; [apply noise_after_refl|simpl; lia]].
  assert (add32 n 1 = Ok (n + 1)) as ->.
  { unfold_int. unfold INT_MAX in *. by rewrite !(proj2 (Z.leb_le _ _)) by lia. }
  simpl.
  destruct (nd_is_limit d).
  - unfold submit_limit_order. rewrite Ec, decide_True by done.
    match goal with |- context [submit fc ?m] => set (msg := m) end.
    pose proof (noise_after_submit fc (n + 1) n msg) as Hs. destruct (submit fc msg) as [fc' ok].
    eexists. split; [done|]. split; [apply Hs; [lia|]|simpl; lia].
    destruct (noise_price_floor (match baseline with Some f => f k | None => of_int 100 end) (nd_noise d)).
    split_and!; [done|done|by exists k|]. right. split; [done|]. eexists. split; [reflexivity|done].
  - unfold submit_market_order. rewrite Ec.
    match goal with |- context [submit fc ?m] => set (msg := m) end.
    pose proof (noise_after_submit fc (n + 1) n msg) as Hs. destruct (submit fc msg) as [fc' ok].
    eexists. split; [done|]. split; [apply Hs; [lia|]|simpl; lia].
    split_and!; [done|done|by exists k|]. by left.
Qed.

(** What a noise trader sends.  With at least one ticker, and as long as the [int] that
    numbers the orders does not overflow, every run of the loop returns, whatever is
    drawn and however the session goes up and down; all it sends are new orders for
    tickers of the list with increasing numbers, and each limit price is a number
    that is not below 0.01, even if the baseline is infinite or not a number. *)
Theorem noise_orders turns t : tickers <> [] -> 0 <= nt_client_order_id t ->
  nt_client_order_id t + Z.of_nat (length turns) <= INT_MAX ->
  exists t', run_strategy time_of tickers turns t = Ok t' /\ noise_after tickers t t'.
Proof.
  intros Hne. revert t. induction turns as [|[[up b] d] turns IH]; intros t Hpos Hmax; cbn [run_strategy].
  { exists t. split; [done|apply noise_after_refl]. }
  set (t1 := mkNoiseTrader _ _).
  assert (nt_sent t1 = nt_sent t) as Hsent by (destruct t as [[fc|] n], up as [[]|]; done).
  cbn [length] in Hmax.
  destruct (noise_turn_after b d t1 Hne) as (t2 & -> & Ha & Hid); [simpl; lia|].
  simpl in Hid. simpl. destruct (IH t2) as (t' & -> & Ha').
  { destruct Ha. simpl in *. lia. }
  { lia. }
  exists t'. split; [done|]. assert (noise_after tickers t t2) as Ha0.
  { destruct Ha as [Hle Hex]. split; [done|]. by rewrite <- Hsent. }
  by eapply noise_after_trans.
Qed.
End NoiseTheorems.

(** ** Concrete traders *)
#[local] Existing Instances fix42 fix42_laws open_session open_session_laws.

Definition no_time (_ : Z) : string := "t".

Definition sample_informed : InformedTrader (list (FixMessage * string * string)) :=
  mkInformedTrader (mkInformedFixClient sample_client {[ "GME"%string := of_int 100 ]} 0) ∅.
Definition informed_params : InformedParams :=
  mkInformedParams (of_int 100) (decimal 5 100) (of_int 10) (of_int 1000).

(** An offer at 10 of a share that is worth 12, and the report that it was taken. *)
Definition offered : MarketDataHandler :=
  mkMarketDataHandler ∅ ∅ {[ "GME"%string := mkOrderBookSnapshot (of_int 9) (of_int 1) (of_int 10) (of_int 1) ]}.

Lemma informed_inventory_frozen_witness :
  let hs := [Evaluate 1000000000 offered {[ "GME"%string := of_int 12 ]} "GME"; Report NEW fill_message] in
  snipes no_time informed_params sample_informed hs = [(1000000000, "GME"%string)] /\
  it_inventory (it_client (fold_left (happen no_time informed_params) hs sample_informed))
  = it_inventory (it_client sample_informed).
Proof.
  intros hs. split; [vm_compute; reflexivity|].
  apply (informed_inventory_frozen no_time informed_params sample_informed hs).
  repeat constructor. intros r E. vm_compute in E. injection E as <-. simpl. eauto.
Defined.

(** A ticker of which the oracle has said nothing yet has the true price 0, and the
    informed trader sells it at any bid. *)
Example unknown_price_sells :
  decide_trade informed_params 1000000000 (get_latest_orderbook offered "GME") (get_true_price ∅ "GME")
    (of_int 100) 0 = SnipeBid.
Proof. vm_compute. reflexivity. Qed.

(** Without any ticker the first turn of the noise trader divides by zero. *)
Example no_tickers_divides t b d :
  @noise_turn (list (FixMessage * string * string)) _ _ no_time [] b d t = Err DivisionByZero.
Proof. reflexivity. Qed.

Definition noise_run : list (option bool * option (string -> double) * NoiseDraws) :=
  [(None, None, mkNoiseDraws BUY (of_int 1) 7 true (of_int (-300)));
   (Some false, None, mkNoiseDraws BUY (of_int 1) 8 true dzero);
   (Some true, Some (fun _ => S754_nan), mkNoiseDraws SELL (of_int 2) 9 true dzero);
   (None, None, mkNoiseDraws SELL (of_int 2) 9 false dzero)].

Lemma noise_orders_witness :
  exists t', run_strategy no_time ["GME"%string; "AMC"%string] noise_run (mkNoiseTrader (Some sample_client) 0) = Ok t' /\
    noise_after ["GME"%string; "AMC"%string] (mkNoiseTrader (Some sample_client) 0) t' /\
    length (nt_sent t') = 3%nat.
Proof.
  destruct (noise_orders no_time ["GME"%string; "AMC"%string] noise_run (mkNoiseTrader (Some sample_client) 0))
    as (t' & E & Ha); [done|done|vm_compute; discriminate|].
  exists t'. split; [exact E|]. split; [exact Ha|].
  assert (length <$> (nt_sent <$> run_strategy no_time ["GME"%string; "AMC"%string] noise_run
            (mkNoiseTrader (Some sample_client) 0)) = Ok 3%nat) as Hl by (vm_compute; reflexivity).
  rewrite E in Hl. simpl in Hl. congruence.
Defined.
