(* ===== verification/Deployment.v ===== *)
(** * Deploying the simulation

    The four programs of [simulation/deployment] with their configuration
    ([libs/configuration/simulation_config.h]): each of them loads a TOML file and
    starts a number of traders, or the price oracle.  A trader needs a feed (a
    websocket client), a handler that reads it and a FIX session.

    Outside the repository: the registry of loggers of spdlog ([Spdlog]), the
    settings and the initiator of QuickFIX ([QuickFix]), the TOML reader (the
    configuration is what it returned) and the websocketpp endpoint.  What
    happens to the logon of each FIX client is an input ([Fate]).  A program that
    reaches its endless loop is one that returns here. *)

From S2P Require Import Prelude Core Doubles Fix MarketData Concurrency Transport Gateway FixClient MarketDataHandler MarketMaker Oracle Traders.
From Stdlib Require Import ZArith Lia Ascii String DecimalString.
From stdpp Require Import base option list list_numbers gmap sets strings fin_maps.

Open Scope Z_scope.
Open Scope string_scope.


Record MarketMakersConfig := mkMarketMakersConfig {
  mc_cfg_prefix : string;
  mc_num_market_makers : Z;
  mc_lot_size : double;
  mc_gamma : double;
  mc_k : double;
  mc_terminal_time : double;
  mc_initial_inventory : double;
  mc_mdp_ws_host : string;
  mc_mdp_ws_port : Z;
  mc_tickers : list string
}.


Record OracleServerConfig := mkOracleServerConfig {
  sc_mu : double;
  sc_sigma : double;
  sc_jump_intensity : double;
  sc_jump_mean : double;
  sc_jump_std : double;
  sc_update_interval_ms : Z;
  sc_oracle_ws_port : Z;
  sc_tickers : list string
}.

Definition default_tickers : list string := ["AAPL"; "MSFT"; "GOOG"].




Definition default_oracle_server : OracleServerConfig :=
  mkOracleServerConfig dzero (decimal 3 1000) (decimal 6 100) dzero (decimal 1 100) 60000 9005 default_tickers.

(** ** Outside the repository *)

(** The registry of spdlog: [basic_logger_mt] makes a logger, or throws. *)
Class Spdlog (R : Type) := {
  sp_registered : R -> gset string;
  sp_basic_logger_mt : R -> string -> string -> option R
}.

(** A name can be registered once; the log files can be opened. *)
Class SpdlogLaws (R : Type) `{Spdlog R} : Prop := {
  sp_new : forall r name path, name ∉ sp_registered r ->
    exists r', sp_basic_logger_mt r name path = Some r' /\ sp_registered r' = {[ name ]} ∪ sp_registered r;
  sp_again : forall r name path, name ∈ sp_registered r -> sp_basic_logger_mt r name path = None
}.

(** [SessionSettings] reads a file; [SocketInitiator] makes the sessions that it
    describes.  Both throw [ConfigError], a [std::logic_error]. *)
Class QuickFix (F : Type) := {
  qf_settings_type : Type;
  qf_settings : string -> option qf_settings_type;
  qf_initiator : qf_settings_type -> option (FixClient F)
}.

(** What becomes of [connect]: [start] of the initiator throws, or the polls of the
    loop see the flag and the clock (nanoseconds since the start). *)
Definition Fate : Type := option (list (bool * Z)).

Section Deployment.
Context {R E F : Type} `{Spdlog R} `{Endpoint E} `{QuickFix F}.
Variables (source_dir server_name : string) (fresh_endpoint : E).

(** The process: its loggers and [FixClient::_client_instance_counter]. *)
Record Process := mkProcess { pr_loggers : R; pr_client_instance_counter : Z }.

Implicit Types (p : Process).

(** ** logger.h *)
Definition create_logger p (logger_name log_output_path : string) : res Process :=
  r ← get_or RuntimeError (sp_basic_logger_mt (pr_loggers p) logger_name log_output_path);
  Ok (mkProcess r (pr_client_instance_counter p)).

(** ** websocket_client.h *)
Definition WebsocketManagerClient_ctor p (logger_name : string) : res (Process * WebsocketManager E) :=
  p ← create_logger p logger_name (source_dir +:+ "/logs/" +:+ logger_name +:+ ".log");
  Ok (p, mkManager fresh_endpoint ∅ ∅ 0 []).

(** A client, started and connected; the result of [connect] is ignored. *)
Definition open_feed p (logger_name uri : string) : res (Process * WebsocketManager E) :=
  '(p, ws) ← WebsocketManagerClient_ctor p logger_name;
  '(ws, _) ← client_connect ws uri "N/A";
  Ok (p, ws).

Definition ws_uri (host : string) (port : Z) : string := "ws://" +:+ host +:+ ":" +:+ to_string port.

(** ** fix_client.h, fix_client.cpp *)
Definition fix_logger_name (n : Z) : string := "fix_client_logger_" +:+ to_string n.

Definition FixClient_ctor p (setting_file : string) : res (Process * FixClient F) :=
  settings ← get_or LogicError (qf_settings setting_file);
  let n := wrap32 (pr_client_instance_counter p + 1) in
  let p := mkProcess (pr_loggers p) n in
  p ← (if decide (fix_logger_name n ∈ sp_registered (pr_loggers p)) then Ok p
       else create_logger p (fix_logger_name n) (source_dir +:+ "/logs/" +:+ fix_logger_name n +:+ ".log"));
  fix_client ← get_or LogicError (qf_initiator settings);
  Ok (p, fix_client).

(** [connect(5)] within [try]: the client, once its logon was seen. *)
Definition five_seconds : Z := 5000000000.

Definition try_connect (fate : Fate) (fix_client : FixClient F) : res (option (FixClient F)) :=
  match fate with
  | None => Ok None
  | Some polls =>
      match connect five_seconds 0 polls with
      | Ok _ => Ok (Some (onLogon fix_client))
      | Err OutOfFuel => Err OutOfFuel
      | Err _ => Ok None
      end
  end.

(** ** What a program has started: feeds and handlers by number, and the traders. *)
Record Deployment (A : Type) := mkDeployment {
  dp_process : Process;
  dp_ws_clients : list (WebsocketManager E);
  dp_md_handlers : list MarketDataHandler;
  dp_oracle_ws_clients : list (WebsocketManager E);
  dp_traders : list A
}.
Arguments mkDeployment {A} _ _ _ _ _.
Arguments dp_process {A} _.
Arguments dp_ws_clients {A} _.
Arguments dp_md_handlers {A} _.
Arguments dp_oracle_ws_clients {A} _.
Arguments dp_traders {A} _.

Definition config_path (cfg_prefix : string) (i : Z) : string := cfg_prefix +:+ "_" +:+ to_string (i + 1) +:+ ".cfg".
Definition feed_logger_name (cfg_prefix : string) (i : Z) : string := cfg_prefix +:+ to_string (i + 1) +:+ "_logger".
Definition log_dir : string := source_dir +:+ "/logs/" +:+ server_name.

(** [for (int i = 0; i < n; ++i)] *)
Fixpoint deploy_loop {S} (body : Z -> S -> res S) (n : nat) (i : Z) (st : S) : res S :=
  match n with
  | O => Ok st
  | Datatypes.S n' => st ← body i st; deploy_loop body n' (i + 1) st
  end.

(** ** create_n_market_makers.cpp *)
Record RunningMaker := mkRunningMaker {
  rm_md_handler : nat;
  rm_fix_client : MMFixClient F;
  rm_params : MakerParams;
  rm_tickers : list string
}.

Definition maker_params (config : MarketMakersConfig) : MakerParams :=
  mkMakerParams (mc_initial_inventory config) (mc_lot_size config) (mc_gamma config) (mc_k config)
    (mc_terminal_time config).

Definition make_maker (config : MarketMakersConfig) (md_handler : nat) (fix_client : FixClient F) : RunningMaker :=
  mkRunningMaker md_handler (maker_start (maker_params config) (mc_tickers config) (mkMMFixClient fix_client ∅ ∅ 0))
    (maker_params config) (mc_tickers config).

Definition deploy_market_maker (config : MarketMakersConfig) (fates : Z -> Fate) (i : Z)
    (st : Deployment RunningMaker) : res (Deployment RunningMaker) :=
  '(p, ws_client) ← open_feed (dp_process st) (feed_logger_name (mc_cfg_prefix config) i)
                      (ws_uri (mc_mdp_ws_host config) (mc_mdp_ws_port config));
  let md_handler := length (dp_md_handlers st) in
  '(p, fix_client) ← FixClient_ctor p (config_path (mc_cfg_prefix config) i);
  connected ← try_connect (fates i) fix_client;
  Ok (mkDeployment p (dp_ws_clients st ++ [ws_client]) (dp_md_handlers st ++ [new_handler])
        (dp_oracle_ws_clients st)
        (dp_traders st ++ match connected with Some fc => [make_maker config md_handler fc] | None => [] end)).

Definition create_n_market_makers (loaded : option MarketMakersConfig) (fates : Z -> Fate) p
    : res (Deployment RunningMaker) :=
  config ← get_or RuntimeError loaded;
  p ← create_logger p ("market_maker_" +:+ mc_cfg_prefix config +:+ "_logger")
        (log_dir +:+ "/" +:+ mc_cfg_prefix config +:+ ".log");
  deploy_loop (deploy_market_maker config fates) (Z.to_nat (mc_num_market_makers config)) 0
    (mkDeployment p [] [] [] []).


(** The lambda that the trader asks for a baseline price. *)
Definition baseline_price (h : MarketDataHandler) (ticker : string) : double :=
  match last (get_recent_trades h ticker) with Some t => st_price t | None => of_int 100 end.







Definition oracle_logger_name (i : Z) : string := "informed_t_for_cl" +:+ to_string (i + 1).


End Deployment.
Arguments mkDeployment {R E A} _ _ _ _ _.
Arguments dp_process {R E A} _.
Arguments dp_ws_clients {R E A} _.
Arguments dp_md_handlers {R E A} _.
Arguments dp_oracle_ws_clients {R E A} _.
Arguments dp_traders {R E A} _.

(** ** Names *)
Section Names.
Abbreviation chars := list_ascii_of_string.

Lemma digit_prefix_all s : digit_prefix s = s -> Forall (fun c => is_digit c = true) (chars s).
Proof.
  induction s as [|c s IH]; simpl; [constructor|]. destruct (is_digit c) eqn:Hc; [|done].
  intros [= E]. constructor; [done|by apply IH].
Qed.

Lemma to_string_digits z : 0 <= z ->
  Forall (fun c => is_digit c = true) (chars (to_string z)) /\ chars (to_string z) <> [].
Proof.
  intros Hz. unfold to_string. destruct z as [|q|q]; [by repeat constructor| |lia]. simpl.
  pose proof (DecimalPos.Unsigned.to_uint_nonnil q) as Hq. set (d := Pos.to_uint q) in *.
  assert (NilZero.string_of_uint d = NilEmpty.string_of_uint d) as -> by (by destruct d).
  split; [apply digit_prefix_all, digit_prefix_uint|]. by destruct d.
Qed.

Lemma last_digits a z : 0 <= z -> exists c, last (chars (a +:+ to_string z)) = Some c /\ is_digit c = true.
Proof.
  intros [Hd Hne]%to_string_digits. rewrite chars_app. destruct (chars (to_string z)) as [|c l _] using rev_ind; [done|].
  exists c. rewrite app_assoc, last_snoc. split; [done|]. by apply Forall_app in Hd as [_ [? _]%Forall_cons].
Qed.

(** A name that ends in a number is none that ends in [_logger]. *)
Lemma number_not_logger a b z : 0 <= z -> a +:+ to_string z <> b +:+ "_logger".
Proof.
  intros Hz E. destruct (last_digits a z Hz) as (c & Hl & Hc).
  rewrite E, chars_app in Hl. simpl in Hl. rewrite last_app_cons in Hl. injection Hl as <-. done.
Qed.

(** The program's own logger: words [m] that are not numbers do not move through the prefix. *)
Lemma prefix_not_conjugate m prefix z :
  0 <= z -> "_"%char ∈ chars m -> m +:+ prefix <> prefix +:+ to_string z.
Proof.
  intros [Hd _]%to_string_digits Hm E%(f_equal chars). rewrite !chars_app in E.
  assert (chars m ++ chars prefix ≡ₚ chars (to_string z) ++ chars prefix) as E'
    by (rewrite E; apply Permutation_app_comm).
  apply Permutation_app_inv_r in E'. rewrite E' in Hm. rewrite Forall_forall in Hd. by apply Hd in Hm.
Qed.
End Names.

(** ** What is deployed *)
Section Deploys.
Context {R E F : Type} `{Spdlog R} `{!SpdlogLaws R} `{Endpoint E} `{QuickFix F}.
Variables (source_dir server_name : string) (fresh_endpoint : E).
Implicit Types (p : Process (R := R)) (fates : Z -> Fate).

(** The FIX client that a settings file describes. *)
Definition session_of (path : string) : option (FixClient F) :=
  settings ← qf_settings path; qf_initiator settings.

Definition logs_on (fate : Fate) : bool :=
  match fate with
  | Some polls => match connect five_seconds 0 polls with Ok _ => true | Err _ => false end
  | None => false
  end.

(** The logon comes, or the five seconds pass. *)
Definition settled (fate : Fate) : Prop :=
  match fate with Some polls => connect five_seconds 0 polls <> Err OutOfFuel | None => True end.

(** A new websocket client after its [connect]. *)
Definition feed_to (uri : string) : WebsocketManager E :=
  match ep_get_connection fresh_endpoint uri with
  | (e, None) => mkManager e ∅ ∅ 0 []
  | (e, Some c) =>
      mkManager (ep_connect (ep_append_header e c "client_name" "N/A") c) {[ 0 := new_metadata 0 c uri ]} ∅ 1 []
  end.

(** Trader number [j], if it has one: made from its own settings and its own feed. *)
Definition trader_at {A} (mk : nat -> FixClient F -> A) (prefix : string) fates (j : nat) : option A :=
  fc ← session_of (config_path prefix (Z.of_nat j));
  if logs_on (fates (Z.of_nat j)) then Some (mk j (onLogon fc)) else None.

(** [n] feeds, each read by a handler, and the traders that logged on. *)
Definition deployed {A} (uri : string) (oracle_uri : option string) (mk : nat -> FixClient F -> A)
    (prefix : string) fates (n : nat) (st : Deployment (R := R) (E := E) A) : Prop :=
  dp_ws_clients st = replicate n (feed_to uri) /\ dp_md_handlers st = replicate n new_handler /\
  dp_oracle_ws_clients st = match oracle_uri with Some u => replicate n (feed_to u) | None => [] end /\
  dp_traders st = omap (trader_at mk prefix fates) (seq 0 n).

(** The names that may be taken after [n] turns of the loop. *)
Definition taken (own prefix : string) (n : nat) (name : string) : Prop :=
  name = own +:+ prefix +:+ "_logger" \/
  exists j, (j < n)%nat /\ (name = feed_logger_name prefix (Z.of_nat j) \/ name = oracle_logger_name (Z.of_nat j) \/
                      name = fix_logger_name (Z.of_nat j + 1)).

Definition names_ok (own prefix : string) (n : nat) p : Prop :=
  pr_client_instance_counter p = Z.of_nat n /\
  forall name, name ∈ sp_registered (pr_loggers p) -> taken own prefix n name.

Lemma int_small n : Z.of_nat n < INT_MAX -> in_i32 (Z.of_nat n + 1) = true.
Proof. unfold in_i32, INT_MIN, INT_MAX. intros. apply andb_true_intro. split; apply Z.leb_le; lia. Qed.

Lemma wrap32_small n : Z.of_nat n < INT_MAX -> wrap32 (Z.of_nat n + 1) = Z.of_nat n + 1.
Proof.
  unfold INT_MAX, wrap32. intros Hn. rewrite Z.mod_small by lia. by rewrite (proj2 (Z.ltb_lt _ _)) by lia.
Qed.

Lemma feed_name_inj prefix j n :
  feed_logger_name prefix (Z.of_nat j) = feed_logger_name prefix (Z.of_nat n) -> j = n.
Proof.
  intros He. unfold feed_logger_name in He. apply (inj _), append_inj_r, to_string_inj in He. lia.
Qed.

Lemma feed_name_free own prefix n :
  "_"%char ∈ list_ascii_of_string own -> Z.of_nat n < INT_MAX -> ~ taken own prefix n (feed_logger_name prefix (Z.of_nat n)).
Proof.
  intros Hown Hn [He|(j & Hj & [He|[He|He]])].
  - unfold feed_logger_name in He. rewrite <- !append_assoc in He. apply append_inj_r in He.
    by eapply prefix_not_conjugate; [|exact Hown|by rewrite He]; lia.
  - apply feed_name_inj in He; lia.
  - unfold feed_logger_name in He. rewrite <- append_assoc in He. by eapply number_not_logger; [|by rewrite He]; lia.
  - unfold feed_logger_name in He. rewrite <- append_assoc in He. by eapply number_not_logger; [|by rewrite He]; lia.
Qed.


Lemma create_logger_ok p name path :
  name ∉ sp_registered (pr_loggers p) ->
  exists p', create_logger p name path = Ok p' /\ pr_client_instance_counter p' = pr_client_instance_counter p /\
    sp_registered (pr_loggers p') = {[ name ]} ∪ sp_registered (pr_loggers p).
Proof.
  intros Hn. destruct (sp_new _ _ path Hn) as (r' & Hr & Hreg). eexists. unfold create_logger. rewrite Hr. simpl. eauto.
Qed.

Lemma open_feed_ok p name uri :
  name ∉ sp_registered (pr_loggers p) ->
  exists p', open_feed source_dir fresh_endpoint p name uri = Ok (p', feed_to uri) /\
    pr_client_instance_counter p' = pr_client_instance_counter p /\
    sp_registered (pr_loggers p') = {[ name ]} ∪ sp_registered (pr_loggers p).
Proof.
  intros Hn. unfold open_feed, WebsocketManagerClient_ctor.
  edestruct (create_logger_ok p name) as (p' & -> & Hc & Hr); [done|]. exists p'. split; [|done]. simpl.
  unfold client_connect, feed_to. simpl. by destruct (ep_get_connection fresh_endpoint uri) as [e [c|]].
Qed.

(** The client's own logger is made, or found. *)
Lemma FixClient_ctor_ok p file fc n :
  session_of file = Some fc -> pr_client_instance_counter p = Z.of_nat n -> Z.of_nat n < INT_MAX ->
  exists p', FixClient_ctor source_dir p file = Ok (p', fc) /\ pr_client_instance_counter p' = Z.of_nat (S n) /\
    sp_registered (pr_loggers p') ⊆ {[ fix_logger_name (Z.of_nat n + 1) ]} ∪ sp_registered (pr_loggers p).
Proof.
  unfold session_of. intros (settings & Hs & Hi)%bind_Some Hn Hmax. unfold FixClient_ctor. rewrite Hs. simpl.
  rewrite Hn, wrap32_small by done. destruct (decide _) as [Hin|Hnew].
  - simpl. rewrite Hi. simpl. eexists. split; [done|]. simpl. split; [lia|set_solver].
  - edestruct (create_logger_ok (mkProcess (pr_loggers p) (Z.of_nat n + 1))) as (p' & -> & Hc & Hr); [exact Hnew|].
    simpl. rewrite Hi. simpl. exists p'. split; [done|]. rewrite Hc, Hr. split; [simpl; lia|done].
Qed.

(** A settings file that cannot be used is an exception that nothing catches. *)
Lemma FixClient_ctor_fails p file :
  session_of file = None -> FixClient_ctor source_dir p file = Err LogicError.
Proof.
  unfold session_of, FixClient_ctor. intros Hs. destruct (qf_settings file) as [settings|]; [|done].
  simpl in *. destruct (decide _) as [Hin|Hnew]; simpl; [by rewrite Hs|].
  edestruct (create_logger_ok (mkProcess (pr_loggers p) (wrap32 (pr_client_instance_counter p + 1)))) as (p' & -> & _);
    [exact Hnew|]. simpl. by rewrite Hs.
Qed.

Lemma try_connect_ok fate (fc : FixClient F) :
  settled fate -> try_connect fate fc = Ok (if logs_on fate then Some (onLogon fc) else None).
Proof.
  unfold settled, try_connect, logs_on. destruct fate as [polls|]; [|done].
  destruct (connect five_seconds 0 polls) as [|[]]; try done.
Qed.

Lemma taken_more own prefix n m name : (n <= m)%nat -> taken own prefix n name -> taken own prefix m name.
Proof. intros Hm [->|(j & Hj & Hname)]; [by left|]. right. exists j. split; [lia|done]. Qed.

Lemma omap_snoc {A B} (f : A -> option B) l x : omap f (l ++ [x])%list = (omap f l ++ option_list (f x))%list.
Proof. rewrite omap_app. simpl. by destruct (f x). Qed.

Lemma replicate_snoc {A} n (x : A) : replicate (S n) x = (replicate n x ++ [x])%list.
Proof. by rewrite replicate_S_end. Qed.

Section Turn.
Context {A : Type} (mk : nat -> FixClient F -> A) (own prefix uri : string) (fates : Z -> Fate).
Hypothesis Hown : "_"%char ∈ list_ascii_of_string own.

(** The state after [n] turns. *)
Definition turned (oracle_uri : option string) (n : nat) (st : Deployment (R := R) (E := E) A) : Prop :=
  names_ok own prefix n (dp_process st) /\ deployed uri oracle_uri mk prefix fates n st.

(** The end of a turn: the FIX client, the logon and the trader. *)
Definition finish_turn (i : Z) (md_handler : nat) (st : Deployment (R := R) (E := E) A) (p : Process (R := R))
    (ws oracle_ws : list (WebsocketManager E)) : res (Deployment (R := R) (E := E) A) :=
  '(p, fix_client) ← FixClient_ctor source_dir p (config_path prefix i);
  connected ← try_connect (fates i) fix_client;
  Ok (mkDeployment p ws (dp_md_handlers st ++ [new_handler])%list oracle_ws
        (dp_traders st ++ match connected with Some fc => [mk md_handler fc] | None => [] end)%list).

Lemma finish_turn_ok n st p ws ows fc oracle_uri :
  Z.of_nat n < INT_MAX -> session_of (config_path prefix (Z.of_nat n)) = Some fc -> settled (fates (Z.of_nat n)) ->
  deployed uri oracle_uri mk prefix fates n st -> ws = replicate (S n) (feed_to uri) ->
  ows = match oracle_uri with Some u => replicate (S n) (feed_to u) | None => [] end ->
  pr_client_instance_counter p = Z.of_nat n ->
  (forall name, name ∈ sp_registered (pr_loggers p) -> taken own prefix (S n) name) ->
  exists st', finish_turn (Z.of_nat n) (length (dp_md_handlers st)) st p ws ows = Ok st' /\ turned oracle_uri (S n) st'.
Proof.
  intros Hn Hs Hset (_ & Hh & _ & Ht) -> -> Hc Hreg. unfold finish_turn.
  destruct (FixClient_ctor_ok p _ fc n Hs Hc Hn) as (p' & -> & Hc' & Hr'). simpl.
  rewrite try_connect_ok by done. simpl. eexists. split; [done|]. split; [split; [done|]|].
  - intros name Hname. simpl in Hname. apply Hr', elem_of_union in Hname as [->%elem_of_singleton|Hname]; [|by apply Hreg].
    right. exists n. split; [lia|]. auto.
  - split; [done|]. split; [simpl; by rewrite Hh, <- replicate_snoc|]. split; [done|].
    cbn [dp_traders]. rewrite Ht, seq_S, Nat.add_0_l, omap_snoc, Hh, length_replicate. f_equal. unfold trader_at. rewrite Hs. simpl.
    by destruct (logs_on (fates (Z.of_nat n))).
Qed.

Lemma feed_opened n p :
  names_ok own prefix n p -> Z.of_nat n < INT_MAX ->
  exists p', open_feed source_dir fresh_endpoint p (feed_logger_name prefix (Z.of_nat n)) uri = Ok (p', feed_to uri) /\
    pr_client_instance_counter p' = Z.of_nat n /\
    (forall name, name ∈ sp_registered (pr_loggers p') -> taken own prefix n name \/ name = feed_logger_name prefix (Z.of_nat n)).
Proof.
  intros [Hc Hreg] Hn. destruct (open_feed_ok p (feed_logger_name prefix (Z.of_nat n)) uri) as (p' & -> & Hc' & Hr').
  { intros Hin. by apply (feed_name_free own prefix n Hown Hn), Hreg. }
  exists p'. split; [done|]. split; [congruence|]. rewrite Hr'. set_solver.
Qed.

Lemma taken_feed n name :
  taken own prefix n name \/ name = feed_logger_name prefix (Z.of_nat n) -> taken own prefix (S n) name.
Proof.
  intros [Ht| ->]; [by eapply taken_more; [|exact Ht]; lia|]. right. exists n. split; [lia|auto].
Qed.

(** A turn of the loop of the market makers and of the noise traders. *)
Definition plain_turn (i : Z) (st : Deployment (R := R) (E := E) A) : res (Deployment (R := R) (E := E) A) :=
  '(p, ws_client) ← open_feed source_dir fresh_endpoint (dp_process st) (feed_logger_name prefix i) uri;
  finish_turn i (length (dp_md_handlers st)) st p (dp_ws_clients st ++ [ws_client])%list (dp_oracle_ws_clients st).

Lemma plain_turn_ok n st fc :
  Z.of_nat n < INT_MAX -> session_of (config_path prefix (Z.of_nat n)) = Some fc -> settled (fates (Z.of_nat n)) ->
  turned None n st -> exists st', plain_turn (Z.of_nat n) st = Ok st' /\ turned None (S n) st'.
Proof.
  intros Hn Hs Hset [Hnames Hd]. unfold plain_turn.
  destruct (feed_opened n _ Hnames Hn) as (p & -> & Hc & Hreg). simpl. pose proof Hd as (Hw & Hh & Ho & Ht).
  eapply finish_turn_ok; try done; [by rewrite Hw, replicate_snoc|]. eauto using taken_feed.
Qed.


End Turn.


(** After [k] good turns one that ends in an exception ends the loop. *)
Lemma deploy_loop_err {S} (body : Z -> S -> res S) (inv : nat -> S -> Prop) m k j e st :
  (forall n st, (k <= n < j)%nat -> inv n st -> exists st', body (Z.of_nat n) st = Ok st' /\ inv (Datatypes.S n) st') ->
  (forall st, inv j st -> body (Z.of_nat j) st = Err e) -> (k <= j < k + m)%nat ->
  inv k st -> deploy_loop body m (Z.of_nat k) st = Err e.
Proof.
  revert k st. induction m as [|m IH]; intros k st Hbody Hbad Hj Hinv; simpl; [lia|].
  destruct (decide (k = j)) as [->|Hne]; [by rewrite Hbad|].
  destruct (Hbody k st ltac:(lia) Hinv) as (st1 & -> & Hinv1). simpl.
  replace (Z.of_nat k + 1) with (Z.of_nat (Datatypes.S k)) by lia.
  apply IH; [|done|lia|done]. intros n st' Hn. apply Hbody. lia.
Qed.

(** The settings files of the first [n] traders can be used, and each logon is
    decided within its time. *)
Definition ready (prefix : string) (n : Z) fates : Prop :=
  n <= INT_MAX /\
  forall j, 0 <= j < n -> is_Some (session_of (config_path prefix j)) /\ settled (fates j).





(** ** What the configuration promises *)
















(** One settings file that cannot be used ends the program and every trader that it
    has started, although the comment expects that the exception is handled: the
    constructor is called outside the [try] block. *)
Theorem missing_settings_stop r fates config j :
  sp_registered r = ∅ -> mc_num_market_makers config <= INT_MAX ->
  0 <= j < mc_num_market_makers config -> ready (mc_cfg_prefix config) j fates ->
  session_of (config_path (mc_cfg_prefix config) j) = None ->
  create_n_market_makers source_dir server_name fresh_endpoint (Some config) fates (mkProcess r 0) = Err LogicError.
Proof.
  intros Hr Hmax Hj [_ Hall] Hbad. unfold create_n_market_makers. simpl.
  set (own := "market_maker_" +:+ mc_cfg_prefix config +:+ "_logger").
  destruct (create_logger_ok (mkProcess r 0) own (log_dir source_dir server_name +:+ "/" +:+ mc_cfg_prefix config +:+ ".log"))
    as (p & -> & Hc & Hreg); [simpl; by rewrite Hr|]. simpl.
  set (uri := ws_uri (mc_mdp_ws_host config) (mc_mdp_ws_port config)).
  assert ("_"%char ∈ list_ascii_of_string "market_maker_") as Hown by set_solver.
  apply (deploy_loop_err _ (turned (make_maker config) "market_maker_" (mc_cfg_prefix config) uri fates None)
    (Z.to_nat (mc_num_market_makers config)) 0 (Z.to_nat j)).
  - intros n st Hn Hst. destruct (Hall (Z.of_nat n) ltac:(lia)) as [[fc Hfc] Hset].
    apply (plain_turn_ok (make_maker config) "market_maker_" (mc_cfg_prefix config) uri fates Hown n st fc); try done. lia.
  - intros st [Hnames _]. rewrite Z2Nat.id by lia.
    destruct (feed_opened (make_maker config) "market_maker_" (mc_cfg_prefix config) uri Hown (Z.to_nat j) _ Hnames) as (p' & Hf & _); [lia|].
    rewrite Z2Nat.id in Hf by lia. unfold deploy_market_maker. fold uri. rewrite Hf. simpl.
    by rewrite FixClient_ctor_fails.
  - lia.
  - split; [split; [done|]|by repeat split].
    intros name Hname. left. simpl in Hname. rewrite Hreg in Hname. simpl in Hname. rewrite Hr in Hname. set_solver.
Qed.
End Deploys.

(** Two traders never use the same settings file. *)
Lemma config_path_inj prefix i j : config_path prefix i = config_path prefix j -> i = j.
Proof.
  intros He. unfold config_path in He. apply (inj _), (inj _) in He.
  apply append_inj_r, to_string_inj in He. lia.
Qed.

(** The baseline of the noise traders is the price of the last trade that was seen. *)
Lemma baseline_price_last h ticker t : baseline_price (record_trade h ticker t) ticker = st_price t.
Proof.
  unfold baseline_price, record_trade, get_recent_trades.
  assert (forall l : list SeenTrade, last (match (l ++ [t])%list with
    | old :: rest => if (m_max_trades_window <? length (l ++ [t]))%nat then rest else (l ++ [t])%list
    | [] => (l ++ [t])%list end) = Some t) as Hlast.
  { intros [|x l]; [by vm_compute|]. cbn [app]. destruct (_ <? _)%nat; [apply last_snoc|].
    change (x :: l ++ [t])%list with ((x :: l) ++ [t])%list. apply last_snoc. }
  specialize (Hlast (default [] (md_trades h !! ticker))).
  destruct (default [] (md_trades h !! ticker) ++ [t])%list as [|old rest] eqn:He; [by destruct (default [] _)|].
  destruct (m_max_trades_window <? length (old :: rest))%nat;
    cbn [md_trades]; rewrite lookup_insert_eq; unfold default, from_option, id; by rewrite Hlast.
Qed.

(** ** create_oracle.cpp *)
Section OracleProgram.
Context {R E : Type} `{Spdlog R} `{Endpoint E}.
Variables (source_dir server_name : string) (fresh_endpoint : E).

Record RunningOracle := mkRunningOracle {
  ro_ws_server : WebsocketManager E;
  ro_true_prices : Prices;
  ro_config : OracleConfig
}.

Definition seed_prices (tickers : list string) : gmap string double :=
  fold_left (fun m ticker => <[ticker := of_int 100]> m) tickers ∅.

Definition svc_config (config : OracleServerConfig) : OracleConfig :=
  mkOracleConfig (sc_mu config) (sc_sigma config) (sc_jump_intensity config) (sc_jump_mean config)
    (sc_jump_std config) (sc_update_interval_ms config).

(** The program ends with status 1 if the server does not start, or goes on. *)
Definition create_oracle (loaded : option OracleServerConfig) (p : Process (R := R)) : res (Z + RunningOracle) :=
  config ← get_or RuntimeError loaded;
  p ← create_logger p "oracle_logger" (log_dir source_dir server_name +:+ "/oracle.log");
  _ ← create_logger p "oracle_ws_logger" (source_dir +:+ "/logs/oracle_ws_logger.log");
  let '(ws_server, started) := server_start (mkManager fresh_endpoint ∅ ∅ 0 []) in
  if negb started then Ok (inl 1)
  else Ok (inr (mkRunningOracle ws_server
                  (OracleService_ctor (sc_tickers config) (seed_prices (sc_tickers config)))
                  (svc_config config))).

(** What [run_loop] does with the messages of one pass: [send(0, ...)]. *)
Definition send_prices (server : WebsocketManager E) (messages : list string) : WebsocketManager E :=
  fold_left (fun w m => (send w 0 m fmt_binary).1) messages server.

(** The prices go to the connection with number 0 and to no other. *)
Lemma oracle_sends_to_first server messages id :
  id <> 0 -> sent_on (send_prices server messages) id = sent_on server id.
Proof.
  intros Hid. unfold send_prices. revert server. induction messages as [|m messages IH]; intros server; cbn [fold_left]; [done|].
  rewrite IH. destruct (send server 0 m fmt_binary) as [w ok] eqn:Hs.
  destruct (websocket_send_law _ _ _ _ _ _ Hs) as [_ Hsent]. cbn [fst]. rewrite Hsent.
  by rewrite (proj2 (Z.eqb_neq id 0)), andb_false_r.
Qed.

Lemma seed_prices_all tickers k price : seed_prices tickers !! k = Some price -> price = of_int 100.
Proof.
  unfold seed_prices. set (m := ∅ : gmap string double).
  assert (forall x, m !! k = Some x -> x = of_int 100) as Hm by done. clearbody m.
  revert m Hm. induction tickers as [|t tickers IH]; intros m Hm; simpl; [apply Hm|].
  apply IH. intros x [[_ <-]|[_ Hx]]%lookup_insert_Some; eauto.
Qed.

Lemma ctor_prices tickers init :
  Forall (fun kp => kp.2 = default (of_int 100) (init !! kp.1)) (OracleService_ctor tickers init).
Proof.
  unfold OracleService_ctor. set (m := [] : Prices).
  assert (Forall (fun kp => kp.2 = default (of_int 100) (init !! kp.1)) m) as Hm by constructor. clearbody m.
  revert m Hm. induction tickers as [|t tickers IH]; intros m Hm; simpl; [done|].
  apply IH. induction Hm as [|[k x] m Hx Hm IHm]; simpl; [by repeat constructor|].
  destruct (String.compare t k) eqn:Hc.
  - apply String.compare_eq_iff in Hc as ->. by constructor.
  - by repeat constructor.
  - by constructor.
Qed.

Lemma ctor_keys tickers init k : k ∈ map fst (OracleService_ctor tickers init) <-> k ∈ tickers.
Proof.
  unfold OracleService_ctor. assert (forall m, k ∈ map fst (fold_left (fun m ticker =>
    price_insert ticker (default (of_int 100) (init !! ticker)) m) tickers m) <-> k ∈ tickers \/ k ∈ map fst m) as Hm.
  { induction tickers as [|t tickers IH]; intros m; simpl; [set_solver|]. rewrite IH, price_insert_keys. set_solver. }
  rewrite Hm. set_solver.
Qed.

(** The oracle starts with every configured ticker, and no other, at 100. *)
Lemma oracle_deployed `{!SpdlogLaws R} r config :
  sp_registered r = ∅ -> (ep_start_accept fresh_endpoint).2 = true ->
  exists o, create_oracle (Some config) (mkProcess r 0) = Ok (inr o) /\ ro_config o = svc_config config /\
    (forall k, k ∈ map fst (ro_true_prices o) <-> k ∈ sc_tickers config) /\
    Forall (fun kp => kp.2 = of_int 100) (ro_true_prices o).
Proof.
  intros Hr Hstart. unfold create_oracle. cbn [get_or mbind res_bind].
  destruct (create_logger_ok (mkProcess r 0) "oracle_logger" (log_dir source_dir server_name +:+ "/oracle.log"))
    as (p & Hp & _ & Hreg); [simpl; by rewrite Hr|]. rewrite Hp. simpl.
  destruct (create_logger_ok p "oracle_ws_logger" (source_dir +:+ "/logs/oracle_ws_logger.log")) as (p' & -> & _).
  { rewrite Hreg. simpl. rewrite Hr. set_solver. }
  simpl. unfold server_start. simpl. destruct (ep_start_accept fresh_endpoint) as [e ok]. simpl in Hstart. subst ok.
  eexists. split; [done|]. split; [done|]. simpl. split; [apply ctor_keys|].
  eapply Forall_impl; [apply ctor_prices|]. intros [k x] ->. simpl.
  destruct (seed_prices (sc_tickers config) !! k) as [y|] eqn:Hy; [|done]. by apply seed_prices_all in Hy.
Qed.
End OracleProgram.

(** ** A concrete deployment *)
Definition set_spdlog : Spdlog (gset string) := {|
  sp_registered := fun r => r;
  sp_basic_logger_mt := fun r name _ => if decide (name ∈ r) then None else Some ({[ name ]} ∪ r)
|}.

Lemma set_spdlog_laws : @SpdlogLaws _ set_spdlog.
Proof.
  split; simpl; intros r name path Hn.
  - rewrite decide_False by done. eauto.
  - by rewrite decide_True.
Qed.

(** Every settings file describes one session, named after it. *)
Definition file_quickfix : QuickFix (list (FixMessage * string * string)) := {|
  qf_settings_type := string;
  qf_settings := fun path => Some path;
  qf_initiator := fun settings => Some (mkFixClient false [(settings, "EDUX")] [])
|}.

#[local] Existing Instances set_spdlog set_spdlog_laws file_quickfix.



