(* ===== verification/UatSeeder.v ===== *)
(** * The UAT seeder of the backend

    [services/backend_service/uat_seeder.h]: test users, a test server with balances
    and a random walk of trades, written when the backend starts in UAT mode and wiped
    when it stops.  The random draws and the clock are inputs. *)

From S2P Require Import Prelude Core Doubles PgArray Postgres DatabaseClient DatabaseTheorems DatabaseSpecs DatabaseEffects Concurrency AsyncWriter QuestDb.
From Stdlib Require Import ZArith Lia Ascii String SpecFloat.
From stdpp Require Import base option list gmap strings sets fin_maps fin_sets.

Open Scope Z_scope.

(** The seeder with the connections it works on. *)
Record Seeder := mkSeeder {
  ua_conn : Conn;
  ua_quest : QConn;
  m_uat_user_ids : list Z;
  m_uat_server_ids : list Z
}.

Definition uat_users : list (string * string) :=
  [("uat_admin", "uat_pass"); ("uat_trader1", "uat_pass"); ("uat_trader2", "uat_pass")]%string.
Definition uat_symbols : list string := ["AAPL"; "GOOGL"; "TSLA"]%string.
Definition uat_server : string := "UAT_Server".
Definition uat_description : string := "UAT Test Server — auto-generated for frontend testing".

Definition balance_multiplier_squared : Z :=
  match trunc_i64 (dmul decimal_to_int_multiplier decimal_to_int_multiplier) with Ok z => z | Err _ => 0 end.

Definition uat_balances (admin_id trader1_id trader2_id : Z) : list (Z * string * Z) :=
  [(admin_id, "USD", 100000); (admin_id, "AAPL", 50); (admin_id, "GOOGL", 30); (admin_id, "TSLA", 20);
   (trader1_id, "USD", 85000); (trader1_id, "AAPL", 100); (trader1_id, "GOOGL", 0); (trader1_id, "TSLA", 40);
   (trader2_id, "USD", 90000); (trader2_id, "AAPL", 0); (trader2_id, "GOOGL", 60); (trader2_id, "TSLA", 15)]%string.

Section Seed.
Context `{Postgres} `{QuestServer}.

(** A user that is there already is used instead; [None]: neither created nor found. *)
Definition seed_user (name password : string) (c : Conn) : option Z * Conn :=
  match create_user name password c with
  | (inl u, c) => (Some (uw_user_id u), c)
  | (inr _, c) =>
      match get_user name c with
      | (inl (Some u), c) => (Some (uw_user_id u), c)
      | (_, c) => (None, c)
      end
  end.

Fixpoint seed_users (users : list (string * string)) (ids : list Z) (c : Conn) : bool * list Z * Conn :=
  match users with
  | [] => (true, ids, c)
  | (name, password) :: users' =>
      match seed_user name password c with
      | (Some id, c) => seed_users users' (ids ++ [id]) c
      | (None, c) => (false, ids, c)
      end
  end.

Definition seed_server (admin_id trader1_id trader2_id : Z) (c : Conn) : option Z * Conn :=
  match create_server uat_server admin_id uat_description uat_symbols [trader1_id; trader2_id] 100000 c with
  | (inl id, c) => (Some id, c)
  | (inr _, c) =>
      match get_server uat_server c with
      | (inl (Some row), c) => (Some (sw_server_id row), c)
      | (_, c) => (None, c)
      end
  end.

(** A failure is only reported. *)
Definition seed_balance (server_id : Z) (c : Conn) (b : Z * string * Z) : Conn :=
  (insert_balance b.1.1 server_id b.1.2 (b.2 * balance_multiplier_squared) c).2.

Definition seed_tables (s : Seeder) : bool * Seeder :=
  let '(ok, ids, c) := seed_users uat_users (m_uat_user_ids s) (ua_conn s) in
  if negb ok then (false, mkSeeder c (ua_quest s) ids (m_uat_server_ids s))
  else
    match ids with
    | admin_id :: trader1_id :: trader2_id :: _ =>
        match seed_server admin_id trader1_id trader2_id c with
        | (None, c) => (false, mkSeeder c (ua_quest s) ids (m_uat_server_ids s))
        | (Some server_id, c) =>
            let c := fold_left (seed_balance server_id) (uat_balances admin_id trader1_id trader2_id) c in
            (true, mkSeeder c (ua_quest s) ids (m_uat_server_ids s ++ [server_id]))
        end
    | _ => (false, s)
    end.

(** ** Trades *)
Record SymbolConfig := mkSymbolConfig { sc_sym : string; sc_base_price : double; sc_min_price : Z }.

Definition sym_cfg : list SymbolConfig :=
  [mkSymbolConfig "AAPL" (of_int 17000) 15000;
   mkSymbolConfig "GOOGL" (of_int 280000) 250000;
   mkSymbolConfig "TSLA" (of_int 22000) 18000].

Definition two_hours_us : Z := 2 * 60 * 60 * 1000000.
Definition n_trades : nat := 200.
Definition step_us : Z := two_hours_us / Z.of_nat n_trades.

(** The draws for one trade: the step of the price, the jitter of the time, between 0 and
    a quarter of a step, and the quantity, between 1 and 200. *)
Record TradeDraw := mkTradeDraw { td_step : double; td_jitter : Z; td_qty : Z }.

Definition seeded_row (sym : string) (price qty trade_id ts : Z) (i : nat) : Row :=
  [LTable "trades"; LSymbol "symbol" sym; LInt "price" price; LInt "quantity" qty;
   LInt "trade_id" trade_id; LInt "taker_id" 1; LInt "maker_id" 2;
   LInt "taker_order_id" (Z.of_nat i + 1); LInt "maker_order_id" (Z.of_nat i + 1000);
   LBool "is_taker_buyer" (Nat.even i); LAtMicros ts].

(** The rows of one symbol from trade [i] on, [n] of them. *)
Fixpoint symbol_rows (sc : SymbolConfig) (draw : nat -> TradeDraw) (price : double) (ts trade_id : Z)
    (i n : nat) : res (list Row) :=
  match n with
  | O => Ok []
  | S n' =>
      let price := dmax (of_int (sc_min_price sc)) (dadd price (td_step (draw i))) in
      ts ← add64 ts (step_us + td_jitter (draw i));
      p ← llround price;
      rows ← symbol_rows sc draw price ts (trade_id + 1) (S i) n';
      Ok (seeded_row (sc_sym sc) p (td_qty (draw i)) trade_id ts i :: rows)
  end.

Fixpoint all_rows (symbols : list string) (now_us : Z) (draws : string -> nat -> TradeDraw)
    (cfgs : list SymbolConfig) (trade_id : Z) : res (list Row) :=
  match cfgs with
  | [] => Ok []
  | sc :: cfgs' =>
      if bool_decide (sc_sym sc ∈ symbols) then
        start ← i64 (now_us - two_hours_us);
        rows ← symbol_rows sc (draws (sc_sym sc)) (sc_base_price sc) start trade_id 0 n_trades;
        rest ← all_rows symbols now_us draws cfgs' (trade_id + Z.of_nat n_trades);
        Ok (rows ++ rest)
      else all_rows symbols now_us draws cfgs' trade_id
  end.

Fixpoint put_rows `{LineSender} (b : line_buffer) (rows : list Row) : line_buffer * bool :=
  match rows with
  | [] => (b, true)
  | row :: rows' =>
      let '(b, ok) := chain b row in
      if ok then put_rows b rows' else (b, false)
  end.

(** [seed_trades] with the connected sender and its new buffer; an exception is caught
    and nothing is flushed. *)
Definition seed_trades `{LineSender} (symbols : list string) (now_us : Z)
    (draws : string -> nat -> TradeDraw) (s : line_sender) (b : line_buffer) : res line_sender :=
  rows ← all_rows symbols now_us draws sym_cfg 10000;
  match put_rows b rows with
  | (b, true) => let '(s, _, _) := ls_flush s b in Ok s
  | (_, false) => Ok s
  end.

(** [seed]; [ilp]: the sender and the buffer, unless the connection is refused. *)
Definition seed `{LineSender} (ilp : option (line_sender * line_buffer)) (now_us : Z)
    (draws : string -> nat -> TradeDraw) (s : Seeder) : res (bool * Seeder * option line_sender) :=
  match seed_tables s with
  | (false, s) => Ok (false, s, fst <$> ilp)
  | (true, s) =>
      match ilp with
      | None => Ok (true, s, None)
      | Some (sender, buffer) =>
          sender ← seed_trades uat_symbols now_us draws sender buffer;
          Ok (true, s, Some sender)
      end
  end.

(** ** Clean-up *)
Definition cleanup (SERVER_NAME : string) (s : Seeder) : Seeder :=
  let c := (delete_uat_data (m_uat_user_ids s) (m_uat_server_ids s) (ua_conn s)).2 in
  let q := (truncate_trades SERVER_NAME (ua_quest s)).2 in
  let q := (truncate_orders SERVER_NAME q).2 in
  mkSeeder c q [] [].
End Seed.

(** ** What the clean-up leaves *)
Definition no_allowlist (servers : list Z) : Tables -> Tables :=
  set_allowlist (filter (fun k => k.1 ∉ servers)).
Definition no_balances (users : list Z) : Tables -> Tables :=
  set_balances (filter (fun kv => kv.1.1.1 ∉ users)).
Definition no_servers (servers : list Z) (t : Tables) : Tables :=
  set_servers (filter (fun kv => kv.1 ∉ servers))
    (set_services (filter (fun kv => kv.1.1.1 ∉ servers))
      (set_init_bot (filter (fun kv => kv.1.2 ∉ servers)) t)).
Definition no_users (users : list Z) (t : Tables) : Tables :=
  set_users (filter (fun kv => kv.1 ∉ users)) (set_init_bot (filter (fun kv => kv.1.1 ∉ users)) t).

(** The tables without the rows of these users and servers. *)
Definition wiped (users servers : list Z) (t : Tables) : Tables :=
  no_users users (no_servers servers (no_balances users (no_allowlist servers t))).

Section Wipe.
Context `{Postgres}.

(** A loop of statements, each of which succeeds as long as [I] holds of the tables. *)
Lemma loop_runs {A} (stmt : A -> Stmt unit) (g : list A -> Tables -> Tables) (I : Tables -> Prop) l c :
  reliable_from (requests c) -> I (work c) -> (forall t, g [] t = t) ->
  (forall x done q, x ∈ l -> I (g done (work c)) ->
     stmt x (g done (work c)) q = (q, inl (g (done ++ [x]) (work c), tt)) /\ I (g (done ++ [x]) (work c))) ->
  exists c', for_each (fun x => exec (stmt x)) l c = (Returned tt, c') /\
    work c' = g l (work c) /\ stored c' = stored c /\ (requests c <= requests c')%nat.
Proof.
  intros Hf HI Hnil Hstep. set (t0 := work c) in *.
  assert (forall l' done c1, (forall x, x ∈ l' -> x ∈ l) -> reliable_from (requests c1) ->
    work c1 = g done t0 -> I (work c1) ->
    exists c', for_each (fun x => exec (stmt x)) l' c1 = (Returned tt, c') /\
      work c' = g (done ++ l') t0 /\ stored c' = stored c1 /\ (requests c1 <= requests c')%nat) as Hgen.
  { induction l' as [|x l' IH]; intros done c1 Hin Hf1 Hw HI1; simpl.
    { exists c1. by rewrite app_nil_r. }
    rewrite Hw in HI1. destruct (Hstep x done (sequences c1)) as [Hs HI2]; [apply Hin; left|done|].
    rewrite <- Hw in Hs. unfold mbind, txn_bind. rewrite (exec_runs _ _ _ _ _ Hf1 Hs).
    match goal with |- context [for_each _ l' ?c2] =>
      destruct (IH (done ++ [x]) c2) as (c' & -> & E & Es & Er) end.
    { intros y Hy. apply Hin. by right. }
    { intros k Hk. apply Hf1. simpl in *. lia. }
    { done. }
    { done. }
    exists c'. rewrite E, <- app_assoc. simpl in *. split_and!; [done|done|done|lia]. }
  destruct (Hgen l [] c) as (c' & E & Ew & Es & Er); [done|done|by rewrite Hnil|done|]. eauto.
Qed.

(** The same when every statement always succeeds. *)
Lemma loop_runs_total {A} (stmt : A -> Stmt unit) (g : list A -> Tables -> Tables) l c :
  reliable_from (requests c) -> (forall t, g [] t = t) ->
  (forall x done q t, stmt x (g done t) q = (q, inl (g (done ++ [x]) t, tt))) ->
  exists c', for_each (fun x => exec (stmt x)) l c = (Returned tt, c') /\
    work c' = g l (work c) /\ stored c' = stored c /\ (requests c <= requests c')%nat.
Proof. intros Hf Hnil Hs. by apply (loop_runs stmt g (fun _ => True)). Qed.
End Wipe.

Ltac filters :=
  apply map_eq; intros ?k; apply option_eq; intros ?v;
  rewrite ?lookup_delete_Some, ?map_lookup_filter_Some; simpl;
  rewrite ?elem_of_app, ?list_elem_of_singleton; intuition congruence.

Ltac nil_filters :=
  f_equal; try done; apply map_filter_id; intros; apply not_elem_of_nil.

Lemma no_allowlist_nil t : no_allowlist [] t = t.
Proof.
  destruct t. unfold no_allowlist, set_allowlist. simpl. f_equal.
  apply set_eq. intros k. rewrite elem_of_filter. pose proof (not_elem_of_nil k.1). tauto.
Qed.
Lemma no_balances_nil t : no_balances [] t = t.
Proof. destruct t. unfold no_balances, set_balances. simpl. nil_filters. Qed.
Lemma no_servers_nil t : no_servers [] t = t.
Proof. destruct t. unfold no_servers, set_servers, set_services, set_init_bot. simpl. nil_filters. Qed.
Lemma no_users_nil t : no_users [] t = t.
Proof. destruct t. unfold no_users, set_users, set_init_bot. simpl. nil_filters. Qed.

Lemma no_allowlist_snoc l x t : set_allowlist (filter (fun k => k.1 <> x)) (no_allowlist l t) = no_allowlist (l ++ [x]) t.
Proof.
  unfold no_allowlist, set_allowlist. simpl. f_equal. apply set_eq. intros k. rewrite !elem_of_filter, elem_of_app, list_elem_of_singleton. tauto.
Qed.
Lemma no_balances_snoc l x t :
  set_balances (filter (fun kv => kv.1.1.1 <> x)) (no_balances l t) = no_balances (l ++ [x]) t.
Proof. unfold no_balances, set_balances. simpl. f_equal. filters. Qed.
Lemma no_servers_snoc l x t :
  set_servers (delete x) (set_services (filter (fun kv => kv.1.1.1 <> x))
    (set_init_bot (filter (fun kv => kv.1.2 <> x)) (no_servers l t))) = no_servers (l ++ [x]) t.
Proof. unfold no_servers, set_servers, set_services, set_init_bot. simpl. f_equal; filters. Qed.
Lemma no_users_snoc l x t :
  set_users (delete x) (set_init_bot (filter (fun kv => kv.1.1 <> x)) (no_users l t)) = no_users (l ++ [x]) t.
Proof. unfold no_users, set_users, set_init_bot. simpl. f_equal; filters. Qed.

(** ** Rows of the seeder

    [t] is [t0] and rows that belong to the new users [users] and the new servers
    [servers]. *)
Record extends (users servers : list Z) (t0 t : Tables) : Prop := {
  ex_new_users : forall u, u ∈ users -> t_users t0 !! u = None;
  ex_new_servers : forall s, s ∈ servers -> t_servers t0 !! s = None;
  ex_users : forall u, u ∉ users -> t_users t !! u = t_users t0 !! u;
  ex_servers : forall s, s ∉ servers -> t_servers t !! s = t_servers t0 !! s;
  ex_allowlist : forall k, k.1 ∉ servers -> k ∈ t_allowlist t <-> k ∈ t_allowlist t0;
  ex_balances : forall k, k.1.1 ∉ users -> t_balances t !! k = t_balances t0 !! k;
  ex_init_bot : t_init_bot t = t_init_bot t0;
  ex_machines : t_machines t = t_machines t0;
  ex_services : t_services t = t_services t0;
  ex_column : t_initial_usd_column t = t_initial_usd_column t0
}.

Lemma tables_ext t t' :
  t_users t = t_users t' -> t_servers t = t_servers t' -> t_allowlist t = t_allowlist t' ->
  t_balances t = t_balances t' -> t_init_bot t = t_init_bot t' -> t_machines t = t_machines t' ->
  t_services t = t_services t' -> t_initial_usd_column t = t_initial_usd_column t' -> t = t'.
Proof. destruct t, t'. simpl. by intros -> -> -> -> -> -> -> ->. Qed.

Lemma extends_refl t : extends [] [] t t.
Proof. by split; try (by intros ? ?%elem_of_nil). Qed.

(** A key that refers to a user or a server which is not there. *)
Ltac dangling :=
  repeat match goal with
  | E : extends ?us _ ?t0 _, Hu : ?u ∈ ?us |- _ => lazymatch goal with
      | _ : t_users t0 !! u = None |- _ => fail | _ => pose proof (ex_new_users _ _ _ _ E u Hu) end
  | E : extends _ ?ss ?t0 _, Hs : ?s ∈ ?ss |- _ => lazymatch goal with
      | _ : t_servers t0 !! s = None |- _ => fail | _ => pose proof (ex_new_servers _ _ _ _ E s Hs) end
  end;
  repeat match goal with H : is_Some _ |- _ => destruct H end; congruence.

Section Restore.
Context (users servers : list Z) (t0 t : Tables) (Ht0 : integrity t0) (Hex : extends users servers t0 t).

Lemma wiped_restores : wiped users servers t = t0.
Proof.
  pose proof Hex as [Hnu Hns Hu Hs Ha Hb Hi Hm Hv Hc].
  apply tables_ext; [..|exact Hm| |exact Hc]; cbn.
  - apply map_eq. intros k. apply option_eq. intros v. rewrite map_lookup_filter_Some. simpl.
    destruct (decide (k ∈ users)) as [Hk|Hk]; [|rewrite Hu by done; naive_solver].
    rewrite (Hnu _ Hk). naive_solver.
  - apply map_eq. intros k. apply option_eq. intros v. rewrite map_lookup_filter_Some. simpl.
    destruct (decide (k ∈ servers)) as [Hk|Hk]; [|rewrite Hs by done; naive_solver].
    rewrite (Hns _ Hk). naive_solver.
  - apply set_eq. intros [s u]. rewrite elem_of_filter. simpl.
    destruct (decide (s ∈ servers)) as [Hk|Hk]; [|rewrite Ha by done; naive_solver].
    split; [naive_solver|]. intros Hin. destruct (allow_exists _ Ht0 _ _ Hin). dangling.
  - apply map_eq. intros [[u sym] s]. apply option_eq. intros v. rewrite map_lookup_filter_Some. simpl.
    destruct (decide (u ∈ users)) as [Hk|Hk]; [|rewrite Hb by done; naive_solver].
    split; [naive_solver|]. intros Hin. destruct (balance_exists _ Ht0 _ _ _ _ Hin). dangling.
  - apply map_eq. intros [u s]. apply option_eq. intros v. rewrite !map_lookup_filter_Some, Hi. simpl.
    split; [tauto|]. intros Hin. destruct (init_bot_exists _ Ht0 _ _ _ Hin).
    split; [split; [done|]|]; intros ?; dangling.
  - apply map_eq. intros [[s m] p]. apply option_eq. intros v. rewrite map_lookup_filter_Some, Hv. simpl.
    split; [tauto|]. intros Hin. destruct (service_exists _ Ht0 _ _ _ _ Hin) as [? _].
    split; [done|]. intros ?. dangling.
Qed.

(** After the first two deletions nothing refers to the servers, and after the third
    nothing to the users. *)
Lemma servers_free done s : s ∈ servers ->
  none_of (fun k _ => k.2 =? s) (t_balances (no_servers done (no_balances users (no_allowlist servers t)))) = true /\
  forallb (fun k => negb (k.1 =? s))
    (elements (t_allowlist (no_servers done (no_balances users (no_allowlist servers t))))) = true.
Proof.
  intros Hs. simpl. split.
  - apply none_of_spec. intros [[u sym] s'] b [Hb Hu]%map_lookup_filter_Some. simpl in *.
    apply Z.eqb_neq. intros ->. rewrite (ex_balances _ _ _ _ Hex) in Hb by done.
    destruct (balance_exists _ Ht0 _ _ _ _ Hb). dangling.
  - apply forallb_forall. intros [s' u] Hin%list_elem_of_In%elem_of_elements%elem_of_filter. simpl in *.
    apply negb_true_iff, Z.eqb_neq. intros ->. tauto.
Qed.

Lemma users_free done u : u ∈ users ->
  let t' := no_users done (no_servers servers (no_balances users (no_allowlist servers t))) in
  none_of (fun k _ => k.1.1 =? u) (t_balances t') = true /\
  none_of (fun _ s => bool_decide (sv_admin s = Some u)) (t_servers t') = true /\
  forallb (fun k => negb (k.2 =? u)) (elements (t_allowlist t')) = true.
Proof.
  intros Hu. simpl. split_and!.
  - apply none_of_spec. intros [[u' sym] s'] b [Hb Hk]%map_lookup_filter_Some. simpl in *.
    apply Z.eqb_neq. intros ->. done.
  - apply none_of_spec. intros s r [Hr Hk]%map_lookup_filter_Some. simpl in *.
    apply bool_decide_eq_false. intros Ha. rewrite (ex_servers _ _ _ _ Hex) in Hr by done.
    pose proof (admin_exists _ Ht0 _ _ _ Hr Ha). dangling.
  - apply forallb_forall. intros [s' u'] [Hk Hin]%list_elem_of_In%elem_of_elements%elem_of_filter. simpl in *.
    apply negb_true_iff, Z.eqb_neq. intros ->. rewrite (ex_allowlist _ _ _ _ Hex) in Hin by done.
    destruct (allow_exists _ Ht0 _ _ Hin). dangling.
Qed.
End Restore.

Section Theorems.
Context `{Postgres} `{QuestServer}.

Lemma delete_uat_restores users servers t0 c :
  integrity t0 -> extends users servers t0 (stored c) -> reliable_from (requests c) ->
  exists c', delete_uat_data users servers c = (inl tt, c') /\ stored c' = t0.
Proof.
  intros Ht0 Hex Hf. destruct (decide (users = [] /\ servers = [])) as [[-> ->]|Hne].
  { exists c. split; [done|]. by rewrite <- (wiped_restores [] [] t0 (stored c)),
      <- (no_users_nil (stored c)), <- (no_servers_nil (stored c)), <- (no_balances_nil (stored c)),
      <- (no_allowlist_nil (stored c)) at 1. }
  set (t := stored c) in *.
  assert (exists c', (_ ← begin_work;
    _ ← for_each (fun sid => exec (delete_allowlist sid)) servers;
    _ ← for_each (fun uid => exec (delete_balances_of_user uid)) users;
    _ ← for_each (fun sid => exec (delete_servers sid)) servers;
    _ ← for_each (fun uid => exec (delete_users uid)) users;
    _ ← commit;
    mret (inl tt)) c = (Returned (inl tt : unit + string), c') /\ stored c' = t0) as (c' & E & Es).
  2: { exists c'. split; [|done]. unfold delete_uat_data. destruct users, servers; [tauto|..];
         unfold try_catch; by rewrite E. }
  unfold mbind, txn_bind. rewrite begin_runs by done.
  match goal with |- context [for_each _ servers ?c0] => set (c1 := c0) end.
  destruct (loop_runs_total delete_allowlist no_allowlist servers c1) as (c2 & -> & W2 & _ & R2).
  { intros k Hk. apply Hf. simpl in *. lia. }
  { apply no_allowlist_nil. }
  { intros x l q t'. unfold delete_allowlist, pure_stmt. by rewrite no_allowlist_snoc. }
  destruct (loop_runs_total delete_balances_of_user no_balances users c2) as (c3 & -> & W3 & _ & R3).
  { intros k Hk. apply Hf. simpl in *. lia. }
  { apply no_balances_nil. }
  { intros x l q t'. unfold delete_balances_of_user, pure_stmt. by rewrite no_balances_snoc. }
  rewrite W2 in W3. change (work c1) with t in W3.
  destruct (loop_runs delete_servers no_servers (fun _ => True) servers c3) as (c4 & -> & W4 & _ & R4).
  { intros k Hk. apply Hf. simpl in *. lia. }
  { done. }
  { apply no_servers_nil. }
  { intros x l q Hx _. split; [|done]. rewrite W3. unfold delete_servers, pure_stmt.
    destruct (servers_free users servers t0 t Ht0 Hex l x Hx) as [-> ->]. simpl negb.
    rewrite andb_false_r. by rewrite no_servers_snoc. }
  rewrite W3 in W4.
  destruct (loop_runs delete_users no_users (fun _ => True) users c4) as (c5 & -> & W5 & _ & R5).
  { intros k Hk. apply Hf. simpl in *. lia. }
  { done. }
  { apply no_users_nil. }
  { intros x l q Hx _. split; [|done]. rewrite W4. unfold delete_users, pure_stmt.
    destruct (users_free users servers t0 t Ht0 Hex l x Hx) as (-> & -> & ->). simpl negb.
    rewrite andb_false_r. by rewrite no_users_snoc. }
  rewrite W4 in W5. rewrite commit_runs by (intros k Hk; apply Hf; simpl in *; lia).
  eexists. split; [reflexivity|]. simpl. rewrite W5. by apply wiped_restores.
Qed.

(** ** What seeding adds *)
Definition no_user_named (name : string) (t : Tables) : Prop :=
  forall i x, t_users t !! i = Some x -> us_name x <> name.
Definition no_server_named (name : string) (t : Tables) : Prop :=
  forall i s, t_servers t !! i = Some s -> sv_name s <> name.

Lemma get_user_stored name c : stored (get_user name c).2 = stored c.
Proof. apply read_step_stored. constructor. Qed.
Lemma get_server_stored name c : stored (get_server name c).2 = stored c.
Proof. apply read_step_stored. constructor. Qed.

Lemma seed_user_adds name password c id c' :
  no_user_named name (stored c) -> seed_user name password c = (Some id, c') ->
  t_users (stored c) !! id = None /\ stored c' = set_users <[id := mkUserRec name password]> (stored c).
Proof.
  intros Hn. unfold seed_user. pose proof (create_user_applies name password c) as Ha.
  destruct (create_user name password c) as [[u|e] c1]; simpl in Ha.
  - intros [= <- <-]. naive_solver.
  - pose proof (get_user_stored name c1) as Hs.
    destruct (get_user name c1) as [[[u|]|e'] c2] eqn:Eg; simpl in Hs; intros [= <- <-].
    apply get_user_found in Eg as (x & Hx & Hname & _).
    destruct Ha as [Ha|(u' & _ & Hnew & _ & Ha)].
    { rewrite Ha in Hx. by destruct (Hn _ _ Hx). }
    rewrite Ha in Hx. simpl in Hx. destruct (decide (uw_user_id u = uw_user_id u')) as [->|Hne].
    + split; [done|]. congruence.
    + rewrite lookup_insert_ne in Hx by done. by destruct (Hn _ _ Hx).
Qed.

Lemma extends_user users servers t0 t id r :
  extends users servers t0 t -> t_users t !! id = None ->
  extends (users ++ [id]) servers t0 (set_users <[id := r]> t).
Proof.
  intros [Hnu Hns Hu Hs Ha Hb Hi Hm Hv Hc] Hid. split; simpl; try done.
  - intros u [Hin|Hin]%elem_of_app; [by apply Hnu|]. apply list_elem_of_singleton in Hin as ->.
    destruct (decide (id ∈ users)); [by apply Hnu|]. by rewrite <- Hu.
  - intros u [Hu1 Hu2]%not_elem_of_app. rewrite lookup_insert_ne; [by apply Hu|set_solver].
  - intros k [Hk1 Hk2]%not_elem_of_app. by apply Hb.
Qed.

Definition accounts (t : Tables) : list (string * string) -> list Z -> Prop :=
  Forall2 (fun u id => t_users t !! id = Some (mkUserRec u.1 u.2)).

Lemma seed_users_adds servers t0 us : forall c ids ids' c',
  NoDup us.*1 -> Forall (fun u => no_user_named u.1 (stored c)) us ->
  extends ids servers t0 (stored c) -> seed_users us ids c = (true, ids', c') ->
  exists new, ids' = ids ++ new /\ accounts (stored c') us new /\
    extends ids' servers t0 (stored c') /\ t_servers (stored c') = t_servers (stored c) /\
    (forall i x, t_users (stored c) !! i = Some x -> t_users (stored c') !! i = Some x).
Proof.
  induction us as [|[name password] us IH]; intros c ids ids' c' Hnd Hno Hex; simpl.
  { intros [= <- <-]. exists []. rewrite app_nil_r. split_and!; try done. constructor. }
  destruct (seed_user name password c) as [[id|] c1] eqn:E; [|done]. intros Hs.
  inversion_clear Hnd as [|? ? Hnot Hnd']. inversion_clear Hno as [|? ? Hno1 Hno'].
  apply seed_user_adds in E as [Hnew E]; [|done].
  destruct (IH c1 (ids ++ [id]) ids' c' Hnd') as (new & -> & Hacc & Hex' & Hsrv & Hkeep).
  - rewrite Forall_forall in Hno' |- *. intros [n p] Hin i x. rewrite E. simpl.
    destruct (decide (i = id)) as [->|Hne].
    + rewrite lookup_insert_eq. intros [= <-]. simpl. intros ->. apply Hnot.
      apply list_elem_of_fmap. by exists (n, p).
    + rewrite lookup_insert_ne by done. by apply (Hno' _ Hin).
  - rewrite E. by apply extends_user.
  - done.
  - exists (id :: new). rewrite <- app_assoc in *. split_and!; [done| |done| |].
    + constructor; [|done]. apply Hkeep. rewrite E. simpl. by rewrite lookup_insert_eq.
    + by rewrite Hsrv, E.
    + intros i x Hx. apply Hkeep. rewrite E. simpl. rewrite lookup_insert_ne; [done|congruence].
Qed.

Lemma seed_server_adds a t1 t2 c id c' :
  no_server_named uat_server (stored c) -> seed_server a t1 t2 c = (Some id, c') ->
  t_servers (stored c) !! id = None /\
  exists srv, sv_name srv = uat_server /\ sv_admin srv = Some a /\
    stored c' = added_server id srv [t1; t2] [] (stored c).
Proof.
  intros Hn. unfold seed_server, create_server.
  pose proof (create_server_applies uat_server a uat_description uat_symbols [t1; t2] [] 100000 c) as Ha.
  cbv zeta in Ha. destruct (create_server_with_services _ _ _ _ _ _ _ c) as [[i|e] c1]; simpl in Ha.
  - intros [= <- <-]. naive_solver.
  - pose proof (get_server_stored uat_server c1) as Hs.
    destruct (get_server uat_server c1) as [[[row|]|e'] c2] eqn:Eg; simpl in Hs; intros [= <- <-].
    apply get_server_found in Eg as (s & Hx & Hname & _).
    destruct Ha as [Ha|(i & srv & Hsn & Hsa & Hnew & _ & Ha)].
    { rewrite Ha in Hx. by destruct (Hn _ _ Hx). }
    rewrite Ha in Hx. simpl in Hx. destruct (decide (sw_server_id row = i)) as [->|Hne].
    + split; [done|]. exists srv. split_and!; congruence.
    + rewrite lookup_insert_ne in Hx by done. by destruct (Hn _ _ Hx).
Qed.

Lemma extends_server users servers t0 t id srv members :
  extends users servers t0 t -> t_servers t !! id = None ->
  extends users (servers ++ [id]) t0 (added_server id srv members [] t).
Proof.
  intros [Hnu Hns Hu Hs Ha Hb Hi Hm Hv Hc] Hid. split; simpl; try done.
  - intros s [Hin|Hin]%elem_of_app; [by apply Hns|]. apply list_elem_of_singleton in Hin as ->.
    destruct (decide (id ∈ servers)); [by apply Hns|]. by rewrite <- Hs.
  - intros s [Hs1 Hs2]%not_elem_of_app. rewrite lookup_insert_ne; [by apply Hs|set_solver].
  - intros k [Hk1 Hk2]%not_elem_of_app. rewrite elem_of_union, members_set_in, <- Ha by done. set_solver.
Qed.

Lemma seed_balance_adds users servers t0 sid c b :
  extends users servers t0 (stored c) -> b.1.1 ∈ users ->
  extends users servers t0 (stored (seed_balance sid c b)) /\
  t_users (stored (seed_balance sid c b)) = t_users (stored c) /\
  t_servers (stored (seed_balance sid c b)) = t_servers (stored c).
Proof.
  intros Hex Hb. unfold seed_balance.
  pose proof (insert_balance_applies b.1.1 sid b.1.2 (b.2 * balance_multiplier_squared) c) as Ha.
  destruct (insert_balance _ _ _ _ c) as [r c']. simpl in *.
  assert (stored c' = stored c \/ exists sym,
    stored c' = set_balances <[(b.1.1, sym, sid) := b.2 * balance_multiplier_squared]> (stored c)) as [-> | [sym ->]].
  { destruct r; simpl in Ha; naive_solver. }
  { done. }
  split; [|done]. destruct Hex as [Hnu Hns Hu Hs Hal Hbl Hi Hm Hv Hc]. split; simpl; try done.
  intros k Hk. rewrite lookup_insert_ne; [by apply Hbl|]. intros <-. done.
Qed.

Lemma seed_balances_add users servers t0 sid bs : forall c,
  extends users servers t0 (stored c) -> Forall (fun b => b.1.1 ∈ users) bs ->
  let c' := fold_left (seed_balance sid) bs c in
  extends users servers t0 (stored c') /\ t_users (stored c') = t_users (stored c) /\
  t_servers (stored c') = t_servers (stored c).
Proof.
  induction bs as [|b bs IH]; intros c Hex Hbs; simpl; [done|].
  inversion_clear Hbs. destruct (seed_balance_adds users servers t0 sid c b) as (He & Hu & Hs); [done..|].
  destruct (IH (seed_balance sid c b)) as (He' & Hu' & Hs'); [done..|]. rewrite Hu', Hs', Hu, Hs. done.
Qed.

Lemma seed_tables_adds c q s :
  Forall (fun u => no_user_named u.1 (stored c)) uat_users -> no_server_named uat_server (stored c) ->
  seed_tables (mkSeeder c q [] []) = (true, s) ->
  let t := stored (ua_conn s) in
  extends (m_uat_user_ids s) (m_uat_server_ids s) (stored c) t /\
  accounts t uat_users (m_uat_user_ids s) /\
  exists id srv admin, m_uat_server_ids s = [id] /\ head (m_uat_user_ids s) = Some admin /\
    t_servers t !! id = Some srv /\ sv_name srv = uat_server /\ sv_admin srv = Some admin.
Proof.
  intros Hno Hns. unfold seed_tables. cbn [m_uat_user_ids ua_conn ua_quest m_uat_server_ids].
  destruct (seed_users uat_users [] c) as [[ok ids] c1] eqn:E. destruct ok; [|done]. cbn [negb].
  apply (seed_users_adds [] (stored c)) in E as (new & -> & Hacc & Hex & Hsrv & _);
    [|by apply (bool_decide_unpack _); vm_compute|done|apply extends_refl].
  simpl app in *. destruct new as [|a [|b [|d new]]]; [done..|].
  destruct (seed_server a b d c1) as [[id|] c2] eqn:E2; [|done].
  apply seed_server_adds in E2 as [Hid (srv & Hn & Ha & E2)]; [|unfold no_server_named; by rewrite Hsrv].
  intros [= <-]. cbn [ua_conn m_uat_user_ids m_uat_server_ids app].
  assert (extends (a :: b :: d :: new) [id] (stored c) (stored c2)) as Hex2.
  { rewrite E2. by apply (extends_server _ []). }
  destruct (seed_balances_add _ _ _ id (uat_balances a b d) c2 Hex2) as (He & Hu & Hs).
  { unfold uat_balances. repeat constructor; simpl; set_solver. }
  split_and!; [done| |].
  - eapply Forall2_impl; [exact Hacc|]. intros u i Hi. simpl in *. by rewrite Hu, E2.
  - exists id, srv, a. split_and!; [done|done| |done|done].
    transitivity (t_servers (stored c2) !! id); [by f_equal|]. rewrite E2. simpl. by rewrite lookup_insert_eq.
Qed.

(** Seeding and cleaning up.  If nobody uses the names of the test users and of the test
    server and seeding reports success, then the three accounts exist with their
    passwords and the server belongs to the first of them, whichever requests failed
    on the way; and a clean-up in which no request fails turns the core database back
    into what it was, row for row, and forgets the ids. *)
Theorem uat_roundtrip `{LineSender} (SERVER_NAME : string) ilp now draws c q s sender :
  integrity (stored c) ->
  Forall (fun u => no_user_named u.1 (stored c)) uat_users -> no_server_named uat_server (stored c) ->
  seed ilp now draws (mkSeeder c q [] []) = Ok (true, s, sender) ->
  (accounts (stored (ua_conn s)) uat_users (m_uat_user_ids s) /\
   exists id srv admin, m_uat_server_ids s = [id] /\ head (m_uat_user_ids s) = Some admin /\
     t_servers (stored (ua_conn s)) !! id = Some srv /\ sv_name srv = uat_server /\
     sv_admin srv = Some admin) /\
  (reliable_from (requests (ua_conn s)) ->
   let s' := cleanup SERVER_NAME s in
   stored (ua_conn s') = stored c /\ m_uat_user_ids s' = [] /\ m_uat_server_ids s' = []).
Proof.
  intros Ht Hno Hns. unfold seed. destruct (seed_tables _) as [[] s1] eqn:E; [|done].
  apply seed_tables_adds in E as (Hex & Hacc & Hsrv); [|done..]. intros Hs.
  assert (s1 = s) as ->.
  { destruct ilp as [[sd b]|]; [|by simplify_eq]. by destruct (seed_trades _ _ _ _ _); simplify_eq/=. }
  split; [done|]. intros Hf. destruct (delete_uat_restores _ _ _ _ Ht Hex Hf) as (c' & E & Es).
  unfold cleanup. by rewrite E.
Qed.
End Theorems.

(** ** Concrete runs *)
Definition sample_draws (jitter : Z) (_ : string) (_ : nat) : TradeDraw := mkTradeDraw (of_int 5) jitter 10.

Definition fresh_seeder : Seeder := mkSeeder sample_conn (mkQConn ∅ 0 false) [] [].
Definition now_us : Z := 1700000000000000.

Definition seeded : Seeder := (@seed_tables healthy fresh_seeder).2.

Lemma seeds_sample : (@seed_tables healthy fresh_seeder).1 = true.
Proof. vm_compute. reflexivity. Qed.

Lemma seed_seeded draws :
  @seed healthy sample_sender None now_us draws fresh_seeder = Ok (true, seeded, None).
Proof.
  pose proof seeds_sample as E. unfold seed, seeded.
  destruct (@seed_tables healthy fresh_seeder) as [ok s]. simpl in E. by subst ok.
Qed.

Lemma uat_roundtrip_witness :
  let s' := @cleanup healthy sample_quest "lab" seeded in
  m_uat_user_ids seeded = [3; 4; 5] /\ m_uat_server_ids seeded = [1] /\
  stored (ua_conn s') = stored sample_conn /\ m_uat_user_ids s' = [] /\ m_uat_server_ids s' = [].
Proof.
  intros s'. split; [vm_compute; reflexivity|]. split; [vm_compute; reflexivity|].
  apply (@uat_roundtrip healthy sample_quest sample_sender "lab" None now_us (sample_draws 0) sample_conn
           (mkQConn ∅ 0 false) seeded None).
  - apply sample_integrity.
  - apply (bool_decide_unpack (Forall (fun u => map_Forall (fun _ x => us_name x <> u.1) (t_users (stored sample_conn)))
             uat_users)). vm_compute. done.
  - intros i x Hx. change (t_servers (stored sample_conn)) with (∅ : gmap Z ServerRec) in Hx. by rewrite lookup_empty in Hx.
  - apply seed_seeded.
  - by intros k _.
Defined.

(** ** Shortcomings *)

(** A test user who has created a server of his own cannot be deleted, and then nothing
    is: all accounts and the test server stay, and their ids are forgotten. *)
Example uat_cleanup_blocked :
  let c := (@create_server healthy "mine" 3 "mine" [] [] 5 (ua_conn seeded)).2 in
  let s := @cleanup healthy sample_quest "lab" (mkSeeder c (ua_quest seeded) (m_uat_user_ids seeded) (m_uat_server_ids seeded)) in
  stored (ua_conn s) = stored c /\ m_uat_user_ids s = [] /\ m_uat_server_ids s = [].
Proof. vm_compute. done. Qed.

(** The trades go to a table that no server has. *)
Lemma symbol_rows_table sc draw i n : forall price ts id rows,
  symbol_rows sc draw price ts id i n = Ok rows -> Forall (fun row => head row = Some (LTable "trades")) rows.
Proof.
  revert i. induction n as [|n IH]; intros i price ts id rows Hr; simpl in Hr; [by simplify_eq|].
  ok_inv. constructor; [done|]. eauto.
Qed.

Theorem seeded_trades_not_found symbols now draws rows server :
  all_rows symbols now draws sym_cfg 10000 = Ok rows ->
  Forall (fun row => head row <> Some (LTable ("trades_" +:+ server)%string)) rows.
Proof.
  generalize 10000. generalize sym_cfg as cfgs. intros cfgs. revert rows.
  induction cfgs as [|sc cfgs IH]; intros rows id Hr; cbn [all_rows] in Hr; [by simplify_eq|].
  revert Hr. generalize n_trades. intros n Hr. case_bool_decide; [|eauto]. ok_inv. apply Forall_app. split; [|eauto].
  eapply Forall_impl; [eapply symbol_rows_table; eassumption|]. intros row ->. discriminate.
Qed.

(** The time of a row. *)
Definition row_ts (row : Row) : Z := match last row with Some (LAtMicros ts) => ts | _ => 0 end.

(** With the largest jitter the last trade lies half an hour in the future. *)
Example seeded_trades_in_future :
  match all_rows ["TSLA"%string] now_us (sample_draws (step_us / 4)) sym_cfg 10000 with
  | Ok rows => row_ts <$> last rows = Some (now_us + 30 * 60 * 1000000)
  | Err _ => False
  end.
Proof. vm_compute. done. Qed.
