(* ===== verification/BackendMain.v ===== *)
(** * The backend service: its main program

    [services/backend_service/main.cpp] with [libs/configuration/backend_config.h]: the
    test data of UAT mode, the port, the loop that accepts connections, each served by
    a thread of its own, and the clean-up after the signal.  What arrives at the port
    is a list; a session is over before the next connection arrives ([BackendSessions]
    has sessions that overlap).  The list ends where nothing arrives any more. *)

From S2P Require Import Prelude Core Postgres DatabaseClient DatabaseTheorems DatabaseSpecs DatabaseEffects Concurrency AsyncWriter QuestDb.
From S2P Require Import Json BackendConfig Backend BackendServers BackendSamples BackendSafety UatSeeder.
From Stdlib Require Import ZArith Lia Ascii String.
From stdpp Require Import base option list gmap strings fin_maps.

Open Scope Z_scope.

(** ** backend_config.h *)
Record BackendSettings := mkBackendSettings { bc_host : string; bc_port : Z; bc_uat : bool }.

(** ** main.cpp *)
(** What the acceptor meets.  The signal handler closes the acceptor, whose [accept]
    then throws, as it does on any other failure. *)
Inductive arrival :=
  | Connects (req : option Request)  (** [None]: [http::read] throws *)
  | NoThread                         (** [std::thread] throws [std::system_error] *)
  | AcceptFails.                     (** [accept] throws [boost::system::system_error] *)

Inductive loop_end := Stopped | Escaped.

Section Main.
Context `{Postgres} `{QuestServer} `{Boost} `{DeploymentServer} `{Unordered}.

(** The thread of one connection: whatever it throws is logged. *)
Definition session (req : option Request) (w : World) : res World :=
  match req with
  | None => Ok w
  | Some req => '(_, w') ← handle_session req w; Ok w'
  end.

Fixpoint accept_loop (arrivals : list arrival) (w : World) : res (loop_end * World) :=
  match arrivals with
  | [] => Err Blocked
  | Connects req :: rest => w' ← session req w; accept_loop rest w'
  | NoThread :: _ => Ok (Escaped, w)
  | AcceptFails :: _ => Ok (Stopped, w)
  end.

(** [static_cast<unsigned short>(backend_config.port)] *)
Definition listening_port (cfg : BackendSettings) : Z := bc_port cfg `mod` 65536.

Definition seeder_on (w : World) : Seeder := mkSeeder (w_db w) (w_quest w) [] [].
Definition with_seeder (w : World) (s : Seeder) : World := mkWorld (ua_conn s) (ua_quest s) (w_sent w).

(** The seeder keeps its ids while the handler uses the client that both share. *)
Definition reattached (s : Seeder) (w : World) : Seeder :=
  mkSeeder (w_db w) (w_quest w) (m_uat_user_ids s) (m_uat_server_ids s).

(** The seeder that the program holds, if any; the result of [seed] is not looked at. *)
Definition start_uat `{LineSender} (uat : bool) (ilp : option (line_sender * line_buffer)) (now_us : Z)
    (draws : string -> nat -> TradeDraw) (w : World) : res (option Seeder * World) :=
  if uat then
    '(_, s, _) ← seed ilp now_us draws (seeder_on w);
    Ok (Some s, with_seeder w s)
  else Ok (None, w).

Definition stop_uat (SERVER_NAME : string) (seeder : option Seeder) (w : World) : World :=
  match seeder with
  | Some s => with_seeder w (cleanup SERVER_NAME (reattached s w))
  | None => w
  end.

(** [config]: what the file holds, if it can be read; [connects]: whether the handler's
    constructor reaches the databases; [binds]: the ports that the acceptor gets.  The
    exit code and what the process leaves behind. *)
Definition backend_main `{LineSender} (SERVER_NAME : string) (binds : Z -> bool)
    (ilp : option (line_sender * line_buffer)) (now_us : Z) (draws : string -> nat -> TradeDraw)
    (config : option BackendSettings) (connects : bool) (arrivals : list arrival) (w : World)
    : res (Z * World) :=
  match config with
  | None => Ok (1, w)
  | Some cfg =>
      if negb connects then Ok (1, w) else
      '(seeder, w) ← start_uat (bc_uat cfg) ilp now_us draws w;
      if binds (listening_port cfg) then
        '(ending, w) ← accept_loop arrivals w;
        match ending with
        | Stopped => Ok (0, stop_uat SERVER_NAME seeder w)
        | Escaped => Ok (1, w)
        end
      else Ok (1, w)
  end.
End Main.

(** ** New accounts beside the test data *)
(** [t0] with the accounts [new]. *)
Definition joined (new : gmap Z UserRec) (t0 : Tables) : Tables := set_users (union new) t0.

(** The tables hold the test data [users], [servers] and, beside it, what was there
    before and new accounts. *)
Definition beside (users servers : list Z) (t0 t : Tables) : Prop :=
  Forall (fun u => is_Some (t_users t !! u)) users /\ integrity t /\
  exists new, new ##ₘ t_users t0 /\ integrity (joined new t0) /\ extends users servers (joined new t0) t.

Lemma joined_nil t : joined ∅ t = t.
Proof. apply tables_ext; try done. simpl. apply map_empty_union. Qed.

Lemma integrity_add_user t id r :
  integrity t -> t_users t !! id = None ->
  (forall i u, t_users t !! i = Some u -> us_name u <> us_name r) ->
  integrity (set_users <[id := r]> t).
Proof.
  intros [Hnu Hsu Ha Hal Hb Hi Hs] Hid Hfresh.
  assert (forall u, is_Some (t_users t !! u) -> is_Some (t_users (set_users <[id := r]> t) !! u)) as Hmono.
  { intros u Hu. simpl. by apply lookup_insert_is_Some'; right. }
  split; try exact Hsu; try exact Hs.
  - simpl. intros i j u v Hu Hv Heq. apply lookup_insert_Some in Hu as [[<- <-]|[? Hu]];
      apply lookup_insert_Some in Hv as [[<- <-]|[? Hv]]; [done| | |by eapply Hnu].
    + by destruct (Hfresh _ _ Hv).
    + by destruct (Hfresh _ _ Hu).
  - intros i s a Hi' Ha'. eapply Hmono, Ha; eassumption.
  - intros s u Hin. destruct (Hal s u Hin). split; [done|by apply Hmono].
  - intros u sym s b Hin. destruct (Hb u sym s b Hin). split; [by apply Hmono|done].
  - intros u s b Hin. destruct (Hi u s b Hin). split; [by apply Hmono|done].
Qed.

Lemma extends_beside_user users servers t0 t id r :
  extends users servers t0 t -> id ∉ users ->
  extends users servers (set_users <[id := r]> t0) (set_users <[id := r]> t).
Proof.
  intros [Hnu Hns Hu Hs Ha Hb Hi Hm Hv Hc] Hid. split; simpl; try done.
  - intros u Hin. rewrite lookup_insert_ne; [by apply Hnu|]. by intros ->.
  - intros u Hin. destruct (decide (u = id)) as [->|Hne]; [by rewrite !lookup_insert_eq|].
    rewrite !lookup_insert_ne by done. by apply Hu.
Qed.

Section Restored.
Context `{Postgres} `{QuestServer} `{Boost} `{DeploymentServer} `{Unordered}.

Lemma beside_create_user users servers t0 name password :
  op_keeps (beside users servers t0) (create_user name password).
Proof.
  intros c Hb. eapply effect_keeps; [apply create_user_applies|exact Hb|].
  intros u (_ & Hid & Hfresh & ->). destruct Hb as (Hin & Hint & new & Hdis & Hint0 & Hex).
  set (id := uw_user_id u) in *. set (r := mkUserRec name password).
  assert (id ∉ users) as Hnot.
  { intros Hu. rewrite Forall_forall in Hin. destruct (Hin _ Hu). congruence. }
  assert (t_users (joined new t0) !! id = None) as Hid0 by (by rewrite <- (ex_users _ _ _ _ Hex)).
  assert (forall i v, t_users (joined new t0) !! i = Some v -> us_name v <> name) as Hfresh0.
  { intros i v Hv. apply (Hfresh i). rewrite (ex_users _ _ _ _ Hex); [done|].
    intros Hu. by rewrite (ex_new_users _ _ _ _ Hex i Hu) in Hv. }
  pose proof Hid0 as Hsplit. simpl in Hsplit. apply lookup_union_None in Hsplit as [Hidn Hidt].
  assert (joined (<[id := r]> new) t0 = set_users <[id := r]> (joined new t0)) as Ej.
  { apply tables_ext; try done. simpl. symmetry. apply insert_union_l. }
  split; [|split].
  - eapply Forall_impl; [exact Hin|]. intros x Hx. simpl. by apply lookup_insert_is_Some'; right.
  - by apply integrity_add_user.
  - exists (<[id := r]> new). rewrite Ej. split; [by apply map_disjoint_insert_l|]. split.
    + by apply integrity_add_user.
    + by apply extends_beside_user.
Qed.

(** What arrives in a quiet run: connections whose requests, if they can be read, are
    not POST requests; and nothing that makes the thread fail. *)
Definition peaceful (a : arrival) : Prop :=
  match a with Connects (Some req) => rq_method req <> verb_post | Connects None | AcceptFails => True | NoThread => False end.

Lemma session_keeps P req w w' :
  (forall n p, op_keeps P (create_user n p)) -> peaceful (Connects req) ->
  session req w = Ok w' -> on P w -> on P w'.
Proof.
  intros Hc Hreq. destruct req as [req|]; simpl; [|by intros [= <-]].
  intros ([rs w1] & Hs & [= <-])%bind_ok Hw. unfold handle_session in Hs.
  destruct (handle req w) as [[rs1 w2]|[]] eqn:E; simplify_eq; [|done].
  eapply (handle_keeps P); [exact Hc| |exact E|exact Hw]. by intros ?.
Qed.

Lemma accept_keeps P arrivals : forall w ending w',
  (forall n p, op_keeps P (create_user n p)) -> Forall peaceful arrivals ->
  accept_loop arrivals w = Ok (ending, w') -> on P w -> ending = Stopped /\ on P w'.
Proof.
  induction arrivals as [|a arrivals IH]; intros w ending w' Hc Hp; simpl; [done|].
  apply Forall_cons in Hp as [Ha Hp]. destruct a as [req| |]; [|done|by intros [= <- <-]].
  intros (w1 & Hs & Hl)%bind_ok Hw. eapply IH; [done|done|exact Hl|]. by eapply session_keeps.
Qed.

Lemma seed_true `{LineSender} ilp now draws s s' sender :
  seed ilp now draws s = Ok (true, s', sender) -> seed_tables s = (true, s').
Proof.
  unfold seed. destruct (seed_tables s) as [[] s1]; [|done].
  destruct ilp as [[sd b]|]; [|by intros [= <- _]].
  intros (x & _ & [= <- _])%bind_ok. done.
Qed.

(** Seeding is a sequence of operations of the client. *)
Lemma seed_user_steps name password c : rtc client_step c (seed_user name password c).2.
Proof.
  unfold seed_user. pose proof (step_create_user name password c) as Hc.
  destruct (create_user name password c) as [[u|e] c1]; simpl in *; [by apply rtc_once|].
  eapply rtc_l; [exact Hc|].
  assert (client_step c1 (get_user name c1).2) as Hg by (apply step_read; constructor).
  destruct (get_user name c1) as [[[u|]|e'] c2]; by apply rtc_once.
Qed.

Lemma seed_users_steps us : forall ids c, rtc client_step c (seed_users us ids c).2.
Proof.
  induction us as [|[name password] us IH]; intros ids c; simpl; [apply rtc_refl|].
  pose proof (seed_user_steps name password c) as Hs.
  destruct (seed_user name password c) as [[id|] c1]; simpl in *; [|done]. etrans; [exact Hs|apply IH].
Qed.

Lemma seed_server_steps a t1 t2 c : rtc client_step c (seed_server a t1 t2 c).2.
Proof.
  unfold seed_server.
  match goal with |- context [create_server ?n ?a ?d ?sy ?al ?usd ?c] =>
    pose proof (step_create_server n a d sy al [] usd c : client_step c (create_server n a d sy al usd c).2) as Hc;
    destruct (create_server n a d sy al usd c) as [[u|e] c1] end; simpl in *; [by apply rtc_once|].
  eapply rtc_l; [exact Hc|].
  assert (client_step c1 (get_server uat_server c1).2) as Hg by (apply step_read; constructor).
  destruct (get_server uat_server c1) as [[[u|]|e'] c2]; by apply rtc_once.
Qed.

Lemma seed_balances_steps id bs : forall c, rtc client_step c (fold_left (seed_balance id) bs c).
Proof.
  induction bs as [|b bs IH]; intros c; simpl; [apply rtc_refl|].
  eapply rtc_l; [apply step_insert_balance|apply IH].
Qed.

Lemma seed_tables_steps s : rtc client_step (ua_conn s) (ua_conn (seed_tables s).2).
Proof.
  unfold seed_tables. pose proof (seed_users_steps uat_users (m_uat_user_ids s) (ua_conn s)) as Hu.
  destruct (seed_users _ _ _) as [[ok ids] c]. simpl in Hu. destruct (negb ok); [done|].
  destruct ids as [|a [|b [|d ids]]]; try apply rtc_refl.
  pose proof (seed_server_steps a b d c) as Hs. destruct (seed_server a b d c) as [[id|] c1]; simpl in *.
  - etrans; [exact Hu|]. etrans; [exact Hs|]. apply (seed_balances_steps id (uat_balances a b d)).
  - by etrans.
Qed.

Lemma seed_integrity `{LineSender} ilp now draws w s sender :
  integrity (stored (w_db w)) -> seed ilp now draws (seeder_on w) = Ok (true, s, sender) ->
  integrity (stored (ua_conn s)).
Proof.
  intros Ht Hs%seed_true. pose proof (seed_tables_steps (seeder_on w)) as Hr. rewrite Hs in Hr.
  revert Ht Hr. simpl. intros Ht Hr. induction Hr; [done|]. eauto using client_step_integrity.
Qed.

(** Seeding puts the test data beside what was there. *)
Lemma seed_beside `{LineSender} ilp now draws w s sender :
  integrity (stored (w_db w)) ->
  Forall (fun u => no_user_named u.1 (stored (w_db w))) uat_users ->
  no_server_named uat_server (stored (w_db w)) ->
  seed ilp now draws (seeder_on w) = Ok (true, s, sender) ->
  integrity (stored (ua_conn s)) ->
  accounts (stored (ua_conn s)) uat_users (m_uat_user_ids s) /\
  beside (m_uat_user_ids s) (m_uat_server_ids s) (stored (w_db w)) (stored (ua_conn s)).
Proof.
  intros Ht Hno Hns Hseed Hint. apply seed_true in Hseed.
  apply seed_tables_adds in Hseed as (Hex & Hacc & _); [|done..]. split; [done|].
  split; [|split; [done|]].
  - apply Forall_forall. intros id Hid. apply list_elem_of_lookup in Hid as [i Hi].
    destruct (Forall2_lookup_r _ _ _ _ _ Hacc Hi) as (u & _ & Hu). by rewrite Hu.
  - exists ∅. rewrite joined_nil. split; [apply map_disjoint_empty_l|]. by split.
Qed.

(** The clean-up removes the test data and nothing beside it. *)
Lemma stop_uat_restores SERVER_NAME s t0 w :
  beside (m_uat_user_ids s) (m_uat_server_ids s) t0 (stored (w_db w)) ->
  reliable_from (requests (w_db w)) ->
  exists new, new ##ₘ t_users t0 /\ stored (w_db (stop_uat SERVER_NAME (Some s) w)) = joined new t0.
Proof.
  intros (_ & _ & new & Hdis & Hint & Hex) Hf. exists new. split; [done|].
  destruct (delete_uat_restores _ _ _ (w_db w) Hint Hex Hf) as (c' & E & Es).
  simpl. by rewrite E.
Qed.

(** C31: a run in UAT mode.  Let no user and no server have the names of the test data,
    let the seeding succeed and the port be free, and let the backend serve, until the
    signal, connections whose requests are no POST requests: they log in, ask, or
    sign up new accounts, and some of them break off.  Then it stops with exit code 0,
    and if the last clean-up meets no failure the core database is what it was before,
    with the new accounts: every row of the test data is gone, and nothing else.
    (Otherwise rows can stay: [taken_port_strands_test_data], and
    [UatSeeder.uat_cleanup_blocked] when a test user has created a server.) *)
Theorem uat_run_restores `{LineSender} SERVER_NAME binds ilp now draws cfg arrivals w s sender ending w1 :
  integrity (stored (w_db w)) ->
  Forall (fun u => no_user_named u.1 (stored (w_db w))) uat_users ->
  no_server_named uat_server (stored (w_db w)) ->
  bc_uat cfg = true -> binds (listening_port cfg) = true ->
  seed ilp now draws (seeder_on w) = Ok (true, s, sender) ->
  Forall peaceful arrivals -> accept_loop arrivals (with_seeder w s) = Ok (ending, w1) ->
  exists w', backend_main SERVER_NAME binds ilp now draws (Some cfg) true arrivals w = Ok (0, w') /\
    (reliable_from (requests (w_db w1)) ->
     exists new, new ##ₘ t_users (stored (w_db w)) /\ stored (w_db w') = joined new (stored (w_db w))).
Proof.
  intros Ht Hno Hns Huat Hbind Hseed Hp Hloop.
  pose proof (seed_integrity _ _ _ _ _ _ Ht Hseed) as Hint.
  destruct (seed_beside _ _ _ _ _ _ Ht Hno Hns Hseed Hint) as [_ Hb].
  destruct (accept_keeps (beside (m_uat_user_ids s) (m_uat_server_ids s) (stored (w_db w))) arrivals
    (with_seeder w s) ending w1 (beside_create_user _ _ _) Hp Hloop Hb) as [-> Hb1].
  exists (stop_uat SERVER_NAME (Some s) w1). split.
  - unfold backend_main, start_uat. rewrite Huat, Hseed. simpl. by rewrite Hbind, Hloop.
  - intros Hf. by apply stop_uat_restores.
Qed.

(** If the port is taken, the program ends with exit code 1 after the test data has
    been written, and leaves it there: the exception of the acceptor's constructor
    passes the clean-up by. *)
Theorem taken_port_strands_test_data `{LineSender} SERVER_NAME binds ilp now draws cfg arrivals w s sender :
  integrity (stored (w_db w)) ->
  Forall (fun u => no_user_named u.1 (stored (w_db w))) uat_users ->
  no_server_named uat_server (stored (w_db w)) ->
  bc_uat cfg = true -> binds (listening_port cfg) = false ->
  seed ilp now draws (seeder_on w) = Ok (true, s, sender) ->
  exists w', backend_main SERVER_NAME binds ilp now draws (Some cfg) true arrivals w = Ok (1, w') /\
    accounts (stored (w_db w')) uat_users (m_uat_user_ids s).
Proof.
  intros Ht Hno Hns Huat Hbind Hseed. exists (with_seeder w s). split.
  - unfold backend_main, start_uat. rewrite Huat, Hseed. simpl. by rewrite Hbind.
  - by apply (seed_beside _ _ _ _ _ _ Ht Hno Hns Hseed (seed_integrity _ _ _ _ _ _ Ht Hseed)).
Qed.
End Restored.

(** ** A run

    Carol signs up while the test data is there, one connection breaks off, and the
    signal comes. *)
Definition day_settings : BackendSettings := mkBackendSettings "localhost" 8080 true.
Definition carol_boost : Boost := sample_boost [("user_name", "carol"); ("password", "pw")]%string (JObject []).
Definition day_arrivals : list arrival :=
  [Connects (Some (mkRequest verb_get "/signup" None "")); Connects None; AcceptFails].

Definition start_world : World := mkWorld sample_conn (mkQConn ∅ 0 false) [].
Definition uat_world : World := with_seeder start_world seeded.
Definition served_world : World :=
  match @accept_loop healthy sample_quest carol_boost agreeing in_order day_arrivals uat_world with
  | Ok (_, w) => w
  | Err _ => start_world
  end.

Lemma day_served :
  @accept_loop healthy sample_quest carol_boost agreeing in_order day_arrivals uat_world = Ok (Stopped, served_world).
Proof. vm_compute. reflexivity. Qed.

Lemma uat_names_free : Forall (fun u => no_user_named u.1 (stored sample_conn)) uat_users.
Proof.
  apply (bool_decide_unpack (Forall (fun u => map_Forall (fun _ x => us_name x <> u.1) (t_users (stored sample_conn)))
           uat_users)). vm_compute. exact I.
Qed.

Lemma uat_server_free : no_server_named uat_server (stored sample_conn).
Proof.
  intros i x Hx. change (t_servers (stored sample_conn)) with (∅ : gmap Z ServerRec) in Hx.
  by rewrite lookup_empty in Hx.
Qed.

Lemma uat_run_restores_witness :
  (size (t_users (stored (w_db served_world))) = 6 /\ size (t_servers (stored (w_db served_world))) = 1)%nat /\
  exists w', @backend_main healthy sample_quest carol_boost agreeing in_order sample_sender "lab" (fun p => p =? 8080)
      None now_us (sample_draws 0) (Some day_settings) true day_arrivals start_world = Ok (0, w') /\
    exists new, new ##ₘ t_users (stored sample_conn) /\ stored (w_db w') = joined new (stored sample_conn).
Proof.
  split; [vm_compute; split; reflexivity|].
  destruct (@uat_run_restores healthy sample_quest carol_boost agreeing in_order sample_sender "lab" (fun p => p =? 8080)
    None now_us (sample_draws 0) day_settings day_arrivals start_world seeded None Stopped served_world)
    as (w' & Hrun & Hend).
  - exact sample_integrity.
  - exact uat_names_free.
  - exact uat_server_free.
  - reflexivity.
  - reflexivity.
  - change (seeder_on start_world) with fresh_seeder. exact (seed_seeded (sample_draws 0)).
  - apply Forall_cons. split; [discriminate|]. apply Forall_cons. split; [exact I|].
    apply Forall_cons. split; [exact I|apply Forall_nil_2].
  - exact day_served.
  - exists w'. split; [exact Hrun|]. apply Hend. intros k _. reflexivity.
Defined.
