(* ===== verification/Worker.v ===== *)
(** * The worker threads of the simulation

    [MarketDataHandler], [OracleService], [OracleClient], [MarketMaker] and
    [InformedTrader] (simulation/traders) each own a thread that runs a loop while
    the atomic [m_running] is set.  [start] and [stop] are modelled with their
    accesses to [m_running] and to the [std::thread] as separate steps that
    interleave with the steps of the loop.  The first three look at [m_running]
    before they start ([guarded]), the traders do not.

    Assigning to a [std::thread] that is joinable, and destroying one, calls
    [std::terminate]: the state [Terminated_]. *)

From S2P Require Import Prelude.
From Stdlib Require Import ZArith Lia.
From stdpp Require Import base option list relations.

(** Where the loop is: before its test of [m_running], in its body, or over. *)
Inductive loop_pc := at_test | in_body | finished.

(** Where the owner of the object is. *)
Inductive owner_pc :=
  | idle
  | start_store
  | start_launch
  | stop_store (destroying : bool)
  | stop_join (destroying : bool)
  | destroyed.

Record Worker := mkWorker {
  m_running : bool;
  (** The thread object: [None] when it is not joinable. *)
  m_thread : option loop_pc;
  owner : owner_pc;
  (** How often the body has been run. *)
  bodies : nat
}.

Inductive world := Alive (w : Worker) | Terminated_.

Definition with_owner (w : Worker) (o : owner_pc) : Worker :=
  mkWorker (m_running w) (m_thread w) o (bodies w).
Definition with_running (w : Worker) (b : bool) (o : owner_pc) : Worker :=
  mkWorker b (m_thread w) o (bodies w).
Definition with_thread (w : Worker) (t : option loop_pc) (o : owner_pc) : Worker :=
  mkWorker (m_running w) t o (bodies w).

(** The constructor. *)
Definition new_worker : Worker := mkWorker false None idle 0.

(** [stop] has returned; the destructor goes on to destroy the thread object. *)
Definition stop_returns (w : Worker) (destroying : bool) : world :=
  if destroying then
    match m_thread w with Some _ => Terminated_ | None => Alive (with_owner w destroyed) end
  else Alive (with_owner w idle).

(** The steps of [run_loop] or [consume_loop]. *)
Inductive loop_step : Worker -> Worker -> Prop :=
  | l_enter w : m_thread w = Some at_test -> m_running w = true ->
      loop_step w (mkWorker (m_running w) (Some in_body) (owner w) (S (bodies w)))
  | l_leave w : m_thread w = Some at_test -> m_running w = false ->
      loop_step w (with_thread w (Some finished) (owner w))
  | l_again w : m_thread w = Some in_body -> loop_step w (with_thread w (Some at_test) (owner w)).

(** The steps of [start], [stop] and the destructor. *)
Inductive owner_step (guarded : bool) : Worker -> world -> Prop :=
  | o_start w : owner w = idle -> guarded && m_running w = false ->
      owner_step guarded w (Alive (with_owner w start_store))
  | o_start_again w : owner w = idle -> guarded && m_running w = true ->
      owner_step guarded w (Alive w)
  | o_start_store w : owner w = start_store ->
      owner_step guarded w (Alive (with_running w true start_launch))
  | o_launch w : owner w = start_launch ->
      owner_step guarded w
        (match m_thread w with
         | Some _ => Terminated_
         | None => Alive (with_thread w (Some at_test) idle)
         end)
  | o_stop w d : owner w = idle -> m_running w = true ->
      owner_step guarded w (Alive (with_owner w (stop_store d)))
  | o_stop_idle w d : owner w = idle -> m_running w = false ->
      owner_step guarded w (stop_returns w d)
  | o_stop_store w d : owner w = stop_store d ->
      owner_step guarded w (Alive (with_running w false (stop_join d)))
  | o_join w d : owner w = stop_join d -> m_thread w = Some finished ->
      owner_step guarded w (stop_returns (with_thread w None (owner w)) d)
  | o_no_join w d : owner w = stop_join d -> m_thread w = None ->
      owner_step guarded w (stop_returns w d).

Inductive worker_step (guarded : bool) : world -> world -> Prop :=
  | ws_owner w x : owner_step guarded w x -> worker_step guarded (Alive w) x
  | ws_loop w w' : loop_step w w' -> worker_step guarded (Alive w) (Alive w').

Definition worker_reachable (guarded : bool) (x : world) : Prop :=
  rtc (worker_step guarded) (Alive new_worker) x.

(** [start] goes to work although the flag is up, which only a class without the
    guard does. *)
Definition restarts (x y : world) : Prop :=
  match x, y with
  | Alive w, Alive w' => owner w = idle /\ m_running w = true /\ owner w' = start_store
  | _, _ => False
  end.

(** Any step of a guarded class; for the others, no [start] of what runs already. *)
Definition careful_step (guarded : bool) (x y : world) : Prop :=
  worker_step guarded x y /\ (guarded = false -> ~ restarts x y).

Definition carefully_reachable (guarded : bool) (x : world) : Prop :=
  rtc (careful_step guarded) (Alive new_worker) x.

(** ** The invariant *)

(** The flag and the thread, by the place of the owner. *)
Definition worker_wf (w : Worker) : Prop :=
  match owner w with
  | idle => m_running w = true /\ m_thread w <> None /\ m_thread w <> Some finished \/
            m_running w = false /\ m_thread w = None
  | start_store | destroyed => m_running w = false /\ m_thread w = None
  | start_launch => m_running w = true /\ m_thread w = None
  | stop_store _ => m_running w = true /\ m_thread w <> None /\ m_thread w <> Some finished
  | stop_join _ => m_running w = false /\ m_thread w <> None
  end.

Definition world_wf (x : world) : Prop := match x with Alive w => worker_wf w | Terminated_ => False end.

Lemma loop_step_wf w w' : loop_step w w' -> worker_wf w -> worker_wf w'.
Proof.
  destruct 1 as [w Ht Hr|w Ht Hr|w Ht]; unfold worker_wf; simpl; rewrite Ht;
    destruct (owner w); rewrite ?Hr; naive_solver.
Qed.

Lemma owner_step_wf guarded w x :
  owner_step guarded w x -> (guarded = false -> ~ restarts (Alive w) x) -> worker_wf w -> world_wf x.
Proof.
  intros Hstep Hcare. destruct Hstep as [w Ho Hr|w Ho Hr|w Ho|w Ho|w d Ho Hr|w d Ho Hr|w d Ho|w d Ho Ht|w d Ho Ht];
    unfold worker_wf, world_wf, stop_returns; rewrite Ho; intros Hw; simpl in *.
  - unfold worker_wf. simpl. destruct Hw as [[Hrun _]|?]; [|done]. rewrite Hrun in Hr.
    destruct guarded; [done|]. exfalso. by apply Hcare.
  - unfold worker_wf. by rewrite Ho.
  - unfold worker_wf. simpl. split; [done|by destruct Hw].
  - destruct Hw as [Hr ->]. unfold worker_wf. simpl. left. by rewrite Hr.
  - unfold worker_wf. simpl. destruct Hw as [?|[? _]]; [done|congruence].
  - destruct Hw as [[? _]|[_ Ht]]; [congruence|]. destruct d; rewrite ?Ht; unfold worker_wf; simpl; auto.
  - unfold worker_wf. simpl. split; [done|by destruct Hw as (_ & ? & _)].
  - destruct Hw as [Hr _]. destruct d; unfold worker_wf; simpl; auto.
  - destruct Hw as [_ Hn]. by destruct Hn.
Qed.

Lemma carefully_reachable_wf guarded x : carefully_reachable guarded x -> world_wf x.
Proof.
  apply (rtc_ind_r (fun x => world_wf x)); [right; done|].
  intros y z _ [Hstep Hcare] IH. destruct Hstep as [w x' Hs|w w' Hs].
  - by eapply owner_step_wf.
  - by eapply loop_step_wf.
Qed.

(** ** [stop] ends *)

(** Steps of the loop that are left once the flag is down. *)
Definition loop_left (w : Worker) : nat :=
  match m_thread w with Some in_body => 2 | Some at_test => 1 | _ => 0 end.

Lemma loop_winds_down w w' :
  loop_step w w' -> m_running w = false ->
  owner w' = owner w /\ m_running w' = false /\ bodies w' = bodies w /\ loop_left w = S (loop_left w').
Proof. destruct 1 as [w Ht Hr|w Ht Hr|w Ht]; unfold loop_left; simpl; rewrite Ht; intros; [congruence|done..]. Qed.

Lemma loop_steps_left n w w' :
  nsteps loop_step n w w' -> m_running w = false ->
  owner w' = owner w /\ m_running w' = false /\ bodies w' = bodies w /\ loop_left w = n + loop_left w'.
Proof.
  induction 1 as [w|n w w1 w' Hs _ IH]; intros Hr; [done|].
  destruct (loop_winds_down _ _ Hs Hr) as (Ho & Hr1 & Hb & Hl).
  destruct (IH Hr1) as (-> & ? & -> & ?). repeat split; [done..|lia].
Qed.

(** While the owner waits in [join], the loop can move until it is over. *)
Lemma loop_progress w d :
  owner w = stop_join d -> worker_wf w -> m_thread w <> Some finished -> exists w', loop_step w w'.
Proof.
  unfold worker_wf. intros ->. intros [Hr Hn] Hf. destruct (m_thread w) as [[]|] eqn:Ht; [| |done..].
  - eexists. by apply l_leave.
  - eexists. by apply l_again.
Qed.

(** C38: the threads start and stop safely in the classes whose [start] looks at the
    flag first, and in the others as long as [start] is not called while the thread
    runs ([second_start_terminates] shows that they terminate the program
    otherwise).  In no such interleaving of the loop with calls of [start] and
    [stop] does the program terminate, and when the object is gone so is its
    thread.  While [stop] waits to join, the loop can always go on until it is
    over; it takes at most two steps and runs its body no more; and when it is
    over, the join succeeds. *)
Theorem worker_stops guarded x :
  carefully_reachable guarded x ->
  exists w, x = Alive w /\
    (owner w = destroyed -> m_thread w = None) /\
    forall d, owner w = stop_join d ->
      (forall n w', nsteps loop_step n w w' -> n <= 2 /\ bodies w' = bodies w /\ owner w' = stop_join d) /\
      (m_thread w <> Some finished -> exists w', loop_step w w') /\
      (m_thread w = Some finished ->
         owner_step guarded w (stop_returns (with_thread w None (owner w)) d) /\
         stop_returns (with_thread w None (owner w)) d =
           Alive (mkWorker false None (if d then destroyed else idle) (bodies w))).
Proof.
  intros Hwf%carefully_reachable_wf. destruct x as [w|]; [|done]. exists w. split; [done|]. simpl in Hwf.
  split; [intros Ho; unfold worker_wf in Hwf; rewrite Ho in Hwf; tauto|].
  intros d Ho. assert (m_running w = false) as Hr by (unfold worker_wf in Hwf; rewrite Ho in Hwf; tauto).
  split; [|split].
  - intros n w' Hn. destruct (loop_steps_left _ _ _ Hn Hr) as (Ho' & _ & Hb & Hl).
    split; [|by rewrite Ho']. unfold loop_left in Hl. destruct (m_thread w) as [[]|]; lia.
  - by apply (loop_progress w d).
  - intros Hf. split; [by apply o_join|]. unfold stop_returns. simpl. unfold with_owner, with_thread. simpl.
    rewrite Hr. by destruct d.
Qed.

(** A run of a trader, which has no guard: start, one round of the loop, stop. *)
Definition stopping_worker : Worker := mkWorker false (Some in_body) (stop_join true) 1.

Lemma stopping_worker_reachable : carefully_reachable false (Alive stopping_worker).
Proof.
  assert (forall w x, owner_step false w x -> ~ restarts (Alive w) x -> careful_step false (Alive w) x) as Ho
    by (intros w x Hs Hn; split; [by apply ws_owner|done]).
  unfold carefully_reachable.
  apply rtc_l with (Alive (mkWorker false None start_store 0));
    [apply Ho; [by apply (o_start false new_worker)|by intros (_ & ? & _)]|].
  eapply rtc_l; [apply Ho; [by apply o_start_store|by intros (? & _ & _)]|].
  eapply rtc_l; [apply Ho; [by apply o_launch|by intros (? & _ & _)]|]. simpl.
  eapply rtc_l; [split; [by apply ws_loop, l_enter|by intros _ (_ & _ & ?)]|].
  eapply rtc_l; [apply Ho; [by apply (o_stop _ _ true)|by intros (_ & _ & ?)]|].
  eapply rtc_l; [apply Ho; [by apply (o_stop_store _ _ true)|by intros (? & _ & _)]|]. apply rtc_refl.
Qed.

Lemma worker_stops_witness :
  exists w, Alive stopping_worker = Alive w /\
    (forall n w', nsteps loop_step n w w' -> n <= 2 /\ bodies w' = bodies w /\ owner w' = stop_join true) /\
    (m_thread w <> Some finished -> exists w', loop_step w w').
Proof.
  destruct (worker_stops false (Alive stopping_worker) stopping_worker_reachable) as (w & Hw & _ & Hs).
  exists w. split; [exact Hw|]. injection Hw as <-.
  destruct (Hs true eq_refl) as (Hn & Hp & _). split; [exact Hn|exact Hp].
Defined.

(** The traders do not look: a second [start] assigns to a running thread. *)
Example second_start_terminates : worker_reachable false Terminated_.
Proof.
  unfold worker_reachable.
  eapply rtc_l; [by apply ws_owner, o_start|]. eapply rtc_l; [by apply ws_owner, o_start_store|].
  eapply rtc_l; [by apply ws_owner, o_launch|]. simpl. eapply rtc_l; [by apply ws_owner, o_start|].
  eapply rtc_l; [by apply ws_owner, o_start_store|].
  eapply rtc_l; [by apply ws_owner, o_launch|]. apply rtc_refl.
Qed.
