(* ===== verification/ServerTrace.v ===== *)
(** * A server that records what happens at it

    The services are written against the interface [InboundServer]; here it is
    implemented by the websocket manager of [Transport] together with the list of
    its events so far.  A service that runs on it leaves behind the trace of its
    own calls and of the network's, so that theorems about a whole program can
    speak of what was read and sent on which connection. *)

From S2P Require Import Prelude Concurrency Transport.
From Stdlib Require Import ZArith Lia Ascii String.
From stdpp Require Import base option list gmap strings fin_maps.
Import ThreadSafeQueue.

Open Scope Z_scope.

(** The state after a step that succeeds. *)
Definition ok_or {A} (r : res A) (d : A) : A := match r with Ok a => a | Err _ => d end.

Record TracedServer (E : Type) := mkTraced {
  ts_manager : WebsocketManager E;
  ts_trace : list event
}.
Arguments mkTraced {E} _ _.
Arguments ts_manager {E} _.
Arguments ts_trace {E} _.

#[export] Instance traced_inbound `{Endpoint E} : InboundServer (TracedServer E) := {|
  is_start s := let '(w, ok) := server_start (ts_manager s) in (mkTraced w (ts_trace s), ok);
  is_get_connection_info s := get_connection_info (ts_manager s);
  is_dequeue_message s id :=
    let '(w, o) := dequeue_message (ts_manager s) id in
    (mkTraced w (ts_trace s ++ [EvDequeue id o]), o);
  is_send s id m fmt :=
    let '(w, ok) := send (ts_manager s) id m fmt in
    (mkTraced w (ts_trace s ++ [EvSend id m ok]), ok)
|}.

(** The events that the network causes on its own. *)
Definition network_event (ev : event) : bool :=
  match ev with EvMessage _ _ | EvEnd _ | EvStray _ => true | _ => false end.

Definition is_open (ev : event) : option nat :=
  match ev with EvOpen h => Some h | _ => None end.

(** The handles opened so far, oldest first, and the last one whose peer
    announced [name]. *)
Definition opened_handles (tr : list event) : list nat := omap is_open tr.

Definition latest (peer : nat -> string) (name : string) (tr : list event) : option nat :=
  last (filter (fun h => peer h = name) (opened_handles tr)).

Lemma opened_handles_app tr tr' :
  opened_handles (tr ++ tr') = opened_handles tr ++ opened_handles tr'.
Proof. apply omap_app. Qed.

Lemma opened_handles_other tr ev : is_open ev = None -> opened_handles (tr ++ [ev]) = opened_handles tr.
Proof. intros Hev. rewrite opened_handles_app. unfold opened_handles. simpl. rewrite Hev. apply app_nil_r. Qed.

Lemma latest_other peer name tr ev : is_open ev = None -> latest peer name (tr ++ [ev]) = latest peer name tr.
Proof. intros Hev. unfold latest. by rewrite opened_handles_other. Qed.

Lemma latest_open peer name tr h :
  latest peer name (tr ++ [EvOpen h]) = if decide (peer h = name) then Some h else latest peer name tr.
Proof.
  unfold latest. rewrite opened_handles_app. cbn [opened_handles omap list_omap is_open].
  rewrite filter_app, filter_cons, filter_nil.
  destruct (decide _); [by rewrite last_snoc|by rewrite app_nil_r].
Qed.

Lemma latest_spec peer name tr :
  is_Some (latest peer name tr) <-> exists h, h ∈ opened_handles tr /\ peer h = name.
Proof.
  unfold latest. split.
  - intros [h Hh]. exists h. apply last_Some_elem_of, list_elem_of_filter in Hh. tauto.
  - intros (h & Hin & Hp). apply last_is_Some. intros Hnil.
    assert (h ∈ filter (fun h => peer h = name) (opened_handles tr)) as Hf
      by (by apply list_elem_of_filter).
    rewrite Hnil in Hf. by apply elem_of_nil in Hf.
Qed.

(** ** The server of a service, whatever the service is *)
Section Server.
Context {E : Type} {ep : Endpoint E} (uri : string).
Implicit Types (w : WebsocketManager E) (s : TracedServer E).

(** The callback sees the new connection before the maps do, and does not change them. *)
Lemma server_on_open_callback {C} (f : ConnectionMetadata -> C -> C) w (c : C) h w' c' :
  server_on_open uri (Some f) w c h = Ok (w', c') ->
  server_on_open uri None w () h = Ok (w', ()) /\
  c' = f (on_open (m_endpoint w) (new_metadata (m_next_id w) h uri) h) c.
Proof. unfold server_on_open. destruct (add32 _ _); simpl; [|done]. by intros [= <- <-]. Qed.

(** Ids are never negative, so they differ from the -1 of "not connected". *)
Definition ids_positive w : Prop :=
  0 <= m_next_id w /\ forall h id, m_handle_to_connection_map w !! h = Some id -> 0 <= id.

Lemma step_next_id w ev w' : server_step uri w ev w' -> is_open ev = None -> m_next_id w' = m_next_id w.
Proof.
  destruct 1 as [|w h p|w h p|w h|w h|w id m fmt w' ok Hs|w id w' o Hd]; intros Hev; try done;
    try (unfold server_on_message, server_on_close, server_on_fail, server_handler;
         by destruct (_ !! h)).
  - unfold send in Hs. destruct (_ !! id); [|by simplify_eq].
    destruct (ep_send _ _ _ _) as [? []]; by simplify_eq.
  - unfold dequeue_message in Hd. destruct (_ !! id); [|by simplify_eq].
    destruct (dequeue _); by simplify_eq.
Qed.

(** What holds of the recording server: its record is a run of the manager. *)
Definition recorded s : Prop :=
  ids_positive (ts_manager s) /\ exists e, server_run uri e (ts_trace s) (ts_manager s).

Lemma recorded_start e : recorded (mkTraced (new_server e) []).
Proof.
  split; [|exists e; apply run_start]. split; [done|]. intros h id. simpl. by rewrite lookup_empty.
Qed.

Lemma recorded_step s ev w :
  recorded s -> server_step uri (ts_manager s) ev w -> is_open ev = None ->
  recorded (mkTraced w (ts_trace s ++ [ev])) /\
  m_handle_to_connection_map w = m_handle_to_connection_map (ts_manager s).
Proof.
  intros [[Hn Hp] [e Hrun]] Hstep Hev.
  assert (m_handle_to_connection_map w = m_handle_to_connection_map (ts_manager s)) as Hm.
  { eapply step_maps; [exact Hstep|]. by intros h ->. }
  split; [|exact Hm]. split; [|by exists e; eapply run_step].
  split; simpl; [by rewrite (step_next_id _ _ _ Hstep)|by rewrite Hm].
Qed.

(** A connection that opens gets the next id; the others keep theirs. *)
Lemma recorded_open s h w :
  recorded s -> m_handle_to_connection_map (ts_manager s) !! h = None ->
  server_on_open uri None (ts_manager s) () h = Ok (w, ()) ->
  recorded (mkTraced w (ts_trace s ++ [EvOpen h])) /\
  m_handle_to_connection_map w =
    <[h := m_next_id (ts_manager s)]> (m_handle_to_connection_map (ts_manager s)).
Proof.
  intros [[Hn Hp] [e Hrun]] Hh Hopen. pose proof (rt_wf _ _ (server_run_routed _ _ _ _ Hrun)) as Hwf.
  destruct (server_on_open_new _ _ _ _ _ Hwf Hh Hopen) as (_ & Hnx & _ & Hm).
  split; [|exact Hm]. split; [|by exists e; eapply run_step, ss_open].
  split; simpl; [lia|]. intros h' id. rewrite Hm. intros [[_ <-]|[_ ?]]%lookup_insert_Some; eauto.
Qed.

(** What a service does: it reads from the ids in [R] and sends on those in [W]. *)
Definition speaks (R W : Z -> Prop) (ev : event) : Prop :=
  match ev with EvDequeue id _ => R id | EvSend id _ _ => W id | _ => False end.

Lemma speaks_opened R W evs : Forall (speaks R W) evs -> opened_handles evs = [].
Proof. unfold opened_handles. induction 1 as [|[] evs Hev _ IH]; simpl in *; tauto. Qed.

(** Sending and dequeuing change neither the connections nor their handles. *)
Definition serves (R W : Z -> Prop) s s' : Prop :=
  recorded s -> recorded s' /\
  m_handle_to_connection_map (ts_manager s') = m_handle_to_connection_map (ts_manager s) /\
  exists evs, ts_trace s' = ts_trace s ++ evs /\ Forall (speaks R W) evs.

Lemma serves_refl R W s : serves R W s s.
Proof. intros Hs. split; [done|]. split; [done|]. exists []. by rewrite app_nil_r. Qed.

Lemma serves_trans R W s1 s2 s3 : serves R W s1 s2 -> serves R W s2 s3 -> serves R W s1 s3.
Proof.
  intros H12 H23 H1. destruct (H12 H1) as (H2 & Hm & evs & Ht & Hev).
  destruct (H23 H2) as (H3 & -> & evs' & -> & Hev'). split; [done|]. split; [done|].
  exists (evs ++ evs'). split; [by rewrite Ht, app_assoc|by apply Forall_app].
Qed.

Lemma serves_step R W s ev w :
  server_step uri (ts_manager s) ev w -> speaks R W ev -> serves R W s (mkTraced w (ts_trace s ++ [ev])).
Proof.
  intros Hstep Hev Hs. destruct (recorded_step s ev w Hs Hstep) as [Hr Hm]; [by destruct ev|].
  split; [done|]. split; [done|]. exists [ev]. by rewrite Forall_singleton.
Qed.

Lemma serves_send (R W : Z -> Prop) s id m fmt s' ok :
  is_send s id m fmt = (s', ok) -> W id -> serves R W s s'.
Proof.
  simpl. destruct (send _ _ _ _) as [w b] eqn:Hs. intros [= <- <-] HW.
  apply serves_step; [by eapply ss_send|done].
Qed.

Lemma serves_dequeue (R W : Z -> Prop) s id s' o :
  is_dequeue_message s id = (s', o) -> R id -> serves R W s s'.
Proof.
  simpl. destruct (dequeue_message _ _) as [w b] eqn:Hs. intros [= <- <-] HR.
  apply serves_step; [by eapply ss_dequeue|done].
Qed.
End Server.
