(* ===== verification/Startup.v ===== *)
(** * Start-up: how the matching engine and the order manager find each other

    [main.cpp] of the matching engine runs [init], [wait_for_connections] and
    then [run]; the network thread opens connections all the while and its
    callback files the two connections of the order manager under the names they
    announce.  The order manager dials both in [connect_matching_engine].  This
    file composes the two: the server that the engine owns
    records its events ([TracedServer]), the engine's program is a transition
    system over the operations of [MatchingEngine] and [Transport]
    ([engine_main]), and the invariant says which network connection each of the
    two ids of the engine stands for.

    That a header appended by a client is the request header that the server
    reads is documented behaviour of websocketpp: the hypotheses [header_read]
    and [header_carried]. *)

From S2P Require Import Prelude Core Messaging Concurrency Transport ServerTrace OrderedMap LimitOrderBook BookTheorems.
From S2P Require Import BalanceChecker MatchingEngine OrderManager.
From Stdlib Require Import ZArith Lia Ascii String.
From stdpp Require Import base option list gmap strings fin_maps.

Open Scope Z_scope.

(** ** The matching engine's program *)
Inductive phase := waiting | serving.

Section EngineMain.
Context {E : Type} {ep : Endpoint E} {P Q : Type} {tpub : Publisher Trade P}
  {spub : Publisher TopOrderBookLevelAggregates Q} `{ProtoCodec} (env : Env) (uri : string).
Implicit Types (me : MatchingEngine (TracedServer E) P Q).

(** The open handler of the engine's server: [callback] is [on_connection]. *)
Definition engine_open me (h : nat) : res (MatchingEngine (TracedServer E) P Q) :=
  let s := inbound_server me in
  '(w, me') ← server_on_open uri (Some on_connection) (ts_manager s) me h;
  Ok (with_server me' (mkTraced w (ts_trace s ++ [EvOpen h]))).

(** [main]: [init], then [wait_for_connections], then [run] for ever; the network
    thread acts between any two steps. *)
Inductive engine_main : phase -> MatchingEngine (TracedServer E) P Q -> Prop :=
  | em_init e ctp csp symbols interval start me :
      engine_init (new_engine (mkTraced (new_server e) []) ctp csp symbols interval start) = Ok me ->
      engine_main waiting me
  | em_open ph me h me' :
      engine_main ph me ->
      m_handle_to_connection_map (ts_manager (inbound_server me)) !! h = None ->
      engine_open me h = Ok me' -> engine_main ph me'
  | em_network ph me ev w :
      engine_main ph me -> network_event ev = true ->
      server_step uri (ts_manager (inbound_server me)) ev w ->
      engine_main ph (with_server me (mkTraced w (ts_trace (inbound_server me) ++ [ev])))
  | em_ready me : engine_main waiting me -> connected me = true -> engine_main serving me
  | em_run me now now_ms me' :
      engine_main serving me -> run_iteration env me now now_ms = Ok me' -> engine_main serving me'.

(** An operation of the service: it keeps the two ids, reads from the first only
    and sends on these two. *)
Definition works me me' : Prop :=
  incoming_request_connection_id me' = incoming_request_connection_id me /\
  order_response_connection_id me' = order_response_connection_id me /\
  serves uri (fun id => id = incoming_request_connection_id me)
    (fun id => id = incoming_request_connection_id me \/ id = order_response_connection_id me)
    (inbound_server me) (inbound_server me').

Lemma works_refl me : works me me.
Proof. split; [done|]. split; [done|apply serves_refl]. Qed.

Lemma send_trades_serves (R W : Z -> Prop) id s events s' events' :
  send_trades id s events = Ok (s', events') -> W id -> serves uri R W s s'.
Proof.
  revert s. induction events as [|t events IH]; intros s; cbn [send_trades].
  - intros [= <- _] _. apply serves_refl.
  - intros (tc & _ & Hs)%bind_ok HW. destruct (is_send _ _ _ _) as [s1 []] eqn:H1.
    + eapply serves_trans; [by eapply serves_send|by apply IH].
    + injection Hs as <- _. by eapply serves_send.
Qed.

Lemma process_container_works me c me' : process_container env me c = Ok me' -> works me me'.
Proof.
  destruct c; cbn [process_container]; try (intros [= <-]; apply works_refl).
  - unfold new_order_handler. intros Hp. apply bind_ok in Hp as (? & _ & Hp).
    apply bind_ok in Hp as (? & _ & Hp). apply bind_ok in Hp as ([[? ?] ?] & _ & Hp).
    apply bind_ok in Hp as ([? ?] & Hs & [= <-]). split; [done|]. split; [done|].
    eapply send_trades_serves; [exact Hs|by right].
  - unfold cancel_order_handler. intros Hp. apply bind_ok in Hp as (? & _ & Hp).
    apply bind_ok in Hp as (? & _ & Hp). apply bind_ok in Hp as (? & _ & Hp).
    destruct (is_send _ _ _ _) eqn:Hs. injection Hp as <-. split; [done|]. split; [done|].
    eapply serves_send; [exact Hs|by right].
  - unfold fill_cost_query_handler. intros Hp. apply bind_ok in Hp as (? & _ & Hp).
    apply bind_ok in Hp as (? & _ & Hp). destruct (is_send _ _ _ _) eqn:Hs. injection Hp as <-.
    split; [done|]. split; [done|]. eapply serves_send; [exact Hs|by left].
Qed.

Lemma run_iteration_works me now now_ms me' : run_iteration env me now now_ms = Ok me' -> works me me'.
Proof.
  unfold run_iteration. destruct (is_dequeue_message _ _) as [s o] eqn:Hd. intros (me1 & H1 & H2)%bind_ok.
  assert (works (with_server me s) me1) as (Hi & Ho & Hs).
  { destruct o; [|injection H1 as <-; apply works_refl]. apply bind_ok in H1 as (c & _ & Hp).
    by eapply process_container_works. }
  assert (works me me1) as Hw.
  { split; [exact Hi|]. split; [exact Ho|]. eapply serves_trans; [|exact Hs].
    by eapply serves_dequeue. }
  destruct (_ <? _); [|by injection H2 as <-]. unfold flush in H2.
  apply bind_ok in H2 as (pubs & _ & [= <-]). exact Hw.
Qed.

(** ** Which connections the engine talks to *)
Context (peer : nat -> string).

(** The server reads the name with which the peer of a handle introduced itself. *)
Definition header_read : Prop :=
  forall (e : E) h, ep_is_server e h = true /\ ep_request_header e h "client_name" = peer h.

(** The id is the one of the handle, or -1 when there is none. *)
Definition wired (s : TracedServer E) (name : string) (id : Z) : Prop :=
  match latest peer name (ts_trace s) with
  | None => id = -1
  | Some h => m_handle_to_connection_map (ts_manager s) !! h = Some id
  end.

(** The id belongs to a connection whose peer announced the name. *)
Definition of_peer (s : TracedServer E) (name : string) (id : Z) : Prop :=
  exists h, peer h = name /\ h ∈ opened_handles (ts_trace s) /\
    m_handle_to_connection_map (ts_manager s) !! h = Some id.

(** What the engine has read came from such a connection, and so on. *)
Definition spoken (s : TracedServer E) : Prop :=
  forall ev, ev ∈ ts_trace s ->
    match ev with
    | EvDequeue id _ => of_peer s "order_request" id
    | EvSend id _ _ => of_peer s "order_request" id \/ of_peer s "order_response" id
    | _ => True
    end.

Record engine_linked (ph : phase) me : Prop := {
  el_recorded : recorded uri (inbound_server me);
  el_request : wired (inbound_server me) "order_request" (incoming_request_connection_id me);
  el_response : wired (inbound_server me) "order_response" (order_response_connection_id me);
  el_spoken : spoken (inbound_server me);
  el_phase : ph = serving -> connected me = true
}.

(** Later states know at least the connections of earlier ones. *)
Definition extends (s s' : TracedServer E) (evs : list event) : Prop :=
  ts_trace s' = ts_trace s ++ evs /\
  m_handle_to_connection_map (ts_manager s) ⊆ m_handle_to_connection_map (ts_manager s').

Lemma of_peer_extends s s' evs name id : extends s s' evs -> of_peer s name id -> of_peer s' name id.
Proof.
  intros [Ht Hm] (h & Hp & Hin & Hh). exists h. split; [done|]. split.
  - rewrite Ht, opened_handles_app. apply elem_of_app. by left.
  - by eapply lookup_weaken.
Qed.

Lemma spoken_extends R W s s' evs :
  extends s s' evs -> spoken s ->
  (forall ev, ev ∈ evs -> (is_open ev = None -> network_event ev = true \/ speaks R W ev)) ->
  (forall id, R id -> of_peer s' "order_request" id) ->
  (forall id, W id -> of_peer s' "order_request" id \/ of_peer s' "order_response" id) ->
  spoken s'.
Proof.
  intros Hx Hs Hev HR HW ev. destruct Hx as [Ht Hm]. rewrite Ht, elem_of_app. intros [Hin|Hin].
  - specialize (Hs ev Hin). destruct ev; try done.
    + destruct Hs; [left|right]; by eapply of_peer_extends.
    + by eapply of_peer_extends.
  - specialize (Hev ev Hin). destruct ev; try done; destruct (Hev eq_refl); try done; auto.
Qed.

Lemma wired_same s s' evs name id :
  ts_trace s' = ts_trace s ++ evs -> opened_handles evs = [] ->
  m_handle_to_connection_map (ts_manager s') = m_handle_to_connection_map (ts_manager s) ->
  wired s name id -> wired s' name id.
Proof.
  intros Ht Hev Hm. unfold wired, latest. by rewrite Ht, opened_handles_app, Hev, app_nil_r, Hm.
Qed.

(** The handle just opened takes the place of the name's earlier one. *)
Lemma wired_open s w h name id :
  m_handle_to_connection_map (ts_manager s) !! h = None ->
  m_handle_to_connection_map w =
    <[h := m_next_id (ts_manager s)]> (m_handle_to_connection_map (ts_manager s)) ->
  wired s name id ->
  wired (mkTraced w (ts_trace s ++ [EvOpen h])) name
    (if decide (peer h = name) then m_next_id (ts_manager s) else id).
Proof.
  intros Hh Hm. unfold wired. simpl. rewrite latest_open, Hm. destruct (decide _).
  - intros _. apply lookup_insert_eq.
  - destruct (latest _ _ _) as [h'|]; [|done]. intros Hw. rewrite lookup_insert_ne; [done|congruence].
Qed.

(** The callback files the id under the announced name. *)
Lemma on_connection_ids md me :
  incoming_request_connection_id (on_connection md me) =
    (if decide (m_counter_party md = "order_request"%string) then m_id md
     else incoming_request_connection_id me) /\
  order_response_connection_id (on_connection md me) =
    (if decide (m_counter_party md = "order_response"%string) then m_id md
     else order_response_connection_id me).
Proof.
  unfold on_connection. destruct (String.eqb_spec (m_counter_party md) "order_request") as [Heq|Hne].
  - rewrite Heq. by destruct (decide _), (decide _).
  - rewrite decide_False by done.
    destruct (String.eqb_spec (m_counter_party md) "order_response"); [by rewrite decide_True|by rewrite decide_False].
Qed.

Lemma not_minus_one (z : Z) : 0 <= z -> (z =? -1) = false.
Proof. lia. Qed.

Lemma latest_elem name tr h : latest peer name tr = Some h -> peer h = name /\ h ∈ opened_handles tr.
Proof. unfold latest. intros Hl%last_Some_elem_of%list_elem_of_filter. done. Qed.

Lemma wired_peer s name id : wired s name id -> id <> -1 -> of_peer s name id.
Proof.
  unfold wired. destruct (latest _ _ _) as [h|] eqn:Hl; [|done]. intros Hh _.
  apply latest_elem in Hl as [? ?]. by exists h.
Qed.

Lemma connected_ids me :
  connected me = true ->
  incoming_request_connection_id me <> -1 /\ order_response_connection_id me <> -1.
Proof. unfold connected. lia. Qed.

Lemma engine_linked_works me me' : works me me' -> engine_linked serving me -> engine_linked serving me'.
Proof.
  intros (Hi & Ho & Hs) [Hr Hq Hp Hsp Hph]. destruct (Hs Hr) as (Hr' & Hm & evs & Ht & Hev).
  destruct (connected_ids me (Hph eq_refl)) as [Hni Hno].
  assert (extends (inbound_server me) (inbound_server me') evs) as Hx by (split; [done|by rewrite Hm]).
  pose proof (speaks_opened _ _ _ Hev) as Hop. rewrite <- Hi in Hq. rewrite <- Ho in Hp.
  assert (wired (inbound_server me') "order_request" (incoming_request_connection_id me')) as Hq'
    by (by eapply wired_same).
  assert (wired (inbound_server me') "order_response" (order_response_connection_id me')) as Hp'
    by (by eapply wired_same).
  split; [exact Hr'|exact Hq'|exact Hp'| |unfold connected; by rewrite Hi, Ho].
  rewrite <- Hi in Hni, Hev. rewrite <- Ho in Hno, Hev.
  eapply (spoken_extends _ _ _ _ _ Hx Hsp).
  - intros ev Hin _. right. by eapply (proj1 (Forall_forall _ _) Hev).
  - intros id ->. by apply wired_peer.
  - intros id [-> | ->]; [left|right]; by apply wired_peer.
Qed.

Lemma engine_network_linked ph me ev w :
  network_event ev = true -> server_step uri (ts_manager (inbound_server me)) ev w ->
  engine_linked ph me ->
  engine_linked ph (with_server me (mkTraced w (ts_trace (inbound_server me) ++ [ev]))).
Proof.
  intros Hev Hstep [Hr Hq Hp Hsp Hph]. assert (is_open ev = None) as Hno by by destruct ev.
  destruct (recorded_step _ _ _ _ Hr Hstep Hno) as [Hr' Hm].
  assert (opened_handles [ev] = []) as Hop by (unfold opened_handles; simpl; by rewrite Hno).
  split; [exact Hr'|by eapply wired_same..| |exact Hph].
  eapply (spoken_extends (fun _ => False) (fun _ => False) _ _ [ev]); [|exact Hsp| |done..].
  - split; [done|]. simpl. by rewrite Hm.
  - intros ev' ->%list_elem_of_singleton _. by left.
Qed.

Lemma engine_open_linked ph me h me' :
  header_read -> m_handle_to_connection_map (ts_manager (inbound_server me)) !! h = None ->
  engine_open me h = Ok me' -> engine_linked ph me -> engine_linked ph me'.
Proof.
  intros Hread Hh Hopen [Hr Hq Hp Hsp Hph]. unfold engine_open in Hopen.
  apply bind_ok in Hopen as ([w me1] & Hopen & [= <-]).
  apply server_on_open_callback in Hopen as [Hopen ->].
  destruct (recorded_open _ _ _ _ Hr Hh Hopen) as [Hr' Hm].
  set (md := on_open _ _ _). pose proof (on_connection_ids md me) as [Hi Ho].
  assert (m_counter_party md = peer h) as Hcp.
  { unfold md, on_open, counter_party. simpl.
    by destruct (Hread (m_endpoint (ts_manager (inbound_server me))) h) as [-> ->]. }
  rewrite Hcp in Hi, Ho. destruct Hr as [[Hnext _] _].
  split; [exact Hr'|..]; cbn [with_server inbound_server incoming_request_connection_id order_response_connection_id].
  - rewrite Hi. by apply wired_open.
  - rewrite Ho. by apply wired_open.
  - eapply (spoken_extends (fun _ => False) (fun _ => False) _ _ [EvOpen h]); [|exact Hsp| |done..].
    + split; [done|]. simpl. rewrite Hm. by apply insert_subseteq.
    + by intros ev ->%list_elem_of_singleton.
  - intros Hs%Hph. revert Hs. unfold connected. simpl. rewrite Hi, Ho. unfold md. simpl.
    destruct (decide _), (decide _); lia.
Qed.

Lemma engine_main_linked ph me : header_read -> engine_main ph me -> engine_linked ph me.
Proof.
  intros Hread. induction 1 as [e ctp csp symbols interval start me Hinit
    |ph me h me' _ IH Hh Hopen|ph me ev w _ IH Hev Hstep|me _ IH Hc|me now now_ms me' _ IH Hrun].
  - unfold engine_init in Hinit. simpl in Hinit.
    destruct (server_start (new_server e)) as [w ok] eqn:Hst. destruct ok; [|done]. injection Hinit as <-.
    unfold server_start in Hst. destruct (ep_start_accept _) as [e' ?]. injection Hst as <- _.
    split; [apply (recorded_start uri e')|done|done| |done]. by intros ev ?%elem_of_nil.
  - by eapply engine_open_linked.
  - by apply engine_network_linked.
  - destruct IH. by split.
  - eapply engine_linked_works; [by eapply run_iteration_works|exact IH].
Qed.

(** The id behind a name is a connection of the server, and everything that came
    in on that connection was read from the id or waits there. *)
Lemma wired_connection s name id h :
  recorded uri s -> wired s name id -> latest peer name (ts_trace s) = Some h ->
  0 <= id /\ (exists md, m_id_to_connection_map (ts_manager s) !! id = Some md /\ m_handle md = h) /\
  all_arrived h (ts_trace s) = all_read id (ts_trace s) ++ queued_on (ts_manager s) id.
Proof.
  intros [[_ Hpos] [e Hrun]] Hw Hl. unfold wired in Hw. rewrite Hl in Hw.
  destruct (server_run_routed _ _ _ _ Hrun) as [Hwf Hfifo _ _].
  split; [by eapply Hpos|]. split; [|by apply Hfifo].
  destruct (sw_handle _ Hwf _ _ Hw) as (md & ? & ? & _). eauto.
Qed.

(** [wait_for_connections] ends exactly when both names have been announced. *)
Lemma engine_connected ph me :
  engine_linked ph me ->
  connected me = true <->
    is_Some (latest peer "order_request" (ts_trace (inbound_server me))) /\
    is_Some (latest peer "order_response" (ts_trace (inbound_server me))).
Proof.
  intros [Hr Hq Hp _ _]. unfold connected.
  assert (forall name id, wired (inbound_server me) name id ->
    negb (id =? -1) = true <-> is_Some (latest peer name (ts_trace (inbound_server me)))) as Hname.
  { intros name id Hw. destruct (latest _ _ _) as [h|] eqn:Hl.
    - destruct (wired_connection _ _ _ _ Hr Hw Hl) as [Hpos _]. rewrite not_minus_one by done. by split.
    - unfold wired in Hw. rewrite Hl in Hw. subst id. split; [done|by intros []]. }
  rewrite negb_orb, andb_true_iff, (Hname _ _ Hq), (Hname _ _ Hp). done.
Qed.
End EngineMain.

(** ** The order manager dials *)
Section Dialling.
Context {E : Type} {ep : Endpoint E}.
Implicit Types (client : WebsocketManager E).

(** The last thing the client did was to dial the connection [id], with the
    header that announces [name].  [connect] does not wait: the status is still
    [connecting]. *)
Definition announces client (id : Z) (name : string) : Prop :=
  exists e md, m_id_to_connection_map client !! id = Some md /\ m_status md = connecting /\
    m_endpoint client = ep_connect (ep_append_header e (m_handle md) "client_name" name) (m_handle md).

Lemma connect_loop_announces n client uri name client' id :
  connect_loop n client uri name = Ok (client', id) -> announces client' id name.
Proof.
  revert client. induction n as [|n IH]; intros client; cbn [connect_loop]; [done|].
  intros ([client1 r] & Hc & Hr)%bind_ok. destruct r as [id'|]; [|by eapply IH].
  injection Hr as <- <-. simpl in Hc. unfold client_connect in Hc.
  destruct (ep_get_connection _ _) as [e [c|]]; [|done].
  apply bind_ok in Hc as (next & _ & [= <- <-]). exists e. eexists. simpl.
  rewrite lookup_insert_eq. done.
Qed.

Lemma connect_matching_engine_announces {I D} (om om' : OrderManager I (WebsocketManager E) D) uri n :
  connect_matching_engine om uri n = Ok om' ->
  announces (order_request_outbound_client om') (order_request_connection_id om') "order_request" /\
  announces (order_response_outbound_client om') (om_order_response_connection_id om') "order_response".
Proof.
  unfold connect_matching_engine. intros (_ & _ & H1)%bind_ok.
  apply bind_ok in H1 as ([request request_id] & Hq & H1).
  apply bind_ok in H1 as ([response response_id] & Hp & [= <-]). simpl.
  split; by eapply connect_loop_announces.
Qed.

End Dialling.

(** ** Both ends together *)
Section Handshake.
Context {Es Ec : Type} {eps : Endpoint Es} {epc : Endpoint Ec} {P Q I D : Type}
  {tpub : Publisher Trade P} {spub : Publisher TopOrderBookLevelAggregates Q} `{ProtoCodec}
  (env : Env) (peer : nat -> string)
  (accepts : WebsocketManager Ec -> Z -> nat -> Prop).
Implicit Types (me : MatchingEngine (TracedServer Es) P Q)
  (om : OrderManager I (WebsocketManager Ec) D).

(** [accepts client id h]: the handle [h] of the server is the other end of the
    client's connection [id]; the header of the client's opening request is the
    one the server sees. *)
Definition header_carried : Prop :=
  forall client id h name, announces client id name -> accepts client id h -> peer h = name.

(** A name that one peer alone uses. *)
Definition only_peer (tr : list event) (name : string) (h : nat) : Prop :=
  forall h', h' ∈ opened_handles tr -> peer h' = name -> h' = h.

Lemma only_peer_latest tr name h :
  peer h = name -> only_peer tr name h ->
  is_Some (latest peer name tr) <-> h ∈ opened_handles tr.
Proof.
  intros Hp Hu. rewrite latest_spec. split; [|by eauto].
  intros (h' & Hin & Hp'). by rewrite <- (Hu h' Hin Hp').
Qed.

Lemma only_peer_id (s : TracedServer Es) name h id id' :
  wired peer s name id -> 0 <= id -> only_peer (ts_trace s) name h ->
  of_peer peer s name id' -> id' = id.
Proof.
  intros Hw Hid Hu (h' & Hp & Hin & Hh). unfold wired in Hw.
  destruct (latest _ _ _) as [h0|] eqn:Hl; [|lia]. apply latest_elem in Hl as [Hp0 Hin0].
  rewrite (Hu _ Hin Hp) in Hh. rewrite (Hu _ Hin0 Hp0) in Hw. congruence.
Qed.

(** C20: the order manager and the matching engine find each other.  Let the order
    manager have dialled both connections and let [hq] and [hp] be the engine's
    ends of them, in whatever order they open, among any other connections under
    other names.  The engine stops waiting exactly when both are open, and it
    never serves before.  From then on its request id is the connection [hq] and
    its response id the connection [hp], two different ids; what has arrived on
    [hq] is, in order, what the engine has read followed by what still waits; and
    it has read from no other connection and sent on these two only. *)
Theorem startup_wired om0 om uri0 n uri ph me hq hp :
  header_read (E := Es) peer -> header_carried ->
  connect_matching_engine om0 uri0 n = Ok om ->
  accepts (order_request_outbound_client om) (order_request_connection_id om) hq ->
  accepts (order_response_outbound_client om) (om_order_response_connection_id om) hp ->
  engine_main env uri ph me ->
  only_peer (ts_trace (inbound_server me)) "order_request" hq ->
  only_peer (ts_trace (inbound_server me)) "order_response" hp ->
  let w := ts_manager (inbound_server me) in
  let tr := ts_trace (inbound_server me) in
  let request := incoming_request_connection_id me in
  let response := order_response_connection_id me in
  (connected me = true <-> hq ∈ opened_handles tr /\ hp ∈ opened_handles tr) /\
  (ph = serving -> connected me = true) /\
  (connected me = true ->
     request <> response /\
     (exists md, m_id_to_connection_map w !! request = Some md /\ m_handle md = hq) /\
     (exists md, m_id_to_connection_map w !! response = Some md /\ m_handle md = hp) /\
     all_arrived hq tr = all_read request tr ++ queued_on w request /\
     forall ev, ev ∈ tr ->
       match ev with
       | EvDequeue id _ => id = request
       | EvSend id _ _ => id = request \/ id = response
       | _ => True
       end).
Proof.
  intros Hread Hcarry [Haq Hap]%connect_matching_engine_announces Hq Hp Hmain Huq Hup. simpl.
  specialize (Hcarry _ _ _ _ Haq Hq) as Hpq. pose proof (Hcarry _ _ _ _ Hap Hp) as Hpp.
  pose proof (engine_main_linked _ _ _ _ _ Hread Hmain) as Hl.
  pose proof (engine_connected _ _ _ _ Hl) as Hc.
  split; [by rewrite Hc, (only_peer_latest _ _ _ Hpq Huq), (only_peer_latest _ _ _ Hpp Hup)|].
  split; [apply (el_phase _ _ _ _ Hl)|]. rewrite Hc. intros [[h1 H1] [h2 H2]].
  destruct (latest_elem _ _ _ _ H1) as [Hn1 Hi1]. destruct (latest_elem _ _ _ _ H2) as [Hn2 Hi2].
  rewrite (Huq _ Hi1 Hn1) in H1. rewrite (Hup _ Hi2 Hn2) in H2. destruct Hl as [Hr Hwq Hwp Hsp _].
  destruct (wired_connection _ _ _ _ _ _ Hr Hwq H1) as (Hposq & (mq & Hmq & Hhq) & Hfifo).
  destruct (wired_connection _ _ _ _ _ _ Hr Hwp H2) as (Hposp & (mp & Hmp & Hhp) & _).
  split; [intros Heq; rewrite Heq in Hmq; congruence|]. split; [by eauto|]. split; [by eauto|].
  split; [done|]. intros ev Hin. specialize (Hsp ev Hin). destruct ev; try done.
  - destruct Hsp; [left|right]; by eapply only_peer_id.
  - by eapply only_peer_id.
Qed.
End Handshake.

(** ** A start-up

    The response connection (handle 21) opens first, then a stranger (22), then
    the request connection (20), on which a query is waiting when the engine
    starts to serve. *)
#[local] Existing Instance toy_codec.

Definition sample_peer (h : nat) : string :=
  match h with
  | 20%nat => "order_request"
  | 21%nat => "order_response"
  | 23%nat => "order_request"
  | _ => "monitor"
  end.

Inductive SampleServer := sample_endpoint.

#[export] Instance sample_server_ep : Endpoint SampleServer := {|
  ep_send e _ _ _ := (e, true); ep_close e _ _ := (e, true); ep_start_accept e := (e, true);
  ep_get_connection e _ := (e, None); ep_append_header e _ _ _ := e; ep_connect e _ := e;
  ep_is_server _ _ := true; ep_request_header _ h _ := sample_peer h;
  ep_response_header _ _ _ := ""%string; ep_close_reason _ _ := ""%string
|}.

(** A client's endpoint keeps the names it announced; the first attempt to get a
    connection fails. *)
Inductive SampleClient := sample_client (tries : nat) (announced : list string).

#[export] Instance sample_client_ep : Endpoint SampleClient := {|
  ep_send e _ _ _ := (e, true); ep_close e _ _ := (e, true); ep_start_accept e := (e, true);
  ep_get_connection '(sample_client n l) _ :=
    (sample_client (S n) l, match n with O => None | _ => Some 5%nat end);
  ep_append_header '(sample_client n l) _ _ name := sample_client n (l ++ [name]);
  ep_connect e _ := e; ep_is_server _ _ := false; ep_request_header _ _ _ := ""%string;
  ep_response_header _ _ _ := ""%string; ep_close_reason _ _ := ""%string
|}.

Definition announced_names (client : WebsocketManager SampleClient) : list string :=
  match m_endpoint client with sample_client _ l => l end.

Definition sample_accepts (client : WebsocketManager SampleClient) (id : Z) (h : nat) : Prop :=
  last (announced_names client) = Some (sample_peer h).

Lemma sample_header_read : header_read (E := SampleServer) sample_peer.
Proof. done. Qed.

Lemma sample_header_carried : header_carried sample_peer sample_accepts.
Proof.
  intros client id h name (e & md & _ & _ & He) Ha. unfold sample_accepts, announced_names in Ha.
  rewrite He in Ha. destruct e as [n l]. simpl in Ha. rewrite last_snoc in Ha. by injection Ha.
Qed.

Abbreviation start_om := (OrderManager unit (WebsocketManager SampleClient) unit).
Abbreviation start_engine :=
  (MatchingEngine (TracedServer SampleServer) (list Trade) (list TopOrderBookLevelAggregates)).

Definition fresh_client : WebsocketManager SampleClient := mkManager (sample_client 0 []) ∅ ∅ 0 [].
Definition start_om0 : start_om := new_order_manager ["GME"%string] () fresh_client fresh_client ().
Definition start_om1 : start_om := ok_or (connect_matching_engine start_om0 "ws://me:6001" 5) start_om0.

Definition start_me0 : start_engine :=
  new_engine (mkTraced (new_server sample_endpoint) []) (fun _ => []) (fun _ => []) ["GME"%string] 1000 0.
Definition opens (me : start_engine) (h : nat) : start_engine := ok_or (engine_open "uri" me h) me.
Definition hears (me : start_engine) (h : nat) (m : string) : start_engine :=
  with_server me (mkTraced (server_on_message (ts_manager (inbound_server me)) h m)
                    (ts_trace (inbound_server me) ++ [EvMessage h m])).

Definition sample_query : string := serialize_container (CFillCostQuery (mkFillCostQuery "GME" 20 ask)).
Definition start_me1 : start_engine := hears (opens (opens (opens start_me0 21) 22) 20) 20 sample_query.
Definition start_me2 : start_engine := ok_or (run_iteration sample_env start_me1 10 10) start_me1.

Example start_me2_trace :
  ts_trace (inbound_server start_me2) =
    [EvOpen 21; EvOpen 22; EvOpen 20; EvMessage 20 sample_query; EvDequeue 2 (Some sample_query);
     EvSend 2 (serialize_container (CFillCostResponse (mkFillCostResponse None))) true].
Proof. vm_compute. reflexivity. Qed.

Lemma opens_step ph me h :
  engine_main sample_env "uri" ph me ->
  m_handle_to_connection_map (ts_manager (inbound_server me)) !! h = None ->
  engine_open "uri" me h = Ok (opens me h) -> engine_main sample_env "uri" ph (opens me h).
Proof. apply em_open. Qed.

Lemma start_waits : engine_main sample_env "uri" waiting start_me1.
Proof.
  apply (em_network _ _ _ (opens (opens (opens start_me0 21) 22) 20) (EvMessage 20 sample_query)).
  - apply opens_step; [|reflexivity..]. apply opens_step; [|reflexivity..]. apply opens_step; [|reflexivity..].
    eapply (em_init _ _ sample_endpoint). reflexivity.
  - reflexivity.
  - apply ss_message. eexists. reflexivity.
Qed.

Lemma start_serves : engine_main sample_env "uri" serving start_me2.
Proof.
  apply (em_run _ _ start_me1 10 10); [|vm_compute; reflexivity].
  apply em_ready; [exact start_waits|reflexivity].
Qed.

Lemma startup_wired_witness :
  connected start_me2 = true /\
  incoming_request_connection_id start_me2 <> order_response_connection_id start_me2 /\
  all_arrived 20 (ts_trace (inbound_server start_me2)) =
    all_read 2 (ts_trace (inbound_server start_me2)) ++ queued_on (ts_manager (inbound_server start_me2)) 2.
Proof.
  destruct (startup_wired sample_env sample_peer sample_accepts start_om0 start_om1 "ws://me:6001" 5 "uri"
    serving start_me2 20 21) as (_ & Hph & Hc).
  - exact sample_header_read.
  - exact sample_header_carried.
  - reflexivity.
  - reflexivity.
  - reflexivity.
  - exact start_serves.
  - rewrite start_me2_trace. intros h' Hin. simpl in Hin. set_solver.
  - rewrite start_me2_trace. intros h' Hin. simpl in Hin. set_solver.
  - specialize (Hph eq_refl). destruct (Hc Hph) as (Hne & _ & _ & Hfifo & _).
    split; [exact Hph|]. split; [exact Hne|exact Hfifo].
Defined.

(** Nothing ties the names to the order manager: a client that calls itself
    "order_request" takes the connection over, and what the order manager sends
    from then on is queued and never read. *)
Example impostor_takes_over :
  let me := hears (opens start_me2 23) 20 sample_query in
  incoming_request_connection_id me = 3 /\
  (run_iteration sample_env me 10 10 ≫= fun me' =>
     Ok (queued_on (ts_manager (inbound_server me')) 2)) = Ok [sample_query].
Proof. vm_compute. done. Qed.
