(* ===== verification/Polling.v ===== *)
(** * The order manager and its gateways

    [main.cpp] of the order manager runs [init], waits for the first gateway,
    dials the matching engine and then serves its gateways in turn.  The program
    is a transition system over the operations of [OrderManager] on a server that
    records its events ([ServerTrace]); the invariant says which gateway each poll
    is for.

    The callback that takes gateways in stays installed for the whole life of the
    program, but [wait_for_connections] awaits only the first one.  A gateway that
    connects while [run] iterates makes the callback grow the vector that [run]
    iterates over, which may invalidate the iterator: the phase [om_undefined], in
    which the network goes on but the next iteration of [run] has no meaning in
    C++.  The theorem is about [om_serving]: no gateway has connected since [run]
    began. *)

From S2P Require Import Prelude Core Messaging Concurrency Transport ServerTrace BalanceChecker OrderManager OrderValidation.
From Stdlib Require Import ZArith Lia Ascii String.
From stdpp Require Import base option list list_numbers gmap strings fin_maps.

Open Scope Z_scope.

(** The ids that a trace polls, in order. *)
Definition is_poll (ev : event) : option Z :=
  match ev with EvDequeue id _ => Some id | _ => None end.
Definition polls (tr : list event) : list Z := omap is_poll tr.

Lemma polls_app tr tr' : polls (tr ++ tr') = polls tr ++ polls tr'.
Proof. apply omap_app. Qed.

Lemma polls_sends W evs : Forall (speaks (fun _ => False) W) evs -> polls evs = [].
Proof. unfold polls. induction 1 as [|[] evs Hev _ IH]; simpl in *; tauto. Qed.

Inductive om_phase := om_waiting | om_serving | om_undefined.

Section OrderManagerMain.
Context {E : Type} {ep : Endpoint E} {C D : Type} `{OutboundClient C} `{OrderManagerDatabase D}
  `{ProtoCodec} (SERVER_NAME : string) (exec_ids : nat -> string) (uri : string).
Implicit Types (om : OrderManager (TracedServer E) C D).

(** The condition on which [wait_for_connections] stops sleeping. *)
Definition gateways_connected om : bool := negb (Nat.eqb (length (gateway_connection_ids om)) 0).

Definition with_inbound om (s : TracedServer E) : OrderManager (TracedServer E) C D :=
  with_links om s (order_response_outbound_client om) (gateway_ids_it om).

(** The open handler of the server: [callback] is [on_gateway_connection]. *)
Definition om_open om (h : nat) : res (OrderManager (TracedServer E) C D) :=
  let s := om_inbound_server om in
  '(w, om') ← server_on_open uri (Some on_gateway_connection) (ts_manager s) om h;
  Ok (with_inbound om' (mkTraced w (ts_trace s ++ [EvOpen h]))).

(** Messages that arrive on the two connections to the engine. *)
Definition with_clients om (request response : C) : OrderManager (TracedServer E) C D :=
  mkOrderManager (active_symbols om) (gateway_connection_ids om) (order_request_connection_id om)
    (om_order_response_connection_id om) (om_inbound_server om) request response
    (balance_checker om) (username_user_id_map om) (database_client om) (server_id om) (orders om)
    (exec_count om) (gateway_ids_it om).

(** [main]; the network acts between any two steps. *)
Inductive om_main : om_phase -> OrderManager (TracedServer E) C D -> Prop :=
  | omm_init e symbols request response db om :
      om_init SERVER_NAME (new_order_manager symbols (mkTraced (new_server e) []) request response db) = Ok om ->
      om_main om_waiting om
  | omm_open om h om' :
      om_main om_waiting om ->
      m_handle_to_connection_map (ts_manager (om_inbound_server om)) !! h = None ->
      om_open om h = Ok om' -> om_main om_waiting om'
  | omm_late_open ph om h om' :
      om_main ph om -> ph <> om_waiting ->
      m_handle_to_connection_map (ts_manager (om_inbound_server om)) !! h = None ->
      om_open om h = Ok om' -> om_main om_undefined om'
  | omm_network ph om ev w :
      om_main ph om -> network_event ev = true ->
      server_step uri (ts_manager (om_inbound_server om)) ev w ->
      om_main ph (with_inbound om (mkTraced w (ts_trace (om_inbound_server om) ++ [ev])))
  | omm_clients ph om request response : om_main ph om -> om_main ph (with_clients om request response)
  | omm_connect om engine_uri attempts om' :
      om_main om_waiting om -> gateways_connected om = true ->
      connect_matching_engine om engine_uri attempts = Ok om' -> om_main om_serving om'
  | omm_run om om' :
      om_main om_serving om -> om_run_iteration SERVER_NAME exec_ids om = Ok om' ->
      om_main om_serving om'.

(** ** What one iteration does at the server *)

(** Reports only: nothing is polled, the gateways stay as they are. *)
Definition reports om om' : Prop :=
  gateway_connection_ids om' = gateway_connection_ids om /\
  gateway_ids_it om' = gateway_ids_it om /\
  serves uri (fun _ => False) (fun _ => True) (om_inbound_server om) (om_inbound_server om').

Lemma send_reports (s : TracedServer E) id m fmt :
  serves uri (fun _ => False) (fun _ => True) s (is_send s id m fmt).1.
Proof. destruct (is_send s id m fmt) as [s' ok] eqn:Hs. by eapply serves_send. Qed.

Lemma forward_and_reply_serves v c infos g (client : C) id s exec_id reason client' s' :
  forward_and_reply SERVER_NAME v c infos g client id s exec_id reason = Ok (client', s') ->
  serves uri (fun _ => False) (fun _ => True) s s'.
Proof.
  unfold forward_and_reply. intros (_ & _ & Hf)%bind_ok. destruct v.
  - apply bind_ok in Hf as (r & _ & [= _ <-]). apply send_reports.
  - apply bind_ok in Hf as (r & _ & Hf). apply bind_ok in Hf as (rep & _ & [= _ <-]). apply send_reports.
Qed.

Lemma return_execution_report_serves c ids infos s n s' :
  return_execution_report SERVER_NAME exec_ids c ids infos s n = Ok s' ->
  serves uri (fun _ => False) (fun _ => True) s s'.
Proof.
  destruct c; cbn [return_execution_report]; try done.
  - intros ([taker maker] & _ & Hr)%bind_ok. apply bind_ok in Hr as (ti & _ & Hr).
    apply bind_ok in Hr as (mi & _ & [= <-]). eapply serves_trans; apply send_reports.
  - intros (r & _ & Hr)%bind_ok. apply bind_ok in Hr as (i & _ & [= <-]). apply send_reports.
Qed.

Lemma process_request_reports om g m om' :
  process_request SERVER_NAME exec_ids om g m = Ok om' -> reports om om'.
Proof.
  unfold process_request. intros (c & _ & Hp)%bind_ok.
  apply bind_ok in Hp as ([[[c' orders'] client] r] & _ & Hp). apply bind_ok in Hp as ([bc verdict] & _ & Hp).
  apply bind_ok in Hp as ([client' s] & Hf & Hp). apply bind_ok in Hp as (db & _ & [= <-]).
  split; [done|]. split; [done|]. by eapply forward_and_reply_serves.
Qed.

Lemma process_response_reports om m om' :
  process_response SERVER_NAME exec_ids om m = Ok om' -> reports om om'.
Proof.
  unfold process_response. intros (c & _ & Hp)%bind_ok. apply bind_ok in Hp as ([infos bc] & _ & Hp).
  apply bind_ok in Hp as (s & Hr & Hp). apply bind_ok in Hp as (db & _ & [= <-]).
  split; [done|]. split; [done|]. by eapply return_execution_report_serves.
Qed.

(** The place of the next gateway. *)
Definition next_it (it n : nat) : nat := if Nat.eqb (S it) n then 0%nat else S it.

Lemma next_it_mod k n : (0 < n)%nat -> next_it (k mod n) n = (S k mod n)%nat.
Proof.
  intros Hn. unfold next_it. pose proof (Nat.mod_upper_bound k n). pose proof (Nat.div_mod_eq k n).
  destruct (Nat.eqb_spec (S (k mod n)) n) as [Heq|Hne].
  - apply (Nat.mod_unique _ _ (S (k / n))); lia.
  - apply (Nat.mod_unique _ _ (k / n)); lia.
Qed.

(** One iteration polls the gateway at the iterator and moves on. *)
Lemma iteration_polls om om' :
  om_run_iteration SERVER_NAME exec_ids om = Ok om' -> recorded uri (om_inbound_server om) ->
  exists g, gateway_connection_ids om !! gateway_ids_it om = Some g /\
    gateway_connection_ids om' = gateway_connection_ids om /\
    gateway_ids_it om' = next_it (gateway_ids_it om) (length (gateway_connection_ids om)) /\
    recorded uri (om_inbound_server om') /\
    m_handle_to_connection_map (ts_manager (om_inbound_server om')) =
      m_handle_to_connection_map (ts_manager (om_inbound_server om)) /\
    opened_handles (ts_trace (om_inbound_server om')) = opened_handles (ts_trace (om_inbound_server om)) /\
    polls (ts_trace (om_inbound_server om')) = polls (ts_trace (om_inbound_server om)) ++ [g].
Proof.
  unfold om_run_iteration. intros (g & Hg & Hrun)%bind_ok Hrec.
  destruct (gateway_connection_ids om !! gateway_ids_it om) as [g'|]; [|done]. injection Hg as ->.
  exists g. split; [done|].
  destruct (is_dequeue_message _ _) as [s request] eqn:Hd.
  assert (exists o, recorded uri s /\
    m_handle_to_connection_map (ts_manager s) = m_handle_to_connection_map (ts_manager (om_inbound_server om)) /\
    ts_trace s = ts_trace (om_inbound_server om) ++ [EvDequeue g o]) as (o & Hrs & Hms & Hts).
  { simpl in Hd. destruct (dequeue_message _ _) as [w o] eqn:Hw. injection Hd as <- <-. exists o.
    destruct (recorded_step uri _ (EvDequeue g o) w Hrec) as [? ?]; [by apply ss_dequeue|done|done]. }
  apply bind_ok in Hrun as (om1 & Hq & Hp).
  assert (reports (with_links om s (order_response_outbound_client om) (gateway_ids_it om)) om1) as (Hi1 & Ht1 & Hs1).
  { destruct request; [by eapply process_request_reports|injection Hq as <-].
    split; [done|]. split; [done|apply serves_refl]. }
  simpl in Hi1, Ht1, Hs1. rewrite Hi1, Ht1 in Hp.
  destruct (oc_dequeue_message _ _) as [client response].
  set (om2 := with_links om1 (om_inbound_server om1) client _) in Hp.
  assert (reports om2 om') as (Hi2 & Ht2 & Hs2).
  { destruct response; [by eapply process_response_reports|injection Hp as <-].
    split; [done|]. split; [done|apply serves_refl]. }
  destruct (serves_trans _ _ _ _ _ _ Hs1 Hs2 Hrs) as (Hr' & Hm' & evs & Ht & Hev).
  rewrite Hi2, Ht2, Hm', Hms, Ht, Hts. simpl. rewrite Hi1. split; [done|]. split; [done|]. split; [done|].
  split; [done|]. rewrite !opened_handles_app, !polls_app, (speaks_opened _ _ _ Hev), (polls_sends _ _ Hev).
  by rewrite !app_nil_r.
Qed.

(** ** The invariant *)
Record om_linked (ph : om_phase) om : Prop := {
  ol_recorded : recorded uri (om_inbound_server om);
  ol_gateways : Forall2 (fun id h => m_handle_to_connection_map (ts_manager (om_inbound_server om)) !! h = Some id)
    (gateway_connection_ids om) (opened_handles (ts_trace (om_inbound_server om)));
  ol_distinct : NoDup (gateway_connection_ids om);
  ol_waiting : ph = om_waiting -> polls (ts_trace (om_inbound_server om)) = [] /\ gateway_ids_it om = 0%nat;
  ol_serving : ph = om_serving -> (0 < length (gateway_connection_ids om))%nat /\
    gateway_ids_it om =
      (length (polls (ts_trace (om_inbound_server om))) mod length (gateway_connection_ids om))%nat;
  ol_polls : forall i g, polls (ts_trace (om_inbound_server om)) !! i = Some g ->
    gateway_connection_ids om !! (i mod length (gateway_connection_ids om))%nat = Some g
}.

Lemma om_open_linked om h om' :
  m_handle_to_connection_map (ts_manager (om_inbound_server om)) !! h = None ->
  om_open om h = Ok om' -> om_linked om_waiting om -> om_linked om_waiting om'.
Proof.
  intros Hh Hopen [Hr Hg Hnd Hw _ _]. unfold om_open in Hopen.
  apply bind_ok in Hopen as ([w om1] & Hopen & [= <-]).
  apply server_on_open_callback in Hopen as [Hopen ->].
  destruct (recorded_open _ _ _ _ Hr Hh Hopen) as [Hr' Hm].
  destruct (Hw eq_refl) as [Hpolls Hit].
  assert (forall id, id ∈ gateway_connection_ids om -> id < m_next_id (ts_manager (om_inbound_server om))) as Hlt.
  { intros id Hid. destruct Hr as [_ [e Hrun]]. destruct (server_run_routed _ _ _ _ Hrun) as [[Hsw Hfr] _ _ _].
    apply list_elem_of_lookup in Hid as [i Hi]. destruct (Forall2_lookup_l _ _ _ _ _ Hg Hi) as (h' & _ & Hh').
    destruct (Hsw _ _ Hh') as (md & Hmd & _). apply Hfr. by rewrite Hmd. }
  split; [exact Hr'|..]; cbn [with_inbound with_links on_gateway_connection om_inbound_server gateway_connection_ids ts_trace ts_manager m_id on_open new_metadata].
  - rewrite opened_handles_app. apply Forall2_app.
    + eapply Forall2_impl; [exact Hg|]. intros id h' Hh'. simpl in Hh'. rewrite Hm.
      rewrite lookup_insert_ne; [done|congruence].
    + constructor; [|constructor]. rewrite Hm. apply lookup_insert_eq.
  - apply NoDup_app. split; [done|]. split; [|apply NoDup_singleton].
    intros id Hid ->%list_elem_of_singleton. specialize (Hlt _ Hid). lia.
  - intros _. by rewrite polls_app, Hpolls.
  - done.
  - intros i g. by rewrite polls_app, Hpolls.
Qed.

Lemma om_run_linked om om' :
  om_run_iteration SERVER_NAME exec_ids om = Ok om' -> om_linked om_serving om -> om_linked om_serving om'.
Proof.
  intros Hrun [Hr Hg Hnd _ Hs Hp]. destruct (Hs eq_refl) as [Hpos Hit].
  destruct (iteration_polls _ _ Hrun Hr) as (g & Hgid & Hids & Hit' & Hr' & Hm & Hop & Hpolls).
  split; [exact Hr'|by rewrite Hm, Hop, Hids|by rewrite Hids|done|..].
  - intros _. rewrite Hids, Hit', Hpolls, length_app, Nat.add_1_r, Hit. split; [done|by apply next_it_mod].
  - intros i g' Hi. rewrite Hids. rewrite Hpolls in Hi. apply lookup_app_Some in Hi as [Hi|[Hle Hi]]; [by apply Hp|].
    apply list_lookup_singleton_Some in Hi as [Hz <-].
    replace i with (length (polls (ts_trace (om_inbound_server om)))) by lia. by rewrite <- Hit.
Qed.

Lemma om_network_linked ph om ev w :
  network_event ev = true -> server_step uri (ts_manager (om_inbound_server om)) ev w ->
  om_linked ph om -> om_linked ph (with_inbound om (mkTraced w (ts_trace (om_inbound_server om) ++ [ev]))).
Proof.
  intros Hev Hstep [Hr Hg Hnd Hw Hs Hp].
  destruct (recorded_step _ _ _ _ Hr Hstep) as [Hr' Hm]; [by destruct ev|].
  assert (polls (ts_trace (om_inbound_server om) ++ [ev]) = polls (ts_trace (om_inbound_server om))) as Hpo
    by (rewrite polls_app; destruct ev; try done; apply app_nil_r).
  assert (opened_handles (ts_trace (om_inbound_server om) ++ [ev]) =
          opened_handles (ts_trace (om_inbound_server om))) as Hop
    by (apply opened_handles_other; by destruct ev).
  split; [exact Hr'|..]; simpl; by rewrite ?Hpo, ?Hop, ?Hm.
Qed.

Lemma om_connect_linked om engine_uri n om' :
  gateways_connected om = true -> connect_matching_engine om engine_uri n = Ok om' ->
  om_linked om_waiting om -> om_linked om_serving om'.
Proof.
  unfold connect_matching_engine. intros Hgw (_ & _ & Hc)%bind_ok [Hr Hg Hnd Hw _ Hp].
  apply bind_ok in Hc as ([request rid] & _ & Hc). apply bind_ok in Hc as ([response pid] & _ & [= <-]).
  destruct (Hw eq_refl) as [Hpo Hit].
  split; simpl; [exact Hr|exact Hg|exact Hnd|done| |exact Hp].
  intros _. rewrite Hpo, Hit. unfold gateways_connected in Hgw. apply negb_true_iff, Nat.eqb_neq in Hgw.
  split; [lia|]. symmetry. apply Nat.Div0.mod_0_l.
Qed.

Lemma om_main_linked ph om : om_main ph om -> ph <> om_undefined -> om_linked ph om.
Proof.
  induction 1 as [e symbols request response db om Hinit|om h om' _ IH Hh Hopen|ph om h om' _ _ _ _ _
    |ph om ev w _ IH Hev Hstep|ph om request response _ IH|om engine_uri n om' _ IH Hgw Hc|om om' _ IH Hrun];
    intros Hph; try specialize (IH ltac:(done)).
  - unfold om_init in Hinit. simpl in Hinit.
    destruct (server_start (new_server e)) as [w ok] eqn:Hst. unfold server_start in Hst.
    destruct (ep_start_accept _) as [e' ?]. injection Hst as <- <-.
    apply bind_ok in Hinit as (_ & _ & Hinit). destruct (oc_start request).
    apply bind_ok in Hinit as (_ & _ & Hinit). destruct (oc_start response).
    apply bind_ok in Hinit as (_ & _ & Hinit). apply bind_ok in Hinit as ([bc users] & _ & Hinit).
    apply bind_ok in Hinit as (sid & _ & [= <-]).
    split; [apply (recorded_start uri e')|constructor|constructor|done|done|done].
  - by eapply om_open_linked.
  - done.
  - by apply om_network_linked.
  - destruct IH. by split.
  - by eapply om_connect_linked.
  - by eapply om_run_linked.
Qed.

(** C21: the order manager serves the gateways that connected before [run] began,
    in turn, as long as no other gateway connects.  While it serves, it has at
    least one gateway, each of its gateway ids is a connection of its own, and
    the iterator stands at a gateway.  What has arrived from a gateway is, in
    order, what was read from its id followed by what still waits.  The [i]-th
    poll was for gateway [i mod n], and in every round of [n] polls every gateway
    had its turn. *)
Theorem gateways_served om :
  om_main om_serving om ->
  let w := ts_manager (om_inbound_server om) in
  let tr := ts_trace (om_inbound_server om) in
  let ids := gateway_connection_ids om in
  let n := length ids in
  (0 < n)%nat /\ NoDup ids /\ length ids = length (opened_handles tr) /\
  is_Some (ids !! gateway_ids_it om) /\
  (forall j id h, ids !! j = Some id -> opened_handles tr !! j = Some h ->
     all_arrived h tr = all_read id tr ++ queued_on w id) /\
  (forall i g, polls tr !! i = Some g -> ids !! (i mod n)%nat = Some g) /\
  (forall k j id, (S k * n <= length (polls tr))%nat -> ids !! j = Some id ->
     polls tr !! (k * n + j)%nat = Some id).
Proof.
  intros Hom. destruct (om_main_linked _ _ Hom ltac:(done)) as [Hr Hg Hnd _ Hs Hp]. simpl. destruct (Hs eq_refl) as [Hpos Hit].
  split; [done|]. split; [done|]. split; [by eapply Forall2_length|]. split.
  { apply lookup_lt_is_Some. rewrite Hit. apply Nat.mod_upper_bound. lia. }
  split; [|split; [done|]].
  - intros j id h Hid Hh. destruct Hr as [_ [e Hrun]].
    pose proof (Forall2_lookup_lr _ _ _ _ _ _ Hg Hid Hh) as Hm. simpl in Hm.
    by apply (rt_fifo _ _ (server_run_routed _ _ _ _ Hrun)).
  - intros k j id Hlen Hid. pose proof (lookup_lt_Some _ _ _ Hid) as Hj.
    destruct (lookup_lt_is_Some_2 (polls (ts_trace (om_inbound_server om)))
      (k * length (gateway_connection_ids om) + j)) as [g Hk]; [lia|].
    rewrite Hk. apply Hp in Hk. rewrite Nat.add_comm, Nat.Div0.mod_add, Nat.mod_small in Hk by lia. congruence.
Qed.
End OrderManagerMain.

(** ** Two gateways

    Handles 30 and 31; Alice's order arrives from the second one, and the order
    manager goes round twice. *)
#[local] Existing Instance toy_codec.

Abbreviation poll_om := (OrderManager (TracedServer unit) (WebsocketManager unit) (list db_entry)).

Definition poll_om0 : poll_om :=
  let om := new_order_manager ["GME"%string] (mkTraced (new_server ()) []) a_client a_client [] in
  ok_or (om_init "UAT" om) om.
Definition joins (om : poll_om) (h : nat) : poll_om := ok_or (om_open "uri" om h) om.
Definition poll_om1 : poll_om :=
  let om := joins (joins poll_om0 30) 31 in ok_or (connect_matching_engine om "ws://me:6001" 5) om.
Definition alice_request : string := serialize_container (CNewOrderSingle alice_order).
Definition poll_om2 : poll_om :=
  with_inbound poll_om1 (mkTraced (server_on_message (ts_manager (om_inbound_server poll_om1)) 31 alice_request)
    (ts_trace (om_inbound_server poll_om1) ++ [EvMessage 31 alice_request])).
Definition turn (om : poll_om) : poll_om := ok_or (om_run_iteration "UAT" (fun _ => "e"%string) om) om.
Definition poll_om6 : poll_om := turn (turn (turn (turn poll_om2))).

Lemma turn_step om :
  om_main "UAT" (fun _ => "e"%string) "uri" om_serving om ->
  om_run_iteration "UAT" (fun _ => "e"%string) om = Ok (turn om) ->
  om_main "UAT" (fun _ => "e"%string) "uri" om_serving (turn om).
Proof. apply omm_run. Qed.

Lemma joins_step om h :
  om_main "UAT" (fun _ => "e"%string) "uri" om_waiting om ->
  m_handle_to_connection_map (ts_manager (om_inbound_server om)) !! h = None ->
  om_open "uri" om h = Ok (joins om h) ->
  om_main "UAT" (fun _ => "e"%string) "uri" om_waiting (joins om h).
Proof. apply omm_open. Qed.

Lemma poll_om2_serves : om_main "UAT" (fun _ => "e"%string) "uri" om_serving poll_om2.
Proof.
  apply (omm_network _ _ _ _ poll_om1 (EvMessage 31 alice_request)).
  - apply (omm_connect _ _ _ (joins (joins poll_om0 30) 31) "ws://me:6001" 5); [|reflexivity|vm_compute; reflexivity].
    apply joins_step; [|reflexivity..]. apply joins_step; [|reflexivity..].
    apply (omm_init _ _ _ () ["GME"%string] a_client a_client []). vm_compute. reflexivity.
  - reflexivity.
  - apply ss_message. eexists. vm_compute. reflexivity.
Qed.

Lemma poll_om6_serves : om_main "UAT" (fun _ => "e"%string) "uri" om_serving poll_om6.
Proof.
  apply turn_step; [|vm_compute; reflexivity]. apply turn_step; [|vm_compute; reflexivity].
  apply turn_step; [|vm_compute; reflexivity]. apply turn_step; [|vm_compute; reflexivity].
  exact poll_om2_serves.
Qed.

Example poll_order : polls (ts_trace (om_inbound_server poll_om6)) = [0; 1; 0; 1].
Proof. vm_compute. reflexivity. Qed.

(** A third gateway connects while the order manager serves. *)
Example late_gateway :
  om_main "UAT" (fun _ => "e"%string) "uri" om_undefined (joins poll_om6 32) /\
  gateway_connection_ids (joins poll_om6 32) = [0; 1; 2].
Proof.
  split; [|vm_compute; reflexivity].
  apply (omm_late_open _ _ _ om_serving poll_om6 32); [exact poll_om6_serves|done|vm_compute; reflexivity..].
Qed.

Lemma gateways_served_witness :
  NoDup (gateway_connection_ids poll_om6) /\
  polls (ts_trace (om_inbound_server poll_om6)) !! 3%nat = Some 1 /\
  all_arrived 31 (ts_trace (om_inbound_server poll_om6)) =
    all_read 1 (ts_trace (om_inbound_server poll_om6)) ++
    queued_on (ts_manager (om_inbound_server poll_om6)) 1.
Proof.
  destruct (gateways_served "UAT" (fun _ => "e"%string) "uri" poll_om6 poll_om6_serves)
    as (_ & Hnd & _ & _ & Hfifo & _ & Hround).
  split; [exact Hnd|]. split.
  - apply (Hround 1%nat 1%nat 1); [vm_compute; lia|reflexivity].
  - apply (Hfifo 1%nat 1 31%nat); reflexivity.
Defined.

(** ** A request while the engine's connection is still opening

    [connect] returns an id at once, and the order manager starts to serve.  Until
    the connection is open websocketpp refuses to send on it. *)
Inductive Dialling := dialling.

#[export] Instance dialling_ep : Endpoint Dialling := {|
  ep_send e _ _ _ := (e, false); ep_close e _ _ := (e, false); ep_start_accept e := (e, true);
  ep_get_connection e _ := (e, Some 5%nat); ep_append_header e _ _ _ := e; ep_connect e _ := e;
  ep_is_server _ _ := false; ep_request_header _ _ _ := ""%string;
  ep_response_header _ _ _ := ""%string; ep_close_reason _ _ := ""%string
|}.

Abbreviation early_om := (OrderManager (WebsocketManager unit) (WebsocketManager Dialling) (list db_entry)).

Definition dialling_client : WebsocketManager Dialling := mkManager dialling ∅ ∅ 0 [].
Definition early_om0 : early_om :=
  let om := new_order_manager ["GME"%string] a_client dialling_client dialling_client [] in
  let om := ok_or (om_init "UAT" om) om in
  ok_or (connect_matching_engine om "ws://me:6001" 5) om.
Definition early_om1 : early_om :=
  ok_or (process_request "UAT" (fun _ => "e"%string) early_om0 0 alice_request) early_om0.

(** The status of the one report that the gateway got. *)
Definition reported_status (om : early_om) : option ExecTypeOrOrderStatus :=
  match sent_on (om_inbound_server om) 0 with
  | [m] => match deserialize_container m with
           | Ok (CExecutionReport r) => Some (er_ord_status r)
           | _ => None
           end
  | _ => None
  end.

(** Alice's order is confirmed, recorded as valid and her cash reserved, but it was
    never sent: the result of the send to the engine is ignored. *)
Example early_request_lost :
  process_request "UAT" (fun _ => "e"%string) early_om0 0 alice_request = Ok early_om1 /\
  m_status <$> m_id_to_connection_map (order_request_outbound_client early_om1) !! 0 = Some connecting /\
  sent_on (order_request_outbound_client early_om1) 0 = [] /\
  reported_status early_om1 = Some status_new /\
  balance_of (balance_checker early_om1) "alice" "USD" = 4000.
Proof. vm_compute. done. Qed.
